(* ===== verification/_CoqProject ===== *)
-Q . S2P
Prelude.v
Runs.v
GoStrings.v
GoNumbers.v
CosmosMath.v
Amounts.v
Assets.v
Coins.v
Pools.v
Constants.v
Sha256.v
Names.v
State.v
Txs.v
MemoTypes.v
MemoParser.v
MemoTexts.v
TradeAccounts.v
SecuredAssets.v
Streaming.v
Swap.v
PoolUnits.v
Halts.v
Fees.v
Supply.v
Positions.v
Liquidity.v
Withdraw.v
Nodes.v
Quorum.v
ObservedTx.v
Attest.v
Refunds.v
SwapHandler.v
SwapOrder.v
SwapQueue.v
Messages.v
Dispatch.v
Vaults.v
Gas.v
Layers.v
Slasher.v
Outbound.v
Internal.v
Inbound.v
Security.v
Affiliates.v
TxOuts.v
ChainState.v
Bonds.v
Mimirs.v
Upgrades.v
SWCY.v
Rewards.v
BondRewards.v
SWCYRewards.v
