(* ===== verification/Prelude.v ===== *)
(** * switchlynode: verification development

    The program is the state machine of a Cosmos SDK chain that runs a
    cross-chain exchange: pools of SWITCH against the assets of external
    chains, whose coins are held in vaults.  Its Go code is under src/x/switchly
    (keeper, handlers, managers), src/common (assets, coins, amounts) and
    src/constants.  This library models the parts that decide amounts of money
    and who gets them.

    ** How code becomes definitions

    A Go function is a function into [outcome] (a value, a non-nil error, or a
    panic) when it only computes, and into [M State] (state passing over
    [outcome]) when it reads or writes the key-value store, the bank or emits
    events.  An error keeps the state reached, as Go does; the rollback of a
    failed message is the caller's ([deposit_Run] and its like state what holds
    of a successful run).  [attempt] is a Go call whose error is only logged.
    [cosmos.Uint] is a [Z] whose operations fail outside 0..2^256-1, and
    [int64]/[uint64] conversions are written out ([to_i64], [to_u64],
    [as_uint64]).  Versioned functions keep their version switch: the versions
    below 3.0.0 answer with the bad-version error.  A [range] over a slice is
    structural recursion; the loops over block heights have fuel computed from
    their bounds, and theorems say that it is enough ([settle_blocks] of an
    outbound, [outbound_search_terminates]; [settle_ragnarok_ends]) or are about
    the bound of the code itself ([find_room], at most TxOutDelayMax steps).

    Code outside src/ is a class with laws: [CosmosMath] (cosmossdk.io/math,
    with the reference instance [cosmos_math_ref]) and [Bank] (the bank module,
    with [bank_ref]).  Libraries that only encode are classes too: [PubKeys],
    [ConsensusKeys], [KeyAddresses], [AddressCodec], [BCHAddresses] (keys and
    addresses), [Signatures] and [TxPayload] (what is signed), [TokenLists]
    (the embedded lists of tokens), [SortSlice] (the sort that is not stable),
    [Semver] (version texts), [Accounts] and [UpgradeKeeper] (modules of the SDK).
    [MapIteration] is the order in which a Go map is iterated, which the language
    leaves open, and [SWCYContract] an address that each build sets.
    [Env] holds what the process environment decides (network, module addresses,
    constants).  Handlers are written against interfaces of what they call:
    [Managers] (outbound queue, derived pools, TVL cap), [GasManager],
    [SaverSwaps], [WithdrawSwaps], [SwapParams], [FollowOns] and [OtherHandlers]
    (handlers that are not translated).  TxOuts and Gas hold the implementations
    of the outbound queue and of the gas manager, on the larger state that they
    need; the handlers' theorems hold for every instance.

    ** Files

    - Prelude: outcomes, the state monad, machine integers, sums, tactics.
    - CosmosMath: the class of cosmossdk.io/math and a reference instance.
    - Amounts (common/type_convert.go, math.go, significant_figures.go,
      cosmos/cosmos.go): shares, saturating subtraction, decimals, medians.
    - GoStrings: the part of package strings that the code uses.
    - Assets (common/asset.go, chain.go, symbol.go, ticker.go): parsing and
      printing, the forms of an asset, denominations.
    - Coins (common/coin.go, gas.go).
    - Pools (types/type_pool.go, type_liquidity_provider.go): units, values.
    - Constants (constants/): the table and its overrides.
    - State (keeper/v1): the store as one record of maps, the accessors, minting
      and burning.
    - Txs (common/tx.go, types of outbound items).
    - TradeAccounts, SecuredAssets: managers, messages and handlers of the two
      kinds of deposited balances.
    - Streaming (types/type_streaming_swap.go): the schedule of a streaming swap.
    - Swap (swap_current.go, helpers.go): emission, fees, one and two sub-swaps.
    - PoolUnits, Liquidity (handler_add_liquidity.go, handler_donate.go): units
      of an addition, pending halves, the handlers.
    - Halts (keeper_halt.go): halts and pauses by mimir.
    - Supply: facts on the cap of the SWITCH supply of [MintToModule].
    - Positions: the invariant between pools and liquidity providers.
    - Withdraw (withdraw.go, handler_withdraw.go): the amounts of a withdrawal,
      pool and position after it, the handler.
    - Runs: what runs in the monads leave unchanged, for whole components.
    - GoNumbers (strconv, math/big), Sha256: the parts of Go's library that
      memos and hashes need.
    - Names (types/type_switchlyname.go), MemoTypes, MemoParser, MemoTexts
      (memo/): names, every memo, its text and its parser, and that they agree.
    - Nodes (types/type_node_account.go, common/pubkey.go): node accounts, signer
      membership, bond providers.
    - Quorum (types/types.go and the voters of errata, solvency, bans, network
      fees, key generation and signing): majorities and sets of signers.
    - ObservedTx (types/type_observed_tx.go, common/type_observed_tx.go): the
      voter of a transaction, its consensus and its heights.
    - Attest (handler_observed_tx_helpers.go, handler_network_fee*.go, the keepers
      they use): what a report does to voters, slash points and fees.
    - Refunds (helpers.go): refunding a transaction, cleaning up what cannot be.
    - SwapHandler (handler_swap.go, types/msg_swap.go): checks and handling of one
      swap or sub-swap, over the state with queue, streams and collectors.
    - SwapOrder (manager_swap_queue.go): the order of the queue.
    - SwapQueue (manager_swap_queue_current.go): fetching, scoring and handling
      the swaps of a block.
    - Messages, Dispatch (types/msg_*.go, handler.go): the message of a memo.
    - Vaults (types/type_vault.go, keeper_vault.go, and the clean-up of
      manager_network_current.go): vaults, their index.
    - Fees (keeper_anchors.go, helpers.go): prices and fees in dollars.
    - Gas (manager_gas_current.go): rates, outbound fees, spent gas.
    - Layers: what runs of the inner states leave unchanged in the outer ones.
    - Slasher (manager_slasher_current.go): double signing, missed blocks, the
      slashing of vaults.
    - Outbound (handler_common_outbound.go, handler_outbound_tx.go,
      handler_refund.go, type_clout.go): observed outbounds and their items.
    - Internal (handler_migrate.go, handler_ragnarok.go, handler_noop.go,
      handler_consolidate.go, handler_switch.go, handler_maint.go, handler.go):
      handlers of the protocol's own transactions and their dispatch.
    - Inbound (handler_observed_txin.go, handler_observed_txout.go,
      handler_observed_tx_quorum.go and their helpers): what the agreement on a
      transaction sets off.
    - Security (keeper_vault.go, keeper_txout.go): vaults by bond over value.
    - Affiliates (helpers_affiliates.go): fees of affiliates.
    - TxOuts (manager_txout_current.go): preparation, scheduling, native payment
      of outbounds.
    - ChainState (keeper/v1): the rest of the store: bond providers, votes,
      stakers and claimers, proposals.
    - Bonds (handler_bond.go, handler_unbond.go, handler_leave.go, refundBond,
      keeper_node_account.go): bonding, unbonding, leaving, fees out of bonds.
    - Mimirs (type_mimir.go, keeper_mimir.go, handler_mimir.go,
      handler_node_pause_chain.go): the nodes' votes and pauses.
    - Upgrades (keeper_upgrade.go, handler_upgrade.go): proposals and their votes.
    - SWCY (keeper_swcy_*.go, handler_swcy_*.go): claims and stakes of SWCY.
    - Rewards (manager_network_current.go, helpers.go): the income of a block,
      its split by the pendulum and its payments, [UpdateNetwork].
    - BondRewards (manager_validator_current.go): the rewards of the nodes.
    - SWCYRewards (manager_network_current.go): the fund of the stakers of SWCY.

    The states nest: [State] is the part of the store the accounts and pools use,
    [ObsState] adds the records of nodes and observations to it, [QueueState]
    the swap queue, [VaultState] vaults, planned outbounds and what the managers
    keep during a block, and [ChainState] the records of bonding, votes, SWCY and
    upgrades.  [in_core], [in_obs], [on_core], [at_core], [observed], [in_queue],
    [in_vaults], [chain_obs] and [chain_core] run a call of an inner part in an
    outer one.

    ** What is proved

    Swaps: depths, fee and constant product of each sub-swap, the limit of a
    whole swap, the slip to the nearest basis point.  Liquidity: the books (units
    and pending amounts of a pool are the sums over its providers) are an
    invariant of additions, donations and withdrawals, of savers too unless one
    adds by two addresses (which loses units); an addition puts its amounts into
    the pool, or with what waits there, and dilutes nobody; a withdrawal pays what
    the pool loses, fairly, and pending amounts once.  Trade accounts and secured
    assets: conservation, proportional shares, no owner gets more than its part.
    Supply and halts: the cap of SWITCH and the circuit breaker.  Streaming
    swaps: the deposit is used up in the announced number of attempts.  Assets:
    parsing inverts printing and denominations do not clash.
    Observations: a voter refines the log of reports, conflicting consensus
    needs double reports, a transaction is acted on at most twice, a network fee
    is saved only with two thirds of the votes, and a message of observations
    fails just when its validation does, untouched; an agreed swap credits its vault once and is queued.
    Bond providers: the bond is shared out up to rounding.  Swap queue: a block
    takes swaps of the queue and no others, each once, in the order of slip; a
    queue without streaming swaps drains.  Memos: the text of a market swap within
    the parser's numbers reads back, and its message is its swap.  Vaults: funds
    stay typed, the index of Asgard vaults has all that are not inactive, and just
    those after its clean-up.  Outbounds: what the vaults send and what remains is the
    amount asked for, the accepted outputs wait in one block with room for them,
    an observed outbound settles the one item it pays or, when it pays none, its
    vault is slashed, and the
    search for it ends.  Money in modules: gas is reimbursed, its worth and to the unit, slashed
    bond stays covered, the affiliate collector can pay what it owes.  Bonds:
    what is bonded is credited to one node, what is unbonded is what its bond
    loses, a failed sweep of low bonds removes nobody and pays again.  Votes: a
    mimir changes only when the stored votes carry it, the economic value does
    not depend on the iteration of a map and the operational one does; an upgrade
    is planned only with two thirds of the active validators and dropped only by a
    rejection.  SWCY: a claim
    moves once, an unstaking pays a share of the stake.  Income: it is split
    without rest, leaves the reserve for the modules whose books record it, and
    the rewards of the nodes stay covered up to a unit per node; burning income
    needs a cap of the supply; the stakers' fund is shared by stakes.  Theorems that are not in
    the list of properties support these: the pool units of an addition, leaving,
    expired proposals, pauses by nodes, prices and secured assets among them.

    Each theorem that states a property of the program carries its identifier in
    the comment above it, and those with hypotheses are followed by a witness:
    the theorem applied to a concrete run.

    ** Bounds

    Theorems about amounts that pass through 18-digit decimals assume amounts
    of at most 10^17 base units per depth (a billion whole coins at 8 digits) or
    2^100 for unit counts, where the decimals do not overflow; the definitions
    themselves have no bound.

    ** Not modelled

    The selection of nodes at a churn, LackSigning of the slasher, of the network
    manager the pool's own liquidity, derived assets, the migration of funds and
    the ragnarok of pools, the handlers of errata, key generation and solvency, of SWITCHNames
    and node settings, and the advanced queue of limit swaps are not modelled yet: where a modelled
    component calls them they are interfaces.  Generated protobuf code,
    queriers, the command line and the genesis code only present or store data;
    src/bifrost (observers and signers) is network input and output around
    vendored libraries. *)

From stdpp Require Export base numbers list gmap strings option.
From stdpp Require Import fin_maps sorting.
From Stdlib Require Export ZArith Lia.

(** ** Results of Go code

    A Go function of the program either returns normally, returns a non-nil
    [error], or panics (out-of-range arithmetic of [sdkmath.Uint], a nil or
    out-of-range access, an explicit [panic]). *)

Definition error : Type := string.

Inductive outcome (A : Type) : Type :=
  | Ok (a : A)
  | Err (e : error)
  | Panic.
Arguments Ok {A} a.
Arguments Err {A} e.
Arguments Panic {A}.

#[export] Instance outcome_ret : MRet outcome := @Ok.
#[export] Instance outcome_bind : MBind outcome := λ A B f m,
  match m with Ok a => f a | Err e => Err e | Panic => Panic end.
#[export] Instance outcome_fmap : FMap outcome := λ A B f m,
  match m with Ok a => Ok (f a) | Err e => Err e | Panic => Panic end.

#[export] Instance outcome_eq_dec {A} `{EqDecision A} : EqDecision (outcome A).
Proof. solve_decision. Defined.

Definition is_ok {A} (m : outcome A) : bool :=
  match m with Ok _ => true | _ => false end.

(** [defer func() { if recover() ... }]: a panic becomes the value [d]. *)
Definition recover_with {A} (d : A) (m : outcome A) : outcome A :=
  match m with Panic => Ok d | _ => m end.

(** [if err := ...; err != nil] as a guard: fail with [e] when [b] holds. *)
Definition fail_if (b : bool) (e : error) : outcome () :=
  if b then Err e else Ok ().

Lemma bind_ok {A B} (m : outcome A) (f : A → outcome B) b :
  (m ≫= f) = Ok b ↔ ∃ a, m = Ok a ∧ f a = Ok b.
Proof. destruct m; simpl; naive_solver. Qed.

Lemma bind_err {A B} (m : outcome A) (f : A → outcome B) e :
  (m ≫= f) = Err e ↔ m = Err e ∨ ∃ a, m = Ok a ∧ f a = Err e.
Proof. destruct m; simpl; naive_solver. Qed.

Lemma bind_assoc {A B C} (m : outcome A) (f : A → outcome B) (g : B → outcome C) :
  ((m ≫= f) ≫= g) = (m ≫= λ a, f a ≫= g).
Proof. by destruct m. Qed.

Lemma fail_if_ok b e u : fail_if b e = Ok u ↔ b = false.
Proof. destruct b, u; naive_solver. Qed.

(** ** State passing

    Code that reads and writes the key-value store, the bank or a manager's
    fields is a function of the state; the state reached is returned with an
    error as well, because a Go error does not roll anything back by itself. *)

Definition M (S A : Type) : Type := S → outcome A * S.

#[export] Instance M_ret {S} : MRet (M S) := λ A a s, (Ok a, s).
#[export] Instance M_bind {S} : MBind (M S) := λ A B f m s,
  match m s with
  | (Ok a, s') => f a s'
  | (Err e, s') => (Err e, s')
  | (Panic, s') => (Panic, s')
  end.

Definition get {S} : M S S := λ s, (Ok s, s).
Definition gets {S A} (f : S → A) : M S A := λ s, (Ok (f s), s).
Definition modify {S} (f : S → S) : M S () := λ s, (Ok (), f s).
Definition lift {S A} (m : outcome A) : M S A := λ s, (m, s).
Definition throw {S A} (e : error) : M S A := λ s, (Err e, s).
Definition fail_when {S} (b : bool) (e : error) : M S () := lift (fail_if b e).

(** A call for every element, in order, up to the first error. *)
Fixpoint map_outcome {A B} (f : A → outcome B) (l : list A) : outcome (list B) :=
  match l with
  | [] => Ok []
  | x :: r => y ← f x; ys ← map_outcome f r; Ok (y :: ys)
  end.
Lemma map_outcome_ids {A} (f : A → outcome A) l : Forall (λ x, f x = Ok x) l → map_outcome f l = Ok l.
Proof. induction 1 as [|x l Hx Hl IH]; [done|]. cbn. by rewrite Hx, IH. Qed.

(** [_, err := f(); if err != nil { log }]: the error is observed, not
    returned.  A panic still propagates. *)
Definition attempt {S A} (m : M S A) : M S (A + error) := λ s,
  match m s with
  | (Ok a, s') => (Ok (inl a), s')
  | (Err e, s') => (Ok (inr e), s')
  | (Panic, s') => (Panic, s')
  end.

(** [for _, x := range xs { ... }] whose body only changes the state. *)
Fixpoint for_each {S A} (f : A → M S ()) (xs : list A) : M S () :=
  match xs with
  | [] => mret ()
  | x :: xs' => _ ← f x; for_each f xs'
  end.

Lemma M_bind_run {S A B} (m : M S A) (f : A → M S B) s a s1 : m s = (Ok a, s1) → (m ≫= f) s = f a s1.
Proof. unfold mbind, M_bind. by intros ->. Qed.
Lemma M_bind_ok {S A B} (m : M S A) (f : A → M S B) s b s' :
  (m ≫= f) s = (Ok b, s') ↔ ∃ a s1, m s = (Ok a, s1) ∧ f a s1 = (Ok b, s').
Proof.
  unfold mbind, M_bind. destruct (m s) as [[a|e|] s1]; naive_solver.
Qed.

(** The result and the state of a run whose result is known. *)
Lemma run_pair {S A} (p : outcome A * S) a : fst p = Ok a → p = (Ok a, snd p).
Proof. destruct p. by intros [= ->]. Qed.

Lemma lift_ok {S A} (m : outcome A) (s : S) a s' :
  lift m s = (Ok a, s') → m = Ok a ∧ s' = s.
Proof. by intros [= -> ->]. Qed.
Lemma gets_ok {S A} (f : S → A) s a s' : gets f s = (Ok a, s') → a = f s ∧ s' = s.
Proof. by intros [= -> ->]. Qed.
Lemma modify_ok {S} (f : S → S) s u s' : modify f s = (Ok u, s') → s' = f s.
Proof. by intros [= _ ->]. Qed.
Lemma ret_ok {S A} (a : A) (s : S) b s' : (mret a : M S A) s = (Ok b, s') → b = a ∧ s' = s.
Proof. by intros [= -> ->]. Qed.
Lemma fail_when_ok {S} b e (s : S) u s' : fail_when b e s = (Ok u, s') → b = false ∧ s' = s.
Proof. unfold fail_when, lift, fail_if. destruct b; [done|]. by intros [= _ ->]. Qed.
Lemma throw_ok {S A} e (s : S) (a : A) s' : throw e s = (Ok a, s') → False.
Proof. done. Qed.

(** ** Machine integers *)

Definition to_u64 (z : Z) : Z := z mod 2 ^ 64.
Definition to_i64 (z : Z) : Z := (z + 2 ^ 63) mod 2 ^ 64 - 2 ^ 63.

Lemma to_u64_range z : (0 ≤ to_u64 z < 2 ^ 64)%Z.
Proof. unfold to_u64. apply Z.mod_pos_bound. lia. Qed.

Lemma to_u64_id z : (0 ≤ z < 2 ^ 64)%Z → to_u64 z = z.
Proof. intros. unfold to_u64. by apply Z.mod_small. Qed.

Lemma to_i64_id z : (- 2 ^ 63 ≤ z < 2 ^ 63)%Z → to_i64 z = z.
Proof. intros. unfold to_i64. rewrite Z.mod_small; lia. Qed.

(** ** Sums over lists *)

Definition sumZ (l : list Z) : Z := foldr Z.add 0%Z l.

Lemma sumZ_app l1 l2 : sumZ (l1 ++ l2) = (sumZ l1 + sumZ l2)%Z.
Proof. induction l1; simpl; lia. Qed.

Lemma sumZ_nonneg l : Forall (λ z, 0 ≤ z)%Z l → (0 ≤ sumZ l)%Z.
Proof. induction 1; simpl; lia. Qed.

(** ** Sums over finite maps *)

Definition map_sum {K A} `{Countable K} (f : A → Z) (m : gmap K A) : Z :=
  map_fold (λ _ a acc, f a + acc)%Z 0%Z m.

Section map_sum.
  Context {K A : Type} `{Countable K}.
  Implicit Types (f : A → Z) (m : gmap K A).

Lemma map_sum_empty f : map_sum f (∅ : gmap K A) = 0%Z.
  Proof. apply map_fold_empty. Qed.

Lemma map_sum_insert_None f m k a :
    m !! k = None → map_sum f (<[k:=a]> m) = (f a + map_sum f m)%Z.
  Proof. intros Hk. unfold map_sum. apply (map_fold_insert_L (λ _ a acc, f a + acc)%Z); [intros; lia|done]. Qed.

Lemma map_sum_delete f m k a :
    m !! k = Some a → map_sum f m = (f a + map_sum f (delete k m))%Z.
  Proof.
    intros Hk. rewrite <- (map_sum_insert_None f (delete k m) k a) by apply lookup_delete_eq.
    by rewrite insert_delete_id.
  Qed.

  (** Replacing an entry changes the sum by the difference. *)
Lemma map_sum_insert f m k a :
    map_sum f (<[k:=a]> m) = (map_sum f m - from_option f 0 (m !! k) + f a)%Z.
  Proof.
    destruct (m !! k) as [b|] eqn:Hk; cbn.
    - rewrite <- (insert_delete_eq m k a), map_sum_insert_None by apply lookup_delete_eq.
      rewrite (map_sum_delete f m k b Hk). lia.
    - rewrite map_sum_insert_None by done. lia.
  Qed.

Lemma map_sum_nonneg f m :
    (∀ k a, m !! k = Some a → 0 ≤ f a)%Z → (0 ≤ map_sum f m)%Z.
  Proof.
    intros Hf. induction m as [|k a m Hk IH] using map_ind.
    - by rewrite map_sum_empty.
    - rewrite map_sum_insert_None by done.
      assert (0 ≤ f a)%Z by (apply (Hf k); apply lookup_insert_eq).
      assert (0 ≤ map_sum f m)%Z; [|lia].
      apply IH. intros j b Hj. apply (Hf j). rewrite lookup_insert_ne; [done|congruence].
  Qed.

  (** One entry is at most the sum. *)
Lemma map_sum_entry f m k a :
    (∀ j b, m !! j = Some b → 0 ≤ f b)%Z → m !! k = Some a → (f a ≤ map_sum f m)%Z.
  Proof.
    intros Hf Hk. rewrite (map_sum_delete f m k a Hk).
    assert (0 ≤ map_sum f (delete k m))%Z; [|lia].
    apply map_sum_nonneg. intros j b Hj. apply (Hf j). by apply lookup_delete_Some in Hj as [_ ?].
  Qed.
End map_sum.

(** ** Tactics *)

Create HintDb assets.
Create HintDb amounts.

(** Invert every [Ok]-producing bind and guard among the hypotheses. *)
Ltac ok_inv :=
  repeat match goal with
  | H : (_ ≫= _) = Ok _ |- _ => apply bind_ok in H as (? & ? & H)
  | H : (_ ≫= _) _ = (Ok _, _) |- _ => apply M_bind_ok in H as (? & ? & ? & H)
  | H : fail_if _ _ = Ok _ |- _ => apply fail_if_ok in H
  | H : Ok _ = Ok _ |- _ => injection H as H; subst
  | H : mret _ = Ok _ |- _ => injection H as H; subst
  | H : Err _ = Ok _ |- _ => discriminate H
  | H : Panic = Ok _ |- _ => discriminate H
  end.

(** The first step of the run [H]: its value [a], the state [s1] it reaches, and
    its equation [E]. *)
Ltac run_step H a s1 E := apply M_bind_ok in H as (a & s1 & E & H).

Ltac use_eq H :=
  match type of H with
  | ?x = ?x => clear H
  | ?x = _ => first [is_var x; subst x | idtac]
  end.

(** Invert the steps of a run that returned normally, as far as they are known. *)
Ltac run_inv :=
  repeat match goal with
  | u : () |- _ => destruct u
  | H : (_ ≫= _) _ = (Ok _, _) |- _ => apply M_bind_ok in H as (? & ? & ? & H)
  | H : lift _ _ = (Ok _, _) |- _ => apply lift_ok in H as [H ->]
  | H : gets _ _ = (Ok _, _) |- _ => apply gets_ok in H as [H ->]; use_eq H
  | H : modify _ _ = (Ok _, _) |- _ => apply modify_ok in H as ->
  | H : mret _ _ = (Ok _, _) |- _ => apply ret_ok in H as [H ->]; use_eq H
  | H : fail_when _ _ _ = (Ok _, _) |- _ => apply fail_when_ok in H as [H ->]
  | H : throw _ _ = (Ok _, _) |- _ => destruct (throw_ok _ _ _ _ H)
  end.

(** Pass a guard, which leaves the state alone. *)
Ltac pass_guard H :=
  let t := fresh "t" in let s1 := fresh "s1" in let E := fresh "Hg" in
  apply M_bind_ok in H as (t & s1 & E & H); apply fail_when_ok in E as [E ->].

(** Case analysis on the branch the run [E] starts with. *)
Ltac run_case E :=
  match type of E with (match ?b with _ => _ end) _ = _ => destruct b eqn:? end.

(** Case analysis on the boolean comparisons of [Z] in the goal. *)
Ltac zcases :=
  repeat match goal with
  | |- context [ (?a =? ?b)%Z ] => destruct (Z.eqb_spec a b)
  | |- context [ (?a <? ?b)%Z ] => destruct (Z.ltb_spec a b)
  | |- context [ (?a <=? ?b)%Z ] => destruct (Z.leb_spec a b)
  end.
