(* ===== verification/Runs.v ===== *)
(** * Properties of runs

    What a call of the state monad may do: report no error, leave the state
    alone, or keep a property of it, each with rules that follow the text of the
    program. *)

From S2P Require Import Prelude.

Create HintDb reads.

(** A call that may panic but reports no error. *)
Definition never_errs {S A} (m : M S A) : Prop := ∀ s e s', m s ≠ (Err e, s').
(** A call that leaves the state as it is, whatever it answers. *)
Definition only_reads {S A} (m : M S A) : Prop := ∀ s, snd (m s) = s.
(** From a state with [P] the call answers as [Q] says, or fails and leaves [R];
    nothing is said of a panic, which undoes the block. *)
Definition yields {S A} (R P : S → Prop) (m : M S A) (Q : A → S → Prop) : Prop := ∀ s, P s →
  match m s with
  | (Ok a, s') => Q a s'
  | (Err _, s') => R s'
  | (Panic, _) => True
  end.
(** A property that the call keeps, also when it fails. *)
Definition keeps {S A} (P : S → Prop) (m : M S A) : Prop := yields P P m (λ _, P).

Section NeverErrs.
  Context {S : Type}.

Lemma never_ret {A} (a : A) : never_errs (mret a : M S A).
Proof. by intros s e s'. Qed.
Lemma never_gets {A} (f : S → A) : never_errs (gets f).
Proof. by intros s e s'. Qed.
Lemma never_modify (f : S → S) : never_errs (modify f).
Proof. by intros s e s'. Qed.
Lemma never_attempt {A} (m : M S A) : never_errs (attempt m).
Proof. intros s e s'. unfold attempt. by destruct (m s) as [[]]. Qed.
Lemma never_lift {A} (o : outcome A) : (∀ e, o ≠ Err e) → never_errs (lift o : M S A).
Proof. intros Ho s e s' [= -> _]. by destruct (Ho e). Qed.
Lemma never_bind {A B} (m : M S A) (f : A → M S B) : never_errs m → (∀ a, never_errs (f a)) → never_errs (m ≫= f).
Proof.
  intros Hm Hf s e s' Hrun. unfold mbind, M_bind in Hrun. destruct (m s) as [[a|e'|] s1] eqn:E; [|by destruct (Hm s e' s1)|done].
  by apply (Hf a) in Hrun.
Qed.
Lemma never_for_each {A} (f : A → M S ()) l : (∀ a, never_errs (f a)) → never_errs (for_each f l).
Proof. intros Hf. induction l as [|x l IH]; [apply never_ret|]. apply never_bind; [apply Hf|intros _; apply IH]. Qed.
End NeverErrs.

Ltac never_step :=
  match goal with
  | |- never_errs (if ?b then _ else _) => destruct b
  | |- never_errs (match ?x with _ => _ end) => destruct x
  | |- never_errs (let _ := _ in _) => cbv zeta
  | |- ∀ _, never_errs _ => intro
  | |- never_errs (_ ≫= _) => apply never_bind
  | |- never_errs (mret _) => apply never_ret
  | |- never_errs (gets _) => apply never_gets
  | |- never_errs (modify _) => apply never_modify
  | |- never_errs (attempt _) => apply never_attempt
  | |- never_errs (for_each _ _) => apply never_for_each
  end.

Section OnlyReads.
  Context {S : Type}.

Lemma reads_ret {A} (a : A) : only_reads (mret a : M S A).
Proof. done. Qed.
Lemma reads_gets {A} (f : S → A) : only_reads (gets f).
Proof. done. Qed.
Lemma reads_lift {A} (o : outcome A) : only_reads (lift o : M S A).
Proof. done. Qed.
Lemma reads_throw {A} e : only_reads (throw e : M S A).
Proof. done. Qed.
Lemma reads_fail_when b e : only_reads (fail_when b e : M S ()).
Proof. done. Qed.
Lemma reads_attempt {A} (m : M S A) : only_reads m → only_reads (attempt m).
Proof. intros Hm s. specialize (Hm s). unfold attempt. by destruct (m s) as [[]]. Qed.
Lemma only_reads_bind {A B} (m : M S A) (f : A → M S B) : only_reads m → (∀ a, only_reads (f a)) → only_reads (m ≫= f).
Proof.
  intros Hm Hf s. specialize (Hm s). unfold mbind, M_bind. destruct (m s) as [[a|e|] s1]; cbn in Hm; subst; [apply Hf|done..].
Qed.
Lemma reads_run {A} (m : M S A) s : only_reads m → m s = (fst (m s), s).
Proof. intros Hm. specialize (Hm s). destruct (m s). cbn in *. by subst. Qed.
(** A run gets past a step that only reads. *)
Lemma reads_bind_run {A B} (m : M S A) (f : A → M S B) s a :
  only_reads m → fst (m s) = Ok a → (m ≫= f) s = f a s.
Proof. intros Hm Ha. apply M_bind_run. by rewrite (reads_run m s Hm), Ha. Qed.
Lemma bind_panics {A B} (m : M S A) (f : A → M S B) s : fst (m s) = Panic → fst ((m ≫= f) s) = Panic.
Proof. unfold mbind, M_bind. destruct (m s) as [[]]; cbn; congruence. Qed.
Lemma reads_bind_ok {A B} (m : M S A) (f : A → M S B) s b s' :
  only_reads m → (m ≫= f) s = (Ok b, s') → ∃ a, fst (m s) = Ok a ∧ f a s = (Ok b, s').
Proof.
  intros Hm. specialize (Hm s). unfold mbind, M_bind. destruct (m s) as [[a|e|] s1]; cbn in Hm; subst; [|done..].
  intros Hrun. by exists a.
Qed.
End OnlyReads.

Ltac read_past H x E := apply reads_bind_ok in H as (x & E & H); [|solve [eauto with reads]].


Ltac reads_step :=
  match goal with
  | |- only_reads (if ?b then _ else _) => destruct b
  | |- only_reads (match ?x with _ => _ end) => destruct x
  | |- only_reads (let _ := _ in _) => cbv zeta
  | |- ∀ _, only_reads _ => intro
  | |- only_reads (_ ≫= _) => apply only_reads_bind
  | |- only_reads (mret _) => apply reads_ret
  | |- only_reads (gets _) => apply reads_gets
  | |- only_reads (lift _) => apply reads_lift
  | |- only_reads (throw _) => apply reads_throw
  | |- only_reads (fail_when _ _) => apply reads_fail_when
  | |- only_reads (attempt _) => apply reads_attempt
  end.

Section Yields.
  Context {S : Type} (R : S → Prop).

Lemma yields_ret {A} (a : A) (P : S → Prop) (Q : A → S → Prop) : (∀ s, P s → Q a s) → yields R P (mret a) Q.
Proof. intros HQ s Hs. by apply HQ. Qed.
Lemma yields_modify (f : S → S) (P : S → Prop) (Q : () → S → Prop) : (∀ s, P s → Q () (f s)) → yields R P (modify f) Q.
Proof. intros HQ s Hs. by apply HQ. Qed.
(** A step that only reads: what was known stays known. *)
Lemma yields_reads {A} (P : S → Prop) (m : M S A) : only_reads m → (∀ s, P s → R s) → yields R P m (λ _, P).
Proof. intros Hm HR s Hs. rewrite (reads_run m s Hm). destruct (fst (m s)); [done|by apply HR|done]. Qed.
Lemma yields_bind {A B} (P : S → Prop) (m : M S A) (f : A → M S B) Q T :
  yields R P m Q → (∀ a, yields R (Q a) (f a) T) → yields R P (m ≫= f) T.
Proof.
  intros Hm Hf s Hs. specialize (Hm s Hs). unfold mbind, M_bind. destruct (m s) as [[a|e|] s1]; [by apply Hf|done..].
Qed.
Lemma yields_attempt {A} (P : S → Prop) (m : M S A) (Q : A + error → S → Prop) :
  (∀ e s, R s → Q (inr e) s) → yields R P m (λ a, Q (inl a)) → yields R P (attempt m) Q.
Proof. intros HQ Hm s Hs. specialize (Hm s Hs). unfold attempt. destruct (m s) as [[]]; auto. Qed.
Lemma yields_fail_when (P : S → Prop) b e : (∀ s, P s → R s) → yields R P (fail_when b e) (λ _ s, P s ∧ b = false).
Proof. intros HR s Hs. unfold fail_when, lift, fail_if. by destruct b; [apply HR|]. Qed.
Lemma yields_lift {A} (P : S → Prop) (o : outcome A) (Q : A → S → Prop) :
  (∀ e, o ≠ Err e) → (∀ a s, o = Ok a → P s → Q a s) → yields R P (lift o) Q.
Proof. intros He HQ s Hs. unfold lift. destruct o as [a|e|]; [by apply HQ|by destruct (He e)|done]. Qed.
(** A value that may be an error, on which [R] holds already. *)
Lemma yields_err {A} (P : S → Prop) (o : outcome A) (Q : A → S → Prop) :
  (∀ s, P s → R s) → (∀ a s, o = Ok a → P s → Q a s) → yields R P (lift o) Q.
Proof. intros HR HQ s Hs. unfold lift. destruct o as [a|e|]; [by apply HQ|by apply HR|done]. Qed.
Lemma yields_throw {A} (P : S → Prop) e (Q : A → S → Prop) : (∀ s, P s → R s) → yields R P (throw e) Q.
Proof. intros HR s Hs. by apply HR. Qed.
End Yields.

Lemma yields_weaken {S A} (R R' P P' : S → Prop) (m : M S A) Q Q' :
  (∀ s, R' s → R s) → (∀ s, P s → P' s) → (∀ a s, Q' a s → Q a s) → yields R' P' m Q' → yields R P m Q.
Proof. intros HR HP HQ Hm s Hs. specialize (Hm s (HP s Hs)). destruct (m s) as [[]]; auto. Qed.
Lemma keeps_bind {S A B} (P : S → Prop) (m : M S A) (f : A → M S B) : keeps P m → (∀ a, keeps P (f a)) → keeps P (m ≫= f).
Proof. intros Hm Hf. by apply (yields_bind P P m f (λ _, P)). Qed.
Lemma keeps_reads {S A} (P : S → Prop) (m : M S A) : only_reads m → keeps P m.
Proof. intros Hm. by apply yields_reads. Qed.
Lemma keeps_modify {S} (P : S → Prop) (f : S → S) : (∀ s, P s → P (f s)) → keeps P (modify f).
Proof. intros Hf. by apply yields_modify. Qed.
Lemma keeps_attempt {S A} (P : S → Prop) (m : M S A) : keeps P m → keeps P (attempt m).
Proof. intros Hm. by apply yields_attempt. Qed.
Lemma keeps_for_each {S A} (P : S → Prop) (f : A → M S ()) l : (∀ a, keeps P (f a)) → keeps P (for_each f l).
Proof. intros Hf. induction l as [|x l IH]; [by apply keeps_reads|]. apply keeps_bind; [apply Hf|intros _; apply IH]. Qed.

(** A step that only reads, before which [P] holds. *)
Ltac known_step := eapply yields_bind; [apply yields_reads; [solve [eauto with reads]|solve [auto]]|intros ?; cbn beta].

Ltac keeps_step :=
  match goal with
  | |- keeps _ (if ?b then _ else _) => destruct b
  | |- keeps _ (match ?x with _ => _ end) => destruct x
  | |- keeps _ (let _ := _ in _) => cbv zeta
  | |- ∀ _, keeps _ _ => intro
  | |- keeps _ (_ ≫= _) => apply keeps_bind
  | |- keeps _ (mret _) => apply keeps_reads, reads_ret
  | |- keeps _ (gets _) => apply keeps_reads, reads_gets
  | |- keeps _ (lift _) => apply keeps_reads, reads_lift
  | |- keeps _ (throw _) => apply keeps_reads, reads_throw
  | |- keeps _ (fail_when _ _) => apply keeps_reads, reads_fail_when
  | |- keeps _ (attempt _) => apply keeps_attempt
  | |- keeps _ (for_each _ _) => apply keeps_for_each
  end.
#[export] Hint Resolve reads_ret reads_gets reads_lift reads_throw reads_fail_when reads_attempt : reads.

(** A call that keeps [P] and whose answer is as [T] says. *)
Definition answers {S A} (P : S → Prop) (m : M S A) (T : A → Prop) : Prop := yields P P m (λ a s, T a ∧ P s).
Section Answers.
  Context {S : Type} (P : S → Prop).
Lemma answers_ret {A} (a : A) (T : A → Prop) : T a → answers P (mret a) T.
Proof. intros Ha s Hs. by split. Qed.
Lemma answers_keeps {A} (m : M S A) : keeps P m → answers P m (λ _, True).
Proof. intros Hm. eapply yields_weaken; [| | |exact Hm]; by auto. Qed.
Lemma answers_lift {A} (o : outcome A) (T : A → Prop) : (∀ a, o = Ok a → T a) → answers P (lift o) T.
Proof. intros Ho s Hs. unfold lift. destruct o as [a|e|]; [split; [by apply Ho|done]|done..]. Qed.
Lemma answers_bind {A B} (m : M S A) (f : A → M S B) T U :
  answers P m T → (∀ a, T a → answers P (f a) U) → answers P (m ≫= f) U.
Proof. intros Hm Hf. eapply yields_bind; [exact Hm|]. intros a s [Ha Hs]. by apply Hf. Qed.
Lemma answers_after {A B} (m : M S A) (f : A → M S B) U : keeps P m → (∀ a, answers P (f a) U) → answers P (m ≫= f) U.
Proof. intros Hm Hf. apply (answers_bind _ _ (λ _, True)); [by apply answers_keeps|auto]. Qed.
Lemma answers_throw {A} e (T : A → Prop) : answers P (throw e : M S A) T.
Proof. by intros s Hs. Qed.
End Answers.
