(* ===== verification/GoStrings.v ===== *)
(** * Go string operations

    The parts of package [strings] the program uses, on byte strings.  Letter
    case is that of ASCII: the program only keeps strings whose symbols,
    chains and addresses it has checked to be ASCII. *)

From Stdlib Require Import Ascii.
From S2P Require Import Prelude.
Open Scope nat_scope.

Definition code (c : ascii) : nat := nat_of_ascii c.
Definition is_upper (c : ascii) : bool := (65 <=? code c) && (code c <=? 90).
Definition is_lower (c : ascii) : bool := (97 <=? code c) && (code c <=? 122).
Definition is_digit (c : ascii) : bool := (48 <=? code c) && (code c <=? 57).
Definition is_space (c : ascii) : bool :=
  ((9 <=? code c) && (code c <=? 13)) || (code c =? 32).

Definition upper (c : ascii) : ascii :=
  if is_lower c then ascii_of_nat (code c - 32) else c.
Definition lower (c : ascii) : ascii :=
  if is_upper c then ascii_of_nat (code c + 32) else c.

Fixpoint str_map (f : ascii → ascii) (s : string) : string :=
  match s with EmptyString => EmptyString | String c s' => String (f c) (str_map f s') end.
Fixpoint str_forall (p : ascii → bool) (s : string) : bool :=
  match s with EmptyString => true | String c s' => p c && str_forall p s' end.

Definition ToUpper : string → string := str_map upper.
Definition ToLower : string → string := str_map lower.
Definition EqualFold (s t : string) : bool := bool_decide (ToUpper s = ToUpper t).
(** [strings.TrimSpace(s) == ""] *)
Definition blank (s : string) : bool := str_forall is_space s.
#[global] Arguments blank : simpl never.

(** The first byte of the string with property [p], and what is around it:
    [strings.SplitN(s, sep, 2)] for a one-byte separator, and the first match
    of a character class. *)
Fixpoint split_first (p : ascii → bool) (s : string) : option (string * ascii * string) :=
  match s with
  | EmptyString => None
  | String c s' =>
      if p c then Some (EmptyString, c, s')
      else match split_first p s' with
           | Some (pre, sep, post) => Some (String c pre, sep, post)
           | None => None
           end
  end.

Definition is_char (c d : ascii) : bool := bool_decide (c = d).

(** [strings.SplitN(s, "-", 2)[0]] *)
Definition before (sep : ascii) (s : string) : string :=
  match split_first (is_char sep) s with Some (pre, _, _) => pre | None => s end.

(** ** Facts *)

Ltac all_chars c := destruct c as [[] [] [] [] [] [] [] []]; vm_compute.

Lemma upper_idem c : upper (upper c) = upper c.
Proof. all_chars c; reflexivity. Qed.
Lemma upper_lower c : upper (lower c) = upper c.
Proof. all_chars c; reflexivity. Qed.

Lemma ToUpper_idem s : ToUpper (ToUpper s) = ToUpper s.
Proof. induction s; cbn; [done|]. by rewrite upper_idem, IHs. Qed.
Lemma lower_upper c : lower (upper c) = lower c.
Proof. all_chars c; reflexivity. Qed.
Lemma ToLower_ToUpper s : ToLower (ToUpper s) = ToLower s.
Proof. induction s; cbn; [done|]. by rewrite lower_upper, IHs. Qed.
Lemma ToUpper_ToLower s : ToUpper (ToLower s) = ToUpper s.
Proof. induction s; cbn; [done|]. by rewrite upper_lower, IHs. Qed.

(** [String.append] does not unfold by itself. *)
Lemma app_cons c s t : String c s +:+ t = String c (s +:+ t).
Proof. done. Qed.
Lemma app_nil s : "" +:+ s = s.
Proof. done. Qed.

Lemma str_map_app f s t : str_map f (s +:+ t) = str_map f s +:+ str_map f t.
Proof. induction s; [done|]. cbn. rewrite !app_cons. cbn. by rewrite IHs. Qed.

Lemma str_forall_app p s t : str_forall p (s +:+ t) = str_forall p s && str_forall p t.
Proof. induction s; [done|]. rewrite app_cons. cbn. by rewrite IHs, andb_assoc. Qed.

Lemma str_app_assoc (s t u : string) : (s +:+ t) +:+ u = s +:+ (t +:+ u).
Proof. induction s; [done|]. rewrite !app_cons. by rewrite IHs. Qed.

Lemma str_length_app s t : String.length (s +:+ t) = String.length s + String.length t.
Proof. induction s; [done|]. rewrite app_cons. cbn. by rewrite IHs. Qed.

Lemma str_forall_map p f s : str_forall p (str_map f s) = str_forall (p ∘ f) s.
Proof. induction s; cbn; [done|]. by rewrite IHs. Qed.

Lemma str_forall_impl (p q : ascii → bool) s :
  (∀ c, p c = true → q c = true) → str_forall p s = true → str_forall q s = true.
Proof.
  intros Hpq. induction s; cbn; [done|]. rewrite !andb_true_iff. intros [??]. auto.
Qed.

Lemma str_map_id f s : str_forall (λ c, bool_decide (f c = c)) s = true → str_map f s = s.
Proof.
  induction s as [|c s IH]; cbn; [done|]. rewrite andb_true_iff, bool_decide_eq_true.
  intros [-> ?]. by rewrite IH.
Qed.

Lemma upper_string_id s : str_forall is_upper s = true → ToUpper s = s.
Proof.
  intros Hs. apply str_map_id. revert Hs. apply str_forall_impl.
  intros c. all_chars c; done.
Qed.

Lemma length_str_map f s : String.length (str_map f s) = String.length s.
Proof. induction s; cbn; congruence. Qed.

Lemma EqualFold_refl s : EqualFold s s = true.
Proof. by apply bool_decide_eq_true. Qed.

Lemma EqualFold_sym s t : EqualFold s t = EqualFold t s.
Proof. apply bool_decide_ext. split; congruence. Qed.

Lemma split_first_sound p s pre c post :
  split_first p s = Some (pre, c, post) →
  s = pre +:+ String c post ∧ p c = true ∧ str_forall (negb ∘ p) pre = true.
Proof.
  revert pre. induction s as [|d s IH]; intros pre; cbn; [done|].
  destruct (p d) eqn:Hd.
  - intros [= <- -> ->]. done.
  - destruct (split_first p s) as [[[pre' c'] post']|] eqn:Hs; [|done].
    intros [= <- -> ->]. destruct (IH pre' eq_refl) as (-> & ? & ?).
    rewrite app_cons. split; [done|]. split; [done|]. cbn. by rewrite Hd.
Qed.

Lemma split_first_app p pre c post :
  str_forall (negb ∘ p) pre = true → p c = true →
  split_first p (pre +:+ String c post) = Some (pre, c, post).
Proof.
  intros Hpre Hc. induction pre as [|d pre IH].
  - rewrite app_nil. cbn. by rewrite Hc.
  - rewrite app_cons. cbn in *. apply andb_true_iff in Hpre as [Hd Hpre]. rewrite negb_true_iff in Hd.
    by rewrite Hd, (IH Hpre).
Qed.

Lemma split_first_none p s : split_first p s = None ↔ str_forall (negb ∘ p) s = true.
Proof.
  induction s as [|c s IH]; cbn; [done|]. destruct (p c); cbn; [done|].
  destruct (split_first p s) as [[[??]?]|]; naive_solver.
Qed.

(** Splitting at a byte that is not a letter commutes with a change of case. *)
Lemma split_first_map p f s :
  (∀ c, p (f c) = p c) →
  split_first p (str_map f s) =
    (λ '(pre, c, post), (str_map f pre, f c, str_map f post)) <$> split_first p s.
Proof.
  intros Hp. induction s as [|c s IH]; cbn; [done|]. rewrite Hp.
  destruct (p c); [done|]. rewrite IH.
  by destruct (split_first p s) as [[[??]?]|].
Qed.

Lemma before_upper s : before "-" (ToUpper s) = ToUpper (before "-" s).
Proof.
  unfold before, ToUpper. rewrite split_first_map.
  - by destruct (split_first _ s) as [[[??]?]|].
  - intros c. all_chars c; reflexivity.
Qed.

Lemma before_forall p sep s : str_forall p s = true → str_forall p (before sep s) = true.
Proof.
  unfold before. destruct (split_first _ s) as [[[pre c] post]|] eqn:Hs; [|done].
  apply split_first_sound in Hs as (-> & _ & _). rewrite str_forall_app, andb_true_iff. tauto.
Qed.

Lemma before_length sep s : String.length (before sep s) <= String.length s.
Proof.
  unfold before. destruct (split_first _ s) as [[[pre c] post]|] eqn:Hs; [|lia].
  apply split_first_sound in Hs as (-> & _ & _). rewrite str_length_app. cbn. lia.
Qed.

Lemma string_app_inj_length (s1 s2 t1 t2 : string) :
  String.length s1 = String.length s2 → s1 +:+ t1 = s2 +:+ t2 → s1 = s2 ∧ t1 = t2.
Proof.
  revert s2. induction s1 as [|c s1 IH]; intros [|d s2]; try done.
  rewrite !app_cons. cbn. intros [= Hl] [= -> He]. by destruct (IH s2 Hl He) as [-> ->].
Qed.

Lemma blank_upper x : blank (ToUpper x) = blank x.
Proof.
  unfold blank, ToUpper. rewrite str_forall_map. induction x as [|c x IH]; cbn; [done|].
  rewrite IH. f_equal. all_chars c; reflexivity.
Qed.
