(* ===== verification/GoNumbers.v ===== *)
(** * Lists of strings and numbers in text

    What the program uses of Go's packages strings (splitting and joining),
    strconv (integers) and math/big (floats): texts of numbers and the numbers
    they are. *)

From Stdlib Require Import Ascii.
From stdpp Require Import pretty.
From S2P Require Import Prelude GoStrings.
Open Scope Z_scope.

(** ** Splitting and joining *)

(** [strings.Split] by a separator of one byte: never empty. *)
Fixpoint Split (sep : ascii) (s : string) : list string :=
  match s with
  | EmptyString => [EmptyString]
  | String c r =>
      if is_char sep c then EmptyString :: Split sep r
      else match Split sep r with
           | h :: t => String c h :: t
           | [] => [String c EmptyString]
           end
  end.

(** [strings.SplitN]: at most [n] parts, the last with what remains. *)
Fixpoint SplitN (sep : ascii) (n : nat) (s : string) : list string :=
  match n with
  | O => []
  | 1%nat => [s]
  | S n => match split_first (is_char sep) s with
           | Some (pre, _, post) => pre :: SplitN sep n post
           | None => [s]
           end
  end.

Fixpoint Join (sep : string) (l : list string) : string :=
  match l with
  | [] => EmptyString
  | [s] => s
  | s :: r => s +:+ sep +:+ Join sep r
  end.

Definition HasSuffix (s suffix : string) : bool :=
  let n := String.length s in let k := String.length suffix in
  (k <=? n)%nat && bool_decide (String.substring (n - k) k s = suffix).
Definition Contains (c : ascii) (s : string) : bool := negb (str_forall (negb ∘ is_char c) s).
Definition without (c : ascii) (s : string) : Prop := str_forall (negb ∘ is_char c) s = true.

Lemma is_char_self c : is_char c c = true.
Proof. by apply bool_decide_eq_true. Qed.

Lemma Split_without sep s : without sep s → Split sep s = [s].
Proof.
  unfold without. induction s as [|c s IH]; [done|]. cbn. rewrite andb_true_iff. intros [Hc Hs].
  apply negb_true_iff in Hc. by rewrite Hc, IH.
Qed.
Lemma Split_cons sep s r : without sep s → Split sep (s +:+ String sep r) = s :: Split sep r.
Proof.
  unfold without. induction s as [|c s IH]; cbn.
  - intros _. change ("" +:+ String sep r) with (String sep r). cbn. by rewrite is_char_self.
  - rewrite andb_true_iff, app_cons. intros [Hc Hs]. apply negb_true_iff in Hc. cbn. by rewrite Hc, IH.
Qed.

Lemma Split_Join sep l :
  l ≠ [] → Forall (without sep) l → Split sep (Join (String sep EmptyString) l) = l.
Proof.
  induction l as [|s l IH]; [done|]. intros _ Hl. apply list.Forall_cons in Hl as [Hs Hl].
  destruct l as [|t l]; [by apply Split_without|].
  change (Join (String sep "") (s :: t :: l)) with (s +:+ String sep (Join (String sep "") (t :: l))).
  by rewrite Split_cons, IH.
Qed.

Lemma Split_nonempty sep s : Split sep s ≠ [].
Proof. destruct s as [|c s]; [done|]. cbn. case_match; [done|]. by case_match. Qed.

Lemma Split_app sep a d : Split sep (a +:+ String sep d) = (Split sep a ++ Split sep d)%list.
Proof.
  induction a as [|c a IH]; [rewrite app_nil; cbn; by rewrite is_char_self|].
  rewrite app_cons. cbn [Split]. rewrite IH. destruct (is_char sep c); [done|].
  destruct (Split sep a) eqn:E; [by apply Split_nonempty in E|done].
Qed.
Lemma last_Split sep a d : without sep d → List.last (Split sep (a +:+ String sep d)) EmptyString = d.
Proof. intros Hd. rewrite Split_app, (Split_without sep d) by done. apply List.last_last. Qed.

(** ** Digits *)

Definition digit_value (c : ascii) : Z := Z.of_nat (code c) - 48.
(** The number of a text of digits, continued from [n]. *)
Fixpoint digits_from (n : Z) (s : string) : option Z :=
  match s with
  | EmptyString => Some n
  | String c r => if is_digit c then digits_from (10 * n + digit_value c) r else None
  end.
Definition digits (s : string) : option Z := if bool_decide (s = "") then None else digits_from 0 s.

Lemma digits_from_nonneg n s v : digits_from n s = Some v → 0 <= n → 0 <= v.
Proof.
  revert n. induction s as [|c s IH]; intros n; cbn; [by intros [= <-]|].
  destruct (is_digit c) eqn:Hc; [|done]. intros Hd Hn. eapply IH; [exact Hd|].
  assert (0 <= digit_value c) by (revert Hc; clear; all_chars c; done). lia.
Qed.

(** [strconv.ParseUint(s, 10, 64)] *)
Definition ParseUint64 (s : string) : option Z :=
  match digits s with
  | Some n => if n <? 2 ^ 64 then Some n else None
  | None => None
  end.

Definition int64_text (s : string) (sign : Z) : option Z :=
  match digits s with
  | Some n => let v := sign * n in if (- 2 ^ 63 <=? v) && (v <? 2 ^ 63) then Some v else None
  | None => None
  end.
(** [strconv.ParseInt(s, 10, 64)] *)
Definition ParseInt64 (s : string) : option Z :=
  match s with
  | String c r =>
      if is_char "-" c then int64_text r (-1) else if is_char "+" c then int64_text r 1 else int64_text s 1
  | EmptyString => None
  end.
(** [strconv.Atoi], where an [int] has 64 bits *)
Definition Atoi : string → option Z := ParseInt64.

(** The text of a number is digits, and reads back as the number. *)
Lemma digit_of (x : N) : (x < 10)%N →
  is_digit (pretty_N_char x) = true ∧ digit_value (pretty_N_char x) = Z.of_N x.
Proof.
  intros Hx. assert (x = 0 ∨ x = 1 ∨ x = 2 ∨ x = 3 ∨ x = 4 ∨ x = 5 ∨ x = 6 ∨ x = 7 ∨ x = 8 ∨ x = 9)%N as Hc by lia.
  destruct_or? Hc; subst; done.
Qed.

Lemma pretty_go_digits x s :
  (str_forall is_digit s = true → str_forall is_digit (pretty_N_go x s) = true) ∧
  digits_from 0 (pretty_N_go x s) = digits_from (Z.of_N x) s.
Proof.
  revert s. induction (N.lt_wf_0 x) as [x _ IH]; intros s.
  destruct (decide (x = 0)%N) as [->|Hx]; [by rewrite pretty_N_go_0|].
  rewrite pretty_N_go_step by lia.
  destruct (digit_of (x `mod` 10)%N) as [Hd Hv]; [by apply N.mod_lt|].
  destruct (IH (x `div` 10)%N) with (s := String (pretty_N_char (x `mod` 10)) s) as [IH1 IH2];
    [by apply N.div_lt; lia|]. split.
  - intros Hs. apply IH1. cbn. by rewrite Hd.
  - rewrite IH2. cbn [digits_from]. rewrite Hd, Hv. f_equal. rewrite N2Z.inj_div, N2Z.inj_mod.
    pose proof (Z.div_mod (Z.of_N x) 10). lia.
Qed.

Lemma pretty_digits (n : Z) : 0 <= n → str_forall is_digit (pretty n) = true ∧ digits (pretty n) = Some n.
Proof.
  intros Hn. destruct n as [|n|n]; [done| |lia].
  change (pretty (Z.pos n)) with (pretty_N_go (N.pos n) "").
  destruct (pretty_go_digits (N.pos n) "") as [Hd Hv]. split; [by apply Hd|].
  unfold digits. rewrite Hv. rewrite bool_decide_false; [done|].
  intros E. rewrite E in Hv. done.
Qed.
Lemma pretty_nonempty (n : Z) : 0 <= n → pretty n ≠ "".
Proof. intros Hn E. destruct (pretty_digits n Hn) as [_ Hd]. by rewrite E in Hd. Qed.

Lemma digits_without c s : is_digit c = false → str_forall is_digit s = true → without c s.
Proof.
  intros Hc. apply str_forall_impl. intros d Hd. cbn. apply negb_true_iff, bool_decide_eq_false. congruence.
Qed.
Lemma pretty_without c (n : Z) : 0 <= n → is_digit c = false → without c (pretty n).
Proof. intros Hn Hc. apply digits_without; [done|]. by apply pretty_digits. Qed.

Lemma digits_upper s : str_forall is_digit s = true → ToUpper s = s.
Proof. intros Hs. apply str_map_id. revert Hs. apply str_forall_impl. intros c. all_chars c; done. Qed.

Lemma ParseUint64_pretty n : 0 <= n < 2 ^ 64 → ParseUint64 (pretty n) = Some n.
Proof.
  intros [Hn Hm]. unfold ParseUint64. destruct (pretty_digits n Hn) as [_ ->].
  by rewrite (proj2 (Z.ltb_lt n (2 ^ 64))).
Qed.
Lemma ParseInt64_pretty n : 0 <= n < 2 ^ 63 → ParseInt64 (pretty n) = Some n.
Proof.
  intros [Hn Hm]. destruct (pretty_digits n Hn) as [Hd Hv]. unfold ParseInt64.
  destruct (pretty n) as [|c r] eqn:E; [done|].
  assert (Hc : is_char "-" c = false ∧ is_char "+" c = false).
  { apply andb_true_iff in Hd as [Hc _]. clear -Hc. revert Hc. all_chars c; done. }
  destruct Hc as [-> ->]. unfold int64_text. rewrite Hv, Z.mul_1_l.
  by rewrite (proj2 (Z.leb_le _ n)), (proj2 (Z.ltb_lt n _)) by lia.
Qed.

(** ** Floats of math/big

    [big.ParseFloat(s, 10, 0, big.ToZero)] reads a decimal number into 64 bits
    of mantissa; [f.Int] is what remains without the fraction. *)

Definition MaxExp : Z := 2 ^ 31 - 1.
Definition MinExp : Z := - 2 ^ 31.

(** A float without its sign: [FFin m e] is m*2^e, for m > 0. *)
Inductive bigfloat := FZero | FFin (m e : Z) | FInf.

Definition bits (m : Z) : Z := Z.log2 m + 1.
(** [m] without its last [d] bits, rounded to zero or to the nearest (even). *)
Definition drop_bits (nearest : bool) (m d : Z) : Z :=
  let q := Z.shiftr m d in
  let r := m - Z.shiftl q d in
  let half := Z.shiftl 1 (d - 1) in
  if nearest && ((half <? r) || ((half =? r) && Z.odd q)) then q + 1 else q.
Definition round (nearest : bool) (prec m e : Z) : bigfloat :=
  let d := bits m - prec in
  let '(m, e) := if 0 <? d then (drop_bits nearest m d, e + d) else (m, e) in
  let exp := bits m + e in
  if exp <? MinExp then FZero else if MaxExp <? exp then FInf else FFin m e.

Definition fmul (nearest : bool) (prec : Z) (x y : bigfloat) : bigfloat :=
  match x, y with
  | FFin m e, FFin m' e' => round nearest prec (m * m') (e + e')
  | FZero, _ | _, FZero => FZero
  | _, _ => FInf
  end.
(** A quotient rounded to zero: enough bits of it to round, and nothing of a
    remainder. *)
Definition fquo (prec : Z) (x y : bigfloat) : bigfloat :=
  match x, y with
  | FFin m e, FFin m' e' =>
      let d := Z.max 0 (prec + bits m' - bits m + 1) in
      round false prec (Z.shiftl m d / m') (e - e' - d)
  | FInf, _ => FInf
  | _, _ => FZero
  end.

(** [Float.pow5]: powers up to 27 are exact, larger ones by squaring with
    rounding. *)
Fixpoint pow5_squares (fuel : nat) (prec : Z) (n : Z) (z f : bigfloat) : bigfloat :=
  match fuel with
  | O => z
  | S fuel =>
      if n <=? 0 then z
      else pow5_squares fuel prec (Z.shiftr n 1) (if Z.odd n then fmul true prec z f else z)
             (fmul true (prec + 64) f f)
  end.
Definition pow5 (prec n : Z) : bigfloat :=
  if n <=? 27 then FFin (5 ^ n) 0 else pow5_squares 64 prec (n - 27) (FFin (5 ^ 27) 0) (FFin 5 0).

(** The digits of a mantissa: number, how many digits, how many of them after a
    point (negative or, without a point, zero), and the rest. *)
Fixpoint scan_mantissa (n count frac : Z) (point : bool) (s : string) : Z * Z * Z * string :=
  match s with
  | EmptyString => (n, count, frac, s)
  | String c r =>
      if is_digit c
      then scan_mantissa (10 * n + digit_value c) (count + 1) (if point then frac - 1 else frac) point r
      else if is_char "." c && negb point then scan_mantissa n count frac true r
      else (n, count, frac, s)
  end.
Fixpoint scan_digits (s : string) : string * string :=
  match s with
  | EmptyString => (EmptyString, EmptyString)
  | String c r =>
      if is_digit c then let '(ds, rest) := scan_digits r in (String c ds, rest) else (EmptyString, s)
  end.

(** An exponent of ten or, after p, of two. *)
Definition scan_exponent (s : string) : option (Z * bool * string) :=
  match s with
  | EmptyString => Some (0, true, s)
  | String c r =>
      if is_char "e" c || is_char "E" c || is_char "p" c || is_char "P" c then
        let ten := is_char "e" c || is_char "E" c in
        let '(sign, r) := match r with
                          | String d r' => if is_char "-" d then (-1, r') else if is_char "+" d then (1, r') else (1, r)
                          | EmptyString => (1, r)
                          end in
        let '(ds, rest) := scan_digits r in
        match int64_text ds sign with
        | Some v => Some (v, ten, rest)
        | None => None
        end
      else Some (0, true, s)
  end.

Definition scan_float (s : string) : option bigfloat :=
  let '(m, count, frac, rest) := scan_mantissa 0 0 0 false s in
  if count =? 0 then None
  else
    match scan_exponent rest with
    | Some (exp, ten, EmptyString) =>
        if m =? 0 then Some FZero
        else
          let exp5 := if ten : bool then to_i64 (frac + exp) else frac in
          let exp2 := to_i64 (bits m + frac + exp) in
          if (exp2 <? MinExp) || (MaxExp <? exp2) then None
          else
            let z := FFin m (exp2 - bits m) in
            Some (if exp5 =? 0 then round false 64 m (exp2 - bits m)
                  else if exp5 <? 0 then fquo 64 z (pow5 128 (- exp5))
                  else fmul false 64 z (pow5 128 exp5))
    | _ => None
    end.

(** [f.Int(i)] for a new [i]: an infinite float leaves it zero. *)
Definition float_int (f : bigfloat) : Z :=
  match f with FFin m e => Z.shiftl m e | _ => 0 end.

Definition signed (s : string) : Z * string :=
  match s with
  | String c r => if is_char "-" c then (-1, r) else if is_char "+" c then (1, r) else (1, s)
  | EmptyString => (1, s)
  end.
Definition ParseFloatInt (s : string) : option Z :=
  let '(sign, r) := signed s in
  if bool_decide (r = "Inf") || bool_decide (r = "inf") then Some 0
  else match scan_float r with
       | Some f => Some (sign * float_int f)
       | None => None
       end.

(** A number of up to 64 bits is read exactly. *)
Lemma scan_mantissa_digits n count s :
  str_forall is_digit s = true →
  scan_mantissa n count 0 false s =
  (default 0 (digits_from n s), count + Z.of_nat (String.length s), 0, "").
Proof.
  revert n count. induction s as [|c s IH]; intros n count; cbn; [by rewrite Z.add_0_r|].
  rewrite andb_true_iff. intros [-> Hs]. rewrite IH by done. do 3 f_equal. lia.
Qed.

Lemma ParseFloatInt_pretty n : 0 <= n < 2 ^ 64 → ParseFloatInt (pretty n) = Some n.
Proof.
  intros [Hn Hm]. destruct (pretty_digits n Hn) as [Hd Hv]. pose proof (pretty_nonempty n Hn) as Hne.
  unfold ParseFloatInt.
  assert (Hs : signed (pretty n) = (1, pretty n)).
  { destruct (pretty n) as [|c r]; [done|]. apply andb_true_iff in Hd as [Hc _]. unfold signed.
    assert (is_char "-" c = false ∧ is_char "+" c = false) as [-> ->] by (revert Hc; all_chars c; done). done. }
  rewrite Hs.
  assert (Hinf : bool_decide (pretty n = "Inf") = false ∧ bool_decide (pretty n = "inf") = false).
  { split; apply bool_decide_eq_false; intros E; by rewrite E in Hd. }
  destruct Hinf as [-> ->]. cbn [orb]. unfold scan_float. rewrite scan_mantissa_digits by done.
  unfold digits in Hv. rewrite bool_decide_false in Hv by done. rewrite Hv. cbn [default from_option id].
  assert (Hlen : (0 + Z.of_nat (String.length (pretty n)) =? 0) = false).
  { apply Z.eqb_neq. destruct (pretty n); [done|]. cbn [String.length]. lia. }
  rewrite Hlen. cbn [scan_exponent]. destruct (Z.eqb_spec n 0) as [->|Hn0]; [done|].
  assert (Hb : 1 <= bits n <= 64).
  { unfold bits. pose proof (Z.log2_nonneg n). assert (Z.log2 n < 64) by (apply Z.log2_lt_pow2; lia). lia. }
  change (0 + 0) with 0. cbv zeta. rewrite !Z.add_0_r. rewrite !to_i64_id by lia. cbn [Z.eqb]. rewrite Z.sub_diag.
  unfold MinExp, MaxExp. rewrite (proj2 (Z.ltb_ge (bits n) _)), (proj2 (Z.ltb_ge _ (bits n))) by lia. cbn [orb].
  unfold round. rewrite (proj2 (Z.ltb_ge 0 _)) by lia. rewrite Z.add_0_r.
  unfold MinExp, MaxExp. rewrite (proj2 (Z.ltb_ge (bits n) _)), (proj2 (Z.ltb_ge _ (bits n))) by lia.
  cbn [float_int]. by rewrite Z.shiftl_0_r, Z.mul_1_l.
Qed.

Example floats :
  ParseFloatInt <$> ["1e8"; "1.5e3"; "15p-1"; ".9"; "-2.5"; "1e30"; "5_0"; ""; "e1"; "12345678901234567890123"; "7e-1"] =
  [Some 100000000; Some 1500; Some 7; Some 0; Some (-2); Some 999999999999999999955976585216; None; None; None;
   Some 12345678901234567889920; Some 0].
Proof. vm_compute. reflexivity. Qed.
