(* ===== verification/CosmosMath.v ===== *)
(** * The interface of [cosmossdk.io/math]

    Amounts of the program are [cosmos.Uint] ([sdkmath.Uint], aliased in
    src/common/cosmos/cosmos.go), a wrapper of [math/big.Int] restricted to
    0 .. 2^256-1; ratios are [cosmos.Dec] ([sdkmath.LegacyDec]), fixed-point
    numbers of 18 decimals.  The package is not part of the repository, so its
    operations are the fields of a class, and what the program relies on are
    the laws of the class: [Uint] operations are exact and panic out of range;
    [Dec] operations round to a nearest value.  A [Uint] is represented by the
    big integer it wraps and a [Dec] by its 10^18-fold. *)

From stdpp Require Import pretty.
From S2P Require Import Prelude GoNumbers.
Open Scope Z_scope.

Definition uint_max : Z := 2 ^ 256 - 1.
Definition dec_one : Z := 10 ^ 18.

(** The result of an exact computation as a [Uint]: a panic out of range. *)
Definition in_uint (z : Z) : outcome Z :=
  if (0 <=? z) && (z <=? uint_max) then Ok z else Panic.

Class CosmosMath := {
  uadd : Z → Z → outcome Z;
  usub : Z → Z → outcome Z;
  umul : Z → Z → outcome Z;
  uquo : Z → Z → outcome Z;
  uint_of_bigint : Z → outcome Z;
  (** [ParseUint], which reads the decimal text [Uint.String] prints *)
  parse_uint : string → outcome Z;
  (** [NewDecFromStr (u.String ())] and [NewDecFromBigInt] *)
  dec_of_uint : Z → outcome Z;
  dec_of_bigint : Z → outcome Z;
  dec_add : Z → Z → outcome Z;
  dec_mul : Z → Z → outcome Z;
  dec_quo : Z → Z → outcome Z;
  dec_round_int : Z → outcome Z;
  dec_truncate_int : Z → outcome Z;

  uadd_law a b : uadd a b = in_uint (a + b);
  usub_law a b : usub a b = in_uint (a - b);
  umul_law a b : umul a b = in_uint (a * b);
  uquo_law a b : uquo a b = if b =? 0 then Panic else in_uint (a `quot` b);
  uint_of_bigint_law a : uint_of_bigint a = in_uint a;
  parse_uint_pretty a : 0 ≤ a ≤ uint_max → parse_uint (pretty a) = Ok a;
  parse_uint_range s a : parse_uint s = Ok a → 0 ≤ a ≤ uint_max;
  parse_uint_empty a : parse_uint "" ≠ Ok a;
  dec_of_uint_law a : 0 ≤ a < 2 ^ 190 → dec_of_uint a = Ok (a * dec_one);
  dec_of_bigint_law a : 0 ≤ a < 2 ^ 190 → dec_of_bigint a = Ok (a * dec_one);
  dec_add_law x y : 0 ≤ x < 2 ^ 250 → 0 ≤ y < 2 ^ 250 → dec_add x y = Ok (x + y);
  dec_mul_law x y : 0 ≤ x → 0 ≤ y → x * y < 2 ^ 300 →
    ∃ r, dec_mul x y = Ok r ∧ 0 ≤ r ∧ 2 * Z.abs (r * dec_one - x * y) ≤ dec_one;
  dec_quo_law x y : 0 ≤ x → 0 < y → x * dec_one < 2 ^ 250 * y →
    ∃ q, dec_quo x y = Ok q ∧ 0 ≤ q ∧
         2 * dec_one * Z.abs (q * y - x * dec_one) ≤ (dec_one + 2) * y;
  dec_quo_zero x : dec_quo x 0 = Panic;
  dec_round_int_law x : 0 ≤ x < 2 ^ 250 →
    ∃ r, dec_round_int x = Ok r ∧ 0 ≤ r ∧ 2 * Z.abs (r * dec_one - x) ≤ dec_one;
  dec_truncate_int_law x : 0 ≤ x < 2 ^ 250 → dec_truncate_int x = Ok (x / dec_one);
}.

Lemma in_uint_ok z : 0 ≤ z ≤ uint_max → in_uint z = Ok z.
Proof.
  intros [??]. unfold in_uint.
  by rewrite (proj2 (Z.leb_le 0 z)), (proj2 (Z.leb_le z uint_max)).
Qed.

Lemma in_uint_inv z r : in_uint z = Ok r → r = z ∧ 0 ≤ z ≤ uint_max.
Proof.
  unfold in_uint. destruct (Z.leb_spec 0 z), (Z.leb_spec z uint_max); simpl;
    intros [= <-]; lia.
Qed.

Section Laws.
  Context `{CosmosMath}.

Lemma uadd_ok a b : 0 ≤ a + b ≤ uint_max → uadd a b = Ok (a + b).
  Proof. intros. rewrite uadd_law. by apply in_uint_ok. Qed.

Lemma usub_ok a b : 0 ≤ a - b ≤ uint_max → usub a b = Ok (a - b).
  Proof. intros. rewrite usub_law. by apply in_uint_ok. Qed.

Lemma umul_ok a b : 0 ≤ a * b ≤ uint_max → umul a b = Ok (a * b).
  Proof. intros. rewrite umul_law. by apply in_uint_ok. Qed.

Lemma uquo_ok a b : 0 ≤ a ≤ uint_max → 0 < b → uquo a b = Ok (a / b).
  Proof.
    intros [Ha Hm] Hb. rewrite uquo_law. destruct (Z.eqb_spec b 0); [lia|].
    rewrite Z.quot_div_nonneg by lia. apply in_uint_ok. split.
    - apply Z.div_pos; lia.
    - etrans; [|exact Hm]. apply Z.div_le_upper_bound; [lia|]. nia.
  Qed.

Lemma uint_of_bigint_ok a : 0 ≤ a ≤ uint_max → uint_of_bigint a = Ok a.
  Proof. intros. rewrite uint_of_bigint_law. by apply in_uint_ok. Qed.

  (** Products of whole numbers are exact. *)
Lemma dec_mul_whole a b :
    0 ≤ a → 0 ≤ b → a * b < 2 ^ 180 →
    dec_mul (a * dec_one) (b * dec_one) = Ok (a * b * dec_one).
  Proof.
    intros Ha Hb Hab. assert (Hd : dec_one = 10 ^ 18) by done.
    destruct (dec_mul_law (a * dec_one) (b * dec_one)) as (r & -> & _ & Hr);
      [rewrite Hd; lia|rewrite Hd; lia| |].
    { replace (a * dec_one * (b * dec_one)) with (a * b * (dec_one * dec_one)) by ring.
      rewrite Hd in *. lia. }
    f_equal. replace (r * dec_one - a * dec_one * (b * dec_one))
      with ((r - a * b * dec_one) * dec_one) in Hr by ring.
    rewrite Z.abs_mul, (Z.abs_eq dec_one) in Hr by done. rewrite Hd in *. lia.
  Qed.

Lemma uadd_inv a b r : uadd a b = Ok r → r = a + b ∧ 0 ≤ a + b ≤ uint_max.
  Proof. rewrite uadd_law. apply in_uint_inv. Qed.

Lemma usub_inv a b r : usub a b = Ok r → r = a - b ∧ b ≤ a.
  Proof. rewrite usub_law. intros ?%in_uint_inv. lia. Qed.

Lemma umul_inv a b r : umul a b = Ok r → r = a * b ∧ 0 ≤ a * b ≤ uint_max.
  Proof. rewrite umul_law. apply in_uint_inv. Qed.

Lemma uquo_inv a b r : 0 ≤ a → 0 ≤ b → uquo a b = Ok r → r = a / b ∧ 0 < b ∧ 0 ≤ r.
  Proof.
    rewrite uquo_law. intros Ha Hb. destruct (Z.eqb_spec b 0); [done|].
    rewrite Z.quot_div_nonneg by lia. intros ?%in_uint_inv. lia.
  Qed.
End Laws.

(** Invert the [Uint] operations that returned, besides binds and guards. *)
Ltac uint_inv :=
  repeat (ok_inv; match goal with
  | H : uadd _ _ = Ok _ |- _ => apply uadd_inv in H as [-> ?]
  | H : usub _ _ = Ok _ |- _ => apply usub_inv in H as [-> ?]
  | H : umul _ _ = Ok _ |- _ => apply umul_inv in H as [-> ?]
  | H : uquo _ _ = Ok _ |- _ => apply uquo_inv in H as (-> & ? & ?); [|nia|nia]
  end); ok_inv.

(** ** A reference implementation

    A concrete instance, to evaluate the definitions and to show that the laws
    can hold together: exact big-integer arithmetic, and banker's rounding. *)

Module Reference.
Definition round_half_even (n d : Z) : Z :=
    let q := n / d in
    let r := n mod d in
    if 2 * r <? d then q
    else if d <? 2 * r then q + 1
    else if Z.even q then q else q + 1.

Definition dec_limit : Z := 2 ^ 315.
Definition in_dec (z : Z) : outcome Z :=
    if Z.abs z <? dec_limit then Ok z else Panic.
Definition chop (x : Z) : Z :=
    if x <? 0 then - round_half_even (- x) dec_one else round_half_even x dec_one.

Lemma round_half_even_near n d : 0 < d → 2 * Z.abs (round_half_even n d * d - n) ≤ d.
  Proof.
    intros Hd. unfold round_half_even.
    pose proof (Z.div_mod n d ltac:(lia)) as Hn.
    pose proof (Z.mod_pos_bound n d Hd) as Hr.
    set (q := n / d) in *. set (r := n mod d) in *. clearbody q r.
    destruct (Z.ltb_spec (2 * r) d); [nia|].
    destruct (Z.ltb_spec d (2 * r)); [nia|].
    destruct (Z.even q); nia.
  Qed.

Lemma round_half_even_nonneg n d : 0 ≤ n → 0 < d → 0 ≤ round_half_even n d.
  Proof.
    intros Hn Hd. pose proof (Z.div_pos n d Hn Hd). unfold round_half_even.
    repeat case_match; lia.
  Qed.

Lemma in_dec_ok z : 0 ≤ z → z < dec_limit → in_dec z = Ok z.
  Proof. intros. unfold in_dec. rewrite (proj2 (Z.ltb_lt _ _)); [done|lia]. Qed.

Definition quo (x y : Z) : outcome Z :=
    if y =? 0 then Panic else in_dec (chop ((x * dec_one * dec_one) `quot` y)).
Definition mul (x y : Z) : outcome Z := in_dec (chop (x * y)).

Lemma chop_spec x : 0 ≤ x → 0 ≤ chop x ∧ 2 * Z.abs (chop x * dec_one - x) ≤ dec_one.
  Proof.
    intros Hx. unfold chop. destruct (Z.ltb_spec x 0); [lia|].
    pose proof (round_half_even_near x dec_one eq_refl).
    pose proof (round_half_even_nonneg x dec_one Hx eq_refl). lia.
  Qed.

Lemma quo_spec x y : 0 ≤ x → 0 < y → x * dec_one < 2 ^ 250 * y →
    ∃ q, quo x y = Ok q ∧ 0 ≤ q ∧
         2 * dec_one * Z.abs (q * y - x * dec_one) ≤ (dec_one + 2) * y.
  Proof.
    intros Hx Hy Hb. unfold quo. destruct (Z.eqb_spec y 0) as [|_]; [lia|].
    rewrite Z.quot_div_nonneg by (unfold dec_one; lia).
    remember (x * dec_one * dec_one) as n eqn:Hn.
    assert (0 ≤ n) by (rewrite Hn; unfold dec_one; lia).
    pose proof (Z.div_mod n y ltac:(lia)) as Hdm.
    pose proof (Z.mod_pos_bound n y Hy) as Hr.
    pose proof (Z.div_pos n y ltac:(lia) Hy) as Ht.
    set (t := n / y) in *. set (r := n mod y) in *. clearbody t r.
    destruct (chop_spec t Ht) as [Hc0 Hc]. set (q := chop t) in *. clearbody q.
    assert (Hd : dec_one = 10 ^ 18) by done.
    assert (Hq : q * dec_one ≤ t + dec_one) by (rewrite Hd in *; lia).
    assert (t < 2 ^ 250 * dec_one) by (rewrite Hd in *; nia).
    exists q. split; [|split; [done|]].
    - apply in_dec_ok; [done|]. unfold dec_limit. rewrite Hd in *. lia.
    - clear Hb. assert (2 * Z.abs (q * dec_one * y - t * y) ≤ dec_one * y).
      { replace (q * dec_one * y - t * y) with ((q * dec_one - t) * y) by ring.
        rewrite Z.abs_mul, (Z.abs_eq y) by lia. rewrite Hd in *. nia. }
      replace (2 * dec_one * Z.abs (q * y - x * dec_one)) with
        (2 * Z.abs ((q * dec_one * y - t * y) + (t * y - n))).
      2:{ replace ((q * dec_one * y - t * y) + (t * y - n))
            with (dec_one * (q * y - x * dec_one)) by (rewrite Hn; ring).
          rewrite Z.abs_mul. change (Z.abs dec_one) with dec_one. ring. }
      rewrite Hd in *. lia.
  Qed.
End Reference.

#[export] Program Instance cosmos_math_ref : CosmosMath := {|
  uadd a b := in_uint (a + b);
  usub a b := in_uint (a - b);
  umul a b := in_uint (a * b);
  uquo a b := if b =? 0 then Panic else in_uint (a `quot` b);
  uint_of_bigint a := in_uint a;
  parse_uint s := match digits s with
                  | Some n => if n <=? uint_max then Ok n else Err "overflow"
                  | None => Err "not a number"
                  end;
  dec_of_uint a := Reference.in_dec (a * dec_one);
  dec_of_bigint a := Ok (a * dec_one);
  dec_add x y := Reference.in_dec (x + y);
  dec_mul := Reference.mul;
  dec_quo := Reference.quo;
  dec_round_int x := Ok (Reference.chop x);
  dec_truncate_int x := Ok (x `quot` dec_one);
|}.
Solve Obligations with try done.
Next Obligation.
  intros a [Ha Hm]. destruct (pretty_digits a Ha) as [_ Hd]. apply Z.leb_le in Hm. cbn. by rewrite Hd, Hm.
Qed.
Next Obligation.
  intros s a Hok. cbn in Hok. destruct (digits s) as [n|] eqn:E; [|done].
  destruct (Z.leb_spec n uint_max) as [Hle|]; [|done]. injection Hok as <-. split; [|done].
  revert E. unfold digits. case_match; [done|]. intros Hd. by eapply digits_from_nonneg.
Qed.
Next Obligation.
  intros a Ha. apply Reference.in_dec_ok; unfold Reference.dec_limit, dec_one; lia.
Qed.
Next Obligation.
  intros x y Hx Hy. apply Reference.in_dec_ok; unfold Reference.dec_limit; lia.
Qed.
Next Obligation.
  intros x y Hx Hy Hb. destruct (Reference.chop_spec (x * y)) as [Hc0 Hc]; [nia|].
  exists (Reference.chop (x * y)). split; [|done].
  apply Reference.in_dec_ok; [done|].
  unfold Reference.dec_limit. assert (dec_one = 10 ^ 18) as Hd by done.
  rewrite Hd in *. lia.
Qed.
Next Obligation. exact Reference.quo_spec. Qed.
Next Obligation.
  intros x Hx. destruct (Reference.chop_spec x) as [Hc0 Hc]; [lia|].
  exists (Reference.chop x). by split.
Qed.
Next Obligation.
  intros x Hx. cbn. rewrite Z.quot_div_nonneg; [done|lia|done].
Qed.
