(* ===== verification/Amounts.v ===== *)
(** * Arithmetic helpers on amounts

    src/common/type_convert.go, src/common/math.go,
    src/common/significant_figures.go and the arithmetic part of
    src/common/cosmos/cosmos.go: shares, safe subtraction, decimal rounding,
    medians and weighted means. *)

From stdpp Require Import sorting.
From S2P Require Import Prelude CosmosMath.
Open Scope Z_scope.

(** [One]: one unit of an asset in base units *)
Definition One : Z := 100000000.
Definition DefaultCoinDecimals : Z := 8.
Definition MaxBasisPts : Z := 10000.

Section Amounts.
  Context `{CosmosMath}.

(** Every panic of the conversion or the division is recovered into zero, so
    the function always returns. *)
Definition GetUncappedShare (part total allocation : Z) : Z :=
  if (part =? 0) || (total =? 0) then 0
  else
    match
      aD ← dec_of_uint allocation;
      pD ← dec_of_uint part;
      tD ← dec_of_uint total;
      ratio ← dec_quo tD pD;
      result ← dec_quo aD ratio;
      rounded ← dec_round_int result;
      uint_of_bigint rounded
    with
    | Ok share => share
    | _ => 0
    end.

Definition GetSafeShare (part total allocation : Z) : Z :=
  let part := if total <=? part then total else part in
  GetUncappedShare part total allocation.

Definition SafeSub (input1 input2 : Z) : outcome Z :=
  if input1 <? input2 then Ok 0 else usub input1 input2.

Definition MinUint (u1 u2 : Z) : Z := if u1 <? u2 then u1 else u2.

Fixpoint Sum_from (sum : Z) (u : list Z) : outcome Z :=
  match u with
  | [] => Ok sum
  | i :: u' => sum' ← uadd sum i; Sum_from sum' u'
  end.
Definition Sum (u : list Z) : outcome Z := Sum_from 0 u.

(** [NewUint(uint64(i))] of a negative [i] is avoided: zero is returned. *)
Definition SafeUintFromInt64 (i : Z) : Z := if i <? 0 then 0 else to_u64 i.

Definition RoundToDecimal (amt dec : Z) : outcome Z :=
  if negb (dec =? 0) && (dec <? DefaultCoinDecimals) then
    let prec := DefaultCoinDecimals - dec in
    if prec =? 0 then Ok amt
    else
      precisionAdjust ← uint_of_bigint (10 ^ prec);
      q ← uquo amt precisionAdjust;
      umul q precisionAdjust
  else Ok amt.

(** The accumulating loop of [WeightedMean]; an index out of range cannot
    occur because the lengths are compared first. *)
Fixpoint weighted_total (acc : Z) (vals weights : list Z) : outcome Z :=
  match vals, weights with
  | v :: vals', w :: weights' =>
      p ← umul v w; acc' ← uadd acc p; weighted_total acc' vals' weights'
  | _, _ => Ok acc
  end.

Definition WeightedMean (vals weights : list Z) : outcome Z :=
  totalWeight ← Sum weights;
  if totalWeight =? 0 then Err "total weight is zero"
  else if negb (length vals =? length weights)%nat then Panic
  else
    weightedTotal ← weighted_total 0 vals weights;
    uquo weightedTotal totalWeight.

Definition GetMedianUint (vals : list Z) : outcome Z :=
  if (length vals =? 0)%nat then Ok 0
  else
    let vals := merge_sort Z.le vals in
    let n := length vals in
    if (0 <? n mod 2)%nat then
      match vals !! (n / 2)%nat with Some m => Ok m | None => Panic end
    else
      match vals !! (n / 2 - 1)%nat, vals !! (n / 2)%nat with
      | Some pt1, Some pt2 => s ← uadd pt1 pt2; uquo s 2
      | _, _ => Panic
      end.

Definition GetMedianInt64 (vals : list Z) : outcome Z :=
  match vals with
  | [] => Ok 0
  | [v] => Ok v
  | _ =>
    let vals := merge_sort Z.le vals in
    let n := length vals in
    if (0 <? n mod 2)%nat then
      match vals !! (n / 2)%nat with Some m => Ok m | None => Panic end
    else
      match vals !! (n / 2 - 1)%nat, vals !! (n / 2)%nat with
      | Some pt1, Some pt2 => Ok (to_i64 (pt1 + pt2) `quot` 2)
      | _, _ => Panic
      end
  end.

(** The loop [for temp != 0 { temp /= 10; magnitude++ }]: 64 rounds are more
    than the 20 digits a [uint64] has. *)
Fixpoint magnitude_of (fuel : nat) (temp : Z) : Z :=
  match fuel with
  | O => 0
  | S fuel' => if temp =? 0 then 0 else 1 + magnitude_of fuel' (temp / 10)
  end.

Definition RoundSignificantFigures (number significantDigits : Z) : outcome Z :=
  if number =? 0 then Ok 0
  else
    let magnitude := magnitude_of 64 number in
    if magnitude <=? significantDigits then Ok number
    else
      let steps := Z.to_nat (to_i64 (magnitude - significantDigits)) in
      let divisor := Nat.iter steps (λ d, to_u64 (d * 10)) 1 in
      if divisor =? 0 then Panic
      else Ok (to_u64 (number / divisor * divisor)).

(** ** Facts *)

Lemma SafeSub_ok a b : 0 ≤ a ≤ uint_max → 0 ≤ b → SafeSub a b = Ok (Z.max 0 (a - b)).
Proof.
  intros. unfold SafeSub. destruct (Z.ltb_spec a b).
  - f_equal. lia.
  - rewrite usub_ok by lia. f_equal. lia.
Qed.

Lemma SafeSub_inv a b r : 0 ≤ a → 0 ≤ b → SafeSub a b = Ok r → r = Z.max 0 (a - b).
Proof.
  intros ??. unfold SafeSub. destruct (Z.ltb_spec a b); [intros [= <-]; lia|].
  intros ?%usub_inv. lia.
Qed.

(** The chain of three roundings of [GetUncappedShare], for the amounts the
    protocol deals with. *)
Lemma uncapped_share_steps p t a :
  0 < p < 2 ^ 120 → 0 < t < 2 ^ 120 → 0 ≤ a < 2 ^ 180 → p ≤ 10 ^ 18 * t →
  p ≤ t ∨ a < 2 ^ 100 →
  ∃ q v r,
    GetUncappedShare p t a = r ∧ 0 < q ∧ 0 ≤ v ∧ 0 ≤ r ∧
    2 * dec_one * Z.abs (q * p - t * dec_one) ≤ (dec_one + 2) * p ∧
    2 * dec_one * Z.abs (v * q - a * dec_one * dec_one) ≤ (dec_one + 2) * q ∧
    2 * Z.abs (r * dec_one - v) ≤ dec_one.
Proof.
  intros Hp Ht Ha Hpt Hsmall. assert (Hd : dec_one = 10 ^ 18) by done.
  unfold GetUncappedShare.
  destruct (Z.eqb_spec p 0); [lia|]. destruct (Z.eqb_spec t 0); [lia|]. simpl.
  rewrite !dec_of_uint_law by lia. simpl.
  destruct (dec_quo_law (t * dec_one) (p * dec_one)) as (q & -> & Hq0 & Hq);
    [lia|lia|rewrite Hd in *; nia|].
  simpl.
  assert (Hq' : 2 * dec_one * Z.abs (q * p - t * dec_one) ≤ (dec_one + 2) * p).
  { replace (q * (p * dec_one) - t * dec_one * dec_one)
      with ((q * p - t * dec_one) * dec_one) in Hq by ring.
    rewrite Z.abs_mul, (Z.abs_eq dec_one) in Hq by done. rewrite Hd in *. nia. }
  assert (Hq1 : 0 < q).
  { destruct (Z.eq_dec q 0) as [->|]; [|lia]. rewrite Hd in *. lia. }
  assert (Hq2 : p ≤ t → dec_one ≤ q).
  { intros. assert (2 * dec_one * (t * dec_one - q * p) ≤ (dec_one + 2) * p) by (rewrite Hd in *; lia).
    rewrite Hd in *. nia. }
  assert (Haq : a * dec_one * dec_one < 2 ^ 248 * q).
  { destruct Hsmall as [Hle|]; [specialize (Hq2 Hle)|]; rewrite Hd in *; lia. }
  destruct (dec_quo_law (a * dec_one) q) as (v & -> & Hv0 & Hv);
    [rewrite Hd; lia|lia|lia|].
  simpl.
  assert (v < 2 ^ 249).
  { assert (v * q < 2 ^ 249 * q); [|nia].
    assert (v * q ≤ a * dec_one * dec_one + q) by (rewrite Hd in *; lia).
    lia. }
  destruct (dec_round_int_law v) as (r & -> & Hr0 & Hr); [lia|]. simpl.
  rewrite uint_of_bigint_ok by (unfold uint_max; rewrite Hd in *; lia).
  exists q, v, r. split; [reflexivity|]. repeat (split; [assumption|]). assumption.
Qed.

Lemma GetUncappedShare_zero t a p : (p = 0 ∨ t = 0) → GetUncappedShare p t a = 0.
Proof. intros [->| ->]; unfold GetUncappedShare; simpl; [done|]. by rewrite orb_true_r. Qed.

Lemma share_le_allocation p t a :
  0 ≤ p → p ≤ t < 2 ^ 120 → 0 ≤ a < 2 ^ 180 →
  0 ≤ GetUncappedShare p t a ≤ a.
Proof.
  intros Hp Ht Ha. assert (Hd : dec_one = 10 ^ 18) by done.
  destruct (Z.eq_dec p 0) as [->|]; [rewrite GetUncappedShare_zero by auto; lia|].
  destruct (uncapped_share_steps p t a) as (q & v & r & -> & Hq0 & Hv0 & Hr0 & Hq & Hv & Hr);
    [lia..|].
  split; [done|].
  assert (dec_one ≤ q).
  { assert (2 * dec_one * (t * dec_one - q * p) ≤ (dec_one + 2) * p) by (rewrite Hd in *; lia).
    rewrite Hd in *. nia. }
  assert (v ≤ a * dec_one).
  { assert (2 * dec_one * (v * q) ≤ 2 * dec_one * (a * dec_one * q) + (dec_one + 2) * q).
    { assert (a * dec_one * dec_one ≤ a * dec_one * q) by (rewrite Hd in *; nia).
      rewrite Hd in *. lia. }
    assert (2 * dec_one * v ≤ 2 * dec_one * (a * dec_one) + (dec_one + 2)) by (rewrite Hd in *; nia).
    rewrite Hd in *. lia. }
  rewrite Hd in *. lia.
Qed.

Lemma share_full p a : 0 < p < 2 ^ 120 → 0 ≤ a < 2 ^ 180 → GetUncappedShare p p a = a.
Proof.
  intros Hp Ha. assert (Hd : dec_one = 10 ^ 18) by done.
  destruct (uncapped_share_steps p p a) as (q & v & r & -> & Hq0 & Hv0 & Hr0 & Hq & Hv & Hr);
    [lia..|].
  assert (q = dec_one).
  { replace (q * p - p * dec_one) with ((q - dec_one) * p) in Hq by ring.
    rewrite Z.abs_mul, (Z.abs_eq p) in Hq by lia. rewrite Hd in *. nia. }
  subst q. replace (v * dec_one - a * dec_one * dec_one)
    with ((v - a * dec_one) * dec_one) in Hv by ring.
  rewrite Z.abs_mul, (Z.abs_eq dec_one) in Hv by done. rewrite Hd in *. lia.
Qed.

Lemma share_error p t a :
  0 < p → p ≤ t < 2 ^ 120 → 0 ≤ a ≤ 10 ^ 17 →
  Z.abs (GetUncappedShare p t a * t - a * p) < t.
Proof.
  intros Hp Ht Ha. assert (Hd : dec_one = 10 ^ 18) by done.
  pose proof (share_le_allocation p t a ltac:(lia) ltac:(lia) ltac:(lia)) as Hle.
  destruct (uncapped_share_steps p t a) as (q & v & r & Hshare & Hq0 & Hv0 & Hr0 & Hq & Hv & Hr);
    [lia..|].
  rewrite Hshare in *. clear Hshare. rewrite Hd in *.
  (* r*10^18 is within half a unit of v, v*q of a*10^36, q*p of t*10^18 *)
  assert (H1 : 2 * Z.abs (r * 10 ^ 18 * q - v * q) ≤ 10 ^ 18 * q).
  { replace (r * 10 ^ 18 * q - v * q) with ((r * 10 ^ 18 - v) * q) by ring.
    rewrite Z.abs_mul, (Z.abs_eq q) by lia. nia. }
  assert (H2 : 2 * 10 ^ 18 * Z.abs (r * q - a * 10 ^ 18) ≤ (10 ^ 18 + 2) * q).
  { assert (2 * 10 ^ 18 * Z.abs (r * 10 ^ 18 * q - a * 10 ^ 18 * 10 ^ 18)
            ≤ 10 ^ 18 * 10 ^ 18 * q + (10 ^ 18 + 2) * q) by lia. lia. }
  assert (H3 : 2 * 10 ^ 18 * Z.abs (r * (q * p) - a * 10 ^ 18 * p) ≤ (10 ^ 18 + 2) * (q * p)).
  { replace (r * (q * p) - a * 10 ^ 18 * p) with ((r * q - a * 10 ^ 18) * p) by ring.
    rewrite Z.abs_mul, (Z.abs_eq p) by lia. nia. }
  assert (H4 : 2 * 10 ^ 18 * Z.abs (r * (q * p) - r * (t * 10 ^ 18)) ≤ (10 ^ 18 + 2) * p * 10 ^ 17).
  { replace (r * (q * p) - r * (t * 10 ^ 18)) with (r * (q * p - t * 10 ^ 18)) by ring.
    rewrite Z.abs_mul, (Z.abs_eq r) by lia.
    pose proof (Z.mul_le_mono_nonneg_r r (10 ^ 17) (Z.abs (q * p - t * 10 ^ 18))
                  ltac:(lia) ltac:(lia)). lia. }
  assert (H5 : q * p ≤ t * 10 ^ 18 + p) by lia.
  lia.
Qed.

(** Whatever the proportion, the share is off by at most a unit and the error
    of the 18-decimal ratio. *)
Lemma uncapped_share_error p t a :
  0 < p < 2 ^ 120 → 0 < t < 2 ^ 120 → 0 ≤ a < 2 ^ 100 → p ≤ 10 ^ 18 * t →
  let r := GetUncappedShare p t a in
  0 ≤ r ∧ 10 ^ 18 * Z.abs (r * t - a * p) ≤ 10 ^ 18 * t + (r + 1) * p.
Proof.
  intros Hp Ht Ha Hpt r. assert (Hd : dec_one = 10 ^ 18) by done.
  destruct (uncapped_share_steps p t a) as (q & v & r' & Hshare & Hq0 & Hv0 & Hr0 & Hq & Hv & Hr);
    [lia..|].
  unfold r. rewrite Hshare. clear r Hshare. rewrite Hd in *. split; [done|].
  assert (H1 : 2 * Z.abs (r' * 10 ^ 18 * q - v * q) ≤ 10 ^ 18 * q).
  { replace (r' * 10 ^ 18 * q - v * q) with ((r' * 10 ^ 18 - v) * q) by ring.
    rewrite Z.abs_mul, (Z.abs_eq q) by lia. nia. }
  assert (H2 : 2 * 10 ^ 18 * Z.abs (r' * q - a * 10 ^ 18) ≤ (10 ^ 18 + 2) * q) by lia.
  assert (H3 : 2 * 10 ^ 18 * Z.abs (r' * (q * p) - a * 10 ^ 18 * p) ≤ (10 ^ 18 + 2) * (q * p)).
  { replace (r' * (q * p) - a * 10 ^ 18 * p) with ((r' * q - a * 10 ^ 18) * p) by ring.
    rewrite Z.abs_mul, (Z.abs_eq p) by lia. nia. }
  assert (H4 : 2 * 10 ^ 18 * Z.abs (r' * (q * p) - r' * (t * 10 ^ 18)) ≤ (10 ^ 18 + 2) * (r' * p)).
  { replace (r' * (q * p) - r' * (t * 10 ^ 18)) with (r' * (q * p - t * 10 ^ 18)) by ring.
    rewrite Z.abs_mul, (Z.abs_eq r') by lia.
    pose proof (Z.mul_le_mono_nonneg_l _ _ r' Hr0 Hq). lia. }
  assert (H5 : q * p ≤ t * 10 ^ 18 + p) by lia.
  assert (0 ≤ r' * p) by lia. lia.
Qed.

(** The share is a [Uint] whatever the arguments. *)
Lemma GetUncappedShare_range p t a : 0 ≤ GetUncappedShare p t a ≤ uint_max.
Proof.
  assert (0 ≤ uint_max) by done. unfold GetUncappedShare. destruct (_ || _); [lia|].
  match goal with |- context [match ?m with _ => _ end] => destruct m as [z| |] eqn:Hz end;
    [|lia|lia].
  ok_inv. rewrite uint_of_bigint_law in Hz. apply in_uint_inv in Hz. lia.
Qed.

Lemma GetSafeShare_le p t a :
  0 ≤ p → 0 ≤ t < 2 ^ 120 → 0 ≤ a < 2 ^ 180 → 0 ≤ GetSafeShare p t a ≤ a.
Proof. intros. unfold GetSafeShare. destruct (Z.leb_spec t p); apply share_le_allocation; lia. Qed.

Lemma GetSafeShare_all p t a :
  0 < t → t ≤ p → t < 2 ^ 120 → 0 ≤ a < 2 ^ 180 → GetSafeShare p t a = a.
Proof.
  intros. unfold GetSafeShare. destruct (Z.leb_spec t p); [|lia]. apply share_full; lia.
Qed.

(** [GetSafeShare] never hands out more than the allocation ("will guarantee
    the result will not more than total", src/common/type_convert.go), hands
    out the whole allocation when the part is the total, and for allocations up
    to 10^17 base units is within one unit of the exact proportion. *)
Theorem GetSafeShare_bounded part total allocation :
  0 < part < 2 ^ 120 → 0 < total < 2 ^ 120 → 0 ≤ allocation ≤ 10 ^ 17 →
  let share := GetSafeShare part total allocation in
  0 ≤ share ≤ allocation ∧
  (total ≤ part → share = allocation) ∧
  (part ≤ total → Z.abs (share * total - allocation * part) < total).
Proof.
  intros Hp Ht Ha. unfold GetSafeShare. simpl.
  destruct (Z.leb_spec total part).
  - rewrite share_full by lia. split_and!; [lia|lia|reflexivity|]. intros. assert (part = total) by lia.
    subst. rewrite Z.sub_diag. simpl. lia.
  - split; [apply share_le_allocation; lia|]. split; [intros; lia|]. intros. apply share_error; lia.
Qed.
End Amounts.

Lemma GetSafeShare_bounded_witness :
  GetSafeShare 1 3 10 = 3 ∧ 0 ≤ GetSafeShare 1 3 10 ≤ 10 ∧
  Z.abs (GetSafeShare 1 3 10 * 3 - 10 * 1) < 3.
Proof.
  split; [vm_compute; reflexivity|].
  destruct (GetSafeShare_bounded 1 3 10 ltac:(lia) ltac:(lia) ltac:(lia)) as (Hb & _ & He).
  split; [exact Hb|apply He; lia].
Defined.
