(* ===== verification/Assets.v ===== *)
(** * Chains, symbols, tickers and assets

    src/common/chain.go, symbol.go, ticker.go and asset.go: validation, the
    textual form of an asset and its parser, the flavours of an asset (layer-1,
    synthetic, trade, secured, derived) and the bank denomination of each. *)

From Stdlib Require Import Ascii.
From S2P Require Import Prelude GoStrings.
Open Scope string_scope.

(** ** Chains *)

Definition Chain : Type := string.

Definition EmptyChain : Chain := "".
Definition BSCChain : Chain := "BSC".
Definition ETHChain : Chain := "ETH".
Definition BTCChain : Chain := "BTC".
Definition LTCChain : Chain := "LTC".
Definition BCHChain : Chain := "BCH".
Definition DOGEChain : Chain := "DOGE".
Definition SWITCHLYChain : Chain := "SWITCHLY".
Definition GAIAChain : Chain := "GAIA".
Definition AVAXChain : Chain := "AVAX".
Definition BASEChain : Chain := "BASE".
Definition XRPChain : Chain := "XRP".
Definition StellarChain : Chain := "XLM".

Module Chains.
Definition Valid (c : Chain) : option error :=
    if (String.length c <? 3)%nat then Some "chain id len is less than 3"
    else if (10 <? String.length c)%nat then Some "chain id len is more than 10"
    else if negb (str_forall is_upper c)
    then Some "chain id can consist only of uppercase letters"
    else None.

Definition NewChain (chainID : string) : outcome Chain :=
    let chain := ToUpper chainID in
    match Valid chain with Some e => Err e | None => Ok chain end.

  (** [Chain.String] *)
Definition Str (c : Chain) : string := ToUpper c.
Definition Equals (c c2 : Chain) : bool := EqualFold (Str c) (Str c2).
Definition IsSWITCHLYChain (c : Chain) : bool := Equals c SWITCHLYChain.
Definition IsEmpty (c : Chain) : bool := blank (Str c).

Definition GetEVMChains : list Chain := [ETHChain; AVAXChain; BSCChain; BASEChain].
Definition GetRouterChains : list Chain :=
    [ETHChain; AVAXChain; BSCChain; BASEChain; StellarChain].
Definition GetUTXOChains : list Chain := [BTCChain; LTCChain; BCHChain; DOGEChain].

Definition IsEVM (c : Chain) : bool := existsb (Equals c) GetEVMChains.
Definition HasRouter (c : Chain) : bool := existsb (Equals c) GetRouterChains.
Definition IsUTXO (c : Chain) : bool := existsb (Equals c) GetUTXOChains.

Definition Has (chains : list Chain) (c : Chain) : bool :=
    existsb (λ ch, Equals ch c) chains.

Definition Distinct (chains : list Chain) : list Chain :=
    fold_left (λ newChains chain,
      if Has newChains chain then newChains else (newChains ++ [chain])%list) chains [].

  (** All the valid names are returned, with an error if some name is not. *)
Definition NewChains (raw : list string) : list Chain * bool :=
    fold_left (λ '(chains, failed) c,
      match NewChain c with
      | Ok chain => ((chains ++ [chain])%list, failed)
      | _ => (chains, true)
      end) raw ([], false).
End Chains.

(** ** Symbols and tickers *)

Definition Symbol : Type := string.
Definition Ticker : Type := string.

(** The character class of the regular expression ^[A-Za-z0-9-._]+$ *)
Definition is_symbol_char (c : ascii) : bool :=
  is_upper c || is_lower c || is_digit c || is_char "-" c || is_char "." c || is_char "_" c.
Definition isAlphaNumeric (s : string) : bool :=
  negb (bool_decide (s = "")) && str_forall is_symbol_char s.

Definition NewSymbol (input : string) : outcome Symbol :=
  if negb (isAlphaNumeric input) then Err "invalid symbol" else Ok (ToUpper input).

Definition NewTicker (ticker : string) : outcome Ticker :=
  if (String.length ticker =? 0)%nat then Err "ticker error: empty ticker"
  else if (13 <? String.length ticker)%nat then Err "ticker error: too many characters"
  else if negb (str_forall (λ c, negb (is_char "/" c)) ticker)
  then Err "ticker error: cannot contain a /"
  else Ok (ToUpper ticker).

(** ** Assets *)

Record Asset := mkAsset {
  chain : Chain;
  symbol : Symbol;
  ticker : Ticker;
  Synth : bool;
  Trade : bool;
  Secured : bool;
}.

#[export] Instance Asset_eq_dec : EqDecision Asset.
Proof. solve_decision. Defined.

#[export] Instance Asset_countable : Countable Asset.
Proof.
  apply (inj_countable' (λ a, (chain a, symbol a, ticker a, Synth a, Trade a, Secured a))
    (λ '(c, s, t, b1, b2, b3), mkAsset c s t b1 b2 b3)). by intros [].
Defined.

Definition layer1 (c : Chain) (s : Symbol) (t : Ticker) : Asset := mkAsset c s t false false false.

Definition EmptyAsset : Asset := layer1 EmptyChain "" "".
Definition ATOMAsset := layer1 GAIAChain "ATOM" "ATOM".
Definition BNBBEP20Asset := layer1 BSCChain "BNB" "BNB".
Definition BTCAsset := layer1 BTCChain "BTC" "BTC".
Definition LTCAsset := layer1 LTCChain "LTC" "LTC".
Definition BCHAsset := layer1 BCHChain "BCH" "BCH".
Definition DOGEAsset := layer1 DOGEChain "DOGE" "DOGE".
Definition ETHAsset := layer1 ETHChain "ETH" "ETH".
Definition BaseETHAsset := layer1 BASEChain "ETH" "ETH".
Definition AVAXAsset := layer1 AVAXChain "AVAX" "AVAX".
Definition XRPAsset := layer1 XRPChain "XRP" "XRP".
Definition XLMAsset := layer1 StellarChain "XLM" "XLM".
Definition XLMUSDC := layer1 StellarChain "USDC" "USDC".
Definition SwitchNative := layer1 SWITCHLYChain "SWITCH" "SWITCH".
Definition RUJI := layer1 SWITCHLYChain "RUJI" "RUJI".
Definition SWCY := layer1 SWITCHLYChain "SWCY" "SWCY".
Definition SWITCHLY := layer1 SWITCHLYChain "SWITCHLY" "SWITCHLY".

Module Assets.
  (** The separators [~./-] of an asset name. *)
Definition is_sep (c : ascii) : bool :=
    is_char "~" c || is_char "." c || is_char "/" c || is_char "-" c.

  (** [NewAsset]: the first separator decides the flavour; without one the
      asset is a layer-1 asset of the protocol's own chain. *)
Definition NewAsset (input : string) : outcome Asset :=
    '(c, sym, synth, trade, secured) ←
      match split_first is_sep input with
      | Some (pre, sep, post) =>
          c ← Chains.NewChain pre;
          Ok (c, post, is_char "/" sep, is_char "~" sep, is_char "-" sep)
      | None => Ok (SWITCHLYChain, input, false, false, false)
      end;
    s ← NewSymbol sym;
    t ← NewTicker (before "-" sym);
    Ok (mkAsset c s t synth trade secured).

Definition SymbolString (a : Asset) : string := ToUpper (symbol a).

  (** [Asset.String] *)
Definition Str (a : Asset) : string :=
    let div := "." in
    let div := if Synth a then "/" else div in
    let div := if Trade a then "~" else div in
    let div := if Secured a then "-" else div in
    Chains.Str (chain a) +:+ div +:+ SymbolString a.

Definition Equals (a a2 : Asset) : bool :=
    Chains.Equals (chain a) (chain a2) &&
    EqualFold (ToUpper (symbol a)) (ToUpper (symbol a2)) &&
    EqualFold (ToUpper (ticker a)) (ToUpper (ticker a2)) &&
    Bool.eqb (Synth a) (Synth a2) && Bool.eqb (Trade a) (Trade a2) &&
    Bool.eqb (Secured a) (Secured a2).

Definition Valid (a : Asset) : option error :=
    match Chains.Valid (chain a) with
    | Some e => Some ("invalid chain: " +:+ e)
    | None =>
      if negb (isAlphaNumeric (SymbolString a))
      then Some "invalid symbol: symbol must be alphanumeric"
      else if (Synth a && Trade a) || (Trade a && Secured a) || (Secured a && Synth a)
      then Some "assets can only be one of trade, synth or secured"
      else if Synth a && Chains.IsSWITCHLYChain (chain a)
      then Some ("synth asset cannot have chain SWITCHLY: " +:+ Str a)
      else if Trade a && Chains.IsSWITCHLYChain (chain a)
      then Some ("trade asset cannot have chain SWITCHLY: " +:+ Str a)
      else if Secured a && Chains.IsSWITCHLYChain (chain a)
      then Some ("secured asset cannot have chain SWITCHLY: " +:+ Str a)
      else None
    end.

Definition GetChain (a : Asset) : Chain :=
    if Synth a || Trade a || Secured a then SWITCHLYChain else chain a.

Definition GetLayer1Asset (a : Asset) : Asset :=
    if negb (Synth a) && negb (Trade a) && negb (Secured a) then a
    else mkAsset (chain a) (symbol a) (ticker a) false false false.
Definition GetSyntheticAsset (a : Asset) : Asset :=
    if Synth a then a else mkAsset (chain a) (symbol a) (ticker a) true false false.
Definition GetTradeAsset (a : Asset) : Asset :=
    if Trade a then a else mkAsset (chain a) (symbol a) (ticker a) false true false.
Definition GetSecuredAsset (a : Asset) : Asset :=
    if Secured a then a else mkAsset (chain a) (symbol a) (ticker a) false false true.
Definition GetDerivedAsset (a : Asset) : Asset :=
    mkAsset SWITCHLYChain (symbol a) (ticker a) false false false.

Definition IsSwitch (a : Asset) : bool := Equals a SwitchNative.
Definition IsSWCY (a : Asset) : bool := Equals SWCY a.
Definition IsRUJI (a : Asset) : bool := Equals RUJI a.

Definition IsDerivedAsset (a : Asset) : bool :=
    negb (Synth a) && negb (Trade a) && negb (Secured a) &&
    Chains.IsSWITCHLYChain (GetChain a) &&
    negb (IsSwitch a) && negb (IsSWCY a) && negb (IsRUJI a).

  (** [Native]: the denomination of the asset in the bank module *)
Definition Native (a : Asset) : string :=
    if IsSwitch a then "switch"
    else if Equals a SWITCHLY then "tor"
    else if Equals a SWCY then "swcy"
    else if IsRUJI a then "x/ruji"
    else ToLower (Str a).

Definition IsEmpty (a : Asset) : bool :=
    Chains.IsEmpty (chain a) || blank (ToUpper (symbol a)) || blank (ToUpper (ticker a)).

Definition IsNative (a : Asset) : bool := Chains.IsSWITCHLYChain (GetChain a).

Definition ShortCode (a : Asset) : string :=
    let s := Str a in
    if bool_decide (s = "SWITCHLY.SWITCH") then "r"
    else if bool_decide (s = "GAIA.ATOM") then "g"
    else if bool_decide (s = "DOGE.DOGE") then "d"
    else if bool_decide (s = "LTC.LTC") then "l"
    else if bool_decide (s = "BCH.BCH") then "c"
    else if bool_decide (s = "AVAX.AVAX") then "a"
    else if bool_decide (s = "BTC.BTC") then "b"
    else if bool_decide (s = "BSC.BNB") then "n"
    else if bool_decide (s = "BASE.ETH") then "f"
    else if bool_decide (s = "XRP.XRP") then "x"
    else if bool_decide (s = "XLM.XLM") then "m"
    else if bool_decide (s = "XLM.USDC") then "u"
    else "".

  (** The map [shorts], built by assignments in this order. *)
Definition shorts : gmap string string :=
    fold_left (λ m a, <[ShortCode a := Str a]> m)
      [ATOMAsset; AVAXAsset; BCHAsset; BNBBEP20Asset; BTCAsset; DOGEAsset; ETHAsset;
       LTCAsset; SwitchNative; BaseETHAsset; XRPAsset; XLMAsset; XLMUSDC] ∅.

Definition NewAssetWithShortCodesV3_1_0 (input : string) : outcome Asset :=
    let input := match shorts !! input with Some long => long | None => input end in
    NewAsset input.

Definition MimirString (a : Asset) : string :=
    Chains.Str (chain a) +:+ "-" +:+ SymbolString a.
End Assets.

(** ** Gas assets of chains *)

Definition GetGasAsset (c : Chain) : Asset :=
  if bool_decide (c = SWITCHLYChain) then SwitchNative
  else if bool_decide (c = BSCChain) then BNBBEP20Asset
  else if bool_decide (c = BTCChain) then BTCAsset
  else if bool_decide (c = LTCChain) then LTCAsset
  else if bool_decide (c = BCHChain) then BCHAsset
  else if bool_decide (c = DOGEChain) then DOGEAsset
  else if bool_decide (c = ETHChain) then ETHAsset
  else if bool_decide (c = AVAXChain) then AVAXAsset
  else if bool_decide (c = GAIAChain) then ATOMAsset
  else if bool_decide (c = BASEChain) then BaseETHAsset
  else if bool_decide (c = XRPChain) then XRPAsset
  else if bool_decide (c = StellarChain) then XLMAsset
  else EmptyAsset.

Definition GetGasAssetDecimal (c : Chain) : Z :=
  if bool_decide (c = GAIAChain) then 6
  else if bool_decide (c = XRPChain) then 6
  else if bool_decide (c = StellarChain) then 7
  else 8.

Definition DustThreshold (c : Chain) : Z :=
  if bool_decide (c ∈ [BTCChain; LTCChain; BCHChain]) then 10000
  else if bool_decide (c = DOGEChain) then 100000000
  else if bool_decide (c ∈ [ETHChain; AVAXChain; GAIAChain; BSCChain; BASEChain]) then 1
  else if bool_decide (c = XRPChain) then 100000000
  else if bool_decide (c = StellarChain) then 100000000
  else 0.

Definition IsGasAsset (a : Asset) : bool :=
  let gasAsset := GetGasAsset (Assets.GetChain a) in
  if Assets.IsEmpty gasAsset then false else Assets.Equals a gasAsset.

(** ** Well-formed assets: what the parser produces *)

Record asset_wf (a : Asset) : Prop := {
  wf_chain : Chains.Valid (chain a) = None;
  wf_symbol : isAlphaNumeric (symbol a) = true;
  wf_symbol_upper : ToUpper (symbol a) = symbol a;
  wf_ticker : ticker a = before "-" (symbol a);
  wf_ticker_len : (1 <= String.length (ticker a) <= 13)%nat;
  wf_flavour : ((Synth a && Trade a) || (Trade a && Secured a) || (Secured a && Synth a)) = false;
}.

Lemma chain_valid_inv c :
  Chains.Valid c = None →
  (3 <= String.length c <= 10)%nat ∧ str_forall is_upper c = true.
Proof.
  unfold Chains.Valid. destruct (Nat.ltb_spec (String.length c) 3); [done|].
  destruct (Nat.ltb_spec 10 (String.length c)); [done|].
  destruct (str_forall is_upper c); [|done]. intros _. split; [lia|done].
Qed.

Lemma chain_string_id c : Chains.Valid c = None → Chains.Str c = c.
Proof. intros [_ Hu]%chain_valid_inv. by apply upper_string_id. Qed.

Lemma NewChain_ok c c' : Chains.NewChain c = Ok c' → Chains.Valid c' = None.
Proof.
  unfold Chains.NewChain. destruct (Chains.Valid (ToUpper c)) eqn:Hv; [done|].
  by intros [= <-].
Qed.

Lemma NewChain_id c : Chains.Valid c = None → Chains.NewChain c = Ok c.
Proof.
  intros Hv. pose proof (chain_string_id c Hv) as Hc. unfold Chains.Str in Hc.
  unfold Chains.NewChain. by rewrite Hc, Hv.
Qed.

Lemma is_symbol_char_upper c : is_symbol_char (upper c) = is_symbol_char c.
Proof. all_chars c; reflexivity. Qed.

Lemma isAlphaNumeric_upper s : isAlphaNumeric (ToUpper s) = isAlphaNumeric s.
Proof.
  unfold isAlphaNumeric, ToUpper. rewrite str_forall_map. f_equal; [by destruct s|].
  induction s as [|c s IH]; cbn; [done|]. by rewrite is_symbol_char_upper, IH.
Qed.

Lemma symbol_no_slash s :
  isAlphaNumeric s = true → str_forall (λ c, negb (is_char "/" c)) s = true.
Proof.
  unfold isAlphaNumeric. rewrite andb_true_iff. intros [_ Hs]. revert Hs.
  apply str_forall_impl. intros c. all_chars c; done.
Qed.

Lemma upper_not_sep s :
  str_forall is_upper s = true → str_forall (negb ∘ Assets.is_sep) s = true.
Proof. apply str_forall_impl. intros c. all_chars c; done. Qed.

Lemma NewTicker_ok s t : NewTicker s = Ok t → t = ToUpper s ∧ (1 <= String.length s <= 13)%nat.
Proof.
  unfold NewTicker. destruct (Nat.eqb_spec (String.length s) 0); [done|].
  destruct (Nat.ltb_spec 13 (String.length s)); [done|].
  destruct (str_forall _ s); [|done]. intros [= <-]. split; [done|lia].
Qed.

Lemma NewAsset_wf input a : Assets.NewAsset input = Ok a → asset_wf a.
Proof.
  unfold Assets.NewAsset. intros Hn.
  apply bind_ok in Hn as ([[[[c sym] synth] trade] secured] & Hsplit & Hn). ok_inv.
  match goal with Hs : NewSymbol _ = Ok _ |- _ => unfold NewSymbol in Hs;
    destruct (isAlphaNumeric sym) eqn:Halpha; [|discriminate Hs]; injection Hs as <- end.
  match goal with Ht : NewTicker _ = Ok _ |- _ => apply NewTicker_ok in Ht as [-> Hlen] end.
  assert (Chains.Valid c = None ∧
          ((synth && trade) || (trade && secured) || (secured && synth)) = false) as [Hc Hf].
  { destruct (split_first Assets.is_sep input) as [[[pre sep] post]|] eqn:Hs.
    - ok_inv. simplify_eq. split; [by eapply NewChain_ok|]. all_chars sep; done.
    - injection Hsplit as <- <- <- <- <-. done. }
  constructor; cbn.
  - done.
  - by rewrite isAlphaNumeric_upper.
  - apply ToUpper_idem.
  - symmetry. apply before_upper.
  - unfold ToUpper. by rewrite length_str_map.
  - done.
Qed.

Definition sep_of (a : Asset) : ascii :=
  if Secured a then "-"%char else if Trade a then "~"%char
  else if Synth a then "/"%char else "."%char.

Lemma Str_wf a :
  asset_wf a → Assets.Str a = chain a +:+ String (sep_of a) (symbol a).
Proof.
  intros [Hc _ Hsu _ _ _]. unfold Assets.Str, Assets.SymbolString, sep_of.
  rewrite (chain_string_id _ Hc), Hsu.
  by destruct (Secured a), (Trade a), (Synth a).
Qed.

Lemma split_Str a :
  asset_wf a → split_first Assets.is_sep (Assets.Str a) = Some (chain a, sep_of a, symbol a).
Proof.
  intros Hwf. rewrite (Str_wf a Hwf). destruct (chain_valid_inv _ (wf_chain a Hwf)) as [_ Hu].
  apply split_first_app; [by apply upper_not_sep|].
  unfold sep_of. by destruct (Secured a), (Trade a), (Synth a).
Qed.

Lemma NewAsset_Str a : asset_wf a → Assets.NewAsset (Assets.Str a) = Ok a.
Proof.
  intros Hwf. unfold Assets.NewAsset. rewrite (split_Str a Hwf).
  destruct Hwf as [Hc Hs Hsu Ht Hl Hf]. rewrite (NewChain_id _ Hc). cbn.
  unfold NewSymbol. rewrite Hs. cbn. unfold NewTicker. rewrite <- Ht.
  destruct (Nat.eqb_spec (String.length (ticker a)) 0); [lia|].
  destruct (Nat.ltb_spec 13 (String.length (ticker a))); [lia|].
  rewrite Ht, before_forall by by apply symbol_no_slash. cbn.
  rewrite <- before_upper, Hsu, <- Ht. unfold sep_of.
  destruct a as [c s t [] [] []]; cbn in *; done.
Qed.

Lemma Str_inj a b : asset_wf a → asset_wf b → Assets.Str a = Assets.Str b → a = b.
Proof.
  intros Ha Hb Hab. pose proof (NewAsset_Str a Ha) as H1.
  rewrite Hab, (NewAsset_Str b Hb) in H1. congruence.
Qed.

Lemma EqualFold_upper s t : ToUpper s = s → ToUpper t = t → EqualFold s t = true ↔ s = t.
Proof. intros Hs Ht. unfold EqualFold. by rewrite bool_decide_eq_true, Hs, Ht. Qed.

Lemma ticker_upper a : asset_wf a → ToUpper (ticker a) = ticker a.
Proof. intros Hwf. rewrite (wf_ticker a Hwf), <- before_upper. by rewrite (wf_symbol_upper a Hwf). Qed.

(** On parsed assets [Asset.Equals] is equality. *)
Lemma Equals_eq a b : asset_wf a → asset_wf b → Assets.Equals a b = true ↔ a = b.
Proof.
  intros Ha Hb. pose proof (ticker_upper a Ha). pose proof (ticker_upper b Hb).
  pose proof (chain_string_id _ (wf_chain a Ha)) as Hca.
  pose proof (chain_string_id _ (wf_chain b Hb)) as Hcb.
  unfold Assets.Equals, Chains.Equals. rewrite !andb_true_iff, Hca, Hcb.
  rewrite (wf_symbol_upper a Ha), (wf_symbol_upper b Hb), H, H0.
  rewrite !EqualFold_upper by (done || apply wf_symbol_upper; done).
  rewrite !Bool.eqb_true_iff. destruct a, b; cbn. naive_solver.
Qed.

Lemma Equals_refl a : Assets.Equals a a = true.
Proof.
  unfold Assets.Equals, Chains.Equals. rewrite !EqualFold_refl, !Bool.eqb_reflx. done.
Qed.

Lemma Equals_sym a b : Assets.Equals a b = Assets.Equals b a.
Proof.
  assert (Hb : ∀ x y, Bool.eqb x y = Bool.eqb y x) by by intros [] [].
  unfold Assets.Equals, Chains.Equals.
  by rewrite (EqualFold_sym (Chains.Str _)), (EqualFold_sym (ToUpper (symbol a))),
    (EqualFold_sym (ToUpper (ticker a))), (Hb (Synth a)), (Hb (Trade a)), (Hb (Secured a)).
Qed.

Lemma Equals_trans a b c : Assets.Equals a b = true → Assets.Equals b c = true → Assets.Equals a c = true.
Proof.
  unfold Assets.Equals, Chains.Equals, EqualFold.
  rewrite !andb_true_iff, !bool_decide_eq_true, !Bool.eqb_true_iff. intuition congruence.
Qed.

Lemma layer1_wf_switch : asset_wf SwitchNative.
Proof. by constructor; vm_compute; try done; lia. Qed.
Lemma layer1_wf_swcy : asset_wf SWCY.
Proof. by constructor; vm_compute; try done; lia. Qed.
Lemma layer1_wf_ruji : asset_wf RUJI.
Proof. by constructor; vm_compute; try done; lia. Qed.
Lemma layer1_wf_switchly : asset_wf SWITCHLY.
Proof. by constructor; vm_compute; try done; lia. Qed.
#[export] Hint Resolve layer1_wf_switch layer1_wf_swcy layer1_wf_ruji layer1_wf_switchly : assets.

Lemma Str_upper a : asset_wf a → ToUpper (Assets.Str a) = Assets.Str a.
Proof.
  intros Hwf. rewrite (Str_wf a Hwf). unfold ToUpper. rewrite str_map_app. cbn.
  change (str_map upper) with ToUpper.
  pose proof (chain_string_id _ (wf_chain a Hwf)) as Hc. unfold Chains.Str in Hc.
  rewrite Hc, (wf_symbol_upper a Hwf).
  unfold sep_of. by destruct (Secured a), (Trade a), (Synth a).
Qed.

(** A name without a separator after three letters is not the lower-cased
    name of an asset, so the four special denominations are not taken. *)
Lemma lower_Str_not_special a d :
  asset_wf a →
  match split_first Assets.is_sep (ToUpper d) with
  | Some (pre, _, _) => (String.length pre < 3)%nat
  | None => True
  end → ToLower (Assets.Str a) ≠ d.
Proof.
  intros Hwf Hd <-. rewrite ToUpper_ToLower, (Str_upper a Hwf), (split_Str a Hwf) in Hd.
  destruct (chain_valid_inv _ (wf_chain a Hwf)). lia.
Qed.

(** The denomination of an asset determines it. *)
Lemma Native_inj a b : asset_wf a → asset_wf b → Assets.Native a = Assets.Native b → a = b.
Proof.
  intros Ha Hb. unfold Assets.Native.
  assert (Hcase : ∀ c, asset_wf c →
    Assets.IsSwitch c = true ∧ c = SwitchNative ∨
    Assets.IsSwitch c = false ∧ (Assets.Equals c SWITCHLY = true ∧ c = SWITCHLY ∨
    Assets.Equals c SWITCHLY = false ∧ (Assets.Equals c SWCY = true ∧ c = SWCY ∨
    Assets.Equals c SWCY = false ∧ (Assets.IsRUJI c = true ∧ c = RUJI ∨
    Assets.IsRUJI c = false)))).
  { intros c Hc. unfold Assets.IsSwitch, Assets.IsRUJI. rewrite (Equals_sym RUJI).
    assert (Hd : ∀ d, asset_wf d → {Assets.Equals c d = true ∧ c = d} + {Assets.Equals c d = false}).
    { intros d Hd. destruct (Assets.Equals c d) eqn:He; [left|by right].
      split; [done|]. by apply Equals_eq. }
    destruct (Hd _ layer1_wf_switch) as [?|?]; [by left|right; split; [done|]].
    destruct (Hd _ layer1_wf_switchly) as [?|?]; [by left|right; split; [done|]].
    destruct (Hd _ layer1_wf_swcy) as [?|?]; [by left|right; split; [done|]].
    destruct (Hd _ layer1_wf_ruji) as [?|?]; [by left|by right]. }
  destruct (Hcase a Ha) as [[-> ->]|[-> [[-> ->]|[-> [[-> ->]|[-> [[-> ->]| ->]]]]]]];
  destruct (Hcase b Hb) as [[-> ->]|[-> [[-> ->]|[-> [[-> ->]|[-> [[-> ->]| ->]]]]]]];
    try done; intros Heq;
    try (exfalso; revert Heq; by apply lower_Str_not_special; [|vm_compute; first [exact I|lia]]);
    try (exfalso; symmetry in Heq; revert Heq;
         by apply lower_Str_not_special; [|vm_compute; first [exact I|lia]]).
  apply Str_inj; [done..|].
  rewrite <- (Str_upper a Ha), <- (Str_upper b Hb), <- (ToUpper_ToLower (Assets.Str a)), Heq.
  apply ToUpper_ToLower.
Qed.

(** ** The textual forms identify the asset *)

(** Printing a parsed asset and parsing the text again gives the same asset,
    so the keys and memos that carry [Asset.String] lose nothing. *)
Theorem asset_print_parse input a :
  Assets.NewAsset input = Ok a →
  Assets.NewAsset (Assets.Str a) = Ok a ∧ ToUpper (Assets.Str a) = Assets.Str a.
Proof.
  intros Hn. pose proof (NewAsset_wf input a Hn) as Hwf.
  split; [by apply NewAsset_Str|by apply Str_upper].
Qed.

(** Two parsed assets never share a bank denomination, although some have
    reserved ones and the others the lower-case text. *)
Theorem native_denominations_distinct i j a b :
  Assets.NewAsset i = Ok a → Assets.NewAsset j = Ok b →
  Assets.Native a = Assets.Native b → a = b.
Proof. intros Ha Hb. apply Native_inj; [exact (NewAsset_wf i a Ha)|exact (NewAsset_wf j b Hb)]. Qed.

Lemma asset_print_parse_witness :
  Assets.NewAsset "eth~usdc-0xa0b" = Ok (mkAsset "ETH" "USDC-0XA0B" "USDC" false true false) ∧
  Assets.NewAsset (Assets.Str (mkAsset "ETH" "USDC-0XA0B" "USDC" false true false)) =
    Ok (mkAsset "ETH" "USDC-0XA0B" "USDC" false true false).
Proof.
  assert (Assets.NewAsset "eth~usdc-0xa0b" = Ok (mkAsset "ETH" "USDC-0XA0B" "USDC" false true false))
    as Hn by (vm_compute; reflexivity).
  split; [exact Hn|apply (asset_print_parse _ _ Hn)].
Defined.

Lemma native_denominations_distinct_witness :
  Assets.Native SwitchNative = "switch" ∧ SwitchNative = SwitchNative.
Proof.
  split; [reflexivity|].
  apply (native_denominations_distinct "switch" "SWITCHLY.SWITCH"); vm_compute; reflexivity.
Defined.
