(* ===== verification/Coins.v ===== *)
(** * Coins and gas

    src/common/coin.go and src/common/gas.go: a coin is an amount of an asset,
    a list of coins is merged and reduced asset by asset. *)

From S2P Require Import Prelude CosmosMath Amounts GoStrings Assets.
Open Scope Z_scope.

Record Coin := mkCoin { coin_asset : Asset; coin_amount : Z; coin_decimals : Z }.

#[export] Instance Coin_eq_dec : EqDecision Coin.
Proof. solve_decision. Defined.

Definition NewCoin (asset : Asset) (amount : Z) : Coin := mkCoin asset amount 0.
Definition NoCoin : Coin := NewCoin EmptyAsset 0.

Section Coins.
  Context `{CosmosMath}.

Definition Coin_Equals (c cc : Coin) : bool :=
  Assets.Equals (coin_asset c) (coin_asset cc) && (coin_amount c =? coin_amount cc).
Definition Coin_IsEmpty (c : Coin) : bool :=
  Assets.IsEmpty (coin_asset c) || (coin_amount c =? 0).
Definition Coin_Valid (c : Coin) : option error :=
  if Assets.IsEmpty (coin_asset c) then Some "denom cannot be empty"
  else if coin_amount c =? 0 then Some "amount cannot be zero"
  else None.
Definition Coin_IsNative (c : Coin) : bool :=
  Chains.Equals (Assets.GetChain (coin_asset c)) SWITCHLYChain.
Definition WithDecimals (c : Coin) (decimal : Z) : Coin :=
  mkCoin (coin_asset c) (coin_amount c) decimal.

(** ** Lists of coins *)

Fixpoint Coins_Valid (cs : list Coin) : option error :=
  match cs with
  | [] => None
  | c :: cs' => match Coin_Valid c with Some e => Some e | None => Coins_Valid cs' end
  end.
Definition Coins_IsEmpty (cs : list Coin) : bool := forallb Coin_IsEmpty cs.
Definition Contains (cs : list Coin) (c : Coin) : bool := existsb (Coin_Equals c) cs.
Definition GetCoin (cs : list Coin) (asset : Asset) : Coin :=
  match List.find (λ item, Assets.Equals asset (coin_asset item)) cs with
  | Some item => item
  | None => NoCoin
  end.
Definition Coins_Distinct (cs : list Coin) : list Coin :=
  fold_left (λ newCoins item,
    if Contains newCoins item then newCoins else (newCoins ++ [item])%list) cs [].
Definition HasSynthetic (cs : list Coin) : bool := existsb (λ c, Synth (coin_asset c)) cs.
Definition NoneEmpty (cs : list Coin) : list Coin :=
  List.filter (λ item, negb (Coin_IsEmpty item)) cs.

(** The inner loop of [Coins.Add]: the first coin of the same asset is
    increased ([break]), and the flag says whether there was one. *)
Fixpoint add_first (cs : list Coin) (a : Coin) : outcome (list Coin * bool) :=
  match cs with
  | [] => Ok ([], false)
  | c :: cs' =>
      if Assets.Equals (coin_asset c) (coin_asset a) then
        s ← uadd (coin_amount c) (coin_amount a);
        Ok (mkCoin (coin_asset c) s (coin_decimals c) :: cs', true)
      else
        '(cs'', matched) ← add_first cs' a;
        Ok (c :: cs'', matched)
  end.

Definition add_one (cs : list Coin) (a : Coin) : outcome (list Coin) :=
  '(cs', matched) ← add_first cs a;
  Ok (if matched : bool then cs' else (cs' ++ [a])%list).

(** [Coins.Add]: works on a copy, so the receiver is not changed. *)
Fixpoint Coins_Add (oldCoins addCoins : list Coin) : outcome (list Coin) :=
  match addCoins with
  | [] => Ok oldCoins
  | a :: addCoins' => cs ← add_one oldCoins a; Coins_Add cs addCoins'
  end.

Fixpoint sub_first (cs : list Coin) (a : Coin) : outcome (list Coin) :=
  match cs with
  | [] => Ok []
  | c :: cs' =>
      if Assets.Equals (coin_asset c) (coin_asset a) then
        s ← SafeSub (coin_amount c) (coin_amount a);
        Ok (mkCoin (coin_asset c) s (coin_decimals c) :: cs')
      else cs'' ← sub_first cs' a; Ok (c :: cs'')
  end.

Fixpoint Coins_SafeSub (oldCoins subCoins : list Coin) : outcome (list Coin) :=
  match subCoins with
  | [] => Ok oldCoins
  | a :: subCoins' => cs ← sub_first oldCoins a; Coins_SafeSub cs subCoins'
  end.

(** ** Gas of EVM chains *)

Definition evmTransferFee : Z := 21000.
Definition evmGasPerByte : Z := 68.

Definition GetEVMGasFee (c : Chain) (gasPrice msgLen : Z) : outcome (list Coin) :=
  gasBytes ← umul evmGasPerByte msgLen;
  units ← uadd evmTransferFee gasBytes;
  price ← uint_of_bigint gasPrice;
  amt ← umul units price;
  Ok [NewCoin (GetGasAsset c) amt].

Definition MakeEVMGas (c : Chain) (gasPrice gas : Z) (layer1Fee : option Z) : outcome (list Coin) :=
  price ← uint_of_bigint gasPrice;
  unrounded ← umul gas price;
  unroundedGasAmt ←
    match layer1Fee with
    | Some fee => f ← uint_of_bigint fee; uadd unrounded f
    | None => Ok unrounded
    end;
  roundedGasAmt ← uquo unroundedGasAmt (10 ^ 10);
  back ← umul roundedGasAmt (10 ^ 10);
  roundedGasAmt ←
    if (back <? unroundedGasAmt) || (roundedGasAmt =? 0) then uadd roundedGasAmt 1
    else Ok roundedGasAmt;
  Ok [NewCoin (GetGasAsset c) roundedGasAmt].

(** ** Amount of an asset in a list of coins *)

Definition same_asset (a : Asset) (c : Coin) : bool := Assets.Equals (coin_asset c) a.
Definition total_of (a : Asset) (cs : list Coin) : Z :=
  sumZ (coin_amount <$> List.filter (same_asset a) cs).

Definition coins_wf (cs : list Coin) : Prop :=
  Forall (λ c, asset_wf (coin_asset c) ∧ 0 ≤ coin_amount c) cs.

#[local] Arguments total_of : simpl never.

Lemma total_of_cons a c cs :
  total_of a (c :: cs) = (if same_asset a c then coin_amount c else 0) + total_of a cs.
Proof. unfold total_of. cbn [List.filter]. by destruct (same_asset a c). Qed.

Lemma total_of_app a cs1 cs2 : total_of a (cs1 ++ cs2) = total_of a cs1 + total_of a cs2.
Proof. induction cs1; [done|]. rewrite <- app_comm_cons, !total_of_cons. lia. Qed.

Lemma same_asset_trans a b c :
  asset_wf a → asset_wf (coin_asset b) → asset_wf (coin_asset c) →
  Assets.Equals (coin_asset b) (coin_asset c) = true → same_asset a b = same_asset a c.
Proof. intros ??? Heq%Equals_eq; [|done..]. unfold same_asset. by rewrite Heq. Qed.

Lemma add_first_spec a x cs cs' m :
  asset_wf a → asset_wf (coin_asset x) → coins_wf cs → 0 ≤ coin_amount x →
  add_first cs x = Ok (cs', m) →
  coins_wf cs' ∧ (coin_asset <$> cs') = (coin_asset <$> cs) ∧
  total_of a cs' = total_of a cs + (if m && same_asset a x then coin_amount x else 0).
Proof.
  intros Ha Hx Hcs Hx0. revert cs' m. induction Hcs as [|c cs [Hc Hc0] Hcs IH]; intros cs' m; cbn.
  - intros [= <- <-]. split_and!; [constructor|done|cbn; lia].
  - destruct (Assets.Equals (coin_asset c) (coin_asset x)) eqn:Heq; intros Hok; uint_inv.
    + simplify_eq. split_and!; [by constructor; [split; [|cbn; lia]|]|done|].
      rewrite !total_of_cons. cbn [coin_amount].
      rewrite <- (same_asset_trans a c x Ha Hc Hx Heq).
      unfold same_asset at 1. cbn [coin_asset]. fold (same_asset a c).
      destruct (same_asset a c); cbn; lia.
    + destruct x0 as [cs1 m1]. ok_inv. simplify_eq.
      match goal with Hr : add_first cs x = _ |- _ =>
        destruct (IH _ _ Hr) as (? & Hmap & Htot) end.
      split_and!; [by constructor|by rewrite !fmap_cons, Hmap|].
      rewrite !total_of_cons, Htot. lia.
Qed.

Lemma add_one_spec a x cs cs' :
  asset_wf a → asset_wf (coin_asset x) → coins_wf cs → 0 ≤ coin_amount x →
  add_one cs x = Ok cs' →
  coins_wf cs' ∧ total_of a cs' = total_of a cs + total_of a [x].
Proof.
  intros Ha Hx Hcs Hx0 Hok. unfold add_one in Hok. ok_inv. destruct x0 as [cs1 m]. simplify_eq.
  match goal with Hr : add_first cs x = _ |- _ =>
    destruct (add_first_spec a x cs _ _ Ha Hx Hcs Hx0 Hr) as (Hwf & _ & Htot) end.
  rewrite total_of_cons. change (total_of a []) with 0. destruct m.
  - split; [done|]. rewrite Htot. cbn. lia.
  - split; [by apply Forall_app; split; [|by constructor]|].
    rewrite total_of_app, total_of_cons, Htot. change (total_of a []) with 0. cbn. lia.
Qed.

(** Adding coins adds, for every asset, the amounts of that asset. *)
Theorem Coins_Add_total a oldCoins addCoins newCoins :
  asset_wf a → coins_wf oldCoins → coins_wf addCoins →
  Coins_Add oldCoins addCoins = Ok newCoins →
  coins_wf newCoins ∧ total_of a newCoins = total_of a oldCoins + total_of a addCoins.
Proof.
  intros Ha Hold Hadd. revert oldCoins Hold.
  induction Hadd as [|x xs [Hx Hx0] Hxs IH]; intros oldCoins Hold; cbn.
  - intros [= <-]. split; [done|]. change (total_of a []) with 0. lia.
  - intros Hok. ok_inv.
    match goal with Hr : add_one _ _ = Ok _ |- _ =>
      destruct (add_one_spec a x _ _ Ha Hx Hold Hx0 Hr) as [Hwf Htot] end.
    destruct (IH _ Hwf Hok) as [? ->]. split; [done|].
    rewrite Htot, !total_of_cons. change (total_of a []) with 0. lia.
Qed.

(** The gas charged for an EVM transaction covers its cost, is rounded up by
    less than one unit, and is never zero. *)
Theorem MakeEVMGas_covers c gasPrice gas layer1Fee coins :
  0 ≤ gasPrice → 0 ≤ gas → (∀ f, layer1Fee = Some f → 0 ≤ f) →
  MakeEVMGas c gasPrice gas layer1Fee = Ok coins →
  let cost := gas * gasPrice + default 0 layer1Fee in
  ∃ r, coins = [NewCoin (GetGasAsset c) r] ∧ 1 ≤ r ∧
       cost ≤ r * 10 ^ 10 ∧ (r - 1) * 10 ^ 10 ≤ cost ∧ (0 < cost → (r - 1) * 10 ^ 10 < cost).
Proof.
  intros Hp Hg Hf Hok cost. unfold MakeEVMGas in Hok. ok_inv.
  rewrite uint_of_bigint_law in *. repeat match goal with
    Hu : in_uint _ = Ok _ |- _ => apply in_uint_inv in Hu as [-> ?] end.
  match goal with Hm : umul gas gasPrice = Ok _ |- _ => apply umul_inv in Hm as [-> ?] end.
  assert (x1 = cost ∧ 0 ≤ cost) as [-> Hc0].
  { unfold cost. destruct layer1Fee as [f|]; cbn; ok_inv.
    - rewrite uint_of_bigint_law in *. repeat match goal with
        Hu : in_uint _ = Ok _ |- _ => apply in_uint_inv in Hu as [-> ?] end.
      match goal with Hm : uadd _ _ = Ok _ |- _ => apply uadd_inv in Hm as [-> ?] end. lia.
    - lia. }
  clearbody cost.
  match goal with Hq : uquo _ _ = Ok _ |- _ => apply uquo_inv in Hq as (-> & _ & ?); [|lia..] end.
  match goal with Hm : umul (_ / _) _ = Ok _ |- _ => apply umul_inv in Hm as [-> _] end.
  pose proof (Z.div_mod cost (10 ^ 10) ltac:(lia)) as Hdm.
  pose proof (Z.mod_pos_bound cost (10 ^ 10) ltac:(lia)) as Hr.
  set (q := cost / 10 ^ 10) in *. clearbody q.
  destruct (Z.ltb_spec (q * 10 ^ 10) cost), (Z.eqb_spec q 0); cbn in *; uint_inv;
    eexists; (split; [reflexivity|]); lia.
Qed.
End Coins.

Lemma btc_wf : asset_wf BTCAsset.
Proof. by apply (NewAsset_wf "BTC.BTC"). Qed.

Lemma Coins_Add_total_witness :
  ∃ cs, Coins_Add [NewCoin BTCAsset 3; NewCoin SwitchNative 5] [NewCoin BTCAsset 4] = Ok cs ∧
    total_of BTCAsset cs =
      total_of BTCAsset [NewCoin BTCAsset 3; NewCoin SwitchNative 5] +
      total_of BTCAsset [NewCoin BTCAsset 4].
Proof.
  eexists. assert (Coins_Add [NewCoin BTCAsset 3; NewCoin SwitchNative 5] [NewCoin BTCAsset 4] =
    Ok [NewCoin BTCAsset 7; NewCoin SwitchNative 5]) as Hok by (vm_compute; reflexivity).
  split; [exact Hok|].
  apply (Coins_Add_total BTCAsset) in Hok as [_ Ht]; [exact Ht|apply btc_wf| |].
  - repeat constructor; cbn; solve [apply btc_wf|apply layer1_wf_switch|lia].
  - repeat constructor; cbn; solve [apply btc_wf|lia].
Defined.

Lemma MakeEVMGas_covers_witness :
  ∃ coins, MakeEVMGas ETHChain 30000000000 21000 None = Ok coins ∧
    ∃ r, coins = [NewCoin (GetGasAsset ETHChain) r] ∧ 21000 * 30000000000 + 0 ≤ r * 10 ^ 10.
Proof.
  eexists. assert (MakeEVMGas ETHChain 30000000000 21000 None = Ok [NewCoin ETHAsset 63000]) as Hok
    by (vm_compute; reflexivity).
  split; [exact Hok|].
  destruct (MakeEVMGas_covers ETHChain 30000000000 21000 None _ ltac:(lia) ltac:(lia)
    ltac:(discriminate) Hok) as (r & Hr & _ & Hc & _).
  exists r. split; [exact Hr|exact Hc].
Defined.
