(* ===== verification/Pools.v ===== *)
(** * Pools and liquidity providers

    src/x/switchly/types/type_pool.go and type_liquidity_provider.go (with the
    records of src/proto/switchly/v1/types): depths, units, valuations and the
    redeem values of a position. *)

From S2P Require Import Prelude CosmosMath Amounts GoStrings Assets.
Open Scope Z_scope.

Inductive PoolStatus := UnknownPoolStatus | Available | Staged | Suspended.

#[export] Instance PoolStatus_eq_dec : EqDecision PoolStatus.
Proof. solve_decision. Defined.

Record Pool := mkPool {
  BalanceSwitch : Z;
  BalanceAsset : Z;
  pool_asset : Asset;
  LPUnits : Z;
  Status : PoolStatus;
  StatusSince : Z;
  Decimals : Z;
  SynthUnits : Z;
  PendingInboundSwitch : Z;
  PendingInboundAsset : Z;
}.

#[export] Instance Pool_eq_dec : EqDecision Pool.
Proof. solve_decision. Defined.

(** Assignments to a field. *)
Definition set_BalanceSwitch (v : Z) (r : Pool) : Pool :=
  mkPool v (BalanceAsset r) (pool_asset r) (LPUnits r) (Status r) (StatusSince r) (Decimals r) (SynthUnits r) (PendingInboundSwitch r) (PendingInboundAsset r).
Definition set_BalanceAsset (v : Z) (r : Pool) : Pool :=
  mkPool (BalanceSwitch r) v (pool_asset r) (LPUnits r) (Status r) (StatusSince r) (Decimals r) (SynthUnits r) (PendingInboundSwitch r) (PendingInboundAsset r).
Definition set_pool_asset (v : Asset) (r : Pool) : Pool :=
  mkPool (BalanceSwitch r) (BalanceAsset r) v (LPUnits r) (Status r) (StatusSince r) (Decimals r) (SynthUnits r) (PendingInboundSwitch r) (PendingInboundAsset r).
Definition set_LPUnits (v : Z) (r : Pool) : Pool :=
  mkPool (BalanceSwitch r) (BalanceAsset r) (pool_asset r) v (Status r) (StatusSince r) (Decimals r) (SynthUnits r) (PendingInboundSwitch r) (PendingInboundAsset r).
Definition set_Status (v : PoolStatus) (r : Pool) : Pool :=
  mkPool (BalanceSwitch r) (BalanceAsset r) (pool_asset r) (LPUnits r) v (StatusSince r) (Decimals r) (SynthUnits r) (PendingInboundSwitch r) (PendingInboundAsset r).
Definition set_Decimals (v : Z) (r : Pool) : Pool :=
  mkPool (BalanceSwitch r) (BalanceAsset r) (pool_asset r) (LPUnits r) (Status r) (StatusSince r) v (SynthUnits r) (PendingInboundSwitch r) (PendingInboundAsset r).
Definition set_SynthUnits (v : Z) (r : Pool) : Pool :=
  mkPool (BalanceSwitch r) (BalanceAsset r) (pool_asset r) (LPUnits r) (Status r) (StatusSince r) (Decimals r) v (PendingInboundSwitch r) (PendingInboundAsset r).
Definition set_PendingInboundSwitch (v : Z) (r : Pool) : Pool :=
  mkPool (BalanceSwitch r) (BalanceAsset r) (pool_asset r) (LPUnits r) (Status r) (StatusSince r) (Decimals r) (SynthUnits r) v (PendingInboundAsset r).
Definition set_PendingInboundAsset (v : Z) (r : Pool) : Pool :=
  mkPool (BalanceSwitch r) (BalanceAsset r) (pool_asset r) (LPUnits r) (Status r) (StatusSince r) (Decimals r) (SynthUnits r) (PendingInboundSwitch r) v.

Record LiquidityProvider := mkLP {
  lp_asset : Asset;
  SwitchAddress : string;
  AssetAddress : string;
  LastAddHeight : Z;
  LastWithdrawHeight : Z;
  Units : Z;
  PendingSwitch : Z;
  PendingAsset : Z;
  PendingTxID : string;
  SwitchDepositValue : Z;
  AssetDepositValue : Z;
}.

#[export] Instance LiquidityProvider_eq_dec : EqDecision LiquidityProvider.
Proof. solve_decision. Defined.

Definition set_SwitchAddress (v : string) (r : LiquidityProvider) : LiquidityProvider :=
  mkLP (lp_asset r) v (AssetAddress r) (LastAddHeight r) (LastWithdrawHeight r) (Units r) (PendingSwitch r) (PendingAsset r) (PendingTxID r) (SwitchDepositValue r) (AssetDepositValue r).
Definition set_AssetAddress (v : string) (r : LiquidityProvider) : LiquidityProvider :=
  mkLP (lp_asset r) (SwitchAddress r) v (LastAddHeight r) (LastWithdrawHeight r) (Units r) (PendingSwitch r) (PendingAsset r) (PendingTxID r) (SwitchDepositValue r) (AssetDepositValue r).
Definition set_LastAddHeight (v : Z) (r : LiquidityProvider) : LiquidityProvider :=
  mkLP (lp_asset r) (SwitchAddress r) (AssetAddress r) v (LastWithdrawHeight r) (Units r) (PendingSwitch r) (PendingAsset r) (PendingTxID r) (SwitchDepositValue r) (AssetDepositValue r).
Definition set_LastWithdrawHeight (v : Z) (r : LiquidityProvider) : LiquidityProvider :=
  mkLP (lp_asset r) (SwitchAddress r) (AssetAddress r) (LastAddHeight r) v (Units r) (PendingSwitch r) (PendingAsset r) (PendingTxID r) (SwitchDepositValue r) (AssetDepositValue r).
Definition set_Units (v : Z) (r : LiquidityProvider) : LiquidityProvider :=
  mkLP (lp_asset r) (SwitchAddress r) (AssetAddress r) (LastAddHeight r) (LastWithdrawHeight r) v (PendingSwitch r) (PendingAsset r) (PendingTxID r) (SwitchDepositValue r) (AssetDepositValue r).
Definition set_PendingSwitch (v : Z) (r : LiquidityProvider) : LiquidityProvider :=
  mkLP (lp_asset r) (SwitchAddress r) (AssetAddress r) (LastAddHeight r) (LastWithdrawHeight r) (Units r) v (PendingAsset r) (PendingTxID r) (SwitchDepositValue r) (AssetDepositValue r).
Definition set_PendingAsset (v : Z) (r : LiquidityProvider) : LiquidityProvider :=
  mkLP (lp_asset r) (SwitchAddress r) (AssetAddress r) (LastAddHeight r) (LastWithdrawHeight r) (Units r) (PendingSwitch r) v (PendingTxID r) (SwitchDepositValue r) (AssetDepositValue r).
Definition set_PendingTxID (v : string) (r : LiquidityProvider) : LiquidityProvider :=
  mkLP (lp_asset r) (SwitchAddress r) (AssetAddress r) (LastAddHeight r) (LastWithdrawHeight r) (Units r) (PendingSwitch r) (PendingAsset r) v (SwitchDepositValue r) (AssetDepositValue r).
Definition set_SwitchDepositValue (v : Z) (r : LiquidityProvider) : LiquidityProvider :=
  mkLP (lp_asset r) (SwitchAddress r) (AssetAddress r) (LastAddHeight r) (LastWithdrawHeight r) (Units r) (PendingSwitch r) (PendingAsset r) (PendingTxID r) v (AssetDepositValue r).
Definition set_AssetDepositValue (v : Z) (r : LiquidityProvider) : LiquidityProvider :=
  mkLP (lp_asset r) (SwitchAddress r) (AssetAddress r) (LastAddHeight r) (LastWithdrawHeight r) (Units r) (PendingSwitch r) (PendingAsset r) (PendingTxID r) (SwitchDepositValue r) v.

Section Pools.
  Context `{CosmosMath}.

Definition GetPoolStatus (ps : string) : PoolStatus :=
  if bool_decide (ps = "UnknownPoolStatus") then UnknownPoolStatus
  else if bool_decide (ps = "Available") then Available
  else if bool_decide (ps = "Staged") then Staged
  else Suspended.

Definition PoolStatus_String (x : PoolStatus) : string :=
  match x with
  | UnknownPoolStatus => "UnknownPoolStatus" | Available => "Available"
  | Staged => "Staged" | Suspended => "Suspended"
  end.

(** The zero value of the asset field is [EmptyAsset]. *)
Definition NewPool : Pool := mkPool 0 0 EmptyAsset 0 Available 0 0 0 0 0.

Definition IsAvailable (m : Pool) : bool := bool_decide (Status m = Available).
Definition Pool_IsEmpty (m : Pool) : bool := Assets.IsEmpty (pool_asset m).
Definition Pool_Valid (m : Pool) : option error :=
  if Pool_IsEmpty m then Some "pool asset cannot be empty" else None.

Definition GetPoolUnits (m : Pool) : outcome Z := uadd (LPUnits m) (SynthUnits m).

(** [CalcUnits] recomputes the synth units from the synth supply [s], in the
    pool it is called on, and returns the total. *)
Definition CalcUnits (m : Pool) (s : Z) : outcome (Pool * Z) :=
  m ←
    (if (BalanceAsset m =? 0) || Synth (pool_asset m) then Ok (set_SynthUnits 0 m)
     else
       numerator ← umul (LPUnits m) s;
       twice ← umul (BalanceAsset m) 2;
       denominator ← SafeSub twice s;
       let denominator := if denominator =? 0 then 1 else denominator in
       q ← uquo numerator denominator;
       Ok (set_SynthUnits q m));
  u ← GetPoolUnits m;
  Ok (m, u).

(** [isSwap]: the message is a [MsgSwap] *)
Definition EnsureValidPoolStatus (m : Pool) (isSwap : bool) : option error :=
  match Status m with
  | Available => None
  | Staged => if isSwap then Some "pool is in staged status, can't swap" else None
  | Suspended => Some "pool suspended"
  | UnknownPoolStatus => Some "unknown pool status,UnknownPoolStatus"
  end.

Definition AssetValueInSWITCH (m : Pool) (amt : Z) : Z :=
  if (BalanceSwitch m =? 0) || (BalanceAsset m =? 0) then 0
  else GetUncappedShare (BalanceSwitch m) (BalanceAsset m) amt.

Definition SWITCHReimbursementForAssetWithdrawal (m : Pool) (amt : Z) : outcome Z :=
  if (BalanceSwitch m =? 0) || (BalanceAsset m =? 0) then Ok 0
  else
    denom ← SafeSub (BalanceAsset m) amt;
    if denom =? 0 then Ok 0
    else Ok (GetUncappedShare (BalanceSwitch m) denom amt).

Definition SWITCHValueInAsset (m : Pool) (amt : Z) : outcome Z :=
  if (BalanceSwitch m =? 0) || (BalanceAsset m =? 0) then Ok 0
  else RoundToDecimal (GetUncappedShare (BalanceAsset m) (BalanceSwitch m) amt) (Decimals m).

Definition SWITCHDisbursementForAssetAdd (m : Pool) (amt : Z) : outcome Z :=
  if (BalanceSwitch m =? 0) || (BalanceAsset m =? 0) then Ok 0
  else
    denom ← uadd (BalanceAsset m) amt;
    Ok (GetUncappedShare (BalanceSwitch m) denom amt).

Definition AssetDisbursementForSwitchAdd (m : Pool) (amt : Z) : outcome Z :=
  if (BalanceSwitch m =? 0) || (BalanceAsset m =? 0) then Ok 0
  else
    denom ← uadd (BalanceSwitch m) amt;
    RoundToDecimal (GetUncappedShare (BalanceAsset m) denom amt) (Decimals m).

Definition GetLUVI (m : Pool) : outcome Z :=
  balSWITCH ← umul (BalanceSwitch m) (10 ^ 12);
  balAsset ← umul (BalanceAsset m) (10 ^ 12);
  let num := Z.sqrt (balSWITCH * balAsset) in
  denom ← GetPoolUnits m;
  if denom =? 0 then Ok 0 else uint_of_bigint (num `quot` denom).

(** [Pools.Get] and [Pools.Set]: the assignment to [m[i]] is visible in the
    returned slice, and the pool is appended in every case. *)
Definition Pools_Get (ps : list Pool) (a : Asset) : Pool * bool :=
  match List.find (λ p, Assets.Equals (pool_asset p) a) ps with
  | Some p => (p, true)
  | None => (NewPool, false)
  end.
Definition Pools_Set (ps : list Pool) (p : Pool) : list Pool :=
  (map (λ q, if Assets.Equals (pool_asset q) (pool_asset p) then p else q) ps ++ [p])%list.

(** ** Liquidity providers *)

Definition LP_Valid (m : LiquidityProvider) : option error :=
  if LastAddHeight m =? 0 then Some "last add liquidity height cannot be empty"
  else if blank (AssetAddress m) && blank (SwitchAddress m)
  then Some "asset address and switch address cannot be empty"
  else None.

Definition LP_GetAddress (lp : LiquidityProvider) : string :=
  if negb (blank (SwitchAddress lp)) then SwitchAddress lp else AssetAddress lp.

Definition LP_Key (lp : LiquidityProvider) : string :=
  Assets.Str (lp_asset lp) +:+ "/" +:+ LP_GetAddress lp.

(** The pool is passed by value: the recomputed synth units are local. *)
Definition redeem_value (depth : Pool → Z) (lp : LiquidityProvider) (pool : Pool)
    (synthSupply : Z) : outcome Z :=
  if negb (Assets.Equals (lp_asset lp) (pool_asset pool))
  then Err "LP and Pool assets do not match"
  else
    let num := Units lp * depth pool in
    '(pool', _) ← CalcUnits pool synthSupply;
    denom ← GetPoolUnits pool';
    if denom =? 0 then Ok 0 else uint_of_bigint (num `quot` denom).

Definition GetSwitchRedeemValue := redeem_value BalanceSwitch.
Definition GetAssetRedeemValue := redeem_value BalanceAsset.

Definition luvi (switchValue assetValue units : Z) : outcome Z :=
  s ← umul switchValue (10 ^ 8);
  a ← umul assetValue (10 ^ 8);
  let num := Z.sqrt (s * a) in
  if units =? 0 then Ok 0 else uint_of_bigint (num `quot` units).

Definition GetLuviDepositValue (lp : LiquidityProvider) (pool : Pool) : outcome Z :=
  if negb (Assets.Equals (lp_asset lp) (pool_asset pool))
  then Err "LP and Pool assets do not match"
  else luvi (SwitchDepositValue lp) (AssetDepositValue lp) (Units lp).

Definition GetLuviRedeemValue (lp : LiquidityProvider) (switchRedeem assetRedeem : Z) : outcome Z :=
  luvi switchRedeem assetRedeem (Units lp).

Definition GetSaversAssetRedeemValue (lp : LiquidityProvider) (pool : Pool) : outcome Z :=
  let num := Units lp * BalanceAsset pool in
  if LPUnits pool =? 0 then Ok 0 else uint_of_bigint (num `quot` LPUnits pool).

(** ** Facts *)

Record pool_wf (m : Pool) : Prop := {
  wf_switch : 0 ≤ BalanceSwitch m;
  wf_asset : 0 ≤ BalanceAsset m;
  wf_lp : 0 ≤ LPUnits m;
  wf_synth : 0 ≤ SynthUnits m;
  wf_pswitch : 0 ≤ PendingInboundSwitch m;
  wf_passet : 0 ≤ PendingInboundAsset m;
}.

Lemma CalcUnits_inv m s m' u :
  pool_wf m → 0 ≤ s → CalcUnits m s = Ok (m', u) →
  ∃ v, m' = set_SynthUnits v m ∧ 0 ≤ v ∧ u = LPUnits m + v.
Proof.
  intros Hm Hs. unfold CalcUnits, GetPoolUnits. intros Hok. ok_inv. simplify_eq.
  assert (∃ v, m' = set_SynthUnits v m ∧ 0 ≤ v) as (v & -> & Hv).
  { pose proof (wf_lp m Hm). pose proof (wf_asset m Hm). repeat case_match; ok_inv.
    - by eexists.
    - match goal with Hn : umul (LPUnits m) s = Ok _ |- _ => apply umul_inv in Hn as [-> ?] end.
      match goal with Hn : umul (BalanceAsset m) 2 = Ok _ |- _ => apply umul_inv in Hn as [-> ?] end.
      match goal with Hn : SafeSub _ _ = Ok _ |- _ => apply SafeSub_inv in Hn as ->; [|lia..] end.
      match goal with Hn : uquo _ _ = Ok _ |- _ =>
        apply uquo_inv in Hn as (-> & ? & ?); [|lia|case_match; lia] end.
      by eexists. }
  exists v. split_and!; [done..|]. match goal with Hu : uadd _ _ = Ok _ |- _ =>
    apply uadd_inv in Hu as [-> _] end. done.
Qed.

(** Whatever the supply, only the synth units change. *)
Lemma CalcUnits_shape m s m' u : CalcUnits m s = Ok (m', u) → ∃ v, m' = set_SynthUnits v m.
Proof.
  unfold CalcUnits. intros Hok. apply bind_ok in Hok as (m1 & Hm1 & Hok). ok_inv. simplify_eq.
  destruct (_ || _); ok_inv; by eexists.
Qed.

Lemma CalcUnits_synth m s m' u :
  pool_wf m → 0 ≤ s < 2 * BalanceAsset m → Synth (pool_asset m) = false →
  CalcUnits m s = Ok (m', u) →
  m' = set_SynthUnits (LPUnits m * s / (2 * BalanceAsset m - s)) m ∧
  u = LPUnits m + LPUnits m * s / (2 * BalanceAsset m - s).
Proof.
  intros Hm Hs Hl1. pose proof (wf_lp m Hm). unfold CalcUnits, GetPoolUnits. rewrite Hl1.
  destruct (Z.eqb_spec (BalanceAsset m) 0) as [|_]; [lia|]. cbn [orb]. intros Hok. ok_inv.
  simplify_eq.
  match goal with Hn : umul (LPUnits m) s = Ok _ |- _ => apply umul_inv in Hn as [-> ?] end.
  match goal with Hn : umul (BalanceAsset m) 2 = Ok _ |- _ => apply umul_inv in Hn as [-> ?] end.
  match goal with Hn : SafeSub _ _ = Ok _ |- _ => apply SafeSub_inv in Hn as ->; [|lia..] end.
  rewrite Z.max_r in * by lia.
  destruct (Z.eqb_spec (BalanceAsset m * 2 - s) 0) as [|_]; [lia|].
  match goal with Hn : uquo _ _ = Ok _ |- _ => apply uquo_inv in Hn as (-> & ? & ?); [|lia..] end.
  match goal with Hu : uadd _ _ = Ok _ |- _ => apply uadd_inv in Hu as [-> _] end.
  rewrite (Z.mul_comm (BalanceAsset m) 2). done.
Qed.

(** [CalcUnits] gives the synths of a pool, of total supply [s], units for
    half of their value: the synth share of the units never exceeds
    [s / (2 * BalanceAsset)], and one more unit would exceed it. *)
Theorem CalcUnits_synth_share m s m' u :
  pool_wf m → 0 ≤ s < 2 * BalanceAsset m → Synth (pool_asset m) = false →
  CalcUnits m s = Ok (m', u) →
  LPUnits m' = LPUnits m ∧ u = LPUnits m' + SynthUnits m' ∧ 0 ≤ SynthUnits m' ∧
  SynthUnits m' * (2 * BalanceAsset m) ≤ u * s ∧
  (LPUnits m + (SynthUnits m' + 1)) * s < (SynthUnits m' + 1) * (2 * BalanceAsset m).
Proof.
  intros Hm Hs Hl1 Hok. pose proof (wf_lp m Hm).
  destruct (CalcUnits_synth m s m' u Hm Hs Hl1 Hok) as [-> ->]. cbn.
  set (d := 2 * BalanceAsset m - s). assert (Hd : 0 < d) by lia.
  pose proof (Z.div_mod (LPUnits m * s) d ltac:(lia)) as Hdm.
  pose proof (Z.mod_pos_bound (LPUnits m * s) d Hd).
  assert (0 ≤ LPUnits m * s / d) by (apply Z.div_pos; lia).
  set (q := LPUnits m * s / d) in *. clearbody q. unfold d in *. split_and!; lia.
Qed.

(** swapping an asset amount for its SWITCH disbursement keeps the product
    of the depths of the pool, up to the rounding of the share. *)
Theorem SWITCHDisbursement_constant_product m amt d :
  0 < BalanceSwitch m < 2 ^ 110 → 0 < BalanceAsset m < 2 ^ 110 → 0 ≤ amt < 2 ^ 100 →
  BalanceSwitch m ≤ 10 ^ 18 * BalanceAsset m →
  SWITCHDisbursementForAssetAdd m amt = Ok d →
  let A' := BalanceAsset m + amt in
  0 ≤ d ∧
  10 ^ 18 * Z.abs ((BalanceSwitch m - d) * A' - BalanceSwitch m * BalanceAsset m)
    ≤ 10 ^ 18 * A' + (d + 1) * BalanceSwitch m.
Proof.
  intros HR HA Ha Hr. unfold SWITCHDisbursementForAssetAdd.
  destruct (Z.eqb_spec (BalanceSwitch m) 0) as [|_]; [lia|].
  destruct (Z.eqb_spec (BalanceAsset m) 0) as [|_]; [lia|]. cbn [orb]. intros Hok. ok_inv.
  match goal with Hu : uadd _ _ = Ok _ |- _ => apply uadd_inv in Hu as [-> _] end.
  destruct (uncapped_share_error (BalanceSwitch m) (BalanceAsset m + amt) amt) as [H0 He];
    [lia..|].
  set (A' := BalanceAsset m + amt) in *. set (d := GetUncappedShare _ _ _) in *.
  split; [exact H0|].
  replace ((BalanceSwitch m - d) * A' - BalanceSwitch m * BalanceAsset m)
    with (- (d * A' - amt * BalanceSwitch m)) by (unfold A'; ring).
  rewrite Z.abs_opp. lia.
Qed.
End Pools.

(** ** Witnesses *)

Definition btc_pool : Pool := mkPool 1000000 100000 BTCAsset 2000 Available 0 8 0 0 0.

Lemma btc_pool_wf : pool_wf btc_pool.
Proof. constructor; cbn; lia. Qed.

Lemma CalcUnits_synth_share_witness :
  CalcUnits btc_pool 50000 = Ok (set_SynthUnits 666 btc_pool, 2666) ∧
  666 * (2 * 100000) ≤ 2666 * 50000.
Proof.
  assert (CalcUnits btc_pool 50000 = Ok (set_SynthUnits 666 btc_pool, 2666)) as Hok
    by (vm_compute; reflexivity).
  split; [exact Hok|].
  destruct (CalcUnits_synth_share btc_pool 50000 _ _ btc_pool_wf ltac:(cbn; lia) eq_refl Hok)
    as (_ & _ & _ & Hs & _). exact Hs.
Defined.

Lemma SWITCHDisbursement_constant_product_witness :
  SWITCHDisbursementForAssetAdd btc_pool 1000 = Ok 9901 ∧
  10 ^ 18 * Z.abs ((1000000 - 9901) * (100000 + 1000) - 1000000 * 100000)
    ≤ 10 ^ 18 * (100000 + 1000) + (9901 + 1) * 1000000.
Proof.
  assert (SWITCHDisbursementForAssetAdd btc_pool 1000 = Ok 9901) as Hok by (vm_compute; reflexivity).
  split; [exact Hok|].
  apply (SWITCHDisbursement_constant_product btc_pool 1000 9901); cbn; lia || exact Hok.
Defined.
