(* ===== verification/Constants.v ===== *)
(** * Constants

    src/constants/constants_v1.go and the lookups of src/constants/constants.go.
    The overrides depend on the build tag (mocknet, stagenet): they are a
    parameter of the lookups. *)

From S2P Require Import Prelude.
Open Scope Z_scope.

Definition int64values : gmap string Z := list_to_map [
  ("EmissionCurve"%string, 6);
  ("BlocksPerYear"%string, 5256000);
  ("MaxSWITCHSupply"%string, -1);
  ("OutboundTransactionFee"%string, 2000000);
  ("NativeOutboundFeeUSD"%string, 2000000);
  ("NativeTransactionFee"%string, 2000000);
  ("NativeTransactionFeeUSD"%string, 2000000);
  ("PoolCycle"%string, 43200);
  ("StagedPoolCost"%string, 1000000000);
  ("PendingLiquidityAgeLimit"%string, 100800);
  ("MinSWITCHPoolDepth"%string, 1000000000000);
  ("MaxAvailablePools"%string, 100);
  ("MinimumNodesForBFT"%string, 4);
  ("DesiredValidatorSet"%string, 100);
  ("AsgardSize"%string, 40);
  ("DerivedDepthBasisPts"%string, 0);
  ("DerivedMinDepth"%string, 100);
  ("MaxAnchorSlip"%string, 1500);
  ("MaxAnchorBlocks"%string, 300);
  ("DynamicMaxAnchorSlipBlocks"%string, 201600);
  ("DynamicMaxAnchorTarget"%string, 0);
  ("DynamicMaxAnchorCalcInterval"%string, 14400);
  ("FundMigrationInterval"%string, 360);
  ("ChurnInterval"%string, 43200);
  ("ChurnRetryInterval"%string, 720);
  ("MissingBlockChurnOut"%string, 0);
  ("MaxMissingBlockChurnOut"%string, 0);
  ("MaxTrackMissingBlock"%string, 700);
  ("BadValidatorRedline"%string, 3);
  ("LackOfObservationPenalty"%string, 2);
  ("SigningTransactionPeriod"%string, 300);
  ("DoubleSignMaxAge"%string, 24);
  ("PauseBond"%string, 0);
  ("PauseUnbond"%string, 0);
  ("MinimumBondInSWITCH"%string, 100000000000000);
  ("MaxBondProviders"%string, 6);
  ("MaxOutboundAttempts"%string, 0);
  ("SlashPenalty"%string, 15000);
  ("PauseOnSlashThreshold"%string, 10000000000);
  ("FailKeygenSlashPoints"%string, 720);
  ("FailKeysignSlashPoints"%string, 2);
  ("LiquidityLockUpBlocks"%string, 0);
  ("ObserveSlashPoints"%string, 1);
  ("DoubleBlockSignSlashPoints"%string, 1000);
  ("MissBlockSignSlashPoints"%string, 1);
  ("ObservationDelayFlexibility"%string, 10);
  ("JailTimeKeygen"%string, 4320);
  ("JailTimeKeysign"%string, 60);
  ("NodePauseChainBlocks"%string, 720);
  ("NodeOperatorFee"%string, 500);
  ("EnableDerivedAssets"%string, 0);
  ("MinSwapsPerBlock"%string, 10);
  ("MaxSwapsPerBlock"%string, 100);
  ("EnableOrderBooks"%string, 0);
  ("EnableAdvSwapQueue"%string, 0);
  ("VirtualMultSynths"%string, 2);
  ("VirtualMultSynthsBasisPoints"%string, 10000);
  ("MaxSynthPerPoolDepth"%string, 1700);
  ("MaxSynthsForSaversYield"%string, 0);
  ("MinSlashPointsForBadValidator"%string, 100);
  ("StreamingSwapPause"%string, 0);
  ("StreamingSwapMinBPFee"%string, 0);
  ("StreamingSwapMaxLength"%string, 14400);
  ("StreamingSwapMaxLengthNative"%string, 5256000);
  ("MinCR"%string, 10000);
  ("MaxCR"%string, 60000);
  ("LoanStreamingSwapsInterval"%string, 0);
  ("PauseLoans"%string, 1);
  ("LoanRepaymentMaturity"%string, 0);
  ("LendingLever"%string, 3333);
  ("MinTxOutVolumeThreshold"%string, 100000000000);
  ("TxOutDelayRate"%string, 2500000000);
  ("TxOutDelayMax"%string, 17280);
  ("MaxTxOutOffset"%string, 720);
  ("TNSRegisterFee"%string, 1000000000);
  ("TNSRegisterFeeUSD"%string, 1000000000);
  ("TNSFeeOnSale"%string, 1000);
  ("TNSFeePerBlock"%string, 20);
  ("TNSFeePerBlockUSD"%string, 20);
  ("PermittedSolvencyGap"%string, 100);
  ("ValidatorMaxRewardRatio"%string, 1);
  ("MaxNodeToChurnOutForLowVersion"%string, 1);
  ("ChurnOutForLowVersionBlocks"%string, 21600);
  ("POLMaxNetworkDeposit"%string, 0);
  ("POLMaxPoolMovement"%string, 100);
  ("POLTargetSynthPerPoolDepth"%string, 0);
  ("POLBuffer"%string, 0);
  ("RagnarokProcessNumOfLPPerIteration"%string, 200);
  ("SynthYieldBasisPoints"%string, 5000);
  ("SynthYieldCycle"%string, 0);
  ("MinimumL1OutboundFeeUSD"%string, 1000000);
  ("MinimumPoolLiquidityFee"%string, 0);
  ("ChurnMigrateRounds"%string, 5);
  ("AllowWideBlame"%string, 0);
  ("MaxAffiliateFeeBasisPoints"%string, 10000);
  ("TargetOutboundFeeSurplusSWITCH"%string, 10000000000000);
  ("MaxOutboundFeeMultiplierBasisPoints"%string, 30000);
  ("MinOutboundFeeMultiplierBasisPoints"%string, 15000);
  ("EnableUSDFees"%string, 0);
  ("PreferredAssetOutboundFeeMultiplier"%string, 100);
  ("FeeUSDRoundSignificantDigits"%string, 2);
  ("MigrationVaultSecurityBps"%string, 0);
  ("CloutReset"%string, 720);
  ("CloutLimit"%string, 0);
  ("KeygenRetryInterval"%string, 0);
  ("SaversStreamingSwapsInterval"%string, 0);
  ("RescheduleCoalesceBlocks"%string, 0);
  ("TradeAccountsEnabled"%string, 0);
  ("TradeAccountsDepositEnabled"%string, 1);
  ("EVMDisableContractWhitelist"%string, 0);
  ("OperationalVotesMin"%string, 3);
  ("L1SlipMinBps"%string, 0);
  ("TradeAccountsSlipMinBps"%string, 0);
  ("SecuredAssetSlipMinBps"%string, 5);
  ("SynthSlipMinBps"%string, 0);
  ("DerivedSlipMinBps"%string, 0);
  ("SWITCHPoolEnabled"%string, 0);
  ("SWITCHPoolDepositMaturityBlocks"%string, 1296000);
  ("SWITCHPoolMaxReserveBackstop"%string, 500000000000000);
  ("SaversEjectInterval"%string, 0);
  ("SystemIncomeBurnRateBps"%string, 1);
  ("DevFundSystemIncomeBps"%string, 500);
  ("PendulumAssetsBasisPoints"%string, 10000);
  ("PendulumUseEffectiveSecurity"%string, 0);
  ("PendulumUseVaultAssets"%string, 0);
  ("TVLCapBasisPoints"%string, 0);
  ("MultipleAffiliatesMaxCount"%string, 5);
  ("BondSlashBan"%string, 500000000000);
  ("BankSendEnabled"%string, 0);
  ("SWITCHPoolHaltDeposit"%string, 0);
  ("SWITCHPoolHaltWithdraw"%string, 0);
  ("MinSWITCHForSWCYStakeDistribution"%string, 210000000000);
  ("MinSWCYForSWCYStakeDistribution"%string, 100000);
  ("SWCYStakeSystemIncomeBps"%string, 1000);
  ("SWCYClaimingSwapHalt"%string, 1);
  ("SWCYStakeDistributionHalt"%string, 1);
  ("SWCYStakingHalt"%string, 1);
  ("SWCYUnstakingHalt"%string, 1);
  ("SWCYClaimingHalt"%string, 1);
  ("StellarMinAccountBalance"%string, 10000000);
  ("StellarBaseFee"%string, 100);
  ("StellarMaxMemoLength"%string, 28)
].

Definition boolValues : gmap string bool := list_to_map [("StrictBondLiquidityRatio"%string, true)].
Definition stringValues : gmap string string := list_to_map [
  ("DefaultPoolStatus"%string, "Staged"%string);
  ("DevFundAddress"%string, "thor1d8c0wv4y72kmlytegjmgx825xwumt9qt5xe07k"%string)].

(** Overrides first, then the table, then the zero value. *)
Definition lookup_const {A} (zero : A) (overrides values : gmap string A) (name : string) : A :=
  match overrides !! name with
  | Some v => v
  | None => default zero (values !! name)
  end.

Definition GetInt64Value (overrides : gmap string Z) : string → Z :=
  lookup_const 0 overrides int64values.
Definition GetBoolValue (overrides : gmap string bool) : string → bool :=
  lookup_const false overrides boolValues.
Definition GetStringValue (overrides : gmap string string) : string → string :=
  lookup_const ""%string overrides stringValues.
