(* ===== verification/Sha256.v ===== *)
(** * SHA-256

    The digest of Go's crypto/sha256 (FIPS 180-4), on the bytes of a string: the
    program names with it the transactions it makes itself. *)

From Stdlib Require Import Ascii String.
From S2P Require Import Prelude GoStrings.
Open Scope Z_scope.

Definition w32 (x : Z) : Z := Z.land x 0xffffffff.
Definition rotr (n x : Z) : Z := Z.lor (Z.shiftr x n) (w32 (Z.shiftl x (32 - n))).
Definition xor3 (a b c : Z) : Z := Z.lxor a (Z.lxor b c).
Definition big_sigma0 (x : Z) : Z := xor3 (rotr 2 x) (rotr 13 x) (rotr 22 x).
Definition big_sigma1 (x : Z) : Z := xor3 (rotr 6 x) (rotr 11 x) (rotr 25 x).
Definition small_sigma0 (x : Z) : Z := xor3 (rotr 7 x) (rotr 18 x) (Z.shiftr x 3).
Definition small_sigma1 (x : Z) : Z := xor3 (rotr 17 x) (rotr 19 x) (Z.shiftr x 10).
Definition choose (x y z : Z) : Z := Z.lxor (Z.land x y) (Z.land (Z.lxor x 0xffffffff) z).
Definition majority (x y z : Z) : Z := xor3 (Z.land x y) (Z.land x z) (Z.land y z).

(** The constants: 32 bits of the fractional parts of the cube roots of the first
    primes for the rounds, and of the square roots of the first eight for the
    hash to start from.  The bits of a root are found one by one from [k] down. *)
Definition is_prime (n : Z) : bool :=
  forallb (λ d, negb (Z.rem n (Z.of_nat d) =? 0)) (seq 2 (Z.to_nat (Z.sqrt n) - 1)).
Definition primes : list Z := List.filter is_prime (Z.of_nat <$> seq 2 310).
Fixpoint root_bits (power : Z → Z) (k : nat) (root n : Z) : Z :=
  match k with
  | O => root
  | S k =>
      let r := root + 2 ^ Z.of_nat k in
      root_bits power k (if power r <=? n then r else root) n
  end.
Definition fraction_bits (e p : Z) : Z := w32 (root_bits (λ r, r ^ e) 40 0 (p * 2 ^ (32 * e))).
Definition round_constants : list Z := Eval vm_compute in fraction_bits 3 <$> primes.
Definition initial_hash : list Z := Eval vm_compute in fraction_bits 2 <$> take 8 primes.

(** The message, a bit, zeros up to eight bytes short of a block, and the length
    in bits. *)
Definition bytes_of (s : string) : list Z := Z.of_nat ∘ nat_of_ascii <$> list_ascii_of_string s.
Definition big_endian (n : nat) (x : Z) : list Z :=
  (λ i, Z.land (Z.shiftr x (8 * Z.of_nat (n - 1 - i))) 255) <$> seq 0 n.
Definition pad (m : list Z) : list Z :=
  let l := Z.of_nat (length m) in
  (m ++ [128] ++ replicate (Z.to_nat ((55 - l) mod 64)) 0%Z ++ big_endian 8 (8 * l))%list.

Fixpoint words (m : list Z) : list Z :=
  match m with
  | a :: b :: c :: d :: r => Z.lor (Z.shiftl a 24) (Z.lor (Z.shiftl b 16) (Z.lor (Z.shiftl c 8) d)) :: words r
  | _ => []
  end.
(** The schedule, the last word first. *)
Fixpoint extend (n : nat) (w : list Z) : list Z :=
  match n with
  | O => w
  | S n =>
      let at_ i := nth i w 0%Z in
      extend n (w32 (small_sigma1 (at_ 1%nat) + at_ 6%nat + small_sigma0 (at_ 14%nat) + at_ 15%nat) :: w)
  end.
Definition schedule (block : list Z) : list Z := rev (extend 48 (rev block)).

Definition round (h : list Z) (kw : Z * Z) : list Z :=
  match h with
  | [a; b; c; d; e; f; g; i] =>
      let t1 := w32 (i + big_sigma1 e + choose e f g + fst kw + snd kw) in
      let t2 := w32 (big_sigma0 a + majority a b c) in
      [w32 (t1 + t2); a; b; c; w32 (d + t1); e; f; g]
  | _ => h
  end.
Definition compress (h : list Z) (block : list Z) : list Z :=
  zip_with (λ x y, w32 (x + y)) h (fold_left round (zip round_constants (schedule block)) h).
Fixpoint compress_blocks (n : nat) (h w : list Z) : list Z :=
  match n with
  | O => h
  | S n => compress_blocks n (compress h (take 16 w)) (drop 16 w)
  end.
Definition Sum256 (s : string) : list Z :=
  let m := pad (bytes_of s) in
  flat_map (big_endian 4) (compress_blocks (length m / 64) initial_hash (words m)).

(** The verb %X on bytes. *)
Definition hex_digit (x : Z) : ascii := ascii_of_nat (Z.to_nat (if x <? 10 then 48 + x else 55 + x)).
Definition hex_upper (l : list Z) : string :=
  string_of_list_ascii (flat_map (λ x, [hex_digit (Z.shiftr x 4); hex_digit (Z.land x 15)]) l).
Definition sha256_hex (s : string) : string := hex_upper (Sum256 s).

(** The vectors of the standard, of one and of two blocks. *)
Example Sum256_abc :
  sha256_hex "abc" = "BA7816BF8F01CFEA414140DE5DAE2223B00361A396177A9CB410FF61F20015AD".
Proof. vm_compute. reflexivity. Qed.
Example Sum256_two_blocks :
  sha256_hex "abcdbcdecdefdefgefghfghighijhijkijkljklmklmnlmnomnopnopq" =
    "248D6A61D20638B8E5C026930C3E6039A33CE45964FF2167F6ECEDD419DB06C1".
Proof. vm_compute. reflexivity. Qed.
Example Sum256_empty : sha256_hex "" = "E3B0C44298FC1C149AFBF4C8996FB92427AE41E4649B934CA495991B7852B855".
Proof. vm_compute. reflexivity. Qed.

(** A digest is a text of 64 hexadecimal digits, so it is a hash of the program. *)
Lemma big_endian_length n x : length (big_endian n x) = n.
Proof. unfold big_endian. by rewrite length_fmap, length_seq. Qed.
Lemma round_length h kw : length (round h kw) = length h.
Proof. by do 9 (destruct h; try done). Qed.
Lemma rounds_length l h : length (fold_left round l h) = length h.
Proof. revert h. induction l as [|kw l IH]; intros h; cbn; [done|]. by rewrite IH, round_length. Qed.
Lemma compress_length h b : length (compress h b) = length h.
Proof. unfold compress. rewrite length_zip_with, rounds_length. apply Nat.min_id. Qed.
Lemma compress_blocks_length n h w : length (compress_blocks n h w) = length h.
Proof. revert h w. induction n as [|n IH]; intros h w; cbn [compress_blocks]; [done|]. by rewrite IH, compress_length. Qed.
Lemma bind_length {A B} (f : A → list B) n l : (∀ x, length (f x) = n) → length (flat_map f l) = (n * length l)%nat.
Proof. intros Hf. induction l as [|x l IH]; cbn; [lia|]. rewrite length_app, Hf, IH. lia. Qed.
Lemma string_of_list_length l : String.length (string_of_list_ascii l) = length l.
Proof. induction l as [|c l IH]; cbn; [done|]. by rewrite IH. Qed.
Lemma sha256_hex_length s : String.length (sha256_hex s) = 64%nat.
Proof.
  unfold sha256_hex, hex_upper, Sum256. rewrite string_of_list_length, (bind_length _ 2) by done.
  rewrite (bind_length _ 4) by (intros; apply big_endian_length).
  rewrite compress_blocks_length. done.
Qed.
