(* ===== verification/Names.v ===== *)
(** * SWITCHNames

    src/x/switchly/types/type_switchlyname.go: a name with its addresses on the
    chains, and the key it is stored under, which is its base64 text. *)

From Stdlib Require Import Ascii.
From S2P Require Import Prelude GoStrings Assets.
Open Scope nat_scope.

(** ** encoding/base64 *)

Definition b64_alphabet : string := "ABCDEFGHIJKLMNOPQRSTUVWXYZabcdefghijklmnopqrstuvwxyz0123456789+/".
Definition b64_char (n : nat) : ascii := default "A"%char (String.get n b64_alphabet).
Fixpoint index_of (c : ascii) (s : string) : option nat :=
  match s with
  | EmptyString => None
  | String d r => if is_char d c then Some 0 else S <$> index_of c r
  end.
Definition b64_value (c : ascii) : option nat := index_of c b64_alphabet.

(** [StdEncoding.EncodeToString]: three bytes to four letters. *)
Fixpoint EncodeToString (s : string) : string :=
  match s with
  | EmptyString => EmptyString
  | String a EmptyString =>
      String (b64_char (code a / 4)) (String (b64_char (code a mod 4 * 16)) "==")
  | String a (String b EmptyString) =>
      String (b64_char (code a / 4)) (String (b64_char (code a mod 4 * 16 + code b / 16))
        (String (b64_char (code b mod 16 * 4)) "="))
  | String a (String b (String c r)) =>
      String (b64_char (code a / 4)) (String (b64_char (code a mod 4 * 16 + code b / 16))
        (String (b64_char (code b mod 16 * 4 + code c / 64)) (String (b64_char (code c mod 64)) (EncodeToString r))))
  end.

(** [StdEncoding.DecodeString]: line ends are skipped, padding ends the text. *)
Fixpoint without_lines (s : string) : string :=
  match s with
  | EmptyString => EmptyString
  | String c r => if (code c =? 10) || (code c =? 13) then without_lines r else String c (without_lines r)
  end.
Fixpoint decode_quads (s : string) : option string :=
  match s with
  | EmptyString => Some EmptyString
  | String a (String b (String c (String d r))) =>
      va ← b64_value a; vb ← b64_value b;
      let x := ascii_of_nat (va * 4 + vb / 16) in
      if is_char "=" c then
        if is_char "=" d && bool_decide (r = EmptyString) then Some (String x EmptyString) else None
      else
        vc ← b64_value c;
        let y := ascii_of_nat (vb mod 16 * 16 + vc / 4) in
        if is_char "=" d then
          if bool_decide (r = EmptyString) then Some (String x (String y EmptyString)) else None
        else
          vd ← b64_value d;
          rest ← decode_quads r;
          Some (String x (String y (String (ascii_of_nat (vc mod 4 * 64 + vd)) rest)))
  | _ => None
  end.
Definition DecodeString (s : string) : option string := decode_quads (without_lines s).

(** ** Names *)

Record SWITCHNameAlias := mkAlias { al_Chain : Chain; alias_Address : string }.
Record SWITCHName := mkSWITCHName {
  sn_Name : string;
  ExpireBlockHeight : Z;
  sn_Owner : string;
  sn_PreferredAsset : Asset;
  Aliases : list SWITCHNameAlias;
}.

Definition NewSWITCHName (name : string) (exp : Z) (aliases : list SWITCHNameAlias) : SWITCHName :=
  mkSWITCHName name exp "" EmptyAsset aliases.

Definition SN_Valid (m : SWITCHName) : option error :=
  if bool_decide (sn_Name m = "") then Some "name can't be empty"
  else if bool_decide (Aliases m = []) then Some "aliases can't be empty"
  else
    (fix go l :=
       match l with
       | [] => None
       | a :: r =>
           if Chains.IsEmpty (al_Chain a) then Some "chain can't be empty"
           else if blank (alias_Address a) then Some "address cannot be empty" else go r
       end) (Aliases m).

Definition GetAlias (m : SWITCHName) (c : Chain) : string :=
  match List.find (λ a, Chains.Equals (al_Chain a) c) (Aliases m) with
  | Some a => alias_Address a
  | None => ""
  end.
Fixpoint put_alias (c : Chain) (addr : string) (l : list SWITCHNameAlias) : list SWITCHNameAlias :=
  match l with
  | [] => [mkAlias c addr]
  | a :: r => if Chains.Equals (al_Chain a) c then mkAlias (al_Chain a) addr :: r else a :: put_alias c addr r
  end.
Definition SetAlias (m : SWITCHName) (c : Chain) (addr : string) : SWITCHName :=
  mkSWITCHName (sn_Name m) (ExpireBlockHeight m) (sn_Owner m) (sn_PreferredAsset m) (put_alias c addr (Aliases m)).

Definition Key (m : SWITCHName) : string := EncodeToString (ToLower (sn_Name m)).

Definition CanReceiveAffiliateFee (m : SWITCHName) : bool :=
  if bool_decide (sn_Owner m = "") then false
  else if Assets.IsEmpty (sn_PreferredAsset m) then negb (blank (GetAlias m SWITCHLYChain))
  else negb (blank (GetAlias m (Assets.GetChain (sn_PreferredAsset m)))).
