(* ===== verification/State.v ===== *)
(** * The store, the bank and the keeper

    The typed key-value store of src/x/switchly/keeper/v1 as a record of finite
    maps, one per key prefix, with the keeper's accessors on it.  A map is
    indexed by the part of the key after the prefix, which
    [KVStore.GetKey] puts in upper case; keys built from a height and an asset
    are pairs.  A stored record always unmarshals, so the database errors of the
    accessors do not arise.

    The bank module and the address codecs are not part of the repository: they
    are the fields of the classes [Bank] and [Env], with laws for what is relied
    on.  Build-tag dependent constants are fields of [Env] as well. *)

From stdpp Require Import sorting.
From S2P Require Import Prelude CosmosMath Amounts GoStrings Assets Coins Pools Constants Names.
Open Scope Z_scope.

(** ** Module accounts *)

Definition ModuleName : string := "switchly".
Definition ReserveName : string := "reserve".
Definition AsgardName : string := "asgard".
Definition SWCYClaimingName : string := "tcy_claim".
Definition SWCYStakeName : string := "tcy_stake".
Definition BondName : string := "bond".
Definition LendingName : string := "lending".
Definition AffiliateCollectorName : string := "affiliate_collector".

Definition NoAddress : string := "".
Definition NoopAddress : string := "noop".

(** ** The bank module *)

Inductive party := Module_acc (name : string) | User_acc (addr : string).

#[export] Instance party_eq_dec : EqDecision party.
Proof. solve_decision. Defined.
#[export] Instance party_countable : Countable party.
Proof.
  refine (inj_countable' (λ p, match p with Module_acc n => inl n | User_acc a => inr a end)
    (λ s, match s with inl n => Module_acc n | inr a => User_acc a end) _).
  by intros [].
Defined.

(** A denomination and an amount. *)
Abbreviation denom_coin := (string * Z)%type.

Class Bank := {
  bank_state : Type;
  bank_balance : bank_state → party → string → Z;
  bank_supply : bank_state → string → Z;
  bank_send : party → party → list denom_coin → M bank_state ();
  bank_mint : string → list denom_coin → M bank_state ();
  bank_burn : string → list denom_coin → M bank_state ();

  bank_balance_nonneg b p d : 0 ≤ bank_balance b p d;
  bank_send_law src dst d a b b' :
    bank_send src dst [(d, a)] b = (Ok (), b') →
    0 < a ≤ bank_balance b src d ∧
    (∀ e, bank_supply b' e = bank_supply b e) ∧
    (∀ p e, bank_balance b' p e =
      bank_balance b p e
      - (if decide (p = src ∧ e = d) then a else 0)
      + (if decide (p = dst ∧ e = d) then a else 0));
  (** A failed transfer of one coin changes nothing. *)
  bank_send_fails src dst d a b e b' : bank_send src dst [(d, a)] b = (Err e, b') → b' = b;
  bank_mint_law m d a b b' :
    bank_mint m [(d, a)] b = (Ok (), b') →
    0 < a ∧
    (∀ e, bank_supply b' e = bank_supply b e + (if decide (e = d) then a else 0)) ∧
    (∀ p e, bank_balance b' p e =
      bank_balance b p e + (if decide (p = Module_acc m ∧ e = d) then a else 0));
  bank_burn_law m d a b b' :
    bank_burn m [(d, a)] b = (Ok (), b') →
    0 < a ≤ bank_balance b (Module_acc m) d ∧
    (∀ e, bank_supply b' e = bank_supply b e - (if decide (e = d) then a else 0)) ∧
    (∀ p e, bank_balance b' p e =
      bank_balance b p e - (if decide (p = Module_acc m ∧ e = d) then a else 0));
}.

(** A bank with explicit balances, to evaluate the definitions with. *)
Module BankRef.
Record ledger := mkLedger { accounts : gmap (party * string) Z; totals : gmap string Z }.

Definition read (m : gmap (party * string) Z) (k : party * string) : Z := Z.max 0 (default 0 (m !! k)).
Definition add_at (k : party * string) (a : Z) (m : gmap (party * string) Z) :=
    <[k := read m k + a]> m.
Definition balance (b : ledger) (p : party) (d : string) : Z :=
    read (accounts b) (p, d).
Definition supply (b : ledger) (d : string) : Z := default 0 (totals b !! d).

Definition send (src dst : party) (cs : list denom_coin) : M ledger () := λ b,
    match cs with
    | [(d, a)] =>
        if (0 <? a) && (a <=? read (accounts b) (src, d)) then
          (Ok (), mkLedger (add_at (dst, d) a (add_at (src, d) (- a) (accounts b))) (totals b))
        else (Err "insufficient funds", b)
    | _ => (Err "invalid coins", b)
    end.
Definition mint (m : string) (cs : list denom_coin) : M ledger () := λ b,
    match cs with
    | [(d, a)] =>
        if 0 <? a then
          (Ok (), mkLedger (add_at (Module_acc m, d) a (accounts b))
                           (<[d := supply b d + a]> (totals b)))
        else (Err "invalid coins", b)
    | _ => (Err "invalid coins", b)
    end.
Definition burn (m : string) (cs : list denom_coin) : M ledger () := λ b,
    match cs with
    | [(d, a)] =>
        if (0 <? a) && (a <=? read (accounts b) (Module_acc m, d)) then
          (Ok (), mkLedger (add_at (Module_acc m, d) (- a) (accounts b))
                           (<[d := supply b d - a]> (totals b)))
        else (Err "insufficient funds", b)
    | _ => (Err "invalid coins", b)
    end.

Lemma read_add_at q d a m p e :
    0 ≤ read m (q, d) + a →
    read (add_at (q, d) a m) (p, e) = read m (p, e) + (if decide (p = q ∧ e = d) then a else 0).
  Proof.
    intros Hn. unfold add_at. destruct (decide (p = q ∧ e = d)) as [[-> ->]|Hne].
    - unfold read at 1. rewrite lookup_insert_eq. cbn. lia.
    - unfold read. rewrite lookup_insert_ne by naive_solver. lia.
  Qed.
Lemma read_nonneg m k : 0 ≤ read m k.
  Proof. unfold read. lia. Qed.
(** Who has the coins can send them. *)
Lemma sends src dst d a b : 0 < a ≤ balance b src d → fst (send src dst [(d, a)] b) = Ok ().
  Proof.
    unfold balance, send. intros [Ha Hb]. by rewrite (proj2 (Z.ltb_lt _ _) Ha), (proj2 (Z.leb_le _ _) Hb).
  Qed.

Lemma supply_add d a m m' e :
    supply (mkLedger m' (<[d := a]> m)) e = if decide (e = d) then a else default 0 (m !! e).
  Proof.
    unfold supply. cbn. destruct (decide (e = d)) as [->|].
    - by rewrite lookup_insert_eq.
    - by rewrite lookup_insert_ne.
  Qed.
End BankRef.

#[export] Program Instance bank_ref : Bank := {|
  bank_state := BankRef.ledger;
  bank_balance := BankRef.balance;
  bank_supply := BankRef.supply;
  bank_send := BankRef.send;
  bank_mint := BankRef.mint;
  bank_burn := BankRef.burn;
|}.
Next Obligation. intros. apply BankRef.read_nonneg. Qed.
Next Obligation.
  intros src dst d a b b'. unfold BankRef.send, BankRef.balance.
  destruct ((0 <? a) && _) eqn:Hg; [|done]. intros [= <-].
  rewrite !andb_true_iff, Z.ltb_lt, !Z.leb_le in Hg. split_and!; [lia|lia|done|].
  intros p e. cbn. pose proof (BankRef.read_nonneg (BankRef.add_at (src, d) (- a) (BankRef.accounts b)) (dst, d)).
  rewrite !BankRef.read_add_at by lia. repeat case_decide; lia.
Qed.
Next Obligation.
  intros src dst d a b e b'. unfold BankRef.send. destruct ((0 <? a) && _); [done|]. by intros [= _ <-].
Qed.
Next Obligation.
  intros m d a b b'. unfold BankRef.mint, BankRef.balance.
  destruct (Z.ltb_spec 0 a); [|done]. intros [= <-]. split_and!; [lia| |].
  - intros e. rewrite BankRef.supply_add. unfold BankRef.supply.
    case_decide; simplify_eq; lia.
  - intros p e. cbn. pose proof (BankRef.read_nonneg (BankRef.accounts b) (Module_acc m, d)).
    rewrite BankRef.read_add_at by lia. destruct (decide (_ ∧ _)) as [[-> ->]|]; lia.
Qed.
Next Obligation.
  intros m d a b b'. unfold BankRef.burn, BankRef.balance.
  destruct ((0 <? a) && _) eqn:Hg; [|done]. intros [= <-].
  rewrite andb_true_iff, Z.ltb_lt, Z.leb_le in Hg. split_and!; [lia|lia| |].
  - intros e. rewrite BankRef.supply_add. unfold BankRef.supply.
    case_decide; simplify_eq; lia.
  - intros p e. cbn. pose proof (BankRef.read_nonneg (BankRef.accounts b) (Module_acc m, d)).
    rewrite BankRef.read_add_at by lia. destruct (decide (_ ∧ _)) as [[-> ->]|]; lia.
Qed.

(** ** Codecs and build configuration *)

Inductive ChainNetwork := TestNet | MainNet | MockNet | StageNet.
#[export] Instance ChainNetwork_eq_dec : EqDecision ChainNetwork.
Proof. solve_decision. Defined.
Definition SoftEquals (net net2 : ChainNetwork) : bool :=
  if bool_decide (net = MainNet) && bool_decide (net2 = MainNet) then true
  else negb (bool_decide (net = MainNet)) && negb (bool_decide (net2 = MainNet)).

Class Env := {
  int64Overrides : gmap string Z;
  boolOverrides : gmap string bool;
  stringOverrides : gmap string string;
  (** [Address.IsChain], which calls the decoder of the chain's addresses *)
  IsChain : string → Chain → bool;
  (** [Address.GetNetwork], which reads the prefix of the decoded address *)
  GetNetwork : string → Chain → ChainNetwork;
  CurrentChainNetwork : ChainNetwork;
  (** [AccAddressFromBech32], to the canonical text of the account *)
  AccAddressFromBech32 : string → outcome string;
  (** the address of a module account *)
  module_address : string → string;
  (** whether a decoder [NewAddress] asks (common/address.go, address_mainnet.go)
      knows the text as an address of some chain *)
  address_decodes : string → bool;
}.

(** ** Records *)

Record ProtocolOwnedLiquidity := mkPOL {
  SwitchDeposited : Z;
  SwitchWithdrawn : Z;
}.

Record TradeUnit := mkTradeUnit {
  tu_asset : Asset;
  tu_units : Z;
  tu_depth : Z;
}.

Record TradeAccount := mkTradeAccount {
  tr_asset : Asset;
  tr_units : Z;
  tr_owner : string;
  tr_LastAddHeight : Z;
  tr_LastWithdrawHeight : Z;
}.

Record SecuredAsset := mkSecuredAsset {
  sa_asset : Asset;
  sa_depth : Z;
}.

Record SwapperClout := mkClout {
  clout_address : string;
  Score : Z;
  Reclaimed : Z;
  Spent : Z;
  LastSpentHeight : Z;
  LastReclaimHeight : Z;
}.

Record EventSwap := mkEventSwap {
  ev_Pool : Asset;
  ev_SwapTarget : Z;
  ev_SwapSlip : Z;
  ev_LiquidityFee : Z;
  ev_LiquidityFeeInSwitch : Z;
  ev_TxID : string;
  ev_InCoins : list Coin;
  ev_EmitAsset : Coin;
  ev_PoolSlip : Z;
  ev_StreamingSwapQuantity : Z;
  ev_StreamingSwapCount : Z;
}.

Inductive BondType := BondPaid | BondReturned | BondReward | BondCost.
Record GasPool := mkGasPool { gp_Asset : Asset; gp_SwitchAmt : Z; gp_AssetAmt : Z; gp_Count : Z }.

Inductive Event :=
  | EvSwap (e : EventSwap)
  | EvMint (denom : string) (amt : Z) (reason : string)
  | EvBurn (denom : string) (amt : Z) (reason : string)
  | EvPool (pool : Asset) (status : PoolStatus)
  | EvPendingLiquidity (pool : Asset) (switchAddr : string) (switchAmt : Z)
      (assetAddr : string) (assetAmt : Z) (switchTx assetTx : string)
  | EvAddLiquidity (pool : Asset) (units : Z) (switchAddr : string) (switchAmt assetAmt : Z)
      (switchTx assetTx assetAddr : string)
  | EvWithdrawPendingLiquidity (pool : Asset) (switchAddr : string) (switchAmt : Z)
      (assetAddr : string) (assetAmt : Z) (switchTx assetTx : string)
  | EvWithdraw (pool : Asset) (units basisPoints : Z) (txID : string) (emitAsset emitSwitch : Z)
  | EvTradeDeposit (amt : Z) (asset : Asset) (assetAddr owner txID : string)
  | EvTradeWithdraw (amt : Z) (asset : Asset) (assetAddr owner txID : string)
  | EvSecuredDeposit (amt : Z) (asset : Asset) (assetAddr owner txID : string)
  | EvSecuredWithdraw (amt : Z) (asset : Asset) (assetAddr owner txID : string)
  | EvDonate (pool : Asset) (txID : string)
  | EvRefund (code : Z) (reason txID : string) (coins : list Coin)
  | EvReserve (contributor : string) (amt : Z) (txID : string)
  | EvBond (amt : Z) (bondType : BondType) (nodeAddress bondAddress : string) (txID : string)
  | EvSlash (pool : Asset) (amts : list (Asset * Z))
  | EvSetMimir (key value : string)
  | EvSecurity (msg txID : string) (coins : list Coin)
  | EvOutbound (inTxID txID : string) (coins : list Coin)
  | EvGas (pools : list GasPool)
  | EvSwitch (amt : Z) (asset : Asset) (assetAddr switchAddr txID : string)
  | EvKeysignMetric (txID : string) (medianMs : Z)
  | EvAffiliateFee (txID name switchAddress : string) (asset : Asset) (bps grossAmt feeAmt : Z)
  | EvMaintenance (nodeAddress : string) (maintenance : bool)
  | EvLimitSwap (source target : Coin) (txID : string)
  | EvPoolBalance (pool : Asset) (switchAmt : Z) (switchAdd : bool) (assetAmt : Z) (assetAdd : bool) (reason : string)
  | EvErrata (txID : string) (mods : list (Asset * Z * bool * Z * bool))
  | EvFee (inTxID : string) (coins : list Coin) (poolDeduct : Z)
  | EvScheduledOutbound (inHash toAddress : string) (coin : Coin) (vault : string)
  | EvSetNodeMimir (key value address : string)
  | EvSlashPoint (nodeAddress : string) (points : Z) (reason : string)
  | EvName (name : string) (c : Chain) (addr : string) (regFee fundAmt expire : Z) (owner : string)
  | EvSWCYClaim (switchAddress l1Address : string) (amt : Z) (asset : Asset)
  | EvSWCYStake (addr : string) (amt : Z)
  | EvSWCYUnstake (addr : string) (amt : Z)
  | EvSWCYDistribution (addr : string) (amt : Z)
  | EvRewards (bondReward : Z) (poolRewards : list (Asset * Z)) (devFund incomeBurn swcyStake : Z)
  | EvStreamingSwap (source target : Asset) (txID : string) (quantity count lastHeight target_ deposit in_ out : Z).

Definition NewTradeUnit (a : Asset) : TradeUnit := mkTradeUnit a 0 0.
Definition NewTradeAccount (addr : string) (a : Asset) : TradeAccount := mkTradeAccount a 0 addr 0 0.
Definition NewSecuredAsset (a : Asset) : SecuredAsset := mkSecuredAsset a 0.
Definition NewSwapperClout (addr : string) : SwapperClout := mkClout addr 0 0 0 0 0.

Definition TradeUnit_Key (tu : TradeUnit) : string := Assets.Str (tu_asset tu).
Definition TradeAccount_Key (tr : TradeAccount) : string :=
  tr_owner tr +:+ "/" +:+ Assets.Str (tr_asset tr).
Definition SecuredAsset_Key (sa : SecuredAsset) : string := Assets.Str (sa_asset sa).

(** The part of a key after its prefix ([KVStore.GetKey]). *)
Definition GetKey (key : string) : string := ToUpper key.

(** [Address.Equals], [Address.GetChain] *)
Definition Address_Equals (addr addr2 : string) : bool := EqualFold addr addr2.
Definition Address_GetChain `{Env} (addr : string) : Chain :=
  default EmptyChain (List.find (IsChain addr)
    [ETHChain; SWITCHLYChain; BTCChain; LTCChain; BCHChain; DOGEChain; GAIAChain; AVAXChain;
     XRPChain; StellarChain]).

(** The block context: the height, the semantic version's major number, and
    the transaction's bytes, of which the program uses the hash. *)
Record Ctx := mkCtx { BlockHeight : Z; versionMajor : Z; txHash : string }.

Section Keeper.
  Context `{CosmosMath} `{Bank} `{Env}.

Record State := mkState {
  mimirs : gmap string Z;
  ragnarokHeight : Z;
  poolRagnarok : gmap string Z;
  pools : gmap string Pool;
  lps : gmap string LiquidityProvider;
  pol : ProtocolOwnedLiquidity;
  tradeUnits : gmap string TradeUnit;
  tradeAccounts : gmap string TradeAccount;
  securedAssets : gmap string SecuredAsset;
  clouts : gmap string SwapperClout;
  totalLiquidityFees : gmap Z Z;
  poolLiquidityFees : gmap (Z * string) Z;
  rollingFees : gmap string Z;
  swapSlips : gmap (Z * string) Z;
  switchNames : gmap string SWITCHName;
  bank : bank_state;
  events : list Event;
}.

Definition put_mimirs (v : gmap string Z) (r : State) : State :=
  mkState v (ragnarokHeight r) (poolRagnarok r) (pools r) (lps r) (pol r) (tradeUnits r) (tradeAccounts r) (securedAssets r) (clouts r) (totalLiquidityFees r) (poolLiquidityFees r) (rollingFees r) (swapSlips r) (switchNames r) (bank r) (events r).
Definition put_ragnarokHeight (v : Z) (r : State) : State :=
  mkState (mimirs r) v (poolRagnarok r) (pools r) (lps r) (pol r) (tradeUnits r) (tradeAccounts r) (securedAssets r) (clouts r) (totalLiquidityFees r) (poolLiquidityFees r) (rollingFees r) (swapSlips r) (switchNames r) (bank r) (events r).
Definition put_poolRagnarok (v : gmap string Z) (r : State) : State :=
  mkState (mimirs r) (ragnarokHeight r) v (pools r) (lps r) (pol r) (tradeUnits r) (tradeAccounts r) (securedAssets r) (clouts r) (totalLiquidityFees r) (poolLiquidityFees r) (rollingFees r) (swapSlips r) (switchNames r) (bank r) (events r).
Definition put_pools (v : gmap string Pool) (r : State) : State :=
  mkState (mimirs r) (ragnarokHeight r) (poolRagnarok r) v (lps r) (pol r) (tradeUnits r) (tradeAccounts r) (securedAssets r) (clouts r) (totalLiquidityFees r) (poolLiquidityFees r) (rollingFees r) (swapSlips r) (switchNames r) (bank r) (events r).
Definition put_lps (v : gmap string LiquidityProvider) (r : State) : State :=
  mkState (mimirs r) (ragnarokHeight r) (poolRagnarok r) (pools r) v (pol r) (tradeUnits r) (tradeAccounts r) (securedAssets r) (clouts r) (totalLiquidityFees r) (poolLiquidityFees r) (rollingFees r) (swapSlips r) (switchNames r) (bank r) (events r).
Definition put_pol (v : ProtocolOwnedLiquidity) (r : State) : State :=
  mkState (mimirs r) (ragnarokHeight r) (poolRagnarok r) (pools r) (lps r) v (tradeUnits r) (tradeAccounts r) (securedAssets r) (clouts r) (totalLiquidityFees r) (poolLiquidityFees r) (rollingFees r) (swapSlips r) (switchNames r) (bank r) (events r).
Definition put_tradeUnits (v : gmap string TradeUnit) (r : State) : State :=
  mkState (mimirs r) (ragnarokHeight r) (poolRagnarok r) (pools r) (lps r) (pol r) v (tradeAccounts r) (securedAssets r) (clouts r) (totalLiquidityFees r) (poolLiquidityFees r) (rollingFees r) (swapSlips r) (switchNames r) (bank r) (events r).
Definition put_tradeAccounts (v : gmap string TradeAccount) (r : State) : State :=
  mkState (mimirs r) (ragnarokHeight r) (poolRagnarok r) (pools r) (lps r) (pol r) (tradeUnits r) v (securedAssets r) (clouts r) (totalLiquidityFees r) (poolLiquidityFees r) (rollingFees r) (swapSlips r) (switchNames r) (bank r) (events r).
Definition put_securedAssets (v : gmap string SecuredAsset) (r : State) : State :=
  mkState (mimirs r) (ragnarokHeight r) (poolRagnarok r) (pools r) (lps r) (pol r) (tradeUnits r) (tradeAccounts r) v (clouts r) (totalLiquidityFees r) (poolLiquidityFees r) (rollingFees r) (swapSlips r) (switchNames r) (bank r) (events r).
Definition put_clouts (v : gmap string SwapperClout) (r : State) : State :=
  mkState (mimirs r) (ragnarokHeight r) (poolRagnarok r) (pools r) (lps r) (pol r) (tradeUnits r) (tradeAccounts r) (securedAssets r) v (totalLiquidityFees r) (poolLiquidityFees r) (rollingFees r) (swapSlips r) (switchNames r) (bank r) (events r).
Definition put_totalLiquidityFees (v : gmap Z Z) (r : State) : State :=
  mkState (mimirs r) (ragnarokHeight r) (poolRagnarok r) (pools r) (lps r) (pol r) (tradeUnits r) (tradeAccounts r) (securedAssets r) (clouts r) v (poolLiquidityFees r) (rollingFees r) (swapSlips r) (switchNames r) (bank r) (events r).
Definition put_poolLiquidityFees (v : gmap (Z * string) Z) (r : State) : State :=
  mkState (mimirs r) (ragnarokHeight r) (poolRagnarok r) (pools r) (lps r) (pol r) (tradeUnits r) (tradeAccounts r) (securedAssets r) (clouts r) (totalLiquidityFees r) v (rollingFees r) (swapSlips r) (switchNames r) (bank r) (events r).
Definition put_rollingFees (v : gmap string Z) (r : State) : State :=
  mkState (mimirs r) (ragnarokHeight r) (poolRagnarok r) (pools r) (lps r) (pol r) (tradeUnits r) (tradeAccounts r) (securedAssets r) (clouts r) (totalLiquidityFees r) (poolLiquidityFees r) v (swapSlips r) (switchNames r) (bank r) (events r).
Definition put_swapSlips (v : gmap (Z * string) Z) (r : State) : State :=
  mkState (mimirs r) (ragnarokHeight r) (poolRagnarok r) (pools r) (lps r) (pol r) (tradeUnits r) (tradeAccounts r) (securedAssets r) (clouts r) (totalLiquidityFees r) (poolLiquidityFees r) (rollingFees r) v (switchNames r) (bank r) (events r).
Definition put_switchNames (v : gmap string SWITCHName) (r : State) : State :=
  mkState (mimirs r) (ragnarokHeight r) (poolRagnarok r) (pools r) (lps r) (pol r) (tradeUnits r) (tradeAccounts r) (securedAssets r) (clouts r) (totalLiquidityFees r) (poolLiquidityFees r) (rollingFees r) (swapSlips r) v (bank r) (events r).
Definition put_bank (v : bank_state) (r : State) : State :=
  mkState (mimirs r) (ragnarokHeight r) (poolRagnarok r) (pools r) (lps r) (pol r) (tradeUnits r) (tradeAccounts r) (securedAssets r) (clouts r) (totalLiquidityFees r) (poolLiquidityFees r) (rollingFees r) (swapSlips r) (switchNames r) v (events r).
Definition put_events (v : list Event) (r : State) : State :=
  mkState (mimirs r) (ragnarokHeight r) (poolRagnarok r) (pools r) (lps r) (pol r) (tradeUnits r) (tradeAccounts r) (securedAssets r) (clouts r) (totalLiquidityFees r) (poolLiquidityFees r) (rollingFees r) (swapSlips r) (switchNames r) (bank r) v.

Abbreviation K := (M State).

Definition EmitEvent (e : Event) : K () := modify (λ s, put_events (events s ++ [e])%list s).

(** A bank operation on the bank part of the state. *)
Definition in_bank {A} (m : M bank_state A) : K A := λ s,
  let '(r, b) := m (bank s) in (r, put_bank b s).

(** ** Mimir and configuration *)

Definition GetMimir (key : string) : K Z :=
  gets (λ s, default (-1) (mimirs s !! GetKey key)).
Definition SetMimir (key : string) (value : Z) : K () :=
  modify (λ s, put_mimirs (<[GetKey key := value]> (mimirs s)) s).

Definition GetConfigInt64 (key : string) : K Z :=
  val ← GetMimir key;
  mret (if val <? 0 then GetInt64Value int64Overrides key else val).

(** ** SWITCHNames *)

Definition name_key (name : string) : string := GetKey (Key (NewSWITCHName name 0 [])).
Definition SetSWITCHName (n : SWITCHName) : K () :=
  modify (λ s, put_switchNames (<[name_key (sn_Name n) := n]> (switchNames s)) s).
(** A name that has expired is answered as a name without an owner. *)
Definition GetSWITCHName (ctx : Ctx) (name : string) : K SWITCHName :=
  r ← gets (λ s, switchNames s !! name_key name);
  match r with
  | None => throw "SWITCHName doesn't exist"
  | Some n => mret (if ExpireBlockHeight n <? BlockHeight ctx then NewSWITCHName name 0 [] else n)
  end.
Definition SWITCHNameExists (ctx : Ctx) (name : string) : K bool :=
  gets (λ s, match switchNames s !! name_key name with
             | None => false
             | Some n => BlockHeight ctx <=? (if ExpireBlockHeight n <? BlockHeight ctx then 0 else ExpireBlockHeight n)
             end).
Definition DeleteSWITCHName (name : string) : K () :=
  modify (λ s, put_switchNames (delete (name_key name) (switchNames s)) s).

(** ** Pools *)

Definition GetPool (a : Asset) : K Pool :=
  gets (λ s, default NewPool (pools s !! GetKey (Assets.Str a))).
Definition SetPool (p : Pool) : K () :=
  if Assets.IsEmpty (pool_asset p) then throw "cannot save a pool with an empty asset"
  else modify (λ s, put_pools (<[GetKey (Assets.Str (pool_asset p)) := p]> (pools s)) s).
Definition PoolExist (a : Asset) : K bool :=
  gets (λ s, bool_decide (is_Some (pools s !! GetKey (Assets.Str a)))).
(** The pools in the order of their keys, as the store iterates over them. *)
Definition key_le {A} (x y : string * A) : Prop := String.leb (fst x) (fst y) = true.
#[export] Instance key_le_dec {A} : RelDecision (@key_le A).
Proof. intros x y. apply bool_eq_dec. Defined.
Definition GetPools : K (list Pool) := gets (λ s, snd <$> merge_sort key_le (map_to_list (pools s))).
Definition RemovePool (a : Asset) : K () :=
  modify (λ s, put_pools (delete (GetKey (Assets.Str a)) (pools s)) s).

(** ** Ragnarok *)

Definition RagnarokInProgress : K bool := gets (λ s, 0 <? ragnarokHeight s).
Definition GetPoolRagnarokStart (a : Asset) : K Z :=
  gets (λ s, default 0 (poolRagnarok s !! GetKey (Assets.Str a))).

(** Gas assets of the chains are appended to the list being checked. *)
Definition ragnarok_assets (assets : list Asset) : list Asset :=
  fst (fold_left (λ '(acc, seen) a,
    let gasAsset := GetGasAsset (Assets.GetChain a) in
    if negb (Assets.Equals a gasAsset) &&
       negb (bool_decide (Assets.MimirString gasAsset ∈ (seen : list string)))
    then ((acc ++ [gasAsset])%list, Assets.MimirString gasAsset :: seen)
    else (acc, seen)) assets (assets, [])).

Fixpoint any_ragnarok (assets : list Asset) : K bool :=
  match assets with
  | [] => mret false
  | a :: assets' =>
      v ← GetMimir ("RAGNAROK-" +:+ Assets.MimirString a);
      if 0 <? v then mret true else any_ragnarok assets'
  end.
Definition IsRagnarok (assets : list Asset) : K bool := any_ragnarok (ragnarok_assets assets).

(** ** Liquidity providers *)

Definition NewLP (a : Asset) (addr : string) : LiquidityProvider :=
  if negb (IsChain addr (chain SwitchNative)) then mkLP a NoAddress addr 0 0 0 0 0 "" 0 0
  else mkLP a addr "" 0 0 0 0 0 "" 0 0.
Definition GetLiquidityProvider (a : Asset) (addr : string) : K LiquidityProvider :=
  let record := NewLP a addr in
  gets (λ s, default record (lps s !! GetKey (LP_Key record))).
Definition SetLiquidityProvider (lp : LiquidityProvider) : K () :=
  modify (λ s, put_lps (<[GetKey (LP_Key lp) := lp]> (lps s)) s).
Definition RemoveLiquidityProvider (lp : LiquidityProvider) : K () :=
  modify (λ s, put_lps (delete (GetKey (LP_Key lp)) (lps s)) s).

Definition GetPOL : K ProtocolOwnedLiquidity := gets pol.
Definition SetPOL (data : ProtocolOwnedLiquidity) : K () := modify (put_pol data).

(** ** Trade accounts and secured assets *)

Definition GetTradeUnit (a : Asset) : K TradeUnit :=
  let record := NewTradeUnit a in
  gets (λ s, default record (tradeUnits s !! GetKey (TradeUnit_Key record))).
Definition SetTradeUnit (tu : TradeUnit) : K () :=
  modify (λ s, put_tradeUnits (<[GetKey (TradeUnit_Key tu) := tu]> (tradeUnits s)) s).
Definition GetTradeAccount (addr : string) (a : Asset) : K TradeAccount :=
  let record := NewTradeAccount addr a in
  gets (λ s, default record (tradeAccounts s !! GetKey (TradeAccount_Key record))).
Definition SetTradeAccount (tr : TradeAccount) : K () :=
  modify (λ s, put_tradeAccounts (<[GetKey (TradeAccount_Key tr) := tr]> (tradeAccounts s)) s).
Definition RemoveTradeAccount (tr : TradeAccount) : K () :=
  modify (λ s, put_tradeAccounts (delete (GetKey (TradeAccount_Key tr)) (tradeAccounts s)) s).

Definition GetSecuredAsset (a : Asset) : K SecuredAsset :=
  let record := NewSecuredAsset a in
  gets (λ s, default record (securedAssets s !! GetKey (SecuredAsset_Key record))).
Definition SetSecuredAsset (ba : SecuredAsset) : K () :=
  modify (λ s, put_securedAssets (<[GetKey (SecuredAsset_Key ba) := ba]> (securedAssets s)) s).

(** ** Clout *)

Definition GetSwapperClout (addr : string) : K SwapperClout :=
  let record := NewSwapperClout addr in
  if blank addr then mret record
  else gets (λ s, default record (clouts s !! GetKey addr)).
Definition SetSwapperClout (record : SwapperClout) : K () :=
  modify (λ s, put_clouts (<[GetKey (clout_address record) := record]> (clouts s)) s).

(** ** Liquidity fees and slips of a block *)

(** [Uint.Uint64], [Int.Uint64]: panic out of 64 bits. *)
Definition as_uint64 (u : Z) : outcome Z := if (0 <=? u) && (u <? 2 ^ 64) then Ok u else Panic.
(** [Int.Int64] *)
Definition as_int64 (i : Z) : outcome Z :=
  if (- 2 ^ 63 <=? i) && (i <? 2 ^ 63) then Ok i else Panic.

Definition AddToLiquidityFees (ctx : Ctx) (a : Asset) (fee : Z) : K () :=
  let currentHeight := to_u64 (BlockHeight ctx) in
  let key := GetKey (Assets.Str a) in
  totalFees ← gets (λ s, default 0 (totalLiquidityFees s !! currentHeight));
  poolFees ← gets (λ s, default 0 (poolLiquidityFees s !! (currentHeight, key)));
  totalFees ← lift (uadd totalFees fee);
  poolFees ← lift (uadd poolFees fee);
  t ← lift (as_uint64 totalFees);
  _ ← modify (λ s, put_totalLiquidityFees (<[currentHeight := t]> (totalLiquidityFees s)) s);
  p ← lift (as_uint64 poolFees);
  _ ← modify (λ s, put_poolLiquidityFees (<[(currentHeight, key) := p]> (poolLiquidityFees s)) s);
  currentValue ← gets (λ s, default 0 (rollingFees s !! key));
  f ← lift (as_uint64 fee);
  modify (λ s, put_rollingFees (<[key := to_u64 (currentValue + f)]> (rollingFees s)) s).

Definition GetPoolSwapSlip (height : Z) (a : Asset) : K Z :=
  gets (λ s, default 0 (swapSlips s !! (height, GetKey (Assets.Str a)))).
Definition AddToSwapSlip (ctx : Ctx) (a : Asset) (amt : Z) : K () :=
  let currentHeight := BlockHeight ctx in
  poolSlip ← GetPoolSwapSlip currentHeight a;
  v ← lift (as_int64 (poolSlip + amt));
  modify (λ s, put_swapSlips (<[(currentHeight, GetKey (Assets.Str a)) := v]> (swapSlips s)) s).

(** ** The bank seen by the program *)

(** [cosmos.NewCoin] of a coin of the program *)
Definition native_coin (c : Coin) : denom_coin := (Assets.Native (coin_asset c), coin_amount c).
(** [Coin.Native] *)
Definition Coin_Native (c : Coin) : outcome denom_coin :=
  if negb (Coin_IsNative c) then Err "coin is not on switchly" else Ok (native_coin c).

Definition SendFromModuleToModule (from to : string) (coins : list Coin) : K () :=
  in_bank (bank_send (Module_acc from) (Module_acc to) (map native_coin coins)).
Definition SendFromAccountToModule (from to : string) (coins : list Coin) : K () :=
  in_bank (bank_send (User_acc from) (Module_acc to) (map native_coin coins)).
Definition SendFromModuleToAccount (from to : string) (coins : list Coin) : K () :=
  in_bank (bank_send (Module_acc from) (User_acc to) (map native_coin coins)).

Definition BurnFromModule (mod_ : string) (c : Coin) : K () :=
  coinToBurn ← lift (Coin_Native c);
  in_bank (bank_burn mod_ [coinToBurn]).

(** [GetTotalSupply]: zero once the pool's ragnarok has started. *)
Definition GetTotalSupply (a : Asset) : K Z :=
  ragStart ← GetPoolRagnarokStart (Assets.GetLayer1Asset a);
  if 0 <? ragStart then mret 0
  else
    amt ← gets (λ s, bank_supply (bank s) (Assets.Native a));
    lift (as_uint64 amt).

Definition GetBalanceOf (addr : string) (a : Asset) : K Z :=
  gets (λ s, bank_balance (bank s) (User_acc addr) (Assets.Native a)).

(** The last steps of [MintToModule]: mint, and halt the network when the supply
    of SWITCH is above the cap of the mimir. *)
Definition mint_checked (mod_ : string) (c : Coin) : K () :=
  if coin_amount c =? 0 then mret ()
  else
    coinToMint ← lift (Coin_Native c);
    _ ← in_bank (bank_mint mod_ [coinToMint]);
    coin2 ← gets (λ s, bank_supply (bank s) (Assets.Native SwitchNative));
    maxAmt ← GetMimir "MaxSWITCHSupply";
    if (0 <? maxAmt) && (maxAmt <? coin2) then
      _ ← SetMimir "HaltTrading" 1;
      _ ← SetMimir "HaltChainGlobal" 1;
      _ ← SetMimir "PauseLP" 1;
      SetMimir "HaltSwitchlyProtocol" 1
    else mret ().

(** Above the cap the reserve pays the surplus. *)
Definition MintToModule (mod_ : string) (c : Coin) : K () :=
  maxAmt ← GetMimir "MaxSWITCHSupply";
  c ←
    (if Assets.IsSwitch (coin_asset c) && (0 <? maxAmt) then
       currentSupply ← GetTotalSupply SwitchNative;
       let maxSupply := to_u64 maxAmt in
       availableSupply ← lift (SafeSub maxSupply currentSupply);
       if availableSupply <? coin_amount c then
         borrowReserveAmt ← lift (SafeSub (coin_amount c) availableSupply);
         amt ← lift (SafeSub (coin_amount c) borrowReserveAmt);
         _ ← SendFromModuleToModule ReserveName mod_ [NewCoin SwitchNative borrowReserveAmt];
         mret (mkCoin (coin_asset c) amt (coin_decimals c))
       else mret c
     else mret c);
  mint_checked mod_ c.

Definition MintAndSendToAccount (to : string) (c : Coin) : K () :=
  _ ← MintToModule ModuleName c;
  SendFromModuleToAccount ModuleName to [c].

(** ** Facts *)

Lemma in_bank_ok {A} (m : M bank_state A) s a s' :
  in_bank m s = (Ok a, s') → ∃ b, m (bank s) = (Ok a, b) ∧ s' = put_bank b s.
Proof. unfold in_bank. destruct (m (bank s)) as [r b]. intros [= -> <-]. by exists b. Qed.

(** Reading the store changes nothing. *)
Lemma GetConfigInt64_ok k s v s' : GetConfigInt64 k s = (Ok v, s') → s' = s.
Proof. unfold GetConfigInt64, GetMimir. intros Hok. by run_inv. Qed.

Lemma SetPool_ok p s s' :
  SetPool p s = (Ok (), s') →
  Assets.IsEmpty (pool_asset p) = false ∧
  s' = put_pools (<[GetKey (Assets.Str (pool_asset p)) := p]> (pools s)) s.
Proof. unfold SetPool. destruct (Assets.IsEmpty _); intros Hok; by run_inv. Qed.

Lemma as_uint64_ok u v : as_uint64 u = Ok v → v = u ∧ 0 ≤ u < 2 ^ 64.
Proof.
  unfold as_uint64. destruct (Z.leb_spec 0 u), (Z.ltb_spec u (2 ^ 64)); cbn; [|done..].
  by intros [= <-].
Qed.

Lemma GetTotalSupply_ok a s u s' :
  GetTotalSupply a s = (Ok u, s') →
  s' = s ∧ 0 ≤ u < 2 ^ 64 ∧
  (default 0 (poolRagnarok s !! GetKey (Assets.Str (Assets.GetLayer1Asset a))) ≤ 0 →
   u = bank_supply (bank s) (Assets.Native a)).
Proof.
  unfold GetTotalSupply, GetPoolRagnarokStart, gets, mbind, M_bind.
  destruct (Z.ltb_spec 0 (default 0 (poolRagnarok s !! GetKey (Assets.Str (Assets.GetLayer1Asset a))))).
  - intros [= <- <-]. split_and!; first [done | lia].
  - intros Hok. apply lift_ok in Hok as [Hok ->]. apply as_uint64_ok in Hok as [-> ?].
    split_and!; (done || lia).
Qed.

Lemma GetTotalSupply_le a s u s' :
  GetTotalSupply a s = (Ok u, s') → u ≤ Z.max 0 (bank_supply (bank s) (Assets.Native a)).
Proof.
  unfold GetTotalSupply, GetPoolRagnarokStart. intros Hok. run_inv. run_case Hok; run_inv; [lia|].
  match goal with Hu : as_uint64 _ = Ok _ |- _ => apply as_uint64_ok in Hu as [-> ?] end. lia.
Qed.

(** The mimirs after the circuit breaker has tripped. *)
Definition tripped (m : gmap string Z) : gmap string Z :=
  <["HALTSWITCHLYPROTOCOL" := 1]> (<["PAUSELP" := 1]>
    (<["HALTCHAINGLOBAL" := 1]> (<["HALTTRADING" := 1]> m))).

(** The cap in force, and the supply of SWITCH. *)
Definition supply_cap (s : State) : Z := default (-1) (mimirs s !! "MAXSWITCHSUPPLY").
Definition switch_supply (s : State) : Z := bank_supply (bank s) "switch".

(** Minting changes the bank and, at most, the mimirs of the breaker. *)
Lemma mint_checked_ok mod_ c s s' :
  coin_amount c ≠ 0 → mint_checked mod_ c s = (Ok (), s') →
  ∃ b, bank_mint mod_ [native_coin c] (bank s) = (Ok (), b) ∧
    s' = put_bank b (put_mimirs
           (if (0 <? supply_cap s) && (supply_cap s <? bank_supply b "switch")
            then tripped (mimirs s) else mimirs s) s).
Proof.
  intros Hc. unfold mint_checked. destruct (Z.eqb_spec (coin_amount c) 0) as [|_]; [done|].
  intros Hok. run_step Hok n s1 En. apply lift_ok in En as [En ->].
  unfold Coin_Native in En. destruct (negb _); [done|]. injection En as <-.
  run_step Hok u s2 Em. destruct u. apply in_bank_ok in Em as (b & Em & ->).
  exists b. split; [exact Em|]. unfold GetMimir in Hok. run_inv.
  change (default (-1) _) with (supply_cap s) in Hok.
  change (bank_supply _ _) with (bank_supply b "switch") in Hok.
  destruct (_ && _); injection Hok as <-; by destruct s.
Qed.

Lemma MintToModule_ok mod_ c s s' :
  Assets.IsSwitch (coin_asset c) = false → coin_amount c ≠ 0 →
  MintToModule mod_ c s = (Ok (), s') →
  ∃ b, bank_mint mod_ [native_coin c] (bank s) = (Ok (), b) ∧
    s' = put_bank b (put_mimirs
           (if (0 <? supply_cap s) && (supply_cap s <? bank_supply b "switch")
            then tripped (mimirs s) else mimirs s) s).
Proof.
  intros Hs Hc. unfold MintToModule, GetMimir. rewrite Hs. cbn [andb]. intros Hok. run_inv.
  by apply mint_checked_ok.
Qed.

(** A user account gains exactly what is minted, and so does the supply. *)
Lemma MintAndSendToAccount_ok to c s s' :
  Assets.IsSwitch (coin_asset c) = false →
  MintAndSendToAccount to c s = (Ok (), s') →
  ∃ b m, s' = put_bank b (put_mimirs m s) ∧ 0 < coin_amount c ∧
    (∀ d, bank_supply b d = bank_supply (bank s) d +
       (if decide (d = Assets.Native (coin_asset c)) then coin_amount c else 0)) ∧
    (∀ p d, bank_balance b p d = bank_balance (bank s) p d +
       (if decide (p = User_acc to ∧ d = Assets.Native (coin_asset c)) then coin_amount c else 0)).
Proof.
  intros Hs. unfold MintAndSendToAccount. intros Hok. ok_inv.
  match goal with Hm : MintToModule _ _ _ = (Ok ?u, _) |- _ => destruct u; rename Hm into Hmint end.
  apply in_bank_ok in Hok as (b' & Hsend & ->).
  destruct (decide (coin_amount c = 0)) as [Hz|Hz].
  - (* nothing is minted, and nothing can be sent *)
    cbn in Hsend. unfold native_coin in Hsend. rewrite Hz in Hsend.
    apply bank_send_law in Hsend. lia.
  - apply MintToModule_ok in Hmint as (b & Hmint & ->); [|done|done].
    apply bank_mint_law in Hmint as (Hpos & Hsup & Hbal).
    cbn in Hsend. apply bank_send_law in Hsend as (_ & Hsup' & Hbal').
    exists b'. eexists. split; [by destruct s|]. split; [exact Hpos|]. split.
    + intros d. rewrite Hsup'. apply Hsup.
    + intros p d. rewrite Hbal'. rewrite Hbal.
      repeat case_decide; naive_solver lia.
Qed.

(** Coins moved from an account to a module and burnt there leave the account
    and the supply, and nothing else. *)
Lemma send_and_burn_ok from mod_ a amt s s1 s2 :
  SendFromAccountToModule from mod_ [NewCoin a amt] s = (Ok (), s1) →
  BurnFromModule mod_ (NewCoin a amt) s1 = (Ok (), s2) →
  ∃ b, s2 = put_bank b s ∧ 0 < amt ≤ bank_balance (bank s) (User_acc from) (Assets.Native a) ∧
    (∀ d, bank_supply b d = bank_supply (bank s) d -
       (if decide (d = Assets.Native a) then amt else 0)) ∧
    (∀ p d, bank_balance b p d = bank_balance (bank s) p d -
       (if decide (p = User_acc from ∧ d = Assets.Native a) then amt else 0)).
Proof.
  unfold SendFromAccountToModule, BurnFromModule. intros Hsend Hburn.
  apply in_bank_ok in Hsend as (b1 & Hsend & ->). cbn in Hsend.
  apply bank_send_law in Hsend as (Hpos & Hsup & Hbal).
  unfold lift, Coin_Native, mbind, M_bind in Hburn.
  destruct (negb (Coin_IsNative (NewCoin a amt))); [done|].
  apply in_bank_ok in Hburn as (b2 & Hburn & ->). cbn in Hburn.
  apply bank_burn_law in Hburn as (_ & Hsup' & Hbal').
  exists b2. split; [by destruct s|]. split; [exact Hpos|]. split.
  - intros d. rewrite Hsup'. by rewrite Hsup.
  - intros p d. rewrite Hbal'. rewrite Hbal. repeat case_decide; naive_solver lia.
Qed.
End Keeper.

(** Keeper computations. *)
Abbreviation K := (M State).

(** ** A reference environment, to evaluate with *)

#[export] Instance ref_env : Env := {|
  int64Overrides := ∅;
  boolOverrides := ∅;
  stringOverrides := ∅;
  IsChain _ _ := true;
  GetNetwork _ _ := MainNet;
  CurrentChainNetwork := MainNet;
  AccAddressFromBech32 s := Ok s;
  module_address m := "swtc1" +:+ str_map (λ c, if is_char (Ascii.ascii_of_nat 95) c then Ascii.ascii_of_nat 48 else c) m;
  address_decodes a := existsb (λ p, String.prefix p a) ["bc1"; "swtc1"; "0x"];
|}.
Definition empty_state : State :=
  mkState ∅ 0 ∅ ∅ ∅ (mkPOL 0 0) ∅ ∅ ∅ ∅ ∅ ∅ ∅ ∅ ∅ (BankRef.mkLedger ∅ ∅) [].
