(* ===== verification/Txs.v ===== *)
(** * Transactions and the outbound queue's interface

    src/common/tx.go: transaction identifiers, transactions and their
    validation; and, as a class, what the handlers call of the managers that are
    not modelled (the outbound queue, the derived pools of the network
    manager). *)

From Stdlib Require Import Ascii.
From S2P Require Import Prelude CosmosMath Amounts GoStrings Assets Coins State.
Open Scope Z_scope.

Definition MaxMemoSize : nat := 250.

Definition BlankTxID : string := "0000000000000000000000000000000000000000000000000000000000000000".

Definition NewTxID (hash : string) : outcome string :=
  if (String.length hash =? 64)%nat then Ok (ToUpper hash)
  else if (String.length hash =? 66)%nat then
    if String.prefix "0x" hash then Ok (ToUpper hash)
    else Err "txid error: must be 66 characters"
  else Err "txid error: must be 64 characters".

Definition TxID_Equals (tx tx2 : string) : bool := EqualFold tx tx2.
Definition TxID_IsEmpty (tx : string) : bool := blank tx.
Definition TxID_IsBlank (tx : string) : bool := TxID_Equals tx BlankTxID.

Record Tx := mkTx {
  tx_ID : string;
  tx_Chain : Chain;
  FromAddress : string;
  ToAddress : string;
  tx_Coins : list Coin;
  tx_Gas : list Coin;
  Memo : string;
}.

Definition set_tx_Coins (cs : list Coin) (tx : Tx) : Tx :=
  mkTx (tx_ID tx) (tx_Chain tx) (FromAddress tx) (ToAddress tx) cs (tx_Gas tx) (Memo tx).
Definition set_tx_Gas (g : list Coin) (tx : Tx) : Tx :=
  mkTx (tx_ID tx) (tx_Chain tx) (FromAddress tx) (ToAddress tx) (tx_Coins tx) g (Memo tx).

Definition NewTx (txID from to : string) (coins gas : list Coin) (memo : string) : Tx :=
  let c := match coins with
           | coin :: _ => Assets.GetChain (coin_asset coin)
           | [] => EmptyChain
           end in
  mkTx txID c from to coins gas memo.

Definition Tx_Valid (tx : Tx) : option error :=
  if TxID_IsEmpty (tx_ID tx) then Some "Tx ID cannot be empty"
  else if blank (FromAddress tx) then Some "from address cannot be empty"
  else if blank (ToAddress tx) then Some "to address cannot be empty"
  else if Chains.IsEmpty (tx_Chain tx) then Some "chain cannot be empty"
  else if (length (tx_Coins tx) =? 0)%nat then Some "must have at least 1 coin"
  else match Coins_Valid (tx_Coins tx) with
  | Some e => Some e
  | None =>
    if negb (Chains.Equals (tx_Chain tx) SWITCHLYChain) && (length (tx_Gas tx) =? 0)%nat
    then Some "must have at least 1 gas coin"
    else match Coins_Valid (tx_Gas tx) with
    | Some e => Some e
    | None =>
      if (MaxMemoSize <? String.length (Memo tx))%nat then Some "memo must not exceed the limit"
      else None
    end
  end.

(** ** Addresses (common/address.go) *)

(** The regular expression ^[:A-Za-z0-9]*$ *)
Definition is_address_char (c : ascii) : bool := is_char ":" c || is_upper c || is_lower c || is_digit c.

Definition NewAddress `{Env} (address : string) : outcome string :=
  if bool_decide (address = "") then Ok NoAddress
  else if negb (str_forall is_address_char address) then Err "address format not supported"
  else if address_decodes address then Ok address
  else Err "address format not supported".

(** ** Outbound items *)

Record TxOutItem := mkToi {
  toi_Chain : Chain;
  toi_InHash : string;
  toi_ToAddress : string;
  toi_Coin : Coin;
  toi_Aggregator : string;
  toi_AggregatorTargetAsset : string;
  toi_AggregatorTargetLimit : option Z;
  toi_Memo : string;
  toi_MaxGas : list Coin;
  toi_GasRate : Z;
  toi_VaultPubKey : string;
  toi_ModuleName : string;
  toi_OutHash : string;
  toi_CloutSpent : option Z;
}.

(** Literals that leave the last fields, or the aggregator as well, at their
    zero values. *)
Definition mkTxOutItem (c : Chain) (inHash to : string) (coin : Coin) (agg aggTarget : string)
    (aggLimit : option Z) : TxOutItem :=
  mkToi c inHash to coin agg aggTarget aggLimit "" [] 0 "" "" "" None.
Definition plain_toi (c : Chain) (inHash to : string) (coin : Coin) : TxOutItem :=
  mkTxOutItem c inHash to coin "" "" None.

(** The managers that are parameters of the handlers. *)
Class Managers `{Bank} := {
  TryAddTxOutItem : Ctx → TxOutItem → Z → M State bool;
  SpawnDerivedAsset : Ctx → Asset → M State ();
  (** [atTVLCap] of helpers.go, on the vaults and the bonds of the validators *)
  atTVLCap : Ctx → list Coin → M State bool;
}.

(** [errors.go] *)
Definition errBadVersion : error := "bad version".
Definition errFailAddOutboundTx : error := "prepare outbound tx not successful".

(** [return err] when a check reports one. *)
Definition check {S} (e : option error) : M S () :=
  match e with Some err => throw err | None => mret () end.
Lemma check_ok {S} e u (s s' : S) : check e s = (Ok u, s') → e = None ∧ s' = s.
Proof. destruct e; [done|]. by intros [= _ <-]. Qed.

(** Managers that queue nothing and spawn nothing, to evaluate with. *)
Definition idle_managers `{Bank} : Managers := {|
  TryAddTxOutItem _ _ _ := mret true;
  SpawnDerivedAsset _ _ := mret ();
  atTVLCap _ _ := mret false;
|}.
