(* ===== verification/MemoTypes.v ===== *)
(** * Memos

    src/x/switchly/memo: the instructions a transaction carries in its memo, by
    type, and their texts. *)

From Stdlib Require Import Ascii.
From stdpp Require Import pretty.
From S2P Require Import Prelude GoStrings GoNumbers CosmosMath Assets Constants Names State Txs.
Open Scope Z_scope.

(** ** Types *)

Inductive TxType :=
  | TxUnknown | TxAdd | TxWithdraw | TxSwap | TxLimitSwap | TxOutbound | TxDonate | TxBond | TxUnbond
  | TxLeave | TxReserve | TxRefund | TxMigrate | TxRagnarok | TxNoOp | TxConsolidate | TxSWITCHName
  | TxLoanOpen | TxLoanRepayment | TxTradeAccountDeposit | TxTradeAccountWithdrawal
  | TxSecuredAssetDeposit | TxSecuredAssetWithdraw | TxSwitchPoolDeposit | TxSwitchPoolWithdraw
  | TxExec | TxSwitch | TxSWCYClaim | TxSWCYStake | TxSWCYUnstake | TxMaint.
#[export] Instance TxType_eq_dec : EqDecision TxType.
Proof. solve_decision. Defined.

Definition stringToTxTypeMap : gmap string TxType := list_to_map [
  ("add", TxAdd); ("+", TxAdd); ("withdraw", TxWithdraw); ("wd", TxWithdraw); ("-", TxWithdraw);
  ("swap", TxSwap); ("s", TxSwap); ("=", TxSwap); ("=<", TxLimitSwap); ("out", TxOutbound);
  ("donate", TxDonate); ("d", TxDonate); ("bond", TxBond); ("unbond", TxUnbond); ("leave", TxLeave);
  ("reserve", TxReserve); ("refund", TxRefund); ("migrate", TxMigrate); ("ragnarok", TxRagnarok);
  ("noop", TxNoOp); ("consolidate", TxConsolidate); ("name", TxSWITCHName); ("n", TxSWITCHName);
  ("~", TxSWITCHName); ("$+", TxLoanOpen); ("loan+", TxLoanOpen); ("$-", TxLoanRepayment);
  ("loan-", TxLoanRepayment); ("trade+", TxTradeAccountDeposit); ("trade-", TxTradeAccountWithdrawal);
  ("secure+", TxSecuredAssetDeposit); ("secure-", TxSecuredAssetWithdraw); ("pool+", TxSwitchPoolDeposit);
  ("pool-", TxSwitchPoolWithdraw); ("x", TxExec); ("exec", TxExec); ("switch", TxSwitch);
  ("tcy", TxSWCYClaim); ("tcy+", TxSWCYStake); ("tcy-", TxSWCYUnstake); ("maint", TxMaint)].

(** [txToStringMap]: the types without an entry have no text. *)
Definition TxType_String (t : TxType) : string :=
  match t with
  | TxAdd => "add" | TxWithdraw => "withdraw" | TxSwap => "swap" | TxLimitSwap => "=<" | TxOutbound => "out"
  | TxRefund => "refund" | TxDonate => "donate" | TxBond => "bond" | TxUnbond => "unbond" | TxLeave => "leave"
  | TxReserve => "reserve" | TxMigrate => "migrate" | TxRagnarok => "ragnarok" | TxNoOp => "noop"
  | TxConsolidate => "consolidate" | TxSWITCHName => "switchlyname" | TxLoanOpen => "$+" | TxLoanRepayment => "$-"
  | TxTradeAccountDeposit => "trade+" | TxTradeAccountWithdrawal => "trade-" | TxSecuredAssetDeposit => "secure+"
  | TxSecuredAssetWithdraw => "secure-" | TxExec => "x" | TxSwitch => "switch" | TxSWCYClaim => "tcy"
  | TxSWCYStake => "tcy+" | TxSWCYUnstake => "tcy-" | TxMaint => "maint"
  | TxUnknown | TxSwitchPoolDeposit | TxSwitchPoolWithdraw => ""
  end.

Definition StringToTxType (s : string) : outcome TxType :=
  match stringToTxTypeMap !! ToLower s with Some t => Ok t | None => Err "invalid tx type" end.

Definition TxType_IsInbound (t : TxType) : bool :=
  match t with
  | TxAdd | TxWithdraw | TxTradeAccountDeposit | TxTradeAccountWithdrawal | TxSwitchPoolDeposit
  | TxSwitchPoolWithdraw | TxSecuredAssetDeposit | TxSecuredAssetWithdraw | TxSwap | TxLimitSwap | TxDonate
  | TxBond | TxUnbond | TxLeave | TxMaint | TxReserve | TxNoOp | TxSWITCHName | TxLoanOpen | TxLoanRepayment
  | TxExec | TxSwitch | TxSWCYClaim | TxSWCYStake | TxSWCYUnstake => true
  | _ => false
  end.
Definition TxType_IsOutbound (t : TxType) : bool :=
  match t with TxOutbound | TxRefund | TxRagnarok => true | _ => false end.
Definition TxType_IsInternal (t : TxType) : bool :=
  match t with TxMigrate | TxConsolidate => true | _ => false end.
Definition HasOutbound (t : TxType) : bool :=
  match t with
  | TxAdd | TxBond | TxTradeAccountDeposit | TxSecuredAssetDeposit | TxSwitchPoolDeposit | TxDonate | TxReserve
  | TxMigrate | TxMaint | TxRagnarok => false
  | _ => true
  end.

(** ** Memos *)

Record MemoBase := mkBase { base_TxType : TxType; base_Asset : Asset }.
Definition of_type (t : TxType) : MemoBase := mkBase t EmptyAsset.

Record SwapMemo := mkSwapMemo {
  sw_base : MemoBase;
  sw_Destination : string;
  SlipLimit : Z;
  sw_AffiliateAddress : string;
  sw_AffiliateBasisPoints : Z;
  DexAggregator : string;
  DexTargetAddress : string;
  DexTargetLimit : option Z;
  sw_limit : bool;
  sw_StreamInterval : Z;
  sw_StreamQuantity : Z;
  AffiliateSWITCHName : option SWITCHName;
  sw_RefundAddress : string;
  Affiliates : list string;
  AffiliatesBasisPoints : list Z;
}.

Inductive Memo_ :=
  | BaseMemo (b : MemoBase)
  | AddLiquidityMemo (b : MemoBase) (addr affAddr : string) (affPts : Z)
  | WithdrawLiquidityMemo (b : MemoBase) (amt : Z) (withdrawalAsset : Asset)
  | SwapMemo_ (m : SwapMemo)
  | OutboundMemo (b : MemoBase) (txID : string)
  | RefundMemo (b : MemoBase) (txID : string)
  | BondMemo (b : MemoBase) (node provider : string) (fee : Z)
  | UnbondMemo (b : MemoBase) (node provider : string) (amt : Z)
  | LeaveMemo (b : MemoBase) (node : string)
  | MaintMemo (b : MemoBase) (node : string)
  | MigrateMemo (b : MemoBase) (height : Z)
  | RagnarokMemo (b : MemoBase) (height : Z)
  | NoOpMemo (b : MemoBase) (action : string)
  | ManageSWITCHNameMemo (b : MemoBase) (name : string) (c : Chain) (addr : string) (expire : Z)
      (preferred : Asset) (owner : string)
  | LoanOpenMemo (b : MemoBase) (target : Asset) (addr : string) (minOut : Z) (affAddr : string) (affPts : Z)
      (dexAgg dexTarget : string) (dexLimit : Z) (tn : SWITCHName)
  | LoanRepaymentMemo (b : MemoBase) (owner : string) (minOut : Z)
  | TradeAccountDepositMemo (b : MemoBase) (addr : string)
  | TradeAccountWithdrawalMemo (b : MemoBase) (addr : string)
  | SecuredAssetDepositMemo (b : MemoBase) (addr : string)
  | SecuredAssetWithdrawMemo (b : MemoBase) (addr : string)
  | SwitchPoolWithdrawMemo (b : MemoBase) (bps : Z) (affAddr : string) (affPts : Z) (tn : option SWITCHName)
  | ExecMemo (b : MemoBase) (contract msg : string)
  | SwitchMemo (b : MemoBase) (addr : string)
  | SWCYClaimMemo (b : MemoBase) (addr : string)
  | SWCYUnstakeMemo (b : MemoBase) (bps : Z).

Definition EmptyMemo : Memo_ := BaseMemo (of_type TxUnknown).
(** The values a parser gives back with an error. *)
Definition no_swap : SwapMemo :=
  mkSwapMemo (of_type TxUnknown) "" 0 "" 0 "" "" None false 0 0 None "" [] [].

Definition memo_base (m : Memo_) : MemoBase :=
  match m with
  | BaseMemo b | AddLiquidityMemo b _ _ _ | WithdrawLiquidityMemo b _ _ | OutboundMemo b _ | RefundMemo b _
  | BondMemo b _ _ _ | UnbondMemo b _ _ _ | LeaveMemo b _ | MaintMemo b _ | MigrateMemo b _ | RagnarokMemo b _
  | NoOpMemo b _ | ManageSWITCHNameMemo b _ _ _ _ _ _ | LoanOpenMemo b _ _ _ _ _ _ _ _ _ | LoanRepaymentMemo b _ _
  | TradeAccountDepositMemo b _ | TradeAccountWithdrawalMemo b _ | SecuredAssetDepositMemo b _
  | SecuredAssetWithdrawMemo b _ | SwitchPoolWithdrawMemo b _ _ _ _ | ExecMemo b _ _ | SwitchMemo b _
  | SWCYClaimMemo b _ | SWCYUnstakeMemo b _ => b
  | SwapMemo_ m => sw_base m
  end.
Definition GetType (m : Memo_) : TxType := base_TxType (memo_base m).
Definition IsType (m : Memo_) (t : TxType) : bool := bool_decide (GetType m = t).
Definition Memo_IsEmpty (m : Memo_) : bool := IsType m TxUnknown.
Definition Memo_IsInbound (m : Memo_) : bool := TxType_IsInbound (GetType m).
Definition Memo_IsOutbound (m : Memo_) : bool := TxType_IsOutbound (GetType m).
Definition Memo_IsInternal (m : Memo_) : bool := TxType_IsInternal (GetType m).
Definition Memo_GetAsset (m : Memo_) : Asset := base_Asset (memo_base m).
Definition GetTxID (m : Memo_) : string :=
  match m with OutboundMemo _ t | RefundMemo _ t => t | _ => "" end.
Definition GetDestination (m : Memo_) : string :=
  match m with SwapMemo_ m => sw_Destination m | AddLiquidityMemo _ a _ _ => a | _ => "" end.
Definition GetRefundAddress (m : Memo_) : string :=
  match m with SwapMemo_ m => sw_RefundAddress m | _ => "" end.
Definition GetAffiliateSWITCHName (m : Memo_) : option SWITCHName :=
  match m with
  | SwapMemo_ m => AffiliateSWITCHName m
  | LoanOpenMemo _ _ _ _ _ _ _ _ _ tn => Some tn
  | SwitchPoolWithdrawMemo _ _ _ _ tn => tn
  | _ => None
  end.
Definition GetBlockHeight (m : Memo_) : Z :=
  match m with MigrateMemo _ h | RagnarokMemo _ h => h | _ => 0 end.
Definition GetAmount (m : Memo_) : Z :=
  match m with WithdrawLiquidityMemo _ a _ | UnbondMemo _ _ _ a => a | _ => 0 end.
Definition GetAccAddress (m : Memo_) : string :=
  match m with
  | BondMemo _ a _ _ | UnbondMemo _ a _ _ | LeaveMemo _ a | MaintMemo _ a | TradeAccountDepositMemo _ a
  | SecuredAssetDepositMemo _ a | SwitchMemo _ a | ExecMemo _ a _ => a
  | _ => ""
  end.

Definition NewSwapMemo (asset : Asset) (dest : string) (slip : Z) (affAddr : string) (affPts : Z)
    (dexAgg dexTargetAddress : string) (dexTargetLimit : Z) (limit : bool) (quan interval : Z) (tn : SWITCHName)
    (refund : string) (affiliates : list string) (affiliatesFeeBps : list Z) : SwapMemo :=
  mkSwapMemo (mkBase TxSwap asset) dest slip affAddr affPts dexAgg dexTargetAddress
    (if dexTargetLimit =? 0 then None else Some dexTargetLimit) limit interval quan
    (if bool_decide (sn_Owner tn = "") then None else Some tn) refund affiliates affiliatesFeeBps.
Definition NewAddLiquidityMemo (a : Asset) (addr affAddr : string) (affPts : Z) : Memo_ :=
  AddLiquidityMemo (mkBase TxAdd a) addr affAddr affPts.
Definition NewWithdrawLiquidityMemo (a : Asset) (amt : Z) (withdrawal : Asset) : Memo_ :=
  WithdrawLiquidityMemo (mkBase TxWithdraw a) amt withdrawal.
Definition NewOutboundMemo (txID : string) : Memo_ := OutboundMemo (of_type TxOutbound) txID.
Definition NewRefundMemo (txID : string) : Memo_ := RefundMemo (of_type TxRefund) txID.
Definition NewMigrateMemo (h : Z) : Memo_ := MigrateMemo (of_type TxMigrate) h.
Definition NewRagnarokMemo (h : Z) : Memo_ := RagnarokMemo (of_type TxRagnarok) h.
Definition NewSwitchPoolWithdrawMemo (bps : Z) (affAddr : string) (affBps : Z) (tn : SWITCHName) : Memo_ :=
  SwitchPoolWithdrawMemo (of_type TxSwitchPoolWithdraw) bps affAddr affBps
    (if bool_decide (sn_Owner tn = "") then None else Some tn).

(** ** Texts *)

Definition swap_args (short : bool) (m : SwapMemo) : list string :=
  let slipLimit := if SlipLimit m =? 0 then "" else pretty (SlipLimit m) in
  let slipLimit :=
    if (0 <? sw_StreamInterval m) || (1 <? sw_StreamQuantity m)
    then Join "/" [pretty (SlipLimit m); pretty (sw_StreamInterval m); pretty (sw_StreamQuantity m)]
    else slipLimit in
  let txType := if bool_decide (base_TxType (sw_base m) = TxSwap) then "=" else TxType_String (base_TxType (sw_base m)) in
  let a := base_Asset (sw_base m) in
  let assetString := if short && negb (bool_decide (Assets.ShortCode a = "")) then Assets.ShortCode a else Assets.Str a in
  let destString :=
    if blank (sw_RefundAddress m) then sw_Destination m else Join "/" [sw_Destination m; sw_RefundAddress m] in
  [txType; assetString; destString; slipLimit; Join "/" (Affiliates m); Join "/" (pretty <$> AffiliatesBasisPoints m);
   DexAggregator m; DexTargetAddress m].
Definition swap_string (short : bool) (m : SwapMemo) : string :=
  let args := swap_args short m in
  let last := if negb (SlipLimit m =? 0) || (0 <? sw_StreamInterval m) || (1 <? sw_StreamQuantity m) then 4%nat else 3%nat in
  let last := if bool_decide (Affiliates m = []) then last else 6%nat in
  let last := if bool_decide (DexAggregator m = "") then last else 8%nat in
  let '(args, last) :=
    match DexTargetLimit m with
    | Some l => if l =? 0 then (args, last) else ((args ++ [pretty l])%list, 9%nat)
    | None => (args, last)
    end in
  Join ":" (take last args).

Definition add_string (b : MemoBase) (addr affAddr : string) (affPts : Z) : string :=
  let txType := if bool_decide (base_TxType b = TxAdd) then "+" else TxType_String (base_TxType b) in
  let args := [txType; Assets.Str (base_Asset b); addr; affAddr; pretty affPts] in
  let last := if blank addr then 2%nat else 3%nat in
  let last := if blank affAddr then last else 5%nat in
  Join ":" (take last args).

Definition loan_open_string (short : bool) (target : Asset) (addr : string) (minOut : Z) (affAddr : string)
    (affPts : Z) (dexAgg dexTarget : string) (dexLimit : Z) : string :=
  let assetString :=
    if short && negb (bool_decide (Assets.ShortCode target = "")) then Assets.ShortCode target else Assets.Str target in
  let args := [TxType_String TxLoanOpen; assetString; addr; pretty minOut; affAddr; pretty affPts; dexAgg; dexTarget;
               pretty dexLimit] in
  let last :=
    if negb (dexLimit =? 0) then 9%nat
    else if negb (bool_decide (dexTarget = "")) then 8%nat
    else if negb (bool_decide (dexAgg = "")) then 7%nat
    else if negb (affPts =? 0) then 6%nat
    else if negb (blank affAddr) then 5%nat
    else if negb (minOut =? 0) then 4%nat else 3%nat in
  Join ":" (take last args).

Definition Memo_String (m : Memo_) : string :=
  match m with
  | SwapMemo_ m => swap_string false m
  | AddLiquidityMemo b addr affAddr affPts => add_string b addr affAddr affPts
  | LoanOpenMemo _ target addr minOut affAddr affPts dexAgg dexTarget dexLimit _ =>
      loan_open_string false target addr minOut affAddr affPts dexAgg dexTarget dexLimit
  | LoanRepaymentMemo b owner minOut =>
      Join ":" ([TxType_String TxLoanRepayment; Assets.Str (base_Asset b); owner] ++
                if minOut =? 0 then [] else [pretty minOut])%list
  | OutboundMemo _ t => "OUT:" +:+ t
  | RefundMemo _ t => "REFUND:" +:+ t
  | MigrateMemo _ h => "MIGRATE:" +:+ pretty h
  | RagnarokMemo _ h => "RAGNAROK:" +:+ pretty h
  | NoOpMemo _ action => if bool_decide (action = "") then "noop" else "noop:" +:+ action
  | MaintMemo _ node => "maint:" +:+ node
  | ExecMemo _ contract msg => Join ":" [TxType_String TxExec; contract; EncodeToString msg]
  | SwitchPoolWithdrawMemo _ bps affAddr affPts _ =>
      Join ":" [TxType_String TxSwitchPoolWithdraw; pretty bps; affAddr; pretty affPts]
  | BaseMemo b =>
      match base_TxType b with
      | TxDonate => "DONATE:" +:+ Assets.Str (base_Asset b)
      | TxConsolidate => "consolidate"
      | TxSwitchPoolDeposit => "pool+"
      | _ => ""
      end
  | _ => ""
  end.
