(* ===== verification/MemoParser.v ===== *)
(** * The memo parser

    src/x/switchly/memo/memo_parser.go and the Parse functions of the memo types:
    a parser collects errors while it reads the fields of a memo, and what it
    has read is given back with them. *)

From Stdlib Require Import Ascii.
From stdpp Require Import pretty.
From S2P Require Import Prelude GoStrings GoNumbers CosmosMath Amounts Assets Constants Names State Txs MemoTypes.
Open Scope Z_scope.

Definition MaxBasisPts : Z := 10000.
Definition MaxWithdrawBasisPoints : Z := 10000.

Section MemoParser.
  Context `{CosmosMath} `{Bank} `{Env}.

(** The keeper a parser may have is the store at a block. *)
Record Parser := mkParser {
  p_memo : string;
  p_type : TxType;
  p_keeper : option (Ctx * State);
  p_parts : list string;
  p_version : Z;
}.
Record PState := mkPState { p_errs : list error; requiredFields : Z }.
Abbreviation P := (M PState).

Definition newParser (keeper : option (Ctx * State)) (version : Z) (memo : string) : outcome Parser :=
  if bool_decide (memo = "") then Err "memo can't be empty"
  else
    let memo := hd "" (Split "|" memo) in
    let parts := Split ":" memo in
    t ← StringToTxType (hd "" parts);
    Ok (mkParser memo t keeper parts version).

Definition incRequired (required : bool) : P () :=
  modify (λ p, if required then mkPState (p_errs p) (requiredFields p + 1) else p).
Definition addErr (e : error) : P () :=
  modify (λ p, mkPState (p_errs p ++ [e])%list (requiredFields p)).
Definition hasMinParams (p : Parser) (count : Z) : P () :=
  if Z.of_nat (length (p_parts p)) <? count then addErr "not enough parameters" else mret ().
Definition ErrorOf (p : Parser) : P (option error) :=
  n ← gets requiredFields;
  _ ← hasMinParams p (n + 1);
  es ← gets p_errs;
  mret (if bool_decide (es = []) then None
        else Some ("MEMO: " +:+ p_memo p +:+ " PARSE FAILURE(S): " +:+ Join "-" es)).

(** ** Fields *)

Definition field (p : Parser) (idx : nat) : string := default "" (p_parts p !! idx).
Definition getSubIndex (p : Parser) (idx subIdx : nat) : string :=
  match p_parts p !! idx with
  | Some part => default "" (Split "/" part !! subIdx)
  | None => ""
  end.
(** An error counts when the field is required or not empty. *)
Definition complain (required : bool) (text : string) (e : error) : P () :=
  if required || negb (bool_decide (text = "")) then addErr e else mret ().

Definition parsed {A} (r : option A) (required : bool) (text : string) (e : error) (def : A) : P A :=
  match r with
  | Some v => mret v
  | None => _ ← complain required text e; mret def
  end.
Definition value {A} (r : outcome A) : option A := match r with Ok a => Some a | _ => None end.

Definition getInt64 (p : Parser) (idx : nat) (required : bool) (def : Z) : P Z :=
  _ ← incRequired required;
  parsed (ParseInt64 (field p idx)) required (field p idx) "cannot parse as an int64" def.
Definition getUint (p : Parser) (idx : nat) (required : bool) (def : Z) : P Z :=
  _ ← incRequired required;
  parsed (value (parse_uint (field p idx))) required (field p idx) "cannot parse as an uint" def.
Definition getUintWithScientificNotation (p : Parser) (idx : nat) (required : bool) (def : Z) : P Z :=
  _ ← incRequired required;
  match ParseFloatInt (field p idx) with
  | Some i => lift (uint_of_bigint i)
  | None => _ ← complain required (field p idx) "cannot parse as an uint with sci notation"; mret def
  end.
Definition getUintWithMaxValue (p : Parser) (idx : nat) (required : bool) (def max : Z) : P Z :=
  v ← getUint p idx required def;
  if max <? v then _ ← complain required (field p idx) "cannot exceed the maximum"; mret max else mret v.
Definition getAccAddress (p : Parser) (idx : nat) (required : bool) : P string :=
  _ ← incRequired required;
  parsed (value (AccAddressFromBech32 (field p idx))) required (field p idx) "cannot parse as an AccAddress" "".
Definition getAddress (p : Parser) (idx : nat) (required : bool) : P string :=
  _ ← incRequired required;
  parsed (value (NewAddress (field p idx))) required (field p idx) "cannot parse as an Address" NoAddress.
Definition getThorAddress (p : Parser) (idx : nat) (required : bool) : P string :=
  _ ← incRequired required;
  match NewAddress (field p idx) with
  | Ok v =>
      if negb (IsChain v SWITCHLYChain) && required
      then _ ← addErr "cannot parse as a SWITCHLY Address"; mret NoAddress else mret v
  | _ => _ ← complain required (field p idx) "cannot parse as an Address"; mret NoAddress
  end.

(** An address, or the address on the chain of a name in the store. *)
Definition FetchAddress (keeper : Ctx * State) (name : string) (c : Chain) : outcome string :=
  match NewAddress name with
  | Ok a => Ok a
  | _ =>
      let parts := SplitN "." 2 name in
      let base := hd "" parts in
      c ← (match parts with _ :: ch :: _ => Chains.NewChain ch | _ => Ok c end);
      match fst (SWITCHNameExists (fst keeper) base (snd keeper)) with
      | Ok true => n ← fst (GetSWITCHName (fst keeper) base (snd keeper)); Ok (GetAlias n c)
      | _ => Err "name is not recognizable"
      end
  end.

Definition getAddressFromString (keeper : Ctx * State) (val : string) (c : Chain) (required : bool) : P string :=
  parsed (value (FetchAddress keeper val c)) required val "cannot parse as an Address" NoAddress.
Definition getAddressWithKeeper (p : Parser) (idx : nat) (required : bool) (c : Chain) : P string :=
  _ ← incRequired required;
  match p_keeper p with
  | None => getAddress p idx required
  | Some k => getAddressFromString k (field p idx) c required
  end.

Definition getStringArray (p : Parser) (idx : nat) : list string :=
  if bool_decide (field p idx = "") then [] else Split "/" (field p idx).
Fixpoint uints (required : bool) (l : list string) : P (option (list Z)) :=
  match l with
  | [] => mret (Some [])
  | s :: r =>
      match parse_uint s with
      | Ok u => us ← uints required r; mret (cons u <$> us)
      | _ => _ ← complain required s "cannot parse as an uint"; mret None
      end
  end.
Definition getUintArray (p : Parser) (idx : nat) (required : bool) : P (list Z) :=
  _ ← incRequired required;
  if bool_decide (field p idx = "") then mret []
  else us ← uints required (Split "/" (field p idx)); mret (default [] us).

Definition getAddressAndRefundAddress (p : Parser) (idx : nat) (required : bool) (c : Chain) : P (string * string) :=
  _ ← incRequired required;
  '(dest, refund) ←
    (if Contains "/" (field p idx) then
       let parts := SplitN "/" 2 (field p idx) in
       let first := hd "" parts in
       dest ← (match p_keeper p with
               | None => parsed (value (NewAddress first)) required first "cannot parse as an Address" NoAddress
               | Some k => getAddressFromString k first c required
               end);
       mret (dest, match parts with _ :: r :: _ => default NoAddress (value (NewAddress r)) | _ => NoAddress end)
     else
       dest ← getAddressWithKeeper p idx false c;
       mret (dest, NoAddress));
  _ ← (if blank dest && negb (blank refund)
       then addErr "refund address is set but destination address is empty" else mret ());
  mret (dest, refund).

Definition getChain (p : Parser) (idx : nat) (required : bool) : P Chain :=
  _ ← incRequired required;
  parsed (value (Chains.NewChain (field p idx))) required (field p idx) "cannot parse as a chain" EmptyChain.
Definition getAsset (p : Parser) (idx : nat) (required : bool) : P Asset :=
  _ ← incRequired required;
  parsed (value (Assets.NewAssetWithShortCodesV3_1_0 (field p idx))) required (field p idx)
    "cannot parse as an asset" EmptyAsset.
Definition getTxID (p : Parser) (idx : nat) (required : bool) : P string :=
  _ ← incRequired required;
  parsed (value (NewTxID (field p idx))) required (field p idx) "cannot parse as tx hash" BlankTxID.
Definition getSWITCHName (p : Parser) (idx : nat) (required : bool) (subIndex : option nat) : P SWITCHName :=
  _ ← incRequired required;
  let name := match subIndex with Some k => getSubIndex p idx k | None => field p idx end in
  let def := NewSWITCHName "" 0 [] in
  match p_keeper p with
  | None => mret def
  | Some (ctx, s) =>
      match fst (SWITCHNameExists ctx name s), fst (GetSWITCHName ctx name s) with
      | Ok true, Ok n => mret n
      | _, _ => mret def
      end
  end.
Definition getBase64Bytes (p : Parser) (idx : nat) (required : bool) : P string :=
  _ ← incRequired required;
  parsed (DecodeString (field p idx)) required (field p idx) "cannot parse as a base64 string" "".

(** ** The memo types *)

(** [return m, p.Error()] *)
Definition with_errors (p : Parser) (m : Memo_) : P (Memo_ * option error) := e ← ErrorOf p; mret (m, e).
Definition failing (m : Memo_) (e : error) : P (Memo_ * option error) := mret (m, Some e).

Definition ParseLeaveMemo (p : Parser) : P (Memo_ * option error) :=
  addr ← getAccAddress p 1 true; with_errors p (LeaveMemo (of_type TxLeave) addr).
Definition ParseMaintMemo (p : Parser) : P (Memo_ * option error) :=
  addr ← getAccAddress p 1 true; with_errors p (MaintMemo (of_type TxMaint) addr).
Definition ParseDonateMemo (p : Parser) : P (Memo_ * option error) :=
  a ← getAsset p 1 true; with_errors p (BaseMemo (mkBase TxDonate a)).

(** A keeper fetches the addresses of names; without one the address itself is
    read. *)
Definition plain_address (keeper : option (Ctx * State)) (text : string) (c : Chain) : outcome string :=
  match keeper with None => NewAddress text | Some k => FetchAddress k text c end.

Definition no_add : Memo_ := AddLiquidityMemo (of_type TxUnknown) "" "" 0.
Definition ParseAddLiquidityMemoV1 (keeper : option (Ctx * State)) (a : Asset) (parts : list string) : outcome Memo_ :=
  let part i := default "" (parts !! i) in
  addr ← (if bool_decide (part 2%nat = "") then Ok NoAddress else plain_address keeper (part 2%nat) (chain a));
  if (4 <? length parts)%nat && negb (bool_decide (part 3%nat = "")) && negb (bool_decide (part 4%nat = "")) then
    affAddr ← plain_address keeper (part 3%nat) SWITCHLYChain;
    match ParseUint64 (part 4%nat) with
    | Some affPts => Ok (NewAddLiquidityMemo a addr affAddr affPts)
    | None => Err "invalid syntax"
    end
  else Ok (NewAddLiquidityMemo a addr NoAddress 0).
Definition ParseAddLiquidityMemo (p : Parser) : P (Memo_ * option error) :=
  a ← getAsset p 1 true;
  match p_keeper p with
  | None =>
      match ParseAddLiquidityMemoV1 (p_keeper p) a (p_parts p) with
      | Ok m => mret (m, None)
      | Err e => failing no_add e
      | Panic => lift Panic
      end
  | Some _ =>
      if Chains.Equals (chain a) SWITCHLYChain then failing no_add "cannot add liquidity with SWITCHLY chain"
      else
        addr ← getAddressWithKeeper p 2 false (chain a);
        let affChain := if Synth a then Assets.GetChain (Assets.GetLayer1Asset a) else SWITCHLYChain in
        affAddr ← getAddressWithKeeper p 3 false affChain;
        affPts ← getUintWithMaxValue p 4 false 0 MaxBasisPts;
        with_errors p (NewAddLiquidityMemo a addr affAddr affPts)
  end.

Definition ParseWithdrawLiquidityMemo (p : Parser) : P (Memo_ * option error) :=
  a ← getAsset p 1 true;
  pts ← getUintWithMaxValue p 2 false MaxWithdrawBasisPoints MaxWithdrawBasisPoints;
  withdrawal ← getAsset p 3 false;
  with_errors p (NewWithdrawLiquidityMemo a pts withdrawal).

Definition ParseSwitchPoolWithdrawMemo (p : Parser) : P (Memo_ * option error) :=
  bps ← getUint p 1 true 0;
  affAddr ← getAddressWithKeeper p 2 false SWITCHLYChain;
  tn ← getSWITCHName p 2 false None;
  affBps ← getUintWithMaxValue p 3 false 0 MaxBasisPts;
  with_errors p (NewSwitchPoolWithdrawMemo bps affAddr affBps tn).

Definition ParseOutboundMemo (p : Parser) : P (Memo_ * option error) :=
  t ← getTxID p 1 true; with_errors p (NewOutboundMemo t).
Definition ParseRefundMemo (p : Parser) : P (Memo_ * option error) :=
  t ← getTxID p 1 true; with_errors p (NewRefundMemo t).
Definition ParseBondMemo (p : Parser) : P (Memo_ * option error) :=
  addr ← getAccAddress p 1 true;
  additional ← getAccAddress p 2 false;
  fee ← getInt64 p 3 false (-1);
  with_errors p (BondMemo (of_type TxBond) addr additional fee).
Definition ParseUnbondMemo (p : Parser) : P (Memo_ * option error) :=
  addr ← getAccAddress p 1 true;
  amt ← getUint p 2 true 0;
  additional ← getAccAddress p 3 false;
  with_errors p (UnbondMemo (of_type TxUnbond) addr additional amt).
Definition ParseMigrateMemo (p : Parser) : P (Memo_ * option error) :=
  h ← getInt64 p 1 true 0; with_errors p (NewMigrateMemo h).
Definition ParseRagnarokMemo (p : Parser) : P (Memo_ * option error) :=
  h ← getInt64 p 1 true 0; with_errors p (NewRagnarokMemo h).
Definition ParseNoOpMemo (p : Parser) : P (Memo_ * option error) :=
  with_errors p (NoOpMemo (of_type TxNoOp) (field p 1)).
Definition ParseManageSWITCHNameMemo (p : Parser) : P (Memo_ * option error) :=
  c ← getChain p 2 true;
  addr ← getAddress p 3 true;
  owner ← getAccAddress p 4 false;
  preferred ← getAsset p 5 false;
  expire ← getInt64 p 6 false 0;
  with_errors p (ManageSWITCHNameMemo (of_type TxSWITCHName) (field p 1) c addr expire preferred owner).
Definition ParseLoanOpenMemo (p : Parser) : P (Memo_ * option error) :=
  target ← getAsset p 1 true;
  addr ← getAddressWithKeeper p 2 true (Assets.GetChain target);
  minOut ← getUintWithScientificNotation p 3 false 0;
  affAddr ← getAddressWithKeeper p 4 false SWITCHLYChain;
  tn ← getSWITCHName p 5 false None;
  affPts ← getUintWithMaxValue p 6 false 0 MaxBasisPts;
  dexTargetLimit ← getUint p 9 false 0;
  with_errors p (LoanOpenMemo (of_type TxLoanOpen) target addr minOut affAddr affPts (field p 7) (field p 8)
                   dexTargetLimit tn).
Definition ParseLoanRepaymentMemo (p : Parser) : P (Memo_ * option error) :=
  a ← getAsset p 1 true;
  owner ← getAddressWithKeeper p 2 true (chain a);
  minOut ← getUintWithScientificNotation p 3 false 0;
  with_errors p (LoanRepaymentMemo (mkBase TxLoanRepayment a) owner minOut).
Definition ParseTradeAccountDeposit (p : Parser) : P (Memo_ * option error) :=
  addr ← getAccAddress p 1 true; with_errors p (TradeAccountDepositMemo (of_type TxTradeAccountDeposit) addr).
Definition ParseTradeAccountWithdrawal (p : Parser) : P (Memo_ * option error) :=
  addr ← getAddress p 1 true; with_errors p (TradeAccountWithdrawalMemo (of_type TxTradeAccountWithdrawal) addr).
Definition ParseSecuredAssetDeposit (p : Parser) : P (Memo_ * option error) :=
  addr ← getAccAddress p 1 true; with_errors p (SecuredAssetDepositMemo (of_type TxSecuredAssetDeposit) addr).
Definition ParseSecuredAssetWithdraw (p : Parser) : P (Memo_ * option error) :=
  addr ← getAddress p 1 true; with_errors p (SecuredAssetWithdrawMemo (of_type TxSecuredAssetWithdraw) addr).
Definition ParseExecMemo (p : Parser) : P (Memo_ * option error) :=
  contract ← getAccAddress p 1 true;
  msg ← getBase64Bytes p 2 true;
  with_errors p (ExecMemo (of_type TxExec) contract msg).
Definition ParseSwitch (p : Parser) : P (Memo_ * option error) :=
  addr ← getAccAddress p 1 true; with_errors p (SwitchMemo (of_type TxSwitch) addr).
Definition ParseSWCYClaimMemo (p : Parser) : P (Memo_ * option error) :=
  addr ← getThorAddress p 1 true; with_errors p (SWCYClaimMemo (of_type TxSWCYClaim) addr).
Definition ParseSWCYStakeMemo (p : Parser) : P (Memo_ * option error) :=
  with_errors p (BaseMemo (of_type TxSWCYStake)).
Definition ParseSWCYUnstakeMemo (p : Parser) : P (Memo_ * option error) :=
  bps ← getUint p 1 true 0; with_errors p (SWCYUnstakeMemo (of_type TxSWCYUnstake) bps).

(** ** Swaps *)

Definition parseTradeTarget (limit : string) : outcome Z :=
  match ParseFloatInt limit with Some i => uint_of_bigint i | None => Err "invalid number" end.

(** Price limit, interval and quantity; an empty part is zero. *)
Definition stream_fields (s : string) : outcome (Z * Z * Z) :=
  let parts := (λ x, if bool_decide (x = "") then "0" else x) <$> SplitN "/" 3 s in
  let number i e := match parts !! i with
                    | None => Ok 0
                    | Some x => match ParseUint64 x with Some v => Ok v | None => Err e end
                    end in
  slip ← (match parseTradeTarget (hd "" parts) with Err _ => Err "swap price limit is invalid" | r => r end);
  interval ← number 1%nat "failed to parse stream frequency";
  quantity ← number 2%nat "failed to parse stream quantity";
  Ok (slip, interval, quantity).

(** The price limit, the interval and the quantity of a swap, or an error. *)
Definition swap_price (p : Parser) : P (Z * Z * Z + error) :=
  if Contains "/" (field p 3) then
    match stream_fields (field p 3) with
    | Ok v => mret (inl v)
    | Err e => mret (inr e)
    | Panic => lift Panic
    end
  else slip ← getUintWithScientificNotation p 3 false 0; mret (inl (slip, 0, 0)).

Fixpoint sum_uints (l : list Z) (acc : Z) : outcome Z :=
  match l with [] => Ok acc | x :: r => a ← uadd acc x; sum_uints r a end.

(** The fees of the affiliates: a single fee is that of each of them. *)
Definition affiliate_fees (p : Parser) (affiliates : list string) : P (list Z) :=
  fees ← getUintArray p 5 false;
  if (length fees =? 1)%nat && (1 <? length affiliates)%nat then
    fee ← getUintWithMaxValue p 5 false 0 MaxBasisPts;
    mret (replicate (length affiliates) fee)
  else mret fees.

Definition ParseSwapMemoV1 (keeper : option (Ctx * State)) (a : Asset) (parts : list string) : outcome SwapMemo :=
  let part i := default "" (parts !! i) in
  _ ← fail_if (length parts <? 2)%nat "not enough parameters";
  dest ← (if bool_decide (part 2%nat = "") then Ok NoAddress else plain_address keeper (part 2%nat) (chain a));
  slip ← (if bool_decide (part 3%nat = "") then Ok 0
          else match parse_uint (part 3%nat) with Err _ => Err "swap price limit is invalid" | r => r end);
  '(affAddr, affPts) ←
    (if (5 <? length parts)%nat && negb (bool_decide (part 4%nat = "")) && negb (bool_decide (part 5%nat = "")) then
       affAddr ← plain_address keeper (part 4%nat) SWITCHLYChain;
       match ParseUint64 (part 5%nat) with
       | Some affPts => Ok (affAddr, affPts)
       | None => Err "invalid syntax"
       end
     else Ok (NoAddress, 0));
  Ok (NewSwapMemo a dest slip affAddr affPts "" "" 0 false 0 0 (NewSWITCHName "" 0 []) "" [] []).

(** What follows the count of the affiliates, which needs the store. *)
Definition swap_memo (p : Parser) (keeper : Ctx * State) (a : Asset) (dest refund : string) (slip interval quantity : Z)
    (affiliates : list string) (fees : list Z) (total : Z) : P (Memo_ * option error) :=
  affAddr ← (match affiliates with
             | first :: _ => if total =? 0 then mret NoAddress else getAddressFromString keeper first SWITCHLYChain false
             | [] => mret NoAddress
             end);
  tn ← getSWITCHName p 4 false None;
  dexTargetLimit ← getUintWithScientificNotation p 8 false 0;
  with_errors p (SwapMemo_ (NewSwapMemo a dest slip affAddr total (field p 6) (field p 7) dexTargetLimit
                   (EqualFold (field p 0) (TxType_String TxLimitSwap)) quantity interval tn refund affiliates fees)).

Definition ParseSwapMemoV3_0_0 (p : Parser) : P (Memo_ * option error) :=
  a ← getAsset p 1 true;
  match p_keeper p with
  | None =>
      match ParseSwapMemoV1 (p_keeper p) a (p_parts p) with
      | Ok m => mret (SwapMemo_ m, None)
      | Err e => failing (SwapMemo_ no_swap) e
      | Panic => lift Panic
      end
  | Some k =>
      '(dest, refund) ← getAddressAndRefundAddress p 2 false (chain a);
      price ← swap_price p;
      match price with
      | inr e => failing (SwapMemo_ no_swap) e
      | inl (slip, interval, quantity) =>
          let affiliates := getStringArray p 4 in
          fees ← affiliate_fees p affiliates;
          if negb (length affiliates =? length fees)%nat
          then failing (SwapMemo_ no_swap) "affiliate switchlynames and affiliate fee bps count mismatch"
          else
            n ← lift (fst (GetConfigInt64 "MultipleAffiliatesMaxCount" (snd k)));
            if Z.max 0 n <? Z.of_nat (length affiliates)
            then failing (SwapMemo_ no_swap) "maximum allowed affiliates exceeded"
            else
              total ← lift (sum_uints fees 0);
              if MaxBasisPts <? total
              then failing (SwapMemo_ no_swap) "total affiliate fee basis points can't be more than 10000"
              else swap_memo p k a dest refund slip interval quantity affiliates fees total
      end
  end.
Definition ParseSwapMemo (p : Parser) : P (Memo_ * option error) :=
  if p_version p <? 3 then failing (SwapMemo_ no_swap) "unsupported version" else ParseSwapMemoV3_0_0 p.

(** ** The parser *)

Definition parse_fields (p : Parser) : P (Memo_ * option error) :=
  match p_type p with
  | TxLeave => ParseLeaveMemo p
  | TxDonate => ParseDonateMemo p
  | TxAdd => ParseAddLiquidityMemo p
  | TxWithdraw => ParseWithdrawLiquidityMemo p
  | TxSwitchPoolDeposit => mret (BaseMemo (of_type TxSwitchPoolDeposit), None)
  | TxSwitchPoolWithdraw => ParseSwitchPoolWithdrawMemo p
  | TxSwap | TxLimitSwap => ParseSwapMemo p
  | TxOutbound => ParseOutboundMemo p
  | TxRefund => ParseRefundMemo p
  | TxBond => ParseBondMemo p
  | TxUnbond => ParseUnbondMemo p
  | TxReserve => mret (BaseMemo (of_type TxReserve), None)
  | TxMigrate => ParseMigrateMemo p
  | TxRagnarok => ParseRagnarokMemo p
  | TxNoOp => ParseNoOpMemo p
  | TxConsolidate => mret (BaseMemo (of_type TxConsolidate), None)
  | TxSWITCHName => ParseManageSWITCHNameMemo p
  | TxLoanOpen => ParseLoanOpenMemo p
  | TxLoanRepayment => ParseLoanRepaymentMemo p
  | TxTradeAccountDeposit => ParseTradeAccountDeposit p
  | TxTradeAccountWithdrawal => ParseTradeAccountWithdrawal p
  | TxSecuredAssetDeposit => ParseSecuredAssetDeposit p
  | TxSecuredAssetWithdraw => ParseSecuredAssetWithdraw p
  | TxExec => ParseExecMemo p
  | TxSwitch => ParseSwitch p
  | TxSWCYClaim => ParseSWCYClaimMemo p
  | TxSWCYStake => ParseSWCYStakeMemo p
  | TxSWCYUnstake => ParseSWCYUnstakeMemo p
  | TxMaint => ParseMaintMemo p
  | TxUnknown => failing EmptyMemo "TxType not supported"
  end.

(** The errors collected are asked for again when the type reported none. *)
Definition parse (p : Parser) : P (Memo_ * option error) :=
  '(m, e) ← parse_fields p;
  match e with
  | Some _ => mret (m, e)
  | None => e ← ErrorOf p; mret (m, e)
  end.

Definition parse_memo (keeper : option (Ctx * State)) (version : Z) (memo : string) : Memo_ * option error :=
  match newParser keeper version memo with
  | Ok p =>
      match fst (parse p (mkPState [] 0)) with
      | Ok r => r
      | Err e => (EmptyMemo, Some e)
      | Panic => (EmptyMemo, Some "panicked parsing memo")
      end
  | Err e => (EmptyMemo, Some e)
  | Panic => (EmptyMemo, Some "panicked parsing memo")
  end.

Definition ParseMemo (version : Z) (memo : string) : Memo_ * option error := parse_memo None version memo.
Definition ParseMemoWithSWITCHNames (ctx : Ctx) (s : State) (memo : string) : Memo_ * option error :=
  parse_memo (Some (ctx, s)) (versionMajor ctx) memo.
(** A memo read in the store as it is. *)
Definition read_memo (ctx : Ctx) (memo : string) : M State (Memo_ * option error) :=
  gets (λ s, ParseMemoWithSWITCHNames ctx s memo).
End MemoParser.
