(* ===== verification/MemoTexts.v ===== *)
(** * What memos print reads back

    Facts on the parser of MemoParser and the texts of MemoTypes: the text of a
    swap memo, in full or with the short code of its asset, reads back as the
    same instruction, and so do the memos the protocol writes itself. *)

From Stdlib Require Import Ascii.
From stdpp Require Import pretty.
From S2P Require Import Prelude GoStrings GoNumbers CosmosMath Amounts Assets Constants Names State Txs MemoTypes MemoParser.
Open Scope Z_scope.

(** ** Texts *)

Lemma without_app c s t : without c s → without c t → without c (s +:+ t).
Proof. unfold without. rewrite str_forall_app. by intros -> ->. Qed.
Lemma without_Join c sep l : without c sep → Forall (without c) l → without c (Join sep l).
Proof.
  intros Hsep. induction 1 as [|s l Hs Hl IH]; [done|]. destruct l as [|t l]; [done|].
  change (Join sep (s :: t :: l)) with (s +:+ sep +:+ Join sep (t :: l)). by repeat apply without_app.
Qed.
Lemma Join_nonempty sep x l : x ≠ "" → Join sep (x :: l) ≠ "".
Proof. intros Hx. destruct x; [done|]. by destruct l. Qed.
Lemma without_Contains c s : Contains c s = false ↔ without c s.
Proof. unfold Contains, without. by rewrite negb_false_iff. Qed.

Lemma Contains_sep c s t : Contains c (s +:+ String c t) = true.
Proof.
  unfold Contains. rewrite str_forall_app, negb_true_iff, andb_false_iff. right. cbn. by rewrite is_char_self.
Qed.

Lemma SplitN_pair c s t : without c s → SplitN c 2 (s +:+ String c t) = [s; t].
Proof.
  intros Hs. cbn. rewrite split_first_app; [done|exact Hs|apply is_char_self].
Qed.

Lemma SplitN_cons c n s t : without c s → SplitN c (S (S n)) (s +:+ String c t) = s :: SplitN c (S n) t.
Proof. intros Hs. cbn. rewrite split_first_app; [done|exact Hs|apply is_char_self]. Qed.

(** The characters of an address. *)
Lemma NewAddress_id `{Env} a b : NewAddress a = Ok b → b = a ∧ str_forall is_address_char a = true.
Proof.
  unfold NewAddress. case_bool_decide; [by intros [= <-]; subst|].
  destruct (str_forall is_address_char a) eqn:E; [cbn|done]. destruct (address_decodes a); [|done]. by intros [= <-].
Qed.
Lemma address_without c a : is_address_char c = false → str_forall is_address_char a = true → without c a.
Proof.
  intros Hc. apply str_forall_impl. intros d Hd. cbn. apply negb_true_iff, bool_decide_eq_false. congruence.
Qed.
Lemma address_blank a : str_forall is_address_char a = true → blank a = bool_decide (a = "").
Proof.
  destruct a as [|c a]; [done|]. cbn. rewrite andb_true_iff. intros [Hc _]. unfold blank. cbn.
  assert (is_space c = false) as -> by (revert Hc; all_chars c; done). done.
Qed.

(** The short codes are single letters; the text of an asset is not one. *)
Lemma shorts_letters k v : Assets.shorts !! k = Some v → (String.length k <= 1)%nat.
Proof.
  intros Hk. assert (Hall : map_Forall (λ k _, (String.length k <= 1)%nat) Assets.shorts).
  { apply (bool_decide_unpack _). vm_compute. exact I. }
  exact (Hall k v Hk).
Qed.
Lemma asset_of_text a : asset_wf a → Assets.NewAssetWithShortCodesV3_1_0 (Assets.Str a) = Ok a.
Proof.
  intros Hwf. unfold Assets.NewAssetWithShortCodesV3_1_0.
  destruct (Assets.shorts !! Assets.Str a) as [v|] eqn:E; [|by apply NewAsset_Str].
  apply shorts_letters in E. rewrite Str_wf in E by done. rewrite str_length_app in E.
  destruct (chain_valid_inv _ (wf_chain a Hwf)) as [Hl _]. lia.
Qed.
Lemma asset_of_short_code a :
  asset_wf a → Assets.ShortCode a ≠ "" → Assets.NewAssetWithShortCodesV3_1_0 (Assets.ShortCode a) = Ok a.
Proof.
  intros Hwf Hne. rewrite <- NewAsset_Str by done. unfold Assets.NewAssetWithShortCodesV3_1_0.
  assert (Assets.shorts !! Assets.ShortCode a = Some (Assets.Str a)) as ->; [|done].
  revert Hne. unfold Assets.ShortCode. cbv zeta. repeat (let E := fresh in case_bool_decide as E; [intros _; rewrite E; vm_compute; reflexivity|clear E]).
  done.
Qed.

Lemma Str_without c a :
  asset_wf a → is_symbol_char c = false → Assets.is_sep c = false → without c (Assets.Str a).
Proof.
  intros Hwf Hc Hsep. rewrite Str_wf by done. destruct (chain_valid_inv _ (wf_chain a Hwf)) as [_ Hu].
  apply without_app.
  - revert Hu. apply str_forall_impl. intros d Hd. cbn. apply negb_true_iff, bool_decide_eq_false. intros <-.
    revert Hd Hc. all_chars c; done.
  - unfold without. cbn. apply andb_true_iff. split.
    + apply negb_true_iff, bool_decide_eq_false. intros ->. revert Hsep. unfold sep_of.
      by destruct (Secured a), (Trade a), (Synth a).
    + pose proof (wf_symbol a Hwf) as Hs. unfold isAlphaNumeric in Hs. apply andb_true_iff in Hs as [_ Hs].
      revert Hs. apply str_forall_impl. intros d Hd. cbn. apply negb_true_iff, bool_decide_eq_false. congruence.
Qed.

Section Reading.
  Context `{CosmosMath} `{Bank} `{Env}.
Abbreviation P := (M PState).

(** ** Reading without errors *)

(** A step that gives a value, reports nothing, and asks for [n] fields. *)
Definition quiet {A} (m : P A) (a : A) (n : Z) : Prop :=
  ∀ st, m st = (Ok a, mkPState (p_errs st) (requiredFields st + n)).

Lemma quiet_ret {A} (a : A) : quiet (mret a) a 0.
Proof. intros [es n]. cbn. by rewrite Z.add_0_r. Qed.
Lemma quiet_bind {A B} (m : P A) (f : A → P B) a b n k :
  quiet m a n → quiet (f a) b k → quiet (m ≫= f) b (n + k).
Proof. intros Hm Hf st. unfold mbind, M_bind. rewrite Hm, Hf. cbn. by rewrite Z.add_assoc. Qed.
Lemma quiet_0 {A B} (m : P A) (f : A → P B) a b k : quiet m a 0 → quiet (f a) b k → quiet (m ≫= f) b k.
Proof. intros Hm Hf. rewrite <- (Z.add_0_l k). by eapply quiet_bind. Qed.
Lemma quiet_incRequired r : quiet (incRequired r) () (if r then 1 else 0).
Proof. intros [es n]. destruct r; cbn; [done|by rewrite Z.add_0_r]. Qed.
Lemma quiet_lift {A} (m : outcome A) a : m = Ok a → quiet (lift m) a 0.
Proof. intros ->. intros [es n]. cbn. by rewrite Z.add_0_r. Qed.
Lemma quiet_complain text e : text = "" → quiet (complain false text e) () 0.
Proof. intros ->. apply quiet_ret. Qed.
Lemma quiet_parsed {A} (r : option A) req text e def a : r = Some a → quiet (parsed r req text e def) a 0.
Proof. intros ->. apply quiet_ret. Qed.

(** A field that has to be there. *)
Lemma quiet_field {A} r (m : P A) a : quiet m a 0 → quiet (_ ← incRequired r; m) a (if r then 1 else 0).
Proof.
  intros Hm. rewrite <- (Z.add_0_r (if r then 1 else 0)). eapply quiet_bind; [apply quiet_incRequired|exact Hm].
Qed.

Lemma quiet_getAsset p idx r a :
  Assets.NewAssetWithShortCodesV3_1_0 (field p idx) = Ok a → quiet (getAsset p idx r) a (if r then 1 else 0).
Proof. intros Ha. apply quiet_field, quiet_parsed. by rewrite Ha. Qed.
Lemma quiet_getTxID p idx r t : NewTxID (field p idx) = Ok t → quiet (getTxID p idx r) t (if r then 1 else 0).
Proof. intros Ht. apply quiet_field, quiet_parsed. by rewrite Ht. Qed.
Lemma quiet_getInt64 p idx r def n :
  field p idx = pretty n → 0 <= n < 2 ^ 63 → quiet (getInt64 p idx r def) n (if r then 1 else 0).
Proof. intros Hf Hn. apply quiet_field, quiet_parsed. by rewrite Hf, ParseInt64_pretty. Qed.

(** An amount, or nothing for zero. *)
Definition amount_text (n : Z) : string := if n =? 0 then "" else pretty n.
Lemma quiet_amount p idx n :
  field p idx = amount_text n ∨ field p idx = pretty n → 0 <= n < 2 ^ 64 →
  quiet (getUintWithScientificNotation p idx false 0) n 0.
Proof.
  intros Hf Hn. apply (quiet_field false).
  assert (Hp : field p idx = pretty n → ParseFloatInt (field p idx) = Some n) by (intros ->; by apply ParseFloatInt_pretty).
  destruct Hf as [Hf|Hf]; [|rewrite (Hp Hf); apply quiet_lift, uint_of_bigint_ok; unfold uint_max; lia].
  unfold amount_text in Hf. destruct (Z.eqb_spec n 0) as [Hn0|Hn0].
  - rewrite Hf, Hn0. cbn. eapply quiet_0; [by apply quiet_complain|apply quiet_ret].
  - rewrite (Hp Hf). apply quiet_lift, uint_of_bigint_ok. unfold uint_max. lia.
Qed.

Lemma quiet_address k val c r a : NewAddress val = Ok a → quiet (getAddressFromString k val c r) a 0.
Proof. intros Ha. apply quiet_parsed. unfold FetchAddress. by rewrite Ha. Qed.

(** A destination, with or without an address for refunds. *)
Definition dest_text (dest refund : string) : string :=
  if blank refund then dest else Join "/" [dest; refund].
Lemma quiet_destination p k idx c dest refund :
  p_keeper p = Some k → field p idx = dest_text dest refund →
  NewAddress dest = Ok dest → NewAddress refund = Ok refund → (dest = "" → refund = "") →
  quiet (getAddressAndRefundAddress p idx false c) (dest, refund) 0.
Proof.
  intros Hk Hf Hd Hr Hdr. destruct (NewAddress_id _ _ Hd) as [_ Hdc], (NewAddress_id _ _ Hr) as [_ Hrc].
  apply (quiet_field false). unfold dest_text in Hf. rewrite (address_blank refund) in Hf by done. rewrite Hf, Hk.
  assert (Hslash : without "/" dest) by by apply address_without.
  eapply (quiet_0 _ _ (dest, refund)).
  - case_bool_decide as E.
    + subst refund. rewrite (proj2 (without_Contains "/" dest)) by done.
      eapply quiet_0; [|apply quiet_ret]. unfold getAddressWithKeeper. rewrite Hk.
      apply (quiet_field false). rewrite Hf. by apply quiet_address.
    + change (Join "/" [dest; refund]) with (dest +:+ String "/" refund).
      rewrite Contains_sep.
      rewrite SplitN_pair by done. cbn [hd]. eapply quiet_0; [by apply quiet_address|]. rewrite Hr. apply quiet_ret.
  - cbv beta iota. rewrite (address_blank dest), (address_blank refund) by done.
    assert (bool_decide (dest = "") && negb (bool_decide (refund = "")) = false) as ->.
    { destruct (decide (dest = "")) as [E|E]; [by rewrite (Hdr E), andb_false_r|by rewrite bool_decide_false]. }
    eapply quiet_0; apply quiet_ret.
Qed.

(** ** The fields of a swap memo *)

Definition limit_text (l : option Z) : string := match l with Some l => amount_text l | None => "" end.
Definition swap_fields (short : bool) (m : SwapMemo) : list string := (swap_args short m ++ [limit_text (DexTargetLimit m)])%list.

Lemma take_fields (n : nat) (l : list string) i :
  Forall (eq "") (drop n l) → default "" (take n l !! i) = default "" (l !! i).
Proof.
  intros Hd. destruct (decide (i < n)%nat) as [Hi|Hi]; [by rewrite lookup_take_lt|].
  rewrite lookup_take_ge by lia. replace i with (n + (i - n))%nat by lia. rewrite <- lookup_drop.
  destruct (drop n l !! (i - n)%nat) as [x|] eqn:E; [|done].
  by apply (Forall_lookup_1 _ _ _ _ Hd) in E as <-.
Qed.

(** What is not printed is empty. *)
Lemma swap_string_fields short m :
  (Affiliates m = [] → AffiliatesBasisPoints m = []) → (DexAggregator m = "" → DexTargetAddress m = "") →
  ∃ last : nat, (3 <= last <= 9)%nat ∧ swap_string short m = Join ":" (take last (swap_fields short m)) ∧
    Forall (eq "") (drop last (swap_fields short m)).
Proof.
  intros Haff Hagg. unfold swap_string. cbv zeta.
  set (cond := negb (SlipLimit m =? 0) || (0 <? sw_StreamInterval m) || (1 <? sw_StreamQuantity m)).
  set (last1 := if cond then 4%nat else 3%nat).
  set (last2 := if bool_decide (Affiliates m = []) then last1 else 6%nat).
  set (last3 := if bool_decide (DexAggregator m = "") then last2 else 8%nat).
  assert (Hslip : cond = false → swap_args short m !! 3%nat = Some "").
  { unfold cond. intros Hc. apply orb_false_iff in Hc as [Hc Hq]. apply orb_false_iff in Hc as [Hs Hi].
    unfold swap_args. cbv zeta. rewrite Hi, Hq. cbn [orb]. apply negb_false_iff in Hs. by rewrite Hs. }
  assert (Hdrop : Forall (eq "") (drop last3 (swap_args short m))).
  { unfold last3, last2, last1.
    destruct (decide (DexAggregator m = "")) as [Ea|Ea]; [rewrite (bool_decide_true _ Ea)|by rewrite (bool_decide_false _ Ea)].
    destruct (decide (Affiliates m = [])) as [Ef|Ef]; [rewrite (bool_decide_true _ Ef)|rewrite (bool_decide_false _ Ef)].
    - assert (Hfour : Forall (eq "") (drop 4 (swap_args short m))).
      { unfold swap_args. cbv zeta. rewrite Ea, (Hagg Ea), Ef, (Haff Ef). cbn [drop]. by repeat constructor. }
      destruct cond; [exact Hfour|]. rewrite (drop_S _ _ _ (Hslip eq_refl)). by constructor.
    - unfold swap_args. cbv zeta. rewrite Ea, (Hagg Ea). cbn [drop]. by repeat constructor. }
  assert (Hlast : (3 <= last3 <= 8)%nat) by (unfold last3, last2, last1; repeat case_match; lia).
  assert (Hlen : length (swap_args short m) = 8%nat) by done. unfold swap_fields.
  destruct (DexTargetLimit m) as [l|]; cbn [limit_text]; [unfold amount_text; destruct (l =? 0)|].
  2: { exists 9%nat. split; [lia|]. split; [done|]. rewrite drop_ge; [constructor|]. rewrite length_app, Hlen. cbn. lia. }
  all: exists last3; split; [lia|]; split; [rewrite take_app_le by lia; done|].
  all: rewrite drop_app_le by lia; apply Forall_app; split; [done|by repeat constructor].
Qed.

(** What the parser of a swap memo's text reads from. *)
Lemma swap_parser short m k v :
  base_TxType (sw_base m) = TxSwap →
  (Affiliates m = [] → AffiliatesBasisPoints m = []) → (DexAggregator m = "" → DexTargetAddress m = "") →
  Forall (without ":") (swap_fields short m) → Forall (without "|") (swap_fields short m) →
  ∃ p, newParser k v (swap_string short m) = Ok p ∧ p_type p = TxSwap ∧ p_keeper p = k ∧ p_version p = v ∧
    (3 <= length (p_parts p))%nat ∧ ∀ i, field p i = default "" (swap_fields short m !! i).
Proof.
  intros Ht Haff Hagg Hc Hb. destruct (swap_string_fields short m Haff Hagg) as (last & Hl & Hs & Hd).
  assert (Hlen : length (swap_fields short m) = 9%nat) by done.
  set (parts := take last (swap_fields short m)) in *.
  assert (Hpl : length parts = last) by (unfold parts; rewrite length_take; lia).
  assert (Hhd : hd "" parts = "=").
  { unfold parts. destruct last as [|n]; [lia|]. cbn. by rewrite bool_decide_true. }
  assert (Hbar : without "|" (swap_string short m)) by (rewrite Hs; apply without_Join; [done|by apply Forall_take]).
  assert (Hne : swap_string short m ≠ "").
  { rewrite Hs. destruct parts as [|x [|y r]]; [cbn in Hpl; lia|cbn in Hpl; lia|]. cbn in Hhd. by rewrite Hhd. }
  assert (Hsplit : Split ":" (swap_string short m) = parts).
  { rewrite Hs. apply Split_Join; [intros E; rewrite E in Hpl; cbn in Hpl; lia|by apply Forall_take]. }
  exists (mkParser (swap_string short m) TxSwap k parts v). unfold newParser.
  rewrite bool_decide_false by done. rewrite (Split_without "|") by done. cbn [hd]. rewrite Hsplit, Hhd.
  split_and!; [done|done|done|done|cbn; lia|]. intros i. unfold field. cbn [p_parts]. by apply take_fields.
Qed.

(** ** Swap memos that can be read back *)

(** The fees of a swap's affiliates. *)
Definition total_fee (m : SwapMemo) : Z := sumZ (AffiliatesBasisPoints m).

(** A market swap to an asset with addresses, whole numbers that fit in 64 bits,
    at least one quantity when it says how often, and affiliates with names, one
    fee for each of them. *)
Record swap_readable (ctx : Ctx) (s : State) (m : SwapMemo) (most : Z) : Prop := {
  sr_type : base_TxType (sw_base m) = TxSwap;
  sr_market : sw_limit m = false;
  sr_asset : asset_wf (base_Asset (sw_base m));
  sr_dest : NewAddress (sw_Destination m) = Ok (sw_Destination m);
  sr_refund : NewAddress (sw_RefundAddress m) = Ok (sw_RefundAddress m);
  sr_refund_dest : sw_Destination m = "" → sw_RefundAddress m = "";
  sr_slip : 0 <= SlipLimit m < 2 ^ 64;
  sr_interval : 0 <= sw_StreamInterval m < 2 ^ 64;
  sr_quantity : 0 <= sw_StreamQuantity m < 2 ^ 64;
  sr_stream : sw_StreamInterval m = 0 → sw_StreamQuantity m ≠ 1;
  sr_fees : length (AffiliatesBasisPoints m) = length (Affiliates m);
  sr_fee : Forall (λ x, 0 <= x) (AffiliatesBasisPoints m);
  sr_total : total_fee m <= MaxBasisPts;
  sr_names : Forall (λ x, x ≠ "" ∧ without "/" x) (Affiliates m);
  sr_most : fst (GetConfigInt64 "MultipleAffiliatesMaxCount" s) = Ok most;
  sr_count : Z.of_nat (length (Affiliates m)) <= most;
  sr_first : ∀ name, head (Affiliates m) = Some name → total_fee m ≠ 0 → is_ok (FetchAddress (ctx, s) name SWITCHLYChain) = true;
  sr_target : DexAggregator m = "" → DexTargetAddress m = "";
  sr_limit : ∀ l, DexTargetLimit m = Some l → 0 < l < 2 ^ 64;
  sr_colon : Forall (without ":") (sw_Destination m :: sw_RefundAddress m :: DexAggregator m :: DexTargetAddress m :: Affiliates m);
  sr_bar : Forall (without "|") (DexAggregator m :: DexTargetAddress m :: Affiliates m);
}.

(** The address of the first affiliate, when there is a fee, and the SWITCHName of
    the only one, as the store has them. *)
Definition affiliate_address (k : Ctx * State) (m : SwapMemo) : string :=
  match Affiliates m with
  | first :: _ =>
      if total_fee m =? 0 then NoAddress
      else match FetchAddress k first SWITCHLYChain with Ok a => a | _ => NoAddress end
  | [] => NoAddress
  end.
Definition affiliate_name (k : Ctx * State) (m : SwapMemo) : option SWITCHName :=
  let name := Join "/" (Affiliates m) in
  match fst (SWITCHNameExists (fst k) name (snd k)), fst (GetSWITCHName (fst k) name (snd k)) with
  | Ok true, Ok n => if bool_decide (sn_Owner n = "") then None else Some n
  | _, _ => None
  end.
(** What a memo reads as: itself, with the affiliates' address, fee and name as the
    text and the store give them. *)
Definition read_back (k : Ctx * State) (m : SwapMemo) : SwapMemo :=
  mkSwapMemo (sw_base m) (sw_Destination m) (SlipLimit m) (affiliate_address k m) (total_fee m)
    (DexAggregator m) (DexTargetAddress m) (DexTargetLimit m) (sw_limit m) (sw_StreamInterval m) (sw_StreamQuantity m)
    (affiliate_name k m) (sw_RefundAddress m) (Affiliates m) (AffiliatesBasisPoints m).
(** A memo whose address, fee and name of affiliates are those reads as itself. *)
Lemma read_back_same k m :
  sw_AffiliateAddress m = affiliate_address k m → sw_AffiliateBasisPoints m = total_fee m →
  AffiliateSWITCHName m = affiliate_name k m → read_back k m = m.
Proof. unfold read_back. intros <- <- <-. by destruct m. Qed.

Lemma sum_uints_ok l acc :
  Forall (λ x, 0 <= x) l → 0 <= acc → acc + sumZ l <= uint_max → sum_uints l acc = Ok (acc + sumZ l).
Proof.
  revert acc. induction l as [|x l IH]; intros acc Hl Ha Hs; [cbn; by rewrite Z.add_0_r|].
  apply list.Forall_cons in Hl as [Hx Hl]. change (sumZ (x :: l)) with (x + sumZ l) in *.
  assert (0 <= sumZ l) by by apply sumZ_nonneg. cbn [sum_uints]. rewrite uadd_ok by lia. cbn.
  rewrite IH by (done || lia). f_equal. lia.
Qed.
Lemma sum_bounded (l : list Z) b : Forall (λ x, 0 <= x) l → sumZ l <= b → Forall (λ x, 0 <= x <= b) l.
Proof.
  revert b. induction l as [|x l IH]; intros b Hl Hs; [constructor|]. apply list.Forall_cons in Hl as [Hx Hl].
  change (sumZ (x :: l)) with (x + sumZ l) in Hs. pose proof (sumZ_nonneg l Hl). constructor; [lia|].
  apply IH; [done|lia].
Qed.
Lemma quiet_uints l : Forall (λ x, 0 <= x <= uint_max) l → quiet (uints false (pretty <$> l)) (Some l) 0.
Proof.
  induction 1 as [|x l Hx Hl IH]; [apply quiet_ret|]. cbn. rewrite parse_uint_pretty by done.
  eapply quiet_0; [exact IH|apply quiet_ret].
Qed.

Lemma stream_fields_text slip i q :
  0 <= slip < 2 ^ 64 → 0 <= i < 2 ^ 64 → 0 <= q < 2 ^ 64 →
  stream_fields (Join "/" [pretty slip; pretty i; pretty q]) = Ok (slip, i, q).
Proof.
  intros Hs Hi Hq. unfold stream_fields.
  change (Join "/" [pretty slip; pretty i; pretty q]) with (pretty slip +:+ String "/" (pretty i +:+ String "/" (pretty q))).
  rewrite !SplitN_cons by (by apply pretty_without; try lia).
  cbn [SplitN fmap list_fmap hd lookup list_lookup].
  rewrite !bool_decide_false by (apply pretty_nonempty; lia).
  unfold parseTradeTarget. rewrite ParseFloatInt_pretty, uint_of_bigint_ok by (unfold uint_max; lia). cbn.
  by rewrite !ParseUint64_pretty.
Qed.

Lemma quiet_price p m :
  field p 3 = default "" (swap_args false m !! 3%nat) →
  0 <= SlipLimit m < 2 ^ 64 → 0 <= sw_StreamInterval m < 2 ^ 64 → 0 <= sw_StreamQuantity m < 2 ^ 64 →
  (sw_StreamInterval m = 0 → sw_StreamQuantity m ≠ 1) →
  quiet (swap_price p) (inl (SlipLimit m, sw_StreamInterval m, sw_StreamQuantity m)) 0.
Proof.
  intros Hf Hs Hi Hq Hone. unfold swap_price. unfold swap_args in Hf. cbn in Hf.
  destruct ((0 <? sw_StreamInterval m) || (1 <? sw_StreamQuantity m)) eqn:E.
  - rewrite Hf. change (pretty (SlipLimit m) +:+ "/" +:+ pretty (sw_StreamInterval m) +:+ "/" +:+ pretty (sw_StreamQuantity m))
      with (Join "/" [pretty (SlipLimit m); pretty (sw_StreamInterval m); pretty (sw_StreamQuantity m)]).
    rewrite stream_fields_text by done. cbn [Join]. change (?a +:+ "/" +:+ ?b) with (a +:+ String "/" b).
    rewrite Contains_sep. apply quiet_ret.
  - apply orb_false_iff in E as [Ei Eq]. apply Z.ltb_ge in Ei, Eq. 
    assert (sw_StreamInterval m = 0) as Hi0 by lia. rewrite Hi0. specialize (Hone Hi0).
    assert (sw_StreamQuantity m = 0) as -> by lia. change (field p 3 = amount_text (SlipLimit m)) in Hf.
    assert (Contains "/" (field p 3) = false) as ->.
    { apply without_Contains. rewrite Hf. unfold amount_text. case_match; [done|]. apply pretty_without; [lia|done]. }
    eapply quiet_0; [apply quiet_amount; [by left|done]|apply quiet_ret].
Qed.

(** Affiliates and their fees. *)
Lemma quiet_fees p affs bps :
  field p 5 = Join "/" (pretty <$> bps) → length bps = length affs → Forall (λ x, 0 <= x <= uint_max) bps →
  quiet (affiliate_fees p affs) bps 0.
Proof.
  intros Hf Hlen Hb. unfold affiliate_fees. eapply (quiet_0 _ _ bps).
  - unfold getUintArray. apply (quiet_field false). rewrite Hf. destruct bps as [|b bps]; [cbn; apply quiet_ret|].
    rewrite bool_decide_false.
    + rewrite (Split_Join "/"); [|done|].
      * eapply quiet_0; [by apply quiet_uints|apply quiet_ret].
      * apply Forall_fmap. eapply list.Forall_impl; [exact Hb|]. intros x [Hx _]. by apply pretty_without.
    + apply list.Forall_cons in Hb as [Hb _]. apply Join_nonempty, pretty_nonempty. lia.
  - assert ((length bps =? 1)%nat && (1 <? length affs)%nat = false) as ->; [|apply quiet_ret].
    rewrite Hlen. destruct (Nat.eqb_spec (length affs) 1) as [->|]; done.
Qed.
Lemma affiliates_read p affs :
  field p 4 = Join "/" affs → Forall (λ x, x ≠ "" ∧ without "/" x) affs → getStringArray p 4 = affs.
Proof.
  intros Hf Ha. unfold getStringArray. rewrite Hf. destruct affs as [|a affs]; [done|].
  rewrite bool_decide_false.
  - apply Split_Join; [done|]. eapply list.Forall_impl; [exact Ha|]. by intros x [_ Hx].
  - apply list.Forall_cons in Ha as [[Ha _] _]. by apply Join_nonempty.
Qed.
Lemma quiet_name p k m :
  p_keeper p = Some k → field p 4 = Join "/" (Affiliates m) →
  ∃ tn, quiet (getSWITCHName p 4 false None) tn 0 ∧ (if bool_decide (sn_Owner tn = "") then None else Some tn) = affiliate_name k m.
Proof.
  intros Hk Hf. unfold getSWITCHName, affiliate_name. rewrite Hk, Hf. destruct k as [ctx s]. cbn [fst snd].
  destruct (fst (SWITCHNameExists ctx _ s)) as [[]| |];
    try destruct (fst (GetSWITCHName ctx _ s)) as [n| |]; eexists; (split; [apply (quiet_field false), quiet_ret|done]).
Qed.

Lemma ErrorOf_none p st :
  p_errs st = [] → requiredFields st + 1 <= Z.of_nat (length (p_parts p)) → ErrorOf p st = (Ok None, st).
Proof.
  destruct st as [es n]. cbn. intros -> Hn. unfold ErrorOf, hasMinParams. unfold mbind, M_bind. cbn.
  by rewrite (proj2 (Z.ltb_ge _ _)) by lia.
Qed.
Lemma with_errors_none p m st :
  p_errs st = [] → requiredFields st + 1 <= Z.of_nat (length (p_parts p)) → with_errors p m st = (Ok (m, None), st).
Proof. intros He Hn. unfold with_errors, mbind, M_bind. by rewrite ErrorOf_none. Qed.

(** What is left of the memo once the count of the affiliates is right. *)
Lemma quiet_swap_memo p ctx s short m most :
  p_keeper p = Some (ctx, s) → p_type p = TxSwap → (3 <= length (p_parts p))%nat →
  (∀ i, field p i = default "" (swap_fields short m !! i)) → swap_readable ctx s m most →
  ∀ st, p_errs st = [] → requiredFields st = 1 →
    swap_memo p (ctx, s) (base_Asset (sw_base m)) (sw_Destination m) (sw_RefundAddress m) (SlipLimit m)
      (sw_StreamInterval m) (sw_StreamQuantity m) (Affiliates m) (AffiliatesBasisPoints m) (total_fee m) st =
    (Ok (SwapMemo_ (read_back (ctx, s) m), None), st).
Proof.
  intros Hk Ht Hlen Hf Hr. destruct (quiet_name p _ m Hk) as (tn & Htn & Hname); [by rewrite Hf|].
  assert (Haff : quiet (match Affiliates m with
             | first :: _ => if total_fee m =? 0 then mret NoAddress else getAddressFromString (ctx, s) first SWITCHLYChain false
             | [] => mret NoAddress
             end) (affiliate_address (ctx, s) m) 0).
  { pose proof (sr_first _ _ _ _ Hr) as Hfirst. unfold affiliate_address. destruct (Affiliates m) as [|a l]; [apply quiet_ret|].
    destruct (Z.eqb_spec (total_fee m) 0) as [|Hn]; [apply quiet_ret|]. specialize (Hfirst a eq_refl Hn).
    destruct (FetchAddress (ctx, s) a SWITCHLYChain) as [v| |] eqn:E; [|done|done].
    apply quiet_parsed. by rewrite E. }
  assert (Hlimit : quiet (getUintWithScientificNotation p 8 false 0) (default 0 (DexTargetLimit m)) 0).
  { apply quiet_amount; [left; rewrite Hf|].
    - unfold swap_fields. cbn. by destruct (DexTargetLimit m).
    - pose proof (sr_limit _ _ _ _ Hr) as Hl. destruct (DexTargetLimit m) as [l|]; [|done]. cbn. specialize (Hl l eq_refl). lia. }
  intros [es n] He Hn. cbn in He, Hn. subst es n. unfold swap_memo, mbind, M_bind.
  rewrite Haff, Htn, Hlimit. rewrite with_errors_none by (done || (cbn; lia)).
  unfold NewSwapMemo, read_back. rewrite Hname, (sr_market _ _ _ _ Hr). do 4 f_equal.
  rewrite !Hf. unfold swap_fields, swap_args. cbv zeta.
  cbn [app lookup list_lookup default from_option id].
  rewrite (bool_decide_true _ (sr_type _ _ _ _ Hr)).
  assert ((if default 0 (DexTargetLimit m) =? 0 then None else Some (default 0 (DexTargetLimit m))) = DexTargetLimit m) as ->.
  { pose proof (sr_limit _ _ _ _ Hr) as Hl. destruct (DexTargetLimit m) as [l|]; [|done].
    specialize (Hl l eq_refl). cbn. by rewrite (proj2 (Z.eqb_neq _ _)) by lia. }
  pose proof (sr_type _ _ _ _ Hr) as Hty. destruct (sw_base m) as [ty a]. cbn in Hty |- *. by subst ty.
Qed.

(** The whole memo. *)
Lemma read_swap_fields p ctx s short m most :
  p_keeper p = Some (ctx, s) → 3 <= p_version p → p_type p = TxSwap → (3 <= length (p_parts p))%nat →
  (∀ i, field p i = default "" (swap_fields short m !! i)) → swap_readable ctx s m most →
  parse p (mkPState [] 0) = (Ok (SwapMemo_ (read_back (ctx, s) m), None), mkPState [] 1).
Proof.
  intros Hk Hv Ht Hlen Hf Hr.
  pose proof (quiet_swap_memo p ctx s short m most Hk Ht Hlen Hf Hr (mkPState [] 1) eq_refl eq_refl) as Hrest.
  enough (Hp : parse_fields p (mkPState [] 0) = (Ok (SwapMemo_ (read_back (ctx, s) m), None), mkPState [] 1)).
  { unfold parse, mbind, M_bind. rewrite Hp. rewrite ErrorOf_none by (done || (cbn; lia)). done. }
  unfold parse_fields. rewrite Ht. unfold ParseSwapMemo. rewrite (proj2 (Z.ltb_ge _ _)) by lia.
  unfold ParseSwapMemoV3_0_0. rewrite Hk.
  assert (Hasset : quiet (getAsset p 1 true) (base_Asset (sw_base m)) 1).
  { apply quiet_getAsset. rewrite Hf. pose proof (sr_asset _ _ _ _ Hr) as Hwf. unfold swap_fields, swap_args. cbn.
    destruct short; cbn; [|by apply asset_of_text]. case_bool_decide; cbn; [by apply asset_of_text|by apply asset_of_short_code]. }
  assert (Hdest : quiet (getAddressAndRefundAddress p 2 false (chain (base_Asset (sw_base m)))) (sw_Destination m, sw_RefundAddress m) 0).
  { eapply quiet_destination; [exact Hk| |apply Hr..]. rewrite Hf. done. }
  assert (Hprice : quiet (swap_price p) (inl (SlipLimit m, sw_StreamInterval m, sw_StreamQuantity m)) 0).
  { apply quiet_price; [by rewrite Hf|apply Hr..]. }
  assert (Hbps : Forall (λ x, 0 <= x <= uint_max) (AffiliatesBasisPoints m)).
  { apply sum_bounded; [apply Hr|]. pose proof (sr_total _ _ _ _ Hr). unfold total_fee, MaxBasisPts, uint_max in *. lia. }
  assert (getStringArray p 4 = Affiliates m) as -> by (apply affiliates_read; [by rewrite Hf|apply Hr]).
  assert (Hfees : quiet (affiliate_fees p (Affiliates m)) (AffiliatesBasisPoints m) 0).
  { apply quiet_fees; [by rewrite Hf|apply Hr|done]. }
  unfold mbind at 1, M_bind. rewrite Hasset. cbn [p_errs requiredFields].
  unfold mbind at 1, M_bind. rewrite Hdest. cbn [p_errs requiredFields].
  unfold mbind at 1, M_bind. rewrite Hprice. cbn [p_errs requiredFields].
  unfold mbind at 1, M_bind. rewrite Hfees. cbn [p_errs requiredFields].
  rewrite (sr_fees _ _ _ _ Hr), Nat.eqb_refl. cbn [negb].
  unfold mbind at 1, M_bind. unfold lift at 1. cbn [snd]. rewrite (sr_most _ _ _ _ Hr).
  rewrite (proj2 (Z.ltb_ge _ _)) by (pose proof (sr_count _ _ _ _ Hr); lia).
  unfold mbind at 1, M_bind. unfold lift at 1.
  pose proof (sr_total _ _ _ _ Hr) as Htot. fold (total_fee m) in *.
  rewrite sum_uints_ok; [|apply Hr|lia|unfold total_fee, MaxBasisPts, uint_max in *; lia].
  rewrite Z.add_0_l. fold (total_fee m). rewrite (proj2 (Z.ltb_ge _ _)) by done. exact Hrest.
Qed.

Lemma without_amount c n : is_digit c = false → 0 <= n → without c (amount_text n).
Proof. intros Hc Hn. unfold amount_text. case_match; [done|]. by apply pretty_without. Qed.

(** No field of the text has one of the characters the parser cuts it at. *)
Lemma swap_fields_without c ctx s short m most :
  swap_readable ctx s m most → (c = ":" ∨ c = "|")%char →
  Forall (without c) (sw_Destination m :: sw_RefundAddress m :: DexAggregator m :: DexTargetAddress m :: Affiliates m) →
  Forall (without c) (swap_fields short m).
Proof.
  intros Hr Hc Hw. repeat (apply list.Forall_cons in Hw as [? Hw]).
  assert (Hslash : without c "/") by by destruct Hc as [-> | ->].
  assert (Hdigit : is_digit c = false) by by destruct Hc as [-> | ->].
  assert (Hpretty : ∀ n, 0 <= n → without c (pretty n)) by (intros n Hn; by apply pretty_without).
  pose proof (sr_slip _ _ _ _ Hr). pose proof (sr_interval _ _ _ _ Hr). pose proof (sr_quantity _ _ _ _ Hr).
  unfold swap_fields, swap_args. cbv zeta. rewrite (bool_decide_true _ (sr_type _ _ _ _ Hr)). cbn [app].
  repeat (apply Forall_cons_2).
  - by destruct Hc as [-> | ->].
  - pose proof (sr_asset _ _ _ _ Hr) as Hwf.
    assert (without c (Assets.Str (base_Asset (sw_base m)))) by (apply Str_without; [done|by destruct Hc as [-> | ->]..]).
    destruct short; cbn; [|done]. case_bool_decide; cbn; [done|].
    unfold Assets.ShortCode in *. cbv zeta in *. repeat case_bool_decide; destruct Hc as [-> | ->]; done.
  - case_match; [done|]. by apply without_Join; [|repeat constructor].
  - destruct ((0 <? sw_StreamInterval m) || (1 <? sw_StreamQuantity m)).
    + apply without_Join; [done|]. repeat constructor; apply Hpretty; lia.
    + apply without_amount; [done|lia].
  - by apply without_Join.
  - apply without_Join; [done|]. apply Forall_fmap. eapply list.Forall_impl; [apply Hr|]. intros x Hx. by apply Hpretty.
  - done.
  - done.
  - unfold limit_text. pose proof (sr_limit _ _ _ _ Hr) as Hl. destruct (DexTargetLimit m) as [l|]; [|done].
    specialize (Hl l eq_refl). apply without_amount; [done|lia].
  - constructor.
Qed.

Lemma read_swap_string ctx s short m most :
  3 <= versionMajor ctx → swap_readable ctx s m most →
  ParseMemoWithSWITCHNames ctx s (swap_string short m) = (SwapMemo_ (read_back (ctx, s) m), None).
Proof.
  intros Hv Hr.
  assert (Haff : Affiliates m = [] → AffiliatesBasisPoints m = []).
  { intros E. apply nil_length_inv. by rewrite (sr_fees _ _ _ _ Hr), E. }
  destruct (swap_parser short m (Some (ctx, s)) (versionMajor ctx) (sr_type _ _ _ _ Hr) Haff (sr_target _ _ _ _ Hr))
    as (p & Hp & Ht & Hk & Hver & Hlen & Hf).
  { eapply swap_fields_without; [exact Hr|by left|apply Hr]. }
  { eapply swap_fields_without; [exact Hr|by right|]. pose proof (sr_bar _ _ _ _ Hr).
    do 2 (constructor; [eapply address_without, NewAddress_id; [done|apply Hr]|]). done. }
  unfold ParseMemoWithSWITCHNames, parse_memo. by rewrite Hp, (read_swap_fields p ctx s short m most Hk ltac:(lia) Ht Hlen Hf Hr).
Qed.


(** ** Memos the protocol writes *)

(** A hash in capitals. *)
Definition txid_wf (t : string) : Prop := String.length t = 64%nat ∧ ToUpper t = t ∧ without ":" t ∧ without "|" t.
(** What goes out, what goes back, and what moves between vaults. *)
Definition protocol_memo (m : Memo_) : Prop :=
  match m with
  | OutboundMemo b t => b = of_type TxOutbound ∧ txid_wf t
  | RefundMemo b t => b = of_type TxRefund ∧ txid_wf t
  | MigrateMemo b h => b = of_type TxMigrate ∧ 0 <= h < 2 ^ 63
  | RagnarokMemo b h => b = of_type TxRagnarok ∧ 0 <= h < 2 ^ 63
  | BaseMemo b => b = of_type TxConsolidate
  | _ => False
  end.

Lemma newParser_pair k v word t ty :
  word ≠ "" → without ":" word → without "|" word → without ":" t → without "|" t → StringToTxType word = Ok ty →
  newParser k v (word +:+ String ":" t) = Ok (mkParser (word +:+ String ":" t) ty k [word; t] v).
Proof.
  intros Hne Hw Hw' Ht Ht' Hty. unfold newParser. rewrite bool_decide_false by (by destruct word).
  rewrite (Split_without "|") by (apply without_app; [done|]; by change (String ":" t) with (":" +:+ t); apply without_app).
  cbn [hd]. rewrite Split_cons, (Split_without ":") by done. cbn [hd]. by rewrite Hty.
Qed.

(** One field that has to be there. *)
Lemma read_one {A} k v word t ty (m : P A) a (f : A → Memo_) :
  let p := mkParser (word +:+ String ":" t) ty k [word; t] v in
  word ≠ "" → without ":" word → without "|" word → without ":" t → without "|" t → StringToTxType word = Ok ty →
  quiet m a 1 → parse_fields p = (x ← m; with_errors p (f x)) →
  parse_memo k v (word +:+ String ":" t) = (f a, None).
Proof.
  intros p Hne Hw Hw' Ht Ht' Hty Hm Hp. unfold parse_memo. rewrite (newParser_pair k v word t ty) by done. fold p.
  unfold parse, mbind, M_bind. rewrite Hp. unfold mbind, M_bind. rewrite Hm.
  rewrite with_errors_none by done. by rewrite ErrorOf_none.
Qed.

Lemma read_txid k v word t ty (f : string → Memo_) :
  word ≠ "" → without ":" word → without "|" word → StringToTxType word = Ok ty → txid_wf t →
  (∀ p, p_type p = ty → parse_fields p = (x ← getTxID p 1 true; with_errors p (f x))) →
  parse_memo k v (word +:+ String ":" t) = (f t, None).
Proof.
  intros Hne Hw Hw' Hty (Hl & Hu & Hc & Hb) Hp. eapply (read_one k v word t ty (getTxID _ 1 true) t f); [assumption..| |by apply Hp].
  apply (quiet_getTxID _ _ true). unfold NewTxID. cbn [field p_parts]. unfold field. cbn. by rewrite Hl, Hu.
Qed.
Lemma read_height k v word h ty (f : Z → Memo_) :
  word ≠ "" → without ":" word → without "|" word → StringToTxType word = Ok ty → 0 <= h < 2 ^ 63 →
  (∀ p, p_type p = ty → parse_fields p = (x ← getInt64 p 1 true 0; with_errors p (f x))) →
  parse_memo k v (word +:+ String ":" (pretty h)) = (f h, None).
Proof.
  intros Hne Hw Hw' Hty Hh Hp.
  assert (Hd : ∀ c, is_digit c = false → without c (pretty h)) by (intros c Hc; apply pretty_without; [lia|exact Hc]).
  eapply (read_one k v word _ ty (getInt64 _ 1 true 0) h f); [assumption..|by apply Hd|by apply Hd|assumption| |by apply Hp].
  by apply (quiet_getInt64 _ _ true).
Qed.

Ltac own_word :=
  lazymatch goal with
  | |- _ ≠ _ => discriminate
  | |- without _ _ => reflexivity
  | |- StringToTxType _ = _ => vm_compute; reflexivity
  | |- ∀ p, _ → _ => intros p Hp; unfold parse_fields; rewrite Hp; reflexivity
  | |- _ => assumption
  end.

(** The memos the protocol gives its own transactions are read back as they
    were written, with or without the store. *)
Theorem protocol_memo_reads_back k v m : protocol_memo m → parse_memo k v (Memo_String m) = (m, None).
Proof.
  destruct m; try done; cbn [protocol_memo Memo_String].
  - intros ->. vm_compute. reflexivity.
  - intros [-> Ht]. apply (read_txid k v "OUT" txID TxOutbound NewOutboundMemo); own_word.
  - intros [-> Ht]. apply (read_txid k v "REFUND" txID TxRefund NewRefundMemo); own_word.
  - intros [-> Hh]. apply (read_height k v "MIGRATE" height TxMigrate NewMigrateMemo); own_word.
  - intros [-> Hh]. apply (read_height k v "RAGNAROK" height TxRagnarok NewRagnarokMemo); own_word.
Qed.
End Reading.

(** ** A memo with every field *)

Definition named : State :=
  snd ((_ ← SetSWITCHName (mkSWITCHName "ann" 1000 "swtc1ann" EmptyAsset [mkAlias SWITCHLYChain "swtc1ann"]);
        SetSWITCHName (mkSWITCHName "bob" 1000 "swtc1bob" EmptyAsset [mkAlias SWITCHLYChain "swtc1bob"])) empty_state).
Definition full_swap : SwapMemo :=
  mkSwapMemo (mkBase TxSwap BTCAsset) "bc1to" 1000 "" 0 "agg" "0xtarget" (Some 77) false 3 4 None "swtc1back"
    ["ann"; "bob"] [10; 20].

Lemma full_swap_readable : swap_readable (mkCtx 8 3 "") named full_swap 5.
Proof.
  split.
  1, 2, 4, 5: vm_compute; reflexivity.
  2: discriminate.
  2-4: cbn; lia.
  2: discriminate.
  2: reflexivity.
  2: repeat constructor; discriminate.
  2: vm_compute; discriminate.
  2: repeat constructor; discriminate.
  2: vm_compute; reflexivity.
  2: vm_compute; discriminate.
  2: intros name [= <-] _; vm_compute; reflexivity.
  2: discriminate.
  2: intros l [= <-]; lia.
  2, 3: repeat constructor.
  split; vm_compute; (reflexivity || lia).
Qed.


Lemma protocol_memo_reads_back_witness :
  Memo_String (NewRefundMemo BlankTxID) = "REFUND:" +:+ BlankTxID ∧
  parse_memo None 3 (Memo_String (NewRefundMemo BlankTxID)) = (NewRefundMemo BlankTxID, None).
Proof. split; [reflexivity|]. apply protocol_memo_reads_back. repeat split. Defined.
