(* ===== verification/TradeAccounts.v ===== *)
(** * Trade accounts

    src/x/switchly/manager_trade_account_current.go, its two handlers and the
    messages of src/x/switchly/types/msg_trade_account.go.  A [TradeUnit] holds
    the total units and the depth of a trade asset, a [TradeAccount] the units
    of one owner; the theorems show that the totals are the sums of the
    accounts in every reachable state. *)

From Stdlib Require Import Ascii.
From S2P Require Import Prelude CosmosMath Amounts GoStrings Assets Coins Pools Constants State Txs.
Open Scope Z_scope.

Record MsgTradeAccountDeposit := mkTADeposit {
  tad_Asset : Asset; tad_Amount : Z; tad_Address : string; tad_Signer : string; tad_Tx : Tx }.
Record MsgTradeAccountWithdrawal := mkTAWithdrawal {
  taw_Asset : Asset; taw_Amount : Z; taw_AssetAddress : string; taw_Signer : string; taw_Tx : Tx }.

Section TradeAccounts.
  Context `{CosmosMath} `{Bank} `{Env} `{!Managers}.

(** ** The manager *)

Definition BalanceOf (a : Asset) (addr : string) : K Z :=
  let a := Assets.GetTradeAsset a in
  tu ← GetTradeUnit a;
  tr ← GetTradeAccount addr a;
  mret (GetSafeShare (tr_units tr) (tu_units tu) (tu_depth tu)).

Definition calcDepositUnits (oldUnits depth add : Z) : Z :=
  if (oldUnits =? 0) || (depth =? 0) then add
  else if add =? 0 then 0
  else GetUncappedShare add depth oldUnits.

Definition Deposit (ctx : Ctx) (a : Asset) (amount : Z) (owner assetAddr txID : string) : K Z :=
  let a := Assets.GetTradeAsset a in
  tu ← GetTradeUnit a;
  tr ← GetTradeAccount owner a;
  let units := calcDepositUnits (tu_units tu) (tu_depth tu) amount in
  tuUnits ← lift (uadd (tu_units tu) units);
  trUnits ← lift (uadd (tr_units tr) units);
  depth ← lift (uadd (tu_depth tu) amount);
  _ ← SetTradeUnit (mkTradeUnit (tu_asset tu) tuUnits depth);
  _ ← SetTradeAccount
        (mkTradeAccount (tr_asset tr) trUnits (tr_owner tr) (BlockHeight ctx) (tr_LastWithdrawHeight tr));
  _ ← EmitEvent (EvTradeDeposit amount a assetAddr owner txID);
  mret amount.

Definition Withdrawal (ctx : Ctx) (a : Asset) (amount : Z) (owner assetAddr txID : string) : K Z :=
  let a := Assets.GetTradeAsset a in
  tu ← GetTradeUnit a;
  tr ← GetTradeAccount owner a;
  let assetAvailable := GetSafeShare (tr_units tr) (tu_units tu) (tu_depth tu) in
  let unitsToClaim := GetSafeShare amount assetAvailable (tr_units tr) in
  let tokensToClaim := GetSafeShare unitsToClaim (tr_units tr) assetAvailable in
  tuUnits ← lift (SafeSub (tu_units tu) unitsToClaim);
  trUnits ← lift (SafeSub (tr_units tr) unitsToClaim);
  depth ← lift (SafeSub (tu_depth tu) tokensToClaim);
  _ ← SetTradeUnit (mkTradeUnit (tu_asset tu) tuUnits depth);
  _ ← SetTradeAccount
        (mkTradeAccount (tr_asset tr) trUnits (tr_owner tr) (tr_LastAddHeight tr) (BlockHeight ctx));
  _ ← EmitEvent (EvTradeWithdraw tokensToClaim a assetAddr owner txID);
  mret tokensToClaim.

(** ** Messages and handlers *)

Definition Deposit_ValidateBasic (m : MsgTradeAccountDeposit) : option error :=
  if Assets.IsEmpty (tad_Asset m) then Some "asset cannot be empty"
  else if Chains.IsSWITCHLYChain (Assets.GetChain (tad_Asset m))
  then Some "asset cannot be SWITCHLYChain asset"
  else if tad_Amount m =? 0 then Some "amount cannot be zero"
  else if bool_decide (tad_Address m = "") then Some "invalid address"
  else if bool_decide (tad_Signer m = "") then Some "invalid address"
  else if TxID_IsEmpty (tx_ID (tad_Tx m)) then Some "txID cannot be empty"
  else None.

Definition Withdrawal_ValidateBasic (m : MsgTradeAccountWithdrawal) : option error :=
  if Assets.IsEmpty (taw_Asset m) then Some "asset cannot be empty"
  else if negb (Trade (taw_Asset m)) then Some "asset must be a trade asset"
  else if taw_Amount m =? 0 then Some "amount cannot be zero"
  else if blank (taw_AssetAddress m) then Some "asset address cannot be empty"
  else if negb (IsChain (taw_AssetAddress m)
                 (Assets.GetChain (Assets.GetLayer1Asset (taw_Asset m))))
  then Some "asset address does not match asset chain"
  else if bool_decide (taw_Signer m = "") then Some "invalid address"
  else if TxID_IsEmpty (tx_ID (taw_Tx m)) then Some "txID cannot be empty"
  else None.

Definition deposit_validate (ctx : Ctx) (m : MsgTradeAccountDeposit) : K () :=
  if 3 <=? versionMajor ctx then
    tradeAccountsEnabled ← GetConfigInt64 "TradeAccountsEnabled";
    tradeAccountsDespositEnabled ← GetConfigInt64 "TradeAccountsDepositEnabled";
    if (tradeAccountsEnabled <=? 0) || (tradeAccountsDespositEnabled <=? 0)
    then throw "trade accounts are disabled"
    else check (Deposit_ValidateBasic m)
  else throw errBadVersion.

Definition deposit_handle (ctx : Ctx) (m : MsgTradeAccountDeposit) : K () :=
  if 3 <=? versionMajor ctx then
    _ ← Deposit ctx (tad_Asset m) (tad_Amount m) (tad_Address m) (FromAddress (tad_Tx m))
          (tx_ID (tad_Tx m));
    mret ()
  else throw errBadVersion.

(** [TradeAccountDepositHandler.Run] *)
Definition deposit_Run (ctx : Ctx) (m : MsgTradeAccountDeposit) : K () :=
  _ ← deposit_validate ctx m; deposit_handle ctx m.

Definition withdrawal_validate (ctx : Ctx) (m : MsgTradeAccountWithdrawal) : K () :=
  if 3 <=? versionMajor ctx then
    tradeAccountsEnabled ← GetConfigInt64 "TradeAccountsEnabled";
    if tradeAccountsEnabled <=? 0 then throw "trade accounts are disabled"
    else check (Withdrawal_ValidateBasic m)
  else throw errBadVersion.

Definition withdrawal_handle (ctx : Ctx) (m : MsgTradeAccountWithdrawal) : K () :=
  if 3 <=? versionMajor ctx then
    withdraw ← Withdrawal ctx (taw_Asset m) (taw_Amount m) (taw_Signer m) (taw_AssetAddress m)
                 (tx_ID (taw_Tx m));
    let layer1Asset := Assets.GetLayer1Asset (taw_Asset m) in
    txID ← lift (NewTxID (txHash ctx));
    let toi := plain_toi (Assets.GetChain layer1Asset) txID (taw_AssetAddress m)
                 (NewCoin layer1Asset withdraw) in
    ok ← TryAddTxOutItem ctx toi 0;
    if ok : bool then mret () else throw errFailAddOutboundTx
  else throw errBadVersion.

(** [TradeAccountWithdrawalHandler.Run] *)
Definition withdrawal_Run (ctx : Ctx) (m : MsgTradeAccountWithdrawal) : K () :=
  _ ← withdrawal_validate ctx m; withdrawal_handle ctx m.

(** ** The accounting invariant *)

Definition asset_key (a : Asset) : string := GetKey (Assets.Str a).

Definition no_slash (o : string) : bool := str_forall (λ c, negb (is_char "/" c)) o.

(** The units the accounts hold of the asset with key [ak]. *)
Definition held (ak : string) (m : gmap string TradeAccount) : Z :=
  map_sum (λ tr, if decide (asset_key (tr_asset tr) = ak) then tr_units tr else 0) m.

Record trade_inv (s : State) : Prop := {
  ti_units : ∀ k tu, tradeUnits s !! k = Some tu →
    k = asset_key (tu_asset tu) ∧ 0 ≤ tu_units tu ∧ 0 ≤ tu_depth tu;
  ti_accounts : ∀ k tr, tradeAccounts s !! k = Some tr →
    k = GetKey (TradeAccount_Key tr) ∧ 0 ≤ tr_units tr ∧ no_slash (tr_owner tr) = true;
  ti_sum : ∀ ak, from_option tu_units 0 (tradeUnits s !! ak) = held ak (tradeAccounts s);
}.

Lemma account_key_inj o1 o2 a1 a2 :
  no_slash o1 = true → no_slash o2 = true →
  GetKey (o1 +:+ "/" +:+ a1) = GetKey (o2 +:+ "/" +:+ a2) → GetKey a1 = GetKey a2.
Proof.
  intros Ho1 Ho2 Heq. unfold GetKey in *.
  assert (Hs : ∀ o a, no_slash o = true →
    split_first (is_char "/") (ToUpper (o +:+ "/" +:+ a)) = Some (ToUpper o, "/"%char, ToUpper a)).
  { intros o a Ho. unfold ToUpper. rewrite split_first_map by (intros c; all_chars c; done).
    change ("/" +:+ a) with (String "/" a). by rewrite split_first_app. }
  pose proof (Hs o1 a1 Ho1) as E. rewrite Heq, (Hs o2 a2 Ho2) in E. congruence.
Qed.

(** What [GetTradeUnit] and [GetTradeAccount] return in a state with the
    invariant. *)
Lemma stored_unit s a tu :
  trade_inv s → tu = default (NewTradeUnit a) (tradeUnits s !! asset_key a) →
  asset_key (tu_asset tu) = asset_key a ∧ 0 ≤ tu_units tu ∧ 0 ≤ tu_depth tu ∧
  tu_units tu = held (asset_key a) (tradeAccounts s).
Proof.
  intros Hinv ->. pose proof (ti_sum s Hinv (asset_key a)) as Hsum.
  destruct (tradeUnits s !! asset_key a) as [tu|] eqn:Hl; cbn in *.
  - destruct (ti_units s Hinv _ _ Hl) as (? & ? & ?). by split_and!.
  - by split_and!.
Qed.

Lemma stored_account s a owner tr :
  trade_inv s → no_slash owner = true →
  tr = default (NewTradeAccount owner a)
         (tradeAccounts s !! GetKey (TradeAccount_Key (NewTradeAccount owner a))) →
  GetKey (TradeAccount_Key tr) = GetKey (TradeAccount_Key (NewTradeAccount owner a)) ∧
  asset_key (tr_asset tr) = asset_key a ∧ no_slash (tr_owner tr) = true ∧
  0 ≤ tr_units tr ≤ held (asset_key a) (tradeAccounts s) ∧
  from_option tr_units 0
    (tradeAccounts s !! GetKey (TradeAccount_Key (NewTradeAccount owner a))) = tr_units tr.
Proof.
  intros Hinv Ho ->. set (k := GetKey (TradeAccount_Key (NewTradeAccount owner a))).
  assert (Hnn : ∀ j b, tradeAccounts s !! j = Some b →
     0 ≤ (if decide (asset_key (tr_asset b) = asset_key a) then tr_units b else 0)).
  { intros j b Hj. destruct (ti_accounts s Hinv _ _ Hj) as (_ & ? & _). case_decide; lia. }
  destruct (tradeAccounts s !! k) as [tr|] eqn:Hl; cbn.
  - destruct (ti_accounts s Hinv _ _ Hl) as (Hk & ? & ?).
    assert (Ha : asset_key (tr_asset tr) = asset_key a)
      by (symmetry; apply (account_key_inj owner (tr_owner tr)); [done|done|exact Hk]).
    split_and!; try done. pose proof (map_sum_entry _ _ _ _ Hnn Hl) as He. cbn in He.
    by rewrite decide_True in He.
  - split_and!; try done. by apply map_sum_nonneg.
Qed.

(** Writing the two records back with [d] more units keeps the invariant. *)
Lemma trade_inv_write s s' a owner tu tr d depth h1 h2 :
  trade_inv s → no_slash owner = true →
  tu = default (NewTradeUnit a) (tradeUnits s !! asset_key a) →
  tr = default (NewTradeAccount owner a)
         (tradeAccounts s !! GetKey (TradeAccount_Key (NewTradeAccount owner a))) →
  0 ≤ tu_units tu + d → 0 ≤ tr_units tr + d → 0 ≤ depth →
  tradeUnits s' = <[asset_key (tu_asset tu) :=
                     mkTradeUnit (tu_asset tu) (tu_units tu + d) depth]> (tradeUnits s) →
  tradeAccounts s' =
    (let tr' := mkTradeAccount (tr_asset tr) (tr_units tr + d) (tr_owner tr) h1 h2 in
     <[GetKey (TradeAccount_Key tr') := tr']> (tradeAccounts s)) →
  trade_inv s'.
Proof.
  intros Hinv Ho Htu Htr Htu0 Htr0 Hd0 HU HA.
  destruct (stored_unit s a tu Hinv Htu) as (Hak & _ & _ & Hsum).
  destruct (stored_account s a owner tr Hinv Ho Htr) as (Hk & Hka & Hos & _ & Hold).
  set (tr' := mkTradeAccount _ _ _ _ _) in HA. cbn zeta in HA.
  assert (Hk' : GetKey (TradeAccount_Key tr') = GetKey (TradeAccount_Key (NewTradeAccount owner a)))
    by by rewrite <- Hk.
  constructor; rewrite ?HU, ?HA.
  - intros k tu0 [[<- <-]|[_ Hl]]%lookup_insert_Some; [by split_and!|]. by apply (ti_units s Hinv).
  - intros k tr0 [[<- <-]|[_ Hl]]%lookup_insert_Some; [by split_and!|]. by apply (ti_accounts s Hinv).
  - intros ak. unfold held. rewrite map_sum_insert, Hk'.
    fold (held ak (tradeAccounts s)). rewrite <- (ti_sum s Hinv ak).
    assert (Hold' : from_option (λ tr, if decide (asset_key (tr_asset tr) = ak) then tr_units tr else 0) 0
       (tradeAccounts s !! GetKey (TradeAccount_Key (NewTradeAccount owner a)))
       = if decide (asset_key a = ak) then tr_units tr else 0).
    { destruct (tradeAccounts s !! _) as [tr0|]; cbn in *; subst tr; [by rewrite Hka|].
      by case_decide. }
    rewrite Hold'. unfold tr'. cbn [tr_asset tr_units]. rewrite Hka, Hak.
    destruct (decide (asset_key a = ak)) as [<-|Hne].
    + rewrite lookup_insert_eq. cbn. rewrite Htu.
      destruct (tradeUnits s !! asset_key a); cbn; lia.
    + rewrite lookup_insert_ne by done. lia.
Qed.
(** ** What the operations do *)

Definition account_of (owner : string) (a : Asset) : string :=
  GetKey (TradeAccount_Key (NewTradeAccount owner (Assets.GetTradeAsset a))).
Definition unit_of (s : State) (a : Asset) : TradeUnit :=
  let a := Assets.GetTradeAsset a in default (NewTradeUnit a) (tradeUnits s !! asset_key a).
Definition account_in (s : State) (owner : string) (a : Asset) : TradeAccount :=
  default (NewTradeAccount owner (Assets.GetTradeAsset a)) (tradeAccounts s !! account_of owner a).

(** What [BalanceOf] reads: the owner's share of the depth. *)
Definition available (s : State) (owner : string) (a : Asset) : Z :=
  GetSafeShare (tr_units (account_in s owner a)) (tu_units (unit_of s a)) (tu_depth (unit_of s a)).

Lemma calcDepositUnits_nonneg oldUnits depth add : 0 ≤ add → 0 ≤ calcDepositUnits oldUnits depth add.
Proof.
  intros. unfold calcDepositUnits. destruct (_ || _); [done|].
  destruct (add =? 0); [done|]. apply GetUncappedShare_range.
Qed.

(** The facts about the two records that both operations start from. *)
Lemma records_read s owner a :
  trade_inv s → no_slash owner = true →
  asset_key (tu_asset (unit_of s a)) = asset_key (Assets.GetTradeAsset a) ∧
  0 ≤ tr_units (account_in s owner a) ≤ tu_units (unit_of s a) ∧ 0 ≤ tu_depth (unit_of s a) ∧
  GetKey (TradeAccount_Key (account_in s owner a)) = account_of owner a.
Proof.
  intros Hinv Ho.
  destruct (stored_unit s (Assets.GetTradeAsset a) _ Hinv eq_refl) as (Hk & Hu & Hd & Hsum).
  destruct (stored_account s (Assets.GetTradeAsset a) owner _ Hinv Ho eq_refl) as (? & _ & _ & Hle & _).
  split_and!; try done; try apply Hle. unfold unit_of. rewrite Hsum. apply Hle.
Qed.

(** A deposit of any amount keeps the totals equal to the sums of the accounts.
    It panics, without a change of state, when a total leaves 0 .. 2^256-1;
    otherwise it reports the amount, adds it to the depth, and touches no other
    account. *)
Lemma Deposit_spec ctx a amount owner assetAddr txID s :
  trade_inv s → no_slash owner = true → 0 ≤ amount →
  let '(r, s') := Deposit ctx a amount owner assetAddr txID s in
  trade_inv s' ∧
  ((r = Panic ∧ s' = s) ∨
   (r = Ok amount ∧
    tu_depth (unit_of s' a) = tu_depth (unit_of s a) + amount ∧
    tu_units (unit_of s a) ≤ tu_units (unit_of s' a) ∧
    (∀ k, k ≠ account_of owner a → tradeAccounts s' !! k = tradeAccounts s !! k))).
Proof.
  intros Hinv Ho Ha.
  destruct (records_read s owner a Hinv Ho) as (Hk & Hu & Hd & Hkey).
  unfold Deposit, GetTradeUnit, GetTradeAccount, gets, mbind, M_bind, lift.
  change (default _ (tradeUnits s !! _)) with (unit_of s a).
  change (default _ (tradeAccounts s !! _)) with (account_in s owner a).
  set (tu := unit_of s a) in *. set (tr := account_in s owner a) in *.
  pose proof (calcDepositUnits_nonneg (tu_units tu) (tu_depth tu) amount Ha) as Hn.
  set (u := calcDepositUnits _ _ _) in *. rewrite !uadd_law.
  destruct (in_uint (tu_units tu + u)) as [tuU| |] eqn:HtuU; [|by unfold in_uint in *; case_match|by auto].
  destruct (in_uint (tr_units tr + u)) as [trU| |] eqn:HtrU; [|by unfold in_uint in *; case_match|by auto].
  destruct (in_uint (tu_depth tu + amount)) as [dep| |] eqn:Hdep; [|by unfold in_uint in *; case_match|by auto].
  apply in_uint_inv in HtuU as [-> _], HtrU as [-> _], Hdep as [-> _].
  cbn. split.
  - eapply (trade_inv_write s _ (Assets.GetTradeAsset a) owner tu tr u);
      [done|done|reflexivity|reflexivity|lia|lia| |reflexivity|reflexivity]. lia.
  - right. split_and!; [done| | |].
    + unfold unit_of. cbn. fold tu. unfold TradeUnit_Key. cbn.
      change (GetKey (Assets.Str (tu_asset tu))) with (asset_key (tu_asset tu)).
      rewrite Hk, lookup_insert_eq. done.
    + unfold unit_of. cbn. unfold TradeUnit_Key. cbn.
      change (GetKey (Assets.Str (tu_asset tu))) with (asset_key (tu_asset tu)).
      rewrite Hk, lookup_insert_eq. cbn. fold (unit_of s a). fold tu. lia.
    + intros k Hne. cbn. rewrite lookup_insert_ne; [done|].
      intros <-. apply Hne. rewrite <- Hkey. done.
Qed.
(** Amounts of a trade asset the decimal arithmetic is exact enough for. *)
Definition trade_bounded (s : State) (a : Asset) : Prop :=
  tu_units (unit_of s a) < 2 ^ 100 ∧ tu_depth (unit_of s a) < 2 ^ 100.

Lemma withdrawal_amounts s owner a amount :
  trade_inv s → no_slash owner = true → trade_bounded s a → 0 ≤ amount →
  let avail := available s owner a in
  let units := tr_units (account_in s owner a) in
  let claim := GetSafeShare amount avail units in
  let tokens := GetSafeShare claim units avail in
  0 ≤ avail ≤ tu_depth (unit_of s a) ∧ 0 ≤ claim ≤ units ∧ 0 ≤ tokens ≤ avail ∧
  (0 < avail → avail ≤ amount → claim = units ∧ tokens = avail).
Proof.
  intros Hinv Ho [HU HD] Ha avail units claim tokens.
  destruct (records_read s owner a Hinv Ho) as (_ & Hu & Hd & _). fold units in Hu.
  assert (Hav : 0 ≤ avail ≤ tu_depth (unit_of s a)) by (apply GetSafeShare_le; lia).
  assert (Hcl : 0 ≤ claim ≤ units) by (apply GetSafeShare_le; lia).
  assert (Htk : 0 ≤ tokens ≤ avail) by (apply GetSafeShare_le; lia).
  split_and!; [lia..|]. intros Hpos Hall.
  assert (claim = units) as Hc by (apply GetSafeShare_all; lia). split; [done|].
  destruct (Z.eq_dec units 0) as [Hz|].
  - exfalso. assert (avail = 0); [|lia]. unfold avail, available, GetSafeShare. fold units. rewrite Hz.
    destruct (Z.leb_spec (tu_units (unit_of s a)) 0); apply GetUncappedShare_zero; lia.
  - unfold tokens. rewrite Hc. apply GetSafeShare_all; lia.
Qed.

(** A withdrawal always succeeds.  It pays [tokens], never more than the
    owner's share of the depth and all of it when the request covers it; the
    depth falls by exactly that (no subtraction saturates), the totals stay the
    sums of the accounts, and no other account changes. *)
Lemma Withdrawal_spec ctx a amount owner assetAddr txID s :
  trade_inv s → no_slash owner = true → trade_bounded s a → 0 ≤ amount →
  let '(r, s') := Withdrawal ctx a amount owner assetAddr txID s in
  trade_inv s' ∧
  ∃ tokens, r = Ok tokens ∧
    0 ≤ tokens ≤ available s owner a ∧ available s owner a ≤ tu_depth (unit_of s a) ∧
    tu_depth (unit_of s' a) = tu_depth (unit_of s a) - tokens ∧
    (0 < available s owner a → available s owner a ≤ amount →
     tokens = available s owner a ∧ tr_units (account_in s' owner a) = 0) ∧
    (∀ k, k ≠ account_of owner a → tradeAccounts s' !! k = tradeAccounts s !! k).
Proof.
  intros Hinv Ho Hb Ha.
  destruct (records_read s owner a Hinv Ho) as (Hk & Hu & Hd & Hkey).
  pose proof (withdrawal_amounts s owner a amount Hinv Ho Hb Ha) as (Hav & Hcl & Htk & Hall).
  destruct Hb as [HU HD].
  unfold Withdrawal, GetTradeUnit, GetTradeAccount, gets, mbind, M_bind, lift.
  change (default _ (tradeUnits s !! _)) with (unit_of s a).
  change (default _ (tradeAccounts s !! _)) with (account_in s owner a).
  fold (available s owner a).
  set (tu := unit_of s a) in *. set (tr := account_in s owner a) in *.
  set (avail := available s owner a) in *.
  set (claim := GetSafeShare amount avail (tr_units tr)) in *.
  set (tokens := GetSafeShare claim (tr_units tr) avail) in *.
  assert (Hmax : 2 ^ 100 ≤ uint_max) by done.
  rewrite !SafeSub_ok by lia. cbv zeta. rewrite !Z.max_r by lia. cbn. split.
  - eapply (trade_inv_write s _ (Assets.GetTradeAsset a) owner tu tr (- claim));
      [done|done|reflexivity|reflexivity|lia|lia| |reflexivity|reflexivity]. lia.
  - exists tokens. split_and!; try done; try lia.
    + unfold unit_of. cbn. unfold TradeUnit_Key. cbn.
      change (GetKey (Assets.Str (tu_asset tu))) with (asset_key (tu_asset tu)).
      rewrite Hk, lookup_insert_eq. done.
    + intros Hpos Hle. destruct (Hall Hpos Hle) as [Hc Ht]. split; [done|].
      unfold account_in. cbn.
      match goal with |- context [<[?k := _]> _] => change k with (GetKey (TradeAccount_Key tr)) end.
      rewrite Hkey, lookup_insert_eq. cbn. lia.
    + intros k Hne. cbn. rewrite lookup_insert_ne; [done|].
      intros <-. apply Hne. rewrite <- Hkey. done.
Qed.

(** ** Reachable states *)

(** What a block can do to the trade accounts, whatever the handlers return;
    any other code leaves the two stores alone. *)
Inductive trade_step : State → State → Prop :=
  | step_deposit ctx a amount owner assetAddr txID s :
      no_slash owner = true → 0 ≤ amount →
      trade_step s (snd (Deposit ctx a amount owner assetAddr txID s))
  | step_withdrawal ctx a amount owner assetAddr txID s :
      no_slash owner = true → 0 ≤ amount → trade_bounded s a →
      trade_step s (snd (Withdrawal ctx a amount owner assetAddr txID s))
  | step_other s s' :
      tradeUnits s' = tradeUnits s → tradeAccounts s' = tradeAccounts s → trade_step s s'.

Lemma trade_inv_frame s s' :
  tradeUnits s' = tradeUnits s → tradeAccounts s' = tradeAccounts s → trade_inv s → trade_inv s'.
Proof. intros HU HA [Hu Ha Hs]. constructor; rewrite ?HU, ?HA; done. Qed.
Lemma trade_step_inv s s' : trade_step s s' → trade_inv s → trade_inv s'.
Proof.
  destruct 1 as [ctx a amount owner assetAddr txID s Ho Ha
                |ctx a amount owner assetAddr txID s Ho Ha Hb|s s' HU HA]; intros Hinv.
  - pose proof (Deposit_spec ctx a amount owner assetAddr txID s Hinv Ho Ha) as Hd.
    destruct (Deposit ctx a amount owner assetAddr txID s). apply Hd.
  - pose proof (Withdrawal_spec ctx a amount owner assetAddr txID s Hinv Ho Hb Ha) as Hw.
    destruct (Withdrawal ctx a amount owner assetAddr txID s). apply Hw.
  - by apply (trade_inv_frame s).
Qed.

Lemma trade_inv_genesis s : tradeUnits s = ∅ → tradeAccounts s = ∅ → trade_inv s.
Proof.
  intros HU HA. constructor; rewrite ?HU, ?HA; [by intros ?? ?%lookup_empty_Some..|].
  intros ak. rewrite lookup_empty. unfold held. by rewrite map_sum_empty.
Qed.

(** In every state reachable from one without trade accounts by deposits,
    withdrawals and code that leaves the two stores alone, the units of each
    trade asset are the sum of the units of its accounts, so that no owner's
    units exceed the total, and the shares of all owners are backed. *)
Theorem trade_units_are_the_sum_of_the_accounts s0 s :
  tradeUnits s0 = ∅ → tradeAccounts s0 = ∅ → rtc trade_step s0 s →
  (∀ a, tu_units (unit_of s a) = held (asset_key (Assets.GetTradeAsset a)) (tradeAccounts s)) ∧
  (∀ a owner, no_slash owner = true →
     0 ≤ tr_units (account_in s owner a) ≤ tu_units (unit_of s a)).
Proof.
  intros HU HA Hsteps.
  assert (Hinv : trade_inv s).
  { pose proof (trade_inv_genesis s0 HU HA) as H0inv. clear HU HA.
    induction Hsteps as [|s1 s2 s3 Hstep _ IH]; [done|]. apply IH. by apply (trade_step_inv s1). }
  split.
  - intros a. by destruct (stored_unit s (Assets.GetTradeAsset a) _ Hinv eq_refl) as (_ & _ & _ & ?).
  - intros a owner Ho. by destruct (records_read s owner a Hinv Ho) as (_ & ? & _).
Qed.

(** A deposit message either changes nothing and fails, or was valid with trade
    accounts enabled and adds its amount to the depth of the asset's trade
    units, the accounts still summing up to the units. *)
Theorem deposit_Run_accounting ctx m s :
  trade_inv s → no_slash (tad_Address m) = true → 0 ≤ tad_Amount m →
  match deposit_Run ctx m s with
  | (Ok _, s') =>
      3 ≤ versionMajor ctx ∧ Deposit_ValidateBasic m = None ∧ trade_inv s' ∧
      tu_depth (unit_of s' (tad_Asset m)) = tu_depth (unit_of s (tad_Asset m)) + tad_Amount m ∧
      (∀ k, k ≠ account_of (tad_Address m) (tad_Asset m) →
         tradeAccounts s' !! k = tradeAccounts s !! k)
  | (_, s') => s' = s
  end.
Proof.
  intros Hinv Ho Ha. unfold deposit_Run, deposit_validate, deposit_handle, GetConfigInt64, GetMimir, gets.
  unfold mbind, M_bind. destruct (Z.leb_spec 3 (versionMajor ctx)); [|done]. cbn.
  destruct (_ || _); [done|]. unfold check.
  destruct (Deposit_ValidateBasic m) as [e|] eqn:Hv; [done|]. cbn.
  pose proof (Deposit_spec ctx (tad_Asset m) (tad_Amount m) (tad_Address m)
     (FromAddress (tad_Tx m)) (tx_ID (tad_Tx m)) s Hinv Ho Ha) as Hd.
  destruct (Deposit _ _ _ _ _ _ s) as [r s'].
  destruct Hd as [Hi [[-> ->]|(-> & Hdep & _ & Hk)]]; [done|]. cbn. by split_and!.
Qed.

(** C40: A withdrawal message that succeeds was valid, with trade accounts enabled,
    and hands to the outbound queue one item of [tokens] of the layer-1 asset to
    the requested address: no more than the share of the signer, and exactly what
    the depth fell by. *)
Theorem withdrawal_Run_pays_what_the_depth_loses ctx m s s' :
  trade_inv s → no_slash (taw_Signer m) = true → trade_bounded s (taw_Asset m) →
  0 ≤ taw_Amount m → withdrawal_Run ctx m s = (Ok (), s') →
  ∃ tokens txID s1,
    Withdrawal_ValidateBasic m = None ∧
    0 ≤ tokens ≤ available s (taw_Signer m) (taw_Asset m) ∧
    tu_depth (unit_of s1 (taw_Asset m)) = tu_depth (unit_of s (taw_Asset m)) - tokens ∧
    0 ≤ tu_depth (unit_of s1 (taw_Asset m)) ∧ trade_inv s1 ∧
    let layer1Asset := Assets.GetLayer1Asset (taw_Asset m) in
    TryAddTxOutItem ctx (plain_toi (Assets.GetChain layer1Asset) txID (taw_AssetAddress m)
                           (NewCoin layer1Asset tokens)) 0 s1 = (Ok true, s').
Proof.
  intros Hinv Ho Hb Ha. unfold withdrawal_Run, withdrawal_validate, withdrawal_handle, GetConfigInt64, GetMimir, gets.
  unfold mbind, M_bind. destruct (Z.leb_spec 3 (versionMajor ctx)); [|done]. cbn.
  destruct (_ <=? 0); [done|]. unfold check.
  destruct (Withdrawal_ValidateBasic m) as [e|] eqn:Hv; [done|]. cbn.
  pose proof (Withdrawal_spec ctx (taw_Asset m) (taw_Amount m) (taw_Signer m) (taw_AssetAddress m)
     (tx_ID (taw_Tx m)) s Hinv Ho Hb Ha) as Hw.
  destruct (Withdrawal _ _ _ _ _ _ s) as [r s1].
  destruct Hw as [Hi (tokens & -> & Htk & Hav & Hd & _)].
  unfold lift. destruct (NewTxID (txHash ctx)) as [txID| |]; [|done|done].
  destruct (TryAddTxOutItem _ _ _ s1) as [[[]| |] s2] eqn:Htry; try done. intros [= <-].
  exists tokens, txID, s1. split_and!; try done; lia.
Qed.
End TradeAccounts.

(** ** Witnesses *)

#[local] Existing Instance idle_managers.

Definition BTC_trade : Asset := mkAsset "BTC" "BTC" "BTC" false true false.
Definition BTC_coin : Asset := mkAsset "BTC" "BTC" "BTC" false false false.
Definition trade_state : State :=
  put_mimirs {["TRADEACCOUNTSENABLED" := 1; "TRADEACCOUNTSDEPOSITENABLED" := 1]} empty_state.
Definition block (h : Z) : Ctx :=
  mkCtx h 3 "0123456789ABCDEF0123456789ABCDEF0123456789ABCDEF0123456789ABCDEF".
Definition deposit_msg : MsgTradeAccountDeposit :=
  mkTADeposit BTC_coin 1000 "swtc1owner" "swtc1signer"
    (NewTx (txHash (block 7)) "bc1from" "bc1vault" [] [] "trade+").
Definition withdrawal_msg : MsgTradeAccountWithdrawal :=
  mkTAWithdrawal BTC_trade 400 "bc1to" "swtc1owner"
    (NewTx (txHash (block 8)) "swtc1owner" "swtc1vault" [] [] "trade-").
Definition deposited : State :=
  snd (Deposit (block 7) BTC_trade 1000 "swtc1owner" "bc1from" (txHash (block 7)) trade_state).

Lemma trade_state_inv : trade_inv trade_state.
Proof. by apply trade_inv_genesis. Qed.

Lemma deposited_inv : trade_inv deposited.
Proof.
  apply (trade_step_inv trade_state); [|apply trade_state_inv].
  by apply step_deposit.
Qed.

Lemma trade_units_are_the_sum_of_the_accounts_witness :
  tu_units (unit_of deposited BTC_trade) = 1000 ∧
  tu_units (unit_of deposited BTC_trade) =
    held (asset_key (Assets.GetTradeAsset BTC_trade)) (tradeAccounts deposited).
Proof.
  split; [vm_compute; reflexivity|].
  apply (trade_units_are_the_sum_of_the_accounts trade_state); [done|done|].
  apply rtc_once.
  by apply step_deposit.
Defined.

Lemma deposit_Run_accounting_witness :
  let s' := snd (deposit_Run (block 7) deposit_msg trade_state) in
  fst (deposit_Run (block 7) deposit_msg trade_state) = Ok () ∧ trade_inv s' ∧
  tu_depth (unit_of s' BTC_coin) = tu_depth (unit_of trade_state BTC_coin) + 1000.
Proof.
  pose proof (deposit_Run_accounting (block 7) deposit_msg trade_state trade_state_inv eq_refl
    ltac:(vm_compute; discriminate)) as Hd.
  assert (fst (deposit_Run (block 7) deposit_msg trade_state) = Ok ()) as Hok
    by (vm_compute; reflexivity).
  rewrite (run_pair _ _ Hok) in Hd. destruct Hd as (_ & _ & Hi & Hdep & _).
  exact (conj Hok (conj Hi Hdep)).
Defined.

Lemma withdrawal_Run_pays_what_the_depth_loses_witness :
  fst (withdrawal_Run (block 8) withdrawal_msg deposited) = Ok () ∧
  ∃ tokens s1, tokens ≤ available deposited "swtc1owner" BTC_trade ∧
    tu_depth (unit_of s1 BTC_trade) = tu_depth (unit_of deposited BTC_trade) - tokens.
Proof.
  assert (fst (withdrawal_Run (block 8) withdrawal_msg deposited) = Ok ()) as Hok
    by (vm_compute; reflexivity).
  split; [exact Hok|].
  destruct (withdrawal_Run_pays_what_the_depth_loses (block 8) withdrawal_msg deposited _
    deposited_inv eq_refl ltac:(vm_compute; auto) ltac:(vm_compute; discriminate) (run_pair _ _ Hok))
    as (tokens & txID & s1 & _ & Htk & Hd & _).
  exists tokens, s1. split; [apply Htk|exact Hd].
Defined.
