(* ===== verification/SecuredAssets.v ===== *)
(** * Secured assets

    src/x/switchly/manager_secured_asset_current.go, its two handlers and the
    messages of src/x/switchly/types/msg_secured_asset.go.  A [SecuredAsset]
    holds the depth of a secured asset, the bank holds the share tokens of its
    owners; the theorems relate what a deposit mints and a withdrawal pays to
    both. *)

From S2P Require Import Prelude CosmosMath Amounts GoStrings Assets Coins Pools Constants State Txs.
Open Scope Z_scope.

Record MsgSecuredAssetDeposit := mkSADeposit {
  sad_Asset : Asset; sad_Amount : Z; sad_Address : string; sad_Signer : string; sad_Tx : Tx }.
Record MsgSecuredAssetWithdraw := mkSAWithdraw {
  saw_Asset : Asset; saw_Amount : Z; saw_AssetAddress : string; saw_Signer : string; saw_Tx : Tx }.

Section SecuredAssets.
  Context `{CosmosMath} `{Bank} `{Env} `{!Managers}.

(** ** The manager *)

Definition SA_BalanceOf (a : Asset) (addr : string) : K Z :=
  let a := Assets.GetSecuredAsset a in
  pool ← GetSecuredAsset a;
  balance ← GetBalanceOf addr a;
  shareSupply ← GetTotalSupply a;
  mret (GetSafeShare balance shareSupply (sa_depth pool)).

Definition GetShareSupply (a : Asset) : K Z := GetTotalSupply a.

Definition GetSecuredAssetStatus (a : Asset) : K (SecuredAsset * Z) :=
  let a := Assets.GetSecuredAsset a in
  pool ← GetSecuredAsset a;
  shareSupply ← GetShareSupply a;
  mret (pool, shareSupply).

Definition CheckHalt (ctx : Ctx) : K () :=
  m ← GetMimir "HaltSecuredGlobal";
  fail_when ((0 <? m) && (m <=? BlockHeight ctx)) "secured assets are disabled".

Definition calcMintAmt (oldUnits depth add : Z) : Z :=
  if (oldUnits =? 0) || (depth =? 0) then add
  else if add =? 0 then 0
  else GetUncappedShare add depth oldUnits.

Definition SA_Deposit (ctx : Ctx) (a : Asset) (amount : Z) (owner assetAddr txID : string) :
    K denom_coin :=
  _ ← CheckHalt ctx;
  _ ← fail_when (Assets.IsNative a) "native assets cannot be deposited";
  let a := Assets.GetSecuredAsset a in
  '(pool, shareSupply) ← GetSecuredAssetStatus a;
  let mintAmt := calcMintAmt shareSupply (sa_depth pool) amount in
  let coin := NewCoin a mintAmt in
  _ ← MintAndSendToAccount owner coin;
  depth ← lift (uadd (sa_depth pool) amount);
  _ ← SetSecuredAsset (mkSecuredAsset (sa_asset pool) depth);
  _ ← EmitEvent (EvSecuredDeposit amount a assetAddr owner txID);
  lift (Coin_Native coin).

Definition SA_Withdraw (ctx : Ctx) (a : Asset) (amount : Z) (owner assetAddr txID : string) :
    K Coin :=
  _ ← CheckHalt ctx;
  _ ← fail_when (negb (Secured a)) "only secured assets can be withdrawn";
  '(pool, shareSupply) ← GetSecuredAssetStatus a;
  shareBalance ← GetBalanceOf owner a;
  let assetAvailable := GetSafeShare shareBalance shareSupply (sa_depth pool) in
  let burnAmt := GetSafeShare amount assetAvailable shareBalance in
  let coin := NewCoin a burnAmt in
  _ ← SendFromAccountToModule owner ModuleName [coin];
  let tokensToClaim := GetSafeShare burnAmt shareBalance assetAvailable in
  _ ← BurnFromModule ModuleName coin;
  depth ← lift (SafeSub (sa_depth pool) tokensToClaim);
  _ ← SetSecuredAsset (mkSecuredAsset (sa_asset pool) depth);
  _ ← EmitEvent (EvSecuredWithdraw tokensToClaim a assetAddr owner txID);
  mret (NewCoin (Assets.GetLayer1Asset a) tokensToClaim).

(** ** Messages and handlers *)

Definition SADeposit_ValidateBasic (m : MsgSecuredAssetDeposit) : option error :=
  if Assets.IsEmpty (sad_Asset m) then Some "asset cannot be empty"
  else if Assets.IsNative (sad_Asset m) then Some "native assets cannot be deposited"
  else if sad_Amount m =? 0 then Some "amount cannot be zero"
  else if bool_decide (sad_Address m = "") then Some "invalid address"
  else if bool_decide (sad_Signer m = "") then Some "invalid address"
  else if TxID_IsEmpty (tx_ID (sad_Tx m)) then Some "txID cannot be empty"
  else None.

Definition SAWithdraw_ValidateBasic (m : MsgSecuredAssetWithdraw) : option error :=
  if Assets.IsEmpty (saw_Asset m) then Some "asset cannot be empty"
  else if negb (Secured (saw_Asset m)) then Some "asset must be a secured asset"
  else if saw_Amount m =? 0 then Some "amount cannot be zero"
  else if blank (saw_AssetAddress m) then Some "asset address cannot be empty"
  else if negb (IsChain (saw_AssetAddress m)
                 (Assets.GetChain (Assets.GetLayer1Asset (saw_Asset m))))
  then Some "asset address does not match asset chain"
  else if bool_decide (saw_Signer m = "") then Some "invalid address"
  else if TxID_IsEmpty (tx_ID (saw_Tx m)) then Some "txID cannot be empty"
  else None.

(** A halt mimir is in force from the height it names. *)
Definition checkHalt (ctx : Ctx) (key : string) (e : error) : K () :=
  m ← GetMimir key;
  fail_when ((0 <? m) && (m <=? BlockHeight ctx)) e.

Definition sadeposit_validate (ctx : Ctx) (m : MsgSecuredAssetDeposit) : K () :=
  if 3 <=? versionMajor ctx then
    _ ← checkHalt ctx ("HaltSecuredDeposit-" +:+ Chains.Str (chain (sad_Asset m)))
          "secured asset deposits are disabled";
    pool ← GetPool (sad_Asset m);
    if negb (IsAvailable pool) || Pool_IsEmpty pool then throw "pool unavailable"
    else
      capped ← atTVLCap ctx [NewCoin (sad_Asset m) (sad_Amount m)];
      if capped : bool then throw "secured deposits more than bond"
      else check (SADeposit_ValidateBasic m)
  else throw errBadVersion.

Definition sadeposit_handle (ctx : Ctx) (m : MsgSecuredAssetDeposit) : K () :=
  if 3 <=? versionMajor ctx then
    _ ← SA_Deposit ctx (sad_Asset m) (sad_Amount m) (sad_Address m) (FromAddress (sad_Tx m))
          (tx_ID (sad_Tx m));
    mret ()
  else throw errBadVersion.

(** [SecuredAssetDepositHandler.Run] *)
Definition sadeposit_Run (ctx : Ctx) (m : MsgSecuredAssetDeposit) : K () :=
  _ ← sadeposit_validate ctx m; sadeposit_handle ctx m.

Definition sawithdraw_validate (ctx : Ctx) (m : MsgSecuredAssetWithdraw) : K () :=
  if 3 <=? versionMajor ctx then
    _ ← checkHalt ctx ("HaltSecuredWithdraw-" +:+ Chains.Str (chain (saw_Asset m)))
          "secured asset withdrawals are disabled";
    check (SAWithdraw_ValidateBasic m)
  else throw errBadVersion.

Definition sawithdraw_handle (ctx : Ctx) (m : MsgSecuredAssetWithdraw) : K () :=
  if 3 <=? versionMajor ctx then
    withdrawAmount ← SA_Withdraw ctx (saw_Asset m) (saw_Amount m) (saw_Signer m)
                       (saw_AssetAddress m) (tx_ID (saw_Tx m));
    let toi := plain_toi (Assets.GetChain (coin_asset withdrawAmount)) (tx_ID (saw_Tx m))
                 (saw_AssetAddress m) withdrawAmount in
    ok ← TryAddTxOutItem ctx toi 0;
    if ok : bool then mret () else throw errFailAddOutboundTx
  else throw errBadVersion.

(** [SecuredAssetWithdrawHandler.Run] *)
Definition sawithdraw_Run (ctx : Ctx) (m : MsgSecuredAssetWithdraw) : K () :=
  _ ← sawithdraw_validate ctx m; sawithdraw_handle ctx m.

(** ** Depths and shares *)

Definition stored_secured (s : State) (a : Asset) : SecuredAsset :=
  let a := Assets.GetSecuredAsset a in
  default (NewSecuredAsset a) (securedAssets s !! GetKey (Assets.Str a)).
Definition depth (s : State) (a : Asset) : Z := sa_depth (stored_secured s a).
Definition shares (s : State) (a : Asset) : Z :=
  bank_supply (bank s) (Assets.Native (Assets.GetSecuredAsset a)).
Definition shares_of (s : State) (addr : string) (a : Asset) : Z :=
  bank_balance (bank s) (User_acc addr) (Assets.Native (Assets.GetSecuredAsset a)).
(** What [BalanceOf] computes: the owner's part of the depth. *)
Definition redeemable (s : State) (addr : string) (a : Asset) : Z :=
  GetSafeShare (shares_of s addr a) (shares s a) (depth s a).
Definition no_ragnarok (s : State) (a : Asset) : Prop :=
  default 0 (poolRagnarok s !! GetKey (Assets.Str
    (Assets.GetLayer1Asset (Assets.GetSecuredAsset a)))) ≤ 0.

(** Records are stored under their own asset, with a depth. *)
Definition secured_inv (s : State) : Prop :=
  ∀ k sa, securedAssets s !! k = Some sa → k = GetKey (SecuredAsset_Key sa) ∧ 0 ≤ sa_depth sa.

Lemma secured_idem a : Assets.GetSecuredAsset (Assets.GetSecuredAsset a) = Assets.GetSecuredAsset a.
Proof. unfold Assets.GetSecuredAsset. by destruct (Secured a) eqn:E; rewrite ?E. Qed.

Lemma secured_not_switch a : Assets.IsSwitch (Assets.GetSecuredAsset a) = false.
Proof.
  unfold Assets.IsSwitch, Assets.Equals, Assets.GetSecuredAsset.
  destruct (Secured a) eqn:E; cbn; rewrite ?E; cbn; by rewrite !andb_false_r.
Qed.

Lemma stored_secured_key s a :
  secured_inv s →
  GetKey (SecuredAsset_Key (stored_secured s a)) = GetKey (Assets.Str (Assets.GetSecuredAsset a)) ∧
  0 ≤ depth s a.
Proof.
  intros Hinv. unfold depth, stored_secured.
  destruct (securedAssets s !! _) as [sa|] eqn:Hl; cbn; [|done].
  by destruct (Hinv _ _ Hl) as [<- ?].
Qed.

(** The state and the result after the record is written back with [d]. *)
Lemma secured_write s s' a d :
  secured_inv s → 0 ≤ d →
  securedAssets s' =
    <[GetKey (SecuredAsset_Key (mkSecuredAsset (sa_asset (stored_secured s a)) d)) :=
        mkSecuredAsset (sa_asset (stored_secured s a)) d]> (securedAssets s) →
  secured_inv s' ∧ depth s' a = d.
Proof.
  intros Hinv Hd Hs'. destruct (stored_secured_key s a Hinv) as [Hk _].
  change (SecuredAsset_Key (mkSecuredAsset (sa_asset (stored_secured s a)) d))
    with (SecuredAsset_Key (stored_secured s a)) in Hs'.
  split.
  - intros k sa. rewrite Hs'. intros [[<- <-]|[_ Hl]]%lookup_insert_Some; [done|by apply Hinv].
  - unfold depth. unfold stored_secured at 1. rewrite Hs', Hk, lookup_insert_eq. done.
Qed.

Lemma calcMintAmt_fair oldUnits d add :
  0 ≤ oldUnits < 2 ^ 100 → 0 ≤ d < 2 ^ 100 → 0 ≤ add < 2 ^ 100 → add ≤ 10 ^ 18 * d →
  let m := calcMintAmt oldUnits d add in
  0 ≤ m ∧ (0 < oldUnits → 0 < d →
    10 ^ 18 * Z.abs (m * d - oldUnits * add) ≤ 10 ^ 18 * d + (m + 1) * add).
Proof.
  intros Hu Hd Ha Hb m. unfold m, calcMintAmt.
  destruct (Z.eqb_spec oldUnits 0) as [|_]; cbn [orb]; [lia|].
  destruct (Z.eqb_spec d 0) as [|_]; cbn [orb]; [lia|].
  destruct (Z.eqb_spec add 0) as [->|].
  - split; [reflexivity|]. intros. replace (0 * d - oldUnits * 0) with 0 by ring. cbn [Z.abs]. lia.
  - destruct (uncapped_share_error add d oldUnits) as [Hp He]; [lia..|]. split; [exact Hp|].
    intros _ _. exact He.
Qed.

(** [GetSecuredAssetStatus] reads the record and the supply of shares. *)
Lemma status_ok s a pool supply s' :
  GetSecuredAssetStatus a s = (Ok (pool, supply), s') → no_ragnarok s a →
  s' = s ∧ pool = stored_secured s a ∧ supply = shares s a ∧ supply < 2 ^ 64.
Proof.
  unfold GetSecuredAssetStatus, GetSecuredAsset, GetShareSupply. intros Hok Hr. ok_inv.
  unfold gets in *. simplify_eq.
  match goal with Ht : GetTotalSupply _ _ = _ |- _ =>
    apply GetTotalSupply_ok in Ht as (-> & ? & Ht); specialize (Ht Hr) as -> end.
  injection Hok as <- <- <-. split_and!; (done || lia).
Qed.

Lemma halt_ok ctx s u s' :
  CheckHalt ctx s = (Ok u, s') →
  s' = s ∧ let m := default (-1) (mimirs s !! "HALTSECUREDGLOBAL") in m ≤ 0 ∨ BlockHeight ctx < m.
Proof.
  unfold CheckHalt, GetMimir, gets, mbind, M_bind, fail_when, lift, fail_if.
  change (GetKey "HaltSecuredGlobal") with "HALTSECUREDGLOBAL".
  destruct (Z.ltb_spec 0 (default (-1) (mimirs s !! "HALTSECUREDGLOBAL")));
  destruct (Z.leb_spec (default (-1) (mimirs s !! "HALTSECUREDGLOBAL")) (BlockHeight ctx));
    intros [= <-]; split; try done; cbn; lia.
Qed.

(** A deposit mints to the owner, and to nobody else, shares in proportion to
    what it adds to the depth: the value of a share before and after differs by
    the rounding of one [GetUncappedShare]. *)
Theorem SA_Deposit_mints_proportionally ctx a amount owner assetAddr txID s coin s' :
  secured_inv s → no_ragnarok s a → 0 ≤ amount < 2 ^ 100 → depth s a < 2 ^ 100 →
  amount ≤ 10 ^ 18 * depth s a ∨ depth s a = 0 → 0 ≤ shares s a →
  SA_Deposit ctx a amount owner assetAddr txID s = (Ok coin, s') →
  ∃ minted, 0 < minted ∧ coin = (Assets.Native (Assets.GetSecuredAsset a), minted) ∧
    secured_inv s' ∧ depth s' a = depth s a + amount ∧
    shares s' a = shares s a + minted ∧
    shares_of s' owner a = shares_of s owner a + minted ∧
    (∀ other, other ≠ owner → shares_of s' other a = shares_of s other a) ∧
    (shares s a = 0 ∨ depth s a = 0 → minted = amount) ∧
    (0 < shares s a → 0 < depth s a →
     10 ^ 18 * Z.abs (minted * depth s a - shares s a * amount)
       ≤ 10 ^ 18 * depth s a + (minted + 1) * amount).
Proof.
  intros Hinv Hr Ha Hd Hb Hsh0 Hok. unfold SA_Deposit in Hok. run_inv.
  match goal with Hh : CheckHalt _ _ = _ |- _ => apply halt_ok in Hh as [-> _] end.
  match goal with Hst : GetSecuredAssetStatus _ _ = (Ok ?p, _) |- _ =>
    destruct p as [pool supply]; rename Hst into Hstat end.
  apply status_ok in Hstat as (-> & -> & -> & Hlt);
    [|by unfold no_ragnarok; rewrite secured_idem].
  assert (stored_secured s (Assets.GetSecuredAsset a) = stored_secured s a) as Hss
    by (unfold stored_secured; by rewrite secured_idem).
  assert (shares s (Assets.GetSecuredAsset a) = shares s a) as Hsh
    by (unfold shares; by rewrite secured_idem).
  rewrite Hss, Hsh in *. fold (depth s a) in Hok. unfold SetSecuredAsset, EmitEvent in Hok.
  set (minted := calcMintAmt (shares s a) (depth s a) amount) in *.
  run_inv.
  match goal with Hm : MintAndSendToAccount _ _ _ = _ |- _ =>
    apply MintAndSendToAccount_ok in Hm as (b & m & -> & Hpos & Hsup & Hbal);
      [|apply secured_not_switch] end.
  match goal with Hu : uadd _ _ = _ |- _ => apply uadd_inv in Hu as [-> Hrange] end.
  unfold Coin_Native in Hok. destruct (negb _); [done|]. injection Hok as <-.
  cbn [coin_amount coin_asset NewCoin] in *. exists minted.
  destruct (stored_secured_key s a Hinv) as [_ Hd0].
  match goal with |- context [secured_inv ?s1] => assert (secured_inv s1 ∧ depth s1 a = depth s a + amount)
    as [Hinv' Hdep] by (apply (secured_write s); [exact Hinv|lia|reflexivity]) end.
  split; [exact Hpos|]. split; [reflexivity|]. split; [exact Hinv'|]. split; [exact Hdep|].
  unfold shares, shares_of. cbn [bank put_bank put_events put_securedAssets].
  rewrite Hsup. rewrite !Hbal. rewrite decide_True by done. rewrite decide_True by done.
  split_and!; [done|done| | |].
  - intros other Hne. rewrite Hbal, decide_False by naive_solver. lia.
  - fold (shares s a). unfold minted, calcMintAmt. intros [->| ->]; cbn [Z.eqb orb]; [done|].
    by rewrite orb_true_r.
  - fold (shares s a). intros. apply calcMintAmt_fair; lia.
Qed.

Lemma withdraw_amounts s owner a amount :
  secured_inv s → depth s a < 2 ^ 100 → shares s a < 2 ^ 64 →
  shares_of s owner a ≤ shares s a → 0 ≤ amount →
  let burnt := GetSafeShare amount (redeemable s owner a) (shares_of s owner a) in
  let tokens := GetSafeShare burnt (shares_of s owner a) (redeemable s owner a) in
  0 ≤ redeemable s owner a ≤ depth s a ∧ 0 ≤ burnt ≤ shares_of s owner a ∧
  0 ≤ tokens ≤ redeemable s owner a ∧
  (0 < redeemable s owner a → redeemable s owner a ≤ amount →
   burnt = shares_of s owner a ∧ (0 < burnt → tokens = redeemable s owner a)).
Proof.
  intros Hinv Hd Hs Hle Ha burnt tokens.
  destruct (stored_secured_key s a Hinv) as [_ Hd0].
  assert (Hso : 0 ≤ shares_of s owner a) by apply bank_balance_nonneg.
  assert (0 ≤ redeemable s owner a ≤ depth s a) by (apply GetSafeShare_le; lia).
  assert (0 ≤ burnt ≤ shares_of s owner a) by (apply GetSafeShare_le; lia).
  split_and!; try lia; try (apply GetSafeShare_le; lia).
  intros. assert (burnt = shares_of s owner a) as Hb by (apply GetSafeShare_all; lia).
  split; [exact Hb|]. intros. unfold tokens. rewrite Hb. apply GetSafeShare_all; lia.
Qed.

(** A withdrawal burns shares of the owner, and of nobody else, and hands out
    [tokens] of the layer-1 asset: never more than the owner's part of the depth,
    all of it when the request covers it, and exactly what the depth loses. *)
Theorem SA_Withdraw_pays_the_share ctx a amount owner assetAddr txID s coin s' :
  secured_inv s → no_ragnarok s a → depth s a < 2 ^ 100 →
  shares_of s owner a ≤ shares s a → 0 ≤ amount →
  SA_Withdraw ctx a amount owner assetAddr txID s = (Ok coin, s') →
  ∃ burnt tokens, coin = NewCoin (Assets.GetLayer1Asset a) tokens ∧
    0 < burnt ≤ shares_of s owner a ∧
    0 ≤ tokens ≤ redeemable s owner a ∧ redeemable s owner a ≤ depth s a ∧
    secured_inv s' ∧ depth s' a = depth s a - tokens ∧
    shares s' a = shares s a - burnt ∧ shares_of s' owner a = shares_of s owner a - burnt ∧
    (∀ other, other ≠ owner → shares_of s' other a = shares_of s other a) ∧
    (0 < redeemable s owner a → redeemable s owner a ≤ amount →
     tokens = redeemable s owner a ∧ shares_of s' owner a = 0).
Proof.
  intros Hinv Hr Hd Hle Ha Hok. unfold SA_Withdraw in Hok. run_inv.
  match goal with Hh : CheckHalt _ _ = _ |- _ => apply halt_ok in Hh as [-> _] end.
  match goal with Hn : negb (Secured a) = false |- _ => apply negb_false_iff in Hn as Hsec end.
  match goal with Hst : GetSecuredAssetStatus _ _ = (Ok ?p, _) |- _ =>
    destruct p as [pool supply]; rename Hst into Hstat end.
  apply status_ok in Hstat as (-> & -> & -> & Hlt); [|exact Hr].
  assert (Hid : Assets.GetSecuredAsset a = a) by (unfold Assets.GetSecuredAsset; by rewrite Hsec).
  unfold GetBalanceOf, SetSecuredAsset, EmitEvent in Hok. run_inv.
  pose proof (withdraw_amounts s owner a amount Hinv Hd Hlt Hle Ha) as (Hav & Hbn & Htk & Hall).
  assert (bank_balance (bank s) (User_acc owner) (Assets.Native a) = shares_of s owner a) as Hso
    by (unfold shares_of; by rewrite Hid).
  rewrite Hso in *. change (GetSafeShare _ (shares s a) (sa_depth (stored_secured s a)))
    with (redeemable s owner a) in *.
  set (burnt := GetSafeShare amount _ _) in *. set (tokens := GetSafeShare burnt _ _) in *.
  match goal with Hsend : SendFromAccountToModule _ _ _ _ = _, Hburn : BurnFromModule _ _ _ = _ |- _ =>
    destruct (send_and_burn_ok _ _ _ _ _ _ _ Hsend Hburn) as (b & -> & Hpos & Hsup & Hbal) end.
  match goal with Hu : SafeSub _ _ = _ |- _ => fold (depth s a) in Hu;
    apply SafeSub_inv in Hu as ->; [|lia|lia] end.
  rewrite Z.max_r by lia. exists burnt, tokens.
  split; [reflexivity|]. split; [lia|]. split; [exact Htk|]. split; [apply Hav|].
  match goal with |- context [secured_inv ?s1] => assert (secured_inv s1 ∧ depth s1 a = depth s a - tokens)
    as [Hinv' Hdep] by (apply (secured_write s); [exact Hinv|lia|reflexivity]) end.
  split; [exact Hinv'|]. split; [exact Hdep|].
  unfold shares, shares_of. cbn [bank put_bank put_events put_securedAssets]. rewrite Hid.
  rewrite Hsup. rewrite !Hbal. rewrite decide_True by done. rewrite decide_True by done.
  split_and!; [reflexivity|reflexivity| |].
  - intros other Hne. rewrite Hbal, decide_False by naive_solver. lia.
  - intros Hp Hc. destruct (Hall Hp Hc) as [Hb Ht]. split; [apply Ht; lia|]. lia.
Qed.

(** From the height the global halt names, neither deposits nor withdrawals
    change anything. *)
Theorem secured_halt_stops_deposits_and_withdrawals ctx s a amount owner assetAddr txID :
  0 < default (-1) (mimirs s !! "HALTSECUREDGLOBAL") ≤ BlockHeight ctx →
  SA_Deposit ctx a amount owner assetAddr txID s = (Err "secured assets are disabled", s) ∧
  SA_Withdraw ctx a amount owner assetAddr txID s = (Err "secured assets are disabled", s).
Proof.
  intros [Hm Hh].
  assert (CheckHalt ctx s = (Err "secured assets are disabled", s)) as Hc.
  { unfold CheckHalt, GetMimir, gets, mbind, M_bind, fail_when, lift, fail_if.
    change (GetKey "HaltSecuredGlobal") with "HALTSECUREDGLOBAL".
    by rewrite (proj2 (Z.ltb_lt _ _) Hm), (proj2 (Z.leb_le _ _) Hh). }
  unfold SA_Deposit, SA_Withdraw, mbind, M_bind. rewrite Hc. done.
Qed.
End SecuredAssets.

(** ** Witnesses *)

#[local] Existing Instance idle_managers.

Definition BTC_secured : Asset := mkAsset "BTC" "BTC" "BTC" false false true.
Definition sa_block : Ctx :=
  mkCtx 8 3 "0123456789ABCDEF0123456789ABCDEF0123456789ABCDEF0123456789ABCDEF".
(** The owner holds half of the 600 shares of a depth of 900. *)
Definition sa_state : State :=
  put_securedAssets {["BTC-BTC" := mkSecuredAsset BTC_secured 900]}
    (put_bank (BankRef.mkLedger {[(User_acc "owner", "btc-btc") := 300]} {["btc-btc" := 600]})
       empty_state).

Lemma sa_state_inv : secured_inv sa_state.
Proof.
  intros k sa. cbn [sa_state put_securedAssets securedAssets].
  intros [<- <-]%lookup_singleton_Some. by split.
Qed.

Lemma SA_Deposit_mints_proportionally_witness :
  ∃ coin s', SA_Deposit sa_block BTCAsset 90 "owner" "bc1" "TX" sa_state = (Ok coin, s') ∧
    coin = ("btc-btc", 60) ∧ depth s' BTCAsset = 990.
Proof.
  assert (fst (SA_Deposit sa_block BTCAsset 90 "owner" "bc1" "TX" sa_state) = Ok ("btc-btc", 60))
    as Hok by (vm_compute; reflexivity).
  eexists _, _. split; [exact (run_pair _ _ Hok)|]. split; [reflexivity|].
  destruct (SA_Deposit_mints_proportionally sa_block BTCAsset 90 "owner" "bc1" "TX" sa_state _ _
    sa_state_inv ltac:(vm_compute; discriminate) ltac:(lia) ltac:(vm_compute; reflexivity)
    ltac:(left; vm_compute; discriminate) ltac:(vm_compute; discriminate) (run_pair _ _ Hok))
    as (minted & _ & _ & _ & Hd & _).
  rewrite Hd. vm_compute. reflexivity.
Defined.

Lemma SA_Withdraw_pays_the_share_witness :
  ∃ coin s', SA_Withdraw sa_block BTC_secured 150 "owner" "bc1" "TX" sa_state = (Ok coin, s') ∧
    ∃ burnt tokens, coin = NewCoin BTCAsset tokens ∧ 0 < burnt ≤ 300 ∧
      depth s' BTC_secured = 900 - tokens.
Proof.
  assert (fst (SA_Withdraw sa_block BTC_secured 150 "owner" "bc1" "TX" sa_state) =
    Ok (NewCoin BTCAsset 150)) as Hok by (vm_compute; reflexivity).
  eexists _, _. split; [exact (run_pair _ _ Hok)|].
  destruct (SA_Withdraw_pays_the_share sa_block BTC_secured 150 "owner" "bc1" "TX" sa_state _ _
    sa_state_inv ltac:(vm_compute; discriminate) ltac:(vm_compute; reflexivity)
    ltac:(vm_compute; discriminate) ltac:(lia) (run_pair _ _ Hok))
    as (burnt & tokens & Hc & Hb & _ & _ & _ & Hd & _).
  exists burnt, tokens. split; [exact Hc|]. split; [exact Hb|exact Hd].
Defined.

Lemma secured_halt_stops_deposits_and_withdrawals_witness :
  SA_Withdraw sa_block BTC_secured 150 "owner" "bc1" "TX"
    (put_mimirs {["HALTSECUREDGLOBAL" := 8]} sa_state) =
  (Err "secured assets are disabled", put_mimirs {["HALTSECUREDGLOBAL" := 8]} sa_state).
Proof.
  apply (secured_halt_stops_deposits_and_withdrawals sa_block).
  vm_compute. split; [reflexivity|discriminate].
Defined.
