(* ===== verification/Streaming.v ===== *)
(** * Streaming swaps

    src/x/switchly/types/type_streaming_swap.go: a swap executed in several
    sub-swaps, with the updates the swap handler (src/x/switchly/handler_swap.go)
    and the swap queue (src/x/switchly/manager_swap_queue_current.go) make to its
    record around each attempt. *)

From S2P Require Import Prelude CosmosMath Amounts.
Open Scope Z_scope.

Record StreamingSwap := mkStreamingSwap {
  ss_TxID : string;
  Interval : Z;
  Quantity : Z;
  Count : Z;
  LastHeight : Z;
  ss_TradeTarget : Z;
  ss_Deposit : Z;
  In : Z;
  Out : Z;
  FailedSwaps : list Z;
  FailedSwapReasons : list string;
}.

Definition NewStreamingSwap (hash : string) (quan interval target deposit : Z) : StreamingSwap :=
  mkStreamingSwap hash interval quan 0 0 target deposit 0 0 [] [].

Section Streaming.
  Context `{CosmosMath}.

Definition SS_Valid (m : StreamingSwap) : option error :=
  if Quantity m <? 1 then Some "quantity cannot be less than 1"
  else if Interval m <? 1 then Some "interval cannot be less than 1"
  else if ss_Deposit m =? 0 then Some "deposit amount cannot be zero"
  else None.

Definition DefaultSwapSize (m : StreamingSwap) : outcome Z :=
  if Quantity m =? 0 then Ok 0 else uquo (ss_Deposit m) (Quantity m).

Definition IsDone (m : StreamingSwap) : bool := Quantity m <=? Count m.
(** [m.Count+1 >= m.Quantity], on [uint64]s *)
Definition IsLastSwap (m : StreamingSwap) : bool := Quantity m <=? to_u64 (Count m + 1).

Definition NextSize (m : StreamingSwap) : outcome (Z * Z) :=
  swapSize ← DefaultSwapSize m;
  total ← uadd (In m) swapSize;
  swapSize ←
    (if (ss_Deposit m <? total) || IsLastSwap m then SafeSub (ss_Deposit m) (In m)
     else Ok swapSize);
  remainingIn ← SafeSub (ss_Deposit m) (In m);
  remainingOut ← SafeSub (ss_TradeTarget m) (Out m);
  Ok (swapSize, GetSafeShare swapSize remainingIn remainingOut).

(** One attempt, with the amount the swap emitted or the error of the handler:
    [In] and [Out] grow only by a successful sub-swap (handler_swap.go), the
    count by every attempt (manager_swap_queue_current.go). *)
Definition record_attempt (height : Z) (res : Z + error) (m : StreamingSwap) : outcome StreamingSwap :=
  '(size, _) ← NextSize m;
  let count := to_u64 (Count m + 1) in
  match res with
  | inl emit =>
      in' ← uadd (In m) size;
      out ← uadd (Out m) emit;
      Ok (mkStreamingSwap (ss_TxID m) (Interval m) (Quantity m) count height (ss_TradeTarget m)
            (ss_Deposit m) in' out (FailedSwaps m) (FailedSwapReasons m))
  | inr e =>
      Ok (mkStreamingSwap (ss_TxID m) (Interval m) (Quantity m) count height (ss_TradeTarget m)
            (ss_Deposit m) (In m) (Out m) (FailedSwaps m ++ [count])%list
            (FailedSwapReasons m ++ [e])%list)
  end.

(** The attempts of a stream, one per element, until it is done. *)
Fixpoint run_attempts (results : list (Z * (Z + error))) (m : StreamingSwap) : outcome StreamingSwap :=
  match results with
  | [] => Ok m
  | (height, res) :: results' =>
      if IsDone m then Ok m else m' ← record_attempt height res m; run_attempts results' m'
  end.

(** What is sent back when the stream is done ([swp.Deposit.GT(swp.In)]). *)
Definition remainder (m : StreamingSwap) : outcome Z :=
  if In m <? ss_Deposit m then SafeSub (ss_Deposit m) (In m) else Ok 0.

(** ** Facts *)

Record stream_wf (m : StreamingSwap) : Prop := {
  sw_quantity : 1 ≤ Quantity m < 2 ^ 64;
  sw_count : 0 ≤ Count m ≤ Quantity m;
  sw_deposit : 0 ≤ ss_Deposit m ≤ uint_max `div` 2;
  sw_target : 0 ≤ ss_TradeTarget m ≤ uint_max;
  sw_in : 0 ≤ In m ≤ ss_Deposit m;
  sw_out : 0 ≤ Out m ≤ uint_max;
}.

Lemma IsLastSwap_spec m : stream_wf m → Count m < Quantity m →
  IsLastSwap m = true ↔ Count m + 1 = Quantity m.
Proof.
  intros [Hq Hc _ _ _ _] Hlt. unfold IsLastSwap. rewrite to_u64_id by lia.
  rewrite Z.leb_le. lia.
Qed.

(** The size of the next sub-swap is the default one, or what remains of the
    deposit: at the last swap, or when the default would exceed the deposit. *)
Lemma NextSize_ok m : stream_wf m → Count m < Quantity m →
  ∃ size target, NextSize m = Ok (size, target) ∧ 0 ≤ size ≤ ss_Deposit m - In m ∧
    (size = ss_Deposit m / Quantity m ∨ size = ss_Deposit m - In m) ∧
    (Count m + 1 = Quantity m → size = ss_Deposit m - In m).
Proof.
  intros Hwf Hlt. pose proof (IsLastSwap_spec m Hwf Hlt) as Hlast. destruct Hwf as [Hq Hc Hd Ht Hi Ho].
  unfold NextSize, DefaultSwapSize. destruct (Z.eqb_spec (Quantity m) 0) as [|_]; [lia|].
  assert (uint_max `div` 2 ≤ uint_max ∧ uint_max `div` 2 + uint_max `div` 2 ≤ uint_max) as [? ?]
    by (split; apply Z.leb_le; reflexivity).
  rewrite uquo_ok by lia. cbn [mbind outcome_bind].
  assert (0 ≤ ss_Deposit m / Quantity m ≤ ss_Deposit m) as Hsz.
  { split; [apply Z.div_pos; lia|]. apply Z.div_le_upper_bound; [lia|nia]. }
  rewrite uadd_ok by lia. cbn [mbind outcome_bind].
  rewrite !SafeSub_ok by lia.
  destruct (Z.ltb_spec (ss_Deposit m) (In m + ss_Deposit m / Quantity m)); cbn [orb mbind outcome_bind].
  - eexists _, _. split; [reflexivity|]. split_and!; lia.
  - destruct (IsLastSwap m); cbn [mbind outcome_bind].
    + eexists _, _. split; [reflexivity|]. split_and!; lia.
    + eexists _, _. split; [reflexivity|]. split_and!; lia.
Qed.

(** What the successful attempts emit, and the number of failed ones. *)
Definition is_inl {A B} (x : A + B) : bool := match x with inl _ => true | inr _ => false end.
Definition emitted (results : list (Z * (Z + error))) : Z :=
  sumZ ((λ r, match r.2 with inl e => e | inr _ => 0 end) <$> results).
Definition failures (results : list (Z * (Z + error))) : nat :=
  length (List.filter (λ r, match r.2 with inl _ => false | inr _ => true end) results).
Definition emits_nonneg (results : list (Z * (Z + error))) : Prop :=
  Forall (λ r, match r.2 with inl e => 0 ≤ e | inr _ => True end) results.

Lemma emitted_cons r results :
  emitted (r :: results) = (match r.2 with inl e => e | inr _ => 0 end) + emitted results.
Proof. done. Qed.
Lemma failures_cons r results :
  failures (r :: results) = ((match r.2 with inl _ => 0 | inr _ => 1 end) + failures results)%nat.
Proof. unfold failures. cbn. by destruct r.2. Qed.

Lemma record_attempt_ok height res m :
  stream_wf m → Count m < Quantity m →
  match res with inl e => 0 ≤ e ∧ Out m + e ≤ uint_max | inr _ => True end →
  ∃ m', record_attempt height res m = Ok m' ∧ stream_wf m' ∧
    Quantity m' = Quantity m ∧ Count m' = Count m + 1 ∧ ss_Deposit m' = ss_Deposit m ∧
    Out m' = Out m + match res with inl e => e | inr _ => 0 end ∧
    length (FailedSwaps m') = (length (FailedSwaps m) + match res with inl _ => 0 | inr _ => 1 end)%nat ∧
    (Count m + 1 = Quantity m → is_inl res = true → In m' = ss_Deposit m).
Proof.
  intros Hwf Hlt He. destruct (NextSize_ok m Hwf Hlt) as (size & target & Hn & Hs & _ & Hl).
  destruct Hwf as [Hq Hc Hd Ht Hi Ho]. unfold record_attempt. rewrite Hn. cbn [mbind outcome_bind].
  assert (uint_max `div` 2 ≤ uint_max) by (apply Z.leb_le; reflexivity).
  rewrite to_u64_id by lia. destruct res as [e|e].
  - rewrite !uadd_ok by lia. cbn [mbind outcome_bind]. eexists. split; [reflexivity|].
    split; [constructor; cbn; lia|]. cbn. split_and!; lia.
  - eexists. split; [reflexivity|]. split; [constructor; cbn; lia|]. cbn.
    rewrite length_app. cbn. split_and!; lia || done.
Qed.

(** Whatever sub-swaps fail, a stream is done after [Quantity] attempts and
    takes no further ones; what was swapped and what is sent back add up to the
    deposit, and everything is swapped when the last sub-swap succeeds. *)
Theorem streaming_swap_uses_the_deposit m results :
  stream_wf m → (Z.to_nat (Quantity m - Count m) ≤ length results)%nat →
  emits_nonneg results → Out m + emitted results ≤ uint_max →
  let attempts := take (Z.to_nat (Quantity m - Count m)) results in
  ∃ m' rem, run_attempts results m = Ok m' ∧ IsDone m' = true ∧
    remainder m' = Ok rem ∧ 0 ≤ In m' ∧ 0 ≤ rem ∧ In m' + rem = ss_Deposit m ∧
    Out m' = Out m + emitted attempts ∧
    length (FailedSwaps m') = (length (FailedSwaps m) + failures attempts)%nat ∧
    (∀ h e, list.last attempts = Some (h, inl e) → rem = 0).
Proof.
  intros Hwf Hlen Hnn Hmax attempts. unfold attempts. clear attempts.
  revert m Hwf Hlen Hmax. induction Hnn as [|[h res] results He Hnn IH]; intros m Hwf Hlen Hmax.
  all: assert (uint_max `div` 2 ≤ uint_max) by (apply Z.leb_le; reflexivity).
  all: pose proof Hwf as [Hq Hc Hd Ht Hi Ho].
  all: assert (Hrem : remainder m = Ok (ss_Deposit m - In m)).
  1,3: unfold remainder; destruct (Z.ltb_spec (In m) (ss_Deposit m));
    [rewrite SafeSub_ok by lia; f_equal; lia|f_equal; lia].
  - assert (Z.to_nat (Quantity m - Count m) = 0%nat) as Hz by (cbn in Hlen; lia).
    rewrite Hz. cbn. exists m, (ss_Deposit m - In m).
    unfold IsDone, emitted, failures. split_and!; try done; try (apply Z.leb_le); cbn; lia.
  - cbn [run_attempts]. unfold IsDone at 1. destruct (Z.leb_spec (Quantity m) (Count m)).
    + assert (Z.to_nat (Quantity m - Count m) = 0%nat) as Hz by lia. rewrite Hz. cbn.
      exists m, (ss_Deposit m - In m). unfold IsDone, emitted, failures.
      split_and!; try done; try (apply Z.leb_le); cbn; lia.
    + assert (Hem : 0 ≤ emitted results).
      { apply sumZ_nonneg, Forall_fmap. revert Hnn. apply Forall_impl. intros [? []]; cbn; lia. }
      rewrite emitted_cons in Hmax. cbn [snd] in *.
      destruct (record_attempt_ok h res m Hwf) as (m1 & Hm1 & Hwf1 & Hq1 & Hc1 & Hd1 & Ho1 & Hf1 & Hl1);
        [lia|destruct res; lia|].
      rewrite Hm1. cbn [mbind outcome_bind].
      assert (Hk : Z.to_nat (Quantity m - Count m) = S (Z.to_nat (Quantity m1 - Count m1))) by lia.
      cbn in Hlen. destruct (IH m1 Hwf1) as (m' & rem & Hr & Hdone & Hrm & Hi' & Hr0 & Hsum & Hout & Hf & Hla);
        [lia|destruct res; lia|].
      exists m', rem. rewrite Hk, <- Hd1. cbn [firstn take]. split_and!; try done.
      * rewrite Hout, Ho1, emitted_cons. cbn [snd]. lia.
      * rewrite Hf, Hf1, failures_cons. cbn [snd]. lia.
      * intros h' e'. destruct (Z.to_nat (Quantity m1 - Count m1)) as [|k] eqn:Hkk.
        -- cbn. intros [= -> ->]. assert (In m1 = ss_Deposit m) by (apply Hl1; [lia|done]).
           assert (run_attempts results m1 = Ok m1) as E.
           { destruct results as [|[]]; [done|]. cbn. unfold IsDone.
             by rewrite (proj2 (Z.leb_le _ _)) by lia. }
           rewrite E in Hr. injection Hr as <-. lia.
        -- destruct results as [|r results]; [cbn in Hlen; lia|]. cbn [take]. intros Hl.
           apply (Hla h' e'). done.
Qed.
End Streaming.

Definition example_stream : StreamingSwap := NewStreamingSwap "TX" 3 1 0 100.
Definition example_attempts : list (Z * (Z + error)) := [(5, inl 30); (6, inr "halted"); (7, inl 60)].

Lemma streaming_swap_uses_the_deposit_witness :
  ∃ m', run_attempts example_attempts example_stream = Ok m' ∧ remainder m' = Ok 0 ∧
    In m' + 0 = 100 ∧ Out m' = 0 + emitted example_attempts.
Proof.
  destruct (streaming_swap_uses_the_deposit example_stream example_attempts)
    as (m' & rem & Hr & _ & Hrem & _ & _ & Hsum & Hout & _ & Hla).
  - constructor; cbn; split; try lia; apply Z.leb_le; reflexivity.
  - cbn. lia.
  - repeat constructor; cbn; lia.
  - apply Z.leb_le. reflexivity.
  - assert (rem = 0) as Hz by (apply (Hla 7 60); reflexivity).
    rewrite Hz in *. exists m'. split_and!; [exact Hr|exact Hrem|exact Hsum|exact Hout].
Defined.
