(* ===== verification/Swap.v ===== *)
(** * Swaps

    src/x/switchly/swap_current.go: the arithmetic of a swap against a pool of
    depths [X] and [Y], a single swap of the pool's asset against SWITCH
    ([swapOne]) with everything it changes in the store and the bank, and the
    message-level [Swap] made of one or two of them. *)

From S2P Require Import Prelude CosmosMath Amounts GoStrings Assets Coins Pools Constants State Txs TradeAccounts SecuredAssets Streaming.
Open Scope Z_scope.

Section SwapArithmetic.
  Context `{CosmosMath}.

(** ** Emission, fee and slip *)

Definition CalcAssetEmission (X x Y : Z) : outcome Z :=
  xX ← umul x X;
  numerator ← umul xX Y;
  d1 ← uadd x X;
  d2 ← uadd x X;
  denominator ← umul d1 d2;
  if denominator =? 0 then Ok 0 else uquo numerator denominator.

Definition CalcMaxAssetEmission (X x Y fee : Z) : outcome Z :=
  numerator ← umul x Y;
  denominator ← uadd x X;
  if denominator =? 0 then Ok 0
  else q ← uquo numerator denominator; SafeSub q fee.

Definition CalcLiquidityFee (X x Y : Z) : outcome Z :=
  xx ← umul x x;
  numerator ← umul xx Y;
  d1 ← uadd x X;
  d2 ← uadd x X;
  denominator ← umul d1 d2;
  if denominator =? 0 then Ok 0 else uquo numerator denominator.

Definition CalcMinLiquidityFee (X x Y minSlipBps : Z) : outcome Z :=
  xY ← umul x Y;
  let numerator := GetSafeShare minSlipBps MaxBasisPts xY in
  denominator ← uadd x X;
  if denominator =? 0 then Ok 0 else uquo numerator denominator.

Definition CalcSwapSlip (Xi xi : Z) : outcome Z :=
  xD ← dec_of_bigint xi;
  XD ← dec_of_bigint Xi;
  denD ← dec_add xD XD;
  if denD =? 0 then Ok 0
  else
    swapSlipD ← dec_quo xD denD;
    swapSlip ← dec_mul swapSlipD (10000 * dec_one);
    rounded ← dec_round_int swapSlip;
    i ← as_int64 rounded;
    Ok (to_u64 i).

(** [GetSwapCalc]: the emission, the liquidity fee and the slip. *)
Definition GetSwapCalc (X x Y slipBps minSlipBps : Z) : outcome (Z * Z * Z) :=
  if slipBps <? minSlipBps then
    liquidityFee ← CalcMinLiquidityFee X x Y minSlipBps;
    emitAssets ← CalcMaxAssetEmission X x Y liquidityFee;
    Ok (emitAssets, liquidityFee, minSlipBps)
  else
    liquidityFee ← CalcLiquidityFee X x Y;
    emitAssets ← CalcAssetEmission X x Y;
    Ok (emitAssets, liquidityFee, slipBps).

(** ** Facts *)

Lemma CalcAssetEmission_inv X x Y e :
  0 ≤ X → 0 ≤ x → 0 < x + X → 0 ≤ Y → CalcAssetEmission X x Y = Ok e → e = x * X * Y / ((x + X) * (x + X)).
Proof.
  intros HX Hx Hd HY Hok. unfold CalcAssetEmission in Hok. uint_inv.
  destruct (Z.eqb_spec ((x + X) * (x + X)) 0) as [|_]; [nia|]. uint_inv. reflexivity.
Qed.

Lemma CalcLiquidityFee_inv X x Y f :
  0 ≤ X → 0 ≤ x → 0 < x + X → 0 ≤ Y → CalcLiquidityFee X x Y = Ok f → f = x * x * Y / ((x + X) * (x + X)).
Proof.
  intros HX Hx Hd HY Hok. unfold CalcLiquidityFee in Hok. uint_inv.
  destruct (Z.eqb_spec ((x + X) * (x + X)) 0) as [|_]; [nia|]. uint_inv. reflexivity.
Qed.

Lemma CalcMinLiquidityFee_inv X x Y b f :
  0 ≤ X → 0 ≤ x → 0 < x + X → 0 ≤ Y → CalcMinLiquidityFee X x Y b = Ok f →
  f = GetSafeShare b MaxBasisPts (x * Y) / (x + X).
Proof.
  intros HX Hx Hd HY Hok. unfold CalcMinLiquidityFee in Hok. uint_inv.
  destruct (Z.eqb_spec (x + X) 0) as [|_]; [lia|].
  apply uquo_inv in Hok as (-> & _ & _); [done| |lia].
  unfold GetSafeShare. apply GetUncappedShare_range.
Qed.

Lemma CalcMaxAssetEmission_inv X x Y fee e :
  0 ≤ X → 0 ≤ x → 0 < x + X → 0 ≤ Y → 0 ≤ fee → CalcMaxAssetEmission X x Y fee = Ok e →
  e = Z.max 0 (x * Y / (x + X) - fee).
Proof.
  intros HX Hx Hd HY Hf Hok. unfold CalcMaxAssetEmission in Hok. uint_inv.
  destruct (Z.eqb_spec (x + X) 0) as [|_]; [lia|]. uint_inv.
  apply SafeSub_inv in Hok; [exact Hok|apply Z.div_pos; nia|lia].
Qed.

(** The constant-product output [x*Y/(x+X)] bounds what leaves the pool: the
    emission and the fee together. *)
Lemma emission_and_fee_le X x Y :
  0 ≤ X → 0 ≤ x → 0 < x + X → 0 ≤ Y →
  (x * X * Y / ((x + X) * (x + X)) + x * x * Y / ((x + X) * (x + X))) * (x + X) ≤ x * Y.
Proof.
  intros HX Hx Hd HY. set (d := x + X) in *.
  set (e := x * X * Y / (d * d)). set (f := x * x * Y / (d * d)).
  assert (e * (d * d) ≤ x * X * Y) by (rewrite Z.mul_comm; apply Z.mul_div_le; nia).
  assert (f * (d * d) ≤ x * x * Y) by (rewrite Z.mul_comm; apply Z.mul_div_le; nia).
  assert ((e + f) * (d * d) ≤ x * Y * d) by (unfold d in *; nia).
  nia.
Qed.

Lemma GetSwapCalc_bound X x Y slipBps minSlipBps e f slip :
  0 ≤ X → 0 ≤ x → 0 < x + X → 0 ≤ Y → x * Y < 2 ^ 180 → 0 ≤ minSlipBps →
  GetSwapCalc X x Y slipBps minSlipBps = Ok (e, f, slip) →
  0 ≤ e ∧ 0 ≤ f ∧ (e + f) * (x + X) ≤ x * Y ∧ slip = Z.max slipBps minSlipBps.
Proof.
  intros HX Hx Hd HY Hb Hm Hok. unfold GetSwapCalc in Hok.
  destruct (Z.ltb_spec slipBps minSlipBps).
  all: apply bind_ok in Hok as (fee & Hf & Hok); apply bind_ok in Hok as (emit & He & Hok);
    injection Hok as <- <- <-.
  - apply CalcMinLiquidityFee_inv in Hf as ->; [|lia..].
    pose proof (GetSafeShare_le minSlipBps MaxBasisPts (x * Y) ltac:(lia) ltac:(unfold MaxBasisPts; lia)
      ltac:(nia)) as Hs.
    set (g := GetSafeShare minSlipBps MaxBasisPts (x * Y)) in *. clearbody g.
    assert (0 ≤ g / (x + X)) by (apply Z.div_pos; lia).
    apply CalcMaxAssetEmission_inv in He as ->; [|lia..].
    assert (g / (x + X) ≤ x * Y / (x + X)) by (apply Z.div_le_mono; lia).
    pose proof (Z.mul_div_le (x * Y) (x + X) ltac:(lia)). split_and!; try lia; nia.
  - apply CalcLiquidityFee_inv in Hf as ->; [|lia..].
    apply CalcAssetEmission_inv in He as ->; [|lia..].
    pose proof (emission_and_fee_le X x Y HX Hx Hd HY).
    split_and!; [apply Z.div_pos; nia|apply Z.div_pos; nia|lia|lia].
Qed.

(** The slip is computed for all depths and amounts below 2^100; it is the
    nearest number of basis points to [x / (X + x)], up to the 18 decimals of the
    division, and lies within 0 .. 10000. *)
Theorem CalcSwapSlip_nearest X x :
  0 < X < 2 ^ 100 → 0 ≤ x < 2 ^ 100 →
  ∃ s, CalcSwapSlip X x = Ok s ∧ 0 ≤ s ≤ 10000 ∧
    2 * 10 ^ 18 * Z.abs (s * (X + x) - 10000 * x) ≤ (10 ^ 18 + 10001) * (X + x).
Proof.
  intros HX Hx. assert (Hd : dec_one = 10 ^ 18) by done. unfold CalcSwapSlip.
  rewrite !dec_of_bigint_law by lia. cbn [mbind outcome_bind].
  rewrite dec_add_law by (rewrite Hd; lia). cbn [mbind outcome_bind].
  set (d := X + x). replace (x * dec_one + X * dec_one) with (d * dec_one) by (unfold d; ring).
  destruct (Z.eqb_spec (d * dec_one) 0) as [|_]; [rewrite Hd in *; lia|].
  destruct (dec_quo_law (x * dec_one) (d * dec_one)) as (q & -> & Hq0 & Hq);
    [rewrite Hd; lia|rewrite Hd; lia|rewrite Hd; lia|]. cbn [mbind outcome_bind].
  assert (Hq' : 2 * dec_one * Z.abs (q * d - x * dec_one) ≤ (dec_one + 2) * d).
  { replace (q * (d * dec_one) - x * dec_one * dec_one)
      with ((q * d - x * dec_one) * dec_one) in Hq by ring.
    rewrite Z.abs_mul, (Z.abs_eq dec_one) in Hq by done. rewrite Hd in *. lia. }
  assert (Hqd : q ≤ dec_one + 1) by (rewrite Hd in *; nia).
  destruct (dec_mul_law q (10000 * dec_one)) as (m & -> & Hm0 & Hm);
    [lia|rewrite Hd; lia|rewrite Hd in *; lia|]. cbn [mbind outcome_bind].
  assert (m = q * 10000) as ->.
  { replace (m * dec_one - q * (10000 * dec_one)) with ((m - q * 10000) * dec_one) in Hm by ring.
    rewrite Z.abs_mul, (Z.abs_eq dec_one) in Hm by done. rewrite Hd in *. lia. }
  destruct (dec_round_int_law (q * 10000)) as (r & -> & Hr0 & Hr); [rewrite Hd in *; lia|].
  cbn [mbind outcome_bind].
  assert (Hr10 : r ≤ 10000) by (rewrite Hd in *; lia).
  unfold as_int64. rewrite (proj2 (Z.leb_le _ _)) by lia. rewrite (proj2 (Z.ltb_lt _ _)) by lia.
  cbn [andb mbind outcome_bind]. rewrite to_u64_id by lia. exists r. split; [reflexivity|].
  split; [lia|]. rewrite Hd in *.
  assert (H1 : 2 * Z.abs (r * 10 ^ 18 * d - q * 10000 * d) ≤ 10 ^ 18 * d).
  { replace (r * 10 ^ 18 * d - q * 10000 * d) with ((r * 10 ^ 18 - q * 10000) * d) by ring.
    rewrite Z.abs_mul, (Z.abs_eq d) by lia.
    pose proof (Z.mul_le_mono_nonneg_r _ _ d ltac:(lia) Hr). lia. }
  lia.
Qed.

(** Emission and fee together keep the product of the depths. *)
Lemma GetSwapCalc_product X x Y slipBps minSlipBps emit fee slip :
  0 ≤ X → 0 ≤ x → 0 < x + X → 0 ≤ Y → x * Y < 2 ^ 180 → 0 ≤ minSlipBps →
  GetSwapCalc X x Y slipBps minSlipBps = Ok (emit, fee, slip) →
  0 ≤ emit ∧ 0 ≤ fee ∧ emit + fee ≤ Y ∧ X * Y ≤ (X + x) * (Y - emit - fee) ∧
  (0 < X → 0 < Y → emit + fee < Y) ∧ slip = Z.max minSlipBps slipBps.
Proof.
  intros HX Hx Hd HY Hb Hm Hok.
  destruct (GetSwapCalc_bound X x Y slipBps minSlipBps emit fee slip HX Hx Hd HY Hb Hm Hok)
    as (He & Hf & Hle & ->).
  split_and!; try lia; nia.
Qed.

(** A swap never decreases the constant product of the depths it was computed
    from, even after its liquidity fee has been taken out as well; it never
    empties the pool; and the slip is never below the configured floor. *)
Theorem GetSwapCalc_keeps_the_product X x Y slipBps minSlipBps emit fee slip :
  0 < X → 0 < x → 0 < Y → x * Y < 2 ^ 180 → 0 ≤ minSlipBps →
  GetSwapCalc X x Y slipBps minSlipBps = Ok (emit, fee, slip) →
  0 ≤ emit ∧ 0 ≤ fee ∧ emit + fee < Y ∧ X * Y ≤ (X + x) * (Y - emit - fee) ∧
  minSlipBps ≤ slip ∧ slipBps ≤ slip.
Proof.
  intros HX Hx HY Hb Hm Hok.
  destruct (GetSwapCalc_product X x Y slipBps minSlipBps emit fee slip ltac:(lia) ltac:(lia)
    ltac:(lia) ltac:(lia) Hb Hm Hok) as (? & ? & ? & ? & Hlt & ->).
  specialize (Hlt HX HY). split_and!; lia.
Qed.
End SwapArithmetic.

(** ** A single swap *)

Definition errSwapFailInvalidAmount : error := "fail swap, invalid amount".
Definition errSwapFailInvalidBalance : error := "fail swap, invalid balance".
Definition errSwapFailNotEnoughBalance : error := "fail swap, not enough balance".

Definition NewEventSwap (pool : Asset) (swapTarget fee swapSlip liquidityFeeInSwitch : Z) (inTx : Tx)
    (emitAsset : Coin) : EventSwap :=
  mkEventSwap pool swapTarget swapSlip fee liquidityFeeInSwitch (tx_ID inTx) (tx_Coins inTx)
    emitAsset 0 0 0.

(** [tx.Coins[0]]: an index out of range panics. *)
Definition first_coin (tx : Tx) : outcome Coin :=
  match tx_Coins tx with c :: _ => Ok c | [] => Panic end.

Section Swap.
  Context `{CosmosMath} `{Bank} `{Env} `{!Managers}.

Definition getMinSlipBps (a : Asset) : K Z :=
  let ref :=
    if Synth a then "SynthSlipMinBps"
    else if Trade a then "TradeAccountsSlipMinBps"
    else if Assets.IsDerivedAsset a then "DerivedSlipMinBps"
    else if Secured a then "SecuredAssetSlipMinBps"
    else "L1SlipMinBps" in
  minFeeMimir ← GetConfigInt64 ref;
  mret (SafeUintFromInt64 minFeeMimir).

(** The amount the swap works with: what leaves the trade account or the
    secured asset when the source is one. *)
Definition swap_amount (ctx : Ctx) (tx : Tx) (source : Asset) (amount tradeAccountsEnabled : Z) : K Z :=
  amount ←
    (if Trade source then
       _ ← fail_when (tradeAccountsEnabled <=? 0) "trade accounts are disabled";
       fromAcc ← lift (AccAddressFromBech32 (FromAddress tx));
       Withdrawal ctx source amount fromAcc NoAddress (tx_ID tx)
     else mret amount);
  if Secured source then
    fromAcc ← lift (AccAddressFromBech32 (FromAddress tx));
    withdrawAmount ← SA_Withdraw ctx source amount fromAcc NoAddress (tx_ID tx);
    mret (coin_amount withdrawAmount)
  else mret amount.

(** Burning of the synth or derived input: a failure to burn is only logged. *)
Definition swap_burn (burnCoin : Coin) : K () :=
  _ ← SendFromModuleToModule AsgardName ModuleName [burnCoin];
  r ← attempt (BurnFromModule ModuleName burnCoin);
  match r with
  | inl _ => EmitEvent (EvBurn (Assets.Native (coin_asset burnCoin)) (coin_amount burnCoin) "swap")
  | inr _ => mret ()
  end.

(** Minting of the synth or derived output. *)
Definition swap_mint (mintCoin : Coin) : K () :=
  _ ← MintToModule ModuleName mintCoin;
  _ ← EmitEvent (EvMint (Assets.Native (coin_asset mintCoin)) (coin_amount mintCoin) "swap");
  SendFromModuleToModule ModuleName AsgardName [mintCoin].

(** The new depths: the asset depth only moves when the asset is not a synth. *)
Definition swap_depths (pool : Pool) (source target : Asset) (x emitAssets : Z) : outcome Pool :=
  if Assets.IsSwitch source then
    r ← uadd (BalanceSwitch pool) x;
    let pool := set_BalanceSwitch r pool in
    if Synth target then Ok pool
    else a ← SafeSub (BalanceAsset pool) emitAssets; Ok (set_BalanceAsset a pool)
  else
    r ← SafeSub (BalanceSwitch pool) emitAssets;
    let pool := set_BalanceSwitch r pool in
    if Synth source then Ok pool
    else a ← uadd (BalanceAsset pool) x; Ok (set_BalanceAsset a pool).

(** The liquidity fee in SWITCH, from the depths after the swap.  The asset
    depth is reduced by the fee and restored, which only matters when the first
    saturates. *)
Definition fee_in_switch (pool : Pool) (target : Asset) (liquidityFee : Z) : outcome (Pool * Z) :=
  if Assets.IsSwitch target then Ok (pool, liquidityFee)
  else
    a ← SafeSub (BalanceAsset pool) liquidityFee;
    let pool := set_BalanceAsset a pool in
    f ← SWITCHDisbursementForAssetAdd pool liquidityFee;
    a ← uadd (BalanceAsset pool) liquidityFee;
    Ok (set_BalanceAsset a pool, f).

(** The fee leaves the pool for the reserve, or for the module of the SWCY
    claims, and is counted with the slip. *)
Definition take_fee (ctx : Ctx) (pool : Pool) (feeInSwitch poolSlip : Z) : K Pool :=
  if Assets.IsDerivedAsset (pool_asset pool) then mret pool
  else
    pool ←
      (if feeInSwitch =? 0 then mret pool
       else
         r ← lift (SafeSub (BalanceSwitch pool) feeInSwitch);
         let liqFeeCoin := NewCoin SwitchNative feeInSwitch in
         let targetModule := if Assets.IsSWCY (pool_asset pool) then SWCYClaimingName else ReserveName in
         _ ← SendFromModuleToModule AsgardName targetModule [liqFeeCoin];
         _ ← (if Assets.IsSWCY (pool_asset pool) then mret ()
              else AddToLiquidityFees ctx (pool_asset pool) feeInSwitch);
         mret (set_BalanceSwitch r pool));
    slip ← lift (as_uint64 poolSlip);
    _ ← AddToSwapSlip ctx (pool_asset pool) (to_i64 slip);
    mret pool.

(** Half of the fee is clout of the sender, the rest of the destination. *)
Definition apply_clout (fee : Z) (from destination : string) : K () :=
  half ← lift (uquo fee 2);
  rest ← lift (SafeSub fee half);
  availableClout ←
    (if blank from then mret fee
     else
       clout ← GetSwapperClout from;
       score ← lift (uadd (Score clout) half);
       _ ← SetSwapperClout (mkClout (clout_address clout) score (Reclaimed clout) (Spent clout)
             (LastSpentHeight clout) (LastReclaimHeight clout));
       mret rest);
  if blank destination then mret ()
  else
    clout ← GetSwapperClout destination;
    score ← lift (uadd (Score clout) availableClout);
    SetSwapperClout (mkClout (clout_address clout) score (Reclaimed clout) (Spent clout)
      (LastSpentHeight clout) (LastReclaimHeight clout)).

(** The pool, with its synth units recomputed from the synth supply. *)
Definition calc_units (pool : Pool) : K Pool :=
  synthSupply ← GetTotalSupply (Assets.GetSyntheticAsset (pool_asset pool));
  r ← lift (CalcUnits pool synthSupply);
  mret (fst r).

(** Depths as the swap sees them: virtual ones when an asset is a synth. *)
Definition swap_XY (pool : Pool) (source target : Asset) (synthVirtualDepthMult : Z) : Z * Z :=
  let '(X, Y) := if Assets.IsSwitch source then (BalanceSwitch pool, BalanceAsset pool)
                 else (BalanceAsset pool, BalanceSwitch pool) in
  if Synth source || Synth target
  then (GetUncappedShare (to_u64 synthVirtualDepthMult) 10000 X,
        GetUncappedShare (to_u64 synthVirtualDepthMult) 10000 Y)
  else (X, Y).

Definition swapOne (ctx : Ctx) (tx : Tx) (target : Asset) (destination : string)
    (swapTarget synthVirtualDepthMult : Z) : K (Z * EventSwap) :=
  tradeAccountsEnabled ← GetConfigInt64 "TradeAccountsEnabled";
  tradeAccountsDepositEnabled ← GetConfigInt64 "TradeAccountsDepositEnabled";
  coin0 ← lift (first_coin tx);
  let source := coin_asset coin0 in
  let minSlipAsset := if Assets.IsSwitch source then target else source in
  let poolAsset := Assets.GetLayer1Asset minSlipAsset in
  amount ← swap_amount ctx tx source (coin_amount coin0) tradeAccountsEnabled;
  _ ← fail_when (Trade target && (tradeAccountsDepositEnabled <=? 0)) "trade accounts deposits are disabled";
  let evt := NewEventSwap poolAsset swapTarget 0 0 0 (set_tx_Coins [NewCoin source amount] tx) NoCoin in
  _ ← (if Assets.IsDerivedAsset poolAsset then SpawnDerivedAsset ctx poolAsset else mret ());
  exists_ ← PoolExist poolAsset;
  _ ← fail_when (negb exists_) "pool doesn't exist";
  pool ← GetPool poolAsset;
  _ ← fail_when (Synth (pool_asset pool)) "dev error: swapping with a vault is not allowed";
  pool ← calc_units pool;
  _ ← fail_when (negb (Synth source) && negb (IsAvailable pool)) "pool is not available";
  let '(X, Y) := swap_XY pool source target synthVirtualDepthMult in
  let x := amount in
  _ ← fail_when (x =? 0) errSwapFailInvalidAmount;
  _ ← fail_when ((X =? 0) || (Y =? 0)) errSwapFailInvalidBalance;
  swapSlipBps ← lift (CalcSwapSlip X x);
  minSlipBps ← getMinSlipBps minSlipAsset;
  calc ← lift (GetSwapCalc X x Y swapSlipBps minSlipBps);
  let '(emitAssets, liquidityFee, swapSlip) := calc in
  emitAssets ← lift (RoundToDecimal emitAssets (Decimals pool));
  _ ← fail_when (Y <=? emitAssets) errSwapFailNotEnoughBalance;
  _ ← (if Synth source || Assets.IsDerivedAsset (pool_asset pool) then swap_burn coin0 else mret ());
  _ ← (if (Synth target || Assets.IsDerivedAsset (pool_asset pool)) && negb (emitAssets =? 0)
       then swap_mint (NewCoin target emitAssets) else mret ());
  pool ← lift (swap_depths pool source target x emitAssets);
  pool ← (if Synth source || Synth target then calc_units pool else mret pool);
  pf ← lift (fee_in_switch pool target liquidityFee);
  let '(pool, feeInSwitch) := pf in
  pool ← take_fee ctx pool feeInSwitch swapSlipBps;
  _ ← SetPool pool;
  _ ← fail_when (Trade target && (tradeAccountsEnabled <=? 0)) "trade accounts are disabled";
  _ ← (if Secured target then CheckHalt ctx else mret ());
  _ ← apply_clout feeInSwitch (FromAddress tx) destination;
  mret (emitAssets,
        mkEventSwap (ev_Pool evt) (ev_SwapTarget evt) swapSlip liquidityFee feeInSwitch (ev_TxID evt)
          (ev_InCoins evt) (NewCoin target emitAssets) swapSlipBps 0 0).

(** ** The swap of a message *)

Definition validateMessage (tx : Tx) (target : Asset) (destination : string) : outcome () :=
  match Tx_Valid tx with
  | Some e => Err e
  | None =>
    _ ← fail_if (Assets.IsEmpty target) "target is empty";
    _ ← fail_if (blank destination) "destination is empty";
    coin0 ← first_coin tx;
    let source := coin_asset coin0 in
    _ ← fail_if (Trade source && negb (Trade target) && negb (Assets.IsSwitch target))
          "swaps from trade asset to L1 incur slip, use trade-";
    fail_if (Trade target && negb (Trade source) && negb (Assets.IsSwitch source))
      "swaps from L1 to trade asset incur slip, use trade+"
  end.

(** [Address.IsNoop] *)
Definition IsNoop (addr : string) : bool := EqualFold addr NoopAddress.

Definition with_stream (swp : StreamingSwap) (evt : EventSwap) : EventSwap :=
  let '(q, c) := if ev_StreamingSwapQuantity evt <? Quantity swp
                 then (Quantity swp, to_u64 (Count swp + 1)) else (1, 1) in
  mkEventSwap (ev_Pool evt) (ev_SwapTarget evt) (ev_SwapSlip evt) (ev_LiquidityFee evt)
    (ev_LiquidityFeeInSwitch evt) (ev_TxID evt) (ev_InCoins evt) (ev_EmitAsset evt) (ev_PoolSlip evt) q c.

Definition Swap (ctx : Ctx) (tx : Tx) (target : Asset) (destination : string) (swapTarget : Z)
    (dexAgg dexAggTargetAsset : string) (dexAggLimit : option Z) (swp : StreamingSwap)
    (synthVirtualDepthMult : Z) : K (Z * list EventSwap) :=
  _ ← lift (validateMessage tx target destination);
  coin0 ← lift (first_coin tx);
  let source := coin_asset coin0 in
  _ ← (if Synth source then
         burnHeight ← GetConfigInt64 "BurnSynths";
         fail_when ((0 <? burnHeight) && (burnHeight <? BlockHeight ctx))
           "burning synthetics has been disabled"
       else mret ());
  _ ← (if Synth target then
         mintHeight ← GetConfigInt64 "MintSynths";
         fail_when ((0 <? mintHeight) && (mintHeight <? BlockHeight ctx))
           "minting synthetics has been disabled"
       else mret ());
  _ ← fail_when (negb (IsNoop destination) && negb (IsChain destination (Assets.GetChain target)))
        "destination address is not a valid address";
  _ ← fail_when (Assets.Equals source target) "cannot swap, assets match";
  first ←
    (if negb (Assets.IsSwitch source) && negb (Assets.IsSwitch target) then
       r ← swapOne ctx tx SwitchNative destination 0 synthVirtualDepthMult;
       mret (set_tx_Gas [] (set_tx_Coins [NewCoin SwitchNative (fst r)] tx), [snd r])
     else mret (tx, []));
  let '(tx, swapEvents) := first in
  second ← swapOne ctx tx target destination swapTarget synthVirtualDepthMult;
  let '(assetAmount, swapEvt) := second in
  let swapEvents := (swapEvents ++ [swapEvt])%list in
  _ ← fail_when (negb (swapTarget =? 0) && (assetAmount <? swapTarget))
        "emit asset less than price limit";
  _ ← fail_when (assetAmount =? 0) "zero emit asset";
  let swapEvents := map (with_stream swp) swapEvents in
  _ ← for_each (λ evt, EmitEvent (EvSwap evt)) swapEvents;
  if IsNoop destination then mret (assetAmount, swapEvents)
  else
    let toi := mkTxOutItem (Assets.GetChain target) (tx_ID tx) destination
                 (NewCoin target assetAmount) dexAgg dexAggTargetAsset dexAggLimit in
    if bool_decide (SS_Valid swp = None) then mret (assetAmount, swapEvents)
    else
      ok ← TryAddTxOutItem ctx toi swapTarget;
      if ok : bool then mret (assetAmount, swapEvents) else throw errFailAddOutboundTx.

(** ** Facts *)

Lemma RoundToDecimal_le amt dec r : 0 ≤ amt → RoundToDecimal amt dec = Ok r → 0 ≤ r ≤ amt.
Proof.
  intros Ha. unfold RoundToDecimal, DefaultCoinDecimals.
  destruct (negb (dec =? 0) && (dec <? 8)) eqn:Hc; [|intros [= <-]; lia].
  apply andb_true_iff in Hc as [_ Hlt%Z.ltb_lt].
  destruct (Z.eqb_spec (8 - dec) 0); [lia|]. intros Hok. ok_inv.
  rewrite uint_of_bigint_law in *.
  match goal with Hi : in_uint _ = Ok _ |- _ => apply in_uint_inv in Hi as [-> _] end.
  assert (0 < 10 ^ (8 - dec)) by (apply Z.pow_pos_nonneg; lia).
  match goal with Hq : uquo _ _ = Ok _ |- _ => apply uquo_inv in Hq as (-> & _ & ?); [|lia..] end.
  match goal with Hm : umul _ _ = Ok _ |- _ => apply umul_inv in Hm as [-> ?] end.
  split; [lia|]. rewrite Z.mul_comm. by apply Z.mul_div_le.
Qed.

(** A transfer of [amt] coins [d] between two parties. *)
Definition moved (b b' : bank_state) (src dst : party) (d : string) (amt : Z) : Prop :=
  (∀ e, bank_supply b' e = bank_supply b e) ∧
  (∀ p e, bank_balance b' p e = bank_balance b p e
     - (if decide (p = src ∧ e = d) then amt else 0)
     + (if decide (p = dst ∧ e = d) then amt else 0)).

Lemma moved_zero b src dst d : moved b b src dst d 0.
Proof. split; [done|]. intros. repeat case_decide; lia. Qed.

Lemma send_moved from to a amt s s' :
  SendFromModuleToModule from to [NewCoin a amt] s = (Ok (), s') →
  ∃ b, s' = put_bank b s ∧ moved (bank s) b (Module_acc from) (Module_acc to) (Assets.Native a) amt ∧
    amt ≤ bank_balance (bank s) (Module_acc from) (Assets.Native a).
Proof.
  intros (b & Hb & ->)%in_bank_ok. cbn in Hb. apply bank_send_law in Hb as ([_ Hle] & ? & ?).
  exists b. split; [done|]. split; [by split|exact Hle].
Qed.

(** Neither the pools nor the bank change. *)
Definition same_core (s s' : State) : Prop := pools s' = pools s ∧ bank s' = bank s.

Lemma AddToLiquidityFees_core ctx a fee s s' :
  AddToLiquidityFees ctx a fee s = (Ok (), s') → same_core s s'.
Proof. unfold AddToLiquidityFees. intros Hok. run_inv. by split. Qed.

Lemma AddToSwapSlip_core ctx a amt s s' :
  AddToSwapSlip ctx a amt s = (Ok (), s') → same_core s s'.
Proof. unfold AddToSwapSlip, GetPoolSwapSlip. intros Hok. run_inv. by split. Qed.

Lemma GetSwapperClout_ok a s c s' : GetSwapperClout a s = (Ok c, s') → s' = s.
Proof. unfold GetSwapperClout. destruct (blank a); intros Hok; by run_inv. Qed.

Lemma apply_clout_core fee from dest s s' :
  apply_clout fee from dest s = (Ok (), s') → same_core s s'.
Proof.
  unfold apply_clout, SetSwapperClout. intros Hok. run_inv.
  match goal with Hf : (if blank from then _ else _) _ = (Ok _, ?s1) |- _ =>
    assert (Hc : same_core s s1) end.
  { destruct (blank from); run_inv; [by split|].
    match goal with Hg : GetSwapperClout _ _ = _ |- _ => apply GetSwapperClout_ok in Hg as -> end.
    by split. }
  destruct (blank dest); run_inv; [exact Hc|].
  match goal with Hg : GetSwapperClout _ _ = _ |- _ => apply GetSwapperClout_ok in Hg as -> end.
  exact Hc.
Qed.

Definition fee_module (pool : Pool) : string :=
  if Assets.IsSWCY (pool_asset pool) then SWCYClaimingName else ReserveName.

Lemma take_fee_ok ctx pool fee slip s p' s' :
  Assets.IsDerivedAsset (pool_asset pool) = false → 0 ≤ fee → 0 ≤ BalanceSwitch pool →
  take_fee ctx pool fee slip s = (Ok p', s') →
  pools s' = pools s ∧
  p' = set_BalanceSwitch (if fee =? 0 then BalanceSwitch pool else Z.max 0 (BalanceSwitch pool - fee)) pool ∧
  moved (bank s) (bank s') (Module_acc AsgardName) (Module_acc (fee_module pool))
    (Assets.Native SwitchNative) fee.
Proof.
  intros Hd Hf Hb. unfold take_fee. rewrite Hd. fold (fee_module pool). intros Hok.
  apply M_bind_ok in Hok as (p1 & s1 & Hfee & Hok).
  assert (pools s1 = pools s ∧
    p1 = set_BalanceSwitch (if fee =? 0 then BalanceSwitch pool else Z.max 0 (BalanceSwitch pool - fee)) pool ∧
    moved (bank s) (bank s1) (Module_acc AsgardName) (Module_acc (fee_module pool))
      (Assets.Native SwitchNative) fee) as (Hp1 & -> & Hm1).
  { destruct (Z.eqb_spec fee 0) as [->|_]; run_inv.
    - split_and!; [done|by destruct pool|apply moved_zero].
    - match goal with Hs : SafeSub _ _ = _ |- _ => apply SafeSub_inv in Hs as ->; [|lia..] end.
      match goal with Hs : SendFromModuleToModule _ _ _ _ = _ |- _ =>
        apply send_moved in Hs as (b & -> & Hmv & _) end.
      destruct (Assets.IsSWCY (pool_asset pool)); run_inv; [by split_and!|].
      match goal with Ha : AddToLiquidityFees _ _ _ _ = _ |- _ =>
        apply AddToLiquidityFees_core in Ha as [-> ->] end.
      by split_and!. }
  run_inv. match goal with Ha : AddToSwapSlip _ _ _ _ = _ |- _ =>
    apply AddToSwapSlip_core in Ha as [-> ->] end.
  by split_and!.
Qed.

Lemma calc_units_ok pool s p' s' :
  calc_units pool s = (Ok p', s') → s' = s ∧ ∃ v, p' = set_SynthUnits v pool.
Proof.
  unfold calc_units. intros Hok. run_inv.
  match goal with Hg : GetTotalSupply _ _ = _ |- _ => apply GetTotalSupply_ok in Hg as [-> _] end.
  match goal with Hc : CalcUnits _ _ = Ok ?r |- _ => destruct r; by apply CalcUnits_shape in Hc end.
Qed.

Lemma getMinSlipBps_ok a s v s' : getMinSlipBps a s = (Ok v, s') → s' = s ∧ 0 ≤ v.
Proof.
  unfold getMinSlipBps. intros Hok. run_inv.
  match goal with Hg : GetConfigInt64 _ _ = _ |- _ => apply GetConfigInt64_ok in Hg as -> end.
  split; [done|]. unfold SafeUintFromInt64. case_match; [done|]. apply to_u64_range.
Qed.

(** An asset of an external chain, not a synthetic, trade or secured form. *)
Definition plain (a : Asset) : Prop := Synth a = false ∧ Trade a = false ∧ Secured a = false.

Lemma plain_layer1 a : plain a → Assets.GetLayer1Asset a = a.
Proof. intros (Hs & Ht & Hc). unfold Assets.GetLayer1Asset. by rewrite Hs, Ht, Hc. Qed.

Lemma swap_amount_plain ctx tx a amount t s r s' :
  plain a → swap_amount ctx tx a amount t s = (Ok r, s') → r = amount ∧ s' = s.
Proof.
  intros (_ & Ht & Hc). unfold swap_amount. rewrite Ht, Hc. intros Hok. by run_inv.
Qed.

(** The steps of a swap of a plain, non-derived asset of a stored pool against
    SWITCH up to the computation of the fee: no store is touched, and the
    emission and the fee are those of [GetSwapCalc]. *)
Record swap_quote (p : Pool) (X Y x emit fee : Z) : Prop := {
  sq_x : 0 < x;
  sq_emit : 0 ≤ emit;
  sq_fee : 0 ≤ fee;
  sq_below : emit + fee < Y;
  sq_product : X * Y ≤ (X + x) * (Y - emit - fee);
}.

Lemma swap_quote_ok p X Y x slipBps minSlipBps e f slip e' :
  0 ≤ X < 2 ^ 90 → 0 ≤ Y < 2 ^ 90 → 0 ≤ x < 2 ^ 90 → 0 ≤ minSlipBps →
  (x =? 0) = false → (X =? 0) || (Y =? 0) = false →
  GetSwapCalc X x Y slipBps minSlipBps = Ok (e, f, slip) →
  RoundToDecimal e (Decimals p) = Ok e' → swap_quote p X Y x e' f.
Proof.
  intros HX HY Hx Hm Hx0 HXY Hcalc Hr.
  apply Z.eqb_neq in Hx0. apply orb_false_iff in HXY as [HX0%Z.eqb_neq HY0%Z.eqb_neq].
  destruct (GetSwapCalc_bound X x Y slipBps minSlipBps e f slip) as (He & Hf & Hle & _);
    [lia|lia|lia|lia|nia|lia|exact Hcalc|].
  apply RoundToDecimal_le in Hr; [|exact He].
  constructor; try lia; nia.
Qed.

(** One of the two assets is SWITCH, the other a plain one with its own pool. *)
Record plain_swap (s : State) (source target a : Asset) (p : Pool) : Prop := {
  ps_assets : if Assets.IsSwitch source then target = a ∧ plain source
              else source = a ∧ target = SwitchNative;
  ps_plain : plain a;
  ps_derived : Assets.IsDerivedAsset a = false;
  ps_stored : pools s !! GetKey (Assets.Str a) = Some p;
  ps_asset : pool_asset p = a;
  ps_A : 0 ≤ BalanceAsset p < 2 ^ 90;
  ps_S : 0 ≤ BalanceSwitch p < 2 ^ 90;
}.

Lemma plain_swap_flags s source target a p :
  plain_swap s source target a p →
  plain source ∧ plain target ∧
  Assets.GetLayer1Asset (if Assets.IsSwitch source then target else source) = a.
Proof.
  intros [Has Hpl _ _ _ _ _]. destruct (Assets.IsSwitch source).
  - destruct Has as [-> ?]. split_and!; [done..|by apply plain_layer1].
  - destruct Has as [-> ->]. split_and!; [done..|by apply plain_layer1].
Qed.

(** What such a swap does, step by step. *)
Lemma swapOne_plain ctx tx c rest target destination swapTarget mult s emit evt s' a p :
  tx_Coins tx = c :: rest → plain_swap s (coin_asset c) target a p → 0 ≤ coin_amount c < 2 ^ 90 →
  swapOne ctx tx target destination swapTarget mult s = (Ok (emit, evt), s') →
  let '(X, Y) := if Assets.IsSwitch (coin_asset c) then (BalanceSwitch p, BalanceAsset p)
                 else (BalanceAsset p, BalanceSwitch p) in
  Status p = Available ∧
  ∃ v p1 p2 p3 f slip s1 s2,
    swap_quote p X Y (coin_amount c) emit f ∧
    swap_depths (set_SynthUnits v p) (coin_asset c) target (coin_amount c) emit = Ok p1 ∧
    fee_in_switch p1 target f = Ok (p2, ev_LiquidityFeeInSwitch evt) ∧
    take_fee ctx p2 (ev_LiquidityFeeInSwitch evt) slip s = (Ok p3, s1) ∧
    SetPool p3 s1 = (Ok (), s2) ∧ same_core s2 s'.
Proof.
  intros Hcs Hps Hx Hok. destruct (plain_swap_flags _ _ _ _ _ Hps) as (Hsrc & Htgt & Hl1).
  destruct Hsrc as (Hs1 & Hs2 & Hs3), Htgt as (Ht1 & Ht2 & Ht3), Hps as [_ Hpl Hnd Hp Hpa HA HS].
  unfold swapOne in Hok.
  run_step Hok te s1 E. apply GetConfigInt64_ok in E as ->.
  run_step Hok td s1 E. apply GetConfigInt64_ok in E as ->.
  unfold first_coin in Hok. rewrite Hcs in Hok. run_step Hok c0 s1 E.
  apply lift_ok in E as [[= <-] ->]. rewrite Hl1, Hnd in Hok.
  run_step Hok am s1 E. apply swap_amount_plain in E as [-> ->]; [|by split_and!].
  unfold PoolExist, GetPool in Hok. run_inv. rewrite Hp in *. cbn [default from_option id] in *.
  match goal with Hc : calc_units _ _ = _ |- _ => apply calc_units_ok in Hc as [-> (v & ->)] end.
  cbn [pool_asset set_SynthUnits Status IsAvailable Decimals] in *.
  unfold swap_XY, IsAvailable in *. rewrite ?Hs1, ?Hs2, ?Hs3, ?Ht1, ?Ht2, ?Ht3, ?Hpa, ?Hnd in *.
  cbn [orb andb negb Status set_SynthUnits BalanceSwitch BalanceAsset] in *.
  match goal with Ha : negb (bool_decide (Status _ = _)) = false |- _ =>
    apply negb_false_iff, bool_decide_eq_true in Ha as Hst end.
  destruct (Assets.IsSwitch (coin_asset c)) eqn:Hsw; split; try exact Hst.
  all: run_inv.
  all: match goal with Hm : getMinSlipBps _ _ = _ |- _ => apply getMinSlipBps_ok in Hm as [-> Hmin] end.
  all: match goal with Hcalc : GetSwapCalc _ _ _ _ _ = Ok ?r |- _ => destruct r as [[e f] slip] end.
  all: run_inv.
  all: match goal with Hf : fee_in_switch _ _ _ = Ok ?r |- _ => destruct r as [p2 fs] end.
  all: run_inv; simplify_eq.
  all: match goal with Hc : apply_clout _ _ _ _ = _ |- _ => apply apply_clout_core in Hc end.
  all: do 8 eexists; split; [eapply swap_quote_ok; eassumption|]; split_and!; eassumption.
Qed.

(** C1: Selling an asset of an external chain for SWITCH: the pool gains the amount
    and loses the emission and the liquidity fee, exactly (nothing saturates) and
    never below the constant product; the fee moves from the vault module to the
    reserve (to the claims module for SWCY), and no other pool changes. *)
Theorem swapOne_asset_for_switch ctx tx c rest destination swapTarget mult s emit evt s' p :
  tx_Coins tx = c :: rest → Assets.IsSwitch (coin_asset c) = false →
  plain_swap s (coin_asset c) SwitchNative (coin_asset c) p → 0 ≤ coin_amount c < 2 ^ 90 →
  swapOne ctx tx SwitchNative destination swapTarget mult s = (Ok (emit, evt), s') →
  let fee := ev_LiquidityFeeInSwitch evt in
  0 ≤ emit ∧ 0 ≤ fee ∧ Status p = Available ∧
  ∃ p', pools s' = <[GetKey (Assets.Str (coin_asset c)) := p']> (pools s) ∧
    BalanceAsset p' = BalanceAsset p + coin_amount c ∧
    BalanceSwitch p' = BalanceSwitch p - emit - fee ∧ 0 < BalanceSwitch p' ∧
    BalanceAsset p * BalanceSwitch p ≤ BalanceAsset p' * BalanceSwitch p' ∧
    LPUnits p' = LPUnits p ∧
    moved (bank s) (bank s') (Module_acc AsgardName) (Module_acc (fee_module p))
      (Assets.Native SwitchNative) fee.
Proof.
  intros Hcs Hns Hps Hx Hok fee.
  pose proof (swapOne_plain _ _ _ _ _ _ _ _ _ _ _ _ _ _ Hcs Hps Hx Hok) as Hsw. rewrite Hns in Hsw.
  destruct Hsw as (Hst & v & p1 & p2 & p3 & f & slip & s1 & s2 & Hq & Hdep & Hfee & Htake & Hset & Hcore).
  destruct Hps as [_ (Hsyn & _ & _) Hnd Hp Hpa HA HS], Hq as [Hx0 He Hf0 Hlt Hprod].
  unfold swap_depths in Hdep. rewrite Hns, Hsyn in Hdep. ok_inv. cbn in *.
  match goal with Hs : SafeSub _ _ = _ |- _ => apply SafeSub_inv in Hs as ->; [|lia..] end.
  match goal with Hs : uadd _ _ = _ |- _ => apply uadd_inv in Hs as [-> _] end.
  unfold fee_in_switch in Hfee. cbn in Hfee. injection Hfee as <- Hff. fold fee in Hff, Htake |- *.
  apply take_fee_ok in Htake as (Hp1 & -> & Hmv); [|cbn; by rewrite Hpa|lia|cbn; lia].
  apply SetPool_ok in Hset as [_ ->]. destruct Hcore as [-> Hb]. cbn in Hb, Hmv |- *. rewrite Hb.
  split; [exact He|]. split; [lia|]. split; [exact Hst|]. eexists.
  split; [by rewrite Hp1, Hpa|]. cbn.
  assert (Hbs : (if fee =? 0 then Z.max 0 (BalanceSwitch p - emit)
      else Z.max 0 (Z.max 0 (BalanceSwitch p - emit) - fee)) = BalanceSwitch p - emit - fee)
    by (destruct (Z.eqb_spec fee 0); lia).
  rewrite Hbs. rewrite Hff in *. split_and!; try reflexivity; try lia; exact Hmv.
Qed.

(** C2: Buying an asset of an external chain with SWITCH: the asset depth loses the
    emission only; the fee, converted to SWITCH at the depths after the swap,
    leaves the SWITCH depth for the reserve.  The constant product is kept up to
    the rounding of that conversion. *)
Theorem swapOne_switch_for_asset ctx tx c rest target destination swapTarget mult s emit evt s' p :
  tx_Coins tx = c :: rest → Assets.IsSwitch (coin_asset c) = true →
  plain_swap s (coin_asset c) target target p → 0 ≤ coin_amount c < 2 ^ 90 →
  Assets.IsSwitch target = false → BalanceSwitch p + coin_amount c ≤ 10 ^ 18 →
  swapOne ctx tx target destination swapTarget mult s = (Ok (emit, evt), s') →
  let fee := ev_LiquidityFeeInSwitch evt in
  0 ≤ emit ∧ 0 ≤ fee ∧ Status p = Available ∧
  ∃ p', pools s' = <[GetKey (Assets.Str target) := p']> (pools s) ∧
    BalanceSwitch p' = Z.max 0 (BalanceSwitch p + coin_amount c - fee) ∧
    BalanceAsset p' = BalanceAsset p - emit ∧ 0 < BalanceAsset p' ∧
    10 ^ 18 * (BalanceSwitch p * BalanceAsset p) ≤
      10 ^ 18 * (BalanceSwitch p' * BalanceAsset p' + BalanceAsset p')
      + (fee + 1) * (BalanceSwitch p + coin_amount c) ∧
    LPUnits p' = LPUnits p ∧
    moved (bank s) (bank s') (Module_acc AsgardName) (Module_acc (fee_module p))
      (Assets.Native SwitchNative) fee.
Proof.
  intros Hcs Hns Hps Hx Htn Hsmall Hok fee.
  pose proof (swapOne_plain _ _ _ _ _ _ _ _ _ _ _ _ _ _ Hcs Hps Hx Hok) as Hsw. rewrite Hns in Hsw.
  destruct Hsw as (Hst & v & p1 & p2 & p3 & f & slip & s1 & s2 & Hq & Hdep & Hfee & Htake & Hset & Hcore).
  destruct Hps as [_ (Hsyn & _ & _) Hnd Hp Hpa HA HS], Hq as [Hx0 He Hf0 Hlt Hprod].
  unfold swap_depths in Hdep. rewrite Hns, Hsyn in Hdep. ok_inv. cbn in *.
  match goal with Hs : SafeSub _ _ = _ |- _ => apply SafeSub_inv in Hs as ->; [|lia..] end.
  match goal with Hs : uadd _ _ = _ |- _ => apply uadd_inv in Hs as [-> _] end.
  set (B := BalanceSwitch p + coin_amount c) in *. set (D := Z.max 0 (BalanceAsset p - emit)) in *.
  assert (HD : D = BalanceAsset p - emit) by lia.
  assert (HB : 0 < B) by (unfold B; lia). clearbody D B.
  unfold fee_in_switch in Hfee. rewrite Htn in Hfee.
  apply bind_ok in Hfee as (a1 & Ha1 & Hfee). cbn in Ha1. apply SafeSub_inv in Ha1 as ->; [|lia..].
  apply bind_ok in Hfee as (sh & Hsh & Hfee). apply bind_ok in Hfee as (a2 & Ha2 & Hfee).
  cbn in Ha2. apply uadd_inv in Ha2 as [-> _]. injection Hfee as <- Hff. fold fee in Hff, Htake |- *.
  rewrite Z.max_r in * by lia. unfold SWITCHDisbursementForAssetAdd in Hsh. cbn in Hsh.
  destruct (Z.eqb_spec B 0) as [|_]; [lia|]. destruct (Z.eqb_spec (D - f) 0) as [|_]; [lia|].
  cbn [orb] in Hsh. apply bind_ok in Hsh as (dn & Hdn & Hsh). apply uadd_inv in Hdn as [-> _].
  injection Hsh as Hsh. replace (D - f + f) with D in * by lia.
  destruct (uncapped_share_error B D f) as [Hsh0 Herr]; [lia..|]. rewrite Hsh, Hff in *.
  apply take_fee_ok in Htake as (Hp1 & -> & Hmv); [|exact Hnd|lia|cbn; lia].
  apply SetPool_ok in Hset as [_ ->]. destruct Hcore as [-> Hb]. cbn in Hb, Hmv |- *. rewrite Hb.
  split; [exact He|]. split; [lia|]. split; [exact Hst|]. eexists.
  split; [by rewrite Hp1|]. cbn.
  assert (Hbs : (if fee =? 0 then B else Z.max 0 (B - fee)) = Z.max 0 (B - fee))
    by (destruct (Z.eqb_spec fee 0); lia).
  rewrite Hbs. split_and!; try reflexivity; try lia; [|exact Hmv].
  assert (H1' : (B - fee) * D ≤ Z.max 0 (B - fee) * D) by (apply Z.mul_le_mono_nonneg_r; lia).
  assert (BalanceSwitch p * BalanceAsset p ≤ B * D - f * B) by lia.
  assert (10 ^ 18 * (fee * D - f * B) ≤ 10 ^ 18 * D + (fee + 1) * B) by lia.
  lia.
Qed.

(** A swap that succeeds emits something, and no less than the limit of the
    memo; it made one sub-swap when SWITCH is one of its assets and two
    otherwise; and, unless it is part of a stream or stays in the protocol, the
    outbound item it queued is for exactly the amount it reports. *)
Theorem Swap_respects_the_limit ctx tx target destination swapTarget agg aggT aggL swp mult s amt evts s' :
  0 ≤ swapTarget →
  Swap ctx tx target destination swapTarget agg aggT aggL swp mult s = (Ok (amt, evts), s') →
  ∃ c rest, tx_Coins tx = c :: rest ∧ Assets.Equals (coin_asset c) target = false ∧
    Tx_Valid tx = None ∧ amt ≠ 0 ∧ (swapTarget ≠ 0 → swapTarget ≤ amt) ∧
    length evts = (if negb (Assets.IsSwitch (coin_asset c)) && negb (Assets.IsSwitch target)
                   then 2 else 1)%nat ∧
    (IsNoop destination = false → IsChain destination (Assets.GetChain target) = true) ∧
    (IsNoop destination = false → SS_Valid swp ≠ None → ∃ s1,
       TryAddTxOutItem ctx (mkTxOutItem (Assets.GetChain target) (tx_ID tx) destination
         (NewCoin target amt) agg aggT aggL) swapTarget s1 = (Ok true, s')).
Proof.
  intros Ht Hok. unfold Swap in Hok.
  run_step Hok u1 s1 E. apply lift_ok in E as [Hval ->].
  run_step Hok c s1 E. apply lift_ok in E as [Hc ->].
  run_step Hok u2 s1 E. clear E. run_step Hok u3 s2 E. clear E.
  run_step Hok u4 s3 E. apply fail_when_ok in E as [Hdest ->].
  run_step Hok u5 s4 E. apply fail_when_ok in E as [Hne ->].
  run_step Hok leg s5 E.
  unfold first_coin in Hc. destruct (tx_Coins tx) as [|c' rest] eqn:Hcoins; [done|].
  injection Hc as ->. exists c, rest.
  assert (Hfirst : tx_ID leg.1 = tx_ID tx ∧ length leg.2 =
    (if negb (Assets.IsSwitch (coin_asset c)) && negb (Assets.IsSwitch target) then 1 else 0)%nat).
  { destruct (negb (Assets.IsSwitch (coin_asset c)) && negb (Assets.IsSwitch target)).
    - run_step E r sx E'. by apply ret_ok in E as [-> _].
    - by apply ret_ok in E as [-> _]. }
  destruct leg as [tx1 evs1]. cbn in Hfirst. destruct Hfirst as [Hid Hlen].
  run_step Hok leg2 s6 E2. destruct leg2 as [amt2 evt2].
  run_step Hok u6 s7 E3. apply fail_when_ok in E3 as [Hlim ->].
  run_step Hok u7 s8 E3. apply fail_when_ok in E3 as [Hz ->].
  run_step Hok u8 s9 E3.
  assert (Hamt : amt = amt2 ∧ length evts = S (length evs1) ∧
    (IsNoop destination = false → SS_Valid swp ≠ None → ∃ s1,
       TryAddTxOutItem ctx (mkTxOutItem (Assets.GetChain target) (tx_ID tx) destination
         (NewCoin target amt2) agg aggT aggL) swapTarget s1 = (Ok true, s'))).
  { destruct (IsNoop destination).
    - apply ret_ok in Hok as [[= -> ->] _]. split_and!; [done|by rewrite length_map, length_app, Nat.add_comm|done].
    - destruct (bool_decide (SS_Valid swp = None)) eqn:Hv.
      + apply ret_ok in Hok as [[= -> ->] _]. apply bool_decide_eq_true in Hv.
        split_and!; [done|by rewrite length_map, length_app, Nat.add_comm|done].
      + run_step Hok ok sx E4. destruct ok; [|by apply throw_ok in Hok].
        apply ret_ok in Hok as [[= -> ->] ->].
        split_and!; [done|by rewrite length_map, length_app, Nat.add_comm|].
        intros _ _. exists s9. by rewrite <- Hid. }
  destruct Hamt as (-> & Hle & Hout).
  split; [done|]. split; [done|]. split.
  { unfold validateMessage in Hval. by destruct (Tx_Valid tx). }
  apply Z.eqb_neq in Hz. split; [done|]. split; [|split; [|split]].
  - intros Hnz. rewrite (proj2 (Z.eqb_neq _ _)) in Hlim by done. cbn in Hlim. apply Z.ltb_ge in Hlim. done.
  - rewrite Hle, Hlen.
    by destruct (negb (Assets.IsSwitch (coin_asset c)) && negb (Assets.IsSwitch target)).
  - intros Hn. rewrite Hn in Hdest. cbn in Hdest. by apply negb_false_iff.
  - done.
Qed.
End Swap.

(** ** Witnesses *)

#[local] Existing Instance idle_managers.

Definition swap_block : Ctx :=
  mkCtx 8 3 "0123456789ABCDEF0123456789ABCDEF0123456789ABCDEF0123456789ABCDEF".
Definition swap_state : State :=
  put_pools {["BTC.BTC" := btc_pool]}
    (put_bank (BankRef.mkLedger {[(Module_acc "asgard", "switch") := 1000000]} {["switch" := 1000000]})
       empty_state).
Definition sell_tx : Tx :=
  NewTx (txHash swap_block) "bc1from" "bc1vault" [NewCoin BTCAsset 1000] [NewCoin BTCAsset 1] "=:r".
Definition buy_tx : Tx :=
  NewTx (txHash swap_block) "swtc1from" "swtc1vault" [NewCoin SwitchNative 10000] [] "=:b".

Lemma CalcSwapSlip_nearest_witness :
  CalcSwapSlip 100000 1000 = Ok 99 ∧ ∃ s, CalcSwapSlip 100000 1000 = Ok s ∧ 0 ≤ s ≤ 10000.
Proof.
  split; [vm_compute; reflexivity|].
  destruct (CalcSwapSlip_nearest 100000 1000 ltac:(lia) ltac:(lia)) as (s & Hs & Hb & _).
  exists s. split; [exact Hs|exact Hb].
Defined.

Lemma GetSwapCalc_keeps_the_product_witness :
  GetSwapCalc 100000 1000 1000000 99 0 = Ok (9802, 98, 99) ∧
  100000 * 1000000 ≤ (100000 + 1000) * (1000000 - 9802 - 98).
Proof.
  assert (GetSwapCalc 100000 1000 1000000 99 0 = Ok (9802, 98, 99)) as Hok by (vm_compute; reflexivity).
  split; [exact Hok|].
  apply (GetSwapCalc_keeps_the_product 100000 1000 1000000 99 0 9802 98 99); lia || exact Hok.
Defined.

Lemma sell_plain : plain_swap swap_state BTCAsset SwitchNative BTCAsset btc_pool.
Proof. constructor; cbn; try done; lia. Qed.
Lemma buy_plain : plain_swap swap_state SwitchNative BTCAsset BTCAsset btc_pool.
Proof. constructor; cbn; try done; lia. Qed.

Lemma swapOne_asset_for_switch_witness :
  ∃ evt s', swapOne swap_block sell_tx SwitchNative "swtc1to" 0 10000 swap_state = (Ok (9802, evt), s') ∧
  ∃ p', pools s' = <[GetKey (Assets.Str (coin_asset (NewCoin BTCAsset 1000))) := p']> (pools swap_state) ∧
    BalanceAsset p' = BalanceAsset btc_pool + coin_amount (NewCoin BTCAsset 1000).
Proof.
  pose (r := swapOne swap_block sell_tx SwitchNative "swtc1to" 0 10000 swap_state).
  assert (∃ evt, fst r = Ok (9802, evt)) as [evt Hok] by (eexists; vm_compute; reflexivity).
  pose proof (run_pair r _ Hok) as Hrun. exists evt, (snd r). split; [exact Hrun|].
  apply (swapOne_asset_for_switch swap_block sell_tx (NewCoin BTCAsset 1000) []) with (p := btc_pool)
    in Hrun as (_ & _ & _ & p' & Hp & Ha & _); [|reflexivity|reflexivity|exact sell_plain|cbn; lia].
  exists p'. split; [exact Hp|exact Ha].
Defined.

Lemma swapOne_switch_for_asset_witness :
  ∃ evt s', swapOne swap_block buy_tx BTCAsset "bc1to" 0 10000 swap_state = (Ok (980, evt), s') ∧
  ∃ p', pools s' = <[GetKey (Assets.Str BTCAsset) := p']> (pools swap_state) ∧
    BalanceAsset p' = BalanceAsset btc_pool - 980.
Proof.
  pose (r := swapOne swap_block buy_tx BTCAsset "bc1to" 0 10000 swap_state).
  assert (∃ evt, fst r = Ok (980, evt)) as [evt Hok] by (eexists; vm_compute; reflexivity).
  pose proof (run_pair r _ Hok) as Hrun. exists evt, (snd r). split; [exact Hrun|].
  apply (swapOne_switch_for_asset swap_block buy_tx (NewCoin SwitchNative 10000) []) with (p := btc_pool)
    in Hrun as (_ & _ & _ & p' & Hp & _ & Ha & _);
    [|reflexivity|reflexivity|exact buy_plain|cbn; lia|reflexivity|cbn; lia].
  exists p'. split; [exact Hp|exact Ha].
Defined.

Lemma Swap_respects_the_limit_witness :
  ∃ evts s', Swap swap_block sell_tx SwitchNative "swtc1to" 9000 "" "" None
    (NewStreamingSwap "" 0 0 0 0) 10000 swap_state = (Ok (9802, evts), s') ∧
  9000 ≤ 9802 ∧ length evts = 1%nat.
Proof.
  pose (r := Swap swap_block sell_tx SwitchNative "swtc1to" 9000 "" "" None
    (NewStreamingSwap "" 0 0 0 0) 10000 swap_state).
  assert (∃ evts, fst r = Ok (9802, evts)) as [evts Hok] by (eexists; vm_compute; reflexivity).
  exists evts, (snd r). split; [exact (run_pair r _ Hok)|].
  destruct (Swap_respects_the_limit swap_block sell_tx SwitchNative "swtc1to" 9000 "" "" None
    (NewStreamingSwap "" 0 0 0 0) 10000 swap_state 9802 evts (snd r) ltac:(lia) (run_pair r _ Hok))
    as (c & rest & [= <- <-] & _ & _ & _ & Hl & Hlen & _).
  split; [apply Hl; lia|exact Hlen].
Defined.
