(* ===== verification/PoolUnits.v ===== *)
(** * The units of an addition of liquidity

    [calculatePoolUnits] and [calculateVaultUnits] of
    src/x/switchly/handler_add_liquidity.go: the units a provider receives for
    what it adds, and that they dilute nobody. *)

From S2P Require Import Prelude CosmosMath Amounts.
Open Scope Z_scope.

Section PoolUnits.
  Context `{CosmosMath}.

(** The units of an addition to a pool without units or without a side: the
    SWITCH added, or the asset at the price of the pool. *)
Definition first_units (poolSWITCH poolAsset addSWITCH addAsset : Z) : outcome Z :=
  if addSWITCH =? 0 then
    if negb (poolAsset =? 0) then v ← umul addAsset poolSWITCH; uquo v poolAsset
    else Ok addAsset
  else Ok addSWITCH.

Definition calculatePoolUnits (oldPoolUnits poolSWITCH poolAsset addSWITCH addAsset : Z)
    : outcome (Z * Z) :=
  totalSWITCH ← uadd addSWITCH poolSWITCH;
  _ ← fail_if (totalSWITCH =? 0) "total SWITCH in the pool is zero";
  totalAsset ← uadd addAsset poolAsset;
  _ ← fail_if (totalAsset =? 0) "total asset in the pool is zero";
  if (poolSWITCH =? 0) || (poolAsset =? 0) || (oldPoolUnits =? 0) then
    sUnits ← first_units poolSWITCH poolAsset addSWITCH addAsset;
    pUnits ← uadd oldPoolUnits sUnits;
    Ok (pUnits, sUnits)
  else
    P ← dec_of_bigint oldPoolUnits;
    R ← dec_of_bigint poolSWITCH;
    A ← dec_of_bigint poolAsset;
    r ← dec_of_bigint addSWITCH;
    a ← dec_of_bigint addAsset;
    let two := 2 * dec_one in
    rA ← dec_mul r A;
    aR ← dec_mul a R;
    cross ← dec_add rA aR;
    r2 ← dec_mul two r;
    ra2 ← dec_mul r2 a;
    weighted ← dec_add cross ra2;
    numerator ← dec_mul P weighted;
    A2 ← dec_mul two A;
    AR2 ← dec_mul A2 R;
    denominator ← dec_add cross AR2;
    if denominator =? 0 then Err "denominator of new pool units calculation is zero"
    else
      liquidityUnits ← dec_quo numerator denominator;
      newPoolUnit ← dec_add P liquidityUnits;
      p ← dec_truncate_int newPoolUnit;
      pUnits ← uint_of_bigint p;
      l ← dec_truncate_int liquidityUnits;
      sUnits ← uint_of_bigint l;
      Ok (pUnits, sUnits).

Definition calculateVaultUnits (oldPoolUnits poolAmt addAmt : Z) : outcome (Z * Z) :=
  if (oldPoolUnits =? 0) || (poolAmt =? 0) then Ok (addAmt, addAmt)
  else if addAmt =? 0 then Ok (oldPoolUnits, 0)
  else
    let lpUnits := GetUncappedShare addAmt poolAmt oldPoolUnits in
    pUnits ← uadd oldPoolUnits lpUnits;
    Ok (pUnits, lpUnits).

(** ** Facts *)

(** [units / P = N / D] in the comment of the source. *)
Definition units_num (P R A r a : Z) : Z := P * (r * A + a * R + 2 * r * a).
Definition units_den (R A r a : Z) : Z := r * A + a * R + 2 * R * A.

(** Products of amounts of the pool, kept small for the arithmetic. *)
Lemma mul_bound x y n m : 0 ≤ x < 2 ^ n → 0 ≤ y < 2 ^ m → 0 ≤ n → 0 ≤ m → 0 ≤ x * y < 2 ^ (n + m).
Proof.
  intros Hx Hy Hn Hm. rewrite Z.pow_add_r by done. split; [apply Z.mul_nonneg_nonneg; lia|].
  assert (x * y ≤ x * 2 ^ m) by (apply Z.mul_le_mono_nonneg_l; lia).
  assert (0 < 2 ^ m) by (apply Z.pow_pos_nonneg; lia).
  assert (x * 2 ^ m < 2 ^ n * 2 ^ m) by (apply Z.mul_lt_mono_pos_r; lia). lia.
Qed.

Definition small (x : Z) : Prop := 0 ≤ x < 2 ^ 58.

(** With all amounts below 2^58 base units the decimals are exact up to the
    final division, whose quotient is truncated. *)
Lemma calculatePoolUnits_exact P R A r a pu su :
  0 < P → 0 < R → 0 < A → small P → small R → small A → small r → small a →
  calculatePoolUnits P R A r a = Ok (pu, su) →
  pu = P + su ∧ 0 ≤ su ∧
  10 ^ 18 * (su * units_den R A r a - units_num P R A r a) ≤ units_den R A r a ∧
  10 ^ 18 * (units_num P R A r a - (su + 1) * units_den R A r a) ≤ units_den R A r a.
Proof.
  unfold small. intros HP0 HR0 HA0 HP HR HA Hr Ha. unfold calculatePoolUnits.
  pose proof (mul_bound r A 58 58 Hr HA ltac:(lia) ltac:(lia)) as HrA.
  pose proof (mul_bound a R 58 58 Ha HR ltac:(lia) ltac:(lia)) as HaR.
  pose proof (mul_bound r a 58 58 Hr Ha ltac:(lia) ltac:(lia)) as Hra.
  pose proof (mul_bound A R 58 58 HA HR ltac:(lia) ltac:(lia)) as HAR.
  assert (HAR0 : 0 < A * R) by (apply Z.mul_pos_pos; lia).
  change (58 + 58) with 116 in *.
  intros Hok. apply bind_ok in Hok as (ts & _ & Hok). apply bind_ok in Hok as (u1 & _ & Hok).
  apply bind_ok in Hok as (ta & _ & Hok). apply bind_ok in Hok as (u2 & _ & Hok).
  rewrite !(proj2 (Z.eqb_neq _ _)) in Hok by lia. cbn [orb] in Hok.
  rewrite !dec_of_bigint_law in Hok by lia. cbn [mbind outcome_bind] in Hok.
  assert (Hd : dec_one = 10 ^ 18) by done.
  rewrite (dec_mul_whole r A), (dec_mul_whole a R) in Hok by lia. cbn [mbind outcome_bind] in Hok.
  rewrite (dec_add_law (r * A * dec_one)) in Hok by (rewrite Hd; lia). cbn [mbind outcome_bind] in Hok.
  rewrite (dec_mul_whole 2 r) in Hok by lia. cbn [mbind outcome_bind] in Hok.
  rewrite (dec_mul_whole (2 * r) a) in Hok by lia. cbn [mbind outcome_bind] in Hok.
  rewrite <- Z.mul_add_distr_r in Hok.
  rewrite dec_add_law in Hok by (rewrite Hd; lia). cbn [mbind outcome_bind] in Hok.
  rewrite <- Z.mul_add_distr_r in Hok.
  assert (HN : 0 ≤ P * (r * A + a * R + 2 * r * a) < 2 ^ (58 + 118)) by (apply mul_bound; lia).
  change (58 + 118) with 176 in HN.
  rewrite (dec_mul_whole P) in Hok by lia. cbn [mbind outcome_bind] in Hok.
  rewrite (dec_mul_whole 2 A) in Hok by lia. cbn [mbind outcome_bind] in Hok.
  rewrite (dec_mul_whole (2 * A) R) in Hok by lia. cbn [mbind outcome_bind] in Hok.
  rewrite dec_add_law in Hok by (rewrite Hd; lia). cbn [mbind outcome_bind] in Hok.
  rewrite <- Z.mul_add_distr_r in Hok.
  fold (units_num P R A r a) in Hok, HN.
  replace (r * A + a * R + 2 * A * R) with (units_den R A r a) in Hok by (unfold units_den; ring).
  assert (HD : 0 < units_den R A r a < 2 ^ 118) by (unfold units_den; lia).
  set (N := units_num P R A r a) in *. set (D := units_den R A r a) in *. clearbody N D.
  destruct (Z.eqb_spec (D * dec_one) 0) as [|_]; [rewrite Hd in *; lia|].
  destruct (dec_quo_law (N * dec_one) (D * dec_one)) as (q & Hq & Hq0 & Hqe);
    [rewrite Hd; lia|rewrite Hd; lia|rewrite Hd; lia|].
  rewrite Hq in Hok. cbn [mbind outcome_bind] in Hok.
  assert (Hqe' : 2 * dec_one * Z.abs (q * D - N * dec_one) ≤ (dec_one + 2) * D).
  { replace (q * (D * dec_one) - N * dec_one * dec_one)
      with ((q * D - N * dec_one) * dec_one) in Hqe by ring.
    rewrite Z.abs_mul, (Z.abs_eq dec_one) in Hqe by done. rewrite Hd in *. lia. }
  clear Hqe. rewrite Hd in *.
  assert (Hqb : q < 2 ^ 245).
  { assert (q * 1 ≤ q * D) by (apply Z.mul_le_mono_nonneg_l; lia). lia. }
  rewrite dec_add_law in Hok by lia. cbn [mbind outcome_bind] in Hok.
  rewrite !dec_truncate_int_law in Hok by (rewrite ?Hd; lia). cbn [mbind outcome_bind] in Hok.
  rewrite Hd in Hok. pose proof (Z.div_mod q (10 ^ 18) ltac:(lia)) as Hdm.
  pose proof (Z.mod_pos_bound q (10 ^ 18) ltac:(lia)) as Hmod.
  assert (Hsu : 0 ≤ q / 10 ^ 18) by (apply Z.div_pos; lia).
  replace ((P * 10 ^ 18 + q) / 10 ^ 18) with (P + q / 10 ^ 18) in Hok
    by (rewrite Z.add_comm, (Z.add_comm (P * _)), Z.div_add by lia; ring).
  rewrite !uint_of_bigint_ok in Hok by (unfold uint_max; lia). cbn [mbind outcome_bind] in Hok.
  injection Hok as <- <-. set (s := q / 10 ^ 18) in *. set (m := q mod 10 ^ 18) in *. clearbody s m.
  assert (0 ≤ m * D) by (apply Z.mul_nonneg_nonneg; lia).
  assert (m * D ≤ 10 ^ 18 * D - D).
  { assert (m * D ≤ (10 ^ 18 - 1) * D) by (apply Z.mul_le_mono_nonneg_r; lia). lia. }
  assert (q * D = 10 ^ 18 * (s * D) + m * D) by (rewrite Hdm; ring).
  split; [reflexivity|]. split; [lia|]. split; lia.
Qed.

Lemma uint_of_bigint_nonneg z v : uint_of_bigint z = Ok v → 0 ≤ v.
Proof. rewrite uint_of_bigint_law. intros ?%in_uint_inv. lia. Qed.

(** Units are never negative. *)
Lemma calculatePoolUnits_nonneg P R A r a pu su :
  0 ≤ R → 0 ≤ A → 0 ≤ r → 0 ≤ a → calculatePoolUnits P R A r a = Ok (pu, su) → 0 ≤ su.
Proof.
  intros HR HA Hr Ha. unfold calculatePoolUnits, first_units. intros Hok.
  do 4 (apply bind_ok in Hok as (? & _ & Hok)). destruct (_ || _).
  - apply bind_ok in Hok as (u & Hu & Hok). ok_inv. simplify_eq.
    destruct (r =? 0); [|by injection Hu as <-]. destruct (negb _); [|by injection Hu as <-].
    uint_inv. done.
  - do 15 (apply bind_ok in Hok as (? & _ & Hok)). destruct (_ =? 0); [done|].
    do 5 (apply bind_ok in Hok as (? & _ & Hok)). apply bind_ok in Hok as (su' & Hsu & Hok).
    injection Hok as <- <-. by eapply uint_of_bigint_nonneg.
Qed.

Lemma calculateVaultUnits_nonneg P A a pu su :
  0 ≤ a → calculateVaultUnits P A a = Ok (pu, su) → 0 ≤ su.
Proof.
  intros Ha. unfold calculateVaultUnits. destruct (_ || _); [by intros [= <- <-]|].
  destruct (a =? 0); [by intros [= <- <-]|]. intros Hok. ok_inv. simplify_eq.
  apply GetUncappedShare_range.
Qed.

(** The unit formula multiplies the units by [2 (R+r)(A+a) / D]. *)
Lemma units_factor P R A r a :
  P * units_den R A r a + units_num P R A r a = 2 * P * ((R + r) * (A + a)).
Proof. unfold units_num, units_den. ring. Qed.

(** The arithmetic mean of the two growth factors is above the geometric one. *)
Lemma units_den_mean R A r a :
  4 * (R * A) * ((R + r) * (A + a)) ≤ units_den R A r a * units_den R A r a.
Proof.
  assert (0 ≤ (A * (R + r) - R * (A + a)) * (A * (R + r) - R * (A + a))) by apply Z.square_nonneg.
  unfold units_den. lia.
Qed.

(** Nobody is diluted: on a pool with units and two sides, the geometric mean of
    the depths per unit does not decrease when liquidity is added (up to one
    part in 10^18 of a unit, the rounding of the decimals), whatever the
    proportion of the two amounts; and the provider loses at most one unit to
    the truncation. *)
Theorem added_units_dilute_nobody P R A r a pu su :
  0 < P → 0 < R → 0 < A → small P → small R → small A → small r → small a →
  calculatePoolUnits P R A r a = Ok (pu, su) →
  pu = P + su ∧ 0 ≤ su ∧
  R * A * (10 ^ 18 * pu - 1) ^ 2 ≤ 10 ^ 36 * ((R + r) * (A + a)) * P ^ 2 ∧
  10 ^ 18 * (units_num P R A r a - (su + 1) * units_den R A r a) ≤ units_den R A r a.
Proof.
  intros HP0 HR0 HA0 HP HR HA Hr Ha Hok.
  destruct (calculatePoolUnits_exact P R A r a pu su) as (-> & Hsu & Hle & Hge); [done..|].
  split; [done|]. split; [done|]. split; [|exact Hge]. clear Hok Hge.
  unfold small in *. pose proof (units_factor P R A r a) as Hf. pose proof (units_den_mean R A r a) as Hm.
  assert (0 < R * A) by (apply Z.mul_pos_pos; lia).
  assert (HD : 0 < units_den R A r a).
  { unfold units_den. assert (0 ≤ r * A) by (apply Z.mul_nonneg_nonneg; lia).
    assert (0 ≤ a * R) by (apply Z.mul_nonneg_nonneg; lia). lia. }
  assert (HXY : 0 < (R + r) * (A + a)) by (apply Z.mul_pos_pos; lia).
  set (D := units_den R A r a) in *. set (XY := (R + r) * (A + a)) in *.
  set (N := units_num P R A r a) in *. set (RA := R * A) in *. clearbody D XY N RA.
  set (T := 10 ^ 18 * (P + su) - 1).
  assert (HT0 : 0 ≤ T) by (unfold T; lia).
  assert (HT : T * D ≤ 10 ^ 18 * (2 * P * XY)) by (unfold T; lia).
  assert (HTD : 0 ≤ T * D) by (apply Z.mul_nonneg_nonneg; lia).
  pose proof (Z.mul_le_mono_nonneg _ _ _ _ HTD HT HTD HT) as Hsq.
  pose proof (Z.mul_le_mono_nonneg_l _ _ (T * T) (Z.square_nonneg T) Hm) as Hmt.
  rewrite !Z.pow_2_r. fold T. clearbody T.
  apply (Z.mul_le_mono_pos_l _ _ (4 * XY)); [lia|].
  replace (4 * XY * (RA * (T * T))) with (T * T * (4 * RA * XY)) by ring.
  replace (4 * XY * (10 ^ 36 * XY * (P * P)))
    with (10 ^ 18 * (2 * P * XY) * (10 ^ 18 * (2 * P * XY))) by ring.
  replace (T * D * (T * D)) with (T * T * (D * D)) in Hsq by ring. lia.
Qed.
End PoolUnits.

Lemma added_units_dilute_nobody_witness :
  calculatePoolUnits 1000 500 800 50 20 = Ok (1061, 61) ∧
  500 * 800 * (10 ^ 18 * 1061 - 1) ^ 2 ≤ 10 ^ 36 * ((500 + 50) * (800 + 20)) * 1000 ^ 2.
Proof.
  assert (calculatePoolUnits 1000 500 800 50 20 = Ok (1061, 61)) as Hok by (vm_compute; reflexivity).
  split; [exact Hok|].
  destruct (added_units_dilute_nobody 1000 500 800 50 20 _ _ ltac:(lia) ltac:(lia) ltac:(lia)
    ltac:(split; lia) ltac:(split; lia) ltac:(split; lia) ltac:(split; lia) ltac:(split; lia) Hok)
    as (_ & _ & Hl & _). exact Hl.
Defined.
