(* ===== verification/Halts.v ===== *)
(** * Halts and pauses

    src/x/switchly/keeper/v1/keeper_halt.go: when trading, a chain or the
    liquidity actions are stopped by the mimirs, and what the supply circuit
    breaker of [MintToModule] (src/x/switchly/keeper/v1/keeper.go) stops. *)

From S2P Require Import Prelude CosmosMath Amounts GoStrings Assets Coins Pools Constants State Txs.
Open Scope Z_scope.

(** The messages [IsTradingHalt] tells apart, with what it reads of them. *)
Inductive HaltMsg :=
  | SwapMsg (coins : list Coin) (targetAsset : Asset)
  | AddMsg (asset : Asset)
  | OtherMsg.

Section Halts.
  Context `{CosmosMath} `{Bank} `{Env}.

(** A halt mimir is in force strictly after the height it names. *)
Definition halted_after (ctx : Ctx) (v : Z) : bool := (0 <? v) && (v <? BlockHeight ctx).

Definition IsGlobalTradingHalted (ctx : Ctx) : K bool :=
  haltTrading ← GetMimir "HaltTrading";
  if halted_after ctx haltTrading then mret true else RagnarokInProgress.

Definition IsChainHalted (ctx : Ctx) (c : Chain) : K bool :=
  haltChain ← GetMimir "HaltChainGlobal";
  if halted_after ctx haltChain then mret true
  else
    haltChain ← GetMimir "NodePauseChainGlobal";
    if BlockHeight ctx <? haltChain then mret true
    else
      haltChain ← GetMimir ("Halt" +:+ Chains.Str c +:+ "Chain");
      if halted_after ctx haltChain then mret true
      else
        haltChain ← GetMimir ("SolvencyHalt" +:+ Chains.Str c +:+ "Chain");
        mret (halted_after ctx haltChain).

Definition IsChainTradingHalted (ctx : Ctx) (c : Chain) : K bool :=
  haltChainTrading ← GetMimir ("Halt" +:+ Chains.Str c +:+ "Trading");
  if halted_after ctx haltChainTrading then mret true else IsChainHalted ctx c.

Definition IsLPPaused (ctx : Ctx) (c : Chain) : K bool :=
  pauseLPGlobal ← GetMimir "PauseLP";
  if halted_after ctx pauseLPGlobal then mret true
  else
    pauseLP ← GetMimir ("PauseLP" +:+ Chains.Str c);
    mret (halted_after ctx pauseLP).

Definition IsPoolDepositPaused (a : Asset) : K bool :=
  v ← GetMimir ("PauseLPDeposit-" +:+ Assets.MimirString a);
  mret (0 <? v).

(** [a || b] evaluates [b] only when [a] is false. *)
Definition or_else (a b : K bool) : K bool := x ← a; if x : bool then mret true else b.

Definition IsSWCYTradingHalted (ctx : Ctx) : K bool :=
  haltSWCYTrading ← GetMimir "HaltSWCYTrading";
  if halted_after ctx haltSWCYTrading then mret true
  else or_else (IsGlobalTradingHalted ctx) (IsChainHalted ctx SWITCHLYChain).

(** Reading the first coin of a swap without coins panics. *)
Definition IsTradingHalt (ctx : Ctx) (msg : HaltMsg) : K bool :=
  checkAssets ←
    match msg with
    | SwapMsg coins target =>
        coin ← lift (match coins with c :: _ => Ok c | [] => Panic end);
        let source := coin_asset coin in
        mret (if Synth source && Assets.Equals target (Assets.GetLayer1Asset source)
              then [] else [source; target])
    | AddMsg a => mret [a]
    | OtherMsg => mret []
    end;
  rag ← IsRagnarok checkAssets;
  if rag : bool then mret true
  else
    match msg with
    | SwapMsg coins target =>
        coin ← lift (match coins with c :: _ => Ok c | [] => Panic end);
        let sourceAsset := coin_asset coin in
        let source := chain (Assets.GetLayer1Asset sourceAsset) in
        let targetChain := chain (Assets.GetLayer1Asset target) in
        if Assets.IsSWCY sourceAsset
        then or_else (IsSWCYTradingHalted ctx) (IsChainTradingHalted ctx targetChain)
        else if Assets.IsSWCY target
        then or_else (IsSWCYTradingHalted ctx) (IsChainTradingHalted ctx source)
        else or_else (IsChainTradingHalted ctx source)
               (or_else (IsChainTradingHalted ctx targetChain) (IsGlobalTradingHalted ctx))
    | AddMsg a =>
        if Assets.IsSWCY a then IsSWCYTradingHalted ctx
        else or_else (IsChainTradingHalted ctx (chain a)) (IsGlobalTradingHalted ctx)
    | OtherMsg => IsGlobalTradingHalted ctx
    end.

(** ** Facts *)

(** Every query answers, and leaves the state alone. *)
Definition reads (m : K bool) (s : State) : Prop := ∃ b, m s = (Ok b, s).

Lemma reads_GetMimir k s : GetMimir k s = (Ok (default (-1) (mimirs s !! GetKey k)), s).
Proof. done. Qed.

Lemma IsChainHalted_reads ctx c s : reads (IsChainHalted ctx c) s.
Proof.
  unfold reads, IsChainHalted, mbind, M_bind, mret, M_ret.
  repeat (rewrite reads_GetMimir; case_match; try (by eexists); simplify_eq).
Qed.

Lemma IsGlobalTradingHalted_reads ctx s : reads (IsGlobalTradingHalted ctx) s.
Proof.
  unfold reads, IsGlobalTradingHalted, RagnarokInProgress, mbind, M_bind, mret, M_ret.
  rewrite reads_GetMimir. destruct (halted_after _ _); by eexists.
Qed.

Lemma IsChainTradingHalted_reads ctx c s : reads (IsChainTradingHalted ctx c) s.
Proof.
  unfold reads, IsChainTradingHalted, mbind, M_bind. rewrite reads_GetMimir.
  destruct (halted_after _ _); [by eexists|]. apply IsChainHalted_reads.
Qed.

Lemma IsLPPaused_reads ctx c s : reads (IsLPPaused ctx c) s.
Proof.
  unfold reads, IsLPPaused, mbind, M_bind, mret, M_ret. rewrite reads_GetMimir.
  destruct (halted_after _ _); by eexists.
Qed.

Lemma or_else_reads a b s : reads a s → reads b s → reads (or_else a b) s.
Proof.
  intros [x Ha] [y Hb]. unfold reads, or_else, mbind, M_bind. rewrite Ha.
  destruct x; [by eexists|]. rewrite Hb. by eexists.
Qed.

Lemma or_else_true a b s :
  reads a s → reads b s → (a s = (Ok true, s) ∨ b s = (Ok true, s)) → or_else a b s = (Ok true, s).
Proof.
  intros [x Ha] [y Hb] Hor. unfold or_else, mbind, M_bind. rewrite Ha.
  destruct x; [done|]. rewrite Ha in Hor. by destruct Hor.
Qed.

Lemma IsSWCYTradingHalted_reads ctx s : reads (IsSWCYTradingHalted ctx) s.
Proof.
  unfold reads, IsSWCYTradingHalted, mbind, M_bind. rewrite reads_GetMimir.
  destruct (halted_after _ _); [by eexists|].
  apply or_else_reads; [apply IsGlobalTradingHalted_reads|apply IsChainHalted_reads].
Qed.

Lemma any_ragnarok_reads assets s : reads (any_ragnarok assets) s.
Proof.
  induction assets as [|a assets IH]; [by eexists|].
  unfold reads, mbind, M_bind. cbn [any_ragnarok]. unfold mbind, M_bind. rewrite reads_GetMimir.
  destruct (0 <? _); [by eexists|exact IH].
Qed.

#[local] Hint Resolve IsChainHalted_reads IsGlobalTradingHalted_reads IsChainTradingHalted_reads
  IsSWCYTradingHalted_reads or_else_reads : core.

(** The mimir of the global chain halt. *)
Definition chain_halt (s : State) : Z := default (-1) (mimirs s !! "HALTCHAINGLOBAL").

Lemma chain_halt_halts ctx c s :
  halted_after ctx (chain_halt s) = true → IsChainHalted ctx c s = (Ok true, s).
Proof.
  intros Hh. unfold IsChainHalted, mbind, M_bind. rewrite reads_GetMimir.
  change (mimirs s !! GetKey "HaltChainGlobal") with (mimirs s !! "HALTCHAINGLOBAL").
  fold (chain_halt s). by rewrite Hh.
Qed.

Lemma chain_halt_halts_trading ctx c s :
  halted_after ctx (chain_halt s) = true → IsChainTradingHalted ctx c s = (Ok true, s).
Proof.
  intros Hh. unfold IsChainTradingHalted, mbind, M_bind. rewrite reads_GetMimir.
  destruct (halted_after ctx (default (-1) _)); [done|]. by apply chain_halt_halts.
Qed.

Lemma chain_halt_halts_swcy ctx s :
  halted_after ctx (chain_halt s) = true → IsSWCYTradingHalted ctx s = (Ok true, s).
Proof.
  intros Hh. unfold IsSWCYTradingHalted, mbind, M_bind. rewrite reads_GetMimir.
  destruct (halted_after ctx (default (-1) _)); [done|].
  apply or_else_true; [done..|]. right. by apply chain_halt_halts.
Qed.

#[local] Hint Resolve chain_halt_halts_trading chain_halt_halts_swcy : core.

Lemma IsRagnarok_reads assets s : reads (IsRagnarok assets) s.
Proof. apply any_ragnarok_reads. Qed.

(** While the global chain halt is in force no swap and no addition of
    liquidity of any asset may trade, whatever other mimirs say. *)
Theorem global_chain_halt_stops_trading ctx msg s :
  0 < chain_halt s < BlockHeight ctx →
  (∀ coins t, msg = SwapMsg coins t → coins ≠ []) → msg ≠ OtherMsg →
  IsTradingHalt ctx msg s = (Ok true, s).
Proof.
  intros Hh Hsome Hmsg.
  assert (Hin : halted_after ctx (chain_halt s) = true)
    by (unfold halted_after; apply andb_true_iff; rewrite !Z.ltb_lt; lia).
  unfold IsTradingHalt, mbind, M_bind. destruct msg as [[|coin coins] t|a|]; try done.
  - by destruct (Hsome [] t).
  - unfold lift, mret, M_ret. match goal with |- context [IsRagnarok ?l s] =>
      destruct (IsRagnarok_reads l s) as [[] ->] end; [done|].
    destruct (Assets.IsSWCY (coin_asset coin)); [|destruct (Assets.IsSWCY t)];
      apply or_else_true; eauto.
  - unfold mret, M_ret. match goal with |- context [IsRagnarok ?l s] =>
      destruct (IsRagnarok_reads l s) as [[] ->] end; [done|].
    destruct (Assets.IsSWCY a); [eauto|]. apply or_else_true; eauto.
Qed.
End Halts.

Lemma global_chain_halt_stops_trading_witness :
  IsTradingHalt (mkCtx 8 3 "") (SwapMsg [NewCoin SWCY 5] BTCAsset)
    (put_mimirs {["HALTCHAINGLOBAL" := 7]} empty_state) =
  (Ok true, put_mimirs {["HALTCHAINGLOBAL" := 7]} empty_state).
Proof.
  apply (global_chain_halt_stops_trading (mkCtx 8 3 "")).
  - vm_compute. split; reflexivity.
  - intros coins t [= <- <-]. discriminate.
  - discriminate.
Defined.
