(* ===== verification/Fees.v ===== *)
(** * Prices and fees

    src/x/switchly/keeper/v1/keeper_anchors.go: the price of SWITCH in dollars,
    the median over the anchor pools; and the fees of keeper.go and
    keeper_outbound_fees.go that are set in dollars or in SWITCH. *)

From Stdlib Require Import Ascii Sorted.
From stdpp Require Import sorting.
From S2P Require Import Prelude GoStrings CosmosMath Amounts Assets Coins Pools Constants State Halts.
Open Scope Z_scope.

Definition DollarMulti : Z := 1000000000.

Section Fees.
  Context `{CosmosMath} `{Bank} `{Env}.

Definition is_anchor (p : Pool) : K bool :=
  val ← GetMimir (str_map (λ c, if Ascii.eqb c "." then "-"%char else c) ("SwitchlyAnchor-" +:+ Assets.Str (pool_asset p)));
  mret (0 <? val).
Fixpoint anchors_of (ps : list Pool) : K (list Asset) :=
  match ps with
  | [] => mret []
  | p :: r => a ← is_anchor p; l ← anchors_of r; mret (if a : bool then pool_asset p :: l else l)
  end.
Definition GetAnchors (a : Asset) : K (list Asset) :=
  if Assets.Equals a SWITCHLY then ps ← GetPools; anchors_of ps else mret [Assets.GetLayer1Asset a].

(** The price a pool gives, if it counts. *)
Definition anchor_price (ctx : Ctx) (a : Asset) : K (option Z) :=
  halted ← or_else (IsGlobalTradingHalted ctx) (IsChainTradingHalted ctx (chain a));
  if halted : bool then mret None
  else
    pool ← GetPool a;
    if negb (IsAvailable pool) then mret None
    else
      value ← lift (SWITCHValueInAsset pool (DollarMulti * One));
      mret (if value =? 0 then None else Some value).
Fixpoint anchor_prices (ctx : Ctx) (assets : list Asset) : K (list Z) :=
  match assets with
  | [] => mret []
  | a :: r =>
      v ← anchor_price ctx a;
      l ← anchor_prices ctx r;
      mret (match v with Some x => x :: l | None => l end)
  end.
Definition AnchorMedian (ctx : Ctx) (assets : list Asset) : K Z :=
  p ← anchor_prices ctx assets;
  lift (GetMedianUint p).

Definition DollarsPerSWITCH (ctx : Ctx) : K Z :=
  dollarsPerSWITCH ← GetMimir "DollarsPerSWITCH";
  if 0 <? dollarsPerSWITCH then mret (to_u64 dollarsPerSWITCH)
  else
    usdAssets ← GetAnchors SWITCHLY;
    median ← AnchorMedian ctx usdAssets;
    lift (uquo median DollarMulti).
Definition SWITCHPerDollar (ctx : Ctx) : K Z :=
  price ← DollarsPerSWITCH ctx;
  mret (GetUncappedShare One price One).

(** ** Fees *)

Definition usdFeesEnabled : K bool := usdFees ← GetMimir "EnableUSDFees"; mret (0 <? usdFees).
(** Without a price the value in dollars is taken as it is. *)
Definition DollarConfigInSWITCH (ctx : Ctx) (value : string) : K Z :=
  cfg ← GetConfigInt64 value;
  let usd := SafeUintFromInt64 cfg in
  price ← DollarsPerSWITCH ctx;
  if price =? 0 then mret usd
  else
    m ← lift (umul usd One);
    switchValue ← lift (uquo m price);
    v ← lift (as_uint64 switchValue);
    digits ← GetConfigInt64 "FeeUSDRoundSignificantDigits";
    lift (RoundSignificantFigures v digits).

Definition usd_or_switch (ctx : Ctx) (usd : string) (fee : K Z) : K Z :=
  b ← usdFeesEnabled;
  if b : bool then DollarConfigInSWITCH ctx usd else v ← fee; mret (to_u64 v).
Definition GetNativeTxFee (ctx : Ctx) : K Z :=
  usd_or_switch ctx "NativeTransactionFeeUSD" (GetConfigInt64 "NativeTransactionFee").
Definition GetOutboundTxFee (ctx : Ctx) : K Z :=
  usd_or_switch ctx "NativeOutboundFeeUSD" (GetConfigInt64 "OutboundTransactionFee").
Definition GetSWITCHNameRegisterFee (ctx : Ctx) : K Z :=
  usd_or_switch ctx "TNSRegisterFeeUSD" (mret (GetInt64Value int64Overrides "TNSRegisterFee")).
Definition GetSWITCHNamePerBlockFee (ctx : Ctx) : K Z :=
  usd_or_switch ctx "TNSFeePerBlockUSD" (mret (GetInt64Value int64Overrides "TNSFeePerBlock")).
Definition DeductNativeTxFeeFromAccount (ctx : Ctx) (acct : string) : K () :=
  fee ← GetNativeTxFee ctx;
  if fee =? 0 then mret () else SendFromAccountToModule acct ReserveName [NewCoin SwitchNative fee].

(** ** The median *)

(** How many of a list lie in a range. *)
Definition inside (lo hi : Z) (l : list Z) : nat := length (List.filter (λ v, (lo <=? v) && (v <=? hi)) l).

Lemma inside_perm lo hi l l' : l ≡ₚ l' → inside lo hi l = inside lo hi l'.
Proof.
  unfold inside. induction 1; cbn; repeat case_match; cbn; lia.
Qed.
Lemma inside_app lo hi l l' : inside lo hi (l ++ l') = (inside lo hi l + inside lo hi l')%nat.
Proof. unfold inside. by rewrite List.filter_app, length_app. Qed.
Lemma inside_none lo hi l : (∀ v, v ∈ l → v < lo ∨ hi < v) → inside lo hi l = 0%nat.
Proof.
  induction l as [|v l IH]; intros Hl; [done|]. unfold inside in *. cbn.
  destruct (Z.leb_spec lo v), (Z.leb_spec v hi); cbn; try (apply IH; intros; by apply Hl, list_elem_of_further).
  destruct (Hl v (list_elem_of_here _ _)); lia.
Qed.
Lemma inside_le lo hi l : (inside lo hi l <= length l)%nat.
Proof. apply List.filter_length_le. Qed.

(** In a sorted list, of which more than half lie in a range, an element with
    no more than half of the list before it nor after it does too. *)
Lemma sorted_middle lo hi l i v :
  StronglySorted Z.le l → (length l < 2 * inside lo hi l)%nat → l !! i = Some v →
  (length l <= 2 * i + 2)%nat → (2 * i <= length l)%nat → lo <= v <= hi.
Proof.
  intros Hs Hin Hi H1i H2i. pose proof (lookup_lt_Some _ _ _ Hi) as Hlt.
  assert (Hlt' : length (take i l) = i) by (rewrite length_take; lia).
  pose proof (length_drop l (S i)) as Hld.
  assert (Hsum : inside lo hi l = (inside lo hi (take i l) + (inside lo hi [v] + inside lo hi (drop (S i) l)))%nat).
  { rewrite <- inside_app, <- inside_app. f_equal. symmetry. by apply take_drop_middle. }
  rewrite Hsum in Hin. clear Hsum. rewrite <- (take_drop_middle l i v Hi) in Hs.
  pose proof (inside_le lo hi (take i l)). pose proof (inside_le lo hi (drop (S i) l)).
  pose proof (inside_le lo hi [v]) as Hv. cbn in Hv.
  split; apply Z.nlt_ge; intros Hout.
  - rewrite (inside_none lo hi (take i l)), (inside_none lo hi [v]) in Hin; [lia| |].
    + intros w Hw%list_elem_of_singleton. subst. by left.
    + intros w Hw. left. assert (w <= v); [|lia].
      eapply (StronglySorted_app_1_elem_of _ (take i l) (v :: drop (S i) l)); [done|done|apply list_elem_of_here].
  - rewrite (inside_none lo hi (drop (S i) l)), (inside_none lo hi [v]) in Hin; [lia| |].
    + intros w Hw%list_elem_of_singleton. subst. by right.
    + intros w Hw. right. assert (v <= w); [|lia].
      apply StronglySorted_app_1_r in Hs. inversion_clear Hs as [|?? _ Hall].
      by apply (proj1 (list.Forall_forall _ _) Hall).
Qed.

Lemma GetMedianUint_majority lo hi vals m :
  (length vals < 2 * inside lo hi vals)%nat → GetMedianUint vals = Ok m → lo <= m <= hi.
Proof.
  intros Hin Hok. unfold GetMedianUint in Hok. set (l := merge_sort Z.le vals) in *.
  assert (Hp : l ≡ₚ vals) by apply merge_sort_Permutation.
  assert (Hs : StronglySorted Z.le l) by (apply StronglySorted_merge_sort; apply _).
  rewrite <- (inside_perm _ _ _ _ Hp), <- (Permutation_length Hp) in Hin. clearbody l.
  destruct (length vals =? 0)%nat eqn:Hz.
  { apply Nat.eqb_eq in Hz. apply Permutation_length in Hp. pose proof (inside_le lo hi l). lia. }
  pose proof (Nat.div_mod_eq (length l) 2) as Hdm. pose proof (Nat.mod_upper_bound (length l) 2 ltac:(lia)).
  cbv zeta in Hok. destruct (Nat.ltb_spec 0 (length l mod 2)).
  - destruct (l !! (length l / 2)%nat) as [v|] eqn:Hv; [|done]. injection Hok as <-.
    eapply sorted_middle; [done|done|done|lia|lia].
  - destruct (l !! (length l / 2 - 1)%nat) as [v|] eqn:Hv; [|done].
    destruct (l !! (length l / 2)%nat) as [w|] eqn:Hw; [|done]. uint_inv.
    assert (length l ≠ 0)%nat by (pose proof (inside_le lo hi l); lia).
    assert (lo <= v <= hi) by (eapply sorted_middle; [done|done|done|lia|lia]).
    assert (lo <= w <= hi) by (eapply sorted_middle; [done|done|done|lia|lia]).
    split; [apply Z.div_le_lower_bound; lia|apply Z.div_le_upper_bound; lia].
Qed.

Lemma anchor_price_reads ctx a s : ∃ r, anchor_price ctx a s = (r, s).
Proof.
  unfold anchor_price, mbind, M_bind.
  destruct (or_else_reads _ _ s (IsGlobalTradingHalted_reads ctx s) (IsChainTradingHalted_reads ctx (chain a) s)) as [b ->].
  destruct b; [by eexists|]. unfold GetPool, gets. destruct (negb _); [by eexists|].
  unfold lift. destruct (SWITCHValueInAsset _ _); by eexists.
Qed.
Lemma anchor_prices_reads ctx assets s : ∃ r, anchor_prices ctx assets s = (r, s).
Proof.
  induction assets as [|a l [r IH]]; [by eexists|]. cbn. unfold mbind, M_bind.
  destruct (anchor_price_reads ctx a s) as [x ->]. destruct x; [|by eexists..]. rewrite IH. destruct r; by eexists.
Qed.

(** The price of SWITCH in dollars is the median over the anchor pools that
    trade: while more than half of them have prices in a range, the others
    cannot move it out of that range; without such pools it is zero. *)
Theorem AnchorMedian_majority ctx assets s m s' :
  AnchorMedian ctx assets s = (Ok m, s') →
  s' = s ∧ ∃ prices, anchor_prices ctx assets s = (Ok prices, s) ∧
    (prices = [] → m = 0) ∧
    ∀ lo hi, (length prices < 2 * inside lo hi prices)%nat → lo <= m <= hi.
Proof.
  intros Hrun. unfold AnchorMedian in Hrun. run_step Hrun prices s1 E.
  destruct (anchor_prices_reads ctx assets s) as [r Hr]. rewrite Hr in E. injection E as -> <-.
  apply lift_ok in Hrun as [Hm ->]. split; [done|]. exists prices. split_and!; [done| |].
  - intros ->. by injection Hm.
  - intros lo hi Hin. by eapply GetMedianUint_majority.
Qed.
End Fees.

(** ** Witness *)

(** Two anchors near six dollars; a third is moved to a hundred. *)
Definition usd_asset (c : Chain) : Asset := layer1 c "USDC" "USDC".
Definition usd_pool (c : Chain) (depth : Z) : Pool := mkPool (1000 * One) (depth * One) (usd_asset c) 1000 Available 0 0 0 0 0.
Definition three_anchors : State :=
  put_pools (list_to_map ((λ p, (GetKey (Assets.Str (pool_asset p)), p)) <$>
    [usd_pool ETHChain 6000; usd_pool AVAXChain 6200; usd_pool BSCChain 100000])) empty_state.

Definition three_prices : list Z := [599999999999999999; 620000000000000001; 10000000000000000000].
Definition usd_assets : list Asset := usd_asset <$> [ETHChain; AVAXChain; BSCChain].
Definition price_block : Ctx := mkCtx 5 3 "".

Lemma AnchorMedian_majority_witness :
  ∃ m, fst (AnchorMedian price_block usd_assets three_anchors) = Ok m ∧ 599999999999999999 <= m <= 620000000000000001.
Proof.
  assert (fst (AnchorMedian price_block usd_assets three_anchors) = Ok 620000000000000001) as H by (vm_compute; reflexivity).
  assert (fst (anchor_prices price_block usd_assets three_anchors) = Ok three_prices) as Hp by (vm_compute; reflexivity).
  eexists. split; [exact H|].
  destruct (AnchorMedian_majority price_block usd_assets three_anchors _ _ (run_pair _ _ H)) as (_ & prices & Hr & _ & Hm).
  rewrite Hr in Hp. injection Hp as ->. apply Hm. vm_compute. lia.
Defined.
