(* ===== verification/Supply.v ===== *)
(** * The supply cap of SWITCH

    [MintToModule] of src/x/switchly/keeper/v1/keeper.go (modelled in [State])
    seen from outside: what the cap of the [MaxSWITCHSupply] mimir guarantees,
    and that a supply above it stops trading, through the queries of [Halts]. *)

From S2P Require Import Prelude CosmosMath Amounts GoStrings Assets Coins Pools Constants State Halts.
Open Scope Z_scope.

Section Supply.
  Context `{CosmosMath} `{Bank} `{Env}.

(** The SWITCH a party owns. *)
Definition switch_of (s : State) (p : party) : Z := bank_balance (bank s) p "switch".

(** A cap that [NewUint(uint64(maxAmt))] keeps and no ragnarok of SWITCH. *)
Record capped (s : State) : Prop := {
  cap_range : 0 < supply_cap s < 2 ^ 63;
  cap_ragnarok : poolRagnarok s !! "SWITCHLY.SWITCH" = None;
}.

(** What the cap leaves room for. *)
Definition room (s : State) : Z := Z.max 0 (supply_cap s - switch_supply s).

Lemma switch_native c : Assets.IsSwitch (coin_asset c) = true → Assets.Native (coin_asset c) = "switch".
Proof. unfold Assets.Native. by intros ->. Qed.

Lemma GetTotalSupply_switch s u s' :
  capped s → GetTotalSupply SwitchNative s = (Ok u, s') → s' = s ∧ u = switch_supply s ∧ 0 ≤ u < 2 ^ 64.
Proof.
  intros Hcap Hok. apply GetTotalSupply_ok in Hok as (-> & ? & Hu). split; [done|].
  split; [|done]. apply Hu. change (GetKey _) with "SWITCHLY.SWITCH". by rewrite (cap_ragnarok s Hcap).
Qed.

(** Minting SWITCH below the cap trips nothing. *)
Lemma mint_checked_switch mod_ c s s' :
  Assets.IsSwitch (coin_asset c) = true →
  coin_amount c + switch_supply s ≤ supply_cap s ∨ coin_amount c = 0 → 
  mint_checked mod_ c s = (Ok (), s') →
  ∃ b, s' = put_bank b s ∧
    (∀ d, bank_supply b d = bank_supply (bank s) d + (if decide (d = "switch") then coin_amount c else 0)) ∧
    (∀ p d, bank_balance b p d = bank_balance (bank s) p d +
       (if decide (p = Module_acc mod_ ∧ d = "switch") then coin_amount c else 0)).
Proof.
  intros Hs Hroom Hok. destruct (Z.eq_dec (coin_amount c) 0) as [Hz|Hz].
  - unfold mint_checked in Hok. rewrite Hz in *. cbn in Hok. injection Hok as <-.
    exists (bank s). split; [by destruct s|]. split; intros; case_decide; lia.
  - destruct Hroom as [Hroom|]; [|done].
    apply mint_checked_ok in Hok as (b & Hmint & ->); [|done].
    unfold native_coin in Hmint. rewrite (switch_native c Hs) in Hmint.
    apply bank_mint_law in Hmint as (_ & Hsup & Hbal). exists b. split; [|done].
    rewrite (Hsup "switch"). fold (switch_supply s). rewrite decide_True by done.
    destruct (Z.ltb_spec (supply_cap s) (switch_supply s + coin_amount c)); [lia|].
    rewrite andb_false_r. by destruct s.
Qed.

(** Minting SWITCH under a cap: the cap leaves room for a part of the coin,
    which is minted; the reserve pays the rest. *)
Lemma MintToModule_switch_ok mod_ c s s' :
  Assets.IsSwitch (coin_asset c) = true → 0 ≤ coin_amount c → capped s →
  MintToModule mod_ c s = (Ok (), s') →
  let minted := Z.min (coin_amount c) (room s) in
  ∃ b, s' = put_bank b s ∧
    bank_supply b "switch" = switch_supply s + minted ∧
    (∀ p, bank_balance b p "switch" = switch_of s p
       + (if decide (p = Module_acc mod_) then coin_amount c else 0)
       - (if decide (p = Module_acc ReserveName) then coin_amount c - minted else 0)).
Proof.
  intros Hs Hc Hcap. pose proof (cap_range s Hcap).
  unfold MintToModule, GetMimir. rewrite Hs. cbn [andb]. intros Hok. run_step Hok m s1 E.
  apply gets_ok in E as [-> ->]. change (default (-1) _) with (supply_cap s) in Hok.
  destruct (Z.ltb_spec 0 (supply_cap s)) as [_|]; [|lia].
  run_step Hok c' s1 E. run_step E u s2 Eu.
  apply GetTotalSupply_switch in Eu as (-> & -> & Hlt); [|done].
  rewrite to_u64_id in E by lia. run_inv.
  match goal with Ha : SafeSub _ _ = Ok ?a |- _ => apply SafeSub_inv in Ha as ->; [|lia..] end.
  fold (room s) in E. cbn zeta. assert (0 ≤ room s) by (unfold room; lia).
  destruct (Z.ltb_spec (room s) (coin_amount c)) as [Hr|Hr].
  - run_inv.
    repeat match goal with Ha : SafeSub _ _ = Ok ?a |- _ => apply SafeSub_inv in Ha as ->; [|lia..] end.
    match goal with He : SendFromModuleToModule _ _ _ _ = _ |- _ =>
      apply in_bank_ok in He as (b1 & He & ->); cbn [map] in He; apply bank_send_law in He as (_ & Hs1 & Hb1) end.
    apply mint_checked_switch in Hok as (b & -> & Hs2 & Hb2); [|done|].
    2:{ cbn [coin_amount]. unfold switch_supply. cbn [bank put_bank]. rewrite Hs1.
        fold (switch_supply s). change (supply_cap (put_bank b1 s)) with (supply_cap s).
        unfold room in *. lia. }
    exists b. split; [by destruct s|]. cbn [bank put_bank coin_amount] in *. split.
    + rewrite Hs2, Hs1, decide_True by done. unfold switch_supply. lia.
    + intros p. rewrite Hb2, Hb1. unfold switch_of. cbn [coin_asset coin_amount NewCoin].
      change (Assets.Native SwitchNative) with "switch".
      repeat case_decide; naive_solver lia.
  - run_inv. apply mint_checked_switch in Hok as (b & -> & Hs2 & Hb2); [|done|unfold room in *; lia].
    exists b. split; [done|]. split.
    + rewrite Hs2, decide_True by done. unfold switch_supply. lia.
    + intros p. rewrite Hb2. unfold switch_of. repeat case_decide; naive_solver lia.
Qed.

(** Under a cap, [MintToModule] of SWITCH to a module other than the reserve
    credits the module with the whole amount while the supply never passes the
    cap (or what it was): exactly what is not minted comes out of the reserve,
    no other balance of SWITCH changes and the circuit breaker stays closed. *)
Theorem switch_mint_respects_the_cap mod_ c s s' :
  Assets.IsSwitch (coin_asset c) = true → 0 ≤ coin_amount c → capped s → mod_ ≠ ReserveName →
  MintToModule mod_ c s = (Ok (), s') →
  let minted := switch_supply s' - switch_supply s in
  let spent := switch_of s (Module_acc ReserveName) - switch_of s' (Module_acc ReserveName) in
  0 ≤ minted ∧ 0 ≤ spent ∧ minted + spent = coin_amount c ∧
  switch_supply s' ≤ Z.max (supply_cap s) (switch_supply s) ∧
  switch_of s' (Module_acc mod_) = switch_of s (Module_acc mod_) + coin_amount c ∧
  (∀ p, p ≠ Module_acc mod_ → p ≠ Module_acc ReserveName → switch_of s' p = switch_of s p) ∧
  mimirs s' = mimirs s.
Proof.
  intros Hs Hc Hcap Hmod Hok.
  destruct (MintToModule_switch_ok mod_ c s s' Hs Hc Hcap Hok) as (b & -> & Hsup & Hbal).
  unfold switch_supply, switch_of. cbn [bank put_bank mimirs].
  rewrite Hsup, !Hbal. unfold room, switch_of, switch_supply in *.
  assert (Hne : Module_acc ReserveName ≠ Module_acc mod_) by congruence.
  rewrite (decide_False (P := Module_acc ReserveName = _)), (decide_False (P := Module_acc mod_ = Module_acc ReserveName)), !decide_True by congruence.
  split_and!; try lia; [|done]. intros p H1p H2p. rewrite Hbal, !decide_False by done. lia.
Qed.

(** The circuit breaker: when the supply of SWITCH is found above the cap after
    another coin was minted, trading, every chain and every liquidity action
    are halted from height 2 on; otherwise minting changes no mimir. *)
Theorem minting_above_the_cap_halts mod_ c s s' :
  Assets.IsSwitch (coin_asset c) = false → coin_amount c ≠ 0 → 0 < supply_cap s →
  MintToModule mod_ c s = (Ok (), s') →
  (switch_supply s' ≤ supply_cap s → mimirs s' = mimirs s) ∧
  (supply_cap s < switch_supply s' →
   ∀ ctx, 1 < BlockHeight ctx →
     IsGlobalTradingHalted ctx s' = (Ok true, s') ∧
     ∀ c, IsChainHalted ctx c s' = (Ok true, s') ∧
          IsChainTradingHalted ctx c s' = (Ok true, s') ∧ IsLPPaused ctx c s' = (Ok true, s')).
Proof.
  intros Hs Hc Hcap Hok. apply MintToModule_ok in Hok as (b & _ & ->); [|done|done].
  unfold switch_supply. cbn [bank put_bank mimirs].
  destruct (Z.ltb_spec 0 (supply_cap s)) as [_|]; [|lia]. cbn [andb].
  destruct (Z.ltb_spec (supply_cap s) (bank_supply b "switch")) as [Hlt|Hle]; split; try done; try lia.
  intros _ ctx Hctx.
  set (s1 := put_bank b (put_mimirs (tripped (mimirs s)) s)).
  assert (Hin : halted_after ctx 1 = true)
    by (unfold halted_after; rewrite (proj2 (Z.ltb_lt 1 (BlockHeight ctx))); [done|lia]).
  assert (Hm : mimirs s1 = tripped (mimirs s)) by done. clearbody s1.
  assert (Hchain : chain_halt s1 = 1).
  { unfold chain_halt. rewrite Hm. unfold tripped. by simplify_map_eq. }
  split; [|intros c0; split; [|split]].
  - unfold IsGlobalTradingHalted, mbind, M_bind. rewrite reads_GetMimir, Hm.
    change (GetKey "HaltTrading") with "HALTTRADING". unfold tripped. simplify_map_eq.
    cbn [default from_option id]. by rewrite Hin.
  - apply chain_halt_halts. by rewrite Hchain.
  - apply chain_halt_halts_trading. by rewrite Hchain.
  - unfold IsLPPaused, mbind, M_bind. rewrite reads_GetMimir, Hm.
    change (GetKey "PauseLP") with "PAUSELP". unfold tripped. simplify_map_eq.
    cbn [default from_option id]. by rewrite Hin.
Qed.
End Supply.

(** ** Witnesses *)

Definition capped_state : State :=
  put_mimirs {["MAXSWITCHSUPPLY" := 100]}
    (put_bank (BankRef.mkLedger {[(Module_acc "reserve", "switch") := 50]} {["switch" := 90]}) empty_state).

Lemma switch_mint_respects_the_cap_witness :
  switch_supply (snd (MintToModule "switchly" (NewCoin SwitchNative 30) capped_state)) ≤ 100.
Proof.
  assert (fst (MintToModule "switchly" (NewCoin SwitchNative 30) capped_state) = Ok ()) as Hok
    by (vm_compute; reflexivity).
  apply run_pair in Hok. rename Hok into Hrun.
  apply switch_mint_respects_the_cap in Hrun as (_ & _ & _ & Hle & _).
  - exact Hle.
  - reflexivity.
  - cbn. lia.
  - constructor; vm_compute; [split; reflexivity|reflexivity].
  - discriminate.
Defined.

Definition over_the_cap : State :=
  put_mimirs {["MAXSWITCHSUPPLY" := 80]} capped_state.

Lemma minting_above_the_cap_halts_witness :
  let s' := snd (MintToModule "switchly" (NewCoin SWCY 30) over_the_cap) in
  IsGlobalTradingHalted (mkCtx 8 3 "") s' = (Ok true, s').
Proof.
  assert (fst (MintToModule "switchly" (NewCoin SWCY 30) over_the_cap) = Ok ()) as Hok
    by (vm_compute; reflexivity).
  apply run_pair in Hok. rename Hok into Hrun.
  apply minting_above_the_cap_halts in Hrun as [_ Hhalt].
  - destruct (Hhalt ltac:(vm_compute; reflexivity) (mkCtx 8 3 "") eq_refl) as [Hg _]. exact Hg.
  - reflexivity.
  - discriminate.
  - vm_compute. reflexivity.
Defined.
