(* ===== verification/Positions.v ===== *)
(** * The positions of the liquidity providers

    The invariant the liquidity handlers keep between the pools and the
    liquidity providers of the store: units and pending amounts of a pool are
    the sums over its providers, and records are stored under their own keys
    (src/x/switchly/keeper/v1/keeper_liquidity_provider.go, keeper_pool.go). *)

From Stdlib Require Import Ascii.
From S2P Require Import Prelude CosmosMath Amounts GoStrings Assets Coins Pools Constants State.
Open Scope Z_scope.

(** ** Keys *)

Definition no_slash (s : string) : bool := str_forall (λ c, negb (is_char "/" c)) (ToUpper s).

(** The last ["/"] of a key separates the asset from the address. *)
Lemma last_slash x y x' y' :
  str_forall (λ c, negb (is_char "/" c)) y = true →
  str_forall (λ c, negb (is_char "/" c)) y' = true →
  x +:+ "/" +:+ y = x' +:+ "/" +:+ y' → x = x' ∧ y = y'.
Proof.
  intros Hy Hy'. revert x'. induction x as [|c x IH]; intros [|c' x']; rewrite ?app_cons, ?app_nil.
  - by intros [= ->].
  - intros [= <- Heq]. exfalso. rewrite Heq, !str_forall_app in Hy.
    rewrite andb_true_iff in Hy. destruct Hy as [_ Hy]. discriminate Hy.
  - intros [= -> Heq]. exfalso. rewrite <- Heq, !str_forall_app in Hy'.
    rewrite andb_true_iff in Hy'. destruct Hy' as [_ Hy']. discriminate Hy'.
  - intros [= <- Heq]. destruct (IH _ Heq) as [-> ->]. done.
Qed.

(** The key of a record: the asset's key, and the address. *)
Definition asset_key (a : Asset) : string := GetKey (Assets.Str a).
Definition lp_key (lp : LiquidityProvider) : string := GetKey (LP_Key lp).

Lemma lp_key_split lp :
  lp_key lp = asset_key (lp_asset lp) +:+ "/" +:+ ToUpper (LP_GetAddress lp).
Proof. unfold lp_key, asset_key, GetKey, LP_Key, ToUpper. by rewrite !str_map_app. Qed.

Lemma lp_key_inj lp lp' :
  no_slash (LP_GetAddress lp) = true → no_slash (LP_GetAddress lp') = true →
  lp_key lp = lp_key lp' →
  asset_key (lp_asset lp) = asset_key (lp_asset lp') ∧
  ToUpper (LP_GetAddress lp) = ToUpper (LP_GetAddress lp').
Proof. intros Hl Hl'. rewrite !lp_key_split. by apply last_slash. Qed.

(** ** The invariant *)

Section Positions.
  Context `{CosmosMath} `{Bank} `{Env}.

Definition pool_of (s : State) (a : Asset) : Pool := default NewPool (pools s !! asset_key a).

(** The sum of an amount over the providers of a pool. *)
Definition of_asset (f : LiquidityProvider → Z) (k : string) (lp : LiquidityProvider) : Z :=
  if decide (asset_key (lp_asset lp) = k) then f lp else 0.
Definition held (f : LiquidityProvider → Z) (k : string) (s : State) : Z :=
  map_sum (of_asset f k) (lps s).

Record lp_wf (lp : LiquidityProvider) : Prop := {
  lw_units : 0 ≤ Units lp;
  lw_switch : 0 ≤ PendingSwitch lp;
  lw_asset : 0 ≤ PendingAsset lp;
  lw_addr : no_slash (LP_GetAddress lp) = true;
}.

(** An amount of the pool is the sum of an amount of its providers. *)
Definition sums (f : Pool → Z) (g : LiquidityProvider → Z) (s : State) : Prop :=
  ∀ a, f (pool_of s a) = held g (asset_key a) s.

Record positions_ok (s : State) : Prop := {
  po_lp : ∀ k lp, lps s !! k = Some lp → k = lp_key lp ∧ lp_wf lp;
  po_pool : ∀ k p, pools s !! k = Some p →
    k = asset_key (pool_asset p) ∧ Assets.IsEmpty (pool_asset p) = false ∧ pool_wf p;
  po_units : sums LPUnits Units s;
  po_switch : sums PendingInboundSwitch PendingSwitch s;
  po_asset : sums PendingInboundAsset PendingAsset s;
}.

(** One provider and its pool are written together. *)
Record wrote (s s' : State) (p : Pool) (lp : LiquidityProvider) : Prop := {
  wr_pools : pools s' = <[asset_key (pool_asset p) := p]> (pools s);
  wr_lps : lps s' = <[lp_key lp := lp]> (lps s);
  wr_asset : asset_key (lp_asset lp) = asset_key (pool_asset p);
}.

(** What the store has for a provider: nothing counts as zero. *)
Definition stored (f : LiquidityProvider → Z) (k : string) (s : State) : Z :=
  from_option f 0 (lps s !! k).

Lemma wrote_sums s s' p lp f g :
  positions_ok s → wrote s s' p lp → lp_wf lp → sums f g s →
  f p = f (pool_of s (pool_asset p)) - stored g (lp_key lp) s + g lp →
  sums f g s'.
Proof.
  intros Hok [Hp Hl Ha] Hwf Hs Hf a. unfold held. rewrite Hl, map_sum_insert.
  fold (held g (asset_key a) s). rewrite <- Hs.
  assert (Hold : from_option (of_asset g (asset_key a)) 0 (lps s !! lp_key lp) =
    if decide (asset_key (lp_asset lp) = asset_key a) then stored g (lp_key lp) s else 0).
  { unfold stored. destruct (lps s !! lp_key lp) as [lp0|] eqn:Hlp; cbn [from_option].
    - destruct (po_lp s Hok _ _ Hlp) as [Hk Hwf0]. unfold of_asset.
      destruct (lp_key_inj lp lp0) as [-> _]; [apply lw_addr; done..|done|]. done.
    - by destruct (decide _). }
  rewrite Hold. unfold of_asset, pool_of. rewrite Hp, Ha.
  destruct (decide (asset_key (pool_asset p) = asset_key a)) as [Heq|Hne].
  - rewrite <- Heq, lookup_insert_eq. cbn [default from_option id]. rewrite Hf.
    unfold pool_of. lia.
  - rewrite lookup_insert_ne by done. lia.
Qed.

(** Writing a provider and its pool keeps the invariant when their amounts move
    together. *)
Lemma positions_write s s' p lp :
  positions_ok s → wrote s s' p lp → lp_wf lp → pool_wf p →
  Assets.IsEmpty (pool_asset p) = false →
  let p0 := pool_of s (pool_asset p) in
  LPUnits p = LPUnits p0 - stored Units (lp_key lp) s + Units lp →
  PendingInboundSwitch p = PendingInboundSwitch p0 - stored PendingSwitch (lp_key lp) s + PendingSwitch lp →
  PendingInboundAsset p = PendingInboundAsset p0 - stored PendingAsset (lp_key lp) s + PendingAsset lp →
  positions_ok s'.
Proof.
  intros Hok Hw Hlw Hpw He p0 Hu Hs Ha. constructor.
  - intros k lp'. rewrite (wr_lps _ _ _ _ Hw). destruct (decide (k = lp_key lp)) as [->|].
    + rewrite lookup_insert_eq. by intros [= <-].
    + rewrite lookup_insert_ne by done. apply (po_lp s Hok).
  - intros k p'. rewrite (wr_pools _ _ _ _ Hw). destruct (decide (k = asset_key (pool_asset p))) as [->|].
    + rewrite lookup_insert_eq. by intros [= <-].
    + rewrite lookup_insert_ne by done. apply (po_pool s Hok).
  - eapply (wrote_sums s s' p lp LPUnits Units); eauto using po_units.
  - eapply (wrote_sums s s' p lp PendingInboundSwitch PendingSwitch); eauto using po_switch.
  - eapply (wrote_sums s s' p lp PendingInboundAsset PendingAsset); eauto using po_asset.
Qed.

(** A provider that holds nothing any more is removed. *)
Lemma delete_sums s s' p lp f g :
  positions_ok s → pools s' = <[asset_key (pool_asset p) := p]> (pools s) →
  lps s' = delete (lp_key lp) (lps s) → asset_key (lp_asset lp) = asset_key (pool_asset p) →
  no_slash (LP_GetAddress lp) = true → sums f g s →
  f p = f (pool_of s (pool_asset p)) - stored g (lp_key lp) s →
  sums f g s'.
Proof.
  intros Hok Hp Hl Ha Hns Hs Hf a. unfold held. rewrite Hl.
  assert (Hold : map_sum (of_asset g (asset_key a)) (delete (lp_key lp) (lps s)) =
    held g (asset_key a) s -
    (if decide (asset_key (lp_asset lp) = asset_key a) then stored g (lp_key lp) s else 0)).
  { unfold stored, held. destruct (lps s !! lp_key lp) as [lp0|] eqn:Hlp; cbn [from_option].
    - rewrite (map_sum_delete _ _ _ _ Hlp). destruct (po_lp s Hok _ _ Hlp) as [Hk Hwf0].
      assert (Hk' : asset_key (lp_asset lp0) = asset_key (lp_asset lp))
        by (destruct (lp_key_inj lp lp0) as [-> _]; [done|apply Hwf0|done|done]).
      unfold of_asset at 2. rewrite Hk'. destruct (decide _); lia.
    - rewrite delete_id by done. destruct (decide _); lia. }
  rewrite Hold, <- Hs. unfold pool_of. rewrite Hp, Ha.
  destruct (decide (asset_key (pool_asset p) = asset_key a)) as [Heq|Hne].
  - rewrite <- Heq, lookup_insert_eq. cbn [default from_option id]. rewrite Hf. unfold pool_of. lia.
  - rewrite lookup_insert_ne by done. lia.
Qed.

Lemma positions_delete s s' p lp :
  positions_ok s → pools s' = <[asset_key (pool_asset p) := p]> (pools s) →
  lps s' = delete (lp_key lp) (lps s) → asset_key (lp_asset lp) = asset_key (pool_asset p) →
  no_slash (LP_GetAddress lp) = true → pool_wf p → Assets.IsEmpty (pool_asset p) = false →
  let p0 := pool_of s (pool_asset p) in
  LPUnits p = LPUnits p0 - stored Units (lp_key lp) s →
  PendingInboundSwitch p = PendingInboundSwitch p0 - stored PendingSwitch (lp_key lp) s →
  PendingInboundAsset p = PendingInboundAsset p0 - stored PendingAsset (lp_key lp) s →
  positions_ok s'.
Proof.
  intros Hok Hp Hl Ha Hns Hpw He p0 Hu Hs Hpa. constructor.
  - intros k lp'. rewrite Hl. intros [_ Hlp]%lookup_delete_Some. by apply (po_lp s Hok).
  - intros k p'. rewrite Hp. destruct (decide (k = asset_key (pool_asset p))) as [->|].
    + rewrite lookup_insert_eq. by intros [= <-].
    + rewrite lookup_insert_ne by done. apply (po_pool s Hok).
  - eapply (delete_sums s s' p lp); eauto using po_units.
  - eapply (delete_sums s s' p lp); eauto using po_switch.
  - eapply (delete_sums s s' p lp); eauto using po_asset.
Qed.

(** Writing a pool whose units and pending amounts are those of the store. *)
Lemma positions_set_pool s s' p :
  positions_ok s → pools s' = <[asset_key (pool_asset p) := p]> (pools s) → lps s' = lps s →
  pool_wf p → Assets.IsEmpty (pool_asset p) = false →
  let p0 := pool_of s (pool_asset p) in
  LPUnits p = LPUnits p0 → PendingInboundSwitch p = PendingInboundSwitch p0 →
  PendingInboundAsset p = PendingInboundAsset p0 →
  positions_ok s'.
Proof.
  intros Hok Hp Hl Hpw He p0 Hu Hs Ha.
  assert (Hsame : ∀ f g, f p = f p0 → sums f g s → sums f g s').
  { intros f g Hf Hsum a. unfold held. rewrite Hl. fold (held g (asset_key a) s). rewrite <- Hsum.
    unfold pool_of. rewrite Hp. destruct (decide (asset_key (pool_asset p) = asset_key a)) as [Heq|Hne].
    - rewrite <- Heq, lookup_insert_eq. cbn. by rewrite Hf.
    - by rewrite lookup_insert_ne. }
  constructor; [rewrite Hl; apply (po_lp s Hok)| |apply Hsame|apply Hsame|apply Hsame];
    eauto using po_units, po_switch, po_asset.
  intros k p'. rewrite Hp. destruct (decide (k = asset_key (pool_asset p))) as [->|].
  - rewrite lookup_insert_eq. by intros [= <-].
  - rewrite lookup_insert_ne by done. apply (po_pool s Hok).
Qed.

(** A provider's part is at most the pool's. *)
Lemma stored_le (g : LiquidityProvider → Z) s k lp :
  positions_ok s → lps s !! k = Some lp → (∀ lp, lp_wf lp → 0 ≤ g lp) →
  g lp ≤ held g (asset_key (lp_asset lp)) s.
Proof.
  intros Hok Hk Hg. unfold held.
  replace (g lp) with (of_asset g (asset_key (lp_asset lp)) lp)
    by (unfold of_asset; by rewrite decide_True).
  apply (map_sum_entry _ _ k); [|done].
  intros j b Hj. unfold of_asset. destruct (decide _); [|lia]. apply Hg. by apply (po_lp s Hok j).
Qed.

(** What the store has of a provider is at most what the pool has. *)
Lemma stored_pool_le f g s k a :
  positions_ok s → sums f g s → (∀ lp, lp_wf lp → 0 ≤ g lp) → 0 ≤ f (pool_of s a) →
  (∀ lp, lps s !! k = Some lp → asset_key (lp_asset lp) = asset_key a) →
  stored g k s ≤ f (pool_of s a).
Proof.
  intros Hok Hs Hg H0f Hk. unfold stored. destruct (lps s !! k) as [lp|] eqn:Hlp; cbn; [|done].
  rewrite Hs, <- (Hk lp eq_refl). by apply (stored_le g s k lp).
Qed.

Lemma positions_empty s : pools s = ∅ → lps s = ∅ → positions_ok s.
Proof.
  intros Hp Hl. constructor; unfold sums, pool_of, held; rewrite ?Hp, ?Hl.
  - intros k lp. by rewrite lookup_empty.
  - intros k p. by rewrite lookup_empty.
  - intros a. by rewrite lookup_empty, map_sum_empty.
  - intros a. by rewrite lookup_empty, map_sum_empty.
  - intros a. by rewrite lookup_empty, map_sum_empty.
Qed.

Lemma GetPool_run a s : GetPool a s = (Ok (pool_of s a), s).
Proof. done. Qed.

(** The record of a provider, looked up under an address. *)
Definition position (s : State) (a : Asset) (addr : string) : LiquidityProvider :=
  default (NewLP a addr) (lps s !! lp_key (NewLP a addr)).

Lemma NewLP_address a addr : blank addr = false → LP_GetAddress (NewLP a addr) = addr.
Proof. intros Hb. unfold NewLP. destruct (negb _); unfold LP_GetAddress; cbn; [done|by rewrite Hb]. Qed.

Lemma NewLP_fields a addr :
  lp_asset (NewLP a addr) = a ∧ Units (NewLP a addr) = 0 ∧ PendingSwitch (NewLP a addr) = 0 ∧
  PendingAsset (NewLP a addr) = 0.
Proof. unfold NewLP. by destruct (negb _). Qed.

(** The record found under a key is the provider's own. *)
Lemma position_ok s a addr :
  positions_ok s → blank addr = false → no_slash addr = true →
  let lp := position s a addr in
  lp_wf lp ∧ asset_key (lp_asset lp) = asset_key a ∧ ToUpper (LP_GetAddress lp) = ToUpper addr ∧
  (∀ f, f (NewLP a addr) = 0 → stored f (lp_key (NewLP a addr)) s = f lp).
Proof.
  intros Hok Hb Hns lp. pose proof (NewLP_address a addr Hb) as Hna.
  destruct (NewLP_fields a addr) as (Ha & Hu & Hps & Hpa).
  unfold lp, position, stored. destruct (lps s !! lp_key (NewLP a addr)) as [lp0|] eqn:Hlp; cbn.
  - destruct (po_lp s Hok _ _ Hlp) as [Hk Hwf]. destruct (lp_key_inj (NewLP a addr) lp0) as [Hk1 Hk2].
    + by rewrite Hna.
    + apply lw_addr, Hwf.
    + done.
    + rewrite Ha in Hk1. rewrite Hna in Hk2. by split_and!.
  - split_and!; [|by rewrite Ha|by rewrite Hna|by intros f ->].
    constructor; rewrite ?Hu, ?Hps, ?Hpa, ?Hna; done.
Qed.

Lemma pool_of_ok s a :
  positions_ok s → is_Some (pools s !! asset_key a) →
  asset_key (pool_asset (pool_of s a)) = asset_key a ∧
  Assets.IsEmpty (pool_asset (pool_of s a)) = false ∧ pool_wf (pool_of s a).
Proof.
  intros Hok [p Hp]. unfold pool_of. rewrite Hp. cbn. by destruct (po_pool s Hok _ _ Hp) as (<- & ? & ?).
Qed.

Lemma pool_of_fresh s a : positions_ok s → Pool_IsEmpty (pool_of s a) = true → pool_of s a = NewPool.
Proof.
  intros Hok. unfold pool_of. destruct (pools s !! asset_key a) as [p|] eqn:Hp; [|done].
  destruct (po_pool s Hok _ _ Hp) as (_ & He & _). cbn. unfold Pool_IsEmpty. by rewrite He.
Qed.

Lemma set_pool_positions p s u s' :
  positions_ok s → SetPool p s = (Ok u, s') → pool_wf p →
  let p0 := pool_of s (pool_asset p) in
  LPUnits p = LPUnits p0 → PendingInboundSwitch p = PendingInboundSwitch p0 →
  PendingInboundAsset p = PendingInboundAsset p0 →
  positions_ok s' ∧ bank s' = bank s ∧ pool_of s' (pool_asset p) = p.
Proof.
  intros Hok Hset Hw p0 H1p H2p H3p. destruct u. apply SetPool_ok in Hset as [He ->]. split; [|split; [done|]].
  - by eapply (positions_set_pool s _ p).
  - unfold pool_of. cbn. by rewrite lookup_insert_eq.
Qed.

(** A store with one pool and one provider. *)
Lemma positions_one s p lp :
  pools s = {[asset_key (pool_asset p) := p]} → lps s = {[lp_key lp := lp]} →
  asset_key (lp_asset lp) = asset_key (pool_asset p) → lp_wf lp → pool_wf p →
  Assets.IsEmpty (pool_asset p) = false →
  LPUnits p = Units lp → PendingInboundSwitch p = PendingSwitch lp →
  PendingInboundAsset p = PendingAsset lp → positions_ok s.
Proof.
  intros Hp Hl Ha Hlw Hpw He Hu Hs Hpa.
  set (s0 := put_lps ∅ (put_pools ∅ s)).
  apply (positions_write s0 s p lp); [by apply positions_empty|by constructor|done..| | |];
    unfold stored, pool_of; cbn; rewrite !lookup_empty; cbn; lia.
Qed.
End Positions.
