(* ===== verification/Liquidity.v ===== *)
(** * Adding and donating liquidity

    src/x/switchly/handler_add_liquidity.go, src/x/switchly/handler_donate.go and
    their messages: the validation, the pending half of an addition in two
    transactions, the commitment of both halves, the affiliate's part, and
    donations.  Savers' deposits that need a swap first are handed to the swap
    queue, which is the class [SaverSwaps]. *)

From Stdlib Require Import Ascii.
From S2P Require Import Prelude CosmosMath Amounts GoStrings Assets Coins Pools Constants State Txs PoolUnits Halts Positions.
Open Scope Z_scope.

Record MsgAddLiquidity := mkMsgAddLiquidity {
  al_Tx : Tx;
  al_Asset : Asset;
  al_AssetAmount : Z;
  al_SwitchAmount : Z;
  al_SwitchAddress : string;
  al_AssetAddress : string;
  al_AffiliateAddress : string;
  al_AffiliateBasisPoints : Z;
  al_Signer : string;
}.

Record MsgDonate := mkMsgDonate {
  do_Tx : Tx;
  do_Asset : Asset;
  do_AssetAmount : Z;
  do_SwitchAmount : Z;
  do_Signer : string;
}.

Definition MaxAffiliateFeeBasisPoints : Z := 1000.

Definition errInvalidMessage : error := "invalid message".
Definition errAddLiquidityFailValidation : error := "fail to validate add liquidity".
Definition errAddLiquiditySWITCHOverLimit : error := "add liquidity switch is over limit".
Definition errAddLiquiditySWITCHMoreThanBond : error := "add liquidity switch is more than bond".
Definition errInvalidPoolStatus : error := "invalid pool status".
Definition errAddLiquidityMismatchAddr : error :=
  "memo paired address must be non-empty and together with origin address match the liquidity provider record".

(** [AddLiquidityHandler.swap]: the swap is put into the swap queue, and its
    memo adds the liquidity when it is done. *)
Class SaverSwaps `{Bank} := { saver_swap : Ctx → MsgAddLiquidity → M State () }.

Section Liquidity.
  Context `{CosmosMath} `{Bank} `{Env} `{!Managers} `{!SaverSwaps}.

(** ** Messages *)

Definition AddLiquidity_ValidateBasic (m : MsgAddLiquidity) : option error :=
  if bool_decide (al_Signer m = "") then Some "invalid address"
  else if Assets.IsEmpty (al_Asset m) then Some "add liquidity asset cannot be empty"
  else match Tx_Valid (al_Tx m) with
  | Some e => Some e
  | None =>
    if Assets.IsSwitch (al_Asset m) then Some "asset cannot be switch"
    else if (length (tx_Coins (al_Tx m)) =? 2)%nat &&
            ((al_AssetAmount m =? 0) || (al_SwitchAmount m =? 0))
    then Some "did not find both coins"
    else if (2 <? length (tx_Coins (al_Tx m)))%nat
    then Some "not expecting more than two coins in adding liquidity"
    else if blank (al_SwitchAddress m) && blank (al_AssetAddress m)
    then Some "switch address and asset address cannot be empty"
    else if blank (al_AffiliateAddress m) && negb (al_AffiliateBasisPoints m =? 0)
    then Some "affiliate address is empty while affiliate basis points is non-zero"
    else if negb (al_AffiliateBasisPoints m =? 0) &&
            (MaxAffiliateFeeBasisPoints <? al_AffiliateBasisPoints m)
    then Some "affiliate fee basis points can't be more than 1000"
    else None
  end.

Definition Donate_ValidateBasic (m : MsgDonate) : option error :=
  if bool_decide (do_Signer m = "") then Some "invalid address"
  else if Assets.IsEmpty (do_Asset m) then Some "donate asset cannot be empty"
  else if Assets.IsSwitch (do_Asset m) then Some "asset cannot be switch"
  else if (do_SwitchAmount m =? 0) && (do_AssetAmount m =? 0)
  then Some "switch and asset amount cannot be zero"
  else Tx_Valid (do_Tx m).

(** ** Validation *)

(** The coin list is not empty where [Coins[0]] is read: it has length one. *)
Definition needsSwap (msg : MsgAddLiquidity) : bool :=
  match tx_Coins (al_Tx msg) with
  | [c] => negb (Assets.IsSwitch (coin_asset c)) && negb (Assets.Equals (al_Asset msg) (coin_asset c))
  | _ => false
  end.

(** [Keeper.GetAnchors] (src/x/switchly/keeper/v1/keeper_anchors.go), of the
    dollar asset. *)
Fixpoint anchored (ps : list Pool) : K (list Asset) :=
  match ps with
  | [] => mret []
  | p :: ps' =>
      val ← GetMimir (str_map (λ c, if is_char "." c then "-"%char else c)
                        ("SwitchlyAnchor-" +:+ Assets.Str (pool_asset p)));
      rest ← anchored ps';
      mret (if 0 <? val then pool_asset p :: rest else rest)
  end.
Definition GetAnchors (a : Asset) : K (list Asset) :=
  if Assets.Equals a SWITCHLY then ps ← GetPools; anchored ps
  else mret [Assets.GetLayer1Asset a].

(** Suspended, synthetic and derived pools do not count. *)
Definition counts (p : Pool) : bool :=
  negb (bool_decide (Status p = Suspended)) && negb (Synth (pool_asset p)) &&
  negb (Assets.IsDerivedAsset (pool_asset p)).
Definition getTotalLiquiditySWITCH : K Z :=
  ps ← GetPools; lift (Sum (BalanceSwitch <$> List.filter counts ps)).

(** The checks on a saver's deposit. *)
Definition validate_saver (msg : MsgAddLiquidity) : K () :=
  let l1 := Assets.GetLayer1Asset (al_Asset msg) in
  anchors ← GetAnchors SWITCHLY;
  _ ← fail_when (negb (IsGasAsset l1) && negb (existsb (Assets.Equals l1) anchors))
        "asset must be a gas asset or SWITCHLY anchor pool";
  _ ← fail_when (negb (IsChain (al_AssetAddress msg) (Assets.GetChain l1)))
        "asset address must be layer1 chain";
  fail_when (negb (al_SwitchAmount msg =? 0)) "cannot deposit switch into a vault".

(** The checks on the addresses. *)
Definition validate_addresses (msg : MsgAddLiquidity) : K () :=
  _ ← fail_when (negb (blank (al_SwitchAddress msg)) &&
                 negb (IsChain (al_SwitchAddress msg) SWITCHLYChain)) errAddLiquidityFailValidation;
  if blank (al_AssetAddress msg) then mret ()
  else
    _ ← fail_when (negb (IsChain (al_AssetAddress msg)
                           (Assets.GetChain (Assets.GetLayer1Asset (al_Asset msg)))))
          errAddLiquidityMismatchAddr;
    fail_when (Address_Equals (al_SwitchAddress msg) (module_address ReserveName))
      "pol lp cannot have asset address".

(** The limits on the liquidity of all pools. *)
Definition validate_limits (ctx : Ctx) (msg : MsgAddLiquidity) (pool : Pool) : K () :=
  if Synth (al_Asset msg) || negb (GetBoolValue boolOverrides "StrictBondLiquidityRatio") then mret ()
  else
    total ← getTotalLiquiditySWITCH;
    total ← lift (uadd total (al_SwitchAmount msg));
    total ← lift (uadd total (AssetValueInSWITCH pool (al_AssetAmount msg)));
    maximum ← GetConfigInt64 "MaximumLiquiditySWITCH";
    _ ← fail_when ((0 <? maximum) && (to_u64 maximum <? total)) errAddLiquiditySWITCHOverLimit;
    atCap ← atTVLCap ctx [NewCoin SwitchNative (al_SwitchAmount msg);
                          NewCoin (al_Asset msg) (al_AssetAmount msg)];
    fail_when atCap errAddLiquiditySWITCHMoreThanBond.

Definition add_validate (ctx : Ctx) (msg : MsgAddLiquidity) : K () :=
  let asset := al_Asset msg in
  _ ← (if negb (TxID_IsBlank (tx_ID (al_Tx msg))) then
         match AddLiquidity_ValidateBasic msg with
         | Some _ => throw errAddLiquidityFailValidation
         | None => mret ()
         end
       else mret ());
  _ ← fail_when (Trade asset) "asset cannot be a trade asset";
  _ ← fail_when (Secured asset) "asset cannot be a secured asset";
  _ ← fail_when (negb (blank (al_AssetAddress msg)) &&
                 negb (SoftEquals CurrentChainNetwork
                         (GetNetwork (al_AssetAddress msg) (Address_GetChain (al_AssetAddress msg)))))
        "address is not same network";
  rag ← IsRagnarok [asset];
  _ ← fail_when rag "cannot add liquidity to Ragnaroked pool";
  let gasAsset := GetGasAsset (Assets.GetChain (Assets.GetLayer1Asset asset)) in
  _ ← (if negb (Assets.Equals asset gasAsset) && negb (Assets.IsSWCY asset) &&
          negb (Assets.IsRUJI asset)
       then
         gasPool ← GetPool gasAsset;
         fail_when (Pool_IsEmpty gasPool) "the asset's gas asset pool does not exist yet"
       else mret ());
  _ ← fail_when (Assets.IsDerivedAsset asset) "asset cannot be a derived asset";
  _ ← (if Synth asset then validate_saver msg else mret ());
  _ ← validate_addresses msg;
  _ ← (if needsSwap msg then
         coin ← lift (match tx_Coins (al_Tx msg) with c :: _ => Ok c | [] => Panic end);
         _ ← fail_when (negb (Synth asset)) "swap & add liquidity is only available for synthetic pools";
         fail_when (negb (Assets.Equals (Assets.GetLayer1Asset asset) (coin_asset coin)))
           "deposit asset must be the layer1 equivalent for the synthetic asset"
       else mret ());
  pool ← GetPool asset;
  _ ← (match EnsureValidPoolStatus pool false with
       | Some _ => throw errInvalidPoolStatus
       | None => mret ()
       end);
  paused ← or_else (IsChainHalted ctx (chain asset)) (IsLPPaused ctx (chain asset));
  _ ← fail_when paused "unable to add liquidity while chain has paused LP actions";
  depositPaused ← IsPoolDepositPaused asset;
  _ ← fail_when depositPaused "unable to add liquidity, deposits are paused for asset";
  validate_limits ctx msg pool.

Definition validateAddLiquidityMessage (asset : Asset) (requestTxHash switchAddr assetAddr : string)
    : K () :=
  _ ← fail_when (Assets.IsEmpty asset) "asset is empty";
  _ ← fail_when (TxID_IsEmpty requestTxHash) "request tx hash is empty";
  _ ← fail_when (blank switchAddr && blank assetAddr) "switch address and asset address is empty";
  exist ← PoolExist asset;
  _ ← fail_when (negb exist) "pool doesn't exist";
  pool ← GetPool asset;
  fail_when (bool_decide (Status pool = Staged) && (blank switchAddr || blank assetAddr))
    "cannot add single sided liquidity while a pool is staged".

(** ** The addition *)

(** The addresses of the first addition are kept. *)
Definition fill_addresses (switchAddr assetAddr : string) (su : LiquidityProvider) : LiquidityProvider :=
  if TxID_IsEmpty (PendingTxID su) then
    let su := if blank (SwitchAddress su) then set_SwitchAddress switchAddr su else su in
    if blank (AssetAddress su) then set_AssetAddress assetAddr su else su
  else su.

(** The provider's addresses: completed by those of the first addition, and
    checked against those of a later one. *)
Definition match_addresses (asset : Asset) (switchAddr assetAddr : string) (su : LiquidityProvider)
    : outcome LiquidityProvider :=
  su ←
    (if Units su =? 0 then
       let su := fill_addresses switchAddr assetAddr su in
       if Synth asset then Ok (set_SwitchAddress NoAddress (set_AssetAddress assetAddr su))
       else
         _ ← fail_if (negb (Address_Equals switchAddr (SwitchAddress su))) errAddLiquidityMismatchAddr;
         _ ← fail_if (negb (Address_Equals assetAddr (AssetAddress su))) errAddLiquidityMismatchAddr;
         Ok su
     else Ok su);
  _ ← fail_if
        (if Synth asset
         then blank (AssetAddress su) ||
              negb (IsChain (AssetAddress su) (Assets.GetChain (Assets.GetLayer1Asset asset)))
         else negb (blank assetAddr) && negb (Address_Equals (AssetAddress su) assetAddr))
        errAddLiquidityMismatchAddr;
  Ok su.

(** One half of an addition in two transactions: it stays pending.  A failure to
    save the pool is only logged. *)
Definition stage_switch (pool : Pool) (su : LiquidityProvider) (addSwitch pendingSwitch : Z)
    (hash : string) : K () :=
  p ← lift (uadd (PendingInboundSwitch pool) addSwitch);
  let pool := set_PendingInboundSwitch p pool in
  let su := set_PendingTxID hash (set_PendingSwitch pendingSwitch su) in
  _ ← SetLiquidityProvider su;
  _ ← attempt (SetPool pool);
  EmitEvent (EvPendingLiquidity (pool_asset pool) (SwitchAddress su) addSwitch (AssetAddress su) 0 hash "").

Definition stage_asset (pool : Pool) (su : LiquidityProvider) (addAsset pendingAsset : Z)
    (hash : string) : K () :=
  p ← lift (uadd (PendingInboundAsset pool) addAsset);
  let pool := set_PendingInboundAsset p pool in
  let su := set_PendingTxID hash (set_PendingAsset pendingAsset su) in
  _ ← SetLiquidityProvider su;
  _ ← attempt (SetPool pool);
  EmitEvent (EvPendingLiquidity (pool_asset pool) (SwitchAddress su) 0 (AssetAddress su) addAsset "" hash).

(** What was pending for the provider is taken off the pool's pending amounts. *)
Definition settle_pending (pool : Pool) (su : LiquidityProvider) : outcome (Pool * LiquidityProvider) :=
  ps ← SafeSub (PendingInboundSwitch pool) (PendingSwitch su);
  pa ← SafeSub (PendingInboundAsset pool) (PendingAsset su);
  Ok (set_PendingInboundAsset pa (set_PendingInboundSwitch ps pool),
      set_PendingTxID "" (set_PendingSwitch 0 (set_PendingAsset 0 su))).

(** The pool after the addition, with the units it gives and the SWITCH added. *)
Definition grow_pool (asset : Asset) (pool : Pool) (addSwitch addAsset synthSupply : Z)
    : outcome (Pool * Z * Z) :=
  oldPoolUnits ← GetPoolUnits pool;
  '(addSwitch, liquidityUnits) ←
    (if Synth asset then
       '(_, u) ← calculateVaultUnits oldPoolUnits (BalanceAsset pool) addAsset;
       Ok (0, u)
     else
       '(_, u) ← calculatePoolUnits oldPoolUnits (BalanceSwitch pool) (BalanceAsset pool)
                   addSwitch addAsset;
       Ok (addSwitch, u));
  poolSWITCH ← uadd (BalanceSwitch pool) addSwitch;
  poolAsset ← uadd (BalanceAsset pool) addAsset;
  lpUnits ← uadd (LPUnits pool) liquidityUnits;
  let pool := set_BalanceAsset poolAsset (set_BalanceSwitch poolSWITCH (set_LPUnits lpUnits pool)) in
  _ ← fail_if (((BalanceSwitch pool =? 0) && negb (Synth asset)) || (BalanceAsset pool =? 0))
        "pool cannot have zero switch or asset balance";
  '(pool, _) ← CalcUnits pool synthSupply;
  Ok (pool, liquidityUnits, addSwitch).

(** The provider after the addition. *)
Definition grow_position (pool : Pool) (su : LiquidityProvider) (liquidityUnits : Z)
    : outcome LiquidityProvider :=
  units ← uadd (Units su) liquidityUnits;
  let su := set_Units units su in
  if bool_decide (Status pool = Available) then
    poolUnits ← GetPoolUnits pool;
    if (AssetDepositValue su =? 0) && (SwitchDepositValue su =? 0) then
      Ok (set_AssetDepositValue (GetSafeShare units poolUnits (BalanceAsset pool))
            (set_SwitchDepositValue (GetSafeShare units poolUnits (BalanceSwitch pool)) su))
    else
      sv ← uadd (SwitchDepositValue su) (GetSafeShare liquidityUnits poolUnits (BalanceSwitch pool));
      av ← uadd (AssetDepositValue su) (GetSafeShare liquidityUnits poolUnits (BalanceAsset pool));
      Ok (set_AssetDepositValue av (set_SwitchDepositValue sv su))
  else Ok su.

(** The SWITCH the reserve deposits is protocol-owned liquidity. *)
Definition track_pol (su : LiquidityProvider) (amt : Z) : K () :=
  if Address_Equals (module_address ReserveName) (SwitchAddress su) then
    p ← GetPOL;
    d ← lift (uadd (SwitchDeposited p) amt);
    SetPOL (mkPOL d (SwitchWithdrawn p))
  else mret ().

(** The commitment of both halves. *)
Definition commit (asset : Asset) (pool : Pool) (su : LiquidityProvider)
    (pendingSwitch pendingAsset synthSupply originalUnits : Z) (switchTxID assetTxID : string) : K () :=
  '(pool, su) ← lift (settle_pending pool su);
  '(pool, liquidityUnits, pendingSwitch) ← lift (grow_pool asset pool pendingSwitch pendingAsset synthSupply);
  _ ← SetPool pool;
  poolUnits ← lift (GetPoolUnits pool);
  _ ← (if (originalUnits =? 0) && negb (poolUnits =? 0)
       then EmitEvent (EvPool (pool_asset pool) (Status pool)) else mret ());
  su ← lift (grow_position pool su liquidityUnits);
  _ ← SetLiquidityProvider su;
  _ ← EmitEvent (EvAddLiquidity asset liquidityUnits (SwitchAddress su) pendingSwitch pendingAsset
                   switchTxID assetTxID (AssetAddress su));
  track_pol su pendingSwitch.

Definition addLiquidity (ctx : Ctx) (asset : Asset) (addSwitch addAsset : Z)
    (switchAddr assetAddr requestTxHash : string) (stage : bool) : K () :=
  _ ← validateAddLiquidityMessage asset requestTxHash switchAddr assetAddr;
  pool ← GetPool asset;
  synthSupply ← GetTotalSupply (Assets.GetSyntheticAsset (pool_asset pool));
  '(pool, originalUnits) ← lift (CalcUnits pool synthSupply);
  let fetchAddr := if blank switchAddr then assetAddr else switchAddr in
  su ← GetLiquidityProvider asset fetchAddr;
  su ← lift (match_addresses asset switchAddr assetAddr (set_LastAddHeight (BlockHeight ctx) su));
  let switchTxID := if addSwitch =? 0 then PendingTxID su else requestTxHash in
  let assetTxID := if addSwitch =? 0 then requestTxHash else PendingTxID su in
  pendingSwitch ← lift (uadd (PendingSwitch su) addSwitch);
  pendingAsset ← lift (uadd (PendingAsset su) addAsset);
  if stage && (pendingAsset =? 0) then stage_switch pool su addSwitch pendingSwitch requestTxHash
  else if stage && (pendingSwitch =? 0) then stage_asset pool su addAsset pendingAsset requestTxHash
  else commit asset pool su pendingSwitch pendingAsset synthSupply originalUnits switchTxID assetTxID.

(** ** The handler *)

(** The pool is created by its first addition. *)
Definition ensure_pool (msg : MsgAddLiquidity) : K Pool :=
  pool ← GetPool (al_Asset msg);
  pool ←
    (if Pool_IsEmpty pool then
       let pool := set_pool_asset (al_Asset msg) pool in
       let status :=
         if negb (Assets.Equals (pool_asset pool) (GetGasAsset (Assets.GetChain (pool_asset pool)))) &&
            negb (Synth (pool_asset pool))
         then GetStringValue stringOverrides "DefaultPoolStatus"
         else PoolStatus_String Available in
       let pool := set_Status (GetPoolStatus status) pool in
       _ ← SetPool pool;
       mret pool
     else mret pool);
  if Decimals pool =? 0 then
    let coin := GetCoin (tx_Coins (al_Tx msg)) (pool_asset pool) in
    if negb (Coin_IsEmpty coin) && (0 <? coin_decimals coin) then
      let pool := set_Decimals (coin_decimals coin) pool in
      _ ← SetPool pool;
      mret pool
    else mret pool
  else mret pool.

Definition is_staged (msg : MsgAddLiquidity) : bool :=
  negb (Synth (al_Asset msg)) && negb (TxID_IsBlank (tx_ID (al_Tx msg))) &&
  ((negb (blank (al_AssetAddress msg)) && (al_AssetAmount msg =? 0)) ||
   (negb (blank (al_SwitchAddress msg)) && (al_SwitchAmount msg =? 0))).

Definition add_handle (ctx : Ctx) (msg : MsgAddLiquidity) : K () :=
  if needsSwap msg then saver_swap ctx msg
  else
    _ ← ensure_pool msg;
    let stage := is_staged msg in
    let hash := tx_ID (al_Tx msg) in
    if al_AffiliateBasisPoints msg =? 0 then
      addLiquidity ctx (al_Asset msg) (al_SwitchAmount msg) (al_AssetAmount msg)
        (al_SwitchAddress msg) (al_AssetAddress msg) hash stage
    else
      let affiliateSWITCH := GetSafeShare (al_AffiliateBasisPoints msg) 10000 (al_SwitchAmount msg) in
      let affiliateAsset := GetSafeShare (al_AffiliateBasisPoints msg) 10000 (al_AssetAmount msg) in
      userSWITCH ← lift (SafeSub (al_SwitchAmount msg) affiliateSWITCH);
      userAsset ← lift (SafeSub (al_AssetAmount msg) affiliateAsset);
      _ ← addLiquidity ctx (al_Asset msg) userSWITCH userAsset
            (al_SwitchAddress msg) (al_AssetAddress msg) hash stage;
      let ofSwitchly := IsChain (al_AffiliateAddress msg) SWITCHLYChain in
      addLiquidity ctx (al_Asset msg) affiliateSWITCH affiliateAsset
        (if ofSwitchly then al_AffiliateAddress msg else NoAddress)
        (if ofSwitchly then NoAddress else al_AffiliateAddress msg) hash false.

Definition add_Run (ctx : Ctx) (msg : MsgAddLiquidity) : K () :=
  _ ← add_validate ctx msg; add_handle ctx msg.

(** ** Donations *)

Definition donate_validate (ctx : Ctx) (msg : MsgDonate) : K () :=
  if 3 <=? versionMajor ctx then
    _ ← check (Donate_ValidateBasic msg);
    fail_when (Synth (do_Asset msg)) errInvalidMessage
  else throw errBadVersion.

Definition donate_handle (ctx : Ctx) (msg : MsgDonate) : K () :=
  if 3 <=? versionMajor ctx then
    pool ← GetPool (do_Asset msg);
    _ ← fail_when (Assets.IsEmpty (pool_asset pool)) "pool not exist";
    a ← lift (uadd (BalanceAsset pool) (do_AssetAmount msg));
    r ← lift (uadd (BalanceSwitch pool) (do_SwitchAmount msg));
    let pool := set_BalanceSwitch r (set_BalanceAsset a pool) in
    _ ← SetPool pool;
    EmitEvent (EvDonate (pool_asset pool) (tx_ID (do_Tx msg)))
  else throw errBadVersion.

Definition donate_Run (ctx : Ctx) (msg : MsgDonate) : K () :=
  _ ← donate_validate ctx msg; donate_handle ctx msg.

(** ** Facts *)

Lemma validateAddLiquidityMessage_ok a hash sw aa s u s' :
  validateAddLiquidityMessage a hash sw aa s = (Ok u, s') →
  s' = s ∧ blank sw && blank aa = false ∧ is_Some (pools s !! asset_key a).
Proof.
  unfold validateAddLiquidityMessage, PoolExist, GetPool. intros Hok. run_inv.
  split_and!; [done..|]. match goal with Hb : negb (bool_decide _) = false |- _ =>
    apply negb_false_iff, bool_decide_eq_true in Hb end. done.
Qed.

(** The address under which the provider is looked up. *)
Definition fetch_addr (sw aa : string) : string := if blank sw then aa else sw.

(** An addition by one address, or to a pool that is not a saver's vault. *)
Definition one_key (a : Asset) (sw : string) : Prop := Synth a = false ∨ blank sw = true.

Lemma fill_addresses_fields sw aa su :
  ∃ x y, fill_addresses sw aa su = set_SwitchAddress x (set_AssetAddress y su).
Proof.
  exists (SwitchAddress (fill_addresses sw aa su)), (AssetAddress (fill_addresses sw aa su)).
  destruct su. unfold fill_addresses. cbn. repeat (case_match; cbn); done.
Qed.

Lemma match_addresses_fields a sw aa su su1 :
  match_addresses a sw aa su = Ok su1 →
  ∃ x y, su1 = set_SwitchAddress x (set_AssetAddress y su).
Proof.
  unfold match_addresses. intros Hok. apply bind_ok in Hok as (su2 & Hsu & Hok). ok_inv.
  destruct (Units su =? 0).
  - destruct (fill_addresses_fields sw aa su) as (fs & fa & Hf). rewrite Hf in Hsu.
    destruct (Synth a); ok_inv; by eexists _, _.
  - injection Hsu as <-. exists (SwitchAddress su), (AssetAddress su). by destruct su.
Qed.

(** The address that names the record does not change. *)
Lemma fill_addresses_key sw aa su :
  blank (LP_GetAddress su) = false → ToUpper (LP_GetAddress su) = ToUpper (fetch_addr sw aa) →
  ToUpper (LP_GetAddress (fill_addresses sw aa su)) = ToUpper (fetch_addr sw aa).
Proof.
  unfold fill_addresses, LP_GetAddress, fetch_addr. destruct (TxID_IsEmpty _); [|done].
  destruct (blank (SwitchAddress su)) eqn:H1s; cbn.
  - destruct (blank (AssetAddress su)) eqn:H2s; cbn; [done|]. intros _.
    destruct (blank sw) eqn:H3s; cbn; by rewrite ?H3s, ?H2s.
  - destruct (blank (AssetAddress su)) eqn:H2s; cbn; by rewrite H1s.
Qed.

Lemma match_addresses_key a sw aa su su1 :
  one_key a sw → blank sw && blank aa = false →
  ToUpper (LP_GetAddress su) = ToUpper (fetch_addr sw aa) →
  match_addresses a sw aa su = Ok su1 →
  ToUpper (LP_GetAddress su1) = ToUpper (fetch_addr sw aa).
Proof.
  intros Hone Hne Hup. unfold match_addresses. intros Hok.
  apply bind_ok in Hok as (su2 & Hsu & Hok). ok_inv.
  destruct (Units su =? 0); [|by injection Hsu as <-].
  assert (Hb : blank (LP_GetAddress su) = false).
  { rewrite <- blank_upper, Hup, blank_upper. unfold fetch_addr.
    destruct (blank sw) eqn:Hsw; [done|exact Hsw]. }
  pose proof (fill_addresses_key sw aa su Hb Hup) as Hf.
  destruct (Synth a) eqn:Hsy; [|by ok_inv; subst].
  injection Hsu as <-. destruct Hone as [|Hsw]; [congruence|]. unfold fetch_addr. by rewrite Hsw.
Qed.

(** The pool after the addition: the two balances and the units grow, the synth
    units are recomputed, and nothing else changes. *)
Lemma grow_pool_ok a p x y supply p' u x' :
  pool_wf p → 0 ≤ x → 0 ≤ y → 0 ≤ supply →
  grow_pool a p x y supply = Ok (p', u, x') →
  x' = (if Synth a then 0 else x) ∧ 0 ≤ u ∧
  (Synth a = false → ∃ pu, calculatePoolUnits (LPUnits p + SynthUnits p) (BalanceSwitch p)
                             (BalanceAsset p) x y = Ok (pu, u)) ∧
  ∃ v, 0 ≤ v ∧
    p' = set_SynthUnits v (set_BalanceAsset (BalanceAsset p + y)
           (set_BalanceSwitch (BalanceSwitch p + x') (set_LPUnits (LPUnits p + u) p))).
Proof.
  intros Hwf Hx Hy Hs. unfold grow_pool, GetPoolUnits. intros Hok.
  apply bind_ok in Hok as (pu0 & Hpu & Hok). apply uadd_inv in Hpu as [-> Hpu].
  apply bind_ok in Hok as ([x1 u1] & Hu & Hok).
  assert (x1 = (if Synth a then 0 else x) ∧ 0 ≤ u1 ∧
          (Synth a = false → ∃ pu, calculatePoolUnits (LPUnits p + SynthUnits p) (BalanceSwitch p)
                             (BalanceAsset p) x y = Ok (pu, u1))) as (Hx1 & Hu1 & Hcalc).
  { destruct (Synth a); apply bind_ok in Hu as ([pu u2] & Hu & He); injection He as <- <-.
    - split; [done|]. split; [|done]. apply (calculateVaultUnits_nonneg _ _ _ _ _ Hy Hu).
    - split; [done|]. split; [|intros _; by exists pu].
      apply (calculatePoolUnits_nonneg _ _ _ _ _ _ _ (wf_switch p Hwf) (wf_asset p Hwf) Hx Hy Hu). }
  do 3 (apply bind_ok in Hok as (? & Hadd & Hok); apply uadd_inv in Hadd as [-> _]).
  apply bind_ok in Hok as (u0 & _ & Hok).
  apply bind_ok in Hok as ([p2 tot] & Hcu & Hok). injection Hok as <- <- <-.
  split; [done|]. split; [done|]. split; [done|].
  apply CalcUnits_inv in Hcu as (v & -> & Hv & _); [by exists v| |done].
  destruct Hwf. constructor; cbn; try done; destruct (Synth a); lia.
Qed.

Lemma grow_position_ok p su u su' :
  grow_position p su u = Ok su' →
  ∃ v w, su' = set_AssetDepositValue v (set_SwitchDepositValue w (set_Units (Units su + u) su)).
Proof.
  unfold grow_position, GetPoolUnits. intros Hok. uint_inv.
  destruct (bool_decide _); uint_inv; [|exists (AssetDepositValue su), (SwitchDepositValue su); by destruct su].
  destruct (_ && _); uint_inv; by eexists _, _.
Qed.

Lemma track_pol_ok su amt s u s' :
  track_pol su amt s = (Ok u, s') → pools s' = pools s ∧ lps s' = lps s ∧ bank s' = bank s.
Proof.
  unfold track_pol, GetPOL, SetPOL. destruct (Address_Equals _ _); intros Hok; by run_inv.
Qed.

(** One half of an addition stays pending ... *)
Definition pending_step (p p' : Pool) (lp lp' : LiquidityProvider) (dS dA : Z) : Prop :=
  BalanceSwitch p' = BalanceSwitch p ∧ BalanceAsset p' = BalanceAsset p ∧
  LPUnits p' = LPUnits p ∧ Units lp' = Units lp ∧
  PendingInboundSwitch p' = PendingInboundSwitch p + dS ∧ PendingSwitch lp' = PendingSwitch lp + dS ∧
  PendingInboundAsset p' = PendingInboundAsset p + dA ∧ PendingAsset lp' = PendingAsset lp + dA.

(** ... or both halves are committed: the balances of the pool grow by what was
    pending and what is added, and the provider receives the new units. *)
Definition commit_step (a : Asset) (p p' : Pool) (lp lp' : LiquidityProvider) (dS dA poolUnits : Z) : Prop :=
  let inS := if Synth a then 0 else PendingSwitch lp + dS in
  let inA := PendingAsset lp + dA in
  BalanceSwitch p' = BalanceSwitch p + inS ∧ BalanceAsset p' = BalanceAsset p + inA ∧
  PendingInboundSwitch p' = Z.max 0 (PendingInboundSwitch p - PendingSwitch lp) ∧
  PendingInboundAsset p' = Z.max 0 (PendingInboundAsset p - PendingAsset lp) ∧
  PendingSwitch lp' = 0 ∧ PendingAsset lp' = 0 ∧
  ∃ u, 0 ≤ u ∧ LPUnits p' = LPUnits p + u ∧ Units lp' = Units lp + u ∧
    (Synth a = false → ∃ pu, calculatePoolUnits poolUnits (BalanceSwitch p) (BalanceAsset p) inS inA
                             = Ok (pu, u)).

(** A provider and its pool are written, and nothing else but events. *)
Definition writes (s s' : State) (p : Pool) (lp : LiquidityProvider) : Prop :=
  pools s' = <[asset_key (pool_asset p) := p]> (pools s) ∧
  lps s' = <[lp_key lp := lp]> (lps s) ∧ bank s' = bank s.

Lemma save_both p lp e s u s' :
  Assets.IsEmpty (pool_asset p) = false →
  (_ ← SetLiquidityProvider lp; _ ← attempt (SetPool p); EmitEvent e) s = (Ok u, s') →
  writes s s' p lp.
Proof.
  intros He. unfold SetPool, EmitEvent, SetLiquidityProvider, attempt, modify, mbind, M_bind. rewrite He. cbn.
  by intros [= _ <-].
Qed.

Lemma stage_switch_ok p su dS pend hash s u s' :
  Assets.IsEmpty (pool_asset p) = false → stage_switch p su dS pend hash s = (Ok u, s') →
  writes s s' (set_PendingInboundSwitch (PendingInboundSwitch p + dS) p)
    (set_PendingTxID hash (set_PendingSwitch pend su)).
Proof.
  intros He Hok. unfold stage_switch in Hok. run_step Hok v s1 E. apply lift_ok in E as [E ->].
  apply uadd_inv in E as [-> _]. by eapply save_both in Hok.
Qed.

Lemma stage_asset_ok p su dA pend hash s u s' :
  Assets.IsEmpty (pool_asset p) = false → stage_asset p su dA pend hash s = (Ok u, s') →
  writes s s' (set_PendingInboundAsset (PendingInboundAsset p + dA) p)
    (set_PendingTxID hash (set_PendingAsset pend su)).
Proof.
  intros He Hok. unfold stage_asset in Hok. run_step Hok v s1 E. apply lift_ok in E as [E ->].
  apply uadd_inv in E as [-> _]. by eapply save_both in Hok.
Qed.

Lemma settle_pending_ok p su p' su' :
  pool_wf p → lp_wf su → settle_pending p su = Ok (p', su') →
  p' = set_PendingInboundAsset (Z.max 0 (PendingInboundAsset p - PendingAsset su))
         (set_PendingInboundSwitch (Z.max 0 (PendingInboundSwitch p - PendingSwitch su)) p) ∧
  su' = set_PendingTxID "" (set_PendingSwitch 0 (set_PendingAsset 0 su)).
Proof.
  intros Hp Hl. unfold settle_pending. intros Hok.
  apply bind_ok in Hok as (a & Ha & Hok). apply SafeSub_inv in Ha as ->; [|apply wf_pswitch|apply lw_switch]; [|done..].
  apply bind_ok in Hok as (b & Hb & Hok). apply SafeSub_inv in Hb as ->; [|apply wf_passet|apply lw_asset]; [|done..].
  by injection Hok as <- <-.
Qed.

Lemma commit_ok a p su dS dA supply orig h1 h2 s u s' :
  pool_wf p → lp_wf su → 0 ≤ dS → 0 ≤ dA → 0 ≤ supply →
  commit a p su (PendingSwitch su + dS) (PendingAsset su + dA) supply orig h1 h2 s = (Ok u, s') →
  ∃ p' lp', writes s s' p' lp' ∧ pool_asset p' = pool_asset p ∧ pool_wf p' ∧
    Assets.IsEmpty (pool_asset p') = false ∧
    lp_asset lp' = lp_asset su ∧ LP_GetAddress lp' = LP_GetAddress su ∧
    commit_step a p p' su lp' dS dA (LPUnits p + SynthUnits p).
Proof.
  intros Hp Hl HS HA Hsup Hok. unfold commit in Hok.
  run_step Hok r s1 E. apply lift_ok in E as [E ->]. destruct r as [p1 su1].
  apply settle_pending_ok in E as [-> ->]; [|done..].
  run_step Hok r s1 E. apply lift_ok in E as [E ->]. destruct r as [[p2 un] inS].
  apply grow_pool_ok in E as (-> & Hun & Hcalc & v & Hv & ->); [| | | |done].
  2:{ destruct Hp. constructor; cbn; lia. }
  2,3: destruct Hl; lia.
  run_step Hok t s1 E. destruct t. apply SetPool_ok in E as [He ->].
  match type of He with Assets.IsEmpty (pool_asset ?q) = false => set (p2 := q) in * end.
  run_step Hok pu s1 E. apply lift_ok in E as [_ ->]. run_step Hok t s1 E.
  assert (Hs1 : pools s1 = <[asset_key (pool_asset p) := p2]> (pools s) ∧ lps s1 = lps s ∧ bank s1 = bank s).
  { destruct (_ && _); unfold EmitEvent in E; run_inv; done. }
  clear E. destruct Hs1 as (Hp1 & Hl1 & Hb1).
  run_step Hok su2 s2 E. apply lift_ok in E as [E ->]. apply grow_position_ok in E as (w1 & w2 & ->).
  run_step Hok t1 s2 E. apply modify_ok in E as ->. run_step Hok t2 s2 E. apply modify_ok in E as ->.
  apply track_pol_ok in Hok as (Hp2 & Hl2 & Hb2). cbn in Hp2, Hl2, Hb2.
  exists p2. eexists. split; [split; [|split]|split; [|split; [|split; [|split; [|split]]]]].
  - rewrite Hp2, Hp1. reflexivity.
  - rewrite Hl2, Hl1. reflexivity.
  - by rewrite Hb2.
  - reflexivity.
  - subst p2. destruct Hp, Hl. constructor; cbn; try lia. destruct (Synth a); lia.
  - exact He.
  - reflexivity.
  - reflexivity.
  - subst p2. unfold commit_step. cbn. repeat (split; [reflexivity|]). exists un. split; [done|]. split; [done|].
    split; [done|]. intros Hsy. destruct (Hcalc Hsy) as [q Hq]. rewrite Hsy. by exists q.
Qed.

(** What a successful addition does to the store. *)
Record addition (s s' : State) (a : Asset) (addr : string) (p' : Pool) (lp' : LiquidityProvider) : Prop := {
  ad_writes : writes s s' p' lp';
  ad_pool : pool_asset p' = pool_asset (pool_of s a);
  ad_pool_wf : pool_wf p';
  ad_known : Assets.IsEmpty (pool_asset p') = false;
  ad_pool_key : asset_key (pool_asset p') = asset_key a;
  ad_lp_asset : asset_key (lp_asset lp') = asset_key a;
  ad_lp_addr : ToUpper (LP_GetAddress lp') = ToUpper addr;
}.

Definition added_pending (s : State) (a : Asset) (addr : string) (p' : Pool) (lp' : LiquidityProvider)
    (dS dA : Z) : Prop :=
  pending_step (pool_of s a) p' (position s a addr) lp' dS dA.
Definition added_committed (s : State) (a : Asset) (addr : string) (p' : Pool) (lp' : LiquidityProvider)
    (dS dA : Z) : Prop :=
  ∃ supply p1 units,
    GetTotalSupply (Assets.GetSyntheticAsset (pool_asset (pool_of s a))) s = (Ok supply, s) ∧
    CalcUnits (pool_of s a) supply = Ok (p1, units) ∧
    commit_step a (pool_of s a) p' (position s a addr) lp' dS dA units.

Lemma addLiquidity_ok ctx a dS dA sw aa hash stage s u s' :
  let addr := fetch_addr sw aa in
  positions_ok s → one_key a sw → no_slash addr = true → 0 ≤ dS → 0 ≤ dA →
  addLiquidity ctx a dS dA sw aa hash stage s = (Ok u, s') →
  blank addr = false ∧
  ∃ p' lp', addition s s' a addr p' lp' ∧
    let lp := position s a addr in
    let half := stage = true ∧ (PendingAsset lp + dA = 0 ∨ PendingSwitch lp + dS = 0) in
    ((half ∧ added_pending s a addr p' lp' dS dA) ∨ (¬ half ∧ added_committed s a addr p' lp' dS dA)).
Proof.
  intros addr Hok Hone Hns HS HA. unfold addLiquidity. intros Hrun. run_step Hrun r s1 E.
  apply validateAddLiquidityMessage_ok in E as (-> & Hb & Hex).
  assert (Hba : blank addr = false).
  { unfold addr, fetch_addr. destruct (blank sw) eqn:Hsw; [exact Hb|exact Hsw]. }
  split; [exact Hba|].
  run_step Hrun p s1 E. rewrite GetPool_run in E. injection E as <- <-.
  destruct (pool_of_ok s a Hok Hex) as (Hpk & Hpe & Hpw). set (p := pool_of s a) in *.
  run_step Hrun supply s1 E. pose proof E as Hsup.
  apply GetTotalSupply_ok in E as (-> & Hs0 & _).
  run_step Hrun r1 s1 E. apply lift_ok in E as [E ->]. destruct r1 as [p1 units]. pose proof E as Hcu.
  apply CalcUnits_inv in E as (v & -> & Hv & Hun); [|done|lia].
  fold (fetch_addr sw aa) in Hrun. fold addr in Hrun.
  run_step Hrun su s1 E. apply gets_ok in E as [-> ->].
  change (default _ (lps s !! _)) with (position s a addr) in Hrun.
  destruct (position_ok s a addr Hok Hba Hns) as (Hlw & Hla & Hlu & _). set (lp := position s a addr) in *.
  run_step Hrun su1 s1 E. apply lift_ok in E as [E ->].
  pose proof E as Hmf. apply match_addresses_fields in Hmf as (x & y & Hsu1).
  apply match_addresses_key in E; [|done|done|exact Hlu]. fold addr in E.
  assert (Hlw1 : lp_wf su1).
  { subst su1. destruct Hlw. constructor; try done. unfold no_slash. by rewrite E. }
  assert (Hlf : Units su1 = Units lp ∧ PendingSwitch su1 = PendingSwitch lp ∧
                PendingAsset su1 = PendingAsset lp ∧ lp_asset su1 = lp_asset lp) by (by subst su1).
  clear Hsu1. destruct Hlf as (Hf1 & Hf2 & Hf3 & Hf4).
  run_step Hrun pS s1 E1. apply lift_ok in E1 as [E1 ->]. apply uadd_inv in E1 as [-> _].
  run_step Hrun pA s1 E1. apply lift_ok in E1 as [E1 ->]. apply uadd_inv in E1 as [-> _].
  pose proof (lw_switch lp Hlw). pose proof (lw_asset lp Hlw).
  assert (Hcomm : ∀ h1 h2, commit a (set_SynthUnits v p) su1 (PendingSwitch su1 + dS) (PendingAsset su1 + dA)
     supply units h1 h2 s = (Ok u, s') →
     ∃ p' lp', addition s s' a addr p' lp' ∧ added_committed s a addr p' lp' dS dA).
  { intros h1 h2 Hc. apply commit_ok in Hc as (p' & lp' & Hw & Hpa & Hpw' & Hpe' & Hla' & Hlg & Hcs);
      [| |done..|lia].
    2:{ destruct Hpw. by constructor. }
    exists p', lp'. split; [constructor; try done|].
    - by rewrite Hpa.
    - by rewrite Hla', Hf4.
    - by rewrite Hlg.
    - exists supply, (set_SynthUnits v p), units. split; [done|]. split; [done|].
      fold p lp. cbn in Hcs. rewrite <- Hun in Hcs. unfold commit_step in *. cbn in Hcs.
      by rewrite Hf1, Hf2, Hf3 in Hcs. }
  destruct stage; cbn [andb] in Hrun.
  2:{ apply Hcomm in Hrun as (p' & lp' & Ha & Hc). exists p', lp'. split; [exact Ha|]. right.
      split; [by intros [? _]|exact Hc]. }
  destruct (Z.eqb_spec (PendingAsset su1 + dA) 0) as [Hz|Hz1].
  { apply stage_switch_ok in Hrun; [|done]. eexists _, _. split; [constructor; try exact Hrun; try done|].
    - destruct Hpw. constructor; cbn; lia.
    - cbn. by rewrite Hf4.
    - left. split; [split; [done|left; congruence]|]. unfold added_pending, pending_step. cbn. fold p lp.
      rewrite <- Hf1, <- Hf2, <- Hf3. rewrite Hf3 in Hz. split_and!; try done; lia. }
  destruct (Z.eqb_spec (PendingSwitch su1 + dS) 0) as [Hz|Hz2].
  { apply stage_asset_ok in Hrun; [|done]. eexists _, _. split; [constructor; try exact Hrun; try done|].
    - destruct Hpw. constructor; cbn; lia.
    - cbn. by rewrite Hf4.
    - left. split; [split; [done|right; congruence]|]. unfold added_pending, pending_step. cbn. fold p lp.
      rewrite <- Hf1, <- Hf2, <- Hf3. rewrite Hf2 in Hz. split_and!; try done; lia. }
  apply Hcomm in Hrun as (p' & lp' & Ha & Hc). exists p', lp'. split; [exact Ha|]. right.
  split; [|exact Hc]. fold lp. rewrite Hf3 in Hz1. rewrite Hf2 in Hz2. by intros [_ [?|?]].
Qed.

(** The store after an addition. *)
Lemma addition_pool_of s s' a addr p' lp' :
  addition s s' a addr p' lp' → pool_of s' a = p'.
Proof.
  intros Had. destruct (ad_writes _ _ _ _ _ _ Had) as (Hp & _ & _). unfold pool_of.
  by rewrite Hp, (ad_pool_key _ _ _ _ _ _ Had), lookup_insert_eq.
Qed.

Lemma addition_key s s' a addr p' lp' :
  addition s s' a addr p' lp' → blank addr = false → lp_key lp' = lp_key (NewLP a addr).
Proof.
  intros Had Hb. rewrite !lp_key_split, (ad_lp_asset _ _ _ _ _ _ Had), (ad_lp_addr _ _ _ _ _ _ Had).
  destruct (NewLP_fields a addr) as [-> _]. by rewrite (NewLP_address a addr Hb).
Qed.

(** An addition keeps the sums. *)
Lemma addLiquidity_positions ctx a dS dA sw aa hash stage s u s' :
  let addr := fetch_addr sw aa in
  positions_ok s → one_key a sw → no_slash addr = true → 0 ≤ dS → 0 ≤ dA →
  addLiquidity ctx a dS dA sw aa hash stage s = (Ok u, s') → positions_ok s' ∧ bank s' = bank s.
Proof.
  intros addr Hok Hone Hns HS HA Hrun.
  destruct (addLiquidity_ok ctx a dS dA sw aa hash stage s u s' Hok Hone Hns HS HA Hrun)
    as (Hb & p' & lp' & Had & Hcase). fold addr in Hb, Had, Hcase.
  pose proof (addition_key _ _ _ _ _ _ Had Hb) as Hkey.
  destruct (ad_writes _ _ _ _ _ _ Had) as (Hp & Hl & Hbank). split; [|exact Hbank].
  destruct (position_ok s a addr Hok Hb Hns) as (Hlw & Hla & Hlu & Hst).
  destruct (NewLP_fields a addr) as (Hn & Hn1 & Hn2 & Hn3).
  pose proof (Hst Units Hn1) as Hs1. pose proof (Hst PendingSwitch Hn2) as Hs2.
  pose proof (Hst PendingAsset Hn3) as Hs3. rewrite <- Hkey in Hs1, Hs2, Hs3.
  assert (Hpo : pool_of s (pool_asset p') = pool_of s a)
    by (unfold pool_of; by rewrite (ad_pool_key _ _ _ _ _ _ Had)).
  assert (Hex : ∀ lp, lps s !! lp_key lp' = Some lp → asset_key (lp_asset lp) = asset_key a).
  { intros lp Hlp. rewrite Hkey in Hlp. unfold position in Hla. rewrite Hlp in Hla. exact Hla. }
  assert (Hw0 : 0 ≤ PendingInboundSwitch (pool_of s a) ∧ 0 ≤ PendingInboundAsset (pool_of s a)).
  { unfold pool_of. destruct (pools s !! asset_key a) as [p0|] eqn:Hp0; [|done].
    destruct (po_pool s Hok _ _ Hp0) as (_ & _ & Hw). split; [apply Hw|apply Hw]. }
  pose proof (stored_pool_le _ _ s _ a Hok (po_switch s Hok) lw_switch (proj1 Hw0) Hex) as Hle1.
  pose proof (stored_pool_le _ _ s _ a Hok (po_asset s Hok) lw_asset (proj2 Hw0) Hex) as Hle2.
  assert (Hwf : lp_wf lp').
  { assert (Hns' : no_slash (LP_GetAddress lp') = true)
      by (unfold no_slash in *; by rewrite (ad_lp_addr _ _ _ _ _ _ Had)).
    destruct Hlw. destruct Hcase as [[_ Hc]|[_ (? & ? & ? & _ & _ & Hc)]].
    - destruct Hc as (_ & _ & _ & ? & _ & ? & _ & ?). constructor; [lia..|done].
    - destruct Hc as (_ & _ & _ & _ & ? & ? & u0 & ? & ? & ? & _). constructor; [lia..|done]. }
  eapply (positions_write s s' p' lp'); try done.
  - constructor; [exact Hp|exact Hl|].
    by rewrite (ad_lp_asset _ _ _ _ _ _ Had), (ad_pool_key _ _ _ _ _ _ Had).
  - apply (ad_pool_wf _ _ _ _ _ _ Had).
  - apply (ad_known _ _ _ _ _ _ Had).
  - rewrite Hpo, Hs1. destruct Hcase as [[_ Hc]|[_ (? & ? & ? & _ & _ & Hc)]].
    + destruct Hc as (_ & _ & -> & -> & _). lia.
    + destruct Hc as (_ & _ & _ & _ & _ & _ & u0 & _ & -> & -> & _). lia.
  - rewrite Hpo, Hs2 in *. destruct Hcase as [[_ Hc]|[_ (? & ? & ? & _ & _ & Hc)]].
    + destruct Hc as (_ & _ & _ & _ & -> & -> & _). lia.
    + destruct Hc as (_ & _ & -> & _ & -> & _). lia.
  - rewrite Hpo, Hs3 in *. destruct Hcase as [[_ Hc]|[_ (? & ? & ? & _ & _ & Hc)]].
    + destruct Hc as (_ & _ & _ & _ & _ & _ & -> & ->). lia.
    + destruct Hc as (_ & _ & _ & -> & _ & -> & _). lia.
Qed.

(** Creating the pool, and setting its decimals, keeps the sums. *)
Lemma ensure_pool_ok msg s p s' :
  positions_ok s → ensure_pool msg s = (Ok p, s') → positions_ok s' ∧ bank s' = bank s.
Proof.
  intros Hok Hrun. unfold ensure_pool in Hrun. run_step Hrun p0 s1 E. rewrite GetPool_run in E.
  injection E as <- <-. set (a := al_Asset msg) in *. run_step Hrun p1 s1 E.
  assert (positions_ok s1 ∧ bank s1 = bank s ∧ pool_of s1 (pool_asset p1) = p1 ∧ pool_wf p1)
    as (Hok1 & Hb1 & Hp1 & Hw1).
  { destruct (Pool_IsEmpty (pool_of s a)) eqn:He.
    - pose proof (pool_of_fresh s a Hok He) as Hf. rewrite Hf in E. run_step E t s2 Es.
      apply ret_ok in E as [-> ->].
      assert (Hw : ∀ st, pool_wf (set_Status st (set_pool_asset a NewPool))) by (by constructor).
      apply set_pool_positions in Es; [|done|apply Hw|change (pool_asset _) with a; by rewrite Hf..].
      destruct Es as (? & ? & ?). by split_and!.
    - apply ret_ok in E as [-> ->]. split; [done|]. split; [done|].
      unfold Pool_IsEmpty in He. unfold pool_of in *.
      destruct (pools s !! asset_key a) as [p1|] eqn:Hp; [|done].
      cbn in *. destruct (po_pool s Hok _ _ Hp) as (Hk & _ & Hw). rewrite <- Hk, Hp. done. }
  destruct (Decimals p1 =? 0); [|by apply ret_ok in Hrun as [-> ->]]. cbn zeta in Hrun.
  match type of Hrun with (if ?b then _ else _) _ = _ => destruct b end;
    [|by apply ret_ok in Hrun as [-> ->]].
  run_step Hrun t s2 Es. apply ret_ok in Hrun as [-> ->].
  apply set_pool_positions in Es as (? & Hb2 & _); [by rewrite Hb2| |destruct Hw1; by constructor|cbn; by rewrite Hp1..].
  done.
Qed.

(** What the pool of an asset holds, with what waits for its other half. *)
Definition switch_in (s : State) (a : Asset) : Z := BalanceSwitch (pool_of s a) + PendingInboundSwitch (pool_of s a).
Definition asset_in (s : State) (a : Asset) : Z := BalanceAsset (pool_of s a) + PendingInboundAsset (pool_of s a).

(** The pool grows by exactly these amounts (a vault of savers has no SWITCH), no
    provider loses units, and no other pool and no coin of the bank is touched. *)
Record grown (s s' : State) (a : Asset) (dS dA : Z) : Prop := {
  gr_bank : bank s' = bank s;
  gr_switch : Synth a = false → switch_in s' a = switch_in s a + dS;
  gr_asset : asset_in s' a = asset_in s a + dA;
  gr_pools : ∀ k, k ≠ asset_key a → pools s' !! k = pools s !! k;
  gr_units : ∀ k lp, lps s !! k = Some lp → ∃ lp', lps s' !! k = Some lp' ∧ Units lp ≤ Units lp';
}.

Lemma grown_refl s a : grown s s a 0 0.
Proof. constructor; try done; try lia. intros k lp Hk. exists lp. split; [done|lia]. Qed.
Lemma grown_trans s s1 s2 a dS dA dS' dA' :
  grown s s1 a dS dA → grown s1 s2 a dS' dA' → grown s s2 a (dS + dS') (dA + dA').
Proof.
  intros [Hb HS HA Hp Hl] [Hb' HS' HA' Hp' Hl']. constructor; [congruence| |lia| |].
  - intros Hsy. specialize (HS Hsy). specialize (HS' Hsy). lia.
  - intros k Hk. by rewrite Hp', Hp.
  - intros k lp Hk. apply Hl in Hk as (lp1 & Hk & ?). apply Hl' in Hk as (lp2 & ? & ?). exists lp2. split; [done|lia].
Qed.

Lemma set_pool_grown s s' a p u :
  SetPool p s = (Ok u, s') → asset_key (pool_asset p) = asset_key a →
  BalanceSwitch p + PendingInboundSwitch p = switch_in s a → BalanceAsset p + PendingInboundAsset p = asset_in s a →
  grown s s' a 0 0.
Proof.
  intros Hset Hk HS HA. destruct u. apply SetPool_ok in Hset as [_ ->].
  assert (Hp : pool_of (put_pools (<[asset_key (pool_asset p) := p]> (pools s)) s) a = p).
  { unfold pool_of. cbn. by rewrite Hk, lookup_insert_eq. }
  unfold asset_key in Hp at 1. constructor; [done|..].
  - intros _. unfold switch_in at 1. rewrite Hp. lia.
  - unfold asset_in at 1. rewrite Hp. lia.
  - intros k Hne. cbn. fold (asset_key (pool_asset p)). rewrite Hk. by rewrite lookup_insert_ne.
  - intros k lp Hl. exists lp. split; [done|lia].
Qed.

Lemma ensure_pool_grown msg s p s' :
  positions_ok s → ensure_pool msg s = (Ok p, s') → grown s s' (al_Asset msg) 0 0.
Proof.
  intros Hok Hrun. unfold ensure_pool in Hrun. run_step Hrun p0 s1 E. rewrite GetPool_run in E.
  injection E as <- <-. set (a := al_Asset msg) in *. run_step Hrun p1 s1 E.
  assert (grown s s1 a 0 0 ∧ pool_of s1 a = p1 ∧ asset_key (pool_asset p1) = asset_key a) as (Hg & Hp1 & Hk1).
  { destruct (Pool_IsEmpty (pool_of s a)) eqn:He.
    - pose proof (pool_of_fresh s a Hok He) as Hf. rewrite Hf in E. run_step E t s2 Es. apply ret_ok in E as [-> ->].
      split; [|split; [|done]].
      + eapply set_pool_grown; [exact Es|done|unfold switch_in|unfold asset_in]; by rewrite Hf.
      + destruct t. apply SetPool_ok in Es as [_ ->]. unfold pool_of. cbn. unfold asset_key. by rewrite lookup_insert_eq.
    - apply ret_ok in E as [-> ->]. split; [apply grown_refl|]. split; [done|].
      unfold Pool_IsEmpty, pool_of in *. destruct (pools s !! asset_key a) as [p1|] eqn:Hp; [|done].
      by destruct (po_pool s Hok _ _ Hp) as (Hk & _). }
  destruct (Decimals p1 =? 0); [|by apply ret_ok in Hrun as [-> ->]]. cbn zeta in Hrun.
  match type of Hrun with (if ?b then _ else _) _ = _ => destruct b end; [|by apply ret_ok in Hrun as [-> ->]].
  run_step Hrun t s2 Es. apply ret_ok in Hrun as [-> ->]. apply (grown_trans s s1 _ a 0 0 0 0); [done|].
  eapply set_pool_grown; [exact Es|done|unfold switch_in|unfold asset_in]; by rewrite Hp1.
Qed.

(** An addition puts its amounts into the pool, and keeps the sums. *)
Lemma addLiquidity_grown ctx a dS dA sw aa hash stage s u s' :
  positions_ok s → one_key a sw → no_slash sw = true → no_slash aa = true → 0 ≤ dS → 0 ≤ dA →
  addLiquidity ctx a dS dA sw aa hash stage s = (Ok u, s') → positions_ok s' ∧ grown s s' a dS dA.
Proof.
  intros Hok Hone Hn1 Hn2 HS HA Hrun.
  assert (Hns : no_slash (fetch_addr sw aa) = true) by (unfold fetch_addr; by destruct (blank sw)).
  destruct (addLiquidity_positions ctx a dS dA sw aa hash stage s u s' Hok Hone Hns HS HA Hrun) as [Hok' Hb].
  split; [exact Hok'|].
  destruct (addLiquidity_ok ctx a dS dA sw aa hash stage s u s' Hok Hone Hns HS HA Hrun) as (Hba & p' & lp' & Had & Hcase).
  set (addr := fetch_addr sw aa) in *. pose proof (addition_key _ _ _ _ _ _ Had Hba) as Hkey.
  pose proof (addition_pool_of _ _ _ _ _ _ Had) as Hp'. destruct (ad_writes _ _ _ _ _ _ Had) as (Hp & Hl & _).
  destruct (position_ok s a addr Hok Hba Hns) as (Hlw & Hla & Hlu & Hst).
  destruct (NewLP_fields a addr) as (Hn & Hz1 & Hz2 & Hz3).
  assert (Hw0 : 0 ≤ PendingInboundSwitch (pool_of s a) ∧ 0 ≤ PendingInboundAsset (pool_of s a)).
  { unfold pool_of. destruct (pools s !! asset_key a) as [p0|] eqn:Hp0; [|done].
    destruct (po_pool s Hok _ _ Hp0) as (_ & _ & Hw). split; [apply Hw|apply Hw]. }
  assert (Hex : ∀ lp, lps s !! lp_key lp' = Some lp → asset_key (lp_asset lp) = asset_key a).
  { intros lp Hlp. rewrite Hkey in Hlp. unfold position in Hla. rewrite Hlp in Hla. exact Hla. }
  pose proof (stored_pool_le _ _ s _ a Hok (po_switch s Hok) lw_switch (proj1 Hw0) Hex) as Hle1.
  pose proof (stored_pool_le _ _ s _ a Hok (po_asset s Hok) lw_asset (proj2 Hw0) Hex) as Hle2.
  rewrite Hkey, (Hst PendingSwitch Hz2) in Hle1. rewrite Hkey, (Hst PendingAsset Hz3) in Hle2.
  constructor; [exact Hb|..]; unfold switch_in, asset_in; rewrite ?Hp'.
  - intros Hsy. destruct Hcase as [[_ Hc]|[_ (? & ? & ? & _ & _ & Hc)]].
    + destruct Hc as (-> & _ & _ & _ & -> & _). lia.
    + unfold commit_step in Hc. rewrite Hsy in Hc. destruct Hc as (-> & _ & -> & _). lia.
  - destruct Hcase as [[_ Hc]|[_ (? & ? & ? & _ & _ & Hc)]].
    + destruct Hc as (_ & -> & _ & _ & _ & _ & -> & _). lia.
    + destruct Hc as (_ & -> & _ & -> & _). lia.
  - intros k Hne. rewrite Hp, (ad_pool_key _ _ _ _ _ _ Had). by rewrite lookup_insert_ne.
  - intros k lp Hk. rewrite Hl. destruct (decide (k = lp_key lp')) as [->|Hne].
    + exists lp'. rewrite lookup_insert_eq. split; [done|]. rewrite Hkey in Hk.
      assert (position s a addr = lp) as <- by (unfold position; by rewrite Hk).
      destruct Hcase as [[_ Hc]|[_ (? & ? & ? & _ & _ & Hc)]].
      * destruct Hc as (_ & _ & _ & -> & _). lia.
      * destruct Hc as (_ & _ & _ & _ & _ & _ & u0 & ? & _ & -> & _). lia.
    + exists lp. rewrite lookup_insert_ne by done. split; [done|lia].
Qed.

(** ** What the validation reads *)

(** The TVL check of helpers.go only reads the store. *)
Definition tvl_reads : Prop := ∀ ctx cs s r s', atTVLCap ctx cs s = (r, s') → s' = s.

Lemma anchored_ok ps s l s' : anchored ps s = (Ok l, s') → s' = s.
Proof.
  revert l s'. induction ps as [|p ps IH]; intros l s' Hok; cbn [anchored] in Hok.
  - by apply ret_ok in Hok as [_ ->].
  - run_step Hok v s1 E. apply gets_ok in E as [_ ->]. run_step Hok rest s1 E. apply IH in E as ->.
    by apply ret_ok in Hok as [_ ->].
Qed.

Lemma validate_saver_ok msg s u s' : validate_saver msg s = (Ok u, s') → s' = s.
Proof.
  unfold validate_saver, GetAnchors, GetPools. intros Hok. run_step Hok anchors s1 E.
  assert (s1 = s) as -> by (run_case E; run_inv; [by eapply anchored_ok|done]).
  by run_inv.
Qed.

Lemma validate_addresses_ok msg s u s' : validate_addresses msg s = (Ok u, s') → s' = s.
Proof. unfold validate_addresses. intros Hok. run_inv. run_case Hok; by run_inv. Qed.

Lemma validate_limits_ok ctx msg p s u s' :
  tvl_reads → validate_limits ctx msg p s = (Ok u, s') → s' = s.
Proof.
  unfold validate_limits, getTotalLiquiditySWITCH, GetPools. intros Htvl Hok. run_case Hok; [by run_inv|].
  run_inv. repeat match goal with
  | Hg : GetConfigInt64 _ _ = _ |- _ => apply GetConfigInt64_ok in Hg as ->
  | Ht : atTVLCap _ _ _ = _ |- _ => apply Htvl in Ht as ->
  end. by run_inv.
Qed.

Lemma reads_ok m s b s' : reads m s → m s = (Ok b, s') → s' = s.
Proof. intros [b0 ->]. by intros [= _ <-]. Qed.

Lemma add_validate_ok ctx msg s u s' :
  tvl_reads → add_validate ctx msg s = (Ok u, s') → s' = s.
Proof.
  unfold add_validate. intros Htvl Hok. run_step Hok t s1 E.
  assert (s1 = s) as -> by (run_case E; [run_case E|]; by run_inv).
  clear E. do 3 pass_guard Hok.
  run_step Hok rag s1 E. apply reads_ok in E as ->; [|apply IsRagnarok_reads].
  pass_guard Hok.
  run_step Hok v0 s1 E. assert (s1 = s) as -> by (run_case E; [unfold GetPool in E|]; by run_inv).
  clear E. pass_guard Hok.
  run_step Hok v1 s1 E.
  assert (s1 = s) as -> by (run_case E; [by eapply validate_saver_ok|by run_inv]). clear E.
  run_step Hok v2 s1 E. apply validate_addresses_ok in E as ->.
  run_step Hok v3 s1 E. assert (s1 = s) as -> by (run_case E; by run_inv). clear E.
  run_step Hok p s1 E. rewrite GetPool_run in E. injection E as _ <-.
  run_step Hok v4 s1 E. assert (s1 = s) as -> by (run_case E; by run_inv). clear E.
  run_step Hok b s1 E.
  apply reads_ok in E as ->; [|apply or_else_reads; [apply IsChainHalted_reads|]; apply IsLPPaused_reads].
  pass_guard Hok.
  run_step Hok b2 s1 E. unfold IsPoolDepositPaused, GetMimir in E. run_inv.
  by eapply validate_limits_ok.
Qed.

(** ** The properties *)

(** Messages whose amounts are in the range in which shares are at most what is
    shared, and whose addresses have no slash. *)
Record msg_clean (msg : MsgAddLiquidity) : Prop := {
  mc_switch : 0 ≤ al_SwitchAmount msg < 2 ^ 180;
  mc_asset : 0 ≤ al_AssetAmount msg < 2 ^ 180;
  mc_addr : no_slash (al_SwitchAddress msg) = true;
  mc_aaddr : no_slash (al_AssetAddress msg) = true;
  mc_aff : no_slash (al_AffiliateAddress msg) = true;
  mc_bps : 0 ≤ al_AffiliateBasisPoints msg;
}.

Lemma no_slash_fetch sw aa : no_slash sw = true → no_slash aa = true → no_slash (fetch_addr sw aa) = true.
Proof. intros. unfold fetch_addr. by destruct (blank sw). Qed.

(** Savers are known by the address of the asset; one who names a SWITCH address
    besides loses units ([saver_add_by_two_addresses_overwrites]). *)
Definition savers_by_asset (msg : MsgAddLiquidity) : Prop :=
  Synth (al_Asset msg) = true →
  blank (al_SwitchAddress msg) = true ∧
  (al_AffiliateBasisPoints msg = 0 ∨ IsChain (al_AffiliateAddress msg) SWITCHLYChain = false).

Lemma affiliate_split m amt x :
  0 ≤ m → 0 ≤ amt < 2 ^ 180 → SafeSub amt (GetSafeShare m 10000 amt) = Ok x →
  0 ≤ GetSafeShare m 10000 amt ∧ 0 ≤ x ∧ x + GetSafeShare m 10000 amt = amt.
Proof.
  intros Hm Ha Hx. assert (Hr : 0 ≤ GetSafeShare m 10000 amt ≤ amt) by (apply GetSafeShare_le; lia).
  apply SafeSub_inv in Hx as ->; lia.
Qed.

(** C3: An [AddLiquidity] message that succeeds hands a coin that has to be swapped
    first to the swap, and does no more; any other, with or without an
    affiliate, committed or staged, to a pool or to a vault of savers -- whose
    savers are known by the asset's address -- keeps the books: the pool, or
    what waits in it for its other half, grows by exactly the amounts of the
    message (of the asset only, for savers), no provider loses units, the units
    of every pool stay the sum of its providers' and its pending amounts the
    sums of theirs, and no other pool and no coin of the bank is touched. *)
Theorem add_Run_keeps_the_books ctx msg s s' :
  tvl_reads → positions_ok s → msg_clean msg → savers_by_asset msg →
  add_Run ctx msg s = (Ok (), s') →
  if needsSwap msg then saver_swap ctx msg s = (Ok (), s')
  else positions_ok s' ∧ grown s s' (al_Asset msg) (al_SwitchAmount msg) (al_AssetAmount msg).
Proof.
  intros Htvl Hok Hmsg Hsav. unfold add_Run. intros Hrun. run_step Hrun t s1 E.
  apply add_validate_ok in E as ->; [|done]. unfold add_handle in Hrun.
  destruct (needsSwap msg); [exact Hrun|].
  run_step Hrun p s1 E. pose proof E as Hg. apply ensure_pool_grown in Hg; [|done]. apply ensure_pool_ok in E as [Hok1 _]; [|done].
  assert (Hone : one_key (al_Asset msg) (al_SwitchAddress msg)).
  { unfold one_key. destruct (Synth (al_Asset msg)) eqn:Hsy; [right; by apply Hsav|by left]. }
  destruct Hmsg as [HmS HmA Hn1 Hn2 Hn3 Hbps]. destruct (Z.eqb_spec (al_AffiliateBasisPoints msg) 0) as [|Hne].
  { apply addLiquidity_grown in Hrun as [? Hg']; try done; [|lia..]. split; [done|].
    exact (grown_trans _ _ _ _ _ _ _ _ Hg Hg'). }
  run_step Hrun uS s2 E. apply lift_ok in E as [E ->]. run_step Hrun uA s2 E2. apply lift_ok in E2 as [E2 ->].
  apply affiliate_split in E as (HfS & HuS & HsS); [|lia|done]. apply affiliate_split in E2 as (HfA & HuA & HsA); [|lia|done].
  run_step Hrun t2 s2 E. apply addLiquidity_grown in E as [Hok2 Hg2]; try done.
  apply addLiquidity_grown in Hrun as [? Hg3]; try done; [|unfold one_key|by destruct (IsChain _ _)..].
  - split; [done|]. pose proof (grown_trans _ _ _ _ _ _ _ _ Hg (grown_trans _ _ _ _ _ _ _ _ Hg2 Hg3)) as Hall.
    by replace (al_SwitchAmount msg) with (0 + (uS + GetSafeShare (al_AffiliateBasisPoints msg) 10000 (al_SwitchAmount msg))) by lia;
      replace (al_AssetAmount msg) with (0 + (uA + GetSafeShare (al_AffiliateBasisPoints msg) 10000 (al_AssetAmount msg))) by lia.
  - destruct (Synth (al_Asset msg)) eqn:Hsy; [right|by left]. by destruct (Hsav Hsy) as [_ [? | ->]].
Qed.

(** What one addition does.  It stays pending, and moves no balance, exactly
    when it is staged and one of the two sides would still be missing;
    otherwise what was pending and what is added enter the pool together, the
    pending amounts are cleared and the provider receives the units of the
    formula of [calculatePoolUnits] (which [added_units_dilute_nobody] bounds). *)
Theorem addLiquidity_commits_both_halves ctx a dS dA sw aa hash stage s s' :
  positions_ok s → Synth a = false → 0 ≤ dS → 0 ≤ dA →
  no_slash sw = true → no_slash aa = true →
  addLiquidity ctx a dS dA sw aa hash stage s = (Ok (), s') →
  let addr := fetch_addr sw aa in
  let p := pool_of s a in let p' := pool_of s' a in
  let lp := position s a addr in let lp' := position s' a addr in
  let inS := PendingSwitch lp + dS in let inA := PendingAsset lp + dA in
  if stage && ((inA =? 0) || (inS =? 0)) then
    PendingSwitch lp' = inS ∧ PendingAsset lp' = inA ∧ Units lp' = Units lp ∧
    PendingInboundSwitch p' = PendingInboundSwitch p + dS ∧
    PendingInboundAsset p' = PendingInboundAsset p + dA ∧
    BalanceSwitch p' = BalanceSwitch p ∧ BalanceAsset p' = BalanceAsset p ∧ LPUnits p' = LPUnits p
  else
    ∃ poolUnits u pu, LPUnits p ≤ poolUnits ∧
      calculatePoolUnits poolUnits (BalanceSwitch p) (BalanceAsset p) inS inA = Ok (pu, u) ∧
      PendingSwitch lp' = 0 ∧ PendingAsset lp' = 0 ∧ Units lp' = Units lp + u ∧
      BalanceSwitch p' = BalanceSwitch p + inS ∧ BalanceAsset p' = BalanceAsset p + inA ∧
      LPUnits p' = LPUnits p + u.
Proof.
  intros Hok Hsy HS HA Hns1 Hns2 Hrun addr p p' lp lp' inS inA.
  destruct (addLiquidity_ok ctx a dS dA sw aa hash stage s () s') as (Hb & q & l & Had & Hcase);
    [done|by left|by apply no_slash_fetch|done..|]. fold addr in Hb, Had, Hcase. fold p lp in Hcase.
  assert (Hp' : p' = q) by (by eapply addition_pool_of).
  assert (Hl' : lp' = l).
  { destruct (ad_writes _ _ _ _ _ _ Had) as (_ & Hl & _). unfold lp', position.
    by rewrite Hl, (addition_key _ _ _ _ _ _ Had Hb), lookup_insert_eq. }
  rewrite Hp', Hl'. clear Hp' Hl'. fold lp in Hcase. fold inA inS in Hcase.
  destruct (stage && _) eqn:Hhalf; destruct Hcase as [[Hh Hc]|[Hh Hc]].
  - destruct Hc as (? & ? & ? & ? & ? & ? & ? & ?). by split_and!.
  - exfalso. apply Hh. rewrite andb_true_iff, orb_true_iff, !Z.eqb_eq in Hhalf. exact Hhalf.
  - exfalso. rewrite andb_false_iff, orb_false_iff, !Z.eqb_neq in Hhalf. naive_solver.
  - destruct Hc as (supply & p1 & units & Hsup & Hcu & Hc).
    destruct Hc as (HbS & HbA & _ & _ & HpS & HpA & u & Hu0 & HlU & HuU & Hcalc).
    rewrite Hsy in *. destruct (Hcalc eq_refl) as [pu Hpu]. exists units, u, pu.
    split; [|by split_and!].
    assert (Hw : pool_wf p).
    { unfold p, pool_of. destruct (pools s !! asset_key a) eqn:Hpp; [|done].
      by destruct (po_pool s Hok _ _ Hpp) as (_ & _ & ?). }
    apply GetTotalSupply_ok in Hsup as (_ & Hs0 & _).
    apply CalcUnits_inv in Hcu as (v & _ & Hv & ->); [|exact Hw|lia]. fold p. lia.
Qed.

(** A donation raises the two balances of the pool by exactly the amounts of the
    message and changes neither its units nor any position. *)
Theorem donate_only_enriches ctx msg s s' :
  positions_ok s → 0 ≤ do_SwitchAmount msg → 0 ≤ do_AssetAmount msg →
  donate_Run ctx msg s = (Ok (), s') →
  let p := pool_of s (do_Asset msg) in
  let p' := pool_of s' (do_Asset msg) in
  Assets.IsEmpty (pool_asset p) = false ∧
  p' = set_BalanceSwitch (BalanceSwitch p + do_SwitchAmount msg)
         (set_BalanceAsset (BalanceAsset p + do_AssetAmount msg) p) ∧
  lps s' = lps s ∧ bank s' = bank s ∧ positions_ok s'.
Proof.
  intros Hok HS HA Hrun p p'. unfold donate_Run in Hrun. run_step Hrun t s1 E.
  assert (s1 = s) as ->.
  { unfold donate_validate in E. run_case E; [|done]. run_step E t1 s2 E1. apply fail_when_ok in E as [_ ->].
    unfold check in E1. run_case E1; by run_inv. }
  clear E. unfold donate_handle in Hrun. run_case Hrun; [|done].
  run_step Hrun q s1 E. rewrite GetPool_run in E. injection E as <- <-. fold p in Hrun.
  pass_guard Hrun.
  run_step Hrun ba s1 E. apply lift_ok in E as [E ->]. apply uadd_inv in E as [-> _].
  run_step Hrun br s1 E. apply lift_ok in E as [E ->]. apply uadd_inv in E as [-> _].
  run_step Hrun t2 s1 E. destruct t2. apply modify_ok in Hrun as ->. pose proof E as Hset.
  apply SetPool_ok in E as [He ->]. split; [exact He|].
  assert (Hpp : pools s !! asset_key (do_Asset msg) = Some p).
  { unfold p, pool_of in *. destruct (pools s !! asset_key (do_Asset msg)); [done|discriminate He]. }
  destruct (po_pool s Hok _ _ Hpp) as (Hk & _ & Hw).
  assert (Hp' : p' = set_BalanceSwitch (BalanceSwitch p + do_SwitchAmount msg)
         (set_BalanceAsset (BalanceAsset p + do_AssetAmount msg) p)).
  { unfold p', pool_of. cbn. rewrite Hk. change (GetKey (Assets.Str (pool_asset p))) with (asset_key (pool_asset p)).
    by rewrite lookup_insert_eq. }
  split; [exact Hp'|]. split; [done|]. split; [done|].
  apply set_pool_positions in Hset as (Hok' & _ & _); [destruct Hok'; by constructor|done| |cbn; unfold pool_of; by rewrite <- Hk, Hpp..].
  destruct Hw. constructor; cbn; lia.
Qed.
(** A saver's addition that names a SWITCH address looks the provider up under
    that address but saves the record under the asset address, so the position
    already stored there is lost: the record then holds the new units only, and
    the pool counts more units than its providers have, by those of the lost
    position. *)
Theorem saver_add_by_two_addresses_overwrites ctx a dS dA sw aa hash s s' old :
  positions_ok s → Synth a = true → blank sw = false → no_slash aa = true →
  IsChain sw SWITCHLYChain = true → 0 ≤ dS → 0 ≤ dA →
  lps s !! lp_key (NewLP a sw) = None →
  let place := asset_key a +:+ "/" +:+ ToUpper aa in
  lps s !! place = Some old →
  addLiquidity ctx a dS dA sw aa hash false s = (Ok (), s') →
  ∃ new, lps s' !! place = Some new ∧
    Units new = LPUnits (pool_of s' a) - LPUnits (pool_of s a) ∧
    LPUnits (pool_of s' a) = held Units (asset_key a) s' + Units old.
Proof.
  intros Hok Hsy Hbs Hns Hch HS HA Hnone place Hold. unfold addLiquidity. intros Hrun.
  run_step Hrun t s1 E. apply validateAddLiquidityMessage_ok in E as (-> & _ & Hex).
  destruct (pool_of_ok s a Hok Hex) as (Hk & He & Hw).
  run_step Hrun p s1 E. rewrite GetPool_run in E. injection E as <- <-. set (p := pool_of s a) in *.
  run_step Hrun supply s1 E. apply GetTotalSupply_ok in E as (-> & Hs0 & _).
  run_step Hrun r s1 E. apply lift_ok in E as [E ->]. destruct r as [p1 units].
  apply CalcUnits_inv in E as (v & -> & Hv & _); [|done|lia]. rewrite Hbs in Hrun.
  run_step Hrun su s1 E. apply gets_ok in E as [-> ->].
  change (lps s !! GetKey (LP_Key (NewLP a sw))) with (lps s !! lp_key (NewLP a sw)) in Hrun.
  rewrite Hnone in Hrun. unfold NewLP in Hrun. change (chain SwitchNative) with SWITCHLYChain in Hrun.
  rewrite Hch in Hrun.
  run_step Hrun su1 s1 E. apply lift_ok in E as [E ->].
  assert (su1 = mkLP a NoAddress aa (BlockHeight ctx) 0 0 0 0 "" 0 0) as ->.
  { unfold match_addresses, fill_addresses in E. cbn in E. rewrite Hbs, Hsy in E. cbn in E.
    apply bind_ok in E as (u & _ & E). by injection E as <-. }
  clear E. run_step Hrun pS s1 E. apply lift_ok in E as [E ->]. apply uadd_inv in E as [-> _].
  run_step Hrun pA s1 E. apply lift_ok in E as [E ->]. apply uadd_inv in E as [-> _]. cbn [andb] in Hrun.
  apply commit_ok in Hrun as (p' & lp' & (Hp & Hl & _) & Hpa & _ & _ & Hla & Hlg & Hcs);
    [|by destruct Hw; constructor| |done..|lia].
  2:{ by constructor. }
  assert (Hkey : lp_key lp' = place) by (rewrite lp_key_split, Hla, Hlg; reflexivity).
  assert (Hpk : asset_key (pool_asset p') = asset_key a) by (by rewrite Hpa).
  exists lp'. rewrite Hl, Hkey, lookup_insert_eq. split; [done|].
  destruct Hcs as (_ & _ & _ & _ & _ & _ & u & _ & HlU & HuU & _).
  assert (Hp' : LPUnits (pool_of s' a) = LPUnits (pool_of s a) + u).
  { unfold pool_of at 1. by rewrite Hp, Hpk, lookup_insert_eq. }
  rewrite Hp'. fold p. cbn in HuU. split; [lia|]. unfold held. rewrite Hl, Hkey, map_sum_insert, Hold.
  fold (held Units (asset_key a) s). rewrite <- (po_units s Hok). cbn [from_option].
  destruct (po_lp s Hok _ _ Hold) as [Hko Hwo].
  assert (Hao : asset_key (lp_asset old) = asset_key a).
  { destruct (lp_key_inj old lp') as [-> _]; [apply Hwo|by rewrite Hlg|congruence|by rewrite Hla]. }
  unfold of_asset. rewrite Hao, Hla, !decide_True by done. fold p. lia.
Qed.
End Liquidity.

(** ** Witnesses *)

#[local] Existing Instance idle_managers.
Definition idle_swaps : SaverSwaps := {| saver_swap _ _ := mret () |}.
#[local] Existing Instance idle_swaps.

Definition lp_block : Ctx := mkCtx 8 3 "".
Definition lp_hash : string := "1111111111111111111111111111111111111111111111111111111111111111".
Definition lp_tx (coins : list Coin) : Tx :=
  mkTx lp_hash BTCChain "bc1" "bc2" coins [NewCoin BTCAsset 10] "".

Definition add_msg : MsgAddLiquidity :=
  mkMsgAddLiquidity (lp_tx [NewCoin BTCAsset 100; NewCoin SwitchNative 1000]) BTCAsset 100 1000
    "alice" "bc1" "carol" 500 "signer".

Lemma idle_tvl_reads : tvl_reads.
Proof. intros ctx cs s r s' [= _ <-]. reflexivity. Qed.

Definition BTC_synth : Asset := Assets.GetSyntheticAsset BTCAsset.
(** A saver of bitcoin, after the pool is there. *)
Definition save_msg : MsgAddLiquidity :=
  mkMsgAddLiquidity (lp_tx [NewCoin BTC_synth 70]) BTC_synth 70 0 "" "bc1saver" "" 0 "signer".

Lemma add_Run_keeps_the_books_witness :
  let s1 := snd (add_Run lp_block add_msg empty_state) in
  let s2 := snd (add_Run lp_block save_msg s1) in
  (positions_ok s1 ∧ switch_in s1 BTCAsset = 1000) ∧ (positions_ok s2 ∧ asset_in s2 BTC_synth = 70).
Proof.
  assert (fst (add_Run lp_block add_msg empty_state) = Ok ()) as Hrun by (vm_compute; reflexivity).
  assert (fst (add_Run lp_block save_msg (snd (add_Run lp_block add_msg empty_state))) = Ok ()) as Hrun2
    by (vm_compute; reflexivity).
  apply run_pair in Hrun. apply run_pair in Hrun2.
  apply add_Run_keeps_the_books in Hrun; [|exact idle_tvl_reads|apply positions_empty; reflexivity| |discriminate].
  2: { constructor; first [reflexivity|cbn; lia]. }
  change (needsSwap add_msg) with false in Hrun. cbv iota in Hrun. destruct Hrun as [Hok Hg].
  apply add_Run_keeps_the_books in Hrun2; [|exact idle_tvl_reads|exact Hok| |].
  2: { constructor; first [reflexivity|cbn; lia]. }
  2: { intros _. split; [reflexivity|left; reflexivity]. }
  change (needsSwap save_msg) with false in Hrun2. cbv iota in Hrun2. destruct Hrun2 as [Hok2 Hg2].
  split; split; [exact Hok| |exact Hok2|].
  - etrans; [exact (gr_switch _ _ _ _ _ Hg eq_refl)|]. vm_compute. reflexivity.
  - etrans; [exact (gr_asset _ _ _ _ _ Hg2)|]. vm_compute. reflexivity.
Defined.

(** A pool with one provider, who has a pending half. *)
Definition alice : LiquidityProvider := mkLP BTCAsset "alice" "bc1" 3 0 2000 700 0 "TX" 0 0.
Definition alice_pool : Pool := mkPool 1000000 100000 BTCAsset 2000 Available 0 8 0 700 0.
Definition liq_state : State :=
  put_pools {[asset_key BTCAsset := alice_pool]} (put_lps {[lp_key alice := alice]} empty_state).

Lemma liq_state_ok : positions_ok liq_state.
Proof.
  apply (positions_one liq_state alice_pool alice); try reflexivity; constructor; cbn; try lia.
  reflexivity.
Qed.

Lemma addLiquidity_commits_both_halves_witness :
  let s' := snd (addLiquidity lp_block BTCAsset 0 50 "alice" "bc1" lp_hash true liq_state) in
  PendingSwitch (position s' BTCAsset "alice") = 0 ∧ BalanceSwitch (pool_of s' BTCAsset) = 1000700.
Proof.
  assert (fst (addLiquidity lp_block BTCAsset 0 50 "alice" "bc1" lp_hash true liq_state) = Ok ()) as Hrun
    by (vm_compute; reflexivity).
  apply run_pair in Hrun.
  apply addLiquidity_commits_both_halves in Hrun;
    [|exact liq_state_ok|reflexivity|discriminate|discriminate|reflexivity|reflexivity].
  change (true && _) with false in Hrun. destruct Hrun as (pu & u & q & _ & _ & Hs & _ & _ & Hb & _).
  split; [exact Hs|]. etrans; [exact Hb|]. vm_compute. reflexivity.
Defined.

Definition donate_msg : MsgDonate := mkMsgDonate (lp_tx [NewCoin BTCAsset 100]) BTCAsset 100 0 "signer".

Lemma donate_only_enriches_witness :
  let s' := snd (donate_Run lp_block donate_msg liq_state) in
  BalanceAsset (pool_of s' BTCAsset) = 100100 ∧ positions_ok s'.
Proof.
  assert (fst (donate_Run lp_block donate_msg liq_state) = Ok ()) as Hrun by (vm_compute; reflexivity).
  apply run_pair in Hrun.
  apply donate_only_enriches in Hrun as (_ & Hp & _ & _ & Hok);
    [|exact liq_state_ok|discriminate|discriminate].
  cbn zeta. split; [|exact Hok]. change BTCAsset with (do_Asset donate_msg).
  rewrite Hp. vm_compute. reflexivity.
Defined.

(** A saver's vault of 1000 units, and an addition by two addresses. *)
Definition saver : LiquidityProvider := mkLP BTC_synth "" "bc1" 3 0 1000 0 0 "" 0 0.
Definition saver_pool : Pool := mkPool 0 1000 BTC_synth 1000 Available 0 8 0 0 0.
Definition saver_state : State :=
  put_pools {[asset_key BTC_synth := saver_pool]} (put_lps {[lp_key saver := saver]} empty_state).

Lemma saver_state_ok : positions_ok saver_state.
Proof.
  apply (positions_one saver_state saver_pool saver); try reflexivity; constructor; cbn; try lia.
  reflexivity.
Qed.

Lemma saver_add_by_two_addresses_overwrites_witness :
  let s' := snd (addLiquidity lp_block BTC_synth 0 7 "alice" "bc1" lp_hash false saver_state) in
  LPUnits (pool_of s' BTC_synth) = held Units (asset_key BTC_synth) s' + 1000.
Proof.
  assert (fst (addLiquidity lp_block BTC_synth 0 7 "alice" "bc1" lp_hash false saver_state) = Ok ())
    as Hrun by (vm_compute; reflexivity).
  apply run_pair in Hrun.
  apply (saver_add_by_two_addresses_overwrites _ _ _ _ _ _ _ _ _ saver) in Hrun as (new & _ & _ & Hb);
    [exact Hb|exact saver_state_ok|reflexivity|reflexivity|reflexivity|reflexivity|discriminate
    |discriminate|vm_compute; reflexivity|vm_compute; reflexivity].
Defined.
