(* ===== verification/Withdraw.v ===== *)
(** * Withdrawing liquidity

    src/x/switchly/withdraw.go and src/x/switchly/handler_withdraw.go: the
    amounts a position is worth, symmetrically or to one side, the update of
    pool and position, and the handler with its outbounds.  The gas manager and
    the queueing of a saver's outgoing swap are classes. *)

From stdpp Require Import pretty.
From S2P Require Import Prelude CosmosMath Amounts GoStrings Assets Coins Pools Constants State Txs Swap Halts Positions.
Open Scope Z_scope.

Record MsgWithdrawLiquidity := mkMsgWithdrawLiquidity {
  wl_Tx : Tx;
  wl_WithdrawAddress : string;
  wl_BasisPoints : Z;
  wl_Asset : Asset;
  wl_WithdrawalAsset : Asset;
  wl_Signer : string;
}.

Definition MaxWithdrawBasisPoints : Z := 10000.

Definition errInvalidVersion : error := "bad version".
Definition errWithdrawFailValidation : error := "fail to validate withdraw".
Definition errNoLiquidityUnitLeft : error := "nothing to withdraw".
Definition errWithdrawLockup : error := "last add within lockup blocks".
Definition errWithdrawFail : error := "fail to withdraw".

Class GasManager `{Bank} := {
  GetMaxGas : Ctx → Chain → M State Coin;
  GetGasRate : Ctx → Chain → M State Z;
}.

(** [WithdrawLiquidityHandler.swap]: the synths are swapped to the address. *)
Class WithdrawSwaps `{Bank} := {
  withdraw_swap : Ctx → MsgWithdrawLiquidity → Coin → string → M State ();
}.

Section Withdraw.
  Context `{CosmosMath} `{Bank} `{Env} `{!Managers} `{!GasManager} `{!WithdrawSwaps}.

(** ** Amounts *)

Definition assetToWithdraw (msg : MsgWithdrawLiquidity) (lp : LiquidityProvider) (pauseAsym : Z) : Asset :=
  if blank (SwitchAddress lp) then wl_Asset msg
  else if blank (AssetAddress lp) then SwitchNative
  else if 0 <? pauseAsym then EmptyAsset
  else wl_WithdrawalAsset msg.

(** The half of one side is swapped to the other, at the depths that remain;
    the reserve is given back the liquidity fee. *)
Definition half_swap (poolAsset : Asset) (poolSWITCHDepth poolAssetDepth withdrawSWITCH withdrawAsset : Z)
    (toSwitch isPOL : bool) : K Z :=
  remainingAsset ← lift (SafeSub poolAssetDepth withdrawAsset);
  remainingSWITCH ← lift (SafeSub poolSWITCHDepth withdrawSWITCH);
  let '(x, X, Y, yAdd) :=
    if toSwitch then (withdrawAsset, remainingAsset, remainingSWITCH, withdrawSWITCH)
    else (withdrawSWITCH, remainingSWITCH, remainingAsset, withdrawAsset) in
  swapSlipBps ← lift (CalcSwapSlip X x);
  minSlipBps ← getMinSlipBps poolAsset;
  '(y, liqFee, _) ← lift (GetSwapCalc X x Y swapSlipBps minSlipBps);
  outputAmount ← lift (uadd y yAdd);
  if isPOL : bool then lift (uadd outputAmount liqFee) else mret outputAmount.

Definition calculateWithdraw (ctx : Ctx) (poolAsset : Asset)
    (poolUnits poolSWITCHDepth poolAssetDepth lpUnits withdrawBasisPoints : Z)
    (withdrawalAsset : Asset) (withdrawAddress : string) : K (Z * Z * Z) :=
  if 3 <=? versionMajor ctx then
    _ ← fail_when (poolUnits =? 0) "poolUnits can't be zero";
    _ ← fail_when (poolSWITCHDepth =? 0) "pool switch balance can't be zero";
    _ ← fail_when (poolAssetDepth =? 0) "pool asset balance can't be zero";
    _ ← fail_when (lpUnits =? 0) "liquidity provider unit can't be zero";
    _ ← fail_when (MaxWithdrawBasisPoints <? withdrawBasisPoints) "withdraw basis point is not valid";
    let unitsToClaim := GetSafeShare withdrawBasisPoints 10000 lpUnits in
    unitAfter ← lift (SafeSub lpUnits unitsToClaim);
    let withdrawSWITCH := GetSafeShare unitsToClaim poolUnits poolSWITCHDepth in
    let withdrawAsset := GetSafeShare unitsToClaim poolUnits poolAssetDepth in
    if Assets.IsEmpty withdrawalAsset then mret (withdrawSWITCH, withdrawAsset, unitAfter)
    else
      let toSwitch := Assets.IsSwitch withdrawalAsset in
      let isPOL := toSwitch && Address_Equals withdrawAddress (module_address ReserveName) in
      outputAmount ← half_swap poolAsset poolSWITCHDepth poolAssetDepth withdrawSWITCH withdrawAsset
                       toSwitch isPOL;
      mret (if toSwitch then (outputAmount, 0, unitAfter) else (0, outputAmount, unitAfter))
  else throw errBadVersion.

Definition calculateVaultWithdraw (vaultUnits assetAmt lpUnits withdrawBasisPoints : Z)
    : outcome (Z * Z * Z) :=
  if (vaultUnits =? 0) || (lpUnits =? 0) || (assetAmt =? 0) || (withdrawBasisPoints =? 0)
  then Ok (0, 0, 0)
  else
    let unitsToClaim := GetSafeShare withdrawBasisPoints MaxWithdrawBasisPoints lpUnits in
    unitAfter ← SafeSub lpUnits unitsToClaim;
    Ok (0, GetSafeShare unitsToClaim vaultUnits assetAmt, unitAfter).

(** ** The withdrawal *)

Definition validateWithdraw (msg : MsgWithdrawLiquidity) : K () :=
  _ ← fail_when (blank (wl_WithdrawAddress msg)) "empty withdraw address";
  _ ← fail_when (TxID_IsEmpty (tx_ID (wl_Tx msg))) "request tx hash is empty";
  _ ← fail_when (Assets.IsEmpty (wl_Asset msg)) "empty asset";
  _ ← fail_when (negb (0 <? wl_BasisPoints msg) || (MaxWithdrawBasisPoints <? wl_BasisPoints msg))
        "withdraw basis points is invalid";
  exist ← PoolExist (wl_Asset msg);
  fail_when (negb exist) "pool doesn't exist".

(** A position without units only has its pending amounts to give back. *)
Definition withdraw_pending (pool : Pool) (lp : LiquidityProvider) : K (Z * Z * Z * Z) :=
  if negb (PendingSwitch lp =? 0) || negb (PendingAsset lp =? 0) then
    _ ← RemoveLiquidityProvider lp;
    ps ← lift (SafeSub (PendingInboundSwitch pool) (PendingSwitch lp));
    pa ← lift (SafeSub (PendingInboundAsset pool) (PendingAsset lp));
    _ ← attempt (SetPool (set_PendingInboundAsset pa (set_PendingInboundSwitch ps pool)));
    a ← lift (RoundToDecimal (PendingAsset lp) (Decimals pool));
    mret (PendingSwitch lp, a, Units lp, 0)
  else throw errNoLiquidityUnitLeft.

(** The deposit values of a position that never had any. *)
Definition first_deposit_values (pool : Pool) (lp : LiquidityProvider) : outcome LiquidityProvider :=
  if bool_decide (Status pool = Available) && (SwitchDepositValue lp =? 0) && (AssetDepositValue lp =? 0)
  then
    poolUnits ← GetPoolUnits pool;
    s ← uadd (SwitchDepositValue lp) (GetSafeShare (Units lp) poolUnits (BalanceSwitch pool));
    a ← uadd (AssetDepositValue lp) (GetSafeShare (Units lp) poolUnits (BalanceAsset pool));
    Ok (set_AssetDepositValue a (set_SwitchDepositValue s lp))
  else Ok lp.

(** [calculateWithdraw] for a vault or a pool; its errors become one. *)
Definition withdraw_amounts (ctx : Ctx) (msg : MsgWithdrawLiquidity) (pool : Pool) (lp : LiquidityProvider)
    (toWithdraw : Asset) : K (Z * Z * Z) :=
  poolUnits ← lift (GetPoolUnits pool);
  if Synth (pool_asset pool) then
    lift (calculateVaultWithdraw poolUnits (BalanceAsset pool) (Units lp) (wl_BasisPoints msg))
  else
    r ← attempt (calculateWithdraw ctx (pool_asset pool) poolUnits (BalanceSwitch pool)
                   (BalanceAsset pool) (Units lp) (wl_BasisPoints msg) toWithdraw
                   (wl_WithdrawAddress msg));
    match r with
    | inr _ => throw errWithdrawFail
    | inl (withdrawSWITCH, withdrawAsset, unitAfter) =>
        _ ← fail_when (xorb (withdrawSWITCH =? BalanceSwitch pool) (withdrawAsset =? BalanceAsset pool))
              errWithdrawFail;
        mret (withdrawSWITCH, withdrawAsset, unitAfter)
    end.

(** The last withdrawal of a gas asset leaves the gas of its outbound. *)
Definition withdraw_gas (ctx : Ctx) (pool : Pool) (lp : LiquidityProvider) (withdrawAsset unitAfter : Z)
    : K (Z * Z) :=
  poolUnits ← lift (GetPoolUnits pool);
  others ← lift (SafeSub poolUnits (Units lp));
  left ← lift (uadd others unitAfter);
  if left =? 0 then
    r ← attempt (GetMaxGas ctx (Assets.GetChain (pool_asset pool)));
    match r with
    | inr _ => throw errWithdrawFail
    | inl maxGas =>
        if Assets.Equals (GetGasAsset (Assets.GetChain (pool_asset pool))) (pool_asset pool) then
          let gasAsset := if withdrawAsset <? coin_amount maxGas then withdrawAsset
                          else coin_amount maxGas in
          w ← lift (SafeSub withdrawAsset gasAsset);
          mret (w, gasAsset)
        else mret (withdrawAsset, 0)
    end
  else mret (withdrawAsset, 0).

(** The pool and the position after a withdrawal. *)
Definition shrink_pool (pool : Pool) (lp : LiquidityProvider) (withdrawSWITCH withdrawAsset unitAfter : Z)
    : outcome Pool :=
  claimed ← SafeSub (Units lp) unitAfter;
  units ← SafeSub (LPUnits pool) claimed;
  s ← SafeSub (BalanceSwitch pool) withdrawSWITCH;
  a ← SafeSub (BalanceAsset pool) withdrawAsset;
  Ok (set_BalanceAsset a (set_BalanceSwitch s (set_LPUnits units pool))).

Definition shrink_position (ctx : Ctx) (lp : LiquidityProvider) (basisPoints unitAfter : Z)
    : outcome LiquidityProvider :=
  s ← SafeSub (SwitchDepositValue lp)
        (GetSafeShare basisPoints MaxWithdrawBasisPoints (SwitchDepositValue lp));
  a ← SafeSub (AssetDepositValue lp)
        (GetSafeShare basisPoints MaxWithdrawBasisPoints (AssetDepositValue lp));
  Ok (set_Units unitAfter (set_AssetDepositValue a (set_SwitchDepositValue s
        (set_LastWithdrawHeight (BlockHeight ctx) lp)))).

(** A position that holds nothing is removed, unless a ragnarok is going on. *)
Definition save_position (lp : LiquidityProvider) : K () :=
  rag ← RagnarokInProgress;
  if rag : bool then SetLiquidityProvider lp
  else
    held ← lift (h ← uadd (Units lp) (PendingAsset lp); uadd h (PendingSwitch lp));
    if negb (held =? 0) then SetLiquidityProvider lp else RemoveLiquidityProvider lp.

(** A pool without SWITCH or asset is staged. *)
Definition stage_if_empty (pool : Pool) : K Pool :=
  if ((BalanceAsset pool =? 0) || (BalanceSwitch pool =? 0)) && negb (Synth (pool_asset pool)) then
    _ ← EmitEvent (EvPool (pool_asset pool) Staged);
    mret (set_Status Staged pool)
  else mret pool.

(** The withdrawal from a position with units. *)
Definition withdraw_units (ctx : Ctx) (msg : MsgWithdrawLiquidity) (pool : Pool) (lp : LiquidityProvider)
    : K (Z * Z * Z * Z) :=
  lockupBlocks ← GetConfigInt64 "LiquidityLockUpBlocks";
  _ ← fail_when (BlockHeight ctx <? to_i64 (LastAddHeight lp + lockupBlocks)) errWithdrawLockup;
  pauseAsym ← GetMimir ("PauseAsymWithdrawal-" +:+ Chains.Str (Assets.GetChain (pool_asset pool)));
  let toWithdraw := assetToWithdraw msg lp pauseAsym in
  lp ← lift (first_deposit_values pool lp);
  '(withdrawSWITCH, withdrawAsset, unitAfter) ← withdraw_amounts ctx msg pool lp toWithdraw;
  withdrawAsset ← lift (RoundToDecimal withdrawAsset (Decimals pool));
  '(withdrawAsset, gasAsset) ← withdraw_gas ctx pool lp withdrawAsset unitAfter;
  pool ← lift (shrink_pool pool lp withdrawSWITCH withdrawAsset unitAfter);
  lp' ← lift (shrink_position ctx lp (wl_BasisPoints msg) unitAfter);
  _ ← fail_when (Units lp <=? unitAfter) "sanity check: LP units cannot increase during a withdrawal";
  pool ← stage_if_empty pool;
  _ ← SetPool pool;
  _ ← save_position lp';
  units ← lift (SafeSub (Units lp) unitAfter);
  mret (withdrawSWITCH, withdrawAsset, units, gasAsset).

(** The SWITCH and the asset withdrawn, the units burnt and the gas left. *)
Definition withdraw (ctx : Ctx) (msg : MsgWithdrawLiquidity) : K (Z * Z * Z * Z) :=
  if 3 <=? versionMajor ctx then
    _ ← validateWithdraw msg;
    pool ← GetPool (wl_Asset msg);
    synthSupply ← GetTotalSupply (Assets.GetSyntheticAsset (pool_asset pool));
    '(pool, _) ← lift (CalcUnits pool synthSupply);
    lp ← GetLiquidityProvider (wl_Asset msg) (wl_WithdrawAddress msg);
    if Units lp =? 0 then withdraw_pending pool lp else withdraw_units ctx msg pool lp
  else throw errInvalidVersion.

(** ** The handler *)

Definition Withdraw_ValidateBasic (m : MsgWithdrawLiquidity) : option error :=
  if bool_decide (wl_Signer m = "") then Some "invalid address"
  else if TxID_IsEmpty (tx_ID (wl_Tx m)) then Some "tx id cannot be empty"
  else if Assets.IsEmpty (wl_Asset m) then Some "pool asset cannot be empty"
  else if Assets.IsSwitch (wl_Asset m) then Some "asset cannot be switch"
  else if blank (wl_WithdrawAddress m) then Some "address cannot be empty"
  else if wl_BasisPoints m =? 0 then Some "basis points can't be zero"
  else if MaxWithdrawBasisPoints <? wl_BasisPoints m
  then Some "basis points is larger than maximum withdraw basis points"
  else if negb (Assets.IsEmpty (wl_WithdrawalAsset m)) && negb (Assets.IsSwitch (wl_WithdrawalAsset m)) &&
          negb (Assets.Equals (wl_WithdrawalAsset m) (wl_Asset m))
  then Some "withdrawal asset must be empty, switch, or pool asset"
  else None.

Definition withdraw_validate (ctx : Ctx) (msg : MsgWithdrawLiquidity) : K () :=
  if 3 <=? versionMajor ctx then
    _ ← (match Withdraw_ValidateBasic msg with
         | Some _ => throw errWithdrawFailValidation
         | None => mret ()
         end);
    _ ← (if Synth (wl_Asset msg) then
           burnSynths ← GetConfigInt64 "BurnSynths";
           fail_when (0 <? burnSynths) "burning synths is disabled, unable to withdraw to savers"
         else mret ());
    _ ← fail_when (Assets.IsDerivedAsset (wl_Asset msg))
          "cannot withdraw from a derived asset virtual pool";
    pool ← GetPool (wl_Asset msg);
    _ ← check (EnsureValidPoolStatus pool false);
    _ ← fail_when (negb (bool_decide (Status pool = Available)) &&
                   negb (Assets.IsEmpty (wl_WithdrawalAsset msg)) &&
                   negb (TxID_Equals (tx_ID (wl_Tx msg)) BlankTxID))
          "cannot specify a withdrawal asset while the pool is not available";
    halted ← or_else (IsChainHalted ctx (chain (wl_Asset msg))) (IsLPPaused ctx (chain (wl_Asset msg)));
    fail_when halted "unable to withdraw liquidity while chain is halted or paused LP actions"
  else throw errBadVersion.

(** One outbound of the withdrawal. *)
Definition transfer (ctx : Ctx) (msg : MsgWithdrawLiquidity) (memo : string) (gasAsset : Z)
    (coin : Coin) (addr : string) : K () :=
  let c := Assets.GetChain (wl_Asset msg) in
  '(maxGas, rate) ←
    (if negb (gasAsset =? 0) then
       r ← GetGasRate ctx c;
       r ← lift (as_uint64 r);
       mret (if Assets.Equals (GetGasAsset c) (wl_Asset msg) then [NewCoin (GetGasAsset c) gasAsset] else [],
             to_i64 r)
     else mret ([], 0));
  ok ← TryAddTxOutItem ctx
         (mkToi (Assets.GetChain (coin_asset coin)) (tx_ID (wl_Tx msg)) addr coin "" "" None memo maxGas rate "" "" "" None) 0;
  fail_when (negb ok) errFailAddOutboundTx.

(** The event of a withdrawal: of pending amounts when no unit was burnt. *)
Definition withdraw_event (msg : MsgWithdrawLiquidity) (lp : LiquidityProvider)
    (switchAmt assetAmt units : Z) : K () :=
  let hash := tx_ID (wl_Tx msg) in
  if units =? 0 then
    let ofSwitchly := Chains.Equals (tx_Chain (wl_Tx msg)) SWITCHLYChain in
    EmitEvent (EvWithdrawPendingLiquidity (wl_Asset msg) (SwitchAddress lp) switchAmt (AssetAddress lp)
                 assetAmt (if ofSwitchly then hash else "") (if ofSwitchly then "" else hash))
  else
    bps ← lift (as_uint64 (wl_BasisPoints msg));
    EmitEvent (EvWithdraw (wl_Asset msg) units (to_i64 bps) hash assetAmt switchAmt).

(** The asset goes out on its chain, or is swapped for an address of another. *)
Definition send_asset (ctx : Ctx) (msg : MsgWithdrawLiquidity) (memo : string) (lp : LiquidityProvider)
    (assetAmt gasAsset : Z) : K () :=
  if assetAmt =? 0 then mret ()
  else
    let coin := NewCoin (wl_Asset msg) assetAmt in
    if negb (Assets.IsSwitch (wl_Asset msg)) &&
       negb (IsChain (AssetAddress lp) (Assets.GetChain (wl_Asset msg)))
    then withdraw_swap ctx msg coin (AssetAddress lp)
    else transfer ctx msg memo gasAsset coin (AssetAddress lp).

Definition send_switch (ctx : Ctx) (msg : MsgWithdrawLiquidity) (memo : string) (lp : LiquidityProvider)
    (switchAmt gasAsset : Z) : K () :=
  if switchAmt =? 0 then mret ()
  else
    _ ← transfer ctx msg memo gasAsset (NewCoin SwitchNative switchAmt) (SwitchAddress lp);
    if Address_Equals (module_address ReserveName) (SwitchAddress lp) then
      p ← GetPOL;
      w ← lift (uadd (SwitchWithdrawn p) switchAmt);
      SetPOL (mkPOL (SwitchDeposited p) w)
    else mret ().

(** SWITCH sent with the request goes to the reserve, other coins to their
    pools. *)
Definition AddPoolFeeToReserve (fee : Z) : K () :=
  SendFromModuleToModule AsgardName ReserveName [NewCoin SwitchNative fee].
Definition donate_coin (c : Coin) : K () :=
  if Coin_IsEmpty c || bool_decide (coin_asset c = SwitchNative) then mret ()
  else
    pool ← GetPool (coin_asset c);
    if Pool_IsEmpty pool then mret ()
    else
      a ← lift (uadd (BalanceAsset pool) (coin_amount c));
      SetPool (set_BalanceAsset a pool).

Definition withdraw_handle (ctx : Ctx) (msg : MsgWithdrawLiquidity) : K () :=
  if 3 <=? versionMajor ctx then
    lp ← GetLiquidityProvider (wl_Asset msg) (wl_WithdrawAddress msg);
    '(switchAmt, assetAmt, units, gasAsset) ← withdraw ctx msg;
    let memo := if TxID_Equals (tx_ID (wl_Tx msg)) BlankTxID
                then "RAGNAROK:" +:+ pretty (BlockHeight ctx) else "" in
    _ ← withdraw_event msg lp switchAmt assetAmt units;
    _ ← send_asset ctx msg memo lp assetAmt gasAsset;
    _ ← send_switch ctx msg memo lp switchAmt gasAsset;
    let reserveCoin := GetCoin (tx_Coins (wl_Tx msg)) SwitchNative in
    _ ← (if Coin_IsEmpty reserveCoin then mret () else AddPoolFeeToReserve (coin_amount reserveCoin));
    for_each donate_coin (tx_Coins (wl_Tx msg))
  else throw errBadVersion.

Definition withdraw_Run (ctx : Ctx) (msg : MsgWithdrawLiquidity) : K () :=
  _ ← withdraw_validate ctx msg; withdraw_handle ctx msg.

(** ** Facts *)

(** What a claim of units is worth, and what is left per remaining unit. *)
Lemma safe_share_fair c P D :
  0 < c → c ≤ P < 2 ^ 100 → 0 < D ≤ 10 ^ 17 →
  let w := GetSafeShare c P D in
  0 ≤ w ≤ D ∧ (c = P → w = D) ∧ D * (P - c) - P < (D - w) * P.
Proof.
  intros Hc HP HD w. unfold w, GetSafeShare. destruct (Z.leb_spec P c) as [Hle|Hlt].
  - assert (c = P) by lia. subst c. rewrite share_full by lia. split; [lia|]. split; [done|]. nia.
  - split; [apply share_le_allocation; lia|]. split; [lia|].
    pose proof (share_error c P D ltac:(lia) ltac:(lia) ltac:(lia)) as He. nia.
Qed.

(** A half swap: what goes out leaves at least the product that a symmetric
    withdrawal would leave. *)
Lemma half_swap_ok poolAsset R A wS wA toSwitch isPOL s out s' :
  0 < R < 2 ^ 80 → 0 < A < 2 ^ 80 → 0 ≤ wS ≤ R → 0 ≤ wA ≤ A →
  half_swap poolAsset R A wS wA toSwitch isPOL s = (Ok out, s') →
  s' = s ∧
  if toSwitch then wS ≤ out ≤ R ∧ (R - wS) * (A - wA) ≤ (R - out) * A
  else wA ≤ out ≤ A ∧ (R - wS) * (A - wA) ≤ R * (A - out).
Proof.
  intros HR HA HwS HwA Hok. unfold half_swap in Hok.
  run_step Hok rA s1 E. apply lift_ok in E as [E ->]. apply SafeSub_inv in E as ->; [|lia..].
  run_step Hok rS s1 E. apply lift_ok in E as [E ->]. apply SafeSub_inv in E as ->; [|lia..].
  rewrite !Z.max_r in Hok by lia.
  assert (Hswap : ∀ x X Y yAdd out, 0 ≤ x < 2 ^ 80 → 0 ≤ X → 0 < x + X → 0 ≤ Y < 2 ^ 80 → 0 ≤ yAdd →
    (slip ← lift (CalcSwapSlip X x); minSlipBps ← getMinSlipBps poolAsset;
     '(y, liqFee, _) ← lift (GetSwapCalc X x Y slip minSlipBps);
     outputAmount ← lift (uadd y yAdd);
     if isPOL : bool then lift (uadd outputAmount liqFee) else mret outputAmount) s = (Ok out, s') →
    s' = s ∧ yAdd ≤ out ∧ out ≤ Y + yAdd ∧ X * Y ≤ (X + x) * (Y + yAdd - out)).
  { clear Hok HR HA HwS HwA. intros x X Y yAdd o Hx HX Hd HY Hy Hok.
    run_step Hok sl s1 E. apply lift_ok in E as [_ ->]. run_step Hok mb s1 E.
    apply getMinSlipBps_ok in E as [-> Hmb]. run_step Hok r s1 E. apply lift_ok in E as [E ->].
    destruct r as [[y fee] slip]. apply GetSwapCalc_product in E as (He & Hf & Hle & Hp & _); [|try lia..].
    2:{ assert (x * Y ≤ 2 ^ 80 * 2 ^ 80) by (apply Z.mul_le_mono_nonneg; lia). lia. }
    run_step Hok o1 s1 E. apply lift_ok in E as [E ->]. apply uadd_inv in E as [-> _].
    destruct isPOL.
    - apply lift_ok in Hok as [Hok ->]. apply uadd_inv in Hok as [-> _].
      split; [done|]. split; [lia|]. split; [lia|]. etrans; [exact Hp|].
      apply Z.mul_le_mono_nonneg_l; lia.
    - apply ret_ok in Hok as [-> ->]. split; [done|]. split; [lia|]. split; [lia|]. etrans; [exact Hp|].
      apply Z.mul_le_mono_nonneg_l; lia. }
  destruct toSwitch; apply Hswap in Hok as (-> & Hge & Hle & Hp); try lia;
    (split; [done|]; split; [lia|]; nia).
Qed.

(** The range of depths and units in which the shares are accurate. *)
Record withdraw_range (P R A L bps : Z) : Prop := {
  wr_units : 0 < L ≤ P;
  wr_total : P < 2 ^ 100;
  wr_R : 0 < R ≤ 10 ^ 17;
  wr_A : 0 < A ≤ 10 ^ 17;
  wr_small : L ≤ 10 ^ 17;
  wr_bps : 0 < bps ≤ 10000;
}.

Lemma safe_share_range c P D : 0 ≤ c → 0 < P < 2 ^ 100 → 0 < D ≤ 10 ^ 17 → 0 ≤ GetSafeShare c P D ≤ D.
Proof. intros. apply GetSafeShare_le; lia. Qed.

(** The amounts are those of the symmetric shares, or what a half swap makes of
    them. *)
Lemma calculateWithdraw_ok ctx a P R A L bps wAsset addr s outS outA after s' :
  withdraw_range P R A L bps →
  calculateWithdraw ctx a P R A L bps wAsset addr s = (Ok (outS, outA, after), s') →
  let c := GetSafeShare bps 10000 L in
  let wS := GetSafeShare c P R in let wA := GetSafeShare c P A in
  s' = s ∧ 0 ≤ c ≤ L ∧ after = L - c ∧ 0 ≤ outS ≤ R ∧ 0 ≤ outA ≤ A ∧
  (R - wS) * (A - wA) ≤ (R - outS) * (A - outA).
Proof.
  intros [HL HP HR HA HLs Hb] Hok c wS wA. unfold calculateWithdraw in Hok.
  run_case Hok; [|done]. do 5 pass_guard Hok. fold c in Hok.
  assert (Hc : 0 ≤ c ≤ L) by (apply GetSafeShare_le; lia).
  assert (HwS : 0 ≤ wS ≤ R) by (apply safe_share_range; lia).
  assert (HwA : 0 ≤ wA ≤ A) by (apply safe_share_range; lia).
  fold wS wA in Hok. clearbody c wS wA.
  run_step Hok af s1 E. apply lift_ok in E as [E ->]. apply SafeSub_inv in E as ->; [|lia..].
  rewrite Z.max_r in Hok by lia. run_case Hok.
  { apply ret_ok in Hok as [[= -> -> ->] ->]. split_and!; try done; try lia. }
  run_step Hok out s1 E. apply half_swap_ok in E as [-> E]; [|lia..].
  apply ret_ok in Hok as [Hok ->].
  destruct (Assets.IsSwitch wAsset); injection Hok as -> -> ->; destruct E as [Hle Hp];
    (split; [done|]; split; [lia|]; split; [done|]; split; [lia|]; split; [lia|]; nia).
Qed.

(** C17: A withdrawal, to both sides or to one of them, pays no more than the depths
    and is fair to the providers that stay: when both the units claimed and the
    units that stay are worth a base unit of each side, the product of the
    depths per remaining unit squared falls by less than the rounding of one
    unit on each side. *)
Theorem calculateWithdraw_is_fair ctx a P R A L bps wAsset addr s outS outA after s' :
  withdraw_range P R A L bps →
  calculateWithdraw ctx a P R A L bps wAsset addr s = (Ok (outS, outA, after), s') →
  let c := L - after in
  s' = s ∧ c = GetSafeShare bps 10000 L ∧ 0 ≤ c ≤ L ∧ (bps = 10000 → c = L) ∧
  0 ≤ outS ≤ R ∧ 0 ≤ outA ≤ A ∧
  (0 < c → P ≤ R * (P - c) → P ≤ A * (P - c) →
   (R * (P - c) - P) * (A * (P - c) - P) ≤ (R - outS) * (A - outA) * P ^ 2).
Proof.
  intros Hr Hok c.
  destruct (calculateWithdraw_ok ctx a P R A L bps wAsset addr s outS outA after s' Hr Hok)
    as (-> & Hc & Haf & HS & HA' & Hp). clear Hok.
  assert (Hce : c = GetSafeShare bps 10000 L) by (unfold c; lia). rewrite <- Hce in *. clearbody c.
  destruct Hr as [HL HP HR HA HLs Hb]. split_and!; try done; try lia.
  - intros ->. rewrite Hce. apply GetSafeShare_all; lia.
  - intros Hc0 H1p H2p. destruct (safe_share_fair c P R) as (Hb1 & _ & Hf1); [lia..|].
    destruct (safe_share_fair c P A) as (Hb2 & _ & Hf2); [lia..|].
    set (wS := GetSafeShare c P R) in *. set (wA := GetSafeShare c P A) in *.
    assert (Hm : (R * (P - c) - P) * (A * (P - c) - P) ≤ ((R - wS) * P) * ((A - wA) * P))
      by (apply Z.mul_le_mono_nonneg; lia).
    assert (HP2 : 0 ≤ P ^ 2) by (apply Z.pow_nonneg; lia).
    pose proof (Z.mul_le_mono_nonneg_r _ _ (P ^ 2) HP2 Hp) as Hq.
    rewrite Z.pow_2_r in *. lia.
Qed.

(** ** The store after a withdrawal *)

(** The gas manager only reads, and its coin is an amount. *)
Definition gas_reads : Prop :=
  ∀ ctx c s r s', GetMaxGas ctx c s = (r, s') →
    s' = s ∧ match r with Ok m => 0 ≤ coin_amount m | _ => True end.

Lemma attempt_ok {A} (m : K A) s r s' :
  attempt m s = (Ok r, s') →
  match r with inl a => m s = (Ok a, s') | inr e => m s = (Err e, s') end.
Proof. unfold attempt. destruct (m s) as [[a|e|] s1]; intros [= <- <-]; done. Qed.

(** Success shows that no depth is zero. *)
Lemma calculateWithdraw_nonzero ctx a P R A L bps wAsset addr s r s' :
  calculateWithdraw ctx a P R A L bps wAsset addr s = (Ok r, s') → R ≠ 0 ∧ A ≠ 0.
Proof.
  intros Hok. unfold calculateWithdraw in Hok. run_case Hok; [|done]. do 3 pass_guard Hok.
  by rewrite <- !Z.eqb_neq.
Qed.

(** What a claim on a vault of savers is worth. *)
Lemma calculateVaultWithdraw_ok P A L bps outS outA after :
  0 < L ≤ P → P < 2 ^ 100 → L ≤ 10 ^ 17 → 0 ≤ A ≤ 10 ^ 17 → 0 < bps ≤ 10000 →
  calculateVaultWithdraw P A L bps = Ok (outS, outA, after) →
  0 ≤ after ≤ L ∧ outS = 0 ∧ 0 ≤ outA ≤ A.
Proof.
  intros HL HP HLs HA Hb. unfold calculateVaultWithdraw, MaxWithdrawBasisPoints.
  destruct (_ || _) eqn:Hz; [intros [= <- <- <-]; lia|]. intros Hok. rewrite !orb_false_iff, !Z.eqb_neq in Hz.
  assert (Hc : 0 ≤ GetSafeShare bps 10000 L ≤ L) by (apply GetSafeShare_le; lia).
  apply bind_ok in Hok as (af & E & Hok). apply SafeSub_inv in E as ->; [|lia..]. injection Hok as <- <- <-.
  assert (0 ≤ GetSafeShare (GetSafeShare bps 10000 L) P A ≤ A) by (apply safe_share_range; lia). lia.
Qed.

(** The amounts that a position is worth, of a pool or of a vault of savers. *)
Definition worth (ctx : Ctx) (msg : MsgWithdrawLiquidity) (p : Pool) (units : Z) (toW : Asset) (s : State)
    (outS outA after : Z) : Prop :=
  if Synth (pool_asset p)
  then calculateVaultWithdraw (LPUnits p + SynthUnits p) (BalanceAsset p) units (wl_BasisPoints msg) = Ok (outS, outA, after)
  else calculateWithdraw ctx (pool_asset p) (LPUnits p + SynthUnits p) (BalanceSwitch p) (BalanceAsset p) units
         (wl_BasisPoints msg) toW (wl_WithdrawAddress msg) s = (Ok (outS, outA, after), s).

Lemma withdraw_amounts_ok ctx msg p lp toW s outS outA after s' :
  0 < Units lp ≤ LPUnits p + SynthUnits p → LPUnits p + SynthUnits p < 2 ^ 100 → Units lp ≤ 10 ^ 17 →
  0 ≤ BalanceSwitch p ≤ 10 ^ 17 → 0 ≤ BalanceAsset p ≤ 10 ^ 17 → 0 < wl_BasisPoints msg ≤ 10000 →
  withdraw_amounts ctx msg p lp toW s = (Ok (outS, outA, after), s') →
  s' = s ∧ 0 ≤ after ≤ Units lp ∧ 0 ≤ outS ≤ BalanceSwitch p ∧ 0 ≤ outA ≤ BalanceAsset p ∧
  worth ctx msg p (Units lp) toW s outS outA after.
Proof.
  intros HL HP HLs HR HA Hb Hok. unfold withdraw_amounts, GetPoolUnits in Hok. unfold worth.
  run_step Hok u s1 E. apply lift_ok in E as [E ->]. apply uadd_inv in E as [-> _].
  destruct (Synth (pool_asset p)).
  { apply lift_ok in Hok as [Hok ->]. pose proof Hok as Hw. apply calculateVaultWithdraw_ok in Hok as (? & -> & ?); [|lia..].
    split_and!; done || lia. }
  run_step Hok r s1 E. apply attempt_ok in E. destruct r as [[[oS oA] af]|e]; [|done]. pose proof E as Hw.
  destruct (calculateWithdraw_nonzero _ _ _ _ _ _ _ _ _ _ _ _ E).
  apply calculateWithdraw_ok in E as (-> & Hc & -> & HS & HA' & _); [|constructor; lia].
  pass_guard Hok. apply ret_ok in Hok as [[= -> -> ->] ->]. split_and!; try done; lia.
Qed.

(** The gas stays in the pool only when nobody's units are left. *)
Lemma withdraw_gas_ok ctx p lp w after s w' gas s' :
  gas_reads → 0 ≤ w → 0 ≤ after → 0 ≤ Units lp ≤ LPUnits p + SynthUnits p →
  withdraw_gas ctx p lp w after s = (Ok (w', gas), s') →
  s' = s ∧ 0 ≤ w' ∧ 0 ≤ gas ∧ w' + gas = w ∧ (gas ≠ 0 → LPUnits p + SynthUnits p - Units lp + after = 0).
Proof.
  intros Hg Hw Haf HU Hok. unfold withdraw_gas, GetPoolUnits in Hok.
  run_step Hok u s1 E. apply lift_ok in E as [E ->]. apply uadd_inv in E as [-> _].
  run_step Hok o s1 E. apply lift_ok in E as [E ->]. apply SafeSub_inv in E as ->; [|lia..].
  run_step Hok l s1 E. apply lift_ok in E as [E ->]. apply uadd_inv in E as [-> _].
  run_case Hok; [|apply ret_ok in Hok as [[= -> ->] ->]; split_and!; lia || done].
  run_step Hok r s1 E. apply attempt_ok in E. destruct r as [m|e]; [|done].
  apply Hg in E as [-> Hm]. run_case Hok; [|apply ret_ok in Hok as [[= -> ->] ->]; split_and!; lia || done].
  run_step Hok w1 s1 E. apply lift_ok in E as [E ->]. apply ret_ok in Hok as [[= -> ->] ->].
  destruct (Z.ltb_spec w (coin_amount m)); apply SafeSub_inv in E as ->; try lia; split_and!; lia || done.
Qed.

Lemma shrink_pool_ok p lp wS wA after p' :
  0 ≤ after ≤ Units lp → Units lp ≤ LPUnits p → 0 ≤ wS ≤ BalanceSwitch p → 0 ≤ wA ≤ BalanceAsset p →
  shrink_pool p lp wS wA after = Ok p' →
  p' = set_BalanceAsset (BalanceAsset p - wA) (set_BalanceSwitch (BalanceSwitch p - wS)
         (set_LPUnits (LPUnits p - (Units lp - after)) p)).
Proof.
  intros Ha HL HS HA. unfold shrink_pool. intros Hok.
  apply bind_ok in Hok as (c & Hc & Hok). apply SafeSub_inv in Hc as ->; [|lia..].
  apply bind_ok in Hok as (u & Hu & Hok). apply SafeSub_inv in Hu as ->; [|lia..].
  apply bind_ok in Hok as (x & Hx & Hok). apply SafeSub_inv in Hx as ->; [|lia..].
  apply bind_ok in Hok as (y & Hy & Hok). apply SafeSub_inv in Hy as ->; [|lia..].
  rewrite !Z.max_r in Hok by lia. by injection Hok as <-.
Qed.

(** Only the deposit values of the position change besides its units. *)
Definition same_position (lp lp' : LiquidityProvider) : Prop :=
  lp_asset lp' = lp_asset lp ∧ LP_GetAddress lp' = LP_GetAddress lp ∧
  PendingSwitch lp' = PendingSwitch lp ∧ PendingAsset lp' = PendingAsset lp.

Lemma same_position_trans a b c : same_position a b → same_position b c → same_position a c.
Proof. intros (? & ? & ? & ?) (? & ? & ? & ?). split_and!; congruence. Qed.

Lemma first_deposit_values_ok p lp lp' :
  first_deposit_values p lp = Ok lp' → same_position lp lp' ∧ Units lp' = Units lp.
Proof.
  unfold first_deposit_values. destruct (_ && _ && _); [|by intros [= <-]].
  intros Hok. uint_inv. done.
Qed.

Lemma shrink_position_ok ctx lp bps after lp' :
  shrink_position ctx lp bps after = Ok lp' → same_position lp lp' ∧ Units lp' = after.
Proof. unfold shrink_position. intros Hok. ok_inv. done. Qed.

Lemma save_position_ok lp s u s' :
  lp_wf lp → save_position lp s = (Ok u, s') →
  pools s' = pools s ∧ bank s' = bank s ∧
  (lps s' = <[lp_key lp := lp]> (lps s) ∨
   (lps s' = delete (lp_key lp) (lps s) ∧ Units lp = 0 ∧ PendingSwitch lp = 0 ∧ PendingAsset lp = 0)).
Proof.
  intros [Hu Hs Ha _] Hok. unfold save_position in Hok. run_step Hok r s1 E. apply gets_ok in E as [-> ->].
  run_case Hok; [by apply modify_ok in Hok as ->; split_and!; [..|left]|].
  run_step Hok h s1 E. apply lift_ok in E as [E ->]. uint_inv.
  run_case Hok; apply modify_ok in Hok as ->; [by split_and!; [..|left]|]. split_and!; [done..|]. right.
  match goal with Hb : negb (_ =? 0) = false |- _ => apply negb_false_iff, Z.eqb_eq in Hb end.
  split; [done|]. lia.
Qed.

Lemma stage_if_empty_ok p s p' s' :
  stage_if_empty p s = (Ok p', s') →
  (∃ st, p' = set_Status st p) ∧ pools s' = pools s ∧ lps s' = lps s ∧ bank s' = bank s.
Proof.
  intros Hok. unfold stage_if_empty in Hok. run_case Hok.
  - run_step Hok u s1 E. apply modify_ok in E as ->. apply ret_ok in Hok as [-> ->].
    split; [by eexists|done].
  - apply ret_ok in Hok as [-> ->]. split; [|done]. exists (Status p). by destruct p.
Qed.

(** Withdrawals from a pool, or a vault of savers, in the range of the shares; the
    synths of a layer-1 pool are worth no more than its asset depth. *)
Record withdraw_sane (s : State) (msg : MsgWithdrawLiquidity) : Prop := {
  ws_books : positions_ok s;
  ws_addr : no_slash (wl_WithdrawAddress msg) = true;
  ws_switch : BalanceSwitch (pool_of s (wl_Asset msg)) ≤ 10 ^ 17;
  ws_asset : BalanceAsset (pool_of s (wl_Asset msg)) ≤ 10 ^ 17;
  ws_units : LPUnits (pool_of s (wl_Asset msg)) ≤ 10 ^ 17;
  ws_synths : Synth (pool_asset (pool_of s (wl_Asset msg))) = false → bank_supply (bank s) (Assets.Native (Assets.GetSyntheticAsset
                (pool_asset (pool_of s (wl_Asset msg))))) ≤ BalanceAsset (pool_of s (wl_Asset msg));
}.

(** With synths worth at most the asset depth, the pool's units at most double. *)
Lemma CalcUnits_double m s m' u :
  pool_wf m → 0 ≤ s → (Synth (pool_asset m) = false → s ≤ BalanceAsset m) →
  CalcUnits m s = Ok (m', u) →
  ∃ v, m' = set_SynthUnits v m ∧ 0 ≤ v ≤ LPUnits m ∧ u = LPUnits m + v.
Proof.
  intros Hm Hs Hle Hok. pose proof (wf_lp m Hm). destruct ((BalanceAsset m =? 0) || Synth (pool_asset m)) eqn:Hz.
  - unfold CalcUnits, GetPoolUnits in Hok. rewrite Hz in Hok. cbn in Hok. uint_inv. simplify_eq.
    exists 0. cbn in *. split_and!; done || lia.
  - rewrite orb_false_iff, Z.eqb_neq in Hz. destruct Hz as [Hz Hsy]. specialize (Hle Hsy).
    apply CalcUnits_synth in Hok as [-> ->]; [|done|lia|done]. eexists. split; [done|]. split; [|done].
    split; [apply Z.div_pos; nia|]. apply Z.div_le_upper_bound; nia.
Qed.

(** Pool and position are written together, or the position is removed. *)
Lemma withdraw_store s s1 s' p' lp lp' u :
  positions_ok s → pools s1 = <[asset_key (pool_asset p') := p']> (pools s) → lps s1 = lps s →
  save_position lp' s1 = (Ok u, s') →
  asset_key (lp_asset lp) = asset_key (pool_asset p') → lp_wf lp → same_position lp lp' →
  0 ≤ Units lp' → pool_wf p' → Assets.IsEmpty (pool_asset p') = false →
  let p0 := pool_of s (pool_asset p') in
  stored Units (lp_key lp) s = Units lp →
  stored PendingSwitch (lp_key lp) s = PendingSwitch lp →
  stored PendingAsset (lp_key lp) s = PendingAsset lp →
  LPUnits p' = LPUnits p0 - Units lp + Units lp' →
  PendingInboundSwitch p' = PendingInboundSwitch p0 →
  PendingInboundAsset p' = PendingInboundAsset p0 →
  positions_ok s'.
Proof.
  intros Hok Hp Hl Hsave Ha Hlw (Hla & Hlg & HpS & HpA) Hu Hpw He p0 H1s H2s H3s HU HS HA.
  assert (Hkey : lp_key lp' = lp_key lp) by (by rewrite !lp_key_split, Hla, Hlg).
  assert (Hlw' : lp_wf lp').
  { destruct Hlw. constructor; [done|by rewrite HpS|by rewrite HpA|by rewrite Hlg]. }
  destruct (save_position_ok lp' s1 u s' Hlw' Hsave) as (Hp' & _ & [Hl'|(Hl' & Hz1 & Hz2 & Hz3)]);
    rewrite Hp in Hp'; rewrite Hl in Hl'.
  - assert (Hw : wrote s s' p' lp') by (constructor; congruence).
    apply (positions_write s s' p' lp' Hok Hw Hlw' Hpw He); rewrite Hkey; fold p0; lia.
  - assert (Ha' : asset_key (lp_asset lp') = asset_key (pool_asset p')) by congruence.
    apply (positions_delete s s' p' lp' Hok); try done; try apply Hlw'; rewrite ?Hkey; fold p0; lia || done.
Qed.
Lemma validateWithdraw_ok msg s u s' :
  validateWithdraw msg s = (Ok u, s') →
  s' = s ∧ blank (wl_WithdrawAddress msg) = false ∧ 0 < wl_BasisPoints msg ≤ 10000 ∧
  is_Some (pools s !! asset_key (wl_Asset msg)).
Proof.
  unfold validateWithdraw, MaxWithdrawBasisPoints. intros Hok. do 4 pass_guard Hok.
  run_step Hok e s1 E. apply gets_ok in E as [-> ->]. apply fail_when_ok in Hok as [Hex ->].
  apply orb_false_iff in Hg2 as [Hb1 Hb2].
  split; [done|]. split; [done|]. split; [lia|].
  destruct (pools s !! asset_key (wl_Asset msg)) eqn:Hp; [by eexists|].
  unfold asset_key in Hp. by rewrite Hp in Hex.
Qed.

(** What a withdrawal does to pool and position, and that it touches no others:
    the depths fall by what is paid, the units by what is burnt, and the pending
    amounts by what is given back of them. *)
Record withdrew (s s' : State) (msg : MsgWithdrawLiquidity) (sw a units pendS pendA : Z) : Prop := {
  wd_books : positions_ok s';
  wd_bank : bank s' = bank s;
  wd_switch : BalanceSwitch (pool_of s' (wl_Asset msg)) = BalanceSwitch (pool_of s (wl_Asset msg)) - sw;
  wd_asset : BalanceAsset (pool_of s' (wl_Asset msg)) = BalanceAsset (pool_of s (wl_Asset msg)) - a;
  wd_units : LPUnits (pool_of s' (wl_Asset msg)) = LPUnits (pool_of s (wl_Asset msg)) - units;
  wd_pendS : PendingInboundSwitch (pool_of s' (wl_Asset msg)) = PendingInboundSwitch (pool_of s (wl_Asset msg)) - pendS;
  wd_pendA : PendingInboundAsset (pool_of s' (wl_Asset msg)) = PendingInboundAsset (pool_of s (wl_Asset msg)) - pendA;
  wd_position : Units (position s' (wl_Asset msg) (wl_WithdrawAddress msg)) =
                Units (position s (wl_Asset msg) (wl_WithdrawAddress msg)) - units;
  wd_positionS : PendingSwitch (position s' (wl_Asset msg) (wl_WithdrawAddress msg)) =
                 PendingSwitch (position s (wl_Asset msg) (wl_WithdrawAddress msg)) - pendS;
  wd_positionA : PendingAsset (position s' (wl_Asset msg) (wl_WithdrawAddress msg)) =
                 PendingAsset (position s (wl_Asset msg) (wl_WithdrawAddress msg)) - pendA;
  wd_pools : ∀ k, k ≠ asset_key (wl_Asset msg) → pools s' !! k = pools s !! k;
  wd_lps : ∀ k, k ≠ lp_key (NewLP (wl_Asset msg) (wl_WithdrawAddress msg)) → lps s' !! k = lps s !! k;
}.

Section Steps.
  Variables (s : State) (msg : MsgWithdrawLiquidity) (v : Z).
Let p := pool_of s (wl_Asset msg).
Let p1 := set_SynthUnits v p.
Let lp := position s (wl_Asset msg) (wl_WithdrawAddress msg).
  Hypothesis Hsane : withdraw_sane s msg.
  Hypothesis Hb : blank (wl_WithdrawAddress msg) = false.
  Hypothesis Hex : is_Some (pools s !! asset_key (wl_Asset msg)).
  Hypothesis Hv : 0 ≤ v ≤ LPUnits p.

Lemma own_position :
  lp_wf lp ∧ asset_key (lp_asset lp) = asset_key (wl_Asset msg) ∧
  lp_key lp = lp_key (NewLP (wl_Asset msg) (wl_WithdrawAddress msg)) ∧
  (∀ f, f (NewLP (wl_Asset msg) (wl_WithdrawAddress msg)) = 0 → stored f (lp_key lp) s = f lp).
Proof.
  destruct (position_ok s (wl_Asset msg) (wl_WithdrawAddress msg)) as (Hw & Ha & Hl & Hs);
    [exact (ws_books _ _ Hsane)|done|apply Hsane|].
  assert (Hk : lp_key lp = lp_key (NewLP (wl_Asset msg) (wl_WithdrawAddress msg))).
  { rewrite !lp_key_split. rewrite NewLP_address by done. unfold lp. rewrite Ha, Hl.
    by destruct (NewLP_fields (wl_Asset msg) (wl_WithdrawAddress msg)) as (-> & _). }
  split; [done|]. split; [done|]. split; [done|]. intros f Hf. rewrite Hk. by apply Hs.
Qed.

Lemma own_units : 0 ≤ Units lp ≤ LPUnits p ∧ 0 ≤ PendingSwitch lp ≤ PendingInboundSwitch p ∧
  0 ≤ PendingAsset lp ≤ PendingInboundAsset p.
Proof.
  destruct own_position as (Hw & Ha & Hk & Hs).
  destruct (NewLP_fields (wl_Asset msg) (wl_WithdrawAddress msg)) as (_ & Hu & Hps & Hpa).
  destruct (pool_of_ok s (wl_Asset msg) (ws_books _ _ Hsane) Hex) as (_ & _ & Hpw). fold p in Hpw.
  assert (Hle : ∀ f g, sums f g s → (∀ l, lp_wf l → 0 ≤ g l) → 0 ≤ f p →
    g (NewLP (wl_Asset msg) (wl_WithdrawAddress msg)) = 0 → 0 ≤ g lp ≤ f p).
  { intros f g Hsum Hg Hf Hz. split; [by apply Hg|]. rewrite <- (Hs g Hz).
    apply (stored_pool_le f g); try done; [exact (ws_books _ _ Hsane)|]. intros l Hl.
    destruct (po_lp s (ws_books _ _ Hsane) _ _ Hl) as [Hkl Hwl].
    destruct (lp_key_inj lp l) as [Hk1 _]; [apply Hw|apply Hwl|done|]. congruence. }
  destruct (ws_books _ _ Hsane) as [_ _ Hs1 Hs2 Hs3]. destruct Hpw.
  split; [|split]; [apply (Hle LPUnits Units)|apply (Hle PendingInboundSwitch PendingSwitch)
    |apply (Hle PendingInboundAsset PendingAsset)]; try done; by intros l [].
Qed.

Lemma position_stored s' f :
  f (NewLP (wl_Asset msg) (wl_WithdrawAddress msg)) = 0 →
  f (position s' (wl_Asset msg) (wl_WithdrawAddress msg)) = stored f (lp_key lp) s'.
Proof.
  destruct own_position as (_ & _ & Hk & _). unfold position, stored. rewrite Hk. intros Hf.
  by destruct (lps s' !! _).
Qed.

(** The store and the result of the step that writes pool and position. *)
Lemma withdraw_written s1 s' p' lp' u sw a :
  pools s1 = <[asset_key (pool_asset p') := p']> (pools s) → lps s1 = lps s → bank s1 = bank s →
  save_position lp' s1 = (Ok u, s') → same_position lp lp' → 0 ≤ Units lp' →
  pool_asset p' = pool_asset p → pool_wf p' →
  LPUnits p' = LPUnits p - Units lp + Units lp' → BalanceSwitch p' = BalanceSwitch p - sw →
  BalanceAsset p' = BalanceAsset p - a → PendingInboundSwitch p' = PendingInboundSwitch p →
  PendingInboundAsset p' = PendingInboundAsset p →
  withdrew s s' msg sw a (Units lp - Units lp') 0 0.
Proof.
  intros Hp Hl Hbk Hsave Hsame Hu Hpa Hpw HU HbS HbA HS HA.
  destruct own_position as (Hw & Ha & Hk & Hst).
  destruct (NewLP_fields (wl_Asset msg) (wl_WithdrawAddress msg)) as (_ & Hnu & Hnps & Hnpa).
  destruct (pool_of_ok s (wl_Asset msg) (ws_books _ _ Hsane) Hex) as (Hpk & Hpe & _). fold p in Hpk, Hpe.
  assert (Hpk' : asset_key (pool_asset p') = asset_key (wl_Asset msg)) by (by rewrite Hpa).
  assert (Hpo : pool_of s (pool_asset p') = p) by (unfold p, pool_of; by rewrite Hpk').
  assert (Hlw' : lp_wf lp').
  { destruct Hsame as (_ & Hg & H1p & H2p). destruct Hw. constructor; [done|by rewrite H1p|by rewrite H2p|by rewrite Hg]. }
  assert (Hkl : lp_key lp' = lp_key lp).
  { destruct Hsame as (Hg1 & Hg2 & _). by rewrite !lp_key_split, Hg1, Hg2. }
  pose proof (save_position_ok lp' s1 u s' Hlw' Hsave) as (Hp' & Hbk' & Hl').
  assert (Hpool : pool_of s' (wl_Asset msg) = p').
  { unfold pool_of. rewrite Hp', Hp, <- Hpk', lookup_insert_eq. done. }
  assert (Hafter : ∀ f, f (NewLP (wl_Asset msg) (wl_WithdrawAddress msg)) = 0 →
    (Units lp' = 0 → PendingSwitch lp' = 0 → PendingAsset lp' = 0 → f lp' = 0) →
    f (position s' (wl_Asset msg) (wl_WithdrawAddress msg)) = f lp').
  { intros f Hf Hfz. rewrite (position_stored _ f) by done. fold lp. unfold stored.
    destruct Hl' as [->|(-> & Hz1 & Hz2 & Hz3)]; rewrite Hkl; [by rewrite lookup_insert_eq|].
    rewrite lookup_delete_eq. symmetry. by apply Hfz. }
  destruct Hsame as (Hsame1 & Hsame2 & HpS & HpA).
  constructor; rewrite ?Hpool; fold p; try lia; [|congruence|rewrite Hafter by done; fold lp; lia..| |].
  - eapply (withdraw_store s s1 s' p' lp lp' u); try done; [exact (ws_books _ _ Hsane)|congruence|by rewrite Hpa|..];
      rewrite ?Hpo; try done; by apply Hst.
  - intros k Hne. rewrite Hp', Hp, lookup_insert_ne; [done|]. congruence.
  - intros k Hne. rewrite <- Hk, <- Hkl in Hne. rewrite <- Hl. destruct Hl' as [->|(-> & _)].
    + by rewrite lookup_insert_ne.
    + by rewrite lookup_delete_ne.
Qed.
End Steps.

Lemma pool_shrunk_wf p1 lp wS wA after :
  pool_wf p1 → 0 ≤ after ≤ Units lp → Units lp ≤ LPUnits p1 → 0 ≤ wS ≤ BalanceSwitch p1 →
  0 ≤ wA ≤ BalanceAsset p1 → ∀ st,
  pool_wf (set_Status st (set_BalanceAsset (BalanceAsset p1 - wA) (set_BalanceSwitch (BalanceSwitch p1 - wS)
         (set_LPUnits (LPUnits p1 - (Units lp - after)) p1)))).
Proof. intros [] **. constructor; cbn; lia. Qed.

(** What is paid, of a pool whose synth units are counted: what the position is
    worth at the depths, with the asset rounded to the decimals of the pool, of
    which the gas of an outbound is kept back from the last provider. *)
Definition paid_out (ctx : Ctx) (msg : MsgWithdrawLiquidity) (s : State) (p : Pool) (sw a units gas : Z) : Prop :=
  let lp := position s (wl_Asset msg) (wl_WithdrawAddress msg) in
  ∃ pause wA, fst (GetMimir ("PauseAsymWithdrawal-" +:+ Chains.Str (Assets.GetChain (pool_asset p))) s) = Ok pause ∧
    worth ctx msg p (Units lp) (assetToWithdraw msg lp pause) s sw wA (Units lp - units) ∧
    RoundToDecimal wA (Decimals p) = Ok (a + gas) ∧
    (gas ≠ 0 → units = LPUnits p + SynthUnits p).

Lemma withdraw_units_ok ctx s msg v sw a units gas s' :
  withdraw_sane s msg → gas_reads → blank (wl_WithdrawAddress msg) = false →
  is_Some (pools s !! asset_key (wl_Asset msg)) → 0 < wl_BasisPoints msg ≤ 10000 →
  let p := pool_of s (wl_Asset msg) in
  let lp := position s (wl_Asset msg) (wl_WithdrawAddress msg) in
  0 ≤ v ≤ LPUnits p → Units lp ≠ 0 →
  withdraw_units ctx msg (set_SynthUnits v p) lp s = (Ok (sw, a, units, gas), s') →
  withdrew s s' msg sw a units 0 0 ∧ 0 < units ≤ Units lp ∧
  0 ≤ sw ≤ BalanceSwitch p ∧ 0 ≤ a ∧ 0 ≤ gas ∧ a + gas ≤ BalanceAsset p ∧
  paid_out ctx msg s (set_SynthUnits v p) sw a units gas.
Proof.
  intros Hsane Hgas Hb Hex Hbps p lp Hv Hnz Hok. unfold withdraw_units in Hok.
  destruct (own_units s msg Hsane Hb Hex) as (HL & _). fold p lp in HL.
  destruct (pool_of_ok s (wl_Asset msg) (ws_books _ _ Hsane) Hex) as (Hpk & _ & Hpw). fold p in Hpk, Hpw.
  assert (Hpw1 : pool_wf (set_SynthUnits v p)) by (destruct Hpw; constructor; cbn; lia).
  pose proof (ws_switch _ _ Hsane) as HS. pose proof (ws_asset _ _ Hsane) as HA.
  pose proof (ws_units _ _ Hsane) as HU. fold p in HS, HA, HU.
  run_step Hok lk s1 E. apply GetConfigInt64_ok in E as ->. pass_guard Hok.
  run_step Hok pz s1 E. apply gets_ok in E as [-> ->].
  run_step Hok lp1 s1 E. apply lift_ok in E as [E ->]. apply first_deposit_values_ok in E as [Hs1 HU1].
  run_step Hok r s1 E. destruct r as [[wS wA] after].
  apply withdraw_amounts_ok in E as (-> & Haf & HwS & HwA & Hworth); [|cbn; destruct Hpw; lia..].
  run_step Hok wR s1 Er. apply lift_ok in Er as [Er ->]. pose proof Er as Hround. apply RoundToDecimal_le in Er; [|lia].
  run_step Hok r s1 E. destruct r as [wG gasA].
  apply withdraw_gas_ok in E as (-> & Hg1 & Hg2 & Hg3 & Hg4); [|done|cbn; lia..].
  run_step Hok p' s1 E. apply lift_ok in E as [E ->].
  apply shrink_pool_ok in E as ->; [|done|cbn; lia|done|cbn in *; lia].
  run_step Hok lp' s1 E. apply lift_ok in E as [E ->]. apply shrink_position_ok in E as [Hs2 HU2].
  pass_guard Hok. run_step Hok p2 s1 E.
  apply stage_if_empty_ok in E as ((st & ->) & Hp1 & Hl1 & Hb1).
  run_step Hok u s2 E. destruct u. apply SetPool_ok in E as [_ ->].
  run_step Hok u s2 E. run_step Hok un s3 Eu. apply lift_ok in Eu as [Eu ->].
  apply SafeSub_inv in Eu as ->; [|lia..]. apply ret_ok in Hok as [[= -> -> -> ->] ->].
  rewrite Z.max_r by lia. rewrite HU1, <- HU2 in *. cbn in HwS, HwA.
  split; [|split; [lia|]; split; [lia|]; split; [lia|]; split; [lia|]; split; [lia|]].
  2: { eexists _, wA. split; [reflexivity|]. fold lp. split; [by replace (Units lp - (Units lp - Units lp')) with (Units lp') by lia|].
       cbn in Hround, Hg4 |- *. split; [by rewrite Hg3|]. intros ?%Hg4. lia. }
  pose (q := set_Status st (set_BalanceAsset (BalanceAsset p - wG) (set_BalanceSwitch (BalanceSwitch p - wS)
         (set_LPUnits (LPUnits p - (Units lp - Units lp')) (set_SynthUnits v p))))).
  eapply (withdraw_written s msg Hsane Hb Hex _ s2 q lp'); [| | |exact E|..];
    [|exact Hl1|exact Hb1| | |reflexivity| | |reflexivity..].
  - cbn. by rewrite Hp1.
  - by apply (same_position_trans lp lp1).
  - lia.
  - apply (pool_shrunk_wf (set_SynthUnits v p) lp wS wG (Units lp')); cbn; lia || done.
  - unfold q. cbn. fold p lp. lia.
Qed.

(** Giving back the pending amounts of a position removes it. *)
Lemma withdraw_pending_ok s msg v sw a units gas s' :
  withdraw_sane s msg → blank (wl_WithdrawAddress msg) = false →
  is_Some (pools s !! asset_key (wl_Asset msg)) →
  let p := pool_of s (wl_Asset msg) in
  let lp := position s (wl_Asset msg) (wl_WithdrawAddress msg) in
  0 ≤ v ≤ LPUnits p → Units lp = 0 →
  withdraw_pending (set_SynthUnits v p) lp s = (Ok (sw, a, units, gas), s') →
  withdrew s s' msg 0 0 0 (PendingSwitch lp) (PendingAsset lp) ∧ units = 0 ∧ gas = 0 ∧
  sw = PendingSwitch lp ∧ RoundToDecimal (PendingAsset lp) (Decimals p) = Ok a ∧
  (PendingSwitch lp ≠ 0 ∨ PendingAsset lp ≠ 0) ∧ lps s' = delete (lp_key lp) (lps s).
Proof.
  intros Hsane Hb Hex p lp Hv Hz Hok. unfold withdraw_pending in Hok. run_case Hok; [|done].
  assert (Hsome : PendingSwitch lp ≠ 0 ∨ PendingAsset lp ≠ 0).
  { match goal with Hc : negb _ || negb _ = true |- _ =>
      rewrite orb_true_iff, !negb_true_iff, !Z.eqb_neq in Hc; exact Hc end. }
  destruct (own_units s msg Hsane Hb Hex) as (_ & HpS & HpA). fold p lp in HpS, HpA.
  destruct (own_position s msg Hsane Hb) as (Hw & Ha & Hk & Hst). fold lp in Hw, Ha, Hk, Hst.
  destruct (NewLP_fields (wl_Asset msg) (wl_WithdrawAddress msg)) as (_ & Hnu & Hnps & Hnpa).
  destruct (pool_of_ok s (wl_Asset msg) (ws_books _ _ Hsane) Hex) as (Hpk & Hpe & Hpw). fold p in Hpk, Hpe, Hpw.
  run_step Hok u s1 E. apply modify_ok in E as ->.
  run_step Hok ps s1 E. apply lift_ok in E as [E ->]. apply SafeSub_inv in E as ->; [|cbn; lia..].
  run_step Hok pa s1 E. apply lift_ok in E as [E ->]. apply SafeSub_inv in E as ->; [|cbn; lia..].
  run_step Hok r s1 E. apply attempt_ok in E. cbn in E. unfold SetPool in E. cbn in E. rewrite Hpe in E.
  destruct r as [[]|]; [|done]. apply modify_ok in E as ->.
  run_step Hok rd s2 E. apply lift_ok in E as [Hround ->].
  apply ret_ok in Hok as [[= -> -> -> ->] ->]. rewrite !Z.max_r by (cbn; lia).
  set (q := set_PendingInboundAsset _ _). set (s2 := put_pools _ _).
  assert (Hpool : pool_of s2 (wl_Asset msg) = q).
  { unfold pool_of, s2. cbn. fold (asset_key (pool_asset p)). by rewrite Hpk, lookup_insert_eq. }
  assert (Hpo : pool_of s (pool_asset q) = p) by (unfold p, pool_of; cbn; fold p; by rewrite Hpk).
  assert (Hgone : ∀ f, f (NewLP (wl_Asset msg) (wl_WithdrawAddress msg)) = 0 →
    f (position s2 (wl_Asset msg) (wl_WithdrawAddress msg)) = 0).
  { intros f Hf. rewrite (position_stored s msg Hsane Hb s2 f Hf). fold lp. unfold stored, s2. cbn.
    fold (lp_key lp). by rewrite lookup_delete_eq. }
  split; [|by split_and!].
  constructor; rewrite ?Hpool; fold p lp; try reflexivity; try (cbn; lia).
  - apply (positions_delete s s2 q lp); try done; [exact (ws_books _ _ Hsane)|by rewrite Ha, <- Hpk|apply Hw
      |destruct Hpw; constructor; cbn; lia|..]; 
      rewrite Hpo, ?(Hst Units Hnu), ?(Hst PendingSwitch Hnps), ?(Hst PendingAsset Hnpa); cbn; lia.
  - rewrite Hgone by done. lia.
  - rewrite Hgone by done. lia.
  - rewrite Hgone by done. lia.
  - intros k Hne. unfold s2. cbn. fold (asset_key (pool_asset p)). rewrite Hpk. by rewrite lookup_insert_ne.
  - intros k Hne. unfold s2. cbn. fold (lp_key lp). rewrite Hk. by rewrite lookup_delete_ne.
Qed.

(** C4: A withdrawal from a pool, or from a vault of savers, pays what the units it
    burns are worth at the depths, in the pool's decimals, and takes exactly
    that from the depths; only the last provider leaves the gas of an outbound
    behind.  The position has the units, and the units of every pool stay the
    sum of its positions.  Without units exactly the pending amounts are given
    back, once: the position is removed, and the pool's pending amounts fall by
    them.  No other pool or position is touched, and no coin of the bank moves
    yet. *)
Theorem withdraw_pays_what_the_pool_loses ctx msg s sw a units gas s' :
  withdraw_sane s msg → gas_reads →
  withdraw ctx msg s = (Ok (sw, a, units, gas), s') →
  let p := pool_of s (wl_Asset msg) in
  let lp := position s (wl_Asset msg) (wl_WithdrawAddress msg) in
  if Units lp =? 0 then
    withdrew s s' msg 0 0 0 (PendingSwitch lp) (PendingAsset lp) ∧ units = 0 ∧ gas = 0 ∧
    sw = PendingSwitch lp ∧ RoundToDecimal (PendingAsset lp) (Decimals p) = Ok a ∧
    (PendingSwitch lp ≠ 0 ∨ PendingAsset lp ≠ 0) ∧ lps s' = delete (lp_key lp) (lps s)
  else
    withdrew s s' msg sw a units 0 0 ∧ 0 < units ≤ Units lp ∧
    0 ≤ sw ≤ BalanceSwitch p ∧ 0 ≤ a ∧ 0 ≤ gas ∧ a + gas ≤ BalanceAsset p ∧
    ∃ supply p1 total,
      fst (GetTotalSupply (Assets.GetSyntheticAsset (pool_asset p)) s) = Ok supply ∧
      CalcUnits p supply = Ok (p1, total) ∧ paid_out ctx msg s p1 sw a units gas.
Proof.
  intros Hsane Hgas Hok p lp. unfold withdraw in Hok. run_case Hok; [|done].
  run_step Hok u s1 E. apply validateWithdraw_ok in E as (-> & Hb & Hbps & Hex).
  run_step Hok q s1 E. rewrite GetPool_run in E. injection E as <- <-. fold p in Hok.
  run_step Hok sup s1 E. pose proof (GetTotalSupply_le _ _ _ _ E) as Hsup. pose proof (f_equal fst E) as Hfst.
  apply GetTotalSupply_ok in E as (-> & Hsup0 & _).
  run_step Hok r s1 E. apply lift_ok in E as [E ->]. destruct r as [p1 tot]. pose proof E as Hcalc.
  destruct (pool_of_ok s (wl_Asset msg) (ws_books _ _ Hsane) Hex) as (_ & _ & Hpw). fold p in Hpw.
  pose proof (ws_synths _ _ Hsane) as Hsy. fold p in Hsy. pose proof (wf_asset _ Hpw).
  apply CalcUnits_double in E as (v & -> & Hv & _); [|done|lia|by intros ?%Hsy; lia].
  run_step Hok l s1 E. apply gets_ok in E as [-> ->].
  change (default _ (lps s !! _)) with lp in Hok. destruct (Z.eqb_spec (Units lp) 0) as [Hz|Hz].
  - by apply (withdraw_pending_ok s msg v) in Hok.
  - apply (withdraw_units_ok ctx s msg v sw a units gas s') in Hok as (? & ? & ? & ? & ? & ? & ?); try done.
    split_and!; try tauto. by exists sup, (set_SynthUnits v p), tot.
Qed.
End Withdraw.

(** ** Witnesses *)

#[local] Existing Instance idle_managers.
(** One unit of gas for each outbound of the chain. *)
Definition unit_gas : GasManager :=
  {| GetMaxGas _ c := mret (NewCoin (GetGasAsset c) 1); GetGasRate _ _ := mret 1 |}.
#[local] Existing Instance unit_gas.
Definition idle_withdraw_swaps : WithdrawSwaps := {| withdraw_swap _ _ _ _ := mret () |}.
#[local] Existing Instance idle_withdraw_swaps.

Lemma unit_gas_reads : gas_reads.
Proof. intros ctx c s r s' [= <- <-]. done. Qed.

Lemma calculateWithdraw_is_fair_witness :
  withdraw_range 3000 1000000 200000 2000 5000 ∧
  (1000000 * 2000 - 3000) * (200000 * 2000 - 3000) ≤ 1000000 * (200000 - 96296) * 3000 ^ 2.
Proof.
  assert (Hr : withdraw_range 3000 1000000 200000 2000 5000) by (constructor; lia).
  assert (fst (calculateWithdraw (mkCtx 8 3 "") BTCAsset 3000 1000000 200000 2000 5000 BTCAsset "bc1"
    empty_state) = Ok (0, 96296, 1000)) as Hrun by (vm_compute; reflexivity).
  apply run_pair in Hrun. split; [exact Hr|].
  apply (calculateWithdraw_is_fair _ _ _ _ _ _ _ _ _ _ _ _ _ _ Hr) in Hrun as (_ & _ & _ & _ & _ & _ & Hp).
  specialize (Hp ltac:(lia) ltac:(lia) ltac:(lia)). lia.
Defined.

(** A pool with two providers, of whom one withdraws half of the position. *)
Definition bob : LiquidityProvider := mkLP BTCAsset "bob" "" 3 0 2000 0 0 "" 0 0.
Definition bob_pool : Pool := mkPool 1000000 200000 BTCAsset 2000 Available 0 8 0 0 0.
Definition bob_state : State :=
  put_pools {[asset_key BTCAsset := bob_pool]} (put_lps {[lp_key bob := bob]} empty_state).
Definition bob_msg : MsgWithdrawLiquidity :=
  mkMsgWithdrawLiquidity
    (mkTx "962969629696296962969629696296962969629696296962961111" SWITCHLYChain "bob" "vault" [] [] "")
    "bob" 5000 BTCAsset EmptyAsset "signer".

Lemma bob_sane : withdraw_sane bob_state bob_msg.
Proof.
  constructor; [|reflexivity|vm_compute; discriminate..|intros _; vm_compute; discriminate].
  apply (positions_one bob_state bob_pool bob); try reflexivity; constructor; cbn; try lia. reflexivity.
Qed.

(** A provider who only has pending amounts, of whose asset the pool's decimals
    keep the tens. *)
Definition carl : LiquidityProvider := mkLP BTCAsset "carl" "" 3 0 0 500 77 "" 0 0.
Definition carl_pool : Pool := mkPool 0 0 BTCAsset 0 Available 0 7 0 500 77.
Definition carl_state : State :=
  put_pools {[asset_key BTCAsset := carl_pool]} (put_lps {[lp_key carl := carl]} empty_state).
Definition carl_msg : MsgWithdrawLiquidity :=
  mkMsgWithdrawLiquidity
    (mkTx "962969629696296962969629696296962969629696296962961111" SWITCHLYChain "carl" "vault" [] [] "")
    "carl" 10000 BTCAsset EmptyAsset "signer".
Lemma carl_sane : withdraw_sane carl_state carl_msg.
Proof.
  constructor; [|reflexivity|vm_compute; discriminate..|intros _; vm_compute; discriminate].
  apply (positions_one carl_state carl_pool carl); try reflexivity; constructor; cbn; try lia. reflexivity.
Qed.

Lemma withdraw_pays_what_the_pool_loses_witness :
  let s' := snd (withdraw (mkCtx 8 3 "") bob_msg bob_state) in
  let c' := snd (withdraw (mkCtx 8 3 "") carl_msg carl_state) in
  (LPUnits (pool_of s' BTCAsset) = 1000 ∧ BalanceSwitch (pool_of s' BTCAsset) = 375000 ∧ positions_ok s') ∧
  lps c' = delete (lp_key carl) (lps carl_state) ∧ RoundToDecimal 77 7 = Ok 70.
Proof.
  assert (fst (withdraw (mkCtx 8 3 "") bob_msg bob_state) = Ok (625000, 0, 1000, 0)) as Hrun
    by (vm_compute; reflexivity).
  assert (fst (withdraw (mkCtx 8 3 "") carl_msg carl_state) = Ok (500, 70, 0, 0)) as Hcarl
    by (vm_compute; reflexivity).
  apply run_pair in Hrun. apply run_pair in Hcarl. split.
  - apply withdraw_pays_what_the_pool_loses in Hrun; [|exact bob_sane|exact unit_gas_reads].
    change (Units _ =? 0) with false in Hrun. cbv iota in Hrun. destruct Hrun as (Hw & _).
    split; [|split; [|exact (wd_books _ _ _ _ _ _ _ _ Hw)]].
    + etrans; [exact (wd_units _ _ _ _ _ _ _ _ Hw)|]. vm_compute. reflexivity.
    + etrans; [exact (wd_switch _ _ _ _ _ _ _ _ Hw)|]. vm_compute. reflexivity.
  - apply withdraw_pays_what_the_pool_loses in Hcarl; [|exact carl_sane|exact unit_gas_reads].
    change (Units _ =? 0) with true in Hcarl. cbv iota in Hcarl. destruct Hcarl as (_ & _ & _ & _ & Ha & _ & Hgone).
    split; [exact Hgone|exact Ha].
Defined.
