(* ===== verification/Nodes.v ===== *)
(** * Node accounts and bond providers

    src/x/switchly/types/type_node_account.go: the record of a validator, its
    status and signer membership, and the bond providers that share its bond.
    An account address is its canonical bech32 text; decoding it, and public
    keys, belongs to [Env] and [PubKeys]. *)

From S2P Require Import Prelude CosmosMath Amounts GoStrings Assets Coins State.
Open Scope Z_scope.

(** [cosmos.GetPubKeyFromBech32] and the address of a public key, an account
    whose text decodes to itself. *)
Class PubKeys `{Env} := {
  pubkey_decodes : string → bool;
  GetThorAddress : string → outcome string;
  thor_address_canonical : ∀ pk addr, GetThorAddress pk = Ok addr → AccAddressFromBech32 addr = Ok addr;
}.

Section Nodes.
  Context `{CosmosMath} `{Env} `{!PubKeys}.

(** ** Public keys *)

Definition EmptyPubKey : string := "".

Definition NewPubKey (key : string) : outcome string :=
  if (String.length key =? 0)%nat then Ok EmptyPubKey
  else if pubkey_decodes key then Ok key
  else Err "is not bech32 encoded pub key".

(** The elements of a list that a parser accepts. *)
Definition parsed (parse : string → outcome string) (l : list string) : list string :=
  omap (λ x, match parse x with Ok y => Some y | _ => None end) l.

Record PubKeySet := mkPubKeySet { Secp256k1 : string; Ed25519 : string }.

(** ** Node accounts *)

Inductive NodeStatus :=
  | NodeUnknown | NodeWhitelisted | NodeStandby | NodeReady | NodeActive | NodeDisabled.
#[export] Instance NodeStatus_eq_dec : EqDecision NodeStatus.
Proof. solve_decision. Defined.

Inductive NodeType := TypeValidator | TypeVault | TypeUnknown.
#[export] Instance NodeType_eq_dec : EqDecision NodeType.
Proof. solve_decision. Defined.

Record NodeAccount := mkNodeAccount {
  NodeAddress : string;
  na_Status : NodeStatus;
  na_PubKeySet : PubKeySet;
  ValidatorConsPubKey : string;
  na_Bond : Z;
  ActiveBlockHeight : Z;
  BondAddress : string;
  StatusSince : Z;
  SignerMembership : list string;
  RequestedToLeave : bool;
  ForcedToLeave : bool;
  LeaveScore : Z;
  na_Type : NodeType;
  MissingBlocks : Z;
  IPAddress : string;
  na_Version : string;
  Maintenance : bool;
}.

Definition set_status (st : NodeStatus) (since active : Z) (m : NodeAccount) : NodeAccount :=
  mkNodeAccount (NodeAddress m) st (na_PubKeySet m) (ValidatorConsPubKey m) (na_Bond m) active (BondAddress m) since (SignerMembership m) (RequestedToLeave m) (ForcedToLeave m) (LeaveScore m) (na_Type m) (MissingBlocks m) (IPAddress m) (na_Version m) (Maintenance m).
Definition set_SignerMembership (l : list string) (m : NodeAccount) : NodeAccount :=
  mkNodeAccount (NodeAddress m) (na_Status m) (na_PubKeySet m) (ValidatorConsPubKey m) (na_Bond m) (ActiveBlockHeight m) (BondAddress m) (StatusSince m) l (RequestedToLeave m) (ForcedToLeave m) (LeaveScore m) (na_Type m) (MissingBlocks m) (IPAddress m) (na_Version m) (Maintenance m).
Definition set_na_Bond (b : Z) (m : NodeAccount) : NodeAccount :=
  mkNodeAccount (NodeAddress m) (na_Status m) (na_PubKeySet m) (ValidatorConsPubKey m) b (ActiveBlockHeight m) (BondAddress m) (StatusSince m) (SignerMembership m) (RequestedToLeave m) (ForcedToLeave m) (LeaveScore m) (na_Type m) (MissingBlocks m) (IPAddress m) (na_Version m) (Maintenance m).
Definition set_MissingBlocks (n : Z) (m : NodeAccount) : NodeAccount :=
  mkNodeAccount (NodeAddress m) (na_Status m) (na_PubKeySet m) (ValidatorConsPubKey m) (na_Bond m) (ActiveBlockHeight m) (BondAddress m) (StatusSince m) (SignerMembership m) (RequestedToLeave m) (ForcedToLeave m) (LeaveScore m) (na_Type m) n (IPAddress m) (na_Version m) (Maintenance m).

Definition UpdateStatus (m : NodeAccount) (status : NodeStatus) (height : Z) : NodeAccount :=
  if bool_decide (na_Status m = status) then m
  else set_status status height
         (if bool_decide (status = NodeActive) then ActiveBlockHeight m else 0) m.

Definition NewNodeAccount (addr : string) (status : NodeStatus) (keys : PubKeySet) (cons : string)
    (bond : Z) (bondAddress : string) (height : Z) : NodeAccount :=
  UpdateStatus (mkNodeAccount addr NodeUnknown keys cons bond 0 bondAddress 0 [] false false 0 TypeValidator
                  0 "" "" false)
    status height.

Definition NodeAccount_IsEmpty (m : NodeAccount) : bool :=
  bool_decide (NodeAddress m = "") || bool_decide (na_Status m = NodeUnknown).

Definition NodeAccount_Valid (m : NodeAccount) : option error :=
  if bool_decide (NodeAddress m = "") then Some "node switchly address is empty"
  else if blank (BondAddress m) then Some "bond address is empty"
  else if bool_decide (na_Status m = NodeUnknown) then Some "node status cannot be unknown"
  else None.

Definition GetSignerMembership (m : NodeAccount) : list string :=
  parsed NewPubKey (SignerMembership m).

Definition TryAddSignerPubKey (key : string) (m : NodeAccount) : NodeAccount :=
  if (String.length key =? 0)%nat then m
  else if existsb (λ item, bool_decide (item = key)) (GetSignerMembership m) then m
  else set_SignerMembership (SignerMembership m ++ [key]) m.

(** The index of the last element that satisfies [f], counting from [i]. *)
Fixpoint last_index (f : string → bool) (i : nat) (l : list string) : option nat :=
  match l with
  | [] => None
  | x :: r => match last_index f (S i) r with
              | Some j => Some j
              | None => if f x then Some i else None
              end
  end.

(** The index is one of the parsed list, and is used on the stored one. *)
Definition TryRemoveSignerPubKey (key : string) (m : NodeAccount) : NodeAccount :=
  if (String.length key =? 0)%nat then m
  else match last_index (λ item, bool_decide (item = key)) 0 (GetSignerMembership m) with
  | Some i => set_SignerMembership (take i (SignerMembership m) ++ drop (S i) (SignerMembership m)) m
  | None => m
  end.

(** [float64] keeps 53 bits, rounding to nearest even. *)
Definition float64 (z : Z) : Z :=
  if z <? 2 ^ 53 then z
  else
    let e := 2 ^ (Z.log2 z - 52) in
    let q := z / e in
    let r := z mod e in
    if (2 * r <? e) || ((2 * r =? e) && Z.even q) then q * e else (q + 1) * e.

(** [int64] of a float out of range is the least integer on amd64. *)
Definition int64_of_float (z : Z) : Z := if z <? 2 ^ 63 then z else - 2 ^ 63.

Definition CalcBondUnits (m : NodeAccount) (height slashpoints : Z) : Z :=
  let slashpoints := int64_of_float (float64 (Z.max 0 slashpoints)) in
  if (height <? 0) || (ActiveBlockHeight m <? 0) || (slashpoints <? 0) then 0
  else
    let blockCount := to_i64 (height - to_i64 (ActiveBlockHeight m + slashpoints)) in
    if blockCount <? 0 then 0 else to_u64 blockCount.

(** ** Lists of node accounts *)

Definition IsNodeKeys (nas : list NodeAccount) (addr : string) : bool :=
  existsb (λ na, bool_decide (na_Status na = NodeActive) && bool_decide (addr = NodeAddress na)) nas.

Definition GetNodeAddresses (nas : list NodeAccount) : list string := NodeAddress <$> nas.

(** The order of node accounts: by the height of the status, then by address. *)
Definition NodeAccounts_Less (a b : NodeAccount) : bool :=
  if StatusSince a <? StatusSince b then true
  else if StatusSince b <? StatusSince a then false
  else String.ltb (NodeAddress a) (NodeAddress b).

(** [getNonSigners] of helpers.go *)
Definition getNonSigners (nas : list NodeAccount) (signers : list string) : list string :=
  List.filter (λ a, negb (existsb (λ s, bool_decide (a = s)) signers)) (GetNodeAddresses nas).

(** ** Bond providers *)

Record BondProvider := mkBondProvider { bp_BondAddress : string; bp_Bond : Z }.

Record BondProviders := mkBondProviders {
  bps_NodeAddress : string;
  NodeOperatorFee : Z;
  Providers : list BondProvider;
}.

Definition set_Providers (l : list BondProvider) (bp : BondProviders) : BondProviders :=
  mkBondProviders (bps_NodeAddress bp) (NodeOperatorFee bp) l.
Definition set_bp_Bond (b : Z) (p : BondProvider) : BondProvider := mkBondProvider (bp_BondAddress p) b.

Definition NewBondProviders (acc : string) : BondProviders := mkBondProviders acc 0 [].
Definition NewBondProvider (acc : string) : BondProvider := mkBondProvider acc 0.
Definition BondProvider_IsEmpty (m : BondProvider) : bool := bool_decide (bp_BondAddress m = "").

Definition provider_is (acc : string) (p : BondProvider) : bool := bool_decide (bp_BondAddress p = acc).

(** The zero value has no bond. *)
Definition BP_Get (bp : BondProviders) (acc : string) : BondProvider :=
  default (mkBondProvider "" 0) (List.find (provider_is acc) (Providers bp)).
Definition BP_Has (bp : BondProviders) (acc : string) : bool := negb (BondProvider_IsEmpty (BP_Get bp acc)).

(** The first provider that satisfies [f], after an operation. *)
Fixpoint update_first (f : BondProvider → bool) (g : BondProvider → outcome BondProvider)
    (l : list BondProvider) : outcome (list BondProvider) :=
  match l with
  | [] => Ok []
  | p :: r =>
      if f p then p' ← g p; Ok (p' :: r)
      else r' ← update_first f g r; Ok (p :: r')
  end.

Definition BP_Bond (bp : BondProviders) (bond : Z) (acc : string) : outcome BondProviders :=
  l ← update_first (provider_is acc) (λ p, b ← uadd (bp_Bond p) bond; Ok (set_bp_Bond b p)) (Providers bp);
  Ok (set_Providers l bp).

Definition BP_Unbond (bp : BondProviders) (bond : Z) (acc : string) : outcome BondProviders :=
  l ← update_first (provider_is acc) (λ p, b ← SafeSub (bp_Bond p) bond; Ok (set_bp_Bond b p)) (Providers bp);
  Ok (set_Providers l bp).

(** Without the first provider of that address and without bond. *)
Fixpoint remove_first (acc : string) (l : list BondProvider) : option (list BondProvider) :=
  match l with
  | [] => None
  | p :: r =>
      if provider_is acc p && (bp_Bond p =? 0) then Some r
      else (λ r', p :: r') <$> remove_first acc r
  end.

(** The first provider, the operator, stays. *)
Definition BP_Remove (bp : BondProviders) (acc : string) : BondProviders * bool :=
  match Providers bp with
  | [] => (bp, false)
  | op :: r =>
      match remove_first acc r with
      | Some r' => (set_Providers (op :: r') bp, true)
      | None => (bp, false)
      end
  end.

Fixpoint total_bond (acc : Z) (l : list BondProvider) : outcome Z :=
  match l with
  | [] => Ok acc
  | p :: r => acc ← uadd acc (bp_Bond p); total_bond acc r
  end.

(** The shares of the providers after the first, taken out of the first's bond. *)
Fixpoint share_out (totalBond nodeBond op : Z) (l : list BondProvider)
    : outcome (Z * list BondProvider) :=
  match l with
  | [] => Ok (op, [])
  | p :: r =>
      let bond := GetSafeShare (bp_Bond p) totalBond nodeBond in
      op ← SafeSub op bond;
      '(op, r') ← share_out totalBond nodeBond op r;
      Ok (op, set_bp_Bond bond p :: r')
  end.

Definition BP_Adjust (bp : BondProviders) (nodeBond : Z) : outcome BondProviders :=
  match Providers bp with
  | [] => Ok bp
  | op :: rest =>
      totalBond ← total_bond 0 (Providers bp);
      if totalBond =? nodeBond then Ok bp
      else
        fee ←
          (if totalBond <? nodeBond then
             surplus ← SafeSub nodeBond totalBond;
             Ok (GetSafeShare (NodeOperatorFee bp) 10000 surplus)
           else Ok 0);
        nodeBond ← SafeSub nodeBond fee;
        '(b, rest') ← share_out totalBond nodeBond nodeBond rest;
        b ← uadd b fee;
        Ok (set_Providers (set_bp_Bond b op :: rest') bp)
  end.

Definition HasProviderBonded (bp : BondProviders) (opBondAddress : string) : bool :=
  existsb (λ p, negb (provider_is opBondAddress p) && (0 <? bp_Bond p)) (Providers bp).

Definition bonds (bp : BondProviders) : Z := sumZ (bp_Bond <$> Providers bp).

(** ** Facts *)

(** The sizes of bonds: far beyond the supply, and inside what [Dec] divides. *)
Record bonds_sane (bp : BondProviders) (nodeBond : Z) : Prop := {
  bs_bonds : Forall (λ p, 0 ≤ bp_Bond p) (Providers bp);
  bs_total : bonds bp < 2 ^ 120;
  bs_fee : 0 ≤ NodeOperatorFee bp ≤ 10000;
  bs_node : 0 ≤ nodeBond ≤ 10 ^ 17;
}.

Lemma total_bond_ok l acc :
  0 ≤ acc → Forall (λ p, 0 ≤ bp_Bond p) l → acc + sumZ (bp_Bond <$> l) < 2 ^ 120 →
  total_bond acc l = Ok (acc + sumZ (bp_Bond <$> l)).
Proof.
  intros Ha Hl. revert acc Ha. induction Hl as [|p l Hp Hl IH]; intros acc Ha Hs; [cbn; by rewrite Z.add_0_r|].
  change (sumZ (bp_Bond <$> p :: l)) with (bp_Bond p + sumZ (bp_Bond <$> l)) in *. cbn [total_bond].
  assert (0 ≤ sumZ (bp_Bond <$> l)) by (apply sumZ_nonneg, Forall_fmap; by eapply Forall_impl).
  assert (2 ^ 120 ≤ uint_max) by (vm_compute; discriminate).
  rewrite uadd_ok by lia. cbn. rewrite IH by lia. f_equal. lia.
Qed.

Definition shares_of_others (totalBond nodeBond : Z) (l : list BondProvider) : list Z :=
  (λ p, GetSafeShare (bp_Bond p) totalBond nodeBond) <$> l.

Lemma share_out_ok t a op l :
  0 ≤ op ≤ uint_max → Forall (λ x, 0 ≤ x) (shares_of_others t a l) →
  share_out t a op l =
  Ok (Z.max 0 (op - sumZ (shares_of_others t a l)),
      zip_with set_bp_Bond (shares_of_others t a l) l).
Proof.
  intros Hop Hs. revert op Hop. induction l as [|p l IH]; intros op Hop; cbn in *.
  - do 2 f_equal. lia.
  - inversion Hs as [|? ? Hx Hl]; subst. set (x := GetSafeShare (bp_Bond p) t a) in *.
    assert (0 ≤ sumZ (shares_of_others t a l)) by by apply sumZ_nonneg.
    rewrite SafeSub_ok by lia. cbn. rewrite IH by (done || lia). cbn.
    unfold shares_of_others, sumZ in *. do 2 f_equal. lia.
Qed.

(** Each share is off by less than one from its exact value. *)
Lemma shares_error t a l :
  Forall (λ p, 0 ≤ bp_Bond p ≤ t) l → 0 < t < 2 ^ 120 → 0 ≤ a ≤ 10 ^ 17 →
  t * sumZ (shares_of_others t a l) ≤ a * sumZ (bp_Bond <$> l) + t * Z.of_nat (length l).
Proof.
  intros Hl Ht Ha. induction Hl as [|p l Hp Hl IH]; [cbn; lia|].
  change (sumZ (shares_of_others t a (p :: l))) with
    (GetSafeShare (bp_Bond p) t a + sumZ (shares_of_others t a l)).
  change (sumZ (bp_Bond <$> p :: l)) with (bp_Bond p + sumZ (bp_Bond <$> l)). cbn [length].
  assert (t * GetSafeShare (bp_Bond p) t a ≤ a * bp_Bond p + t); [|lia].
  unfold GetSafeShare. destruct (Z.leb_spec t (bp_Bond p)).
  - rewrite share_full by lia. nia.
  - destruct (decide (bp_Bond p = 0)) as [->|]; [rewrite GetUncappedShare_zero by auto; lia|].
    pose proof (share_error (bp_Bond p) t a). lia.
Qed.

(** What the node keeps for its operator before the shares. *)
Definition adjust_fee (bp : BondProviders) (nodeBond : Z) : Z :=
  if bonds bp <? nodeBond then GetSafeShare (NodeOperatorFee bp) 10000 (nodeBond - bonds bp) else 0.

Lemma adjust_fee_bounds bp nodeBond :
  bonds_sane bp nodeBond → 0 ≤ bonds bp →
  0 ≤ adjust_fee bp nodeBond ∧ Z.min nodeBond (bonds bp) ≤ nodeBond - adjust_fee bp nodeBond.
Proof.
  intros [_ _ Hf Hn] Hb. unfold adjust_fee. destruct (Z.ltb_spec (bonds bp) nodeBond); [|lia].
  pose proof (GetSafeShare_le (NodeOperatorFee bp) 10000 (nodeBond - bonds bp)). lia.
Qed.

Lemma BP_Adjust_result bp nodeBond op rest :
  bonds_sane bp nodeBond → Providers bp = op :: rest → bonds bp ≠ nodeBond →
  let a := nodeBond - adjust_fee bp nodeBond in
  let shares := shares_of_others (bonds bp) a rest in
  0 ≤ a ≤ 10 ^ 17 ∧
  BP_Adjust bp nodeBond =
    Ok (set_Providers (set_bp_Bond (Z.max 0 (a - sumZ shares) + adjust_fee bp nodeBond) op ::
                       zip_with set_bp_Bond shares rest) bp).
Proof.
  intros Hsane Hps Hne a shares. destruct Hsane as [Hb Ht Hf Hn] eqn:Hs.
  assert (H0b : 0 ≤ bonds bp) by (apply sumZ_nonneg, Forall_fmap; by eapply Forall_impl).
  pose proof (adjust_fee_bounds bp nodeBond Hsane H0b) as [Hfee Hmin]. fold a in Hmin.
  assert (Hu : 2 ^ 120 ≤ uint_max) by (vm_compute; discriminate).
  split; [lia|]. unfold BP_Adjust. rewrite Hps, <- Hps, total_bond_ok by (done || lia).
  rewrite Z.add_0_l. fold (bonds bp). cbn. destruct (Z.eqb_spec (bonds bp) nodeBond); [done|].
  assert (Hfee' : (if bonds bp <? nodeBond
      then SafeSub nodeBond (bonds bp) ≫= λ surplus, Ok (GetSafeShare (NodeOperatorFee bp) 10000 surplus)
      else Ok 0) = Ok (adjust_fee bp nodeBond)).
  { unfold adjust_fee. destruct (Z.ltb_spec (bonds bp) nodeBond); [|done]. rewrite SafeSub_ok by lia. cbn.
    do 2 f_equal. lia. }
  rewrite Hfee'. cbn. rewrite SafeSub_ok by lia. cbn. rewrite Z.max_r by lia. fold a.
  assert (Hsh : Forall (λ x, 0 ≤ x) shares).
  { apply Forall_fmap, Forall_forall. intros p Hp. cbn.
    pose proof (GetUncappedShare_range). unfold GetSafeShare. case_match; apply H2. }
  rewrite share_out_ok by (done || lia). cbn. fold shares.
  rewrite uadd_ok by (pose proof (sumZ_nonneg _ Hsh); lia). done.
Qed.

Lemma shared_bonds t a l :
  bp_Bond <$> zip_with set_bp_Bond (shares_of_others t a l) l = shares_of_others t a l ∧
  bp_BondAddress <$> zip_with set_bp_Bond (shares_of_others t a l) l = bp_BondAddress <$> l.
Proof. induction l as [|p l [IH1 IH2]]; [done|]. split; cbn; f_equal; [exact IH1|exact IH2]. Qed.

Lemma bond_le_total op rest :
  Forall (λ p, 0 ≤ bp_Bond p) (op :: rest) →
  Forall (λ p, 0 ≤ bp_Bond p ≤ bp_Bond op + sumZ (bp_Bond <$> rest)) rest.
Proof.
  intros Hb. inversion Hb as [|? ? Hop Hr]; subst. apply Forall_forall. intros p Hp.
  apply list_elem_of_In, elem_of_Permutation in Hp as [k Hk]. rewrite Hk in Hr. inversion Hr as [|? ? Hp Hr']; subst.
  assert (Hsum : sumZ (bp_Bond <$> rest) = bp_Bond p + sumZ (bp_Bond <$> k)).
  { clear -Hk. change (sumZ (bp_Bond <$> rest) = sumZ (bp_Bond <$> p :: k)).
    induction Hk; cbn in *; unfold sumZ in *; congruence || lia. }
  assert (0 ≤ sumZ (bp_Bond <$> k)) by (apply sumZ_nonneg, Forall_fmap; by eapply Forall_impl). lia.
Qed.

Lemma shares_of_nothing a l : sumZ (shares_of_others 0 a l) = 0.
Proof.
  induction l as [|p l IH]; [done|]. unfold shares_of_others, GetSafeShare in *. cbn in *.
  unfold sumZ in IH. rewrite IH. case_match; by rewrite GetUncappedShare_zero by auto.
Qed.

(** Aligning the providers of a node with its bond keeps the providers, in
    order, and shares out all of the bond: exactly, when the operator's own
    part covers the rounding of the others' shares, and else at most a unit per
    other provider too much ("To have an invariant bond sum, subtract the
    non-operator bonds from the total", type_node_account.go). *)
Theorem BP_Adjust_shares_out_the_bond bp nodeBond op rest :
  bonds_sane bp nodeBond → Providers bp = op :: rest →
  ∃ bp', BP_Adjust bp nodeBond = Ok bp' ∧
    bp_BondAddress <$> Providers bp' = bp_BondAddress <$> Providers bp ∧
    NodeOperatorFee bp' = NodeOperatorFee bp ∧ bps_NodeAddress bp' = bps_NodeAddress bp ∧
    Forall (λ p, 0 ≤ bp_Bond p) (Providers bp') ∧
    nodeBond ≤ bonds bp' ≤ nodeBond + Z.of_nat (length rest) ∧
    (Z.of_nat (length rest) * bonds bp ≤ bp_Bond op * Z.min nodeBond (bonds bp) → bonds bp' = nodeBond).
Proof.
  intros Hsane Hps. pose proof (bs_bonds _ _ Hsane) as Hb. pose proof (bs_total _ _ Hsane) as Ht.
  destruct (decide (bonds bp = nodeBond)) as [He|Hne].
  { exists bp. unfold BP_Adjust. rewrite Hps, <- Hps, total_bond_ok by (done || (rewrite Z.add_0_l; done)).
    fold (bonds bp). cbn. rewrite (proj2 (Z.eqb_eq _ _)) by done. split_and!; (done || lia). }
  destruct (BP_Adjust_result bp nodeBond op rest Hsane Hps Hne) as [Ha Heq].
  set (a := nodeBond - adjust_fee bp nodeBond) in *.
  set (shares := shares_of_others (bonds bp) a rest) in *.
  match type of Heq with _ = Ok ?x => set (bp' := x) in * end. exists bp'. split; [exact Heq|].
  destruct (shared_bonds (bonds bp) a rest) as [Hbd Had]. fold shares in Hbd, Had.
  rewrite Hps in Hb. inversion Hb as [|? ? Hop Hrest]; subst.
  assert (Hbonds : bonds bp = bp_Bond op + sumZ (bp_Bond <$> rest)) by (unfold bonds; by rewrite Hps).
  assert (0 ≤ sumZ (bp_Bond <$> rest)) by (apply sumZ_nonneg, Forall_fmap; by eapply Forall_impl).
  assert (Hfee : 0 ≤ adjust_fee bp nodeBond ∧ Z.min nodeBond (bonds bp) ≤ a)
    by (by apply adjust_fee_bounds; [|lia]).
  assert (Hsh : Forall (λ x, 0 ≤ x) shares).
  { apply Forall_fmap, Forall_forall. intros p Hp. cbn.
    pose proof GetUncappedShare_range as Hr. unfold GetSafeShare. case_match; apply Hr. }
  pose proof (sumZ_nonneg _ Hsh) as Hs0.
  assert (Hsum : bonds bp' = Z.max 0 (a - sumZ shares) + adjust_fee bp nodeBond + sumZ shares)
    by (unfold bonds; cbn; by rewrite Hbd).
  assert (Herr : 0 < bonds bp → bonds bp * sumZ shares ≤
            a * sumZ (bp_Bond <$> rest) + bonds bp * Z.of_nat (length rest)).
  { intros Hpos. apply shares_error; [|lia..]. rewrite Hbonds. by apply bond_le_total. }
  assert (Hzero : bonds bp = 0 → sumZ shares = 0) by (intros Hz; unfold shares; rewrite Hz; apply shares_of_nothing).
  split_and!; try done.
  - by rewrite Hps, fmap_cons, <- Had.
  - constructor; [cbn; lia|]. rewrite <- Hbd in Hsh. exact (proj1 (Forall_fmap _ _ _) Hsh).
  - rewrite Hsum. lia.
  - rewrite Hsum. destruct (decide (bonds bp = 0)) as [Hz|]; [rewrite Hzero by done; lia|].
    specialize (Herr ltac:(lia)). nia.
  - intros Hcover. rewrite Hsum. destruct (decide (bonds bp = 0)) as [Hz|]; [rewrite Hzero by done; lia|].
    specialize (Herr ltac:(lia)). nia.
Qed.
End Nodes.

(** ** Witnesses *)

(** Five providers of a unit each round their shares up past the bond. *)
Definition small_providers : BondProviders :=
  mkBondProviders "node" 0 [mkBondProvider "op" 0; mkBondProvider "a" 1; mkBondProvider "b" 1;
    mkBondProvider "c" 1; mkBondProvider "d" 1; mkBondProvider "e" 1].
Lemma Adjust_may_exceed_the_bond : bonds <$> BP_Adjust small_providers 13 = Ok 15.
Proof. vm_compute. reflexivity. Qed.
Definition two_providers : BondProviders :=
  mkBondProviders "node" 2000 [mkBondProvider "op" 1000; mkBondProvider "a" 333].

Lemma BP_Adjust_shares_out_the_bond_witness :
  ∃ bp', BP_Adjust two_providers 2000 = Ok bp' ∧ bonds bp' = 2000 ∧
    bp_Bond <$> Providers bp' = [1534; 466].
Proof.
  assert (Hs : bonds_sane two_providers 2000).
  { constructor; [repeat constructor; discriminate|reflexivity|split; discriminate|split; discriminate]. }
  destruct (BP_Adjust_shares_out_the_bond two_providers 2000 (mkBondProvider "op" 1000) [mkBondProvider "a" 333]
    Hs eq_refl) as (bp' & He & _ & _ & _ & _ & _ & Hx).
  exists bp'. split; [exact He|]. split; [apply Hx; discriminate|].
  vm_compute in He. injection He as <-. vm_compute. reflexivity.
Defined.
