(* ===== verification/Quorum.v ===== *)
(** * Majorities and votes of the validators

    src/x/switchly/types/types.go (the three majorities),
    types/type_errata.go, type_solvency_voter.go, type_ban.go,
    type_observed_network_fee_voter.go, type_tss_keysign_fail.go and type_tss.go:
    who has signed, and when the signers are enough.  An account is its
    canonical bech32 text; the decoder belongs to [Env]. *)

From stdpp Require Import sorting.
From S2P Require Import Prelude CosmosMath GoStrings Assets Coins State Nodes.
Open Scope Z_scope.

(** ** Majorities *)

Definition SuperMajorityFactor : Z := 3.
Definition SimpleMajorityFactor : Z := 2.

Definition HasSuperMajority (signers total : Z) : bool :=
  if total <? signers then false
  else if signers <=? 0 then false
  else
    let min := Z.quot (total * 2) SuperMajorityFactor in
    let min := if 0 <? Z.rem (total * 2) SuperMajorityFactor then min + 1 else min in
    min <=? signers.

Definition HasSimpleMajority (signers total : Z) : bool :=
  if total <? signers then false
  else if signers <=? 0 then false
  else
    let min := Z.quot total SimpleMajorityFactor in
    let min := if 0 <? Z.rem total SimpleMajorityFactor then min + 1 else min in
    min <=? signers.

Definition HasMinority (signers total : Z) : bool :=
  if total <? signers then false
  else if signers <=? 0 then false
  else
    let min := Z.quot total SuperMajorityFactor in
    let min := if 0 <? Z.rem total SuperMajorityFactor then min + 1 else min in
    min <=? signers.

Lemma quot_up a b : 0 ≤ a → 0 < b →
  ∀ s, ((if 0 <? Z.rem a b then Z.quot a b + 1 else Z.quot a b) <=? s) = (a <=? b * s).
Proof.
  intros Ha Hb s. rewrite Z.quot_div_nonneg, Z.rem_mod_nonneg by lia.
  pose proof (Z.div_mod a b ltac:(lia)). pose proof (Z.mod_pos_bound a b Hb).
  apply eq_true_iff_eq. rewrite !Z.leb_le. destruct (Z.ltb_spec 0 (a mod b)); nia.
Qed.

Lemma majority_spec (f : Z → Z) b s t :
  0 ≤ t → (∀ t, 0 ≤ t → 0 ≤ f t) → 0 < b →
  (if t <? s then false else if s <=? 0 then false
   else (if 0 <? Z.rem (f t) b then Z.quot (f t) b + 1 else Z.quot (f t) b) <=? s) = true ↔
  0 < s ≤ t ∧ f t ≤ b * s.
Proof.
  intros Ht Hf Hb. rewrite quot_up by auto.
  destruct (Z.ltb_spec t s), (Z.leb_spec s 0), (Z.leb_spec (f t) (b * s)); split; (done || lia).
Qed.

(** Two thirds, a half and a third, each rounded up. *)
Lemma HasSuperMajority_spec s t : 0 ≤ t → HasSuperMajority s t = true ↔ 0 < s ≤ t ∧ t * 2 ≤ 3 * s.
Proof. intros. apply (majority_spec (λ t, t * 2)); lia. Qed.
Lemma HasSimpleMajority_spec s t : 0 ≤ t → HasSimpleMajority s t = true ↔ 0 < s ≤ t ∧ t ≤ 2 * s.
Proof. intros. apply (majority_spec (λ t, t)); lia. Qed.
Lemma HasMinority_spec s t : 0 ≤ t → HasMinority s t = true ↔ 0 < s ≤ t ∧ t ≤ 3 * s.
Proof. intros. apply (majority_spec (λ t, t)); lia. Qed.

Section Voters.
  Context `{CosmosMath} `{Env} `{!PubKeys}.

(** ** Signers

    Every voter keeps the texts of its signers; reading them back drops what
    does not decode. *)

Definition signers_of (l : list string) : list string := parsed AccAddressFromBech32 l.
Definition signed_by (l : list string) (signer : string) : bool :=
  existsb (λ x, bool_decide (x = signer)) (signers_of l).
Definition add_signer (l : list string) (signer : string) : list string * bool :=
  if signed_by l signer then (l, false) else ((l ++ [signer])%list, true).

(** The signers that are active validators. *)
Definition active_signers (nas : list NodeAccount) (l : list string) : list string :=
  List.filter (IsNodeKeys nas) (signers_of l).
Definition len {A} (l : list A) : Z := Z.of_nat (length l).

(** ** Errata, bans, solvency, network fees, failed keysigns *)

Record ErrataTxVoter := mkErrataTxVoter {
  er_TxID : string;
  er_Chain : Chain;
  er_BlockHeight : Z;
  er_Signers : list string;
}.
Definition NewErrataTxVoter (txID : string) (c : Chain) : ErrataTxVoter := mkErrataTxVoter txID c 0 [].
Definition Errata_HasSigned (m : ErrataTxVoter) (signer : string) : bool := signed_by (er_Signers m) signer.
Definition Errata_Sign (m : ErrataTxVoter) (signer : string) : ErrataTxVoter * bool :=
  let '(l, b) := add_signer (er_Signers m) signer in
  (mkErrataTxVoter (er_TxID m) (er_Chain m) (er_BlockHeight m) l, b).
Definition Errata_HasConsensus (m : ErrataTxVoter) (nas : list NodeAccount) : bool :=
  HasSuperMajority (len (active_signers nas (er_Signers m))) (len nas).
Definition Errata_Empty (m : ErrataTxVoter) : bool := blank (er_TxID m) || Chains.IsEmpty (er_Chain m).

Record BanVoter := mkBanVoter {
  ban_NodeAddress : string;
  ban_BlockHeight : Z;
  ban_Signers : list string;
}.
Definition NewBanVoter (addr : string) : BanVoter := mkBanVoter addr 0 [].
Definition Ban_Valid (m : BanVoter) : option error :=
  if bool_decide (ban_NodeAddress m = "") then Some "node address is empty"
  else if ban_BlockHeight m <=? 0 then Some "block height cannot be equal to or less than zero"
  else None.
Definition Ban_Sign (m : BanVoter) (signer : string) : BanVoter :=
  mkBanVoter (ban_NodeAddress m) (ban_BlockHeight m) (add_signer (ban_Signers m) signer).1.
Definition Ban_HasConsensus (m : BanVoter) (nas : list NodeAccount) : bool :=
  HasSuperMajority (len (active_signers nas (ban_Signers m))) (len nas).

Record SolvencyVoter := mkSolvencyVoter {
  sv_Id : string;
  sv_Chain : Chain;
  sv_PubKey : string;
  sv_Coins : list Coin;
  sv_Height : Z;
  sv_ConsensusBlockHeight : Z;
  sv_Signers : list string;
}.
Definition NewSolvencyVoter (id : string) (c : Chain) (pk : string) (coins : list Coin) (height : Z)
    : SolvencyVoter := mkSolvencyVoter id c pk coins height 0 [].
Definition Solvency_Sign (m : SolvencyVoter) (signer : string) : SolvencyVoter * bool :=
  let '(l, b) := add_signer (sv_Signers m) signer in
  (mkSolvencyVoter (sv_Id m) (sv_Chain m) (sv_PubKey m) (sv_Coins m) (sv_Height m)
     (sv_ConsensusBlockHeight m) l, b).
Definition Solvency_HasConsensus (m : SolvencyVoter) (nas : list NodeAccount) : bool :=
  HasMinority (len (active_signers nas (sv_Signers m))) (len nas).
Definition Solvency_Empty (m : SolvencyVoter) : bool :=
  blank (sv_Id m) || Chains.IsEmpty (sv_Chain m) || (sv_Height m <=? 0) || (len (sv_Signers m) =? 0).

Record NetworkFeeVoter := mkNetworkFeeVoter {
  nf_BlockHeight : Z;
  nf_ReportBlockHeight : Z;
  nf_Chain : Chain;
  nf_Signers : list string;
  nf_FeeRate : Z;
  nf_TransactionSize : Z;
}.
Definition NewObservedNetworkFeeVoter (height : Z) (c : Chain) : NetworkFeeVoter :=
  mkNetworkFeeVoter 0 height c [] 0 0.
Definition NetworkFee_Sign (m : NetworkFeeVoter) (signer : string) : NetworkFeeVoter * bool :=
  let '(l, b) := add_signer (nf_Signers m) signer in
  (mkNetworkFeeVoter (nf_BlockHeight m) (nf_ReportBlockHeight m) (nf_Chain m) l (nf_FeeRate m)
     (nf_TransactionSize m), b).
Definition NetworkFee_HasConsensus (m : NetworkFeeVoter) (nas : list NodeAccount) : bool :=
  HasSuperMajority (len (active_signers nas (nf_Signers m))) (len nas).
Definition NetworkFee_IsEmpty (m : NetworkFeeVoter) : bool :=
  Chains.IsEmpty (nf_Chain m) && (nf_ReportBlockHeight m =? 0).

Record KeysignFailVoter := mkKeysignFailVoter { kf_ID : string; kf_Height : Z; kf_Signers : list string }.
Definition NewTssKeysignFailVoter (id : string) (height : Z) : KeysignFailVoter :=
  mkKeysignFailVoter id height [].
Definition KeysignFail_Sign (m : KeysignFailVoter) (signer : string) : KeysignFailVoter * bool :=
  let '(l, b) := add_signer (kf_Signers m) signer in (mkKeysignFailVoter (kf_ID m) (kf_Height m) l, b).
(** Here the status of the account does not matter. *)
Definition KeysignFail_HasConsensus (m : KeysignFailVoter) (nas : list NodeAccount) : bool :=
  HasSimpleMajority
    (len (List.filter (λ s, existsb (λ a, bool_decide (s = a)) (GetNodeAddresses nas)) (signers_of (kf_Signers m))))
    (len nas).
Definition KeysignFail_Empty (m : KeysignFailVoter) : bool :=
  (String.length (kf_ID m) =? 0)%nat || (kf_Height m =? 0).

(** ** Key generation *)

Record TssVoter := mkTssVoter {
  tss_ID : string;
  PoolPubKey : string;
  tss_PubKeys : list string;
  tss_BlockHeight : Z;
  tss_Chains : list string;
  tss_Signers : list string;
  MajorityConsensusBlockHeight : Z;
  Secp256K1Signatures : list string;
}.
Definition NewTssVoter (id : string) (pks : list string) (pool : string) : TssVoter :=
  mkTssVoter id pool pks 0 [] [] 0 [].

Definition tss_GetChains (m : TssVoter) : list Chain :=
  omap (λ c, match Chains.NewChain c with Ok x => Some x | _ => None end) (tss_Chains m).
Definition tss_GetPubKeys (m : TssVoter) : list string := parsed NewPubKey (tss_PubKeys m).

(** The signer's address is that of one of the members' keys. *)
Definition is_member (m : TssVoter) (signer : string) : bool :=
  existsb (λ pk, match GetThorAddress pk with Ok addr => bool_decide (addr = signer) | _ => false end)
    (tss_GetPubKeys m).

Definition tss_Sign (m : TssVoter) (signer : string) (chains : list string) (signature : string)
    : TssVoter * bool :=
  if signed_by (tss_Signers m) signer then (m, false)
  else if is_member m signer then
    (mkTssVoter (tss_ID m) (PoolPubKey m) (tss_PubKeys m) (tss_BlockHeight m) (tss_Chains m ++ chains)%list
       (tss_Signers m ++ [signer])%list (MajorityConsensusBlockHeight m)
       (if (0 <? String.length signature)%nat then (Secp256K1Signatures m ++ [signature])%list
        else Secp256K1Signatures m), true)
  else (m, false).

(** How often an element occurs. *)
Definition occurrences {A} `{EqDecision A} (x : A) (l : list A) : Z :=
  len (List.filter (λ y, bool_decide (y = x)) l).

Definition chain_le (a b : Chain) : Prop := String.leb (Chains.Str a) (Chains.Str b) = true.
#[export] Instance chain_le_dec : RelDecision chain_le.
Proof. intros a b. unfold chain_le. apply _. Defined.

(** The chains with a super-majority, in the order of their names. *)
Definition ConsensusChains (m : TssVoter) : list Chain :=
  let cs := tss_GetChains m in
  merge_sort chain_le
    (List.filter (λ c, HasSuperMajority (occurrences c cs) (len (tss_PubKeys m))) (remove_dups cs)).

Definition HasCompleteConsensus (m : TssVoter) : bool := len (tss_Signers m) =? len (tss_PubKeys m).
Definition tss_HasConsensus (m : TssVoter) : bool :=
  HasSuperMajority (len (tss_Signers m)) (len (tss_PubKeys m)).

(** The loop ranges over a map, in an order [keys] that Go leaves open. *)
Definition check_signature (m : TssVoter) (keys : list string) : string * bool :=
  match List.find (λ sig, HasSuperMajority (occurrences sig (Secp256K1Signatures m)) (len (tss_PubKeys m))) keys with
  | Some sig => (sig, true)
  | None => ("", false)
  end.
(** One of these orders. *)
Definition ConsensusCheckSignature (m : TssVoter) : string * bool :=
  check_signature m (remove_dups (Secp256K1Signatures m)).

(** ** Facts *)

Lemma len_app {A} (l k : list A) : len (l ++ k) = len l + len k.
Proof. unfold len. rewrite length_app. lia. Qed.
Lemma len_nonneg {A} (l : list A) : 0 ≤ len l.
Proof. unfold len. lia. Qed.

Lemma signed_by_spec l a : signed_by l a = true ↔ a ∈ signers_of l.
Proof.
  unfold signed_by. rewrite existsb_exists. setoid_rewrite bool_decide_eq_true.
  setoid_rewrite <- list_elem_of_In. naive_solver.
Qed.

Lemma parsed_app f (l k : list string) : parsed f (l ++ k) = (parsed f l ++ parsed f k)%list.
Proof. apply omap_app. Qed.

(** Two different elements share the places of a list. *)
Lemma occurrences_two {A} `{EqDecision A} (x y : A) l :
  x ≠ y → occurrences x l + occurrences y l ≤ len l.
Proof.
  intros Hne. unfold occurrences, len. induction l as [|z l IH]; [done|]. cbn.
  repeat case_bool_decide; subst; cbn; try done; lia.
Qed.

(** A search finds the same, in whatever order, when at most one element fits. *)
Lemma find_unique {A} (f : A → bool) l k :
  (∀ x y, x ∈ l → y ∈ l → f x = true → f y = true → x = y) → (∀ x, x ∈ l ↔ x ∈ k) →
  List.find f l = List.find f k.
Proof.
  intros Hu Hlk. destruct (List.find f l) as [x|] eqn:Hx.
  - apply List.find_some in Hx as [Hin Hf]. rewrite <- list_elem_of_In in Hin.
    destruct (List.find f k) as [y|] eqn:Hy.
    + apply List.find_some in Hy as [Hyin Hfy]. rewrite <- list_elem_of_In in Hyin.
      f_equal. apply Hu; try done. by apply Hlk.
    + exfalso. apply (List.find_none f k) with (x := x) in Hy; [congruence|].
      rewrite <- list_elem_of_In. by apply Hlk.
  - destruct (List.find f k) as [y|] eqn:Hy; [|done]. exfalso.
    apply List.find_some in Hy as [Hyin Hfy]. rewrite <- list_elem_of_In in Hyin.
    apply (List.find_none f l) with (x := y) in Hx; [congruence|].
    rewrite <- list_elem_of_In. by apply Hlk.
Qed.

(** *** Key generation voters *)

(** The voters that key generation reaches: nobody has signed twice, every signer
    is a member, with at most one signature each. *)
Record tss_ok (m : TssVoter) : Prop := {
  tk_signers : NoDup (tss_Signers m);
  tk_canonical : ∀ a, a ∈ tss_Signers m → AccAddressFromBech32 a = Ok a;
  tk_members : ∀ a, a ∈ tss_Signers m → is_member m a = true;
  tk_signatures : len (Secp256K1Signatures m) ≤ len (tss_Signers m);
}.

Lemma parsed_canonical l :
  (∀ a, a ∈ l → AccAddressFromBech32 a = Ok a) → signers_of l = l.
Proof.
  unfold signers_of, parsed. induction l as [|a l IH]; intros Hl; [done|]. cbn.
  rewrite (Hl a) by set_solver. f_equal. apply IH. set_solver.
Qed.

Lemma tss_ok_new id pks pool : tss_ok (NewTssVoter id pks pool).
Proof. constructor; cbn; [constructor|set_solver|set_solver|done]. Qed.

Lemma tss_Sign_ok m signer chains sig : tss_ok m → tss_ok (tss_Sign m signer chains sig).1.
Proof.
  intros [Hn Hc Hm Hs]. unfold tss_Sign.
  destruct (signed_by _ _) eqn:Hsig; [done|]. destruct (is_member m signer) eqn:Hmem; [|done]. cbn.
  assert (Hnew : signer ∉ tss_Signers m).
  { intros Hin. rewrite <- (parsed_canonical _ Hc) in Hin. apply signed_by_spec in Hin. congruence. }
  assert (Hcs : AccAddressFromBech32 signer = Ok signer).
  { unfold is_member in Hmem. rewrite existsb_exists in Hmem. destruct Hmem as (pk & _ & Hpk).
    destruct (GetThorAddress pk) as [addr| |] eqn:Ha; [|done..]. case_bool_decide; [|done]. subst addr.
    by apply thor_address_canonical in Ha. }
  constructor; cbn.
  - apply list.NoDup_app. split; [done|]. split; [set_solver|apply NoDup_singleton].
  - intros a. rewrite elem_of_app, list_elem_of_singleton. intros [? | ->]; auto.
  - intros a. rewrite elem_of_app, list_elem_of_singleton. intros [? | ->]; [by apply Hm|done].
  - rewrite len_app. case_match; rewrite ?len_app; unfold len in *; cbn in *; lia.
Qed.

(** No more signers than members. *)
Lemma tss_signers_le m : tss_ok m → len (tss_Signers m) ≤ len (tss_PubKeys m).
Proof.
  intros [Hn _ Hm _].
  set (addrs := parsed GetThorAddress (tss_GetPubKeys m)).
  assert (Hsub : tss_Signers m ⊆ addrs).
  { intros a Ha%Hm. unfold is_member in Ha. rewrite existsb_exists in Ha. destruct Ha as (pk & Hpk & Ha).
    unfold addrs, parsed. apply list_elem_of_omap. exists pk. split; [by apply list_elem_of_In|].
    destruct (GetThorAddress pk); [|done..]. case_bool_decide; [|done]. by subst. }
  assert (length (tss_Signers m) ≤ length addrs)%nat by (apply NoDup_incl_length; [by apply NoDup_ListNoDup|]; intros a; rewrite <- !list_elem_of_In; apply Hsub).
  assert (Hle : ∀ f (l : list string), (length (parsed f l) ≤ length l)%nat).
  { intros f l. unfold parsed. induction l as [|x l IH]; [done|]. cbn. destruct (f x); cbn; lia. }
  unfold addrs, tss_GetPubKeys in *. pose proof (Hle GetThorAddress (parsed NewPubKey (tss_PubKeys m))).
  pose proof (Hle NewPubKey (tss_PubKeys m)). unfold len. lia.
Qed.

(** Two different elements cannot both have a super-majority of a list that is
    no longer than the electorate. *)
Lemma super_majority_unique {A} `{EqDecision A} (x y : A) l total :
  len l ≤ total → HasSuperMajority (occurrences x l) total = true →
  HasSuperMajority (occurrences y l) total = true → x = y.
Proof.
  intros Hl Hx Hy. pose proof (len_nonneg l). rewrite HasSuperMajority_spec in Hx, Hy by lia.
  destruct (decide (x = y)) as [|Hne]; [done|]. pose proof (occurrences_two x y l Hne). lia.
Qed.

(** Whatever order the map of the signature counts is ranged over in, the same
    check signature is found: the members of a key generation who sign once
    each cannot agree on two of them. *)
Theorem check_signature_needs_no_order id pks pool votes keys :
  let m := foldl (λ m '(signer, chains, sig), (tss_Sign m signer chains sig).1) (NewTssVoter id pks pool) votes in
  (∀ sig, sig ∈ keys ↔ sig ∈ Secp256K1Signatures m) →
  check_signature m keys = ConsensusCheckSignature m.
Proof.
  intros m Hkeys. assert (Hok : tss_ok m).
  { unfold m. clear. generalize (tss_ok_new id pks pool). generalize (NewTssVoter id pks pool).
    induction votes as [|[[a c] sg] votes IH]; intros m Hm; [done|]. cbn. by apply IH, tss_Sign_ok. }
  clearbody m. pose proof (tss_signers_le m Hok). pose proof (tk_signatures m Hok).
  unfold ConsensusCheckSignature, check_signature. rewrite (find_unique _ keys (remove_dups (Secp256K1Signatures m))).
  - done.
  - intros x y _ _. apply super_majority_unique. lia.
  - intros sig. by rewrite elem_of_remove_dups.
Qed.
End Voters.

(** ** Witness *)

(** Keys whose text is the address, to evaluate with. *)
Program Definition plain_keys : PubKeys := {| pubkey_decodes _ := true; GetThorAddress pk := Ok pk |}.
Next Obligation. done. Qed.

(** Three members of whom two agree on the signature and one sends another. *)
Definition keygen_votes : list (string * list string * string) :=
  [("alice", ["BTC"], "sig"); ("mallory", ["BTC"], "other"); ("bob", ["BTC"], "sig")].

Lemma check_signature_needs_no_order_witness :
  let _ := plain_keys in
  let m := foldl (λ m '(signer, chains, sig), (tss_Sign m signer chains sig).1)
    (NewTssVoter "id" ["alice"; "bob"; "mallory"] "pool") keygen_votes in
  check_signature m ["other"; "sig"] = ConsensusCheckSignature m ∧ ConsensusCheckSignature m = ("sig", true).
Proof.
  cbn zeta. split; [|vm_compute; reflexivity].
  apply (@check_signature_needs_no_order _ plain_keys "id" ["alice"; "bob"; "mallory"] "pool" keygen_votes).
  intros sig. change (sig ∈ ["other"; "sig"] ↔ sig ∈ ["sig"; "other"; "sig"]). set_solver.
Defined.
