(* ===== verification/ObservedTx.v ===== *)
(** * Observed transactions and their voters

    src/common/type_observed_tx.go and
    src/x/switchly/types/type_observed_tx.go: what a validator reports to have
    seen on an external chain, and the record that collects the reports until
    enough validators agree.  [sort.Slice] is a parameter, since it leaves the
    order of equal elements open; that [Gas.Equals] sorts the gas of both
    transactions in place, which changes nothing but the order of gas coins, is
    not modelled. *)

From S2P Require Import Prelude CosmosMath GoStrings Assets Coins State Txs Nodes Quorum.
Open Scope Z_scope.

Class SortSlice := {
  sort_slice : ∀ {A}, (A → A → bool) → list A → list A;
  sort_slice_perm : ∀ {A} (less : A → A → bool) l, sort_slice less l ≡ₚ l;
}.

Inductive Status := Status_incomplete | Status_done | Status_reverted.
#[export] Instance Status_eq_dec : EqDecision Status.
Proof. solve_decision. Defined.

Record ObservedTx := mkObservedTx {
  ot_Tx : Tx;
  ot_Status : Status;
  OutHashes : list string;
  ot_BlockHeight : Z;
  ot_Signers : list string;
  ObservedPubKey : string;
  KeysignMs : Z;
  FinaliseHeight : Z;
  Aggregator : string;
  AggregatorTarget : string;
  AggregatorTargetLimit : option Z;
}.

Definition set_ot_Signers (l : list string) (m : ObservedTx) : ObservedTx :=
  mkObservedTx (ot_Tx m) (ot_Status m) (OutHashes m) (ot_BlockHeight m) l (ObservedPubKey m) (KeysignMs m)
    (FinaliseHeight m) (Aggregator m) (AggregatorTarget m) (AggregatorTargetLimit m).
Definition set_ot_Status (st : Status) (m : ObservedTx) : ObservedTx :=
  mkObservedTx (ot_Tx m) st (OutHashes m) (ot_BlockHeight m) (ot_Signers m) (ObservedPubKey m) (KeysignMs m)
    (FinaliseHeight m) (Aggregator m) (AggregatorTarget m) (AggregatorTargetLimit m).
Definition set_OutHashes (l : list string) (st : Status) (m : ObservedTx) : ObservedTx :=
  mkObservedTx (ot_Tx m) st l (ot_BlockHeight m) (ot_Signers m) (ObservedPubKey m) (KeysignMs m)
    (FinaliseHeight m) (Aggregator m) (AggregatorTarget m) (AggregatorTargetLimit m).

Definition Tx_IsEmpty (tx : Tx) : bool := TxID_IsEmpty (tx_ID tx).
(** The zero value. *)
Definition NoTx : Tx := mkTx "" EmptyChain "" "" [] [] "".
Definition NoObservedTx : ObservedTx := mkObservedTx NoTx Status_incomplete [] 0 [] "" 0 0 "" "" None.

(** Reports in the order they arrive, with who made them. *)
Abbreviation log := (list (ObservedTx * string)).

Section Observed.
  Context `{CosmosMath} `{Env} `{!PubKeys} `{!SortSlice}.

(** ** Equality of transactions *)

Definition asset_less (a b : Coin) : bool :=
  String.ltb (Assets.Str (coin_asset a)) (Assets.Str (coin_asset b)).

(** Lists of the same length, equal element by element once sorted. *)
Definition sorted_equal (cs cs2 : list Coin) : bool :=
  if negb (length cs =? length cs2)%nat then false
  else forallb (λ '(a, b), Coin_Equals a b) (zip (sort_slice asset_less cs) (sort_slice asset_less cs2)).
Definition Coins_EqualsEx (cs cs2 : list Coin) : bool := sorted_equal cs cs2.
Definition Gas_Equals (g gas2 : list Coin) : bool := sorted_equal g gas2.

Definition Tx_EqualsEx (tx tx2 : Tx) : bool :=
  if negb (TxID_Equals (tx_ID tx) (tx_ID tx2)) then false
  else if negb (Chains.Equals (tx_Chain tx) (tx_Chain tx2)) then false
  else if negb (Address_Equals (FromAddress tx) (FromAddress tx2)) then false
  else if negb (Address_Equals (ToAddress tx) (ToAddress tx2)) then false
  else if negb (Coins_EqualsEx (tx_Coins tx) (tx_Coins tx2)) then false
  else if negb (Gas_Equals (tx_Gas tx) (tx_Gas tx2)) then false
  else EqualFold (Memo tx) (Memo tx2).

(** ** Observed transactions *)

Definition NewObservedTx (tx : Tx) (height : Z) (pk : string) (finalisedHeight : Z) : ObservedTx :=
  mkObservedTx tx Status_incomplete [] height [] pk 0 finalisedHeight "" "" None.

Definition ObservedTx_Valid (m : ObservedTx) : option error :=
  match Tx_Valid (ot_Tx m) with
  | Some e => Some e
  | None =>
      if ot_BlockHeight m <=? 0 then Some "block height can't be zero"
      else if (String.length (ObservedPubKey m) =? 0)%nat then Some "observed pool pubkey is empty"
      else if FinaliseHeight m <=? 0 then Some "finalise block height can't be zero"
      else None
  end.

Definition ObservedTx_IsEmpty (m : ObservedTx) : bool := Tx_IsEmpty (ot_Tx m).

Definition ObservedTx_Equals (m tx2 : ObservedTx) : bool :=
  if negb (Tx_EqualsEx (ot_Tx m) (ot_Tx tx2)) then false
  else if negb (bool_decide (ObservedPubKey m = ObservedPubKey tx2)) then false
  else if negb (ot_BlockHeight m =? ot_BlockHeight tx2) then false
  else if negb (FinaliseHeight m =? FinaliseHeight tx2) then false
  else if negb (EqualFold (Aggregator m) (Aggregator tx2)) then false
  else if negb (EqualFold (AggregatorTarget m) (AggregatorTarget tx2)) then false
  else default 0 (AggregatorTargetLimit m) =? default 0 (AggregatorTargetLimit tx2).

Definition IsFinal (m : ObservedTx) : bool := FinaliseHeight m =? ot_BlockHeight m.

Definition GetOutHashes (m : ObservedTx) : list string := parsed NewTxID (OutHashes m).
Definition GetSigners (m : ObservedTx) : list string := signers_of (ot_Signers m).
Definition HasSigned (m : ObservedTx) (signer : string) : bool := signed_by (ot_Signers m) signer.
Definition Sign (m : ObservedTx) (signer : string) : ObservedTx * bool :=
  let '(l, b) := add_signer (ot_Signers m) signer in (set_ot_Signers l m, b).

Definition ObservedTx_IsDone (outs : list string) (numOuts : Z) : bool := numOuts <=? len outs.
Definition ObservedTx_SetDone (m : ObservedTx) (hash : string) (numOuts : Z) : ObservedTx :=
  if negb (TxID_Equals hash BlankTxID) && existsb (λ d, TxID_Equals d hash) (GetOutHashes m) then m
  else
    let outs := (OutHashes m ++ [hash])%list in
    set_OutHashes outs (if ObservedTx_IsDone outs numOuts then Status_done else ot_Status m) m.

(** ** Voters *)

Record ObservedTxVoter := mkVoter {
  ov_TxID : string;
  ov_Tx : ObservedTx;
  ov_Height : Z;
  ov_Txs : list ObservedTx;
  Actions : list TxOutItem;
  OutTxs : list Tx;
  FinalisedHeight : Z;
  UpdatedVault : bool;
  Reverted : bool;
  OutboundHeight : Z;
}.

Definition set_ov_Tx (t : ObservedTx) (m : ObservedTxVoter) : ObservedTxVoter :=
  mkVoter (ov_TxID m) t (ov_Height m) (ov_Txs m) (Actions m) (OutTxs m) (FinalisedHeight m)
    (UpdatedVault m) (Reverted m) (OutboundHeight m).
Definition set_heights (h fin : Z) (m : ObservedTxVoter) : ObservedTxVoter :=
  mkVoter (ov_TxID m) (ov_Tx m) h (ov_Txs m) (Actions m) (OutTxs m) fin
    (UpdatedVault m) (Reverted m) (OutboundHeight m).
Definition set_ov_Txs (l : list ObservedTx) (m : ObservedTxVoter) : ObservedTxVoter :=
  mkVoter (ov_TxID m) (ov_Tx m) (ov_Height m) l (Actions m) (OutTxs m) (FinalisedHeight m)
    (UpdatedVault m) (Reverted m) (OutboundHeight m).
Definition set_OutTxs (l : list Tx) (m : ObservedTxVoter) : ObservedTxVoter :=
  mkVoter (ov_TxID m) (ov_Tx m) (ov_Height m) (ov_Txs m) (Actions m) l (FinalisedHeight m)
    (UpdatedVault m) (Reverted m) (OutboundHeight m).
Definition set_Reverted (b : bool) (m : ObservedTxVoter) : ObservedTxVoter :=
  mkVoter (ov_TxID m) (ov_Tx m) (ov_Height m) (ov_Txs m) (Actions m) (OutTxs m) (FinalisedHeight m)
    (UpdatedVault m) b (OutboundHeight m).

Definition NewObservedTxVoter (txID : string) (txs : list ObservedTx) : ObservedTxVoter :=
  mkVoter txID NoObservedTx 0 txs [] [] 0 false false 0.

(** Whether a planned outbound is what was observed: coin, memo and address, the
    gas counted with the gas asset. *)
Definition matches_action (outboundTx : Tx) (toi : TxOutItem) : outcome bool :=
  let gasAsset := GetGasAsset (toi_Chain toi) in
  matchCoin ←
    (if Contains (tx_Coins outboundTx) (toi_Coin toi) then Ok true
     else if Assets.Equals (coin_asset (toi_Coin toi)) gasAsset then
       intend ← uadd (coin_amount (toi_Coin toi)) (coin_amount (GetCoin (toi_MaxGas toi) gasAsset));
       actual ← uadd (coin_amount (GetCoin (tx_Coins outboundTx) gasAsset))
                  (coin_amount (GetCoin (tx_Gas outboundTx) gasAsset));
       Ok (intend =? actual)
     else Ok false);
  Ok (EqualFold (toi_Memo toi) (Memo outboundTx) &&
      Address_Equals (toi_ToAddress toi) (ToAddress outboundTx) &&
      Chains.Equals (toi_Chain toi) (tx_Chain outboundTx) && matchCoin).

Fixpoint matchActionItem (outboundTx : Tx) (items : list TxOutItem) : outcome bool :=
  match items with
  | [] => Ok false
  | toi :: r =>
      b ← matches_action outboundTx toi;
      if b : bool then Ok true else matchActionItem outboundTx r
  end.

Definition AddOutTx (m : ObservedTxVoter) (in_ : Tx) : outcome (ObservedTxVoter * bool) :=
  found ← matchActionItem in_ (Actions m);
  if negb found then Ok (m, false)
  else if negb (TxID_Equals (tx_ID in_) BlankTxID) &&
          existsb (λ t, TxID_Equals (tx_ID in_) (tx_ID t)) (OutTxs m) then Ok (m, true)
  else
    let done_ t := ObservedTx_SetDone t (tx_ID in_) (len (Actions m)) in
    let m := set_ov_Txs (done_ <$> ov_Txs m) (set_OutTxs (OutTxs m ++ [in_])%list m) in
    Ok (if ObservedTx_IsEmpty (ov_Tx m) then m else set_ov_Tx (done_ (ov_Tx m)) m, true).

Definition Voter_IsDone (m : ObservedTxVoter) : bool := len (Actions m) <=? len (OutTxs m).

(** The last record equal to the observation, or [None] if the signer has
    signed one of them already. *)
Fixpoint find_record (obs : ObservedTx) (signer : string) (i : nat) (txs : list ObservedTx)
    (votedIdx : option nat) : option (option nat) :=
  match txs with
  | [] => Some votedIdx
  | t :: r =>
      if ObservedTx_Equals t obs then
        if HasSigned t signer then None else find_record obs signer (S i) r (Some i)
      else find_record obs signer (S i) r votedIdx
  end.

Definition Voter_Add (m : ObservedTxVoter) (obs : ObservedTx) (signer : string) : ObservedTxVoter * bool :=
  match find_record obs signer 0 (ov_Txs m) None with
  | None => (m, false)
  | Some (Some i) =>
      match ov_Txs m !! i with
      | Some t => let '(t', b) := Sign t signer in (set_ov_Txs (<[i := t']> (ov_Txs m)) m, b)
      | None => (m, false)
      end
  | Some None => (set_ov_Txs (ov_Txs m ++ [set_ot_Signers [signer] obs])%list m, true)
  end.

(** The active validators that have signed a record of the same transaction and
    the same finality. *)
Definition voters (m : ObservedTxVoter) (nas : list NodeAccount) (final : bool) (t : ObservedTx)
    : list string :=
  let same := List.filter (λ t', bool_decide (IsFinal t' = final) && Tx_EqualsEx (ot_Tx t) (ot_Tx t')) (ov_Txs m) in
  remove_dups (List.filter (IsNodeKeys nas) (concat (GetSigners <$> same))).

Definition getConsensusTx (m : ObservedTxVoter) (nas : list NodeAccount) (final : bool) : ObservedTx :=
  default NoObservedTx
    (List.find (λ t, bool_decide (IsFinal t = final) &&
                     HasSuperMajority (len (voters m nas final t)) (len nas)) (ov_Txs m)).

Definition GetTx (m : ObservedTxVoter) (nas : list NodeAccount) : ObservedTx :=
  if negb (ObservedTx_IsEmpty (ov_Tx m)) && IsFinal (ov_Tx m) then ov_Tx m
  else
    let finalTx := getConsensusTx m nas true in
    if negb (ObservedTx_IsEmpty finalTx) then finalTx
    else
      let discoverTx := getConsensusTx m nas false in
      if negb (ObservedTx_IsEmpty discoverTx) then discoverTx else ov_Tx m.

Definition HasConsensus (m : ObservedTxVoter) (nas : list NodeAccount) : bool :=
  negb (ObservedTx_IsEmpty (GetTx m nas)).
Definition HasFinalised (m : ObservedTxVoter) (nas : list NodeAccount) : bool :=
  let finalTx := GetTx m nas in
  if ObservedTx_IsEmpty finalTx then false else IsFinal finalTx.

(** The loop over the records changes copies of them, so only the consensus
    transaction's status is set. *)
Definition setStatus (toStatus : Status) (m : ObservedTxVoter) : ObservedTxVoter :=
  if ObservedTx_IsEmpty (ov_Tx m) then m else set_ov_Tx (set_ot_Status toStatus (ov_Tx m)) m.
Definition SetReverted (m : ObservedTxVoter) : ObservedTxVoter :=
  set_Reverted true (setStatus Status_reverted m).
Definition Voter_SetDone (m : ObservedTxVoter) : ObservedTxVoter := setStatus Status_done m.

(** Every signer of a record like the consensus transaction, once, in the order
    of the records. *)
Fixpoint first_of_each (seen l : list string) : list string :=
  match l with
  | [] => []
  | x :: r => if bool_decide (x ∈ seen) then first_of_each seen r else x :: first_of_each (x :: seen) r
  end.
Definition GetConsensusSigners (m : ObservedTxVoter) : list string :=
  if ObservedTx_IsEmpty (ov_Tx m) then []
  else
    let same := List.filter (λ t, bool_decide (IsFinal t = IsFinal (ov_Tx m)) &&
                                  Tx_EqualsEx (ot_Tx t) (ot_Tx (ov_Tx m))) (ov_Txs m) in
    first_of_each [] (concat (GetSigners <$> same)).

(** ** Equality is an equivalence *)

Lemma EqualFold_spec a b : EqualFold a b = true ↔ ToUpper a = ToUpper b.
Proof. apply bool_decide_eq_true. Qed.

Lemma Coin_Equals_refl c : Coin_Equals c c = true.
Proof. unfold Coin_Equals. by rewrite Equals_refl, Z.eqb_refl. Qed.
Lemma Coin_Equals_sym a b : Coin_Equals a b = Coin_Equals b a.
Proof. unfold Coin_Equals. by rewrite Equals_sym, Z.eqb_sym. Qed.
Lemma Coin_Equals_trans a b c : Coin_Equals a b = true → Coin_Equals b c = true → Coin_Equals a c = true.
Proof.
  unfold Coin_Equals. rewrite !andb_true_iff, !Z.eqb_eq. intros [H1a ->] [H2a ->]. split; [|done].
  by apply (Equals_trans _ (coin_asset b)).
Qed.

#[export] Instance coin_equivalence : Equivalence (λ a b, Coin_Equals a b = true).
Proof.
  constructor; [intros c; apply Coin_Equals_refl|intros a b; by rewrite Coin_Equals_sym
    |intros a b c; apply Coin_Equals_trans].
Qed.

Lemma forallb_zip {A} (f : A → A → bool) l k :
  length l = length k → forallb (λ '(a, b), f a b) (zip l k) = true ↔ Forall2 (λ a b, f a b = true) l k.
Proof.
  revert k. induction l as [|a l IH]; intros [|b k] Hlen; try done; cbn.
  rewrite andb_true_iff, IH by (cbn in Hlen; lia).
  split; [intros []; by constructor|intros Hf; by inversion Hf].
Qed.

Lemma sorted_equal_spec cs cs2 :
  sorted_equal cs cs2 = true ↔
  Forall2 (λ a b, Coin_Equals a b = true) (sort_slice asset_less cs) (sort_slice asset_less cs2).
Proof.
  unfold sorted_equal. assert (Hl : ∀ l, length (sort_slice asset_less l) = length l)
    by (intros l; apply Permutation_length, sort_slice_perm).
  destruct (Nat.eqb_spec (length cs) (length cs2)) as [He|Hne]; cbn [negb].
  - apply forallb_zip. by rewrite !Hl.
  - split; [done|]. intros Hf%Forall2_length. rewrite !Hl in Hf. done.
Qed.

Definition tx_eq (a b : Tx) : Prop := Tx_EqualsEx a b = true.
Definition obs_eq (a b : ObservedTx) : Prop := ObservedTx_Equals a b = true.

Lemma guard_and (b e : bool) : (if negb b then false else e) = b && e.
Proof. by destruct b. Qed.

Lemma tx_eq_spec a b : tx_eq a b ↔
  ToUpper (tx_ID a) = ToUpper (tx_ID b) ∧ ToUpper (Chains.Str (tx_Chain a)) = ToUpper (Chains.Str (tx_Chain b)) ∧
  ToUpper (FromAddress a) = ToUpper (FromAddress b) ∧ ToUpper (ToAddress a) = ToUpper (ToAddress b) ∧
  sorted_equal (tx_Coins a) (tx_Coins b) = true ∧ sorted_equal (tx_Gas a) (tx_Gas b) = true ∧
  ToUpper (Memo a) = ToUpper (Memo b).
Proof.
  unfold tx_eq, Tx_EqualsEx, TxID_Equals, Chains.Equals, Address_Equals, Coins_EqualsEx, Gas_Equals.
  rewrite <- !EqualFold_spec, !guard_and, !andb_true_iff. reflexivity.
Qed.

Lemma sorted_equal_refl a : sorted_equal a a = true.
Proof. rewrite sorted_equal_spec. reflexivity. Qed.
Lemma sorted_equal_sym a b : sorted_equal a b = true → sorted_equal b a = true.
Proof. rewrite !sorted_equal_spec. intros Hf. by symmetry. Qed.
Lemma sorted_equal_trans a b c :
  sorted_equal a b = true → sorted_equal b c = true → sorted_equal a c = true.
Proof. rewrite !sorted_equal_spec. intros Hf Hg. by etrans. Qed.

#[export] Instance tx_eq_equivalence : Equivalence tx_eq.
Proof.
  constructor; [intros a|intros a b|intros a b c]; rewrite !tx_eq_spec.
  - split_and!; reflexivity || apply sorted_equal_refl.
  - intros (? & ? & ? & ? & Hc & Hg & ?). split_and!; (by symmetry) || (by apply sorted_equal_sym).
  - intros (? & ? & ? & ? & Hc & Hg & ?) (? & ? & ? & ? & Hc' & Hg' & ?).
    split_and!; congruence || (by eapply sorted_equal_trans).
Qed.

Lemma obs_eq_spec a b : obs_eq a b ↔
  tx_eq (ot_Tx a) (ot_Tx b) ∧ ObservedPubKey a = ObservedPubKey b ∧ ot_BlockHeight a = ot_BlockHeight b ∧
  FinaliseHeight a = FinaliseHeight b ∧ ToUpper (Aggregator a) = ToUpper (Aggregator b) ∧
  ToUpper (AggregatorTarget a) = ToUpper (AggregatorTarget b) ∧
  default 0 (AggregatorTargetLimit a) = default 0 (AggregatorTargetLimit b).
Proof.
  unfold obs_eq, ObservedTx_Equals, tx_eq.
  rewrite <- !EqualFold_spec, <- !Z.eqb_eq, !guard_and, !andb_true_iff, bool_decide_eq_true. reflexivity.
Qed.

#[export] Instance obs_eq_equivalence : Equivalence obs_eq.
Proof.
  constructor; [intros a|intros a b|intros a b c]; rewrite !obs_eq_spec.
  - by split_and!; try reflexivity.
  - intros (Ht & Hr). destruct Hr as (? & ? & ? & ? & ? & ?). split_and!; done.
  - intros (Ht & ? & ? & ? & ? & ? & ?) (Ht' & ? & ? & ? & ? & ? & ?).
    split_and!; try congruence. by etrans.
Qed.

(** Equal records have the same finality and equal transactions. *)
Lemma obs_eq_final a b : obs_eq a b → IsFinal a = IsFinal b ∧ tx_eq (ot_Tx a) (ot_Tx b).
Proof. rewrite obs_eq_spec. unfold IsFinal. intros (? & _ & -> & -> & _). done. Qed.

Lemma tx_eq_id a b : tx_eq a b → ToUpper (tx_ID a) = ToUpper (tx_ID b).
Proof. rewrite tx_eq_spec. by intros [? _]. Qed.

(** Signers are not compared. *)
Lemma obs_eq_signers l a : obs_eq (set_ot_Signers l a) a.
Proof. rewrite obs_eq_spec. cbn. by split_and!; try reflexivity. Qed.

(** ** Votes *)

(** A record equal to [t] is signed by [s]. *)
Definition voted (m : ObservedTxVoter) (t : ObservedTx) (s : string) : Prop :=
  ∃ r, r ∈ ov_Txs m ∧ obs_eq r t ∧ s ∈ ot_Signers r.

(** What the handlers give [Add]: addresses that decode to themselves. *)
Definition canonical (s : string) : Prop := AccAddressFromBech32 s = Ok s.

(** Every record was reported, and signed by different accounts. *)
Record records_ok (m : ObservedTxVoter) : Prop := {
  ro_canonical : ∀ r s, r ∈ ov_Txs m → s ∈ ot_Signers r → canonical s;
  ro_once : ∀ r, r ∈ ov_Txs m → NoDup (ot_Signers r);
}.

Lemma get_signers m r : records_ok m → r ∈ ov_Txs m → GetSigners r = ot_Signers r.
Proof. intros Hok Hr. apply parsed_canonical. intros a Ha. by apply (ro_canonical m Hok r). Qed.

Lemma has_signed m r s : records_ok m → r ∈ ov_Txs m → HasSigned r s = true ↔ s ∈ ot_Signers r.
Proof.
  intros Hok Hr. unfold HasSigned. rewrite signed_by_spec. fold (GetSigners r). by rewrite (get_signers m).
Qed.

Lemma find_record_spec obs s i txs v :
  match find_record obs s i txs v with
  | None => ∃ t, t ∈ txs ∧ obs_eq t obs ∧ HasSigned t s = true
  | Some r =>
      (∀ t, t ∈ txs → obs_eq t obs → HasSigned t s = false) ∧
      ((r = v ∧ ∀ t, t ∈ txs → ¬ obs_eq t obs) ∨
       ∃ j t, r = Some (i + j)%nat ∧ txs !! j = Some t ∧ obs_eq t obs)
  end.
Proof.
  revert i v. induction txs as [|t txs IH]; intros i v; cbn.
  { split; [set_solver|]. left. split; [done|set_solver]. }
  destruct (ObservedTx_Equals t obs) eqn:He.
  - destruct (HasSigned t s) eqn:Hs; [exists t; set_solver|].
    specialize (IH (S i) (Some i)). destruct (find_record _ _ _ _ _) as [r|].
    + destruct IH as [Hn Hr]. split; [intros t'; set_solver|]. right.
      destruct Hr as [[-> _]|(j & t' & -> & Hj & Ht')].
      * exists 0%nat, t. split; [f_equal; lia|done].
      * exists (S j), t'. split; [f_equal; lia|done].
    + destruct IH as (t' & Hin & Ht'). exists t'. set_solver.
  - assert (Hne : ¬ obs_eq t obs) by (unfold obs_eq; congruence).
    specialize (IH (S i) v). destruct (find_record _ _ _ _ _) as [r|].
    + destruct IH as [Hn Hr]. split; [intros t'; set_solver|].
      destruct Hr as [[-> Hr]|(j & t' & -> & Hj & Ht')]; [left|right].
      * split; [done|]. set_solver.
      * exists (S j), t'. split; [f_equal; lia|done].
    + destruct IH as (t' & Hin & Ht'). exists t'. set_solver.
Qed.

(** What [Add] promises of the voter it returns. *)
Record added (m m' : ObservedTxVoter) (obs : ObservedTx) (s : string) : Prop := {
  ad_ok : records_ok m';
  ad_frame : m' = set_ov_Txs (ov_Txs m') m;
  ad_votes : ∀ t x, voted m' t x ↔ voted m t x ∨ (obs_eq obs t ∧ x = s);
}.

(** The vote is added to a record equal to the observation. *)
Lemma added_signature m obs s j t :
  records_ok m → canonical s → ov_Txs m !! j = Some t → obs_eq t obs → s ∉ ot_Signers t →
  added m (set_ov_Txs (<[j := set_ot_Signers (ot_Signers t ++ [s])%list t]> (ov_Txs m)) m) obs s.
Proof.
  intros Hok Hs Hj Ht Hnew. assert (Hin : t ∈ ov_Txs m) by (by eapply list_elem_of_lookup_2).
  set (t' := set_ot_Signers _ t).
  assert (Hold : ∀ r, r ∈ <[j:=t']> (ov_Txs m) → r = t' ∨ r ∈ ov_Txs m).
  { intros r [k Hk]%list_elem_of_lookup. apply list_lookup_insert_Some in Hk as [(_ & <- & _)|[_ Hk]]; [by left|].
    right. by eapply list_elem_of_lookup_2. }
  assert (Hj' : t' ∈ <[j:=t']> (ov_Txs m)).
  { apply list_elem_of_lookup_2 with j. apply list_lookup_insert_eq. by eapply lookup_lt_Some. }
  constructor; [constructor; cbn|done|].
  - intros r x [->|Hr]%Hold Hx; [|by apply (ro_canonical m Hok r)].
    cbn in Hx. rewrite elem_of_app, list_elem_of_singleton in Hx. destruct Hx as [Hx|Hx]; [|by subst].
    by apply (ro_canonical m Hok t).
  - intros r [->|Hr]%Hold; [|by apply (ro_once m Hok)]. cbn. apply list.NoDup_app.
    split; [by apply (ro_once m Hok)|]. split; [set_solver|apply NoDup_singleton].
  - intros t0 x. unfold voted. cbn. split.
    + intros (r & [->|Hr]%Hold & Hre & Hrx); [|left; by exists r]. cbn in Hrx.
      assert (Htt : obs_eq t t0) by (etrans; [symmetry; apply obs_eq_signers|exact Hre]).
      rewrite elem_of_app, list_elem_of_singleton in Hrx. destruct Hrx as [Hx|Hx]; [left; by exists t|right].
      split; [|done]. etrans; [symmetry; exact Ht|done].
    + intros [(r & Hr & Hre & Hrx)|[Hre ->]].
      * apply list_elem_of_lookup in Hr as [k Hk]. destruct (decide (k = j)) as [->|Hne].
        -- rewrite Hj in Hk. injection Hk as <-. exists t'. split; [done|].
           split; [etrans; [apply obs_eq_signers|done]|]. cbn. set_solver.
        -- exists r. split; [|done]. apply list_elem_of_lookup_2 with k. by rewrite list_lookup_insert_ne.
      * exists t'. split; [done|]. split; [|cbn; set_solver].
        etrans; [apply obs_eq_signers|]. by etrans.
Qed.

(** The observation becomes a record of its own. *)
Lemma added_record m obs s :
  records_ok m → canonical s → added m (set_ov_Txs (ov_Txs m ++ [set_ot_Signers [s] obs])%list m) obs s.
Proof.
  intros Hok Hs. constructor; [constructor; cbn|done|].
  - intros r x. rewrite elem_of_app, list_elem_of_singleton. intros [Hr| ->]; [by apply (ro_canonical m Hok)|].
    cbn. by intros ->%list_elem_of_singleton.
  - intros r. rewrite elem_of_app, list_elem_of_singleton. intros [Hr| ->]; [by apply (ro_once m Hok)|].
    cbn. apply NoDup_singleton.
  - intros t0 x. unfold voted. cbn. setoid_rewrite elem_of_app. setoid_rewrite list_elem_of_singleton. split.
    + intros (r & [Hr| ->] & Hre & Hrx); [left; by exists r|right]. cbn in Hrx.
      apply list_elem_of_singleton in Hrx as ->. split; [|done].
      etrans; [symmetry; apply obs_eq_signers|exact Hre].
    + intros [(r & Hr & Hre & Hrx)|[Hre ->]]; [exists r; auto|].
      eexists. split; [by right|]. split; [|cbn; set_solver]. etrans; [apply obs_eq_signers|done].
Qed.

(** [Add] refuses a second vote for an equal record and records every other. *)
Lemma Voter_Add_spec m obs s :
  records_ok m → canonical s →
  let '(m', b) := Voter_Add m obs s in
  added m m' obs s ∧ (b = true ↔ ¬ voted m obs s) ∧ (b = false → m' = m).
Proof.
  intros Hok Hs. unfold Voter_Add. pose proof (find_record_spec obs s 0 (ov_Txs m) None) as Hf.
  destruct (find_record _ _ _ _ _) as [[i|]|].
  - destruct Hf as [Hno [[? _]|(j & t & Hij & Hj & Ht)]]; [done|]. cbn in Hij. simplify_eq.
    rewrite Hj. unfold Sign, add_signer. assert (Hin : t ∈ ov_Txs m) by (by eapply list_elem_of_lookup_2).
    pose proof (Hno t Hin Ht) as Hns. pose proof Hns as Hns'. unfold HasSigned in Hns'. rewrite Hns'.
    split; [|split; [|done]].
    + apply added_signature; try done. rewrite <- (has_signed m) by done. congruence.
    + split; [|done]. intros _ (r & Hr & Hre & Hrs). apply (has_signed m r s) in Hrs; [|done..].
      rewrite (Hno r Hr Hre) in Hrs. done.
  - destruct Hf as [_ [[_ Hno]|(j & t & Hij & _)]]; [|done].
    split; [by apply added_record|]. split; [|done]. split; [|done].
    intros _ (r & Hr & Hre & _). by apply (Hno r Hr).
  - destruct Hf as (t & Ht & Hte & Hts). assert (Hv : voted m obs s).
    { exists t. split; [done|]. split; [done|]. by apply (has_signed m). }
    split; [|by split]. constructor; [done|by destruct m|]. intros t0 x.
    split; [by left|]. intros [?|[Heq ->]]; [done|].
    destruct Hv as (r & Hr & Hre & Hrs). exists r. split; [done|]. split; [by etrans|done].
Qed.

(** ** The log of the reports, as specification *)

(** The voter that collects a log. *)
Definition collect_from (m : ObservedTxVoter) (l : log) : ObservedTxVoter :=
  foldl (λ m '(t, s), (Voter_Add m t s).1) m l.
Definition collect (txID : string) (l : log) : ObservedTxVoter := collect_from (NewObservedTxVoter txID []) l.

(** Who reported the transaction of [t] with a finality. *)
Definition tally (l : log) (nas : list NodeAccount) (final : bool) (t : ObservedTx) : list string :=
  remove_dups (List.filter (IsNodeKeys nas)
    (snd <$> List.filter (λ '(t', _), bool_decide (IsFinal t' = final) && Tx_EqualsEx (ot_Tx t) (ot_Tx t')) l)).
Definition agreed (l : log) (nas : list NodeAccount) (final : bool) (t : ObservedTx) : bool :=
  HasSuperMajority (len (tally l nas final t)) (len nas).

Definition log_ok (l : log) : Prop :=
  ∀ t s, (t, s) ∈ l → canonical s ∧ TxID_IsEmpty (tx_ID (ot_Tx t)) = false.

(** A voter stands for a log: the same votes, and only reported records. *)
Record stands_for (m : ObservedTxVoter) (l : log) : Prop := {
  sf_ok : records_ok m;
  sf_votes : ∀ t s, voted m t s ↔ ∃ t', (t', s) ∈ l ∧ obs_eq t' t;
  sf_records : ∀ r, r ∈ ov_Txs m → ∃ t s, (t, s) ∈ l ∧ r = set_ot_Signers (ot_Signers r) t;
}.

Lemma Voter_Add_records m obs s r :
  r ∈ ov_Txs (Voter_Add m obs s).1 →
  ∃ t, (t = obs ∨ t ∈ ov_Txs m) ∧ r = set_ot_Signers (ot_Signers r) t.
Proof.
  assert (Hself : ∀ r, r = set_ot_Signers (ot_Signers r) r) by by intros [].
  unfold Voter_Add. destruct (find_record _ _ _ _ _) as [[i|]|]; [| |by exists r; auto].
  - destruct (ov_Txs m !! i) as [t|] eqn:Hi; [|by exists r; auto]. unfold Sign.
    destruct (add_signer _ _) as [k b]. cbn. intros [j Hj]%list_elem_of_lookup.
    apply list_lookup_insert_Some in Hj as [(_ & <- & _)|[_ Hj]].
    + exists t. split; [right; by eapply list_elem_of_lookup_2|done].
    + exists r. split; [right; by eapply list_elem_of_lookup_2|done].
  - cbn. rewrite elem_of_app, list_elem_of_singleton. intros [Hr| ->]; [by exists r; auto|].
    exists obs. auto.
Qed.

Lemma stands_for_add m l t s :
  stands_for m l → canonical s → stands_for (Voter_Add m t s).1 (l ++ [(t, s)])%list.
Proof.
  intros [Hok Hv Hr] Hs. pose proof (Voter_Add_spec m t s Hok Hs) as Ha.
  pose proof (Voter_Add_records m t s) as Hrec. destruct (Voter_Add m t s) as [m' b]. cbn in *.
  destruct Ha as ([Hok' _ Hv'] & _). constructor; [done|..].
  - intros t0 x. rewrite Hv', Hv. setoid_rewrite elem_of_app. setoid_rewrite list_elem_of_singleton. naive_solver.
  - intros r (t0 & [->|Ht0] & Hrt)%Hrec.
    + exists t, s. split; [set_solver|done].
    + destruct (Hr t0 Ht0) as (t1 & s1 & Hin & Ht1). exists t1, s1. split; [set_solver|].
      rewrite Hrt, Ht1. done.
Qed.

Lemma collect_stands_for txID l : log_ok l → stands_for (collect txID l) l.
Proof.
  intros Hl. unfold collect. induction l as [|[t s] l IH] using rev_ind.
  - constructor; cbn; [constructor; cbn; set_solver| |set_solver]. intros t s. split; [intros (r & Hr & _)|intros (t' & Hr & _)]; set_solver.
  - unfold collect_from. rewrite foldl_app. cbn. apply stands_for_add; [apply IH|].
    + intros t' s' Hin. apply Hl. set_solver.
    + apply (Hl t s). set_solver.
Qed.

Lemma elem_of_filter_bool {A} (f : A → bool) l x : x ∈ List.filter f l ↔ x ∈ l ∧ f x = true.
Proof. rewrite !list_elem_of_In. apply List.filter_In. Qed.

Lemma elem_of_concat {A} (ls : list (list A)) x : x ∈ concat ls ↔ ∃ k, x ∈ k ∧ k ∈ ls.
Proof. setoid_rewrite list_elem_of_In. rewrite List.in_concat. naive_solver. Qed.

Lemma elem_of_tally l nas final t s :
  s ∈ tally l nas final t ↔
  IsNodeKeys nas s = true ∧ ∃ t', (t', s) ∈ l ∧ IsFinal t' = final ∧ tx_eq (ot_Tx t) (ot_Tx t').
Proof.
  unfold tally. rewrite elem_of_remove_dups, elem_of_filter_bool, list_elem_of_fmap.
  setoid_rewrite elem_of_filter_bool. split.
  - intros [([t' s'] & -> & Hin & Hb) Ha]. rewrite andb_true_iff, bool_decide_eq_true in Hb.
    split; [done|]. exists t'. naive_solver.
  - intros [Ha (t' & Hin & Hf & Ht)]. split; [|done]. exists (t', s). split; [done|]. split; [done|].
    rewrite andb_true_iff, bool_decide_eq_true. done.
Qed.

Lemma elem_of_voters m nas final t s :
  records_ok m →
  s ∈ voters m nas final t ↔
  IsNodeKeys nas s = true ∧ ∃ r, r ∈ ov_Txs m ∧ s ∈ ot_Signers r ∧ IsFinal r = final ∧ tx_eq (ot_Tx t) (ot_Tx r).
Proof.
  intros Hok. unfold voters. rewrite elem_of_remove_dups, elem_of_filter_bool, elem_of_concat.
  setoid_rewrite list_elem_of_fmap. setoid_rewrite elem_of_filter_bool.
  setoid_rewrite andb_true_iff. setoid_rewrite bool_decide_eq_true. split.
  - intros [(k & Hs & r & -> & Hr & Hf & Ht) Ha]. split; [done|]. exists r. split; [done|]. split; [|done].
    by rewrite <- (get_signers m).
  - intros [Ha (r & Hr & Hs & Hf & Ht)]. split; [|done]. exists (GetSigners r). split; [|by exists r].
    by rewrite (get_signers m).
Qed.

Lemma NoDup_len (l k : list string) : NoDup l → NoDup k → (∀ x, x ∈ l ↔ x ∈ k) → len l = len k.
Proof. intros Hl Hk He. unfold len. f_equal. by apply Permutation_length, NoDup_Permutation. Qed.

(** The voter counts, for every transaction, who reported it. *)
Lemma voters_tally m l nas final t :
  stands_for m l → len (voters m nas final t) = len (tally l nas final t).
Proof.
  intros [Hok Hv _]. apply NoDup_len; [apply NoDup_remove_dups..|]. intros s.
  rewrite elem_of_voters, elem_of_tally by done. split; intros [Ha (r & Hr)]; (split; [done|]).
  - destruct Hr as (Hr & Hs & Hf & Ht). destruct (proj1 (Hv r s)) as (t' & Hin & He); [by exists r|].
    exists t'. destruct (obs_eq_final _ _ He) as [Hfe Hte]. split; [done|]. split; [congruence|].
    etrans; [exact Ht|]. by symmetry.
  - destruct Hr as (Hr & Hf & Ht). destruct (proj2 (Hv r s)) as (t' & Hin & He & Hs); [by exists r|].
    exists t'. destruct (obs_eq_final _ _ He) as [Hfe Hte]. split_and!; [done|done|congruence|].
    etrans; [exact Ht|]. by symmetry.
Qed.

#[export] Instance tally_proper l nas final :
  Proper ((λ a b, tx_eq (ot_Tx a) (ot_Tx b)) ==> (λ x y, ∀ s, s ∈ x ↔ s ∈ y)) (tally l nas final).
Proof.
  intros a b Hab s. rewrite !elem_of_tally. split; intros [Ha (t' & Hin & Hf & Ht)]; (split; [done|]);
    exists t'; (split; [done|]); (split; [done|]); etrans; [|exact Ht| |exact Ht]; [by symmetry|done].
Qed.

Lemma agreed_proper l nas final a b :
  tx_eq (ot_Tx a) (ot_Tx b) → agreed l nas final a = agreed l nas final b.
Proof.
  intros Hab. unfold agreed. f_equal. apply NoDup_len; [apply NoDup_remove_dups..|].
  by apply tally_proper.
Qed.

Lemma blank_fold a b : ToUpper a = ToUpper b → blank a = blank b.
Proof. intros He. by rewrite <- (blank_upper a), He, blank_upper. Qed.

(** A record has a super-majority exactly when the reports of its transaction
    have one. *)
Lemma record_agreed m l nas final r :
  stands_for m l →
  (bool_decide (IsFinal r = final) && HasSuperMajority (len (voters m nas final r)) (len nas)) = true ↔
  IsFinal r = final ∧ agreed l nas final r = true.
Proof.
  intros Hm. unfold agreed. by rewrite andb_true_iff, bool_decide_eq_true, (voters_tally m l).
Qed.

Lemma getConsensusTx_spec m l nas final :
  stands_for m l → log_ok l →
  let c := getConsensusTx m nas final in
  (ObservedTx_IsEmpty c = false ↔
   ∃ t s, (t, s) ∈ l ∧ IsFinal t = final ∧ agreed l nas final t = true) ∧
  (ObservedTx_IsEmpty c = false →
   IsFinal c = final ∧ agreed l nas final c = true ∧
   ∃ t s, (t, s) ∈ l ∧ c = set_ot_Signers (ot_Signers c) t).
Proof.
  intros Hm Hl c. unfold c, getConsensusTx. destruct (List.find _ _) as [r|] eqn:Hf; cbn [default from_option id].
  - apply List.find_some in Hf as [Hin Hr]. rewrite <- list_elem_of_In in Hin.
    apply (record_agreed m l) in Hr as [Hfin Hag]; [|done].
    destruct (sf_records m l Hm r Hin) as (t & s & Hts & Hrt).
    assert (Hft : IsFinal t = final) by (rewrite <- Hfin, Hrt; done).
    assert (Hat : agreed l nas final t = true) by (rewrite <- Hag; apply agreed_proper; by rewrite Hrt).
    split; [|intros _; split; [done|split; [done|by exists t, s]]]. split; [by exists t, s|]. intros _.
    unfold ObservedTx_IsEmpty, Tx_IsEmpty. rewrite Hrt. cbn. by apply (Hl t s).
  - split; [|done]. split; [done|]. intros (t & s & Hts & Hft & Hat). exfalso.
    destruct (proj2 (sf_votes m l Hm t s)) as (r & Hr & He & _); [by exists t|].
    destruct (obs_eq_final _ _ He) as [Hfe Hte].
    apply (List.find_none _ _) with (x := r) in Hf; [|by rewrite <- list_elem_of_In].
    apply not_true_iff_false in Hf. apply Hf, (record_agreed m l); [done|].
    split; [congruence|]. rewrite <- Hat. by apply agreed_proper.
Qed.

(** C18: The voter refines the log of the reports: a report is accepted exactly when
    its signer has not reported an equal one before; a consensus transaction is
    found exactly when, for some reported transaction and finality, the active
    validators that reported it are a super-majority, each counted once; and
    what is found is such a transaction, as it was reported. *)
Theorem voter_refines_the_log txID l nas final :
  log_ok l →
  let m := collect txID l in
  let c := getConsensusTx m nas final in
  (∀ t s, canonical s → (Voter_Add m t s).2 = true ↔ ¬ ∃ t', (t', s) ∈ l ∧ obs_eq t' t) ∧
  (ObservedTx_IsEmpty c = false ↔
   ∃ t s, (t, s) ∈ l ∧ IsFinal t = final ∧ agreed l nas final t = true) ∧
  (ObservedTx_IsEmpty c = false →
   IsFinal c = final ∧ agreed l nas final c = true ∧
   ∃ t s, (t, s) ∈ l ∧ c = set_ot_Signers (ot_Signers c) t).
Proof.
  intros Hl m c. pose proof (collect_stands_for txID l Hl) as Hm. fold m in Hm. split.
  - intros t s Hs. pose proof (Voter_Add_spec m t s (sf_ok m l Hm) Hs) as Ha.
    destruct (Voter_Add m t s) as [m' b]. destruct Ha as (_ & Hb & _). cbn. rewrite Hb.
    by rewrite (sf_votes m l Hm).
  - by apply getConsensusTx_spec.
Qed.

(** Two super-majorities of the same validators share a third of them. *)
Lemma quorum_intersection (nas : list NodeAccount) (A B : list string) :
  NoDup (GetNodeAddresses nas) → NoDup A → NoDup B →
  (∀ s, s ∈ A → IsNodeKeys nas s = true) → (∀ s, s ∈ B → IsNodeKeys nas s = true) →
  HasSuperMajority (len A) (len nas) = true → HasSuperMajority (len B) (len nas) = true →
  len nas ≤ 3 * len (List.filter (λ s, bool_decide (s ∈ B)) A).
Proof.
  intros Hn HA HB HsA HsB H1A H1B. pose proof (len_nonneg nas).
  rewrite HasSuperMajority_spec in H1A, H1B by done.
  set (I := List.filter (λ s, bool_decide (s ∈ B)) A). set (D := List.filter (λ s, negb (bool_decide (s ∈ B))) A).
  assert (Hsplit : len A = len I + len D).
  { unfold I, D, len. clear. induction A as [|a A IH]; [done|]. cbn. case_bool_decide; cbn; lia. }
  assert (Hkeys : ∀ s, IsNodeKeys nas s = true → s ∈ GetNodeAddresses nas).
  { intros s. unfold IsNodeKeys, GetNodeAddresses. rewrite existsb_exists.
    intros (na & Hin & Hb). rewrite andb_true_iff, !bool_decide_eq_true in Hb. destruct Hb as [_ ->].
    apply list_elem_of_fmap. exists na. by rewrite list_elem_of_In. }
  assert (Hle : (length (D ++ B) ≤ length (GetNodeAddresses nas))%nat).
  { apply NoDup_incl_length.
    - apply NoDup_ListNoDup, list.NoDup_app. split; [apply NoDup_ListNoDup, List.NoDup_filter, NoDup_ListNoDup, HA|].
      split; [|done]. intros s. unfold D. rewrite elem_of_filter_bool, negb_true_iff, bool_decide_eq_false. tauto.
    - intros s. rewrite <- !list_elem_of_In, elem_of_app. intros [Hs|Hs]; apply Hkeys; [|by apply HsB].
      apply HsA. unfold D in Hs. apply elem_of_filter_bool in Hs. tauto. }
  assert (Hlen : len D + len B ≤ len nas).
  { unfold len, GetNodeAddresses in *. rewrite length_app, length_fmap in Hle. lia. }
  lia.
Qed.

(** C19: If two voters, with whatever reports each has seen, come to a consensus on
    two transactions, at least a third of the validators reported both: fewer
    dishonest ones cannot make honest nodes act on different transactions. *)
Theorem conflicting_consensus_needs_double_reports nas id1 id2 l1 l2 f1 f2 :
  NoDup (GetNodeAddresses nas) → log_ok l1 → log_ok l2 →
  let c1 := getConsensusTx (collect id1 l1) nas f1 in
  let c2 := getConsensusTx (collect id2 l2) nas f2 in
  ObservedTx_IsEmpty c1 = false → ObservedTx_IsEmpty c2 = false →
  len nas ≤ 3 * len (List.filter (λ s, bool_decide (s ∈ tally l2 nas f2 c2)) (tally l1 nas f1 c1)).
Proof.
  intros Hn Hl1 Hl2 c1 c2 Hc1 Hc2.
  destruct (getConsensusTx_spec _ _ nas f1 (collect_stands_for id1 l1 Hl1) Hl1) as [_ Hag1].
  destruct (getConsensusTx_spec _ _ nas f2 (collect_stands_for id2 l2 Hl2) Hl2) as [_ Hag2].
  destruct (Hag1 Hc1) as (_ & Ha1 & _). destruct (Hag2 Hc2) as (_ & Ha2 & _).
  apply quorum_intersection; try done; try apply NoDup_remove_dups;
    intros s; rewrite elem_of_tally; tauto.
Qed.

(** The first record keeps what the first report said. *)
Lemma collect_head txID t s l :
  ∃ k rest, ov_Txs (collect txID ((t, s) :: l)) = set_ot_Signers k t :: rest.
Proof.
  unfold collect. change (collect_from (NewObservedTxVoter txID []) ((t, s) :: l)) with
    (collect_from (set_ov_Txs [set_ot_Signers [s] t] (NewObservedTxVoter txID [])) l).
  assert (Hg : ∀ m, (∃ k rest, ov_Txs m = set_ot_Signers k t :: rest) →
    ∃ k rest, ov_Txs (collect_from m l) = set_ot_Signers k t :: rest); [|apply Hg; by eexists _, _].
  induction l as [|[t1 s1] l IH]; intros m (k & rest & Hm); [by exists k, rest|]. cbn. apply IH.
  unfold Voter_Add. destruct (find_record _ _ _ _ _) as [[i|]|]; [| |by exists k, rest].
  - rewrite Hm. destruct i as [|i]; cbn.
    + unfold Sign. destruct (add_signer _ _) as [k' b]. cbn. by eexists _, _.
    + destruct (rest !! i); [|by exists k, rest]. destruct (Sign _ _). cbn. by eexists _, _.
  - cbn. rewrite Hm. by eexists _, _.
Qed.

(** The record that is found is the first whose transaction has a super-majority,
    with the vault, the heights and the aggregator of whoever reported first:
    the votes counted for it may be for records that differ in all of these, so
    a single validator decides them. *)
Theorem first_report_decides_the_vault txID t s l nas :
  log_ok ((t, s) :: l) → agreed ((t, s) :: l) nas (IsFinal t) t = true →
  let c := getConsensusTx (collect txID ((t, s) :: l)) nas (IsFinal t) in
  c = set_ot_Signers (ot_Signers c) t ∧ ObservedPubKey c = ObservedPubKey t.
Proof.
  intros Hl Hag c. pose proof (collect_stands_for txID _ Hl) as Hm.
  destruct (collect_head txID t s l) as (k & rest & Hh).
  assert (Hc : c = set_ot_Signers k t).
  { unfold c, getConsensusTx. rewrite Hh. cbn [List.find].
    rewrite (proj2 (record_agreed _ _ nas (IsFinal t) (set_ot_Signers k t) Hm)); [done|].
    split; [done|]. rewrite <- Hag. by apply agreed_proper. }
  by rewrite Hc.
Qed.

(** Marking a voter reverted leaves the status of every record as it was. *)
Lemma SetReverted_leaves_records m :
  ot_Status <$> ov_Txs (SetReverted m) = ot_Status <$> ov_Txs m.
Proof. unfold SetReverted, setStatus. by destruct (ObservedTx_IsEmpty (ov_Tx m)). Qed.
End Observed.

(** ** Witnesses *)

#[local] Existing Instance plain_keys.

Fixpoint insert_by {A} (less : A → A → bool) (x : A) (l : list A) : list A :=
  match l with
  | [] => [x]
  | y :: r => if less x y then x :: y :: r else y :: insert_by less x r
  end.
Lemma insert_by_perm {A} (less : A → A → bool) x l : insert_by less x l ≡ₚ x :: l.
Proof. induction l as [|y r IH]; cbn; [done|]. case_match; [done|]. rewrite IH. constructor. Qed.

(** Insertion sort, which Go uses for short slices. *)
Program Definition insertion_sort : SortSlice :=
  {| sort_slice A less l := foldr (insert_by less) [] l |}.
Next Obligation.
  intros A less l. induction l as [|x l IH]; cbn; [done|]. by rewrite insert_by_perm, IH.
Qed.
#[local] Existing Instance insertion_sort.

Definition node (addr : string) : NodeAccount :=
  NewNodeAccount addr NodeActive (mkPubKeySet "" "") "" 0 addr 1.
Definition three_nodes : list NodeAccount := [node "alice"; node "bob"; node "mallory"].
Definition btc_tx (memo : string) : Tx :=
  mkTx "1111111111111111111111111111111111111111111111111111111111111111" BTCChain "bc1from" "bc1to"
    [NewCoin BTCAsset 100] [NewCoin BTCAsset 10] memo.
Definition report (memo vault : string) : ObservedTx := NewObservedTx (btc_tx memo) 7 vault 7.
Definition honest_log : log :=
  [(report "swap" "vault", "alice"); (report "swap" "vault", "mallory"); (report "swap" "vault", "bob")].
Definition forged_log : log :=
  [(report "other" "vault", "mallory"); (report "other" "vault", "bob")].

Ltac log_ok_tac :=
  intros t s Hin; apply list_elem_of_In in Hin;
  repeat (destruct Hin as [[= <- <-]|Hin]; [split; reflexivity|]); destruct Hin.

Lemma honest_log_ok : log_ok honest_log.
Proof. log_ok_tac. Qed.
Lemma forged_log_ok : log_ok forged_log.
Proof. log_ok_tac. Qed.

Lemma voter_refines_the_log_witness :
  let c := getConsensusTx (collect "id" honest_log) three_nodes true in
  IsFinal c = true ∧ agreed honest_log three_nodes true c = true.
Proof.
  cbn zeta. destruct (voter_refines_the_log "id" honest_log three_nodes true honest_log_ok) as (_ & _ & Hc).
  assert (He : ObservedTx_IsEmpty (getConsensusTx (collect "id" honest_log) three_nodes true) = false)
    by (vm_compute; reflexivity).
  destruct (Hc He) as (Hf & Ha & _). split; [exact Hf|exact Ha].
Defined.

Lemma conflicting_consensus_needs_double_reports_witness :
  let c1 := getConsensusTx (collect "id" honest_log) three_nodes true in
  let c2 := getConsensusTx (collect "id" forged_log) three_nodes true in
  3 ≤ 3 * len (List.filter (λ s, bool_decide (s ∈ tally forged_log three_nodes true c2))
                 (tally honest_log three_nodes true c1)).
Proof.
  apply (conflicting_consensus_needs_double_reports three_nodes "id" "id" honest_log forged_log true true).
  - vm_compute. repeat constructor; set_solver.
  - exact honest_log_ok.
  - exact forged_log_ok.
  - vm_compute. reflexivity.
  - vm_compute. reflexivity.
Defined.

(** Mallory alone reports another vault, before the others. *)
Definition first_log : log :=
  [(report "swap" "mallory's vault", "mallory"); (report "swap" "vault", "alice"); (report "swap" "vault", "bob")].

Lemma first_report_decides_the_vault_witness :
  ObservedPubKey (getConsensusTx (collect "id" first_log) three_nodes true) = "mallory's vault" ∧
  ot_Signers (getConsensusTx (collect "id" first_log) three_nodes true) = ["mallory"].
Proof.
  split; [|vm_compute; reflexivity].
  apply (first_report_decides_the_vault "id" (report "swap" "mallory's vault") "mallory"
    [(report "swap" "vault", "alice"); (report "swap" "vault", "bob")] three_nodes).
  - log_ok_tac.
  - vm_compute. reflexivity.
Defined.
