(* ===== verification/Attest.v ===== *)
(** * Attestations

    The reports of the validators, one attester at a time:
    processTxInAttestation and processTxOutAttestation of
    src/x/switchly/handler_observed_tx_helpers.go,
    processNetworkFeeAttestation of handler_network_fee_helpers.go, the network
    fee handlers, and what they keep: slash points (keeper_node_account.go,
    manager_slasher_current.go), observed heights (keeper_last_height.go) and
    voters (keeper_txin.go, keeper_observed_network_fee_voter.go,
    keeper_network_fee.go).  These keys of the store are a record of their own,
    around the part the other components use. *)

From stdpp Require Import pretty sorting.
From S2P Require Import Prelude CosmosMath GoStrings Assets Coins State Constants Txs MemoTypes MemoParser Nodes Quorum ObservedTx.
Open Scope Z_scope.

Record NetworkFee := mkNetworkFee {
  fee_Chain : Chain;
  TransactionSize : Z;
  TransactionFeeRate : Z;
}.

Record MsgNetworkFee := mkMsgNetworkFee {
  mf_BlockHeight : Z;
  mf_Chain : Chain;
  mf_TransactionSize : Z;
  mf_TransactionFeeRate : Z;
  mf_Signer : string;
}.

Record Attestation := mkAttestation { att_PubKey : string; att_Signature : string }.

(** secp256k1 keys and signatures, and the bytes of a network fee that are
    signed. *)
Class Signatures := {
  Bech32ifyPubKey : string → outcome string;
  VerifySignature : string → string → string → bool;
  PubKey_Address : string → string;
  fee_payload : MsgNetworkFee → outcome string;
}.

Section Attest.
  Context `{CosmosMath} `{Bank} `{Env} `{!PubKeys} `{!SortSlice} `{!Signatures}.

Record ObsState := mkObs {
  core : State;
  nodeAccounts : gmap string NodeAccount;
  slashPoints : gmap string Z;
  lastObserve : gmap string Z;
  txInVoters : gmap string ObservedTxVoter;
  txOutVoters : gmap string ObservedTxVoter;
  observedLinks : gmap string (list string);
  feeVoters : gmap string NetworkFeeVoter;
  networkFees : gmap string NetworkFee;
}.
Abbreviation O := (M ObsState).

Definition put_core (v : State) (r : ObsState) : ObsState :=
  mkObs v (nodeAccounts r) (slashPoints r) (lastObserve r) (txInVoters r) (txOutVoters r) (observedLinks r) (feeVoters r) (networkFees r).
Definition put_nodeAccounts (v : gmap string NodeAccount) (r : ObsState) : ObsState :=
  mkObs (core r) v (slashPoints r) (lastObserve r) (txInVoters r) (txOutVoters r) (observedLinks r) (feeVoters r) (networkFees r).
Definition put_slashPoints (v : gmap string Z) (r : ObsState) : ObsState :=
  mkObs (core r) (nodeAccounts r) v (lastObserve r) (txInVoters r) (txOutVoters r) (observedLinks r) (feeVoters r) (networkFees r).
Definition put_lastObserve (v : gmap string Z) (r : ObsState) : ObsState :=
  mkObs (core r) (nodeAccounts r) (slashPoints r) v (txInVoters r) (txOutVoters r) (observedLinks r) (feeVoters r) (networkFees r).
Definition put_txInVoters (v : gmap string ObservedTxVoter) (r : ObsState) : ObsState :=
  mkObs (core r) (nodeAccounts r) (slashPoints r) (lastObserve r) v (txOutVoters r) (observedLinks r) (feeVoters r) (networkFees r).
Definition put_txOutVoters (v : gmap string ObservedTxVoter) (r : ObsState) : ObsState :=
  mkObs (core r) (nodeAccounts r) (slashPoints r) (lastObserve r) (txInVoters r) v (observedLinks r) (feeVoters r) (networkFees r).
Definition put_observedLinks (v : gmap string (list string)) (r : ObsState) : ObsState :=
  mkObs (core r) (nodeAccounts r) (slashPoints r) (lastObserve r) (txInVoters r) (txOutVoters r) v (feeVoters r) (networkFees r).
Definition put_feeVoters (v : gmap string NetworkFeeVoter) (r : ObsState) : ObsState :=
  mkObs (core r) (nodeAccounts r) (slashPoints r) (lastObserve r) (txInVoters r) (txOutVoters r) (observedLinks r) v (networkFees r).
Definition put_networkFees (v : gmap string NetworkFee) (r : ObsState) : ObsState :=
  mkObs (core r) (nodeAccounts r) (slashPoints r) (lastObserve r) (txInVoters r) (txOutVoters r) (observedLinks r) (feeVoters r) v.

(** What the other components do to their part of the store. *)
Definition in_core {A} (m : K A) : O A := λ s, let '(r, c) := m (core s) in (r, put_core c s).

(** ** Node accounts and slash points *)

Definition ListValidatorsByStatus (status : NodeStatus) : O (list NodeAccount) :=
  gets (λ s, List.filter (λ na, bool_decide (na_Type na = TypeValidator) && bool_decide (na_Status na = status))
               (snd <$> merge_sort key_le (map_to_list (nodeAccounts s)))).
Definition ListActiveValidators : O (list NodeAccount) := ListValidatorsByStatus NodeActive.

Definition GetNodeAccount (ctx : Ctx) (addr : string) : O NodeAccount :=
  gets (λ s, default (NewNodeAccount addr NodeUnknown (mkPubKeySet "" "") "" 0 "" (BlockHeight ctx))
               (nodeAccounts s !! GetKey addr)).

Definition GetNodeAccountSlashPoints (addr : string) : O Z :=
  gets (λ s, default 0 (slashPoints s !! GetKey addr)).
Definition SetNodeAccountSlashPoints (addr : string) (pts : Z) : O () :=
  modify (λ s, put_slashPoints (<[GetKey addr := if pts <? 0 then 0 else pts]> (slashPoints s)) s).
Definition ResetNodeAccountSlashPoints (addr : string) : O () :=
  modify (λ s, put_slashPoints (delete (GetKey addr) (slashPoints s)) s).
Definition IncNodeAccountSlashPoints (addr : string) (pts : Z) : O () :=
  current ← GetNodeAccountSlashPoints addr;
  SetNodeAccountSlashPoints addr (to_i64 (current + pts)).
Definition DecNodeAccountSlashPoints (addr : string) (pts : Z) : O () :=
  current ← GetNodeAccountSlashPoints addr;
  SetNodeAccountSlashPoints addr (to_i64 (current - pts)).

Definition SetNodeAccount (ctx : Ctx) (na : NodeAccount) : O () :=
  if NodeAccount_IsEmpty na then mret ()
  else
    let first := bool_decide (na_Status na = NodeActive) && (ActiveBlockHeight na =? 0) in
    let na := if first then set_status (na_Status na) (StatusSince na) (BlockHeight ctx) na else na in
    _ ← (if first then ResetNodeAccountSlashPoints (NodeAddress na) else mret ());
    modify (λ s, put_nodeAccounts (<[GetKey (NodeAddress na) := na]> (nodeAccounts s)) s).

(** [SlasherVCUR] *)
Definition IncSlashPoints (point : Z) (addresses : list string) : O () :=
  for_each (λ addr, IncNodeAccountSlashPoints addr point) addresses.
Definition DecSlashPoints (point : Z) (addresses : list string) : O () :=
  for_each (λ addr, DecNodeAccountSlashPoints addr point) addresses.

(** ** Signers of messages *)

Definition signedByActiveNodeAccount (ctx : Ctx) (signer : string) : O bool :=
  na ← GetNodeAccount ctx signer;
  mret (negb (NodeAccount_IsEmpty na) && bool_decide (na_Status na = NodeActive) &&
        bool_decide (na_Type na = TypeValidator)).

Fixpoint all_active (ctx : Ctx) (signers : list string) : O bool :=
  match signers with
  | [] => mret true
  | signer :: r =>
      if bool_decide (signer = module_address AsgardName) then all_active ctx r
      else
        ok ← signedByActiveNodeAccount ctx signer;
        if ok : bool then all_active ctx r else mret false
  end.
Definition isSignedByActiveNodeAccounts (ctx : Ctx) (signers : list string) : O bool :=
  match signers with [] => mret false | _ => all_active ctx signers end.

(** ** Heights and voters *)

(** The chain is added to the key after it was upper-cased. *)
Definition SetLastObserveHeight (c : Chain) (addr : string) (height : Z) : O () :=
  let key := GetKey addr +:+ "/" +:+ Chains.Str c in
  last ← gets (λ s, lastObserve s !! key);
  match last with
  | Some h => if height <? h then mret () else modify (λ s, put_lastObserve (<[key := height]> (lastObserve s)) s)
  | None => modify (λ s, put_lastObserve (<[key := height]> (lastObserve s)) s)
  end.

Definition GetObservedTxInVoter (hash : string) : O ObservedTxVoter :=
  gets (λ s, default (NewObservedTxVoter hash []) (txInVoters s !! GetKey hash)).
Definition SetObservedTxInVoter (v : ObservedTxVoter) : O () :=
  modify (λ s, put_txInVoters (<[GetKey (ov_TxID v) := v]> (txInVoters s)) s).
Definition GetObservedTxOutVoter (hash : string) : O ObservedTxVoter :=
  gets (λ s, default (NewObservedTxVoter hash []) (txOutVoters s !! GetKey hash)).
Definition SetObservedTxOutVoter (v : ObservedTxVoter) : O () :=
  modify (λ s, put_txOutVoters (<[GetKey (ov_TxID v) := v]> (txOutVoters s)) s).

Definition SetObservedLink (inhash outhash : string) : O () :=
  let key := GetKey inhash in
  record ← gets (λ s, default [] (observedLinks s !! key));
  if bool_decide (outhash ∈ record) then mret ()
  else modify (λ s, put_observedLinks (<[key := (record ++ [outhash])%list]> (observedLinks s)) s).

(** ** Observed transactions *)

(** The attester that brings the consensus: the signers are given their points
    back and those who have not signed get theirs. *)
Definition settle_consensus (voter : ObservedTxVoter) (nas : list NodeAccount)
    (observeSlashPoints lackOfObservationPenalty : Z) : O () :=
  let signers := GetConsensusSigners voter in
  _ ← DecSlashPoints observeSlashPoints signers;
  IncSlashPoints lackOfObservationPenalty (getNonSigners nas signers).

(** A report of the consensus transaction, somewhat late. *)
Definition late (ctx : Ctx) (voter : ObservedTxVoter) (tx : ObservedTx) (signer : string)
    (since observeFlex : Z) : bool :=
  (BlockHeight ctx <=? to_i64 (since + observeFlex)) &&
  Bool.eqb (IsFinal (ov_Tx voter)) (IsFinal tx) &&
  Tx_EqualsEx (ot_Tx (ov_Tx voter)) (ot_Tx tx) && negb (HasSigned (ov_Tx voter) signer).
Definition add_late (voter : ObservedTxVoter) (signer : string) : ObservedTxVoter :=
  set_ov_Tx (set_ot_Signers (ot_Signers (ov_Tx voter) ++ [signer])%list (ov_Tx voter)) voter.

Definition attest_points : O (Z * Z * Z) :=
  in_core (observeFlex ← GetConfigInt64 "ObservationDelayFlexibility";
           mret (GetInt64Value int64Overrides "ObserveSlashPoints",
                 GetInt64Value int64Overrides "LackOfObservationPenalty", observeFlex)).

(** The finalised consensus of an inbound transaction. *)
Definition finalise_in (ctx : Ctx) (voter : ObservedTxVoter) (nas : list NodeAccount) (tx : ObservedTx)
    (signer : string) (points penalty flex : Z) : O (ObservedTxVoter * bool) :=
  if HasFinalised voter nas then
    if FinalisedHeight voter =? 0 then
      let voter := set_heights (BlockHeight ctx) (BlockHeight ctx) voter in
      let voter := set_ov_Tx (GetTx voter nas) voter in
      _ ← settle_consensus voter nas points penalty;
      mret (voter, true)
    else if late ctx voter tx signer (FinalisedHeight voter) flex then
      _ ← DecSlashPoints (to_i64 (points + penalty)) [signer];
      mret (add_late voter signer, false)
    else mret (voter, false)
  else mret (voter, false).

(** The consensus of a transaction that is not final yet. *)
Definition discover (ctx : Ctx) (voter : ObservedTxVoter) (nas : list NodeAccount) (tx : ObservedTx)
    (signer : string) (points penalty flex : Z) (ok : bool) : O (ObservedTxVoter * bool) :=
  if negb ok && HasConsensus voter nas && negb (IsFinal tx) && (FinalisedHeight voter =? 0) then
    if ov_Height voter =? 0 then
      let voter := set_heights (BlockHeight ctx) (FinalisedHeight voter) voter in
      let voter := set_ov_Tx (GetTx voter nas) voter in
      _ ← settle_consensus voter nas points penalty;
      mret (voter, true)
    else if late ctx voter tx signer (ov_Height voter) flex then
      _ ← DecSlashPoints (to_i64 (points + penalty)) [signer];
      mret (add_late voter signer, ok)
    else mret (voter, ok)
  else mret (voter, ok).

(** The height of the observation, the points of the observer, and the vote. *)
Definition observe (tx : ObservedTx) (signer : string) (voter : ObservedTxVoter)
    (shouldSlashForDuplicate : bool) (points : Z) : O (ObservedTxVoter * bool) :=
  _ ← SetLastObserveHeight (tx_Chain (ot_Tx tx)) signer (ot_BlockHeight tx);
  _ ← IncSlashPoints points [signer];
  let '(voter, added) := Voter_Add voter tx signer in
  _ ← (if negb added && negb shouldSlashForDuplicate then DecSlashPoints points [signer] else mret ());
  mret (voter, added).

Definition processTxInAttestation (ctx : Ctx) (voter : ObservedTxVoter) (nas : list NodeAccount)
    (tx : ObservedTx) (signer : string) (shouldSlashForDuplicate : bool) : O (ObservedTxVoter * bool) :=
  '(points, penalty, flex) ← attest_points;
  '(voter, added) ← observe tx signer voter shouldSlashForDuplicate points;
  if negb added then mret (voter, false)
  else
    '(voter, ok) ← finalise_in ctx voter nas tx signer points penalty flex;
    '(voter, ok) ← discover ctx voter nas tx signer points penalty flex ok;
    _ ← SetObservedTxInVoter voter;
    mret (voter, ok).

(** The finalised consensus of an outbound transaction: acted on only when it
    was not discovered before. *)
Definition finalise_out (ctx : Ctx) (voter : ObservedTxVoter) (nas : list NodeAccount) (tx : ObservedTx)
    (signer : string) (points penalty flex : Z) : O (ObservedTxVoter * bool) :=
  if HasFinalised voter nas then
    if FinalisedHeight voter =? 0 then
      let ok := ov_Height voter =? 0 in
      let voter := set_heights (if ok then BlockHeight ctx else ov_Height voter) (BlockHeight ctx) voter in
      let voter := set_ov_Tx (GetTx voter nas) voter in
      _ ← settle_consensus voter nas points penalty;
      mret (voter, ok)
    else if late ctx voter tx signer (FinalisedHeight voter) flex then
      _ ← DecSlashPoints (to_i64 (points + penalty)) [signer];
      mret (add_late voter signer, false)
    else mret (voter, false)
  else mret (voter, false).

(** The outbound is linked to the inbound its memo names. *)
Definition link_outbound (ctx : Ctx) (tx : ObservedTx) : O () :=
  '(memo, e) ← in_core (read_memo ctx (Memo (ot_Tx tx)));
  match e with
  | None => if TxID_IsEmpty (GetTxID memo) then mret () else SetObservedLink (GetTxID memo) (tx_ID (ot_Tx tx))
  | Some _ => mret ()
  end.

Definition processTxOutAttestation (ctx : Ctx) (voter : ObservedTxVoter) (nas : list NodeAccount)
    (tx : ObservedTx) (signer : string) (shouldSlashForDuplicate : bool) : O (ObservedTxVoter * bool) :=
  '(points, penalty, flex) ← attest_points;
  '(voter, added) ← observe tx signer voter shouldSlashForDuplicate points;
  if negb added then mret (voter, false)
  else
    _ ← link_outbound ctx tx;
    '(voter, ok) ← finalise_out ctx voter nas tx signer points penalty flex;
    '(voter, ok) ← discover ctx voter nas tx signer points penalty flex ok;
    _ ← SetObservedTxOutVoter voter;
    mret (voter, ok).

(** ** Network fees *)

(** The key of a voter: two fees of a chain and height have different voters. *)
Definition NetworkFee_ID (m : NetworkFeeVoter) : string :=
  Chains.Str (nf_Chain m) +:+ "-" +:+ pretty (nf_ReportBlockHeight m) +:+ "-" +:+
  pretty (nf_FeeRate m) +:+ "-" +:+ pretty (nf_TransactionSize m).

Definition SetObservedNetworkFeeVoter (v : NetworkFeeVoter) : O () :=
  modify (λ s, put_feeVoters (<[GetKey (NetworkFee_ID v) := v]> (feeVoters s)) s).
Definition GetObservedNetworkFeeVoter (height : Z) (c : Chain) (rate size : Z) : O NetworkFeeVoter :=
  let record := mkNetworkFeeVoter 0 height c [] (if 0 <? rate then rate else 0) (if 0 <? size then size else 0) in
  gets (λ s, default record (feeVoters s !! GetKey (NetworkFee_ID record))).

Definition NetworkFee_Valid (m : NetworkFee) : option error :=
  if Chains.IsEmpty (fee_Chain m) then Some "chain can't be empty"
  else if TransactionSize m <=? 0 then Some "transaction size can't be zero or negative"
  else if TransactionFeeRate m <=? 0 then Some "transaction fee rate can't be zero"
  else None.
Definition SaveNetworkFee (c : Chain) (fee : NetworkFee) : O () :=
  _ ← check (NetworkFee_Valid fee);
  modify (λ s, put_networkFees (<[GetKey (Chains.Str c) := fee]> (networkFees s)) s).

Definition set_nf_BlockHeight (h : Z) (m : NetworkFeeVoter) : NetworkFeeVoter :=
  mkNetworkFeeVoter h (nf_ReportBlockHeight m) (nf_Chain m) (nf_Signers m) (nf_FeeRate m) (nf_TransactionSize m).

(** The caller keeps the voter also when the fee cannot be saved. *)
Definition processNetworkFeeAttestation (ctx : Ctx) (voter : NetworkFeeVoter) (attester : string)
    (active : list NodeAccount) (nf : MsgNetworkFee) (shouldSlashForDuplicate : bool)
    : O (NetworkFeeVoter * option error) :=
  '(points, penalty, flex) ← attest_points;
  let '(voter, signed) := NetworkFee_Sign voter attester in
  if negb signed then
    _ ← (if shouldSlashForDuplicate : bool then IncSlashPoints points [attester] else mret ());
    mret (voter, None)
  else if negb (NetworkFee_HasConsensus voter active) then
    _ ← IncSlashPoints points [attester];
    mret (voter, None)
  else if 0 <? nf_BlockHeight voter then
    _ ← (if BlockHeight ctx <=? to_i64 (nf_BlockHeight voter + flex)
         then DecSlashPoints penalty [attester] else mret ());
    mret (voter, None)
  else
    let voter := set_nf_BlockHeight (BlockHeight ctx) voter in
    _ ← IncSlashPoints points [attester];
    let signers := signers_of (nf_Signers voter) in
    _ ← DecSlashPoints points signers;
    _ ← IncSlashPoints penalty (getNonSigners active signers);
    r ← attempt (SaveNetworkFee (mf_Chain nf)
                   (mkNetworkFee (mf_Chain nf) (mf_TransactionSize nf) (mf_TransactionFeeRate nf)));
    mret (voter, match r with inl _ => None | inr e => Some e end).

Definition MsgNetworkFee_ValidateBasic (m : MsgNetworkFee) : option error :=
  if mf_BlockHeight m <=? 0 then Some "block height can't be negative, or zero"
  else if bool_decide (mf_Signer m = "") then Some "invalid address"
  else if Chains.IsEmpty (mf_Chain m) then Some "chain can't be empty"
  else if mf_TransactionSize m <=? 0 then Some "invalid transaction size"
  else if mf_TransactionFeeRate m <=? 0 then Some "invalid transaction fee rate"
  else None.

Definition network_fee_validate (ctx : Ctx) (msg : MsgNetworkFee) : O () :=
  _ ← check (MsgNetworkFee_ValidateBasic msg);
  ok ← isSignedByActiveNodeAccounts ctx [mf_Signer msg];
  fail_when (negb ok) "not authorized".

(** The voter is saved when the handler returns, with or without an error. *)
Definition network_fee_handle (ctx : Ctx) (msg : MsgNetworkFee) : O () :=
  active ← ListActiveValidators;
  voter ← GetObservedNetworkFeeVoter (mf_BlockHeight msg) (mf_Chain msg)
            (to_i64 (mf_TransactionFeeRate msg)) (to_i64 (mf_TransactionSize msg));
  '(voter, e) ← processNetworkFeeAttestation ctx voter (mf_Signer msg) active msg true;
  _ ← SetObservedNetworkFeeVoter voter;
  check e.
Definition network_fee_Run (ctx : Ctx) (msg : MsgNetworkFee) : O () :=
  _ ← network_fee_validate ctx msg; network_fee_handle ctx msg.

(** ** Network fees with the attestations of many *)

(** The attester's key is that of an active validator and signed the bytes. *)
Definition verifyQuorumAttestation (activeNodeAccounts : list NodeAccount) (signBz : string)
    (att : option Attestation) : outcome string :=
  match att with
  | None => Err "attestation is nil"
  | Some att =>
      if (String.length (att_PubKey att) =? 0)%nat then Err "pubkey is empty"
      else if (String.length (att_Signature att) =? 0)%nat then Err "signature is empty"
      else
        bech32Pub ← Bech32ifyPubKey (att_PubKey att);
        if negb (existsb (λ v, bool_decide (bech32Pub = Secp256k1 (na_PubKeySet v))) activeNodeAccounts)
        then Err "signer is not an active node account"
        else if negb (VerifySignature (att_PubKey att) signBz (att_Signature att))
        then Err "failed to verify signature"
        else Ok (PubKey_Address (att_PubKey att))
  end.

Fixpoint attest_all (ctx : Ctx) (active : list NodeAccount) (nf : MsgNetworkFee) (signBz : string)
    (atts : list (option Attestation)) (voter : NetworkFeeVoter) : O NetworkFeeVoter :=
  match atts with
  | [] => mret voter
  | att :: r =>
      match verifyQuorumAttestation active signBz att with
      | Ok accAddr =>
          '(voter, _) ← processNetworkFeeAttestation ctx voter accAddr active nf false;
          attest_all ctx active nf signBz r voter
      | Err _ => attest_all ctx active nf signBz r voter
      | Panic => lift Panic
      end
  end.

(** The fee of a quorum message, whose signer is the proposer. *)
Definition network_fee_quorum_handle (ctx : Ctx) (nf : MsgNetworkFee) (atts : list (option Attestation)) : O () :=
  active ← ListActiveValidators;
  voter ← GetObservedNetworkFeeVoter (mf_BlockHeight nf) (mf_Chain nf)
            (to_i64 (mf_TransactionFeeRate nf)) (to_i64 (mf_TransactionSize nf));
  match fee_payload nf with
  | Ok signBz =>
      voter ← attest_all ctx active nf signBz atts voter;
      SetObservedNetworkFeeVoter voter
  | Err _ => SetObservedNetworkFeeVoter voter
  | Panic => lift Panic
  end.
Definition network_fee_quorum_Run (ctx : Ctx) (nf : MsgNetworkFee) (atts : list (option Attestation)) : O () :=
  _ ← check (MsgNetworkFee_ValidateBasic nf);
  network_fee_quorum_handle ctx nf atts.

(** ** Facts *)

Definition voters_of (s : ObsState) : gmap string ObservedTxVoter * gmap string ObservedTxVoter :=
  (txInVoters s, txOutVoters s).

(** Steps that leave the voters alone. *)
Definition keeps_voters {A} (m : O A) : Prop := ∀ s r s', m s = (Ok r, s') → voters_of s' = voters_of s.

Lemma keeps_voters_for_each {A} (f : A → O ()) l : (∀ x, keeps_voters (f x)) → keeps_voters (for_each f l).
Proof.
  intros Hf. induction l as [|x l IH]; intros s r s' Hok; cbn in Hok.
  - by apply ret_ok in Hok as [_ ->].
  - run_step Hok u s1 E. apply Hf in E. apply IH in Hok. congruence.
Qed.

Lemma keeps_points (f : string → Z → O ()) pts l :
  (∀ addr pts, keeps_voters (f addr pts)) → keeps_voters (for_each (λ addr, f addr pts) l).
Proof. intros Hf. apply keeps_voters_for_each. auto. Qed.

Lemma set_points_keeps g addr :
  keeps_voters (current ← GetNodeAccountSlashPoints addr; SetNodeAccountSlashPoints addr (g current)).
Proof. intros s r s' Hok. run_step Hok z s1 E. apply gets_ok in E as [-> ->]. by apply modify_ok in Hok as ->. Qed.

Lemma IncSlashPoints_keeps pts l : keeps_voters (IncSlashPoints pts l).
Proof. apply (keeps_points IncNodeAccountSlashPoints). intros addr p. apply (set_points_keeps (λ c, to_i64 (c + p))). Qed.
Lemma DecSlashPoints_keeps pts l : keeps_voters (DecSlashPoints pts l).
Proof. apply (keeps_points DecNodeAccountSlashPoints). intros addr p. apply (set_points_keeps (λ c, to_i64 (c - p))). Qed.

Lemma settle_keeps voter nas a b : keeps_voters (settle_consensus voter nas a b).
Proof.
  intros s r s' Hok. unfold settle_consensus in Hok. run_step Hok u s1 E.
  apply DecSlashPoints_keeps in E. apply IncSlashPoints_keeps in Hok. congruence.
Qed.

Lemma in_core_keeps {A} (m : K A) : keeps_voters (in_core m).
Proof. intros s r s' Hok. unfold in_core in Hok. destruct (m (core s)) as [o c]. by injection Hok as _ <-. Qed.

Lemma SetLastObserveHeight_keeps c a h : keeps_voters (SetLastObserveHeight c a h).
Proof.
  intros s r s' Hok. unfold SetLastObserveHeight in Hok. run_step Hok o s1 E. apply gets_ok in E as [-> ->].
  run_case Hok; [run_case Hok|]; by run_inv.
Qed.

Lemma link_outbound_keeps ctx tx : keeps_voters (link_outbound ctx tx).
Proof.
  intros s r s' Hok. unfold link_outbound in Hok. run_step Hok o s1 E.
  apply in_core_keeps in E. destruct o as [m [e|]]; [by run_inv|].
  run_case Hok; [by run_inv|]. unfold SetObservedLink in Hok.
  run_step Hok l s2 E1. apply gets_ok in E1 as [-> ->]. run_case Hok; by run_inv.
Qed.

(** Identity, heights: what a step does to a voter besides its records. *)
Definition same_stage (v v' : ObservedTxVoter) : Prop :=
  ov_TxID v' = ov_TxID v ∧ ov_Height v' = ov_Height v ∧ FinalisedHeight v' = FinalisedHeight v.

Lemma Voter_Add_stage v tx s : same_stage v (Voter_Add v tx s).1.
Proof.
  unfold Voter_Add. repeat case_match; cbn; simplify_eq; split_and!; done.
Qed.

Lemma observe_ok tx signer v dup points s v' added s' :
  observe tx signer v dup points s = (Ok (v', added), s') →
  voters_of s' = voters_of s ∧ same_stage v v' ∧ Voter_Add v tx signer = (v', added).
Proof.
  intros Hok. unfold observe in Hok. run_step Hok u s1 E. apply SetLastObserveHeight_keeps in E.
  run_step Hok u1 s2 E1. apply IncSlashPoints_keeps in E1.
  pose proof (Voter_Add_stage v tx signer) as Hst. destruct (Voter_Add v tx signer) as [v1 a].
  run_step Hok u2 s3 E2.
  assert (voters_of s3 = voters_of s2) by (run_case E2; [by apply DecSlashPoints_keeps in E2|by run_inv]).
  apply ret_ok in Hok as [[= -> ->] ->]. split; [congruence|]. by split.
Qed.

(** How far an inbound transaction has come. *)
Definition stage (v : ObservedTxVoter) : nat :=
  if FinalisedHeight v =? 0 then (if ov_Height v =? 0 then 0 else 1) else 2.

Lemma finalise_in_ok ctx v nas tx signer a b c s v' ok s' :
  BlockHeight ctx ≠ 0 → finalise_in ctx v nas tx signer a b c s = (Ok (v', ok), s') →
  voters_of s' = voters_of s ∧ ov_TxID v' = ov_TxID v ∧
  (if ok then (stage v < 2)%nat ∧ stage v' = 2%nat else same_stage v v').
Proof.
  intros Hh Hok. unfold finalise_in in Hok.
  assert (Hsame : same_stage v v) by done. run_case Hok; [|by apply ret_ok in Hok as [[= -> ->] ->]]. run_case Hok.
  - run_step Hok u s1 E. apply settle_keeps in E. apply ret_ok in Hok as [[= -> ->] ->].
    split; [done|]. split; [done|]. unfold stage. cbn.
    match goal with Hf : (FinalisedHeight v =? 0) = true |- _ => rewrite Hf end.
    destruct (Z.eqb_spec (BlockHeight ctx) 0); [done|]. split; [|done]. destruct (ov_Height v =? 0); lia.
  - run_case Hok; [|by apply ret_ok in Hok as [[= -> ->] ->]]. run_step Hok u s1 E. apply DecSlashPoints_keeps in E.
    apply ret_ok in Hok as [[= -> ->] ->]. by split.
Qed.

Lemma discover_ok ctx v nas tx signer a b c ok0 s v' ok s' :
  BlockHeight ctx ≠ 0 → discover ctx v nas tx signer a b c ok0 s = (Ok (v', ok), s') →
  voters_of s' = voters_of s ∧ ov_TxID v' = ov_TxID v ∧ FinalisedHeight v' = FinalisedHeight v ∧
  ((ok = ok0 ∧ same_stage v v') ∨
   (ok0 = false ∧ ok = true ∧ ov_Height v = 0 ∧ FinalisedHeight v = 0 ∧ ov_Height v' ≠ 0)).
Proof.
  intros Hh Hok. unfold discover in Hok. run_case Hok; [|apply ret_ok in Hok as [[= -> ->] ->]; split_and!; try done; by left].
  run_case Hok.
  - run_step Hok u s1 E. apply settle_keeps in E. apply ret_ok in Hok as [[= -> ->] ->].
    split_and!; try done. right. rewrite !andb_true_iff, !Z.eqb_eq, !negb_true_iff in *. naive_solver.
  - run_case Hok; [|apply ret_ok in Hok as [[= -> ->] ->]; split_and!; try done; by left]. run_step Hok u s1 E.
    apply DecSlashPoints_keeps in E. apply ret_ok in Hok as [[= -> ->] ->]. split_and!; try done. by left.
Qed.

Lemma finalise_out_ok ctx v nas tx signer a b c s v' ok s' :
  BlockHeight ctx ≠ 0 → finalise_out ctx v nas tx signer a b c s = (Ok (v', ok), s') →
  voters_of s' = voters_of s ∧ ov_TxID v' = ov_TxID v ∧
  (if ok then ov_Height v = 0 ∧ ov_Height v' ≠ 0 else ov_Height v' = ov_Height v).
Proof.
  intros Hh Hok. unfold finalise_out in Hok.
  run_case Hok; [|by apply ret_ok in Hok as [[= -> ->] ->]]. run_case Hok.
  - run_step Hok u s1 E. apply settle_keeps in E. apply ret_ok in Hok as [[= -> ->] ->].
    split; [done|]. split; [done|]. cbn. by destruct (Z.eqb_spec (ov_Height v) 0).
  - run_case Hok; [|by apply ret_ok in Hok as [[= -> ->] ->]]. run_step Hok u s1 E.
    apply DecSlashPoints_keeps in E. by apply ret_ok in Hok as [[= -> ->] ->].
Qed.

(** ** Sequences of reports *)

(** A report: an inbound or outbound transaction, a validator, and the block and
    active validators it meets. *)
Record Report := mkReport {
  r_inbound : bool;
  r_ctx : Ctx;
  r_nas : list NodeAccount;
  r_tx : ObservedTx;
  r_signer : string;
  r_slash : bool;
}.
Definition r_key (r : Report) : string := GetKey (tx_ID (ot_Tx (r_tx r))).

(** The voter of the transaction is fetched and the report processed. *)
Definition attest (r : Report) : O (ObservedTxVoter * bool) :=
  let hash := tx_ID (ot_Tx (r_tx r)) in
  if r_inbound r then
    voter ← GetObservedTxInVoter hash;
    processTxInAttestation (r_ctx r) voter (r_nas r) (r_tx r) (r_signer r) (r_slash r)
  else
    voter ← GetObservedTxOutVoter hash;
    processTxOutAttestation (r_ctx r) voter (r_nas r) (r_tx r) (r_signer r) (r_slash r).

(** The sides and keys that are to be acted on, in order; a message that fails
    leaves nothing behind. *)
Fixpoint acted_on (l : list Report) (s : ObsState) : list (bool * string) :=
  match l with
  | [] => []
  | r :: rest =>
      match attest r s with
      | (Ok (_, true), s') => (r_inbound r, r_key r) :: acted_on rest s'
      | (Ok (_, false), s') => acted_on rest s'
      | _ => acted_on rest s
      end
  end.
Definition times (inbound : bool) (key : string) (l : list (bool * string)) : nat :=
  length (filter (λ p, p = (inbound, key)) l).

(** Voters are filed under their own transaction. *)
Definition filed (m : gmap string ObservedTxVoter) : Prop := ∀ k v, m !! k = Some v → GetKey (ov_TxID v) = k.
Definition all_filed (s : ObsState) : Prop := filed (txInVoters s) ∧ filed (txOutVoters s).

(** How often a transaction can still be acted on. *)
Definition chances (inbound : bool) : nat := if inbound then 2 else 1.
Definition chances_of (inbound : bool) (v : ObservedTxVoter) : nat :=
  if inbound then 2 - stage v else if ov_Height v =? 0 then 1 else 0.
Definition chances_left (inbound : bool) (key : string) (s : ObsState) : nat :=
  from_option (chances_of inbound) (chances inbound) ((if inbound then txInVoters s else txOutVoters s) !! key).

(** What processing a report does to the voters: nothing, or the voter of the
    transaction is filed again with a chance less if it is to be acted on. *)
Definition refiled (inbound : bool) (v v' : ObservedTxVoter) (ok : bool) (s s' : ObsState) : Prop :=
  (ok = false ∧ voters_of s' = voters_of s) ∨
  (voters_of s' = (if inbound then (<[GetKey (ov_TxID v) := v']> (txInVoters s), txOutVoters s)
                   else (txInVoters s, <[GetKey (ov_TxID v) := v']> (txOutVoters s))) ∧
   ov_TxID v' = ov_TxID v ∧ (chances_of inbound v' + Nat.b2n ok <= chances_of inbound v)%nat).

Lemma attest_points_keeps : keeps_voters attest_points.
Proof. apply in_core_keeps. Qed.

Lemma processTxIn_ok ctx v nas tx signer d s v' ok s' :
  BlockHeight ctx ≠ 0 → processTxInAttestation ctx v nas tx signer d s = (Ok (v', ok), s') →
  refiled true v v' ok s s'.
Proof.
  intros Hh Hok. unfold processTxInAttestation in Hok.
  run_step Hok p s1 E1. destruct p as [[a b] c]. apply attest_points_keeps in E1.
  run_step Hok p s2 E2. destruct p as [v1 added]. apply observe_ok in E2 as (E2 & Hst & _).
  run_case Hok; [apply ret_ok in Hok as [[= -> ->] ->]; left; split; congruence|].
  run_step Hok p s3 E3. destruct p as [v2 ok2]. apply finalise_in_ok in E3 as (E3 & Hid3 & P3); [|done].
  run_step Hok p s4 E4. destruct p as [v3 ok3]. apply discover_ok in E4 as (E4 & Hid4 & Hf4 & P4); [|done].
  run_step Hok u s5 E5. apply modify_ok in E5 as ->. apply ret_ok in Hok as [[= -> ->] ->]. right.
  assert (voters_of s4 = voters_of s) as Hv by congruence. injection Hv as Hin Hout.
  destruct Hst as (Hid & Hh1 & Hf1). unfold voters_of. cbn. split_and!; [congruence..|].
  unfold chances_of, stage in *. destruct P4 as [[-> (_ & Hh4 & _)]|(-> & -> & Hz & Hz' & Hnz)].
  - rewrite Hf4, Hh4. destruct ok2; cbn.
    + rewrite <- Hh1, <- Hf1. lia.
    + destruct P3 as (_ & -> & ->). rewrite Hh1, Hf1. lia.
  - destruct P3 as (_ & Hh3 & Hf3). rewrite Hf4, Hz', <- Hh1, <- Hf1, <- Hh3, <- Hf3, Hz, Hz'. cbn.
    by destruct (Z.eqb_spec (ov_Height v3) 0).
Qed.

Lemma processTxOut_ok ctx v nas tx signer d s v' ok s' :
  BlockHeight ctx ≠ 0 → processTxOutAttestation ctx v nas tx signer d s = (Ok (v', ok), s') →
  refiled false v v' ok s s'.
Proof.
  intros Hh Hok. unfold processTxOutAttestation in Hok.
  run_step Hok p s1 E1. destruct p as [[a b] c]. apply attest_points_keeps in E1.
  run_step Hok p s2 E2. destruct p as [v1 added]. apply observe_ok in E2 as (E2 & Hst & _).
  run_case Hok; [apply ret_ok in Hok as [[= -> ->] ->]; left; split; congruence|].
  run_step Hok u sl El. apply link_outbound_keeps in El.
  run_step Hok p s3 E3. destruct p as [v2 ok2]. apply finalise_out_ok in E3 as (E3 & Hid3 & P3); [|done].
  run_step Hok p s4 E4. destruct p as [v3 ok3]. apply discover_ok in E4 as (E4 & Hid4 & Hf4 & P4); [|done].
  run_step Hok u1 s5 E5. apply modify_ok in E5 as ->. apply ret_ok in Hok as [[= -> ->] ->]. right.
  assert (voters_of s4 = voters_of s) as Hv by congruence. injection Hv as Hin Hout.
  destruct Hst as (Hid & Hh1 & Hf1). unfold voters_of. cbn. split_and!; [congruence..|].
  destruct P4 as [[-> (_ & Hh4 & _)]|(-> & -> & Hz & Hz' & Hnz)].
  - rewrite Hh4. destruct ok2; cbn.
    + destruct P3 as [Hz Hnz]. rewrite <- Hh1, Hz. by destruct (Z.eqb_spec (ov_Height v2) 0).
    + rewrite P3, Hh1. lia.
  - rewrite <- Hh1, <- P3, Hz. cbn. by destruct (Z.eqb_spec (ov_Height v3) 0).
Qed.

Lemma fetched (m : gmap string ObservedTxVoter) hash :
  filed m → GetKey (ov_TxID (default (NewObservedTxVoter hash []) (m !! GetKey hash))) = GetKey hash.
Proof. intros Hm. destruct (m !! GetKey hash) as [v|] eqn:E; [by apply Hm|done]. Qed.

Lemma filed_insert m k v : filed m → GetKey (ov_TxID v) = k → filed (<[k := v]> m).
Proof. intros Hm Hv k' v' Hl. destruct (decide (k = k')) as [<-|]; simplify_map_eq; naive_solver. Qed.

Lemma new_chances inbound hash : chances_of inbound (NewObservedTxVoter hash []) = chances inbound.
Proof. by destruct inbound. Qed.

Lemma left_default inbound hash s :
  chances_of inbound (default (NewObservedTxVoter hash []) ((if inbound then txInVoters s else txOutVoters s) !! GetKey hash)) =
  chances_left inbound (GetKey hash) s.
Proof. unfold chances_left. destruct (_ !! _); [done|apply new_chances]. Qed.

(** One report: the voters stay filed, no transaction gains a chance, and the
    one that is to be acted on loses one. *)
Lemma attest_ok r s v ok s' :
  BlockHeight (r_ctx r) ≠ 0 → all_filed s → attest r s = (Ok (v, ok), s') →
  all_filed s' ∧ ∀ inb key,
    (chances_left inb key s' + (if ok && bool_decide ((r_inbound r, r_key r) = (inb, key)) then 1 else 0) <=
     chances_left inb key s)%nat.
Proof.
  intros Hh [Hi Ho] Hok. unfold attest in Hok. set (hash := tx_ID (ot_Tx (r_tx r))) in *.
  assert (Href : ∃ v0, v0 = default (NewObservedTxVoter hash []) ((if r_inbound r then txInVoters s else txOutVoters s) !! GetKey hash) ∧
            refiled (r_inbound r) v0 v ok s s').
  { destruct (r_inbound r); run_step Hok v0 s1 E; apply gets_ok in E as [-> ->]; eexists;
      (split; [reflexivity|]); [by eapply processTxIn_ok|by eapply processTxOut_ok]. }
  destruct Href as (v0 & Hv0 & [[-> Hv]|(Hv & Hid & Hch)]); unfold all_filed, chances_left.
  - injection Hv as -> ->. split; [done|]. intros. cbn. lia.
  - assert (Hkey : GetKey (ov_TxID v0) = GetKey hash) by (rewrite Hv0; apply fetched; by case_match).
    assert (Hch' : (chances_of (r_inbound r) v + Nat.b2n ok <= chances_left (r_inbound r) (GetKey hash) s)%nat)
      by (by rewrite <- left_default, <- Hv0).
    rewrite Hkey in Hv. unfold r_key. fold hash. clear Hok Hch Hv0. unfold chances_left in Hch'.
    destruct (r_inbound r); injection Hv as -> ->.
    all: split; [split; try done; apply filed_insert; [done|congruence]|].
    all: intros inb key; case_bool_decide as Hd; [injection Hd as <- <-; rewrite lookup_insert, decide_True by done; cbn; by destruct ok|].
    all: rewrite andb_false_r.
    all: destruct inb; try lia; destruct (decide (GetKey hash = key)) as [<-|]; [|by rewrite lookup_insert_ne by done; lia].
    all: by destruct Hd.
Qed.

(** C20: Over any sequence of reports, of whatever transactions, validators and
    blocks, an inbound transaction is to be acted on at most twice (when it is
    seen and when it is final) and an outbound one at most once, whichever its
    reports say. *)
Theorem acted_on_at_most reports s inbound key :
  all_filed s → Forall (λ r, BlockHeight (r_ctx r) ≠ 0) reports →
  (times inbound key (acted_on reports s) <= chances inbound)%nat.
Proof.
  intros Hs Hr. transitivity (chances_left inbound key s).
  - revert s Hs. induction Hr as [|r l Hh _ IH]; intros s Hs; [cbn; lia|]. cbn [acted_on].
    destruct (attest r s) as [[[v ok]| |] s1] eqn:E; [|by apply IH..].
    apply attest_ok in E as [Hs1 Hch]; [|done..]. specialize (Hch inbound key). specialize (IH s1 Hs1).
    unfold times in *. destruct ok; cbn [andb] in Hch; [|lia].
    destruct (decide ((r_inbound r, r_key r) = (inbound, key))) as [Hd|Hd].
    + rewrite bool_decide_true in Hch by done. rewrite filter_cons_True by done. cbn [length]. lia.
    + rewrite bool_decide_false in Hch by done. rewrite filter_cons_False by done. lia.
  - unfold chances_left, chances_of, stage. destruct (_ !! _); cbn; [|lia]. repeat case_match; cbn; lia.
Qed.

(** ** Network fees and their votes *)

(** A vote: who voted for the fee that is filed under a key. *)
Definition ballot : Type := list (string * string).
Definition fee_key (m : MsgNetworkFee) : string :=
  GetKey (NetworkFee_ID (mkNetworkFeeVoter 0 (mf_BlockHeight m) (mf_Chain m) []
    (if 0 <? to_i64 (mf_TransactionFeeRate m) then to_i64 (mf_TransactionFeeRate m) else 0)
    (if 0 <? to_i64 (mf_TransactionSize m) then to_i64 (mf_TransactionSize m) else 0))).
Definition fee_of (m : MsgNetworkFee) : NetworkFee :=
  mkNetworkFee (mf_Chain m) (mf_TransactionSize m) (mf_TransactionFeeRate m).

(** Two thirds of the active validators voted for the key. *)
Definition backed (active : list NodeAccount) (votes : ballot) (key : string) : Prop :=
  ∃ l, NoDup l ∧ HasSuperMajority (len l) (len active) = true ∧
    ∀ a, a ∈ l → IsNodeKeys active a = true ∧ (a, key) ∈ votes.

(** The fees are as before, or that of the message was saved with their backing. *)
Definition saved_if_backed (active : list NodeAccount) (votes : ballot) (m : MsgNetworkFee)
    (s s' : ObsState) : Prop :=
  networkFees s' = networkFees s ∨
  (backed active votes (fee_key m) ∧
   networkFees s' = <[GetKey (Chains.Str (mf_Chain m)) := fee_of m]> (networkFees s)).

Record voter_ok (votes : ballot) (key : string) (v : NetworkFeeVoter) : Prop := {
  vo_key : GetKey (NetworkFee_ID v) = key;
  vo_signers : NoDup (nf_Signers v);
  vo_votes : ∀ a, a ∈ nf_Signers v → AccAddressFromBech32 a = Ok a ∧ (a, key) ∈ votes;
}.
Definition voters_ok (votes : ballot) (s : ObsState) : Prop :=
  ∀ key v, feeVoters s !! key = Some v → voter_ok votes key v.

Definition keeps_fees {A} (m : O A) : Prop :=
  ∀ s r s', m s = (r, s') → feeVoters s' = feeVoters s ∧ networkFees s' = networkFees s ∧
    nodeAccounts s' = nodeAccounts s.

Lemma keeps_fees_bind {A B} (m : O A) (f : A → O B) :
  keeps_fees m → (∀ a, keeps_fees (f a)) → keeps_fees (m ≫= f).
Proof.
  intros Hm Hf s r s' E. unfold mbind, M_bind in E. destruct (m s) as [[a| |] s1] eqn:E1; apply Hm in E1.
  - apply Hf in E. intuition congruence.
  - by simplify_eq.
  - by simplify_eq.
Qed.

Lemma keeps_fees_for_each {A} (f : A → O ()) l : (∀ x, keeps_fees (f x)) → keeps_fees (for_each f l).
Proof.
  intros Hf. induction l as [|x l IH]; cbn; [intros s r s' [= <- <-]; done|]. by apply keeps_fees_bind.
Qed.

Lemma keeps_fees_ret {A} (a : A) : keeps_fees (mret a).
Proof. by intros s r s' [= <- <-]. Qed.
Lemma keeps_fees_points (l : list string) (f : string → O ()) g :
  (∀ addr, f addr = (current ← GetNodeAccountSlashPoints addr; SetNodeAccountSlashPoints addr (g current))) →
  keeps_fees (for_each f l).
Proof.
  intros Hf. apply keeps_fees_for_each. intros addr. rewrite Hf.
  apply keeps_fees_bind; [by intros s r s' [= <- <-]|]. by intros ? s r s' [= <- <-].
Qed.
Lemma IncSlashPoints_keeps_fees p l : keeps_fees (IncSlashPoints p l).
Proof. by apply (keeps_fees_points _ _ (λ c, to_i64 (c + p))). Qed.
Lemma DecSlashPoints_keeps_fees p l : keeps_fees (DecSlashPoints p l).
Proof. by apply (keeps_fees_points _ _ (λ c, to_i64 (c - p))). Qed.
Lemma in_core_keeps_fees {A} (m : K A) : keeps_fees (in_core m).
Proof. intros s r s' E. unfold in_core in E. destruct (m (core s)). by injection E as _ <-. Qed.

Lemma add_signer_ok l a :
  AccAddressFromBech32 a = Ok a → (∀ x, x ∈ l → AccAddressFromBech32 x = Ok x) →
  add_signer l a = if bool_decide (a ∈ l) then (l, false) else ((l ++ [a])%list, true).
Proof.
  intros Ha Hl. unfold add_signer. case_bool_decide as Hin.
  - by rewrite (proj2 (signed_by_spec l a)) by (by rewrite parsed_canonical).
  - destruct (signed_by l a) eqn:E; [|done]. apply signed_by_spec in E. by rewrite parsed_canonical in E.
Qed.

Lemma voter_ok_mono votes votes' key v : votes ⊆ votes' → voter_ok votes key v → voter_ok votes' key v.
Proof. intros Hsub [Hk Hn Hv]. constructor; [done..|]. intros a Ha. destruct (Hv a Ha). set_solver. Qed.
Lemma backed_mono active votes votes' key : votes ⊆ votes' → backed active votes key → backed active votes' key.
Proof. intros Hsub (l & Hn & Hm & Hl). exists l. split_and!; [done..|]. intros a Ha. destruct (Hl a Ha). set_solver. Qed.

Lemma NetworkFee_Sign_ok votes key v a :
  voter_ok votes key v → AccAddressFromBech32 a = Ok a → voter_ok (votes ++ [(a, key)])%list key (NetworkFee_Sign v a).1.
Proof.
  intros [Hk Hn Hv] Ha. unfold NetworkFee_Sign. rewrite add_signer_ok; [|done|intros x Hx; by apply Hv].
  case_bool_decide as Hin; cbn.
  - constructor; [done..|]. cbn. intros x Hx. destruct (Hv x Hx). set_solver.
  - constructor; cbn; [done| |].
    + apply list.NoDup_app. split_and!; [done| |apply NoDup_singleton]. intros x Hx ->%list_elem_of_singleton. done.
    + intros x [Hx| ->%list_elem_of_singleton]%elem_of_app; [destruct (Hv x Hx); set_solver|set_solver].
Qed.

Lemma HasConsensus_backed votes key v active :
  voter_ok votes key v → NetworkFee_HasConsensus v active = true → backed active votes key.
Proof.
  intros [Hk Hn Hv] Hc. exists (List.filter (IsNodeKeys active) (nf_Signers v)).
  unfold NetworkFee_HasConsensus, active_signers in Hc. rewrite parsed_canonical in Hc by (intros a Ha; by apply Hv).
  split_and!; [|done|].
  - apply NoDup_ListNoDup, List.NoDup_filter. by apply NoDup_ListNoDup.
  - intros a [Ha Hk']%list_elem_of_In%filter_In. apply list_elem_of_In in Ha. split; [done|by apply Hv].
Qed.

Lemma voter_ok_height votes key v h : voter_ok votes key v → voter_ok votes key (set_nf_BlockHeight h v).
Proof. by intros [Hk Hn Hv]. Qed.

Lemma process_fee_ok ctx v a active m d votes s v' e s' :
  voter_ok votes (fee_key m) v → AccAddressFromBech32 a = Ok a →
  processNetworkFeeAttestation ctx v a active m d s = (Ok (v', e), s') →
  voter_ok (votes ++ [(a, fee_key m)])%list (fee_key m) v' ∧ feeVoters s' = feeVoters s ∧
  saved_if_backed active (votes ++ [(a, fee_key m)])%list m s s'.
Proof.
  intros Hv Ha Hok. unfold processNetworkFeeAttestation in Hok.
  run_step Hok p s1 E1. destruct p as [[p1 p2] p3]. apply in_core_keeps_fees in E1 as (Hf1 & Hn1 & _).
  pose proof (NetworkFee_Sign_ok votes _ v a Hv Ha) as Hs. unfold saved_if_backed.
  destruct (NetworkFee_Sign v a) as [v1 signed]. cbn in Hs.
  assert (Hquiet : ∀ (n : O ()) w, keeps_fees n → (n ≫= λ _, mret (w, None)) s1 = (Ok (v', e), s') →
    v' = w ∧ feeVoters s' = feeVoters s ∧ networkFees s' = networkFees s).
  { intros n w Hk E. run_step E u s2 E2. apply Hk in E2. apply ret_ok in E as [[= -> ->] ->]. intuition congruence. }
  run_case Hok; [|run_case Hok; [|run_case Hok]].
  - apply Hquiet in Hok as (-> & -> & ->); [by auto|].
    destruct d; [apply IncSlashPoints_keeps_fees|apply keeps_fees_ret].
  - apply Hquiet in Hok as (-> & -> & ->); [by auto|apply IncSlashPoints_keeps_fees].
  - apply Hquiet in Hok as (-> & -> & ->); [by auto|].
    case_match; [apply DecSlashPoints_keeps_fees|apply keeps_fees_ret].
  - run_step Hok u2 s2 E2. apply IncSlashPoints_keeps_fees in E2 as (Hf2 & Hn2 & _).
    run_step Hok u3 s3 E3. apply DecSlashPoints_keeps_fees in E3 as (Hf3 & Hn3 & _).
    run_step Hok u4 s4 E4. apply IncSlashPoints_keeps_fees in E4 as (Hf4 & Hn4 & _).
    run_step Hok res s5 E5. apply ret_ok in Hok as [[= -> _] ->].
    assert (Hb : backed active (votes ++ [(a, fee_key m)])%list (fee_key m)).
    { eapply HasConsensus_backed; [done|]. by destruct (NetworkFee_HasConsensus v1 active). }
    assert (feeVoters s4 = feeVoters s ∧ networkFees s4 = networkFees s) as [Hf Hn] by (split; congruence).
    split; [by apply voter_ok_height|].
    unfold attempt, SaveNetworkFee, check in E5. destruct (NetworkFee_Valid _); cbn in E5; injection E5 as _ <-; cbn.
    + auto.
    + split; [done|]. right. split; [done|]. by rewrite Hn.
Qed.

(** The addresses whose attestations hold. *)
Definition verified_of (active : list NodeAccount) (signBz : string) (atts : list (option Attestation)) : list string :=
  omap (λ att, match verifyQuorumAttestation active signBz att with Ok a => Some a | _ => None end) atts.
Definition ballots (l : list string) (m : MsgNetworkFee) : ballot := (λ a, (a, fee_key m)) <$> l.

Lemma saved_if_backed_trans active votes votes' m s1 s2 s3 :
  votes ⊆ votes' → saved_if_backed active votes m s1 s2 → saved_if_backed active votes' m s2 s3 →
  saved_if_backed active votes' m s1 s3.
Proof.
  intros Hsub [H12|[Hb H12]] [H23|[Hb' H23]]; unfold saved_if_backed; rewrite H23, H12; [by auto..| |].
  - right. split; [by eapply backed_mono|done].
  - right. split; [done|]. by rewrite insert_insert_eq.
Qed.

Lemma attest_all_ok ctx active m signBz atts : ∀ v votes s v' s',
  voter_ok votes (fee_key m) v → (∀ a, a ∈ verified_of active signBz atts → AccAddressFromBech32 a = Ok a) →
  attest_all ctx active m signBz atts v s = (Ok v', s') →
  let votes' := (votes ++ ballots (verified_of active signBz atts) m)%list in
  voter_ok votes' (fee_key m) v' ∧ feeVoters s' = feeVoters s ∧ saved_if_backed active votes' m s s'.
Proof.
  induction atts as [|att atts IH]; cbn; intros v votes s v' s' Hv Hc Hok.
  - apply ret_ok in Hok as [-> ->]. rewrite app_nil_r. unfold saved_if_backed. auto.
  - unfold verified_of in *. cbn in *. destruct (verifyQuorumAttestation active signBz att) as [a| |]; [|by apply (IH v)|].
    + run_step Hok p s1 E1. destruct p as [v1 e]. cbn in *.
      apply (process_fee_ok ctx v a active m false votes) in E1 as (Hv1 & Hf1 & Hs1); [|done|set_solver].
      apply (IH _ (votes ++ [(a, fee_key m)])%list) in Hok as (Hv2 & Hf2 & Hs2); [|done|set_solver].
      rewrite <- app_assoc in Hv2, Hs2. cbn in Hv2, Hs2. split; [done|]. split; [congruence|].
      eapply saved_if_backed_trans; [|done..]. set_solver.
    + by apply lift_ok in Hok as [? _].
Qed.

(** A message of one validator, or of a proposer with the attestations of many. *)
Definition FeeMsg : Type := MsgNetworkFee * option (list (option Attestation)).
Definition fee_Run (ctx : Ctx) (m : FeeMsg) : O () :=
  match snd m with
  | None => network_fee_Run ctx (fst m)
  | Some atts => network_fee_quorum_Run ctx (fst m) atts
  end.
Definition actives (s : ObsState) : list NodeAccount :=
  List.filter (λ na, bool_decide (na_Type na = TypeValidator) && bool_decide (na_Status na = NodeActive))
    (snd <$> merge_sort key_le (map_to_list (nodeAccounts s))).
(** Whose votes a message brings. *)
Definition votes_in (m : FeeMsg) (s : ObsState) : list string :=
  match snd m with
  | None => [mf_Signer (fst m)]
  | Some atts =>
      match fee_payload (fst m) with
      | Ok signBz => verified_of (actives s) signBz atts
      | _ => []
      end
  end.

(** The votes of a history of messages; what else the chain does leaves the
    voters alone, and a message that fails leaves nothing. *)
Inductive fee_history : ballot → ObsState → Prop :=
  | fees_none s : feeVoters s = ∅ → fee_history [] s
  | fees_message votes ctx m s s' :
      fee_history votes s → (∀ a, a ∈ votes_in m s → AccAddressFromBech32 a = Ok a) →
      fee_Run ctx m s = (Ok (), s') → fee_history (votes ++ ballots (votes_in m s) (fst m))%list s'
  | fees_other votes s s' : fee_history votes s → feeVoters s' = feeVoters s → fee_history votes s'.

Lemma check_same {S} e u (s s' : S) : check e s = (Ok u, s') → s' = s.
Proof. destruct e; [done|]. by intros [= <-]. Qed.

Lemma all_active_same ctx l s r s' : all_active ctx l s = (r, s') → s' = s.
Proof.
  revert s r s'. induction l as [|a l IH]; cbn; intros s r s' E; [by injection E|].
  case_bool_decide; [by eapply IH|]. unfold signedByActiveNodeAccount, GetNodeAccount, gets, mbind, M_bind, mret, M_ret in E.
  cbn in E. run_case E; [by eapply IH|by injection E].
Qed.

Lemma network_fee_validate_same ctx m s s' : network_fee_validate ctx m s = (Ok (), s') → s' = s.
Proof.
  intros E. unfold network_fee_validate in E. run_step E u s1 E1.
  apply check_same in E1 as ->.
  run_step E ok s2 E2. apply fail_when_ok in E as [_ ->]. by apply all_active_same in E2.
Qed.

Lemma fetched_voter votes s m v s' :
  voters_ok votes s →
  GetObservedNetworkFeeVoter (mf_BlockHeight m) (mf_Chain m)
    (to_i64 (mf_TransactionFeeRate m)) (to_i64 (mf_TransactionSize m)) s = (Ok v, s') →
  s' = s ∧ voter_ok votes (fee_key m) v.
Proof.
  intros Hv E. apply gets_ok in E as [-> ->]. split; [done|]. fold (fee_key m).
  destruct (feeVoters s !! fee_key m) as [v|] eqn:E; cbn; [by apply Hv|].
  constructor; [done|constructor|by intros a Ha%not_elem_of_nil].
Qed.

Lemma SetVoter_ok votes votes' m v s s' :
  voters_ok votes s → votes ⊆ votes' → voter_ok votes' (fee_key m) v →
  SetObservedNetworkFeeVoter v s = (Ok (), s') →
  voters_ok votes' s' ∧ networkFees s' = networkFees s.
Proof.
  intros Hs Hsub Hv E. apply modify_ok in E as ->. split; [|done]. intros k w. cbn.
  rewrite (vo_key _ _ _ Hv). rewrite lookup_insert_Some. intros [[<- <-]|[_ Hw]]; [done|].
  eapply voter_ok_mono; [done|by apply Hs].
Qed.

(** One message: the voters stay in step with the votes, and a fee is saved only
    with the backing of two thirds. *)
Lemma fee_Run_ok votes ctx m s s' :
  voters_ok votes s → (∀ a, a ∈ votes_in m s → AccAddressFromBech32 a = Ok a) →
  fee_Run ctx m s = (Ok (), s') →
  voters_ok (votes ++ ballots (votes_in m s) (fst m))%list s' ∧
  saved_if_backed (actives s) (votes ++ ballots (votes_in m s) (fst m))%list (fst m) s s'.
Proof.
  intros Hs Hc Hok. unfold fee_Run, votes_in in *. destruct m as [m [atts|]]; cbn in *.
  - unfold network_fee_quorum_Run in Hok. run_step Hok u s1 E1.
    apply check_same in E1 as ->.
    unfold network_fee_quorum_handle in Hok. run_step Hok active s2 E2. apply gets_ok in E2 as [-> ->].
    fold (actives s) in Hok. run_step Hok v s3 E3. apply (fetched_voter votes) in E3 as [-> Hv]; [|done].
    destruct (fee_payload m) as [signBz| |]; [| |by apply lift_ok in Hok as [? _]].
    + run_step Hok v' s4 E4. eapply attest_all_ok in E4 as (Hv' & Hf & Hsv); [|done..].
      assert (Hs4 : voters_ok votes s4) by (intros k w; rewrite Hf; apply Hs).
      eapply SetVoter_ok in Hok as [Hr Hn]; [|done|apply list_subseteq_app_l; reflexivity|done].
      split; [done|]. unfold saved_if_backed in *. by rewrite Hn.
    + eapply SetVoter_ok in Hok as [Hr Hn]; [|done|reflexivity|done]. rewrite app_nil_r. split; [done|by left].
  - unfold network_fee_Run in Hok. run_step Hok u s1 E1. destruct u. apply network_fee_validate_same in E1 as ->.
    unfold network_fee_handle in Hok. run_step Hok active s2 E2. apply gets_ok in E2 as [-> ->].
    fold (actives s) in Hok. run_step Hok v s3 E3. apply (fetched_voter votes) in E3 as [-> Hv]; [|done].
    run_step Hok p s4 E4. destruct p as [v' e]. eapply process_fee_ok in E4 as (Hv' & Hf & Hsv); [|done|apply Hc; set_solver].
    run_step Hok u s5 E5. destruct u. assert (Hs4 : voters_ok votes s4) by (intros k w; rewrite Hf; apply Hs).
    eapply SetVoter_ok in E5 as [Hr Hn]; [|done|apply list_subseteq_app_l; reflexivity|done].
    apply check_same in Hok as ->.
    split; [done|]. unfold saved_if_backed in *. by rewrite Hn.
Qed.

Lemma fee_history_ok votes s : fee_history votes s → voters_ok votes s.
Proof.
  induction 1 as [s Hs|votes ctx m s s' _ IH Hc Hok|votes s s' _ IH Hf].
  - intros k v. by rewrite Hs, lookup_empty.
  - by eapply fee_Run_ok.
  - intros k v. rewrite Hf. apply IH.
Qed.

(** Whatever network fee messages and quorums came before, a message changes
    the network fees only by saving its own fee for its own chain, and only when
    two thirds of the validators that are active then have voted for that
    chain, height, rate and size, each counted once. *)
Theorem saved_fee_has_super_majority votes ctx m s s' :
  fee_history votes s → (∀ a, a ∈ votes_in m s → AccAddressFromBech32 a = Ok a) →
  fee_Run ctx m s = (Ok (), s') →
  saved_if_backed (actives s) (votes ++ ballots (votes_in m s) (fst m))%list (fst m) s s'.
Proof. intros Hs Hc Hok. eapply fee_Run_ok; [by apply fee_history_ok|done..]. Qed.
End Attest.

(** ** Witnesses *)

#[local] Existing Instance plain_keys.
#[local] Existing Instance insertion_sort.

(** A key signs by naming itself. *)
Definition named_signatures : Signatures :=
  {| Bech32ifyPubKey p := Ok p; VerifySignature p _ sig := bool_decide (sig = p);
     PubKey_Address p := p; fee_payload _ := Ok "payload" |}.
#[local] Existing Instance named_signatures.

Definition signing_node (addr : string) : NodeAccount :=
  NewNodeAccount addr NodeActive (mkPubKeySet addr "") "" 0 addr 1.
Definition attesting_state : ObsState :=
  mkObs empty_state
    (list_to_map ((λ addr, (GetKey addr, signing_node addr)) <$> ["alice"; "bob"; "mallory"])) ∅ ∅ ∅ ∅ ∅ ∅ ∅.
Definition at_block (h : Z) : Ctx := mkCtx h 3 "".

(** The three validators see the transaction before it is final, and when it is. *)
Definition seen_twice (inbound : bool) : list Report :=
  let by_all (h : Z) (tx : ObservedTx) : list Report :=
    map (λ a, mkReport inbound (at_block h) three_nodes tx a true) ["alice"; "bob"; "mallory"] in
  (by_all 10 (NewObservedTx (btc_tx "swap") 5 "vault" 7) ++ by_all 12 (report "swap" "vault"))%list.

Lemma acted_on_at_most_witness :
  (let key := GetKey (tx_ID (btc_tx "swap")) in
   times true key (acted_on (seen_twice true) attesting_state) = 2 ∧
   times false key (acted_on (seen_twice false) attesting_state) <= 1)%nat.
Proof.
  split; [vm_compute; reflexivity|].
  apply (acted_on_at_most (seen_twice false) attesting_state false).
  - split; intros k v; cbn; by rewrite lookup_empty.
  - repeat constructor; discriminate.
Defined.

Definition btc_fee (signer : string) : MsgNetworkFee := mkMsgNetworkFee 100 BTCChain 250 12 signer.
Definition alice_votes : ObsState := snd (fee_Run (at_block 10) (btc_fee "alice", None) attesting_state).
Definition bobs_attestation : list (option Attestation) := [None; Some (mkAttestation "bob" "bob")].

Definition quorum_fee : FeeMsg := (btc_fee "carol", Some bobs_attestation).
Lemma saved_fee_has_super_majority_witness :
  let s' := snd (fee_Run (at_block 11) quorum_fee alice_votes) in
  networkFees s' !! GetKey "BTC" = Some (fee_of (btc_fee "alice")) ∧ votes_in quorum_fee alice_votes = ["bob"] ∧
  saved_if_backed (actives alice_votes)
    ([("alice", fee_key (btc_fee "alice"))] ++ ballots (votes_in quorum_fee alice_votes) (fst quorum_fee))%list
    (fst quorum_fee) alice_votes s'.
Proof.
  assert (H0 : fst (fee_Run (at_block 10) (btc_fee "alice", None) attesting_state) = Ok ()) by (vm_compute; reflexivity).
  assert (H1 : fst (fee_Run (at_block 11) quorum_fee alice_votes) = Ok ())
    by (vm_compute; reflexivity).
  split; [vm_compute; reflexivity|]. split; [vm_compute; reflexivity|].
  apply (saved_fee_has_super_majority [("alice", fee_key (btc_fee "alice"))] (at_block 11) quorum_fee).
  - apply (fees_message [] (at_block 10) (btc_fee "alice", None) attesting_state);
      [by apply fees_none|done|exact (run_pair _ _ H0)].
  - intros a Ha. reflexivity.
  - exact (run_pair _ _ H1).
Defined.
