(* ===== verification/Refunds.v ===== *)
(** * Refunds

    refundTx and unrefundableCoinCleanup of src/x/switchly/helpers.go: how the
    coins of a transaction that cannot be processed are sent back, and where
    they stay when that fails as well. *)

From stdpp Require Import pretty.
From S2P Require Import Prelude CosmosMath GoStrings Assets Coins Pools State Txs MemoTypes MemoParser Nodes Quorum ObservedTx Attest.
Open Scope Z_scope.

Section Refunds.
  Context `{CosmosMath} `{Bank} `{Env} `{!Managers}.

Definition GetModuleName (toi : TxOutItem) : string :=
  if bool_decide (toi_ModuleName toi = "") then AsgardName else toi_ModuleName toi.

(** Native coins that cannot be refunded go to the reserve, others stay where
    they are. *)
Definition unrefundableCoinCleanup (toi : TxOutItem) : M ObsState () :=
  let coin := toi_Coin toi in
  if Trade (coin_asset coin) then mret ()
  else
    voter ← GetObservedTxInVoter (toi_InHash toi);
    let tx := ot_Tx (ov_Tx voter) in
    if negb (Assets.IsNative (coin_asset coin)) then mret ()
    else if negb (bool_decide (GetModuleName toi = ReserveName)) then
      r ← attempt (in_core (SendFromModuleToModule (GetModuleName toi) ReserveName [coin]));
      match r with
      | inl _ => in_core (EmitEvent (EvReserve (FromAddress tx) (coin_amount coin) (tx_ID tx)))
      | inr _ => mret ()
      end
    else mret ().

(** Where a coin goes back to: the refund address of a swap memo when it is one
    of the coin's chain, else the sender. *)
Definition refund_address (ctx : Ctx) (tx : Tx) (coin : Coin) : M ObsState string :=
  '(m, e) ← in_core (read_memo ctx (Memo tx));
  mret match e with
       | None =>
           if IsType m TxSwap && negb (blank (GetRefundAddress m)) &&
              negb (Chains.IsSWITCHLYChain (Assets.GetChain (coin_asset coin))) &&
              IsChain (GetRefundAddress m) (Assets.GetChain (coin_asset coin))
           then GetRefundAddress m else FromAddress tx
       | Some _ => FromAddress tx
       end.

Definition Coin_String (c : Coin) : string := pretty (coin_amount c) +:+ " " +:+ Assets.Str (coin_asset c).

(** The attempt to send one coin back; a failure is added to the reason. *)
Definition refund_coin (ctx : Ctx) (tx : Tx) (vault sourceModuleName : string) (reason : string) (coin : Coin)
    : M ObsState string :=
  if Trade (coin_asset coin) || Secured (coin_asset coin) then mret reason
  else if Assets.IsSwitch (coin_asset coin) && Chains.Equals (Assets.GetChain (coin_asset coin)) ETHChain then mret reason
  else
    pool ← in_core (GetPool (Assets.GetLayer1Asset (coin_asset coin)));
    if Assets.IsSwitch (coin_asset coin) || negb (BalanceSwitch pool =? 0) then
      toAddr ← refund_address ctx tx coin;
      let toi := mkToi (Assets.GetChain (coin_asset coin)) (tx_ID tx) toAddr coin "" "" None
                   (Memo_String (NewRefundMemo (tx_ID tx))) [] 0 vault sourceModuleName "" None in
      r ← attempt (in_core (TryAddTxOutItem ctx toi 0));
      match r with
      | inl _ => mret reason
      | inr e =>
          _ ← unrefundableCoinCleanup toi;
          mret (reason +:+ "; fail to refund (" +:+ Coin_String coin +:+ "): " +:+ e)
      end
    else mret reason.

Fixpoint refund_coins (ctx : Ctx) (tx : Tx) (vault sourceModuleName : string) (reason : string) (coins : list Coin)
    : M ObsState string :=
  match coins with
  | [] => mret reason
  | c :: r =>
      reason ← refund_coin ctx tx vault sourceModuleName reason c;
      refund_coins ctx tx vault sourceModuleName reason r
  end.

(** Every coin is tried; the event repeats the transaction. *)
Definition refundTx (ctx : Ctx) (tx : Tx) (vault : string) (refundCode : Z)
    (refundReason sourceModuleName : string) : M ObsState () :=
  reason ← refund_coins ctx tx vault sourceModuleName refundReason (tx_Coins tx);
  in_core (EmitEvent (EvRefund refundCode reason (tx_ID tx) (tx_Coins tx))).
End Refunds.
