(* ===== verification/SwapHandler.v ===== *)
(** * The swap handler

    src/x/switchly/handler_swap.go, the message of types/msg_swap.go, the limits
    of helpers.go it checks (getMaxSwapQuantity, isSynthMintPaused), and what it
    keeps in the store: streaming swaps (keeper_streaming_swap.go), affiliate
    collectors (keeper_switchlyname.go) and the swap queue
    (keeper_swap_queue.go), which manager_swap_queue_current.go works off. *)

From stdpp Require Import pretty.
From S2P Require Import Prelude GoStrings GoNumbers CosmosMath Amounts Assets Coins Pools Constants State Txs Names MemoTypes MemoParser Streaming Swap Halts Liquidity Nodes Quorum ObservedTx Attest Refunds.
Open Scope Z_scope.

Record MsgSwap := mkMsgSwap {
  sm_Tx : Tx;
  TargetAsset : Asset;
  Destination : string;
  sm_TradeTarget : Z;
  sm_AffiliateAddress : string;
  sm_AffiliateBasisPoints : Z;
  Aggregator : string;
  AggregatorTargetAddress : string;
  AggregatorTargetLimit : option Z;
  sm_limit : bool;
  StreamQuantity : Z;
  StreamInterval : Z;
  sm_Signer : string;
}.

Definition set_sm_Tx (tx : Tx) (m : MsgSwap) : MsgSwap :=
  mkMsgSwap tx (TargetAsset m) (Destination m) (sm_TradeTarget m) (sm_AffiliateAddress m)
    (sm_AffiliateBasisPoints m) (Aggregator m) (AggregatorTargetAddress m) (AggregatorTargetLimit m)
    (sm_limit m) (StreamQuantity m) (StreamInterval m) (sm_Signer m).

(** The swap with another amount of its first coin. *)
Definition set_amount (a : Z) (tx : Tx) : Tx :=
  match tx_Coins tx with
  | c :: r => set_tx_Coins (mkCoin (coin_asset c) a (coin_decimals c) :: r) tx
  | [] => tx
  end.

Definition IsStreaming (m : MsgSwap) : bool := 0 <? StreamInterval m.
Definition GetStreamingSwap (m : MsgSwap) : outcome StreamingSwap :=
  c ← first_coin (sm_Tx m);
  Ok (NewStreamingSwap (tx_ID (sm_Tx m)) (StreamQuantity m) (StreamInterval m) (sm_TradeTarget m) (coin_amount c)).

(** The outbound queue's view of external contracts (src/x/switchly/aggregators),
    the anchors of derived assets (CalcAnchor of the network manager) and the
    outbound fee of SWITCH (the gas manager). *)
Class SwapParams `{Bank} := {
  DexAggregators : list (Chain * string);
  CalcAnchor : Ctx → Asset → M State Z;
  GetAssetOutboundFee : Ctx → Asset → M State Z;
}.

Section QueueStore.
  Context `{Bank}.

(** The part of the store the swap queue adds. *)
Record QueueState := mkQueueState {
  q_obs : ObsState;
  swapQueue : gmap string MsgSwap;
  streams : gmap string StreamingSwap;
  collectors : gmap string Z;
}.
End QueueStore.

(** What follows the swap of a memo that adds liquidity or opens or repays a
    loan, with the amount emitted. *)
Class FollowOns `{Bank} := { swap_follow_on : Ctx → MsgSwap → Memo_ → Z → M State () }.

Section SwapHandler.
  Context `{CosmosMath} `{Bank} `{Env} `{!Managers} `{!SwapParams} `{!FollowOns}.
Abbreviation Q := (M QueueState).

Definition put_obs (v : ObsState) (r : QueueState) : QueueState :=
  mkQueueState v (swapQueue r) (streams r) (collectors r).
Definition put_swapQueue (v : gmap string MsgSwap) (r : QueueState) : QueueState :=
  mkQueueState (q_obs r) v (streams r) (collectors r).
Definition put_streams (v : gmap string StreamingSwap) (r : QueueState) : QueueState :=
  mkQueueState (q_obs r) (swapQueue r) v (collectors r).
Definition put_collectors (v : gmap string Z) (r : QueueState) : QueueState :=
  mkQueueState (q_obs r) (swapQueue r) (streams r) v.

Definition in_obs {A} (m : M ObsState A) : Q A := λ s, let '(r, o) := m (q_obs s) in (r, put_obs o s).
(** A call that works on the part of the store of the other components. *)
Definition on_core {A} (m : K A) : Q A := in_obs (in_core m).

(** ** Records of the queue *)

Definition item_key (txID : string) (i : Z) : string := GetKey (txID +:+ "-" +:+ pretty i).
Definition SetSwapQueueItem (msg : MsgSwap) (i : Z) : Q () :=
  modify (λ s, put_swapQueue (<[item_key (tx_ID (sm_Tx msg)) i := msg]> (swapQueue s)) s).
Definition RemoveSwapQueueItem (txID : string) (i : Z) : Q () :=
  modify (λ s, put_swapQueue (delete (item_key txID i) (swapQueue s)) s).
Definition HasSwapQueueItem (txID : string) (i : Z) : Q bool :=
  gets (λ s, bool_decide (is_Some (swapQueue s !! item_key txID i))).

Definition StreamingSwapExists (hash : string) : Q bool :=
  gets (λ s, bool_decide (is_Some (streams s !! GetKey hash))).
Definition Keeper_GetStreamingSwap (hash : string) : Q StreamingSwap :=
  gets (λ s, default (NewStreamingSwap hash 0 0 0 0) (streams s !! GetKey hash)).
Definition SetStreamingSwap (swp : StreamingSwap) : Q () :=
  modify (λ s, put_streams (<[GetKey (ss_TxID swp) := swp]> (streams s)) s).
Definition RemoveStreamingSwap (hash : string) : Q () :=
  modify (λ s, put_streams (delete (GetKey hash) (streams s)) s).

Definition GetAffiliateCollector (owner : string) : Q Z :=
  gets (λ s, default 0 (collectors s !! GetKey owner)).
Definition SetAffiliateCollector (owner : string) (amt : Z) : Q () :=
  modify (λ s, put_collectors (<[GetKey owner := amt]> (collectors s)) s).

(** The stored streaming swap, or the one the message announces. *)
Definition stored_stream (msg : MsgSwap) : Q StreamingSwap :=
  swp ← lift (GetStreamingSwap msg);
  ex ← StreamingSwapExists (tx_ID (sm_Tx msg));
  if ex : bool then Keeper_GetStreamingSwap (tx_ID (sm_Tx msg)) else mret swp.

(** ** Validation *)

Definition MsgSwap_ValidateBasic (m : MsgSwap) : option error :=
  if bool_decide (sm_Signer m = "") then Some "invalid address"
  else match Tx_Valid (sm_Tx m) with
  | Some e => Some e
  | None =>
    if Assets.IsEmpty (TargetAsset m) then Some "swap Target cannot be empty"
    else if (1 <? length (tx_Coins (sm_Tx m)))%nat then Some "not expecting multiple coins in a swap"
    else if Coins_IsEmpty (tx_Coins (sm_Tx m)) then Some "swap coin cannot be empty"
    else if existsb (λ c, Assets.Equals (coin_asset c) (TargetAsset m)) (tx_Coins (sm_Tx m))
    then Some "swap Source and Target cannot be the same."
    else if blank (Destination m) then Some "swap Destination cannot be empty"
    else if blank (sm_AffiliateAddress m) && negb (sm_AffiliateBasisPoints m =? 0)
    then Some "swap affiliate address is empty while affiliate basis points is non-zero"
    else if negb (sm_AffiliateBasisPoints m =? 0) && (MaxAffiliateFeeBasisPoints <? sm_AffiliateBasisPoints m)
    then Some "affiliate fee basis points can't be more than 1000"
    else if negb (IsNoop (Destination m)) && negb (IsChain (Destination m) (Assets.GetChain (TargetAsset m)))
    then Some "swap destination address is not the same chain as the target asset"
    else if negb (blank (sm_AffiliateAddress m)) && negb (IsChain (sm_AffiliateAddress m) SWITCHLYChain)
    then Some "swap affiliate address must be a SWITCHLY address"
    else if negb (bool_decide (Aggregator m = "")) && bool_decide (AggregatorTargetAddress m = "")
    then Some "aggregator target asset address is empty"
    else if negb (bool_decide (AggregatorTargetAddress m = "")) && bool_decide (Aggregator m = "")
    then Some "aggregator is empty"
    else None
  end.

Definition IsModuleAccAddress (addr : string) : bool :=
  existsb (λ m, bool_decide (addr = module_address m))
    [AsgardName; BondName; ReserveName; LendingName; AffiliateCollectorName; ModuleName; SWCYClaimingName; SWCYStakeName].

(** The first contract of the chain whose address ends in the suffix; without
    contracts any suffix is one. *)
Definition FetchDexAggregator (c : Chain) (suffix : string) : outcome string :=
  match DexAggregators with
  | [] => Ok suffix
  | l => match List.find (λ '(c', addr), Chains.Equals c c' && HasSuffix addr suffix) l with
         | Some (_, addr) => Ok addr
         | None => Err "aggregator not found"
         end
  end.

(** The checks a memo that asks for a swap brings, also when it was not read
    without errors. *)
Definition validate_memo (ctx : Ctx) (msg : MsgSwap) : Q () :=
  '(memo, _) ← on_core (read_memo ctx (Memo (sm_Tx msg)));
  match memo with
  | SwapMemo_ m =>
      _ ← fail_when (match AccAddressFromBech32 (sw_Destination m) with
                     | Ok addr => IsModuleAccAddress addr | _ => false end)
            "a network module cannot be the final destination of a swap memo";
      if Synth (TargetAsset msg) then
        v ← on_core (GetConfigInt64 "ManualSwapsToSynthDisabled");
        fail_when (0 <? v) "manual swaps to synths not supported, use trade assets instead"
      else mret ()
  | _ => mret ()
  end.

Definition validate_derived (msg : MsgSwap) (source : Asset) : Q () :=
  if Assets.IsDerivedAsset (TargetAsset msg) || Assets.IsDerivedAsset source then
    v ← on_core (GetConfigInt64 "EnableDerivedAssets");
    fail_when ((v =? 0) && negb (Address_Equals (FromAddress (sm_Tx msg)) NoopAddress) &&
               negb (Address_Equals (ToAddress (sm_Tx msg)) NoopAddress) &&
               negb (Address_Equals (Destination msg) NoopAddress))
      "swapping to/from a derived asset is not allowed, except for lending"
  else mret ().

Definition validate_aggregator (msg : MsgSwap) : Q () :=
  if bool_decide (Aggregator msg = "") then mret ()
  else
    v ← on_core (GetConfigInt64 "SwapOutDexAggregationDisabled");
    _ ← fail_when (0 <? v) "swap out dex integration disabled";
    _ ← fail_when (negb (Assets.Equals (TargetAsset msg) (GetGasAsset (chain (TargetAsset msg)))))
          "target asset is not gas asset, can't use dex feature";
    addr ← lift (FetchDexAggregator (chain (TargetAsset msg)) (Aggregator msg));
    _ ← fail_when (bool_decide (addr = "")) "aggregator address is empty";
    fail_when (bool_decide (AggregatorTargetAddress msg = "")) "aggregator target address is empty".

Definition validate_native_target (target : Asset) : outcome () :=
  let native := Assets.IsNative (Assets.GetLayer1Asset target) in
  _ ← fail_if (Synth target && native) "minting a synthetic of a native coin is not allowed";
  _ ← fail_if (Trade target && native) "swapping to a trade asset of a native coin is not allowed";
  fail_if (Secured target && native) "swapping to a secured asset of a native coin is not allowed".

(** A streaming swap must not be over; the answer is whether it has begun, and
    else its deposit. *)
Definition validate_stream (msg : MsgSwap) (source : Asset) : Q (option Z) :=
  v ← on_core (GetConfigInt64 "StreamingSwapPause");
  _ ← fail_when (0 <? v) "streaming swaps are paused";
  _ ← for_each (λ a, rag ← on_core (GetMimir ("RAGNAROK-" +:+ Assets.MimirString a));
                     fail_when (0 <? rag) "streaming swaps disabled on ragnarok asset")
        [source; TargetAsset msg];
  swp ← stored_stream msg;
  _ ← fail_when (((0 <? Quantity swp) && IsDone swp) || (ss_Deposit swp <=? In swp))
        "streaming swap is completed, cannot continue to swap again";
  mret (if 0 <? Count swp then None else Some (ss_Deposit swp)).

(** How many synths can still be minted against the pool. *)
Definition getSynthSupplyRemaining (a : Asset) : K Z :=
  maxSynths ← GetMimir "MaxSynthPerPoolDepth";
  let maxSynths := if maxSynths <? 0 then GetInt64Value int64Overrides "MaxSynthPerPoolDepth" else maxSynths in
  synthSupply ← GetTotalSupply (Assets.GetSyntheticAsset a);
  pool ← GetPool (Assets.GetLayer1Asset a);
  _ ← fail_when (BalanceAsset pool =? 0) "pool has zero asset balance";
  twice ← lift (umul (BalanceAsset pool) 2);
  prod ← lift (umul (to_u64 maxSynths) twice);
  maxSynthSupply ← lift (uquo prod 10000);
  if maxSynthSupply <? synthSupply then
    _ ← lift (as_uint64 synthSupply); _ ← lift (as_uint64 maxSynthSupply); throw "synth supply over target"
  else lift (usub maxSynthSupply synthSupply).

Definition isSynthMintPaused (ctx : Ctx) (target : Asset) (outputAmt : Z) : K () :=
  v ← GetMimir ("RAGNAROK-" +:+ Assets.MimirString target);
  _ ← fail_when (0 <? v) "pool is in ragnarok";
  mintHeight ← GetConfigInt64 "MintSynths";
  _ ← fail_when ((0 <? mintHeight) && (mintHeight <? BlockHeight ctx)) "minting synthetics has been disabled";
  remaining ← getSynthSupplyRemaining target;
  if remaining <? outputAmt then
    _ ← lift (as_uint64 outputAmt); _ ← lift (as_uint64 remaining); throw "insufficient synth capacity"
  else mret ().

(** The synth a swap would emit, without slip floors. *)
Definition simulate_synth (source target : Asset) (amt : Z) : K Z :=
  switchAmount ←
    (if Assets.IsSwitch source then mret amt
     else
       let a := if Synth source then Assets.GetLayer1Asset source else source in
       pool ← GetPool a;
       lift (CalcAssetEmission (BalanceAsset pool) amt (BalanceSwitch pool)));
  pool ← GetPool (Assets.GetLayer1Asset target);
  lift (CalcAssetEmission (BalanceSwitch pool) switchAmount (BalanceAsset pool)).

(** The limits on what a swap to a synth adds to the network's liquidity. *)
Definition validate_synth (ctx : Ctx) (source target : Asset) (amt : Z) : K () :=
  total ← getTotalLiquiditySWITCH;
  switchVal ←
    (if Assets.IsSwitch source then mret amt
     else pool ← GetPool (Assets.GetLayer1Asset source); mret (AssetValueInSWITCH pool amt));
  total ← lift (uadd total switchVal);
  m ← GetMimir "MaximumLiquiditySWITCH";
  let m := if m <? 0 then GetInt64Value int64Overrides "MaximumLiquiditySWITCH" else m in
  _ ← fail_when ((0 <? m) && (to_u64 m <? total)) errAddLiquiditySWITCHOverLimit;
  targetAmount ← simulate_synth source target amt;
  _ ← isSynthMintPaused ctx target targetAmount;
  if GetBoolValue boolOverrides "StrictBondLiquidityRatio" && negb (Synth source) then
    cap ← atTVLCap ctx [NewCoin source amt];
    fail_when cap errAddLiquiditySWITCHMoreThanBond
  else mret ().

Definition errSwapVersion : error := "bad version".

Definition swap_validate (ctx : Ctx) (msg : MsgSwap) : Q () :=
  _ ← fail_when (versionMajor ctx <? 3) errSwapVersion;
  _ ← check (MsgSwap_ValidateBasic msg);
  _ ← validate_memo ctx msg;
  halted ← on_core (IsTradingHalt ctx (SwapMsg (tx_Coins (sm_Tx msg)) (TargetAsset msg)));
  _ ← fail_when halted "trading is halted, can't process swap";
  coin ← lift (first_coin (sm_Tx msg));
  let source := coin_asset coin in
  _ ← validate_derived msg source;
  _ ← validate_aggregator msg;
  _ ← lift (validate_native_target (TargetAsset msg));
  amt ← (if IsStreaming msg then validate_stream msg source else mret (Some (coin_amount coin)));
  match amt with
  | None => mret ()
  | Some amt => if Synth (TargetAsset msg) then on_core (validate_synth ctx source (TargetAsset msg) amt) else mret ()
  end.

(** ** Handling *)

(** The size of the smallest sub-swap on the legs that have a slip floor, in
    SWITCH, and the pool of the source. *)
Fixpoint min_swap_size (legs : list Asset) (minSwapSize : Z) : K Z :=
  match legs with
  | [] => mret minSwapSize
  | a :: r =>
      if Assets.IsSwitch a then min_swap_size r minSwapSize
      else
        pool ← GetPool (Assets.GetLayer1Asset a);
        minSlip ← getMinSlipBps a;
        if minSlip =? 0 then min_swap_size r minSwapSize
        else
          let size := GetSafeShare minSlip 10000 (BalanceSwitch pool) in
          min_swap_size r (if (minSwapSize =? 0) || (size <? minSwapSize) then size else minSwapSize)
  end.

(** How deep the derived pools of the legs are, in basis points of their
    anchors. *)
Fixpoint derived_bps (ctx : Ctx) (legs : list Asset) (dbps : Z) : K Z :=
  match legs with
  | [] => mret dbps
  | a :: r =>
      if Assets.IsDerivedAsset a then
        switchDepth ← CalcAnchor ctx a;
        dpool ← GetPool a;
        let newDbps := GetUncappedShare (BalanceSwitch dpool) switchDepth 10000 in
        derived_bps ctx r (if (dbps =? 0) || (newDbps <? dbps) then newDbps else dbps)
      else derived_bps ctx r dbps
  end.

Definition getMaxSwapQuantity (ctx : Ctx) (source target : Asset) (swp : StreamingSwap) : K Z :=
  if versionMajor ctx <? 3 then throw errBadVersion
  else if Interval swp =? 0 then mret 0
  else
    minSwapSize ← min_swap_size [source; target] 0;
    minSwapSize ←
      (if Assets.IsSwitch source then mret minSwapSize
       else pool ← GetPool (Assets.GetLayer1Asset source); lift (SWITCHValueInAsset pool minSwapSize));
    if minSwapSize =? 0 then mret 1
    else
      maxSwapQuantity ← lift (uquo (ss_Deposit swp) minSwapSize);
      maxLength ← GetConfigInt64 (if Assets.IsNative source && Assets.IsNative target
                                  then "StreamingSwapMaxLengthNative" else "StreamingSwapMaxLength");
      let maxSwapInMaxLength := to_u64 maxLength / Interval swp in
      if maxSwapInMaxLength <? maxSwapQuantity then mret maxSwapInMaxLength
      else if maxSwapQuantity =? 0 then mret 1
      else
        dbps ← derived_bps ctx [source; target] 0;
        diff ← lift (SafeSub 10000 dbps);
        newQuantity ← (if (dbps =? 0) || (diff =? 0) then mret maxSwapQuantity else lift (uquo 10000 diff));
        lift (as_uint64 (if newQuantity <? maxSwapQuantity then newQuantity else maxSwapQuantity)).

Definition set_schedule (interval quantity : Z) (m : StreamingSwap) : StreamingSwap :=
  mkStreamingSwap (ss_TxID m) interval quantity (Count m) (LastHeight m) (ss_TradeTarget m) (ss_Deposit m)
    (In m) (Out m) (FailedSwaps m) (FailedSwapReasons m).
Definition set_progress (in_ out : Z) (m : StreamingSwap) : StreamingSwap :=
  mkStreamingSwap (ss_TxID m) (Interval m) (Quantity m) (Count m) (LastHeight m) (ss_TradeTarget m) (ss_Deposit m)
    in_ out (FailedSwaps m) (FailedSwapReasons m).

(** The first sub-swap bounds interval and quantity. *)
Definition schedule_stream (ctx : Ctx) (msg : MsgSwap) (source : Asset) (swp : StreamingSwap) : K StreamingSwap :=
  if Count swp =? 0 then
    maxLength ← GetConfigInt64 "StreamingSwapMaxLength";
    let interval := if to_u64 maxLength <? Interval swp then to_u64 maxLength else Interval swp in
    let swp := set_schedule interval (Quantity swp) swp in
    maxSwapQuantity ← getMaxSwapQuantity ctx source (TargetAsset msg) swp;
    mret (set_schedule interval
            (if (Quantity swp =? 0) || (maxSwapQuantity <? Quantity swp) then maxSwapQuantity else Quantity swp) swp)
  else mret swp.

(** The record of a streaming swap and what this sub-swap swaps, at which
    limit: the amount of the first coin is overwritten. *)
Definition next_sub_swap (ctx : Ctx) (msg : MsgSwap) (source : Asset) : Q (StreamingSwap * Z * Z) :=
  swp ← stored_stream msg;
  swp ← on_core (schedule_stream ctx msg source swp);
  _ ← SetStreamingSwap swp;
  '(size, target) ← lift (NextSize swp);
  mret (swp, size, target).

(** An affiliate's SWITCH is credited when it has arrived in its module. *)
Definition credit_affiliate (ctx : Ctx) (msg : MsgSwap) (memo : Memo_ * option error) (emit : Z) : Q () :=
  match memo with
  | (m, None) =>
      match GetAffiliateSWITCHName m with
      | Some tn =>
          let owner := sn_Owner tn in
          if Address_Equals (Destination msg) (module_address AffiliateCollectorName) &&
             negb (blank (sm_AffiliateAddress msg)) && Assets.IsSwitch (TargetAsset msg) then
            amt ← GetAffiliateCollector owner;
            fee ← attempt (on_core (GetAssetOutboundFee ctx SwitchNative));
            match fee with
            | inl fee =>
                add ← lift (SafeSub emit fee);
                amt ← lift (uadd amt add);
                SetAffiliateCollector owner amt
            | inr _ => mret ()
            end
          else mret ()
      | None => mret ()
      end
  | (_, Some _) => mret ()
  end.

Definition PreferredAssetSwapMemoPrefix : string := "SWITCHLY-PREFERRED-ASSET".
Definition is_preferred_swap (tx : Tx) : bool :=
  String.prefix PreferredAssetSwapMemoPrefix (Memo tx) &&
  Address_Equals (FromAddress tx) (module_address AffiliateCollectorName).

(** A memo that does not parse ends the handler without an error: the [err] that
    is returned belongs to an earlier call and is nil. *)
Definition run_follow_on (ctx : Ctx) (msg : MsgSwap) (memo : Memo_ * option error) (emit : Z) : Q () :=
  if is_preferred_swap (sm_Tx msg) then mret ()
  else
    match memo with
    | (_, Some _) => mret ()
    | (m, None) =>
        if IsType m TxAdd || IsType m TxLoanOpen || IsType m TxLoanRepayment
        then on_core (swap_follow_on ctx msg m emit) else mret ()
    end.

Definition swap_handle (ctx : Ctx) (msg : MsgSwap) : Q () :=
  coin ← lift (first_coin (sm_Tx msg));
  _ ← fail_when (versionMajor ctx <? 3) errBadVersion;
  _ ← fail_when (negb (SoftEquals CurrentChainNetwork
                         (GetNetwork (Destination msg) (Address_GetChain (Destination msg)))))
        "address is not same network";
  m ← on_core (GetMimir "VirtualMultSynthsBasisPoints");
  let synthVirtualDepthMult := if m <? 1 then GetInt64Value int64Overrides "VirtualMultSynthsBasisPoints" else m in
  dexAgg ← lift (if bool_decide (Aggregator msg = "") then Ok ""
                 else FetchDexAggregator (chain (TargetAsset msg)) (Aggregator msg));
  swp ← lift (GetStreamingSwap msg);
  '(swp, amt, target) ←
    (if IsStreaming msg then next_sub_swap ctx msg (coin_asset coin)
     else mret (swp, coin_amount coin, sm_TradeTarget msg));
  let tx := set_amount amt (sm_Tx msg) in
  '(emit, _) ← on_core (Swap ctx tx (TargetAsset msg) (Destination msg) target dexAgg
                          (AggregatorTargetAddress msg) (AggregatorTargetLimit msg) swp synthVirtualDepthMult);
  memo ← on_core (read_memo ctx (Memo tx));
  _ ← credit_affiliate ctx msg memo emit;
  _ ← (if Synth (TargetAsset msg) && negb (IsStreaming msg)
       then on_core (isSynthMintPaused ctx (TargetAsset msg) emit) else mret ());
  let msg := set_sm_Tx tx msg in
  if IsStreaming msg then
    in_ ← lift (uadd (In swp) amt);
    out ← lift (uadd (Out swp) emit);
    let swp := set_progress in_ out swp in
    _ ← SetStreamingSwap swp;
    if IsLastSwap swp then run_follow_on ctx msg memo out else mret ()
  else run_follow_on ctx msg memo emit.

(** [SwapHandler.Run] *)
Definition swap_Run (ctx : Ctx) (msg : MsgSwap) : Q () :=
  _ ← swap_validate ctx msg; swap_handle ctx msg.
End SwapHandler.
