(* ===== verification/SwapOrder.v ===== *)
(** * The order of the swap queue

    src/x/switchly/manager_swap_queue.go: the items of the queue and the order in
    which they are handled. *)

From Stdlib Require Import Ascii.
From stdpp Require Import pretty sorting.
From S2P Require Import Prelude CosmosMath Amounts GoStrings Assets Coins Pools Constants State Txs Names MemoTypes MemoParser Streaming Swap Quorum SwapHandler.
Open Scope Z_scope.

(** ** Stable sorting *)

(** [sort.SliceStable]: the sorted list that keeps the order of equals. *)
Fixpoint insert_stable {A} (less : A → A → bool) (x : A) (l : list A) : list A :=
  match l with
  | [] => [x]
  | y :: r => if less y x then y :: insert_stable less x r else x :: y :: r
  end.
Definition sort_stable {A} (less : A → A → bool) (l : list A) : list A := foldr (insert_stable less) [] l.

Lemma insert_stable_perm {A} (less : A → A → bool) x l : insert_stable less x l ≡ₚ x :: l.
Proof. induction l as [|y l IH]; cbn; [done|]. case_match; [|done]. rewrite IH. constructor. Qed.
Lemma sort_stable_perm {A} (less : A → A → bool) l : sort_stable less l ≡ₚ l.
Proof. induction l as [|x l IH]; cbn; [done|]. by rewrite insert_stable_perm, IH. Qed.

(** Sorting by a key that descends keeps an order among equal keys. *)
Lemma sort_stable_sorted {A} (less : A → A → bool) (key : A → Z) (R : A → A → Prop) l :
  (∀ a b, less a b = true ↔ key b < key a) → StronglySorted R l →
  StronglySorted (λ a b, key b < key a ∨ (key a = key b ∧ R a b)) (sort_stable less l).
Proof.
  intros Hless. induction 1 as [|x l Hl IH Hx]; [constructor|].
  change (sort_stable less (x :: l)) with (insert_stable less x (sort_stable less l)).
  assert (Hx' : Forall (R x) (sort_stable less l)) by by rewrite sort_stable_perm.
  clear Hl Hx. revert IH Hx'. generalize (sort_stable less l) as k. intros k IH Hx'.
  induction IH as [|y r Hr IH' Hy]; cbn; [by repeat constructor|].
  pose proof (Forall_inv Hx') as Hxy. pose proof (Forall_inv_tail Hx') as Hxr. destruct (less y x) eqn:E.
  - apply Hless in E. constructor; [by apply IH'|]. rewrite insert_stable_perm. constructor; [lia|done].
  - assert (¬ key x < key y) by (rewrite <- Hless, E; done).
    assert (Hle : ∀ z, key z <= key y → R x z → key z < key x ∨ (key x = key z ∧ R x z)).
    { intros z Hz HR. destruct (decide (key z < key x)); [by left|right; split; [lia|done]]. }
    constructor; [by constructor|]. constructor; [by apply Hle|].
    rewrite Forall_forall in *. intros z Hz. apply Hle; [destruct (Hy z Hz) as [?|[? _]]; lia|by apply Hxr].
Qed.

Lemma StronglySorted_impl {A} (R S : A → A → Prop) l :
  (∀ a b, R a b → S a b) → StronglySorted R l → StronglySorted S l.
Proof.
  intros HRS. induction 1 as [|x l Hl IH Hx]; constructor; [done|].
  revert Hx. apply Forall_impl. auto.
Qed.

(** ** Items and their order *)

Record swapItem := mkItem {
  si_index : Z;
  si_msg : MsgSwap;
  si_fee : Z;
  si_slip : Z;
}.

Definition same_item (id : string) (index : Z) (item : swapItem) : bool :=
  TxID_Equals (tx_ID (sm_Tx (si_msg item))) id && (index =? si_index item).
Definition HasItem (items : list swapItem) (hash : string) : bool :=
  existsb (λ i, TxID_Equals (tx_ID (sm_Tx (si_msg i))) hash) items.

Record score := mkScore { sc_id : string; sc_score : Z; sc_index : Z }.

(** The score of the first entry of the same swap grows. *)
Fixpoint add_score (id : string) (index n : Z) (l : list score) : list score :=
  match l with
  | [] => []
  | x :: r =>
      if TxID_Equals (sc_id x) id && (sc_index x =? index) then mkScore (sc_id x) (sc_score x + n) (sc_index x) :: r
      else x :: add_score id index n r
  end.
Fixpoint add_scores (n : Z) (items : list swapItem) (l : list score) : list score :=
  match items with
  | [] => l
  | i :: r => add_scores (n + 1) r (add_score (tx_ID (sm_Tx (si_msg i))) (si_index i) n l)
  end.
Fixpoint first_scores (n : Z) (items : list swapItem) : list score :=
  match items with
  | [] => []
  | i :: r => mkScore (tx_ID (sm_Tx (si_msg i))) n (si_index i) :: first_scores (n + 1) r
  end.

(** The zero value of an item, where no item has the score's identity. *)
Definition no_item : swapItem :=
  mkItem 0 (mkMsgSwap (mkTx "" EmptyChain "" "" [] [] "") EmptyAsset "" 0 "" 0 "" "" None false 0 0 "") 0 0.

(** [byFee], [bySlip] and [items] are one array: sorting by slip reorders what
    was sorted by fee, before the scores are given. *)
Definition Sort (items : list swapItem) : list swapItem :=
  let byFee := sort_stable (λ a b, si_fee b <? si_fee a) items in
  let bySlip := sort_stable (λ a b, si_slip b <? si_slip a) byFee in
  let scores := first_scores 0 bySlip in
  let scores := add_scores 0 bySlip scores in
  let scores := sort_stable (λ a b, String.ltb (sc_id a) (sc_id b)) scores in
  let scores := sort_stable (λ a b, sc_score a <? sc_score b) scores in
  (λ x, default no_item (List.find (same_item (sc_id x) (sc_index x)) bySlip)) <$> scores.

(** ** The order of the swaps *)

Definition item_id (i : swapItem) : string * Z := (ToUpper (tx_ID (sm_Tx (si_msg i))), si_index i).
Definition score_id (x : score) : string * Z := (ToUpper (sc_id x), sc_index x).
Definition by_slip_then_fee (items : list swapItem) : list swapItem :=
  sort_stable (λ a b, si_slip b <? si_slip a) (sort_stable (λ a b, si_fee b <? si_fee a) items).

Lemma same_item_spec x i : same_item (sc_id x) (sc_index x) i = bool_decide (score_id x = item_id i).
Proof.
  unfold same_item, TxID_Equals, EqualFold, score_id, item_id.
  apply eq_true_iff_eq. rewrite andb_true_iff, !bool_decide_eq_true, Z.eqb_eq. split; [intros [-> ->]; done|].
  by intros [= -> ->].
Qed.

(** Entries of the same identities, the [k]-th scored [f k]. *)
Fixpoint scored (f : Z → Z) (n : Z) (items : list swapItem) : list score :=
  match items with
  | [] => []
  | i :: r => mkScore (tx_ID (sm_Tx (si_msg i))) (f n) (si_index i) :: scored f (n + 1) r
  end.

Lemma first_scores_scored n items : first_scores n items = scored (λ k, k) n items.
Proof. revert n. induction items as [|i r IH]; intros n; cbn; [done|]. by rewrite IH. Qed.

Lemma scored_ids f n items : score_id <$> scored f n items = item_id <$> items.
Proof. revert n. induction items as [|i r IH]; intros n; cbn; [done|]. f_equal. apply IH. Qed.

Lemma scored_app f n l k : scored f n (l ++ k) = (scored f n l ++ scored f (n + len l) k)%list.
Proof.
  revert n. induction l as [|i l IH]; intros n; cbn; [by rewrite Z.add_0_r|].
  f_equal. rewrite IH. do 2 f_equal. unfold len. cbn [length]. lia.
Qed.

Lemma add_score_at i n pre x post :
  score_id x = item_id i → item_id i ∉ score_id <$> pre →
  add_score (tx_ID (sm_Tx (si_msg i))) (si_index i) n (pre ++ x :: post) =
  (pre ++ mkScore (sc_id x) (sc_score x + n) (sc_index x) :: post)%list.
Proof.
  intros Hx Hpre.
  assert (Heq : ∀ y, TxID_Equals (sc_id y) (tx_ID (sm_Tx (si_msg i))) && (sc_index y =? si_index i) =
                     bool_decide (score_id y = item_id i)).
  { intros y. rewrite <- same_item_spec. unfold same_item, TxID_Equals. by rewrite EqualFold_sym. }
  induction pre as [|y pre IH]; cbn.
  - by rewrite Heq, bool_decide_true.
  - rewrite Heq, bool_decide_false by (intros E; apply Hpre; rewrite <- E; by left).
    f_equal. apply IH. intros Hin. apply Hpre. by right.
Qed.

(** The second pass gives every item its position again. *)
Lemma add_scores_doubles pre items :
  NoDup (item_id <$> pre ++ items)%list →
  add_scores (len pre) items (scored (λ k, k + k) 0 pre ++ scored (λ k, k) (len pre) items)%list =
  scored (λ k, k + k) 0 (pre ++ items).
Proof.
  revert pre. induction items as [|i r IH]; intros pre Hnd; cbn [add_scores scored].
  - by rewrite !app_nil_r.
  - rewrite add_score_at; [|done|].
    + specialize (IH (pre ++ [i])%list). rewrite <- !app_assoc in IH. cbn [app] in IH.
      replace (len pre + 1) with (len (pre ++ [i])%list) by (unfold len; rewrite length_app; cbn; lia).
      rewrite <- IH by done. f_equal. rewrite scored_app. cbn [scored]. rewrite Z.add_0_l, <- app_assoc. done.
    + rewrite scored_ids. rewrite fmap_app, fmap_cons in Hnd.
      apply list.NoDup_app in Hnd as (_ & Hd & _). intros Hin. apply (Hd _ Hin). by left.
Qed.

Lemma scored_bound f n items x :
  (∀ a b, a < b → f a < f b) → x ∈ scored f n items → f n <= sc_score x.
Proof.
  intros Hf. revert n. induction items as [|i r IH]; intros n; cbn; [by intros ?%not_elem_of_nil|].
  intros [-> |Hx]%elem_of_cons; [cbn; lia|]. apply IH in Hx. pose proof (Hf n (n + 1)). lia.
Qed.
Lemma scored_sorted f n items :
  (∀ a b, a < b → f a < f b) → StronglySorted (λ a b, sc_score a < sc_score b) (scored f n items).
Proof.
  intros Hf. revert n. induction items as [|i r IH]; intros n; cbn; [constructor|].
  constructor; [apply IH|]. apply Forall_forall. intros x Hx%list_elem_of_In.
  apply scored_bound in Hx; [|done]. pose proof (Hf n (n + 1)). cbn. lia.
Qed.

(** A list in strictly ascending order is what sorting any permutation of it
    gives. *)
Lemma sort_scores l k :
  StronglySorted (λ a b, sc_score a < sc_score b) l → k ≡ₚ l →
  sort_stable (λ a b, sc_score a <? sc_score b) k = l.
Proof.
  intros Hl Hk.
  assert (Hs : StronglySorted (λ a b, - sc_score b < - sc_score a ∨ (- sc_score a = - sc_score b ∧ True))
                 (sort_stable (λ a b, sc_score a <? sc_score b) k)).
  { apply sort_stable_sorted; [intros a b; rewrite Z.ltb_lt; lia|].
    clear. induction k; constructor; [done|]. apply Forall_forall. done. }
  eapply (StronglySorted_unique_strong (λ a b, sc_score a <= sc_score b)).
  - intros x y Hx Hy L1 L2.
    assert (Hx' : x ∈ l) by (by rewrite <- Hk, <- (sort_stable_perm (λ a b, sc_score a <? sc_score b))).
    clear -Hl Hx' Hy L1 L2. induction Hl as [|z l Hl IH Hz]; [by apply not_elem_of_nil in Hy|].
    rewrite Forall_forall in Hz.
    apply elem_of_cons in Hx' as [->|Hx']; apply elem_of_cons in Hy as [->|Hy]; [done|..].
    + apply list_elem_of_In in Hy. specialize (Hz _ Hy). lia.
    + apply list_elem_of_In in Hx'. specialize (Hz _ Hx'). lia.
    + by apply IH.
  - revert Hs. apply StronglySorted_impl. lia.
  - revert Hl. apply StronglySorted_impl. lia.
  - by rewrite sort_stable_perm.
Qed.

Lemma find_itself (l : list swapItem) i x :
  NoDup (item_id <$> l) → i ∈ l → score_id x = item_id i →
  List.find (same_item (sc_id x) (sc_index x)) l = Some i.
Proof.
  induction l as [|j l IH]; cbn; intros Hnd Hi Hx; [by apply not_elem_of_nil in Hi|].
  apply list.NoDup_cons in Hnd as [Hj Hnd]. rewrite same_item_spec.
  apply elem_of_cons in Hi as [->|Hi]; [by rewrite bool_decide_true|].
  rewrite bool_decide_false; [by apply IH|]. intros E. apply Hj. rewrite <- E, Hx.
  by apply list_elem_of_fmap_2.
Qed.

Lemma scored_items f n (all items : list swapItem) :
  NoDup (item_id <$> all) → items ⊆ all →
  (λ x, default no_item (List.find (same_item (sc_id x) (sc_index x)) all)) <$> scored f n items = items.
Proof.
  intros Hnd. revert n. induction items as [|i r IH]; intros n Hsub; cbn; [done|]. f_equal.
  - pose proof (find_itself all i (mkScore (tx_ID (sm_Tx (si_msg i))) (f n) (si_index i)) Hnd) as Hf. cbn in Hf.
    rewrite Hf; [done|apply Hsub; by left|done].
  - apply IH. intros x Hx. apply Hsub. by right.
Qed.

Lemma by_slip_perm items : by_slip_then_fee items ≡ₚ items.
Proof. unfold by_slip_then_fee. by rewrite !sort_stable_perm. Qed.

Lemma Sort_eq items : NoDup (item_id <$> items) → Sort items = by_slip_then_fee items.
Proof.
  intros Hnd. assert (Hnd' : NoDup (item_id <$> by_slip_then_fee items)) by (by rewrite by_slip_perm).
  unfold Sort. fold (by_slip_then_fee items). rewrite first_scores_scored.
  pose proof (add_scores_doubles [] (by_slip_then_fee items) Hnd') as Hd. cbn [app scored] in Hd.
  change (len []) with 0 in Hd. rewrite Hd.
  rewrite (sort_scores (scored (λ k, k + k) 0 (by_slip_then_fee items)));
    [by apply scored_items|apply scored_sorted; intros a b; cbn; lia|by rewrite sort_stable_perm].
Qed.

(** C30: The order of the swaps of a block: every swap once, by slip, and only among
    equal slips by fee.  The position in the order by fee, which is meant to
    weigh as much as that in the order by slip ("add liquidity fee score"), has
    no weight: both orders are kept in one array. *)
Theorem Sort_is_by_slip items :
  NoDup (item_id <$> items) →
  Sort items = by_slip_then_fee items ∧ Sort items ≡ₚ items ∧
  StronglySorted (λ a b, si_slip b < si_slip a ∨ (si_slip a = si_slip b ∧ si_fee b <= si_fee a)) (Sort items).
Proof.
  intros Hnd. rewrite (Sort_eq _ Hnd). split; [done|]. split; [apply by_slip_perm|].
  assert (Hs0 : StronglySorted (λ _ _, True) items).
  { clear. induction items; constructor; [done|]. apply Forall_forall. done. }
  eapply StronglySorted_impl; cycle 1.
  - apply (sort_stable_sorted _ si_slip); [intros a b; apply Z.ltb_lt|].
    apply (sort_stable_sorted _ si_fee); [intros a b; apply Z.ltb_lt|exact Hs0].
  - cbn. intros a b. lia.
Qed.

(** Three swaps of 100, 200 and 300 slip and fee 900, 5 and 5: the one with the
    largest fee is last. *)
Definition ordered_swap (id : string) (fee slip : Z) : swapItem :=
  mkItem 0 (mkMsgSwap (mkTx id EmptyChain "" "" [] [] "") EmptyAsset "" 0 "" 0 "" "" None false 0 0 "") fee slip.
Definition ordered_swaps : list swapItem := [ordered_swap "AA" 900 100; ordered_swap "BB" 5 200; ordered_swap "CC" 5 300].

Lemma Sort_is_by_slip_witness :
  NoDup (item_id <$> ordered_swaps) ∧ (tx_ID ∘ sm_Tx ∘ si_msg <$> Sort ordered_swaps) = ["CC"; "BB"; "AA"] ∧
  Sort ordered_swaps ≡ₚ ordered_swaps.
Proof.
  assert (NoDup (item_id <$> ordered_swaps)) as Hnd by (apply (bool_decide_unpack _); vm_compute; exact I).
  split; [exact Hnd|]. split; [vm_compute; reflexivity|]. apply (Sort_is_by_slip _ Hnd).
Defined.
