(* ===== verification/SwapQueue.v ===== *)
(** * The swap queue

    src/x/switchly/manager_swap_queue_current.go: the swaps that are due are
    fetched, scored, ordered ([Sort]), and the first of them handled at the end
    of every block; a swap that fails is refunded, and a streaming swap that is
    done is paid out. *)

From Stdlib Require Import Ascii.
From stdpp Require Import pretty sorting.
From S2P Require Import Prelude CosmosMath Amounts GoStrings GoNumbers Assets Coins Pools Constants State Txs Names MemoTypes MemoParser Streaming Swap Halts Nodes Quorum ObservedTx Attest Refunds SwapHandler SwapOrder.
Open Scope Z_scope.

(** ** Indices in keys *)

(** The text after the last dash of a key. *)
Definition last_field (key : string) : string := List.last (Split "-" key) "".

Lemma item_key_eq id i : 0 <= i → item_key id i = ToUpper id +:+ "-" +:+ pretty i.
Proof.
  intros Hi. unfold item_key, GetKey, ToUpper. rewrite !str_map_app. do 2 f_equal.
  apply digits_upper. by apply pretty_digits.
Qed.
Lemma item_key_index id i : 0 <= i < 2 ^ 63 → Atoi (last_field (item_key id i)) = Some i.
Proof.
  intros Hi. rewrite item_key_eq by lia. unfold last_field.
  change ("-" +:+ pretty i) with (String "-" (pretty i)). rewrite last_Split by (apply pretty_without; [lia|done]).
  by apply ParseInt64_pretty.
Qed.

Section SwapQueue.
  Context `{CosmosMath} `{Bank} `{Env} `{!Managers} `{!SwapParams} `{!FollowOns}.
Abbreviation Q := (M QueueState).

(** ** Scores *)

Definition getLiquidityFeeAndSlip (pool : Pool) (sourceCoin : Coin) (virtualDepthMult : Z) (item : swapItem)
    : outcome swapItem :=
  let x := coin_amount sourceCoin in
  let '(X, Y) := if Assets.IsSwitch (coin_asset sourceCoin) then (BalanceSwitch pool, BalanceAsset pool)
                 else (BalanceAsset pool, BalanceSwitch pool) in
  let X := GetUncappedShare (to_u64 virtualDepthMult) 10000 X in
  let Y := GetUncappedShare (to_u64 virtualDepthMult) 10000 Y in
  fee ← CalcLiquidityFee X x Y;
  let fee := if Assets.IsSwitch (coin_asset sourceCoin) then AssetValueInSWITCH pool fee else fee in
  slip ← CalcSwapSlip X x;
  fee ← uadd (si_fee item) fee;
  slip ← uadd (si_slip item) slip;
  Ok (mkItem (si_index item) (si_msg item) fee slip).

(** The pool a leg is scored against; SWITCH has none. *)
Definition leg_pool (a : Asset) : K Pool :=
  if Assets.IsSwitch a then mret NewPool else GetPool (Assets.GetLayer1Asset a).
Definition no_depth (pool : Pool) : bool :=
  Pool_IsEmpty pool || (BalanceSwitch pool =? 0) || (BalanceAsset pool =? 0).

Definition score_item (synthVirtualDepthMult : Z) (item : swapItem) : K swapItem :=
  coin ← lift (first_coin (sm_Tx (si_msg item)));
  let source := coin_asset coin in
  let target := TargetAsset (si_msg item) in
  let mult a := if Synth a then synthVirtualDepthMult else 10000 in
  let nonSWITCH := if Assets.IsSwitch source then target else source in
  pool ← leg_pool nonSWITCH;
  if no_depth pool then mret item
  else if negb (IsAvailable pool) && negb (Synth source) then mret item
  else
    item ← lift (getLiquidityFeeAndSlip pool coin (mult nonSWITCH) item);
    if Assets.IsSwitch source || Assets.IsSwitch target then mret item
    else
      let switchCoin := NewCoin SwitchNative (AssetValueInSWITCH pool (coin_amount coin)) in
      pool ← leg_pool target;
      if no_depth pool || negb (IsAvailable pool) then mret item
      else lift (getLiquidityFeeAndSlip pool switchCoin (mult target) item).

Fixpoint scoreMsgs (synthVirtualDepthMult : Z) (items : list swapItem) : K (list swapItem) :=
  match items with
  | [] => mret []
  | i :: r =>
      i ← score_item synthVirtualDepthMult i;
      r ← scoreMsgs synthVirtualDepthMult r;
      mret (i :: r)
  end.

(** ** What is due *)

(** The remainder of Go: the sign of the dividend, and no value for zero. *)
Definition go_rem (a b : Z) : outcome Z := if b =? 0 then Panic else Ok (Z.rem a b).

Definition stream_due (ctx : Ctx) (msg : MsgSwap) (swp : StreamingSwap) : Q bool :=
  if 0 <? LastHeight swp then
    if BlockHeight ctx <=? LastHeight swp then mret false
    else
      r ← lift (go_rem (to_i64 (BlockHeight ctx - LastHeight swp)) (to_i64 (Interval swp)));
      if negb (r =? 0) then mret false
      else
        halted ← on_core (IsTradingHalt ctx (SwapMsg (tx_Coins (sm_Tx msg)) (TargetAsset msg)));
        mret (negb halted)
  else mret true.

Definition is_due (ctx : Ctx) (msg : MsgSwap) : Q bool :=
  if IsStreaming msg then
    paused ← on_core (GetConfigInt64 "StreamingSwapPause");
    if 0 <? paused then mret false
    else swp ← stored_stream msg; stream_due ctx msg swp
  else mret true.

Fixpoint fetch (ctx : Ctx) (entries : list (string * MsgSwap)) : Q (list swapItem) :=
  match entries with
  | [] => mret []
  | (key, msg) :: r =>
      match Atoi (last_field key) with
      | None => fetch ctx r
      | Some i =>
          due ← is_due ctx msg;
          rest ← fetch ctx r;
          mret (if due : bool then mkItem i msg 0 0 :: rest else rest)
      end
  end.
Definition FetchQueue (ctx : Ctx) : Q (list swapItem) :=
  entries ← gets (λ s, merge_sort key_le (map_to_list (swapQueue s)));
  fetch ctx entries.

(** Half of the queue, all of a short one, and never more than the maximum. *)
Definition getTodoNum (queueLen minSwapsPerBlock maxSwapsPerBlock : Z) : Z :=
  let todo := Z.quot queueLen 2 in
  let todo := if queueLen <=? minSwapsPerBlock then queueLen else todo in
  if maxSwapsPerBlock <? todo then maxSwapsPerBlock else todo.

(** ** The end of a block *)

(** [NewInternalHandler]: what the handler did is kept only if it succeeds. *)
Definition run_handler (ctx : Ctx) (msg : MsgSwap) : Q (() + error) := λ s,
  match swap_Run ctx msg s with
  | (Ok u, s') => (Ok (inl u), s')
  | (Err e, _) => (Ok (inr e), s)
  | (Panic, s') => (Panic, s')
  end.

(** The SWITCH of an affiliate's swap is put back to its collector. *)
Definition cleanupFailedPreferredAssetSwap (ctx : Ctx) (memo : string) (switchAmt : Z) : Q () :=
  let prefix := PreferredAssetSwapMemoPrefix +:+ "-" in
  _ ← fail_when (negb (String.prefix prefix memo)) "failed to get switchlyname from memo";
  let name := String.substring (String.length prefix) (String.length memo - String.length prefix) memo in
  tn ← on_core (GetSWITCHName ctx name);
  let owner := sn_Owner tn in
  amt ← GetAffiliateCollector owner;
  amt ← lift (uadd amt switchAmt);
  _ ← SetAffiliateCollector owner amt;
  on_core (SendFromModuleToModule AsgardName AffiliateCollectorName [NewCoin SwitchNative switchAmt]).

Definition CodeSwapFail : Z := 108.
Definition CodeFailAddOutboundTx : Z := 131.

(** The refund goes through the vault the transaction was observed in. *)
Definition refund_swap (ctx : Ctx) (tx : Tx) (e : error) : Q () :=
  voter ← in_obs (GetObservedTxInVoter (tx_ID tx));
  let vault := if ObservedTx_IsEmpty (ov_Tx voter) then "" else ObservedPubKey (ov_Tx voter) in
  _ ← attempt (in_obs (refundTx ctx tx vault CodeSwapFail e ""));
  mret ().

(** Whether a failed swap is refunded here: a streaming swap only when nothing of
    it was swapped, and an affiliate's swap never. *)
Definition fail_item (ctx : Ctx) (pick : swapItem) (swp : StreamingSwap) (e : error) : Q bool :=
  let msg := si_msg pick in
  let tx := sm_Tx msg in
  if IsStreaming msg then
    ex ← StreamingSwapExists (tx_ID tx);
    swp ← (if ex : bool then Keeper_GetStreamingSwap (tx_ID tx) else mret swp);
    if (In swp =? 0) && (Out swp =? 0) then
      _ ← RemoveStreamingSwap (tx_ID tx);
      _ ← RemoveSwapQueueItem (tx_ID tx) (si_index pick);
      _ ← refund_swap ctx (set_amount (ss_Deposit swp) tx) e;
      mret true
    else mret false
  else if is_preferred_swap tx then
    coin ← lift (first_coin tx);
    _ ← attempt (cleanupFailedPreferredAssetSwap ctx (Memo tx) (coin_amount coin));
    mret false
  else
    _ ← refund_swap ctx tx e;
    mret true.

(** The record after an attempt. *)
Definition count_attempt (ctx : Ctx) (r : () + error) (swp : StreamingSwap) : StreamingSwap :=
  let count := to_u64 (Count swp + 1) in
  mkStreamingSwap (ss_TxID swp) (Interval swp) (Quantity swp) count (BlockHeight ctx) (ss_TradeTarget swp)
    (ss_Deposit swp) (In swp) (Out swp)
    (match r with inl _ => FailedSwaps swp | inr _ => FailedSwaps swp ++ [count] end)%list
    (match r with inl _ => FailedSwapReasons swp | inr e => FailedSwapReasons swp ++ [e] end)%list.

(** The output of a stream that is done. *)
Definition pay_out (ctx : Ctx) (msg : MsgSwap) (swp : StreamingSwap) : Q () :=
  dexAgg ← lift (if bool_decide (Aggregator msg = "") then Ok ""
                 else FetchDexAggregator (Assets.GetChain (TargetAsset msg)) (Aggregator msg));
  let coin := NewCoin (TargetAsset msg) (Out swp) in
  let toi := mkTxOutItem (Assets.GetChain (TargetAsset msg)) (tx_ID (sm_Tx msg)) (Destination msg) coin dexAgg
               (AggregatorTargetAddress msg) (AggregatorTargetLimit msg) in
  r ← attempt (on_core (TryAddTxOutItem ctx toi 0));
  match r with
  | inl _ => mret ()
  | inr e =>
      _ ← in_obs (unrefundableCoinCleanup toi);
      on_core (EmitEvent (EvRefund CodeFailAddOutboundTx
        (e +:+ "; fail to refund (" +:+ Coin_String coin +:+ "): streaming swap output") (tx_ID (sm_Tx msg)) [coin]))
  end.

(** What was not swapped goes back. *)
Definition refund_rest (ctx : Ctx) (msg : MsgSwap) (swp : StreamingSwap) : Q () :=
  if In swp <? ss_Deposit swp then
    rest ← lift (SafeSub (ss_Deposit swp) (In swp));
    coin ← lift (first_coin (sm_Tx msg));
    let tx := set_tx_Coins [NewCoin (coin_asset coin) rest] (sm_Tx msg) in
    _ ← attempt (in_obs (refundTx ctx tx "" CodeSwapFail "streaming partial-refund" ""));
    mret ()
  else mret ().

Definition finish_stream (ctx : Ctx) (pick : swapItem) (swp : StreamingSwap) : Q () :=
  let msg := si_msg pick in
  _ ← RemoveSwapQueueItem (tx_ID (sm_Tx msg)) (si_index pick);
  _ ← RemoveStreamingSwap (tx_ID (sm_Tx msg));
  '(memo, e) ← on_core (read_memo ctx (Memo (sm_Tx msg)));
  _ ← check e;
  _ ← (if negb (Out swp =? 0) && negb (IsType memo TxAdd)
       then pay_out ctx msg swp else mret ());
  _ ← refund_rest ctx msg swp;
  coin ← lift (first_coin (sm_Tx msg));
  on_core (EmitEvent (EvStreamingSwap (coin_asset coin) (TargetAsset msg) (ss_TxID swp) (Quantity swp) (Count swp)
    (LastHeight swp) (ss_TradeTarget swp) (ss_Deposit swp) (In swp) (Out swp))).

Definition process_item (ctx : Ctx) (pick : swapItem) : Q () :=
  let msg := si_msg pick in
  swp ← lift (GetStreamingSwap msg);
  r ← run_handler ctx msg;
  triggerRefund ← match r with inl _ => mret false | inr e => fail_item ctx pick swp e end;
  if IsStreaming msg then
    swp ← Keeper_GetStreamingSwap (tx_ID (sm_Tx msg));
    let swp := count_attempt ctx r swp in
    _ ← (if triggerRefund : bool then mret () else SetStreamingSwap swp);
    if bool_decide (SS_Valid swp = None) && IsDone swp then finish_stream ctx pick swp else mret ()
  else RemoveSwapQueueItem (tx_ID (sm_Tx msg)) (si_index pick).

Definition mimir_or_constant (key : string) (least : Z) : Q Z :=
  v ← on_core (GetMimir key);
  mret (if v <? least then GetInt64Value int64Overrides key else v).

(** The swaps of the block, in order. *)
Definition block_picks (ctx : Ctx) : Q (list swapItem) :=
  minSwapsPerBlock ← mimir_or_constant "MinSwapsPerBlock" 0;
  maxSwapsPerBlock ← mimir_or_constant "MaxSwapsPerBlock" 0;
  synthVirtualDepthMult ← mimir_or_constant "VirtualMultSynthsBasisPoints" 1;
  swaps ← FetchQueue ctx;
  swaps ← on_core (scoreMsgs synthVirtualDepthMult swaps);
  mret (take (Z.to_nat (getTodoNum (len swaps) minSwapsPerBlock maxSwapsPerBlock)) (Sort swaps)).

Definition EndBlock (ctx : Ctx) : Q () :=
  picks ← block_picks ctx;
  for_each (process_item ctx) picks.

(** ** What leaves the queue *)

(** A call that at most removes the entry under one key, however it ends. *)
Definition removes (key : string) (m m' : gmap string MsgSwap) : Prop :=
  m' = m ∨ m' = delete key m.
Definition only_removes {A} (key : string) (m : Q A) : Prop :=
  ∀ s r s', m s = (r, s') → removes key (swapQueue s) (swapQueue s').

Lemma removes_trans key m1 m2 m3 : removes key m1 m2 → removes key m2 m3 → removes key m1 m3.
Proof. unfold removes. intros [-> | ->] [-> | ->]; auto. right. by rewrite delete_delete_eq. Qed.

Lemma removes_bind {A B} key (m : Q A) (f : A → Q B) :
  only_removes key m → (∀ a, only_removes key (f a)) → only_removes key (m ≫= f).
Proof.
  intros Hm Hf s r s' E. unfold mbind, M_bind in E. destruct (m s) as [[a|e|] s1] eqn:E1; apply Hm in E1.
  - apply Hf in E. by eapply removes_trans.
  - by injection E as _ <-.
  - by injection E as _ <-.
Qed.

Lemma removes_same {A} key (m : Q A) : (∀ s r s', m s = (r, s') → swapQueue s' = swapQueue s) → only_removes key m.
Proof. intros Hm s r s' E. left. by eapply Hm. Qed.
Lemma removes_ret {A} key (a : A) : only_removes key (mret a : Q A).
Proof. apply removes_same. by intros s r s' [= <- <-]. Qed.
Lemma removes_lift {A} key (m : outcome A) : only_removes key (lift m : Q A).
Proof. apply removes_same. by intros s r s' [= <- <-]. Qed.
Lemma removes_gets {A} key (f : QueueState → A) : only_removes key (gets f).
Proof. apply removes_same. by intros s r s' [= <- <-]. Qed.
Lemma removes_fail_when key b e : only_removes key (fail_when b e : Q ()).
Proof. apply removes_same. intros s r s'. destruct b; by intros [= <- <-]. Qed.
Lemma removes_throw {A} key e : only_removes key (throw e : Q A).
Proof. apply removes_same. by intros s r s' [= <- <-]. Qed.
Lemma removes_check key e : only_removes key (check e : Q ()).
Proof. destruct e; [apply removes_throw|apply removes_ret]. Qed.
Lemma removes_in_obs {A} key (m : M ObsState A) : only_removes key (in_obs m).
Proof. apply removes_same. intros s r s'. unfold in_obs. destruct (m (q_obs s)). by intros [= <- <-]. Qed.
Lemma removes_on_core {A} key (m : K A) : only_removes key (on_core m).
Proof. apply removes_in_obs. Qed.
Lemma removes_attempt {A} key (m : Q A) : only_removes key m → only_removes key (attempt m).
Proof.
  intros Hm s r s' E. unfold attempt in E. destruct (m s) as [[a|e|] s1] eqn:E1; apply Hm in E1;
    by injection E as _ <-.
Qed.
Lemma removes_for_each {A} key (f : A → Q ()) l : (∀ a, only_removes key (f a)) → only_removes key (for_each f l).
Proof. intros Hf. induction l as [|a l IH]; [apply removes_ret|]. by apply removes_bind. Qed.
Lemma removes_modify key (f : QueueState → QueueState) :
  (∀ s, swapQueue (f s) = swapQueue s) → only_removes key (modify f).
Proof. intros Hf. apply removes_same. intros s r s' [= <- <-]. apply Hf. Qed.
Lemma removes_item id i : only_removes (item_key id i) (RemoveSwapQueueItem id i).
Proof. intros s r s' [= <- <-]. by right. Qed.
Lemma removes_run_handler key ctx msg : only_removes key (swap_Run ctx msg) → only_removes key (run_handler ctx msg).
Proof.
  intros Hr s r s' E. unfold run_handler in E. destruct (swap_Run ctx msg s) as [[u|e|] s1] eqn:E1; apply Hr in E1.
  - by injection E as _ <-.
  - injection E as _ <-. by left.
  - by injection E as _ <-.
Qed.

Ltac removes_tac :=
  repeat first
    [ apply removes_ret | apply removes_lift | apply removes_gets | apply removes_fail_when | apply removes_throw
    | apply removes_check | apply removes_on_core | apply removes_in_obs | apply removes_item
    | apply removes_modify; reflexivity
    | apply removes_bind; [|intros ?] | apply removes_attempt | apply removes_for_each; intros ?
    | case_match ].

Lemma removes_stored_stream key msg : only_removes key (stored_stream msg).
Proof. unfold stored_stream, StreamingSwapExists, Keeper_GetStreamingSwap. removes_tac. Qed.

Lemma removes_validate key ctx msg : only_removes key (swap_validate ctx msg).
Proof.
  unfold swap_validate, validate_memo, validate_derived, validate_aggregator, validate_stream.
  repeat (first [apply removes_stored_stream | progress removes_tac]).
Qed.

Lemma removes_swap_Run key ctx msg : only_removes key (swap_Run ctx msg).
Proof.
  unfold swap_Run. apply removes_bind; [apply removes_validate|intros _].
  unfold swap_handle, next_sub_swap, credit_affiliate, run_follow_on, SetStreamingSwap, GetAffiliateCollector, SetAffiliateCollector.
  repeat (first [apply removes_stored_stream | progress removes_tac]).
Qed.

Lemma removes_refund_swap key ctx tx e : only_removes key (refund_swap ctx tx e).
Proof. unfold refund_swap. removes_tac. Qed.

Definition pick_key (pick : swapItem) : string := item_key (tx_ID (sm_Tx (si_msg pick))) (si_index pick).

Lemma removes_fail_item ctx pick swp e : only_removes (pick_key pick) (fail_item ctx pick swp e).
Proof.
  unfold fail_item, StreamingSwapExists, Keeper_GetStreamingSwap, RemoveStreamingSwap, cleanupFailedPreferredAssetSwap, GetAffiliateCollector, SetAffiliateCollector, pick_key.
  repeat (first [apply removes_refund_swap | progress removes_tac]).
Qed.

Lemma removes_finish ctx pick swp : only_removes (pick_key pick) (finish_stream ctx pick swp).
Proof. unfold finish_stream, RemoveStreamingSwap, pay_out, refund_rest, pick_key. removes_tac. Qed.

(** Handling a swap at most removes its own entry, and a swap that does not
    stream always leaves. *)
Lemma process_item_removes ctx pick s u s' :
  process_item ctx pick s = (Ok u, s') →
  removes (pick_key pick) (swapQueue s) (swapQueue s') ∧
  (IsStreaming (si_msg pick) = false → swapQueue s' = delete (pick_key pick) (swapQueue s)).
Proof.
  intros Hok. unfold process_item in Hok. run_step Hok swp s1 E1. apply lift_ok in E1 as [_ ->].
  run_step Hok r s2 E2. apply (removes_run_handler (pick_key pick)) in E2; [|apply removes_swap_Run].
  run_step Hok b s3 E3.
  assert (Hr3 : removes (pick_key pick) (swapQueue s2) (swapQueue s3)).
  { destruct r; [by apply ret_ok in E3 as [_ ->]; left|by eapply removes_fail_item]. }
  pose proof (removes_trans _ _ _ _ E2 Hr3) as H23. destruct (IsStreaming (si_msg pick)).
  - split; [|done]. eapply removes_trans; [exact H23|].
    eapply (removes_bind (pick_key pick)); [| |exact Hok].
    + apply removes_gets.
    + intros a. unfold SetStreamingSwap. apply removes_bind; [destruct b; removes_tac|intros _].
      destruct (_ && _); [apply removes_finish|apply removes_ret].
  - apply modify_ok in Hok as ->. cbn. fold (pick_key pick). assert (Hd : delete (pick_key pick) (swapQueue s3) = delete (pick_key pick) (swapQueue s)).
    { destruct H23 as [-> | ->]; [done|by rewrite delete_delete_eq]. }
    rewrite Hd. split; [by right|done].
Qed.

(** ** The swaps of a block *)

(** Every entry is under its own key. *)
Definition filed_queue (m : gmap string MsgSwap) : Prop :=
  ∀ k msg, m !! k = Some msg → ∃ i, 0 <= i < 2 ^ 63 ∧ k = item_key (tx_ID (sm_Tx msg)) i.

Lemma SetSwapQueueItem_filed msg i s u s' :
  0 <= i < 2 ^ 63 → filed_queue (swapQueue s) → SetSwapQueueItem msg i s = (Ok u, s') → filed_queue (swapQueue s').
Proof.
  intros Hi Hf Hok. apply modify_ok in Hok as ->. intros k m. cbn. rewrite lookup_insert_Some.
  intros [[<- <-]|[_ Hk]]; [by exists i|by apply Hf].
Qed.

(** A call that removes nothing under any key leaves the queue as it is. *)
Lemma removes_none {A} (m : Q A) s r s' :
  (∀ key, only_removes key m) → m s = (r, s') → swapQueue s' = swapQueue s.
Proof.
  intros Hm E. set (key := fresh (dom (swapQueue s))).
  destruct (Hm key s r s' E) as [->| ->]; [done|]. apply delete_id.
  apply not_elem_of_dom. apply is_fresh.
Qed.

Lemma pick_key_of_id i : pick_key i = GetKey (fst (item_id i) +:+ "-" +:+ pretty (snd (item_id i))).
Proof.
  unfold pick_key, item_key, GetKey, item_id. cbn [fst snd]. unfold ToUpper. rewrite !str_map_app.
  fold ToUpper. by rewrite ToUpper_idem.
Qed.

Lemma removes_is_due key ctx msg : only_removes key (is_due ctx msg).
Proof.
  unfold is_due, stream_due. repeat (first [apply removes_stored_stream | progress removes_tac]).
Qed.
Lemma removes_fetch key ctx l : only_removes key (fetch ctx l).
Proof.
  induction l as [|[k msg] l IH]; cbn; [removes_tac|]. destruct (Atoi _); [|done].
  apply removes_bind; [apply removes_is_due|intros due]. by apply removes_bind; [|intros rest; removes_tac].
Qed.
Lemma removes_block_picks key ctx : only_removes key (block_picks ctx).
Proof.
  unfold block_picks, mimir_or_constant, FetchQueue.
  repeat (first [apply removes_fetch | progress removes_tac]).
Qed.

(** What is fetched are entries of the queue, with the index of their key. *)
Lemma fetch_ok ctx (entries : list (string * MsgSwap)) s items s' :
  (∀ (k : string) (msg : MsgSwap), (k, msg) ∈ entries → ∃ i, 0 <= i < 2 ^ 63 ∧ k = item_key (tx_ID (sm_Tx msg)) i) →
  fetch ctx entries s = (Ok items, s') →
  sublist (pick_key <$> items) entries.*1 ∧
  ∀ item, item ∈ items → (pick_key item, si_msg item) ∈ entries.
Proof.
  revert s items s'. induction entries as [|[k msg] entries IH]; intros s items s' Hf Hok; cbn in Hok.
  { apply ret_ok in Hok as [-> ->]. split; [constructor|by intros ? ?%not_elem_of_nil]. }
  destruct (Hf k msg) as (i & Hi & Hk); [by left|].
  rewrite Hk, item_key_index in Hok by done.
  run_step Hok due s1 E1. run_step Hok rest s2 E2. apply IH in E2 as [Hsub Hin]; [|intros k' m' Hm; apply Hf; by right].
  apply ret_ok in Hok as [-> ->]. destruct due; cbn.
  - split.
    + replace (pick_key (mkItem i msg 0 0)) with k by done. by constructor.
    + intros item [->|Hitem]%elem_of_cons; [rewrite Hk; by left|right; by apply Hin].
  - split; [by constructor|]. intros item Hitem. right. by apply Hin.
Qed.

Definition item_core (i : swapItem) : Z * MsgSwap := (si_index i, si_msg i).

Lemma getLiquidityFeeAndSlip_core pool c m item item' :
  getLiquidityFeeAndSlip pool c m item = Ok item' → item_core item' = item_core item.
Proof. unfold getLiquidityFeeAndSlip. destruct (Assets.IsSwitch _); intros Hok; by ok_inv. Qed.

Lemma score_item_core mult item s item' s' :
  score_item mult item s = (Ok item', s') → item_core item' = item_core item.
Proof.
  intros Hok. unfold score_item in Hok. run_step Hok coin s1 E1. run_step Hok pool s2 E2.
  run_case Hok; [by apply ret_ok in Hok as [-> _]|]. run_case Hok; [by apply ret_ok in Hok as [-> _]|].
  run_step Hok i1 s3 E3. apply lift_ok in E3 as [E3 ->]. apply getLiquidityFeeAndSlip_core in E3.
  run_case Hok; [by apply ret_ok in Hok as [-> _]|]. run_step Hok pool2 s4 E4.
  run_case Hok; [by apply ret_ok in Hok as [-> _]|]. apply lift_ok in Hok as [Hok _].
  apply getLiquidityFeeAndSlip_core in Hok. congruence.
Qed.

Lemma scoreMsgs_core mult items s items' s' :
  scoreMsgs mult items s = (Ok items', s') → item_core <$> items' = item_core <$> items.
Proof.
  revert s items' s'. induction items as [|i r IH]; intros s items' s' Hok; cbn in Hok.
  - by apply ret_ok in Hok as [-> _].
  - run_step Hok i1 s1 E1. run_step Hok r1 s2 E2. apply ret_ok in Hok as [-> _].
    apply score_item_core in E1. apply IH in E2. rewrite !fmap_cons. by f_equal.
Qed.

(** The key of an item says which swap it is. *)
Lemma item_ids_nodup (items : list swapItem) : NoDup (pick_key <$> items) → NoDup (item_id <$> items).
Proof.
  intros Hnd. apply (NoDup_fmap_1 (λ p, GetKey (fst p +:+ "-" +:+ pretty (snd p)))).
  rewrite <- list_fmap_compose. erewrite list_fmap_ext; [exact Hnd|]. intros _ i _. symmetry. apply pick_key_of_id.
Qed.
Lemma pick_keys_core (items items' : list swapItem) :
  item_core <$> items' = item_core <$> items → pick_key <$> items' = pick_key <$> items.
Proof.
  intros E. set (f := λ p : Z * MsgSwap, item_key (tx_ID (sm_Tx (snd p))) (fst p)).
  change (pick_key <$> items') with ((f ∘ item_core) <$> items').
  change (pick_key <$> items) with ((f ∘ item_core) <$> items). by rewrite !list_fmap_compose, E.
Qed.

(** A swap that does not stream is always due. *)
Lemma fetch_all ctx (entries : list (string * MsgSwap)) s items s' :
  (∀ (k : string) (msg : MsgSwap), (k, msg) ∈ entries →
     IsStreaming msg = false ∧ ∃ i, 0 <= i < 2 ^ 63 ∧ k = item_key (tx_ID (sm_Tx msg)) i) →
  fetch ctx entries s = (Ok items, s') → length items = length entries.
Proof.
  revert s items s'. induction entries as [|[k msg] entries IH]; intros s items s' Hf Hok; cbn in Hok.
  { by apply ret_ok in Hok as [-> ->]. }
  destruct (Hf k msg) as (Hst & i & Hi & Hk); [by left|].
  rewrite Hk, item_key_index in Hok by done. unfold is_due in Hok. rewrite Hst in Hok.
  run_step Hok due s1 E1. apply ret_ok in E1 as [-> ->].
  run_step Hok rest s2 E2. apply IH in E2; [|intros k' m' Hm; apply Hf; by right].
  apply ret_ok in Hok as [-> ->]. cbn. by rewrite E2.
Qed.

Lemma mimir_or_constant_ok key least s v s' :
  mimir_or_constant key least s = (Ok v, s') → s' = s ∧ mimir_or_constant key least s = (Ok v, s).
Proof.
  assert (Hs : snd (mimir_or_constant key least s) = s) by (by destruct s as [[[]]]).
  intros E. rewrite E in Hs. cbn in Hs. subst s'. by split.
Qed.

(** The bound on the swaps of a block under a key. *)
Definition swaps_limit (key : string) (s : QueueState) : Z :=
  match fst (mimir_or_constant key 0 s) with Ok v => v | _ => 0 end.

Lemma on_core_ok {A} (m : K A) s a s' : on_core m s = (Ok a, s') → ∃ c, m (core (q_obs s)) = (Ok a, c).
Proof.
  unfold on_core, in_obs, in_core. destruct (m (core (q_obs s))) as [r c]. intros E.
  injection E as -> _. by exists c.
Qed.

Lemma getTodoNum_le (n : nat) lo hi : (Z.to_nat (getTodoNum (Z.of_nat n) lo hi) <= n)%nat.
Proof.
  unfold getTodoNum. assert (Hq : Z.quot (Z.of_nat n) 2 <= Z.of_nat n) by (rewrite Z.quot_div_nonneg by lia; apply Z.div_le_upper_bound; lia).
  revert Hq. generalize (Z.quot (Z.of_nat n) 2). intros t Ht. cbv zeta. destruct (Z.leb_spec (Z.of_nat n) lo); zcases; lia.
Qed.

(** The items of a block: entries of the queue, none twice, and as many as the
    bounds say. *)
Lemma block_picks_ok ctx s picks s' :
  filed_queue (swapQueue s) → block_picks ctx s = (Ok picks, s') →
  NoDup (pick_key <$> picks) ∧ (∀ p, p ∈ picks → swapQueue s !! pick_key p = Some (si_msg p)) ∧
  ∃ n : nat, (n <= size (swapQueue s))%nat ∧
    length picks = Z.to_nat (getTodoNum (Z.of_nat n) (swaps_limit "MinSwapsPerBlock" s) (swaps_limit "MaxSwapsPerBlock" s)) ∧
    ((∀ k msg, swapQueue s !! k = Some msg → IsStreaming msg = false) → n = size (swapQueue s)).
Proof.
  intros Hf Hok. unfold block_picks in Hok.
  run_step Hok lo s1 E1. apply mimir_or_constant_ok in E1 as [-> E1].
  run_step Hok hi s2 E2. apply mimir_or_constant_ok in E2 as [-> E2].
  run_step Hok depth s3 E3. apply mimir_or_constant_ok in E3 as [-> _].
  run_step Hok swaps s4 E4. unfold FetchQueue in E4. run_step E4 entries s5 E5. apply gets_ok in E5 as [-> ->].
  set (entries := merge_sort key_le (map_to_list (swapQueue s))) in *.
  assert (Hperm : entries ≡ₚ map_to_list (swapQueue s)) by apply merge_sort_Permutation.
  assert (Hent : ∀ (k : string) (msg : MsgSwap), (k, msg) ∈ entries ↔ swapQueue s !! k = Some msg)
    by (intros k msg; by rewrite Hperm, elem_of_map_to_list).
  destruct (fetch_ok _ _ _ _ _ (λ k msg Hin, Hf k msg (proj1 (Hent k msg) Hin)) E4) as [Hsub Hin].
  assert (Hnd : NoDup entries.*1) by (rewrite Hperm; apply NoDup_fst_map_to_list).
  apply (sublist_NoDup _ _ Hnd) in Hsub as Hnd'.
  run_step Hok ranked s6 E6.
  assert (Hcore : item_core <$> ranked = item_core <$> swaps).
  { apply on_core_ok in E6 as [c E6]. by eapply scoreMsgs_core. }
  apply ret_ok in Hok as [-> ->].
  assert (Hkeys : pick_key <$> ranked = pick_key <$> swaps) by by apply pick_keys_core.
  rewrite <- Hkeys in Hnd'. pose proof (Sort_eq _ (item_ids_nodup _ Hnd')) as HS.
  assert (HSp : Sort ranked ≡ₚ ranked) by (rewrite HS; apply by_slip_perm).
  assert (Hlen : length ranked = length swaps) by (by rewrite <- (length_fmap item_core), Hcore, length_fmap).
  assert (Hle : (length swaps <= size (swapQueue s))%nat).
  { apply sublist_length in Hsub. rewrite length_fmap in Hsub. rewrite length_fmap, Hperm, length_map_to_list in Hsub. done. }
  split; [|split].
  - rewrite fmap_take. eapply sublist_NoDup; [|apply sublist_take]. by rewrite HSp.
  - intros p Hp. assert (Hp' : p ∈ ranked) by (rewrite <- HSp; by eapply elem_of_sublist, sublist_take).
    apply (list_elem_of_fmap_2 item_core) in Hp'. rewrite Hcore in Hp'.
    apply list_elem_of_fmap in Hp' as (q & Hq & Hqin). apply Hin, Hent in Hqin.
    injection Hq as Hqi Hqm. unfold pick_key in *. by rewrite Hqi, Hqm.
  - exists (length swaps). split; [done|]. split.
    + rewrite length_take, (Permutation_length HSp), Hlen. unfold len. rewrite Hlen.
      pose proof (getTodoNum_le (length swaps) (swaps_limit "MinSwapsPerBlock" s) (swaps_limit "MaxSwapsPerBlock" s)) as Ht.
      unfold swaps_limit in *. rewrite E1, E2 in *. cbn [fst] in *. lia.
    + intros Hone. erewrite fetch_all; [|intros k msg Hk|exact E4].
      * by rewrite Hperm, length_map_to_list.
      * apply Hent in Hk. split; [by eapply Hone|by apply Hf].
Qed.

(** What is left of the queue once a list of its items was handled. *)
Lemma process_items_removes ctx picks s u s' :
  for_each (process_item ctx) picks s = (Ok u, s') →
  (∀ k, k ∉ pick_key <$> picks → swapQueue s' !! k = swapQueue s !! k) ∧
  swapQueue s' ⊆ swapQueue s ∧
  (∀ p, p ∈ picks → IsStreaming (si_msg p) = false → swapQueue s' !! pick_key p = None).
Proof.
  revert s. induction picks as [|p picks IH]; intros s Hok; cbn in Hok.
  { apply ret_ok in Hok as [_ ->]. split; [done|]. split; [done|]. by intros ? ?%not_elem_of_nil. }
  run_step Hok u1 s1 E1. apply process_item_removes in E1 as [Hr Hone]. apply IH in Hok as (Hout & Hsub & Hgone).
  assert (Hsub1 : swapQueue s1 ⊆ swapQueue s) by (destruct Hr as [->| ->]; [done|apply delete_subseteq]).
  split; [|split].
  - intros k Hk. rewrite fmap_cons, not_elem_of_cons in Hk. destruct Hk as [Hk1 Hk2]. rewrite Hout by done.
    destruct Hr as [->| ->]; [done|by rewrite lookup_delete_ne].
  - by etrans.
  - intros q [->|Hq]%elem_of_cons Hst; [|by apply Hgone].
    eapply (lookup_weaken_None _ (swapQueue s1)); [|exact Hsub]. rewrite Hone by done. apply lookup_delete_eq.
Qed.

(** C28: The end of a block takes a part of the queue and no more: the swaps it
    handles are entries of the queue, none of them twice, and at most as many as
    the bounds allow; every other entry is left as it is, nothing is added, and a
    swap that does not stream has left the queue, whether it was swapped,
    refunded or neither. *)
Theorem EndBlock_takes_its_swaps ctx s s' :
  filed_queue (swapQueue s) → EndBlock ctx s = (Ok (), s') →
  ∃ picks s1 (n : nat),
    block_picks ctx s = (Ok picks, s1) ∧ NoDup (pick_key <$> picks) ∧
    (∀ p, p ∈ picks → swapQueue s !! pick_key p = Some (si_msg p)) ∧
    (n <= size (swapQueue s))%nat ∧
    length picks = Z.to_nat (getTodoNum (Z.of_nat n) (swaps_limit "MinSwapsPerBlock" s) (swaps_limit "MaxSwapsPerBlock" s)) ∧
    swapQueue s' ⊆ swapQueue s ∧
    (∀ k, k ∉ pick_key <$> picks → swapQueue s' !! k = swapQueue s !! k) ∧
    (∀ p, p ∈ picks → IsStreaming (si_msg p) = false → swapQueue s' !! pick_key p = None).
Proof.
  intros Hf Hok. unfold EndBlock in Hok. run_step Hok picks s1 E1.
  pose proof (removes_none _ _ _ _ (λ key, removes_block_picks key ctx) E1) as Hq.
  destruct (block_picks_ok _ _ _ _ Hf E1) as (Hnd & Hin & n & Hn & Hlen & _).
  apply process_items_removes in Hok as (Hout & Hsub & Hgone). rewrite Hq in Hout, Hsub.
  exists picks, s1, n. split_and!; done.
Qed.

(** C29: A queue without streaming swaps drains: every block takes as many of its
    swaps as the bounds say, so a queue that is within both bounds is empty at
    the end of the block. *)
Theorem EndBlock_drains_the_queue ctx s s' :
  filed_queue (swapQueue s) → (∀ k msg, swapQueue s !! k = Some msg → IsStreaming msg = false) →
  EndBlock ctx s = (Ok (), s') →
  let lo := swaps_limit "MinSwapsPerBlock" s in
  let hi := swaps_limit "MaxSwapsPerBlock" s in
  let n := size (swapQueue s) in
  size (swapQueue s') = (n - Z.to_nat (getTodoNum (Z.of_nat n) lo hi))%nat ∧
  (Z.of_nat n <= Z.min lo hi → swapQueue s' = ∅).
Proof.
  intros Hf Hone Hok lo hi n. unfold EndBlock in Hok. run_step Hok picks s1 E1.
  pose proof (removes_none _ _ _ _ (λ key, removes_block_picks key ctx) E1) as Hq.
  destruct (block_picks_ok _ _ _ _ Hf E1) as (Hnd & Hin & n' & _ & Hlen & Hn). rewrite (Hn Hone) in Hlen.
  apply process_items_removes in Hok as (Hout & Hsub & Hgone). rewrite Hq in Hout, Hsub.
  assert (Hdom : dom (swapQueue s') = dom (swapQueue s) ∖ list_to_set (pick_key <$> picks)).
  { apply set_eq. intros k. rewrite elem_of_difference, elem_of_list_to_set, !elem_of_dom.
    destruct (decide (k ∈ pick_key <$> picks)) as [Hk|Hk]; [|rewrite Hout by done; tauto].
    apply list_elem_of_fmap in Hk as Hk'. destruct Hk' as (p & -> & Hp).
    rewrite Hgone by (done || by eapply Hone, Hin). split; [by intros [? [=]]|tauto]. }
  assert (Hsize : size (swapQueue s') = (n - length picks)%nat).
  { rewrite <- size_dom, Hdom, size_difference, size_dom, size_list_to_set, length_fmap; [done|done|].
    intros k. rewrite elem_of_list_to_set, list_elem_of_fmap. intros (p & -> & Hp).
    apply elem_of_dom. by rewrite Hin. }
  rewrite Hlen in Hsize. split; [done|]. intros Hle. apply map_size_empty_inv. rewrite Hsize.
  unfold getTodoNum. fold lo hi n. cbv zeta. rewrite (proj2 (Z.leb_le _ lo)) by lia.
  rewrite (proj2 (Z.ltb_ge hi _)) by lia. lia.
Qed.

(** ** Reading the queue *)

(** A call that at most observes the state, or panics. *)
Definition observes {S A} (m : M S A) : Prop := ∀ s, (∃ a, m s = (Ok a, s)) ∨ m s = (Panic, s).

Lemma observes_gets {S A} (f : S → A) : observes (gets f).
Proof. intros s. left. by eexists. Qed.
Lemma observes_ret {S A} (a : A) : observes (mret a : M S A).
Proof. intros s. left. by eexists. Qed.
Lemma observes_bind {S A B} (m : M S A) (f : A → M S B) :
  observes m → (∀ a, observes (f a)) → observes (m ≫= f).
Proof.
  intros Hm Hf s. unfold mbind, M_bind. destruct (Hm s) as [[a ->]| ->]; [apply Hf|by right].
Qed.
Lemma observes_on_core {A} (m : K A) : observes m → observes (on_core m).
Proof.
  intros Hm s. unfold on_core, in_obs, in_core. destruct s as [[c] q st col]. cbn.
  destruct (Hm c) as [[a ->]| ->]; [left; by eexists|by right].
Qed.
Lemma observes_reads (m : K bool) : (∀ s, reads m s) → observes m.
Proof. intros Hm s. destruct (Hm s) as [b ->]. left. by eexists. Qed.

Lemma IsTradingHalt_observes ctx coins target : observes (IsTradingHalt ctx (SwapMsg coins target)).
Proof.
  assert (Hc : observes (lift (match coins with c :: _ => Ok c | [] => Panic end) : K Coin))
    by (intros s; destruct coins; [by right|left; by eexists]).
  unfold IsTradingHalt. apply observes_bind; [apply observes_bind; [exact Hc|intros c; apply observes_ret]|intros l].
  apply observes_bind; [apply observes_reads; intros s; apply IsRagnarok_reads|intros []; [apply observes_ret|]].
  apply observes_bind; [exact Hc|intros c]. apply observes_reads. intros s.
  repeat case_match; repeat (apply or_else_reads);
    auto using IsSWCYTradingHalted_reads, IsChainTradingHalted_reads, IsGlobalTradingHalted_reads.
Qed.

Lemma stored_stream_observes msg : observes (stored_stream msg).
Proof.
  unfold stored_stream. apply observes_bind; [|intros swp].
  - intros s. unfold lift, GetStreamingSwap, first_coin. destruct (tx_Coins _); [by right|left; by eexists].
  - apply observes_bind; [apply observes_gets|intros []]; [apply observes_gets|apply observes_ret].
Qed.

Lemma is_due_observes ctx msg : observes (is_due ctx msg).
Proof.
  unfold is_due. destruct (IsStreaming msg); [|apply observes_ret].
  apply observes_bind; [apply observes_on_core, observes_bind; [apply observes_gets|intros v; apply observes_ret]|intros v].
  destruct (0 <? v); [apply observes_ret|]. apply observes_bind; [apply stored_stream_observes|intros swp].
  unfold stream_due. destruct (0 <? _); [|apply observes_ret]. destruct (_ <=? _); [apply observes_ret|].
  apply observes_bind.
  - intros s. unfold lift, go_rem. destruct (_ =? 0); [by right|left; by eexists].
  - intros r. destruct (negb _); [apply observes_ret|].
    apply observes_bind; [apply observes_on_core, IsTradingHalt_observes|intros h; apply observes_ret].
Qed.

Lemma fetch_observes ctx (entries : list (string * MsgSwap)) : observes (fetch ctx entries).
Proof.
  induction entries as [|[k msg] r IH]; cbn; [apply observes_ret|]. destruct (Atoi _); [|done].
  apply observes_bind; [apply is_due_observes|intros due]. apply observes_bind; [done|intros rest; apply observes_ret].
Qed.

(** Whether an entry is due is asked for every entry. *)
Lemma fetch_panics ctx (entries : list (string * MsgSwap)) s k msg i :
  (k, msg) ∈ entries → Atoi (last_field k) = Some i → is_due ctx msg s = (Panic, s) →
  fetch ctx entries s = (Panic, s).
Proof.
  intros Hin Hi Hp. induction entries as [|[k' msg'] r IH]; [by apply not_elem_of_nil in Hin|]. cbn.
  apply elem_of_cons in Hin as [[= <- <-]|Hin].
  - rewrite Hi. unfold mbind, M_bind. by rewrite Hp.
  - apply IH in Hin as Hr. destruct (Atoi (last_field k')) as [j|]; [|done].
    unfold mbind, M_bind. destruct (is_due_observes ctx msg' s) as [[due ->]| ->]; [|done]. by rewrite Hr.
Qed.

(** C36: A streaming swap whose record has no interval, once it has begun, makes the
    end of every later block panic while streaming swaps are not paused by mimir:
    the queue is read by dividing through the
    interval.  Such a record is what the handler keeps while the mimir
    StreamingSwapMaxLength is zero, which it takes for a bound on the interval. *)
Theorem stream_without_interval_stops_the_chain ctx s k msg swp :
  filed_queue (swapQueue s) → swapQueue s !! k = Some msg → IsStreaming msg = true →
  streams s !! GetKey (tx_ID (sm_Tx msg)) = Some swp → Interval swp = 0 →
  0 < LastHeight swp < BlockHeight ctx →
  (∀ v, fst (GetConfigInt64 "StreamingSwapPause" (core (q_obs s))) = Ok v → v <= 0) →
  EndBlock ctx s = (Panic, s).
Proof.
  intros Hf Hk Hst Hs HI Hh Hpause.
  assert (Hdue : is_due ctx msg s = (Panic, s)).
  { assert (Hp : ∃ v, on_core (GetConfigInt64 "StreamingSwapPause") s = (Ok v, s) ∧ v <= 0)
      by (destruct s as [[]]; eexists; split; [reflexivity|by apply Hpause]).
    destruct Hp as (v & Hv & Hle).
    assert (Hss : stored_stream msg s = (Ok swp, s) ∨ stored_stream msg s = (Panic, s)).
    { unfold stored_stream, StreamingSwapExists, Keeper_GetStreamingSwap, GetStreamingSwap, first_coin.
      unfold gets, lift, mbind, M_bind. destruct (tx_Coins _); [by right|left]. cbn.
      rewrite Hs, bool_decide_true by done. by rewrite Hs. }
    unfold is_due, mbind, M_bind. rewrite Hst, Hv, (proj2 (Z.ltb_ge 0 v)) by done.
    destruct Hss as [-> | ->]; [|done].
    unfold stream_due, go_rem. rewrite (proj2 (Z.ltb_lt 0 _)), (proj2 (Z.leb_gt _ _)) by lia. by rewrite HI. }
  destruct (Hf k msg Hk) as (i & Hi & Hki).
  assert (Hfetch : FetchQueue ctx s = (Panic, s)).
  { unfold FetchQueue, mbind, M_bind, gets. apply (fetch_panics _ _ _ k msg i); [|rewrite Hki; by apply item_key_index|exact Hdue].
    by rewrite merge_sort_Permutation, elem_of_map_to_list. }
  unfold EndBlock, block_picks, mbind, M_bind.
  assert (Hm : ∀ key least, ∃ v, mimir_or_constant key least s = (Ok v, s)) by (intros; destruct s as [[]]; by eexists).
  destruct (Hm "MinSwapsPerBlock" 0) as [? ->], (Hm "MaxSwapsPerBlock" 0) as [? ->],
    (Hm "VirtualMultSynthsBasisPoints" 1) as [? ->]. by rewrite Hfetch.
Qed.
End SwapQueue.

(** ** Witnesses *)

#[local] Existing Instance idle_managers.

(** No contracts, and nothing follows a swap. *)
Definition no_contracts : SwapParams :=
  {| DexAggregators := []; CalcAnchor _ _ := mret 0; GetAssetOutboundFee _ _ := mret 0 |}.
#[local] Existing Instance no_contracts.
Definition no_follow_ons : FollowOns := {| swap_follow_on _ _ _ _ := mret () |}.
#[local] Existing Instance no_follow_ons.

Definition block_at (h : Z) : Ctx := mkCtx h 3 (txHash swap_block).
Definition queued (id : string) (amt interval : Z) : MsgSwap :=
  mkMsgSwap (NewTx id "bc1from" "bc1vault" [NewCoin BTCAsset amt] [NewCoin BTCAsset 1] "=:r")
    SwitchNative "swtc1to" 0 "" 0 "" "" None false 0 interval "signer".
Definition queue_of (l : list MsgSwap) (mim : gmap string Z) : QueueState :=
  mkQueueState (mkObs (put_mimirs mim swap_state) ∅ ∅ ∅ ∅ ∅ ∅ ∅ ∅)
    (list_to_map ((λ m, (item_key (tx_ID (sm_Tx m)) 0, m)) <$> l)) ∅ ∅.

Lemma queue_of_entry l mim k msg :
  swapQueue (queue_of l mim) !! k = Some msg → msg ∈ l ∧ k = item_key (tx_ID (sm_Tx msg)) 0.
Proof.
  cbn. intros Hk%elem_of_list_to_map_2. apply list_elem_of_fmap in Hk as (m & [= -> ->] & Hm). done.
Qed.
Lemma queue_of_filed l mim : filed_queue (swapQueue (queue_of l mim)).
Proof. intros k msg Hk. apply queue_of_entry in Hk as [_ Hk]. by exists 0. Qed.

Definition hash_of (c : string) : string := (c +:+ "123456789ABCDEF0123456789ABCDEF0123456789ABCDEF0123456789ABCDEF")%string.

(** Two swaps of BTC for SWITCH, and one of nothing, which is refunded. *)
Definition three_swaps : QueueState :=
  queue_of [queued (hash_of "A") 1000 0; queued (hash_of "B") 500 0; queued (hash_of "C") 0 0] ∅.
Definition three_swapped : QueueState := snd (EndBlock (block_at 8) three_swaps).

Lemma EndBlock_takes_its_swaps_witness :
  length (events (core (q_obs three_swapped))) = 3%nat ∧
  ∃ picks s1, block_picks (block_at 8) three_swaps = (Ok picks, s1) ∧ NoDup (pick_key <$> picks) ∧
    swapQueue three_swapped ⊆ swapQueue three_swaps.
Proof.
  split; [vm_compute; reflexivity|].
  assert (H : fst (EndBlock (block_at 8) three_swaps) = Ok ()) by (vm_compute; reflexivity).
  destruct (EndBlock_takes_its_swaps (block_at 8) three_swaps three_swapped (queue_of_filed _ _) (run_pair _ _ H))
    as (picks & s1 & n & Hp & Hnd & _ & _ & _ & Hsub & _).
  exists picks, s1. split; [exact Hp|]. split; [exact Hnd|exact Hsub].
Defined.

Lemma EndBlock_drains_the_queue_witness :
  size (swapQueue three_swaps) = 3%nat ∧ swapQueue three_swapped = ∅.
Proof.
  assert (Hs : size (swapQueue three_swaps) = 3%nat) by (vm_compute; reflexivity). split; [exact Hs|].
  assert (H : fst (EndBlock (block_at 8) three_swaps) = Ok ()) by (vm_compute; reflexivity).
  apply (EndBlock_drains_the_queue (block_at 8) three_swaps three_swapped (queue_of_filed _ _)).
  - intros k msg Hk. apply queue_of_entry in Hk as [Hk _].
    repeat (apply elem_of_cons in Hk as [->|Hk]; [reflexivity|]).
    destruct (not_elem_of_nil _ Hk).
  - exact (run_pair _ _ H).
  - rewrite Hs. apply (bool_decide_unpack _). vm_compute. exact I.
Defined.

(** With the mimir at zero the swap is begun, and no later block ends. *)
Definition begun_without_interval : QueueState :=
  snd (EndBlock (block_at 8) (queue_of [queued (hash_of "A") 1000 1] {["STREAMINGSWAPMAXLENGTH" := 0]})).

Lemma stream_without_interval_stops_the_chain_witness :
  fst (EndBlock (block_at 8) (queue_of [queued (hash_of "A") 1000 1] {["STREAMINGSWAPMAXLENGTH" := 0]})) = Ok () ∧
  EndBlock (block_at 9) begun_without_interval = (Panic, begun_without_interval).
Proof.
  split; [vm_compute; reflexivity|].
  assert (Hq : swapQueue begun_without_interval = swapQueue (queue_of [queued (hash_of "A") 1000 1] ∅))
    by (vm_compute; reflexivity).
  assert (Hs : streams begun_without_interval !! GetKey (hash_of "A") =
               Some (mkStreamingSwap (hash_of "A") 0 0 1 8 0 1000 1000 9802 [] [])) by (vm_compute; reflexivity).
  assert (Hp : fst (GetConfigInt64 "StreamingSwapPause" (core (q_obs begun_without_interval))) = Ok 0)
    by (vm_compute; reflexivity).
  apply (stream_without_interval_stops_the_chain (block_at 9) begun_without_interval
           (item_key (hash_of "A") 0) (queued (hash_of "A") 1000 1)
           (mkStreamingSwap (hash_of "A") 0 0 1 8 0 1000 1000 9802 [] [])).
  - rewrite Hq. apply queue_of_filed.
  - rewrite Hq. vm_compute. reflexivity.
  - reflexivity.
  - exact Hs.
  - reflexivity.
  - cbn. lia.
  - intros v Hv. rewrite Hp in Hv. injection Hv as <-. lia.
Defined.
