(* ===== verification/Messages.v ===== *)
(** * Messages

    src/x/switchly/types/msg_*.go: the messages a memo turns into, with what each
    of them checks of itself. Those of liquidity, swaps, trade accounts and
    secured assets are declared with their handlers. *)

From S2P Require Import Prelude GoStrings CosmosMath Amounts Assets Coins Constants State Txs MemoParser ObservedTx.
Open Scope Z_scope.

(** Bech32 addresses and the SDK's check of their bytes. *)
Class AddressCodec := {
  VerifyAddressFormat : string → option error;
  bech32_Decode : string → outcome string;
  bech32_Encode : string → string → outcome string;
  AccountPrefix : string;
}.

Section Messages.
  Context `{CosmosMath} `{Bank} `{Env} `{!AddressCodec}.

Definition MappedAccAddress (addr : string) : outcome string :=
  data ← bech32_Decode addr;
  encoded ← bech32_Encode AccountPrefix data;
  AccAddressFromBech32 encoded.

(** ** Nodes *)

Record MsgBond := mkMsgBond {
  bo_TxIn : Tx;
  bo_NodeAddress : string;
  bo_Bond : Z;
  bo_BondAddress : string;
  bo_Provider : string;
  bo_Signer : string;
  bo_OperatorFee : Z;
}.
Definition Bond_ValidateBasic (m : MsgBond) : option error :=
  if bool_decide (bo_NodeAddress m = "") then Some "node address cannot be empty"
  else if bo_Bond m =? 0 then Some "bond cannot be zero"
  else if blank (bo_BondAddress m) then Some "bond address cannot be empty"
  else match Tx_Valid (bo_TxIn m) with
  | Some e => Some e
  | None =>
      match tx_Coins (bo_TxIn m) with
      | _ :: _ :: _ => Some "cannot bond more than one coin"
      | [] => Some "must bond with switch"
      | [c] =>
          if negb (Assets.IsSwitch (coin_asset c)) then Some "cannot bond non-native switch asset"
          else if bool_decide (bo_Signer m = "") then Some "empty signer address"
          else if (bo_OperatorFee m <? -1) || (10000 <? bo_OperatorFee m) then Some "operator fee must be 0-10000"
          else None
      end
  end.

Record MsgUnBond := mkMsgUnBond {
  ub_TxIn : Tx;
  ub_NodeAddress : string;
  ub_Amount : Z;
  ub_BondAddress : string;
  ub_Provider : string;
  ub_Signer : string;
}.
Definition UnBond_ValidateBasic (m : MsgUnBond) : option error :=
  if bool_decide (ub_NodeAddress m = "") then Some "node address cannot be empty"
  else if blank (ub_BondAddress m) then Some "bond address cannot be empty"
  else if TxID_IsEmpty (tx_ID (ub_TxIn m)) then Some "tx id cannot be empty"
  else if blank (FromAddress (ub_TxIn m)) then Some "tx from address cannot be empty"
  else if bool_decide (ub_Signer m = "") then Some "empty signer address"
  else None.

Record MsgLeave := mkMsgLeave { le_Tx : Tx; le_NodeAddress : string; le_Signer : string }.
Definition Leave_ValidateBasic (m : MsgLeave) : option error :=
  if blank (FromAddress (le_Tx m)) then Some "from address cannot be empty"
  else if TxID_IsEmpty (tx_ID (le_Tx m)) then Some "tx id cannot be empty"
  else if bool_decide (le_Signer m = "") then Some "signer cannot be empty"
  else if bool_decide (le_NodeAddress m = "") then Some "node address cannot be empty"
  else None.

Record MsgMaint := mkMsgMaint { ma_NodeAddress : string; ma_Signer : string }.
Definition Maint_ValidateBasic (m : MsgMaint) : option error :=
  match VerifyAddressFormat (ma_Signer m) with
  | Some _ => Some "invalid address"
  | None => match VerifyAddressFormat (ma_NodeAddress m) with Some _ => Some "invalid address" | None => None end
  end.

Record ReserveContributor := mkReserveContributor { rc_Address : string; rc_Amount : Z }.
Definition ReserveContributor_Valid (m : ReserveContributor) : option error :=
  if rc_Amount m =? 0 then Some "amount cannot be zero"
  else if blank (rc_Address m) then Some "address cannot be empty"
  else None.
Record MsgReserveContributor := mkMsgReserve { re_Tx : Tx; re_Contributor : ReserveContributor; re_Signer : string }.
Definition Reserve_ValidateBasic (m : MsgReserveContributor) : option error :=
  match Tx_Valid (re_Tx m) with
  | Some e => Some e
  | None => if bool_decide (re_Signer m = "") then Some "invalid address" else ReserveContributor_Valid (re_Contributor m)
  end.

(** ** What the protocol's own transactions report *)

(** [MsgRefundTx] and [MsgOutboundTx]. *)
Record MsgTxOut := mkMsgTxOut { to_Tx : ObservedTx; to_InTxID : string; to_Signer : string }.
Definition TxOut_ValidateBasic (m : MsgTxOut) : option error :=
  if bool_decide (to_Signer m = "") then Some "invalid address"
  else if TxID_IsEmpty (to_InTxID m) then Some "In Tx ID cannot be empty"
  else ObservedTx_Valid (to_Tx m).

(** [MsgMigrate] and [MsgRagnarok]. *)
Record MsgAtHeight := mkMsgAtHeight { ah_Tx : ObservedTx; ah_BlockHeight : Z; ah_Signer : string }.
Definition AtHeight_ValidateBasic (m : MsgAtHeight) : option error :=
  if bool_decide (ah_Signer m = "") then Some "invalid address"
  else if ah_BlockHeight m <=? 0 then Some "invalid block height"
  else ObservedTx_Valid (ah_Tx m).

(** [MsgNoOp], and [MsgConsolidate], which has no action. *)
Record MsgNoOp := mkMsgNoOp { no_Tx : ObservedTx; no_Signer : string; no_Action : string }.
Definition NoOp_ValidateBasic (m : MsgNoOp) : option error :=
  match ObservedTx_Valid (no_Tx m) with
  | Some e => Some e
  | None => if bool_decide (no_Signer m = "") then Some "invalid address" else None
  end.

(** ** Names *)

Record MsgManageSWITCHName := mkMsgName {
  mn_Name : string;
  mn_Chain : Chain;
  mn_Address : string;
  mn_Coin : Coin;
  mn_ExpireBlockHeight : Z;
  mn_PreferredAsset : Asset;
  mn_Owner : string;
  mn_Signer : string;
}.
Definition Name_ValidateBasic (m : MsgManageSWITCHName) : option error :=
  if bool_decide (mn_Signer m = "") then Some "invalid address"
  else if Chains.IsEmpty (mn_Chain m) then Some "chain can't be empty"
  else if blank (mn_Address m) then Some "address can't be empty"
  else if negb (IsChain (mn_Address m) (mn_Chain m)) then Some "address and chain must match"
  else if negb (Assets.IsSwitch (coin_asset (mn_Coin m))) then Some "coin must be native switch"
  else None.

(** ** Loans *)

Record MsgLoanOpen := mkMsgLoanOpen {
  lo_Owner : string;
  lo_CollateralAsset : Asset;
  lo_CollateralAmount : Z;
  lo_TargetAddress : string;
  lo_TargetAsset : Asset;
  lo_MinOut : Z;
  lo_AffiliateAddress : string;
  lo_AffiliateBasisPoints : Z;
  lo_Aggregator : string;
  lo_AggregatorTargetAddress : string;
  lo_AggregatorTargetLimit : Z;
  lo_Signer : string;
  lo_TxID : string;
}.
Definition LoanOpen_ValidateBasic (m : MsgLoanOpen) : option error :=
  if blank (lo_Owner m) then Some "owner cannot be empty"
  else if Assets.IsEmpty (lo_CollateralAsset m) then Some "collateral asset cannot be empty"
  else if (negb (Assets.IsGasAsset (lo_CollateralAsset m)) && negb (Assets.IsDerivedAsset (lo_CollateralAsset m)))
          || Assets.Equals (lo_CollateralAsset m) SWITCHLY then Some "unsupported collateral pool"
  else if lo_CollateralAmount m =? 0 then Some "amount cannot be zero"
  else if negb (IsChain (lo_TargetAddress m) (chain (lo_TargetAsset m)))
  then Some "target address does not match chain of target asset"
  else if blank (lo_TargetAddress m) then Some "target address cannot be empty"
  else if Assets.IsEmpty (lo_TargetAsset m) then Some "target asset cannot be empty"
  else if blank (lo_AffiliateAddress m) && negb (lo_AffiliateBasisPoints m =? 0)
  then Some "affiliate address is empty while affiliate basis points is non-zero"
  else if negb (blank (lo_AffiliateAddress m)) && negb (IsChain (lo_AffiliateAddress m) SWITCHLYChain)
  then Some "swap affiliate address must be a SWITCHLY address"
  else if bool_decide (lo_Signer m = "") then Some "empty signer address"
  else None.

Record MsgLoanRepayment := mkMsgLoanRepayment {
  lr_Owner : string;
  lr_CollateralAsset : Asset;
  lr_MinOut : Z;
  lr_From : string;
  lr_Coin : Coin;
  lr_Signer : string;
  lr_TxID : string;
}.
Definition LoanRepayment_ValidateBasic (m : MsgLoanRepayment) : option error :=
  if blank (lr_Owner m) then Some "owner cannot be empty"
  else if Assets.IsEmpty (lr_CollateralAsset m) then Some "collateral asset cannot be empty"
  else if Coin_IsEmpty (lr_Coin m) then Some "coin cannot be empty"
  else if bool_decide (lr_Signer m = "") then Some "empty signer address"
  else None.

(** ** SWITCH pool, contracts, switched assets and SWCY *)

Record MsgSwitchPoolDeposit := mkMsgPoolDeposit { pd_Signer : string; pd_Tx : Tx }.
Definition PoolDeposit_ValidateBasic (m : MsgSwitchPoolDeposit) : option error :=
  if negb (Chains.Equals (tx_Chain (pd_Tx m)) SWITCHLYChain) then Some "chain must be SWITCHLYChain"
  else match tx_Coins (pd_Tx m) with
  | [c] =>
      if negb (Chains.IsSWITCHLYChain (chain (coin_asset c))) then Some "coin chain must be SWITCHLYChain"
      else if negb (Assets.IsSwitch (coin_asset c)) then Some "coin must be SWITCH"
      else if bool_decide (pd_Signer m = "") then Some "signer must not be empty"
      else if coin_amount c =? 0 then Some "coins amount must not be zero"
      else None
  | _ => Some "coins must be length 1 (SWITCH)"
  end.

Record MsgSwitchPoolWithdraw := mkMsgPoolWithdraw {
  pw_Signer : string;
  pw_Tx : Tx;
  pw_BasisPoints : Z;
  pw_AffiliateAddress : string;
  pw_AffiliateBasisPoints : Z;
}.
Definition PoolWithdraw_ValidateBasic (m : MsgSwitchPoolWithdraw) : option error :=
  if negb (Coins_IsEmpty (tx_Coins (pw_Tx m))) then Some "coins must be empty (zero amount)"
  else if bool_decide (pw_Signer m = "") then Some "signer must not be empty"
  else if (pw_BasisPoints m =? 0) || (MaxBasisPts <? pw_BasisPoints m) then Some "invalid basis points"
  else if MaxBasisPts <? pw_AffiliateBasisPoints m then Some "invalid affiliate basis points"
  else if negb (pw_AffiliateBasisPoints m =? 0) && blank (pw_AffiliateAddress m)
  then Some "affiliate basis points with no affiliate address"
  else None.

Record MsgWasmExec := mkMsgWasmExec {
  we_Tx : Tx;
  we_Asset : Asset;
  we_Amount : Z;
  we_Contract : string;
  we_Msg : string;
  we_Sender : string;
  we_Signer : string;
}.
Definition WasmExec_ValidateBasic (m : MsgWasmExec) : option error :=
  if Assets.IsEmpty (we_Asset m) then Some "asset cannot be empty"
  else if negb (Secured (we_Asset m) || negb (Assets.IsNative (we_Asset m)))
  then Some "asset cannot be SwitchlyProtocol asset"
  else if we_Amount m =? 0 then Some "amount cannot be zero"
  else if bool_decide (we_Contract m = "") || bool_decide (we_Sender m = "") || bool_decide (we_Signer m = "")
  then Some "invalid address"
  else if TxID_IsEmpty (tx_ID (we_Tx m)) then Some "txID cannot be empty"
  else None.

Record MsgSwitch := mkMsgSwitch { sw_Tx : Tx; sw_Asset : Asset; sw_Amount : Z; sw_Address : string; sw_Signer : string }.
Definition Switch_ValidateBasic (m : MsgSwitch) : option error :=
  if Assets.IsEmpty (sw_Asset m) then Some "asset cannot be empty"
  else if Assets.IsNative (sw_Asset m) then Some "native assets cannot be switched"
  else if sw_Amount m =? 0 then Some "amount cannot be zero"
  else if bool_decide (sw_Address m = "") || bool_decide (sw_Signer m = "") then Some "invalid address"
  else if TxID_IsEmpty (tx_ID (sw_Tx m)) then Some "txID cannot be empty"
  else None.

Record MsgSWCYClaim := mkMsgSWCYClaim { cl_SwitchAddress : string; cl_L1Address : string; cl_Signer : string }.
Definition SWCYClaim_ValidateBasic (m : MsgSWCYClaim) : option error :=
  if bool_decide (cl_Signer m = "") then Some "invalid address"
  else if blank (cl_SwitchAddress m) then Some "switch addresses cannot be empty"
  else if blank (cl_L1Address m) then Some "l1 addresses cannot be empty"
  else None.

Record MsgSWCYStake := mkMsgSWCYStake { st_Tx : Tx; st_Signer : string }.
Definition SWCYStake_ValidateBasic (m : MsgSWCYStake) : option error :=
  if negb (Chains.Equals (tx_Chain (st_Tx m)) SWITCHLYChain) then Some "chain must be SWITCHLYChain"
  else match tx_Coins (st_Tx m) with
  | [c] =>
      if negb (Assets.IsSWCY (coin_asset c)) then Some "coin must be SWCY"
      else if bool_decide (st_Signer m = "") then Some "signer must not be empty"
      else if coin_amount c =? 0 then Some "coins amount must not be zero"
      else None
  | _ => Some "coins must be length 1 (SWCY)"
  end.

Record MsgSWCYUnstake := mkMsgSWCYUnstake { us_Tx : Tx; us_BasisPoints : Z; us_Signer : string }.
Definition SWCYUnstake_ValidateBasic (m : MsgSWCYUnstake) : option error :=
  if bool_decide (us_Signer m = "") then Some "signer must not be empty"
  else if (us_BasisPoints m =? 0) || (MaxBasisPts <? us_BasisPoints m) then Some "invalid basis points"
  else if negb (IsChain (FromAddress (us_Tx m)) SWITCHLYChain) then Some "address should be switch address"
  else if negb (Coins_IsEmpty (tx_Coins (us_Tx m))) then Some "coins must be empty (zero amount)"
  else None.
End Messages.
