(* ===== verification/Dispatch.v ===== *)
(** * From a memo to a message

    src/x/switchly/handler.go: the message an observed transaction asks for, with
    the assets it names matched to the pools there are. *)

From Stdlib Require Import Ascii.
From stdpp Require Import sorting.
From S2P Require Import Prelude GoStrings GoNumbers CosmosMath Amounts Assets Coins Pools Constants Names State Txs MemoTypes MemoParser MemoTexts TradeAccounts SecuredAssets Swap Halts Liquidity Withdraw Nodes Quorum ObservedTx Attest Refunds SwapHandler Messages.
Open Scope Z_scope.

(** The token lists, a file per chain: the addresses in them. *)
Class TokenLists := { EVMTokens : Chain → list string }.

Inductive Msg :=
  | Msg_Swap (m : MsgSwap)
  | Msg_AddLiquidity (m : MsgAddLiquidity)
  | Msg_Withdraw (m : MsgWithdrawLiquidity)
  | Msg_Donate (m : MsgDonate)
  | Msg_RefundTx (m : MsgTxOut)
  | Msg_OutboundTx (m : MsgTxOut)
  | Msg_Migrate (m : MsgAtHeight)
  | Msg_Ragnarok (m : MsgAtHeight)
  | Msg_Bond (m : MsgBond)
  | Msg_UnBond (m : MsgUnBond)
  | Msg_Leave (m : MsgLeave)
  | Msg_Maint (m : MsgMaint)
  | Msg_Reserve (m : MsgReserveContributor)
  | Msg_NoOp (m : MsgNoOp)
  | Msg_Consolidate (tx : ObservedTx) (signer : string)
  | Msg_Name (m : MsgManageSWITCHName)
  | Msg_LoanOpen (m : MsgLoanOpen)
  | Msg_LoanRepayment (m : MsgLoanRepayment)
  | Msg_TradeDeposit (m : MsgTradeAccountDeposit)
  | Msg_TradeWithdrawal (m : MsgTradeAccountWithdrawal)
  | Msg_SecuredDeposit (m : MsgSecuredAssetDeposit)
  | Msg_SecuredWithdraw (m : MsgSecuredAssetWithdraw)
  | Msg_PoolDeposit (m : MsgSwitchPoolDeposit)
  | Msg_PoolWithdraw (m : MsgSwitchPoolWithdraw)
  | Msg_WasmExec (m : MsgWasmExec)
  | Msg_Switch (m : MsgSwitch)
  | Msg_SWCYClaim (m : MsgSWCYClaim)
  | Msg_SWCYStake (m : MsgSWCYStake)
  | Msg_SWCYUnstake (m : MsgSWCYUnstake).

Section Dispatch.
  Context `{CosmosMath} `{Bank} `{Env} `{!AddressCodec} `{!TokenLists}.

Definition Msg_ValidateBasic (m : Msg) : option error :=
  match m with
  | Msg_Swap m => MsgSwap_ValidateBasic m
  | Msg_AddLiquidity m => AddLiquidity_ValidateBasic m
  | Msg_Withdraw m => Withdraw_ValidateBasic m
  | Msg_Donate m => Donate_ValidateBasic m
  | Msg_RefundTx m | Msg_OutboundTx m => TxOut_ValidateBasic m
  | Msg_Migrate m | Msg_Ragnarok m => AtHeight_ValidateBasic m
  | Msg_Bond m => Bond_ValidateBasic m
  | Msg_UnBond m => UnBond_ValidateBasic m
  | Msg_Leave m => Leave_ValidateBasic m
  | Msg_Maint m => Maint_ValidateBasic m
  | Msg_Reserve m => Reserve_ValidateBasic m
  | Msg_NoOp m => NoOp_ValidateBasic m
  | Msg_Consolidate tx signer => NoOp_ValidateBasic (mkMsgNoOp tx signer "")
  | Msg_Name m => Name_ValidateBasic m
  | Msg_LoanOpen m => LoanOpen_ValidateBasic m
  | Msg_LoanRepayment m => LoanRepayment_ValidateBasic m
  | Msg_TradeDeposit m => Deposit_ValidateBasic m
  | Msg_TradeWithdrawal m => Withdrawal_ValidateBasic m
  | Msg_SecuredDeposit m => SADeposit_ValidateBasic m
  | Msg_SecuredWithdraw m => SAWithdraw_ValidateBasic m
  | Msg_PoolDeposit m => PoolDeposit_ValidateBasic m
  | Msg_PoolWithdraw m => PoolWithdraw_ValidateBasic m
  | Msg_WasmExec m => WasmExec_ValidateBasic m
  | Msg_Switch m => Switch_ValidateBasic m
  | Msg_SWCYClaim m => SWCYClaim_ValidateBasic m
  | Msg_SWCYStake m => SWCYStake_ValidateBasic m
  | Msg_SWCYUnstake m => SWCYUnstake_ValidateBasic m
  end.

(** ** Assets by part of their name *)

Definition set_symbol (sym : Symbol) (a : Asset) : Asset :=
  mkAsset (chain a) sym (ticker a) (Synth a) (Trade a) (Secured a).
Definition Ticker_Equals (t t2 : Ticker) : bool := EqualFold (ToUpper t) (ToUpper t2).

(** The text after the dash of a symbol; nothing when there is none. *)
Definition symbol_hint (a : Asset) : string := default "" (Split "-" (Assets.SymbolString a) !! 1%nat).
Definition fuzzy_candidate (a : Asset) (pool : Pool) : bool :=
  Chains.Equals (chain a) (chain (pool_asset pool)) && Ticker_Equals (ticker a) (ticker (pool_asset pool)) &&
  (bool_decide (symbol_hint a = "") ||
   HasSuffix (ToLower (Assets.SymbolString (pool_asset pool))) (ToLower (symbol_hint a))).
Definition fuzzy_step (a : Asset) (winner pool : Pool) : Pool :=
  if fuzzy_candidate a pool && (BalanceSwitch winner <=? BalanceSwitch pool) then pool else winner.
Definition fuzzyAssetMatch (origAsset : Asset) : K Asset :=
  let a := Assets.GetLayer1Asset origAsset in
  pool ← GetPool a;
  if negb (BalanceSwitch pool =? 0) then mret origAsset
  else
    ps ← GetPools;
    let winner := foldl (fuzzy_step a) (set_pool_asset origAsset NewPool) ps in
    mret (set_symbol (symbol (pool_asset winner)) origAsset).

Definition externalAssetMatch (c : Chain) (hint : string) : string :=
  if (String.length hint =? 0)%nat then hint
  else if Chains.IsEVM c then
    match filter (λ t, HasSuffix (ToLower t) (ToLower hint) = true) (EVMTokens c) with
    | [t] => t
    | _ => hint
    end
  else hint.

(** ** Messages from memos *)

Definition getMsgSwapFromMemo (m : SwapMemo) (tx : Tx) (signer : string) : MsgSwap :=
  let dest := if blank (sw_Destination m) then FromAddress tx else sw_Destination m in
  mkMsgSwap tx (base_Asset (sw_base m)) dest (SlipLimit m) (sw_AffiliateAddress m) (sw_AffiliateBasisPoints m)
    (DexAggregator m) (DexTargetAddress m) (DexTargetLimit m) (sw_limit m) (sw_StreamQuantity m) (sw_StreamInterval m)
    signer.
Definition getMsgWithdrawFromMemo (a : Asset) (amt : Z) (withdrawal : Asset) (tx : Tx) (signer : string) :
    MsgWithdrawLiquidity :=
  let withdrawAmount := if amt =? 0 then MemoParser.MaxWithdrawBasisPoints else amt in
  mkMsgWithdrawLiquidity tx (FromAddress tx) withdrawAmount a withdrawal signer.
Definition getMsgAddLiquidityFromMemo (a : Asset) (dest affAddr : string) (affPts : Z) (tx : Tx) (signer : string) :
    MsgAddLiquidity :=
  let switchCoin := GetCoin (tx_Coins tx) SwitchNative in
  let assetCoin := GetCoin (tx_Coins tx) a in
  let '(switchAddr, assetAddr) :=
    if Chains.Equals (tx_Chain tx) SWITCHLYChain then (FromAddress tx, dest) else (dest, FromAddress tx) in
  let assetAddr := if Chains.Equals (chain a) SWITCHLYChain then switchAddr else assetAddr in
  mkMsgAddLiquidity tx a (coin_amount assetCoin) (coin_amount switchCoin) switchAddr assetAddr affAddr affPts signer.
Definition getMsgDonateFromMemo (a : Asset) (tx : Tx) (signer : string) : MsgDonate :=
  mkMsgDonate tx a (coin_amount (GetCoin (tx_Coins tx) a)) (coin_amount (GetCoin (tx_Coins tx) SwitchNative)) signer.

(** The message of a memo; [coin] is the transaction's coin. *)
Definition msg_of_memo (m : Memo_) (otx : ObservedTx) (coin : Coin) (signer : string) : K Msg :=
  let tx := ot_Tx otx in
  match m with
  | AddLiquidityMemo b addr affAddr affPts =>
      a ← fuzzyAssetMatch (base_Asset b);
      mret (Msg_AddLiquidity (getMsgAddLiquidityFromMemo a addr affAddr affPts tx signer))
  | WithdrawLiquidityMemo b amt withdrawal =>
      a ← fuzzyAssetMatch (base_Asset b);
      w ← (if Assets.IsEmpty withdrawal then mret withdrawal else fuzzyAssetMatch withdrawal);
      mret (Msg_Withdraw (getMsgWithdrawFromMemo a amt w tx signer))
  | SwapMemo_ m =>
      a ← fuzzyAssetMatch (base_Asset (sw_base m));
      let m' := mkSwapMemo (mkBase (base_TxType (sw_base m)) a) (sw_Destination m) (SlipLimit m) (sw_AffiliateAddress m)
                  (sw_AffiliateBasisPoints m) (DexAggregator m)
                  (externalAssetMatch (Assets.GetChain a) (DexTargetAddress m)) (DexTargetLimit m) (sw_limit m)
                  (sw_StreamInterval m) (sw_StreamQuantity m) (AffiliateSWITCHName m) (sw_RefundAddress m)
                  (Affiliates m) (AffiliatesBasisPoints m) in
      mret (Msg_Swap (getMsgSwapFromMemo m' tx signer))
  | BaseMemo b =>
      match base_TxType b with
      | TxDonate =>
          a ← fuzzyAssetMatch (base_Asset b);
          mret (Msg_Donate (getMsgDonateFromMemo a tx signer))
      | TxReserve =>
          let res := mkReserveContributor (FromAddress tx) (coin_amount (GetCoin (tx_Coins tx) SwitchNative)) in
          mret (Msg_Reserve (mkMsgReserve tx res signer))
      | TxConsolidate => mret (Msg_Consolidate otx signer)
      | TxSwitchPoolDeposit => mret (Msg_PoolDeposit (mkMsgPoolDeposit signer tx))
      | TxSWCYStake => mret (Msg_SWCYStake (mkMsgSWCYStake tx signer))
      | _ => throw "invalid memo"
      end
  | RefundMemo _ txID => mret (Msg_RefundTx (mkMsgTxOut otx txID signer))
  | OutboundMemo _ txID => mret (Msg_OutboundTx (mkMsgTxOut otx txID signer))
  | MigrateMemo _ height => mret (Msg_Migrate (mkMsgAtHeight otx height signer))
  | RagnarokMemo _ height => mret (Msg_Ragnarok (mkMsgAtHeight otx height signer))
  | BondMemo _ node provider fee =>
      let c := GetCoin (tx_Coins tx) SwitchNative in
      mret (Msg_Bond (mkMsgBond tx node (coin_amount c) (FromAddress tx) provider signer fee))
  | UnbondMemo _ node provider amt =>
      mret (Msg_UnBond (mkMsgUnBond tx node amt (FromAddress tx) provider signer))
  | LeaveMemo _ node => mret (Msg_Leave (mkMsgLeave tx node signer))
  | MaintMemo _ node => mret (Msg_Maint (mkMsgMaint node signer))
  | NoOpMemo _ action => mret (Msg_NoOp (mkMsgNoOp otx signer action))
  | ManageSWITCHNameMemo _ name c addr expire preferred owner =>
      mret (Msg_Name (mkMsgName name c addr coin expire preferred owner signer))
  | LoanOpenMemo _ target addr minOut affAddr affPts dexAgg dexTarget dexLimit _ =>
      a ← fuzzyAssetMatch target;
      mret (Msg_LoanOpen (mkMsgLoanOpen (FromAddress tx) (coin_asset coin) (coin_amount coin) addr a minOut affAddr
                            affPts dexAgg dexTarget dexLimit signer (tx_ID tx)))
  | LoanRepaymentMemo b owner minOut =>
      a ← fuzzyAssetMatch (base_Asset b);
      mret (Msg_LoanRepayment (mkMsgLoanRepayment owner a minOut (FromAddress tx) coin signer (tx_ID tx)))
  | TradeAccountDepositMemo _ addr =>
      mret (Msg_TradeDeposit (mkTADeposit (coin_asset coin) (coin_amount coin) addr signer tx))
  | TradeAccountWithdrawalMemo _ addr =>
      mret (Msg_TradeWithdrawal (mkTAWithdrawal (coin_asset coin) (coin_amount coin) addr signer tx))
  | SecuredAssetDepositMemo _ addr =>
      mret (Msg_SecuredDeposit (mkSADeposit (coin_asset coin) (coin_amount coin) addr signer tx))
  | SecuredAssetWithdrawMemo _ addr =>
      mret (Msg_SecuredWithdraw (mkSAWithdraw (coin_asset coin) (coin_amount coin) addr signer tx))
  | SwitchPoolWithdrawMemo _ bps affAddr affPts _ =>
      mret (Msg_PoolWithdraw (mkMsgPoolWithdraw signer tx bps affAddr affPts))
  | ExecMemo _ contract msg =>
      sender ← lift (MappedAccAddress (FromAddress tx));
      mret (Msg_WasmExec (mkMsgWasmExec tx (coin_asset coin) (coin_amount coin) contract msg sender signer))
  | SwitchMemo _ addr => mret (Msg_Switch (mkMsgSwitch tx (coin_asset coin) (coin_amount coin) addr signer))
  | SWCYClaimMemo _ addr => mret (Msg_SWCYClaim (mkMsgSWCYClaim addr (FromAddress tx) signer))
  | SWCYUnstakeMemo _ bps => mret (Msg_SWCYUnstake (mkMsgSWCYUnstake tx bps signer))
  end.

Definition processOneTxIn (ctx : Ctx) (otx : ObservedTx) (signer : string) : K Msg :=
  match tx_Coins (ot_Tx otx) with
  | [coin] =>
      '(memo, e) ← read_memo ctx (Memo (ot_Tx otx));
      _ ← check e;
      msg ← msg_of_memo memo otx coin signer;
      _ ← check (Msg_ValidateBasic msg);
      mret msg
  | _ => throw "only send 1 coins per message"
  end.

(** ** Facts *)

Lemma fuzzy_fold_winner a ps w :
  let r := foldl (fuzzy_step a) w ps in
  (r = w ∧ (∀ q, q ∈ ps → fuzzy_candidate a q = true → BalanceSwitch q < BalanceSwitch w)) ∨
  (r ∈ ps ∧ fuzzy_candidate a r = true ∧ BalanceSwitch w <= BalanceSwitch r ∧
    ∀ q, q ∈ ps → fuzzy_candidate a q = true → BalanceSwitch q <= BalanceSwitch r).
Proof.
  revert w. induction ps as [|p ps IH]; intros w; cbn [foldl].
  - left. split; [done|]. intros q Hq. destruct (not_elem_of_nil _ Hq).
  - assert (Hstep : fuzzy_step a w p = if fuzzy_candidate a p && (BalanceSwitch w <=? BalanceSwitch p) then p else w) by done.
    rewrite Hstep. clear Hstep. destruct (fuzzy_candidate a p) eqn:Hp; cbn [andb].
    + destruct (Z.leb_spec (BalanceSwitch w) (BalanceSwitch p)) as [Hle|Hlt].
      * right. destruct (IH p) as [[-> Hmax]|(Hr & Hc & Hge & Hmax)].
        -- split; [by apply list_elem_of_here|]. split; [done|]. split; [done|].
           intros q [->|Hq]%elem_of_cons Hcq; [lia|]. specialize (Hmax q Hq Hcq). lia.
        -- split; [by apply list_elem_of_further|]. split; [done|]. split; [lia|].
           intros q [->|Hq]%elem_of_cons Hcq; [done|]. by apply Hmax.
      * destruct (IH w) as [[-> Hmax]|(Hr & Hc & Hge & Hmax)].
        -- left. split; [done|]. intros q [->|Hq]%elem_of_cons Hcq; [done|]. by apply Hmax.
        -- right. split; [by apply list_elem_of_further|]. split; [done|]. split; [done|].
           intros q [->|Hq]%elem_of_cons Hcq; [lia|]. by apply Hmax.
    + destruct (IH w) as [[-> Hmax]|(Hr & Hc & Hge & Hmax)].
      * left. split; [done|]. intros q [->|Hq]%elem_of_cons Hcq; [congruence|]. by apply Hmax.
      * right. split; [by apply list_elem_of_further|]. split; [done|]. split; [done|].
        intros q [->|Hq]%elem_of_cons Hcq; [congruence|]. by apply Hmax.
Qed.

Definition stored_pool (s : State) (p : Pool) : Prop := ∃ k, pools s !! k = Some p.
Lemma GetPools_elem s p : p ∈ (snd <$> merge_sort key_le (map_to_list (pools s))) ↔ stored_pool s p.
Proof.
  rewrite list_elem_of_fmap. split.
  - intros ([k q] & -> & Hq). rewrite merge_sort_Permutation, elem_of_map_to_list in Hq. by exists k.
  - intros [k Hk]. exists (k, p). split; [done|]. by rewrite merge_sort_Permutation, elem_of_map_to_list.
Qed.

(** A fuzzy match reads the store, and at most takes the symbol of a pool. *)
Lemma fuzzyAssetMatch_reads a s :
  ∃ sym, fuzzyAssetMatch a s = (Ok (set_symbol sym a), s) ∧
    (sym = symbol a ∨ ∃ p, stored_pool s p ∧ sym = symbol (pool_asset p)).
Proof.
  unfold fuzzyAssetMatch, GetPool, GetPools, gets, mbind, M_bind. destruct (negb _).
  - exists (symbol a). split; [cbn; by destruct a|by left].
  - eexists. split; [done|].
    destruct (fuzzy_fold_winner (Assets.GetLayer1Asset a) (snd <$> merge_sort key_le (map_to_list (pools s)))
      (set_pool_asset a NewPool)) as [[-> _]|(Hr & _)]; [by left|].
    right. eexists. split; [by apply GetPools_elem|done].
Qed.

(** An asset whose pool has liquidity is taken as it is written; otherwise its
    symbol becomes that of the deepest pool of the same chain and ticker whose
    symbol ends in what follows the dash, and it stays as written when there is
    none. *)
Theorem fuzzyAssetMatch_picks_the_deepest a s :
  (∀ p, stored_pool s p → 0 <= BalanceSwitch p) →
  let l1 := Assets.GetLayer1Asset a in
  ∃ r, fuzzyAssetMatch a s = (Ok r, s) ∧
    (BalanceSwitch (default NewPool (pools s !! GetKey (Assets.Str l1))) ≠ 0 ∧ r = a ∨
     BalanceSwitch (default NewPool (pools s !! GetKey (Assets.Str l1))) = 0 ∧
       ((r = a ∧ ∀ q, stored_pool s q → fuzzy_candidate l1 q = false) ∨
        ∃ p, stored_pool s p ∧ fuzzy_candidate l1 p = true ∧ r = set_symbol (symbol (pool_asset p)) a ∧
          ∀ q, stored_pool s q → fuzzy_candidate l1 q = true → BalanceSwitch q <= BalanceSwitch p)).
Proof.
  intros Hpos l1. unfold fuzzyAssetMatch. fold l1. unfold GetPool, GetPools, gets, mbind, M_bind. cbn.
  set (d := BalanceSwitch _). destruct (Z.eqb_spec d 0) as [Hd|Hd]; [|eexists; split; [done|by left]].
  set (ps := (snd <$> merge_sort key_le (map_to_list (pools s)) : list Pool)). set (w0 := set_pool_asset a NewPool).
  exists (set_symbol (symbol (pool_asset (foldl (fuzzy_step l1) w0 ps))) a). split; [done|]. right. split; [done|].
  assert (Hps : ∀ q, q ∈ ps ↔ stored_pool s q) by (intros q; apply GetPools_elem).
  destruct (fuzzy_fold_winner l1 ps w0) as [[Hw Hmax]|(Hr & Hc & _ & Hmax)].
  - left. rewrite Hw. split; [by destruct a|]. intros q Hq. apply not_true_is_false. intros Hc.
    specialize (Hmax q (proj2 (Hps q) Hq) Hc). specialize (Hpos q Hq). cbn in Hmax. lia.
  - right. exists (foldl (fuzzy_step l1) w0 ps). split; [by apply Hps|]. split; [done|]. split; [done|].
    intros q Hq. by apply Hmax, Hps.
Qed.

(** ** What a parser can give *)

Definition gives {A} (m : M PState A) (Q : A → Prop) : Prop := ∀ st a st', m st = (Ok a, st') → Q a.
Lemma gives_bind {A B} (m : M PState A) (f : A → M PState B) Q R :
  gives m Q → (∀ a, Q a → gives (f a) R) → gives (m ≫= f) R.
Proof.
  intros Hm Hf st b st'. unfold mbind, M_bind. destruct (m st) as [[a| |] st1] eqn:E; [|done|done].
  intros Hb. exact (Hf a (Hm _ _ _ E) _ _ _ Hb).
Qed.
Lemma gives_any {A} (m : M PState A) : gives m (λ _, True).
Proof. done. Qed.
Lemma gives_then {A B} (m : M PState A) (f : A → M PState B) R : (∀ a, gives (f a) R) → gives (m ≫= f) R.
Proof. intros Hf. eapply gives_bind; [apply gives_any|]. intros a _. apply Hf. Qed.
Lemma gives_ret {A} (a : A) (Q : A → Prop) : Q a → gives (mret a) Q.
Proof. by intros Ha st b st' [= <- _]. Qed.
Lemma gives_with_errors p m (Q : Memo_ * option error → Prop) : (∀ e, Q (m, e)) → gives (with_errors p m) Q.
Proof. intros HQ. apply gives_then. intros e. by apply gives_ret. Qed.
Lemma gives_quiet {A} (m : M PState A) a n : quiet m a n → gives m (eq a).
Proof. intros Hm st b st'. rewrite Hm. by intros [= <- _]. Qed.

Ltac head_of t := lazymatch t with ?f _ => head_of f | _ => t end.
Ltac gives_step :=
  match goal with
  | |- gives (mret _) _ => apply gives_ret
  | |- gives (with_errors _ _) _ => apply gives_with_errors; intros
  | |- gives (failing _ _) _ => apply gives_ret
  | |- gives (lift Panic) _ => intros ?? ? [=]
  | |- gives (_ ≫= _) _ => apply gives_then; intros
  | |- gives (match ?x with _ => _ end) _ => destruct x
  | |- gives (if ?x then _ else _) _ => destruct x
  | |- gives ?m _ => let parser := head_of m in unfold parser
  end.

Definition is_withdraw (m : Memo_) : Prop := match m with WithdrawLiquidityMemo _ _ _ => True | _ => False end.

(** Only the parser of withdrawals gives a withdrawal. *)
Lemma parse_withdraw p k :
  p_keeper p = Some k → gives (parse_fields p) (λ '(m, _), is_withdraw m → p_type p = TxWithdraw).
Proof.
  intros Hk. unfold parse_fields. destruct (p_type p); try (intros st [m e] st' _; done).
  all: unfold ParseAddLiquidityMemo, ParseSwapMemo, ParseSwapMemoV3_0_0, swap_memo; rewrite ?Hk.
  all: repeat gives_step; done.
Qed.

(** A withdrawal whose memo has no fourth field asks for ETH. *)
Lemma gives_withdraw p :
  field p 3 = "" → gives (ParseWithdrawLiquidityMemo p) (λ '(m, _), ∃ a amt, m = NewWithdrawLiquidityMemo a amt ETHAsset).
Proof.
  intros Hf. unfold ParseWithdrawLiquidityMemo. do 2 (apply gives_then; intros).
  eapply gives_bind; [eapply gives_quiet, quiet_getAsset; rewrite Hf; vm_compute; reflexivity|].
  intros ? <-. apply gives_with_errors. intros _. by do 2 eexists.
Qed.

(** The fields of a memo, as the parser cuts them. *)
Definition memo_fields (memo : string) : list string := Split ":" (hd "" (Split "|" memo)).

Lemma read_withdraw ctx s memo b amt w e :
  ParseMemoWithSWITCHNames ctx s memo = (WithdrawLiquidityMemo b amt w, e) →
  (length (memo_fields memo) <= 3)%nat → w = ETHAsset.
Proof.
  unfold ParseMemoWithSWITCHNames, parse_memo. unfold newParser.
  case_bool_decide; [done|]. fold (memo_fields memo). cbn.
  destruct (StringToTxType _) as [ty| |]; [cbn|done|done]. set (p := mkParser _ _ _ _ _).
  unfold parse, mbind, M_bind. destruct (parse_fields p _) as [[[m e1]| |] st1] eqn:E; [|done|done].
  intros Hm Hlen. assert (m = WithdrawLiquidityMemo b amt w) as ->.
  { destruct e1; [by injection Hm|]. destruct (ErrorOf p st1) as [[]]; by injection Hm. }
  pose proof (parse_withdraw p _ eq_refl _ _ _ E I) as Hty. unfold parse_fields in E. rewrite Hty in E.
  destruct (gives_withdraw p ltac:(unfold field, p; cbn; by rewrite lookup_ge_None_2) _ _ _ E) as (a & amt' & [= _ _ ->]).
  done.
Qed.

(** An asset of ETH by any symbol is not empty and not SWITCH. *)
Lemma eth_asset sym : blank (ToUpper sym) = false →
  let w := set_symbol sym ETHAsset in Assets.IsEmpty w = false ∧ Assets.IsSwitch w = false.
Proof. intros Hs. split; [|done]. unfold Assets.IsEmpty. cbn. rewrite Hs. done. Qed.
Lemma alphanumeric_not_blank sym : isAlphaNumeric sym = true → blank (ToUpper sym) = false.
Proof.
  rewrite blank_upper. unfold isAlphaNumeric. rewrite andb_true_iff, negb_true_iff, bool_decide_eq_false.
  destruct sym as [|c r]; [intros [Hne _]; by destruct Hne|]. intros [_ Hc]. cbn in Hc. apply andb_true_iff in Hc as [Hc _].
  unfold blank. cbn. assert (is_space c = false) as ->; [|done]. revert Hc. all_chars c; done.
Qed.

(** A memo that asks for a withdrawal and does not say which asset it wants is
    read as asking for ETH: the empty text is the short code of ETH.ETH, which
    has none. So the only withdrawals it can be accepted for are those from the
    pools of ETH; for every other pool the transaction is refused. *)
Theorem withdrawal_without_asset_is_for_eth ctx otx signer s m s' :
  (∀ p, stored_pool s p → asset_wf (pool_asset p)) →
  processOneTxIn ctx otx signer s = (Ok (Msg_Withdraw m), s') →
  (length (memo_fields (Memo (ot_Tx otx))) <= 3)%nat →
  wl_WithdrawalAsset m ≠ EmptyAsset ∧
  Chains.Equals ETHChain (chain (wl_Asset m)) = true ∧ Ticker_Equals "ETH" (ticker (wl_Asset m)) = true.
Proof.
  intros Hwf Hrun Hlen. unfold processOneTxIn in Hrun. destruct (tx_Coins (ot_Tx otx)) as [|coin []]; [done| |done].
  run_step Hrun me s1 Hread. apply gets_ok in Hread as [-> ->].
  destruct (ParseMemoWithSWITCHNames ctx s (Memo (ot_Tx otx))) as [memo e] eqn:Hmemo.
  run_step Hrun u s1 Hc. apply check_ok in Hc as [-> ->]. run_step Hrun msg s1 Hmsg.
  run_step Hrun u' s2 Hc. apply check_ok in Hc as [Hvalid ->]. apply ret_ok in Hrun as [<- ->].
  cbn [Msg_ValidateBasic] in Hvalid.
  assert (Hw : is_withdraw memo).
  { destruct memo; try exact I; exfalso; cbn [msg_of_memo] in Hmsg; run_inv; try done.
    destruct (base_TxType b); run_inv; done. }
  destruct memo as [| |b amt w| | | | | | | | | | | | | | | | | | | | | |]; try destruct Hw.
  rewrite (read_withdraw _ _ _ _ _ _ _ Hmemo Hlen) in *.
  cbn [msg_of_memo] in Hmsg. run_step Hmsg a sa Ha. run_step Hmsg a' sb Ha'. apply ret_ok in Hmsg as [[= ->] ->].
  destruct (fuzzyAssetMatch_reads (base_Asset b) s) as (sym & Hf & _). rewrite Hf in Ha. injection Ha as <- <-.
  destruct (fuzzyAssetMatch_reads ETHAsset s) as (sym' & Hf' & Hsym).
  change (Assets.IsEmpty ETHAsset) with false in Ha'. cbv iota in Ha'. rewrite Hf' in Ha'. injection Ha' as <- <-.
  assert (Hblank : blank (ToUpper sym') = false).
  { apply alphanumeric_not_blank. destruct Hsym as [->|(p & Hp & ->)]; [reflexivity|]. by apply wf_symbol, Hwf. }
  destruct (eth_asset sym' Hblank) as [He Hs]. cbn [getMsgWithdrawFromMemo wl_WithdrawalAsset wl_Asset].
  split; [intros Heq; by rewrite Heq in He|].
  assert (Heq : Assets.Equals (set_symbol sym' ETHAsset) (set_symbol sym (base_Asset b)) = true).
  { unfold Withdraw_ValidateBasic in Hvalid. cbn [wl_Signer wl_Tx wl_Asset wl_WithdrawAddress wl_BasisPoints wl_WithdrawalAsset getMsgWithdrawFromMemo] in Hvalid.
    rewrite He, Hs in Hvalid. cbn [negb andb] in Hvalid.
    destruct (Assets.Equals (set_symbol sym' ETHAsset) (set_symbol sym (base_Asset b))); [done|].
    repeat case_match; done. }
  unfold Assets.Equals in Heq. repeat (apply andb_true_iff in Heq as [Heq ?]). done.
Qed.

(** C34: A transaction of one coin whose memo is the text of a market swap that can be
    read back becomes exactly the swap the text was made from: its destination, or
    the sender when there is none; its price limit, schedule and aggregator as they
    were; the address of its first affiliate, when there is a fee, as the store knows
    it, and the sum of the fees; its target as the fuzzy match finds it.  It is
    refused only when that swap does not pass its own checks. *)
Theorem swap_memo_becomes_its_swap ctx otx signer s short m most coin :
  3 <= versionMajor ctx → swap_readable ctx s m most →
  tx_Coins (ot_Tx otx) = [coin] → Memo (ot_Tx otx) = swap_string short m →
  ∃ a, fuzzyAssetMatch (base_Asset (sw_base m)) s = (Ok a, s) ∧
    let dest := if blank (sw_Destination m) then FromAddress (ot_Tx otx) else sw_Destination m in
    let swap := mkMsgSwap (ot_Tx otx) a dest (SlipLimit m) (affiliate_address (ctx, s) m) (sumZ (AffiliatesBasisPoints m))
                  (DexAggregator m) (externalAssetMatch (Assets.GetChain a) (DexTargetAddress m)) (DexTargetLimit m) false
                  (sw_StreamQuantity m) (sw_StreamInterval m) signer in
    processOneTxIn ctx otx signer s =
      match MsgSwap_ValidateBasic swap with
      | None => (Ok (Msg_Swap swap), s)
      | Some e => (Err e, s)
      end.
Proof.
  intros Hv Hr Hcoin Hmemo. pose proof (read_swap_string ctx s short m most Hv Hr) as Hread.
  destruct (fuzzyAssetMatch_reads (base_Asset (sw_base m)) s) as (sym & Hf & _).
  exists (set_symbol sym (base_Asset (sw_base m))). split; [exact Hf|]. cbv zeta.
  unfold processOneTxIn. rewrite Hcoin. erewrite M_bind_run; [|unfold read_memo, gets; by rewrite Hmemo, Hread].
  cbn [check]. erewrite M_bind_run; [|done]. cbn [msg_of_memo].
  erewrite M_bind_run; [|erewrite M_bind_run; [done|exact Hf]].
  cbn [Msg_ValidateBasic getMsgSwapFromMemo]. unfold read_back, total_fee. cbn. rewrite (sr_market _ _ _ _ Hr). by destruct (MsgSwap_ValidateBasic _).
Qed.
End Dispatch.

(** ** Concrete transactions *)

(** Addresses are their own bytes, and no tokens are listed. *)
Definition plain_codec : AddressCodec :=
  {| VerifyAddressFormat s := if bool_decide (s = "") then Some "addresses cannot be empty" else None;
     bech32_Decode := Ok; bech32_Encode _ d := Ok d; AccountPrefix := "switch" |}.
#[local] Existing Instance plain_codec.
Definition no_tokens : TokenLists := {| EVMTokens _ := [] |}.
#[local] Existing Instance no_tokens.

Definition seen_hash : string := "2222222222222222222222222222222222222222222222222222222222222222".
Definition seen (c : Coin) (memo : string) : ObservedTx :=
  NewObservedTx (NewTx seen_hash "swtc1from" "swtc1vault" [c] [] memo) 5 "vault" 5.
Definition dispatch_block : Ctx := mkCtx 8 3 "".

Definition usdc (sym : string) : Asset := mkAsset "ETH" sym "USDC" false false false.
Definition eth_pool_list : list (string * Pool) :=
  let pool a d := (GetKey (Assets.Str a), mkPool d 10 a 10 Available 0 8 0 0 0) in
  [pool ETHAsset 100; pool BTCAsset 200; pool (usdc "USDC-0XA0B1") 50; pool (usdc "USDC-0XC2D3") 70].
Definition eth_pools : State := put_pools (list_to_map eth_pool_list) named.

Lemma eth_pools_wf p : stored_pool eth_pools p → asset_wf (pool_asset p) ∧ 0 <= BalanceSwitch p.
Proof.
  intros [k Hk]. change ((list_to_map eth_pool_list : gmap string Pool) !! k = Some p) in Hk. apply elem_of_list_to_map_2 in Hk.
  repeat (apply elem_of_cons in Hk as [[= _ ->]|Hk];
    [split; [split; vm_compute; (reflexivity || lia)|vm_compute; discriminate]|]).
  destruct (not_elem_of_nil _ Hk).
Qed.

Lemma fuzzyAssetMatch_picks_the_deepest_witness :
  fst (fuzzyAssetMatch (usdc "USDC") eth_pools) = Ok (usdc "USDC-0XC2D3") ∧
  fst (fuzzyAssetMatch (usdc "USDC-0B1") eth_pools) = Ok (usdc "USDC-0XA0B1") ∧
  ∃ r, fuzzyAssetMatch (usdc "USDC") eth_pools = (Ok r, eth_pools) ∧ Assets.Equals r (usdc "USDC") = false.
Proof.
  split; [vm_compute; reflexivity|]. split; [vm_compute; reflexivity|].
  destruct (fuzzyAssetMatch_picks_the_deepest (usdc "USDC") eth_pools (λ p Hp, proj2 (eth_pools_wf p Hp))) as (r & Hr & _).
  exists r. split; [exact Hr|]. pose proof (f_equal fst Hr) as Hv. vm_compute in Hv. injection Hv as <-. reflexivity.
Defined.

(** Of the pools of ETH such a withdrawal is accepted, of Bitcoin's it is not. *)
Lemma withdrawal_without_asset_is_for_eth_witness :
  fst (processOneTxIn dispatch_block (seen (NewCoin SwitchNative 1) "-:BTC.BTC:10000") "signer" eth_pools) =
    Err "withdrawal asset must be empty, switch, or pool asset" ∧
  ∃ m, fst (processOneTxIn dispatch_block (seen (NewCoin SwitchNative 1) "-:ETH.ETH:10000") "signer" eth_pools) =
    Ok (Msg_Withdraw m) ∧ wl_WithdrawalAsset m ≠ EmptyAsset.
Proof.
  split; [vm_compute; reflexivity|].
  assert (H : fst (processOneTxIn dispatch_block (seen (NewCoin SwitchNative 1) "-:ETH.ETH:10000") "signer" eth_pools) =
    Ok (Msg_Withdraw (mkMsgWithdrawLiquidity (ot_Tx (seen (NewCoin SwitchNative 1) "-:ETH.ETH:10000")) "swtc1from" 10000
          ETHAsset ETHAsset "signer"))) by (vm_compute; reflexivity).
  eexists. split; [exact H|].
  apply (withdrawal_without_asset_is_for_eth dispatch_block _ "signer" eth_pools _ _
    (λ p Hp, proj1 (eth_pools_wf p Hp)) (run_pair _ _ H)).
  vm_compute. lia.
Defined.

Lemma swap_memo_becomes_its_swap_witness :
  ∃ swap, fst (processOneTxIn dispatch_block (seen (NewCoin SwitchNative 500) (swap_string true full_swap)) "signer" named) =
    Ok (Msg_Swap swap) ∧ Destination swap = "bc1to" ∧ StreamInterval swap = 3 ∧ sm_AffiliateBasisPoints swap = 30 ∧
    sm_AffiliateAddress swap = "swtc1ann".
Proof.
  destruct (swap_memo_becomes_its_swap dispatch_block (seen (NewCoin SwitchNative 500) (swap_string true full_swap)) "signer"
    named true full_swap 5 (NewCoin SwitchNative 500) ltac:(cbn; lia) full_swap_readable eq_refl eq_refl) as (a & _ & Hrun).
  cbv zeta in Hrun. eexists.
  assert (Hok : is_ok (fst (processOneTxIn dispatch_block (seen (NewCoin SwitchNative 500) (swap_string true full_swap))
    "signer" named)) = true) by (vm_compute; reflexivity).
  rewrite Hrun in Hok |- *. destruct (MsgSwap_ValidateBasic _); [discriminate Hok|].
  split; [reflexivity|]. split; [reflexivity|]. split; [reflexivity|]. split; [reflexivity|]. vm_compute. reflexivity.
Defined.
