(* ===== verification/Vaults.v ===== *)
(** * Vaults

    src/x/switchly/types/type_vault.go: the coins a group of validators holds on
    the external chains, with its members and routers; and
    src/x/switchly/keeper/v1/keeper_vault.go: the vaults of the store and the
    index of those that are Asgard vaults, with its clean-up at a churn
    (src/x/switchly/manager_network_current.go). *)

From S2P Require Import Prelude GoStrings CosmosMath Amounts Assets Coins Constants State Txs Nodes Quorum ObservedTx Attest SwapHandler SwapOrder.
Open Scope Z_scope.

Inductive VaultStatus := InactiveVault | ActiveVault | RetiringVault | InitVault.
#[export] Instance VaultStatus_eq_dec : EqDecision VaultStatus.
Proof. solve_decision. Defined.
Inductive VaultType := UnknownVault | AsgardVault.
#[export] Instance VaultType_eq_dec : EqDecision VaultType.
Proof. solve_decision. Defined.

Record ChainContract := mkChainContract { cc_Chain : Chain; cc_Router : string }.

Record Vault := mkVault {
  v_BlockHeight : Z;
  v_PubKey : string;
  v_Coins : list Coin;
  v_Type : VaultType;
  v_Status : VaultStatus;
  v_StatusSince : Z;
  v_Membership : list string;
  v_Chains : list string;
  InboundTxCount : Z;
  OutboundTxCount : Z;
  PendingTxBlockHeights : list Z;
  Routers : list ChainContract;
  Frozen : list string;
  Ed25519PubKey : string;
}.

Definition no_vault : Vault := mkVault 0 "" [] UnknownVault InactiveVault 0 [] [] 0 0 [] [] [] "".
Definition set_v_Coins (cs : list Coin) (m : Vault) : Vault :=
  mkVault (v_BlockHeight m) (v_PubKey m) cs (v_Type m) (v_Status m) (v_StatusSince m) (v_Membership m) (v_Chains m)
    (InboundTxCount m) (OutboundTxCount m) (PendingTxBlockHeights m) (Routers m) (Frozen m) (Ed25519PubKey m).
Definition set_v_Chains (l : list string) (m : Vault) : Vault :=
  mkVault (v_BlockHeight m) (v_PubKey m) (v_Coins m) (v_Type m) (v_Status m) (v_StatusSince m) (v_Membership m) l
    (InboundTxCount m) (OutboundTxCount m) (PendingTxBlockHeights m) (Routers m) (Frozen m) (Ed25519PubKey m).
Definition set_counts (i o : Z) (m : Vault) : Vault :=
  mkVault (v_BlockHeight m) (v_PubKey m) (v_Coins m) (v_Type m) (v_Status m) (v_StatusSince m) (v_Membership m)
    (v_Chains m) i o (PendingTxBlockHeights m) (Routers m) (Frozen m) (Ed25519PubKey m).
Definition set_pending (l : list Z) (m : Vault) : Vault :=
  mkVault (v_BlockHeight m) (v_PubKey m) (v_Coins m) (v_Type m) (v_Status m) (v_StatusSince m) (v_Membership m)
    (v_Chains m) (InboundTxCount m) (OutboundTxCount m) l (Routers m) (Frozen m) (Ed25519PubKey m).
Definition set_Routers (l : list ChainContract) (m : Vault) : Vault :=
  mkVault (v_BlockHeight m) (v_PubKey m) (v_Coins m) (v_Type m) (v_Status m) (v_StatusSince m) (v_Membership m)
    (v_Chains m) (InboundTxCount m) (OutboundTxCount m) (PendingTxBlockHeights m) l (Frozen m) (Ed25519PubKey m).
Definition set_Frozen (l : list string) (m : Vault) : Vault :=
  mkVault (v_BlockHeight m) (v_PubKey m) (v_Coins m) (v_Type m) (v_Status m) (v_StatusSince m) (v_Membership m)
    (v_Chains m) (InboundTxCount m) (OutboundTxCount m) (PendingTxBlockHeights m) (Routers m) l (Ed25519PubKey m).
Definition set_identity (h : Z) (pk : string) (m : Vault) : Vault :=
  mkVault h pk (v_Coins m) (v_Type m) (v_Status m) (v_StatusSince m) (v_Membership m) (v_Chains m)
    (InboundTxCount m) (OutboundTxCount m) (PendingTxBlockHeights m) (Routers m) (Frozen m) (Ed25519PubKey m).

Section Vaults.
  Context `{CosmosMath} `{Bank} `{Env} `{!PubKeys}.

(** ** The record *)

Definition NewVault (height : Z) (status : VaultStatus) (vtype : VaultType) (pk : string) (chains : list string)
    (routers : list ChainContract) : Vault :=
  mkVault height pk [] vtype status height [] chains 0 0 [] routers [] "".
Definition Vault_GetChains (m : Vault) : list Chain := parsed Chains.NewChain (v_Chains m).
Definition GetMembership (m : Vault) : list string := parsed NewPubKey (v_Membership m).
Definition IsAsgard (m : Vault) : bool := bool_decide (v_Type m = AsgardVault).
Definition IsActive (m : Vault) : bool := bool_decide (v_Status m = ActiveVault).
Definition IsRetiring (m : Vault) : bool := bool_decide (v_Status m = RetiringVault).
Definition Vault_IsEmpty (m : Vault) : bool := bool_decide (v_PubKey m = "").
Definition PubKeyForChain (m : Vault) (c : Chain) : string :=
  if Chains.Equals c StellarChain && negb (bool_decide (Ed25519PubKey m = "")) then Ed25519PubKey m else v_PubKey m.
Definition Vault_Contains (m : Vault) (pk : string) : bool := bool_decide (pk ∈ GetMembership m).
Definition MembershipEquals (m : Vault) (pks : list string) : bool :=
  (length (v_Membership m) =? length pks)%nat && forallb (Vault_Contains m) pks.
Definition Vault_UpdateStatus (st : VaultStatus) (height : Z) (m : Vault) : Vault :=
  mkVault (v_BlockHeight m) (v_PubKey m) (v_Coins m) (v_Type m) st height (v_Membership m) (v_Chains m)
    (InboundTxCount m) (OutboundTxCount m) (PendingTxBlockHeights m) (Routers m) (Frozen m) (Ed25519PubKey m).
Definition Vault_Valid (m : Vault) : option error :=
  if Vault_IsEmpty m then Some "pubkey cannot be empty" else None.

Definition HasFunds (m : Vault) : bool :=
  existsb (λ c, negb (Assets.IsSwitch (coin_asset c)) && negb (coin_amount c =? 0)) (v_Coins m).
Definition on_chain (c : Chain) (coin : Coin) : bool :=
  Chains.Equals (Assets.GetChain (coin_asset coin)) c && negb (coin_amount coin =? 0).
Definition HasFundsForChain (m : Vault) (c : Chain) : bool := existsb (on_chain c) (v_Coins m).
Definition CoinLength (m : Vault) : Z := len (List.filter (λ c, negb (coin_amount c =? 0)) (v_Coins m)).
Definition CoinLengthByChain (m : Vault) (c : Chain) : Z := len (List.filter (on_chain c) (v_Coins m)).
Definition Vault_GetCoin (m : Vault) (a : Asset) : Coin :=
  match List.find (λ c, Assets.Equals (coin_asset c) a) (v_Coins m) with Some c => c | None => NewCoin a 0 end.
Definition HasAsset (m : Vault) (a : Asset) : bool := negb (coin_amount (Vault_GetCoin m a) =? 0).

(** The members among the observers, one entry per observer that is one. *)
Fixpoint members_of (observers pks : list string) : outcome (list string) :=
  match pks with
  | [] => Ok []
  | k :: r =>
      addr ← GetThorAddress k;
      rest ← members_of observers r;
      Ok (map (λ _, k) (List.filter (λ o, bool_decide (o = addr)) observers) ++ rest)%list
  end.
Definition GetMembers (m : Vault) (activeObservers : list string) : outcome (list string) :=
  match members_of activeObservers (GetMembership m) with
  | Err _ => Err "fail to get switchly address"
  | r => r
  end.

Definition GetContract (v : Vault) (c : Chain) : ChainContract :=
  match List.find (λ i, Chains.Equals (cc_Chain i) c) (Routers v) with Some i => i | None => mkChainContract "" "" end.
Definition UpdateContract (cc : ChainContract) (v : Vault) : Vault :=
  let same i := Chains.Equals (cc_Chain i) (cc_Chain cc) in
  let l := map (λ i, if same i then cc else i) (Routers v) in
  set_Routers (if existsb same (Routers v) then l else (l ++ [cc])%list) v.

(** *** Funds *)

(** The first coin of the asset with its amount changed, if there is one. *)
Fixpoint change_coin (f : Z → outcome Z) (eq : Asset → bool) (cs : list Coin) : outcome (option (list Coin)) :=
  match cs with
  | [] => Ok None
  | c :: r =>
      if eq (coin_asset c) then a ← f (coin_amount c); Ok (Some (mkCoin (coin_asset c) a (coin_decimals c) :: r))
      else r' ← change_coin f eq r; Ok (option_map (cons c) r')
  end.
Definition addFund (coin : Coin) (m : Vault) : outcome Vault :=
  changed ← change_coin (λ a, uadd a (coin_amount coin)) (λ a, Assets.Equals a (coin_asset coin)) (v_Coins m);
  match changed with
  | Some cs => Ok (set_v_Coins cs m)
  | None =>
      let c := Assets.GetChain (coin_asset coin) in
      let m := if Chains.Has (Vault_GetChains m) c then m else set_v_Chains (v_Chains m ++ [Chains.Str c])%list m in
      Ok (set_v_Coins (v_Coins m ++ [coin])%list m)
  end.
Fixpoint AddFunds (coins : list Coin) (m : Vault) : outcome Vault :=
  match coins with [] => Ok m | c :: r => m ← addFund c m; AddFunds r m end.
Definition subFund (coin : Coin) (m : Vault) : outcome Vault :=
  changed ← change_coin (λ a, SafeSub a (coin_amount coin)) (Assets.Equals (coin_asset coin)) (v_Coins m);
  Ok (match changed with Some cs => set_v_Coins cs m | None => m end).
Fixpoint SubFunds (coins : list Coin) (m : Vault) : outcome Vault :=
  match coins with [] => Ok m | c :: r => m ← subFund c m; SubFunds r m end.

(** What an outstanding outbound of the vault still takes from a coin. *)
Definition deduct_coin (item : TxOutItem) (gas : Coin) (c : Coin) : outcome Coin :=
  a ← (if Assets.Equals (coin_asset c) (coin_asset (toi_Coin item))
       then SafeSub (coin_amount c) (coin_amount (toi_Coin item)) else Ok (coin_amount c));
  a ← (if Assets.Equals (coin_asset c) (coin_asset gas) then SafeSub a (coin_amount gas) else Ok a);
  Ok (mkCoin (coin_asset c) a (coin_decimals c)).
Fixpoint deduct_coins (item : TxOutItem) (gas : Coin) (cs : list Coin) : outcome (list Coin) :=
  match cs with
  | [] => Ok []
  | c :: r => c ← deduct_coin item gas c; r ← deduct_coins item gas r; Ok (c :: r)
  end.
Fixpoint DeductVaultPendingOutbounds (items : list TxOutItem) (m : Vault) : outcome Vault :=
  match items with
  | [] => Ok m
  | item :: r =>
      if negb (bool_decide (toi_VaultPubKey item = v_PubKey m)) || negb (TxID_IsEmpty (toi_OutHash item))
      then DeductVaultPendingOutbounds r m
      else
        let gas := if Coins_IsEmpty (toi_MaxGas item) then mkCoin EmptyAsset 0 0
                   else GetCoin (toi_MaxGas item) (GetGasAsset (toi_Chain item)) in
        cs ← deduct_coins item gas (v_Coins m);
        DeductVaultPendingOutbounds r (set_v_Coins cs m)
  end.

(** *** Blocks with outbounds that wait to be signed *)

Definition AppendPendingTxBlockHeights (blockHeight period : Z) (m : Vault) : Vault :=
  set_pending (blockHeight :: List.filter (λ h, blockHeight - h <=? period) (PendingTxBlockHeights m)) m.
Fixpoint remove_first (h : Z) (l : list Z) : list Z :=
  match l with [] => [] | x :: r => if x =? h then r else x :: remove_first h r end.
Definition RemovePendingTxBlockHeights (blockHeight : Z) (m : Vault) : Vault :=
  set_pending (remove_first blockHeight (PendingTxBlockHeights m)) m.
Definition LenPendingTxBlockHeights (m : Vault) (currentBlockHeight maxBlocks : Z) : Z :=
  len (List.filter (λ h, currentBlockHeight - h <=? maxBlocks) (PendingTxBlockHeights m)).

(** *** Lists of vaults *)

Definition SortBy (a : Asset) (vs : list Vault) : list Vault :=
  sort_stable (λ x y, coin_amount (Vault_GetCoin y a) <? coin_amount (Vault_GetCoin x a)) vs.
Definition Vaults_Has (target : Coin) (vs : list Vault) : list Vault :=
  List.filter (λ v, coin_amount target <=? coin_amount (Vault_GetCoin v (coin_asset target))) vs.
Definition select_coin (better : Z → Z → bool) (a : Asset) (vs : list Vault) : Vault :=
  match vs with
  | [v] => v
  | _ => fold_left (λ best v, if Vault_IsEmpty best ||
                                 better (coin_amount (Vault_GetCoin v a)) (coin_amount (Vault_GetCoin best a))
                              then v else best) vs no_vault
  end.
Definition SelectByMinCoin (a : Asset) (vs : list Vault) : Vault := select_coin Z.ltb a vs.
Definition SelectByMaxCoin (a : Asset) (vs : list Vault) : Vault := select_coin Z.gtb a vs.
End Vaults.

(** ** The store *)

(** What the gas manager keeps in memory during a block. *)
Record GasMgr := mkGasMgr {
  gasEvent : list GasPool;
  outAssetGas : list (Asset * list Coin);
  gasCount : gmap Asset Z;
}.

Section VaultStore.
  Context `{Bank}.

(** The part of the store that vaults and outbounds add. *)
Record VaultState := mkVaultState {
  vs_queue : QueueState;
  vaults : gmap string Vault;
  asgardIndex : list string;
  lastChainHeights : gmap string Z;
  observing : gmap string (list string);
  txOuts : gmap Z (list TxOutItem);
  lastSignedHeight : Z;
  feeWithheld : gmap string Z;
  feeSpent : gmap string Z;
  gasMgr : GasMgr;
  ragnarokPending : Z;
  keysignMetrics : gmap string (list (string * Z));
}.
End VaultStore.

Section VaultKeeper.
  Context `{CosmosMath} `{Bank} `{Env} `{!PubKeys}.
Abbreviation V := (M VaultState).

Definition put_queue (v : QueueState) (r : VaultState) : VaultState :=
  mkVaultState v (vaults r) (asgardIndex r) (lastChainHeights r) (observing r) (txOuts r) (lastSignedHeight r) (feeWithheld r) (feeSpent r) (gasMgr r) (ragnarokPending r) (keysignMetrics r).
Definition put_vaults (v : gmap string Vault) (r : VaultState) : VaultState :=
  mkVaultState (vs_queue r) v (asgardIndex r) (lastChainHeights r) (observing r) (txOuts r) (lastSignedHeight r) (feeWithheld r) (feeSpent r) (gasMgr r) (ragnarokPending r) (keysignMetrics r).
Definition put_asgardIndex (v : list string) (r : VaultState) : VaultState :=
  mkVaultState (vs_queue r) (vaults r) v (lastChainHeights r) (observing r) (txOuts r) (lastSignedHeight r) (feeWithheld r) (feeSpent r) (gasMgr r) (ragnarokPending r) (keysignMetrics r).
Definition put_lastChainHeights (v : gmap string Z) (r : VaultState) : VaultState :=
  mkVaultState (vs_queue r) (vaults r) (asgardIndex r) v (observing r) (txOuts r) (lastSignedHeight r) (feeWithheld r) (feeSpent r) (gasMgr r) (ragnarokPending r) (keysignMetrics r).
Definition put_observing (v : gmap string (list string)) (r : VaultState) : VaultState :=
  mkVaultState (vs_queue r) (vaults r) (asgardIndex r) (lastChainHeights r) v (txOuts r) (lastSignedHeight r) (feeWithheld r) (feeSpent r) (gasMgr r) (ragnarokPending r) (keysignMetrics r).
Definition put_txOuts (v : gmap Z (list TxOutItem)) (r : VaultState) : VaultState :=
  mkVaultState (vs_queue r) (vaults r) (asgardIndex r) (lastChainHeights r) (observing r) v (lastSignedHeight r) (feeWithheld r) (feeSpent r) (gasMgr r) (ragnarokPending r) (keysignMetrics r).
Definition put_lastSignedHeight (v : Z) (r : VaultState) : VaultState :=
  mkVaultState (vs_queue r) (vaults r) (asgardIndex r) (lastChainHeights r) (observing r) (txOuts r) v (feeWithheld r) (feeSpent r) (gasMgr r) (ragnarokPending r) (keysignMetrics r).
Definition put_feeWithheld (v : gmap string Z) (r : VaultState) : VaultState :=
  mkVaultState (vs_queue r) (vaults r) (asgardIndex r) (lastChainHeights r) (observing r) (txOuts r) (lastSignedHeight r) v (feeSpent r) (gasMgr r) (ragnarokPending r) (keysignMetrics r).
Definition put_feeSpent (v : gmap string Z) (r : VaultState) : VaultState :=
  mkVaultState (vs_queue r) (vaults r) (asgardIndex r) (lastChainHeights r) (observing r) (txOuts r) (lastSignedHeight r) (feeWithheld r) v (gasMgr r) (ragnarokPending r) (keysignMetrics r).
Definition put_gasMgr (v : GasMgr) (r : VaultState) : VaultState :=
  mkVaultState (vs_queue r) (vaults r) (asgardIndex r) (lastChainHeights r) (observing r) (txOuts r) (lastSignedHeight r) (feeWithheld r) (feeSpent r) v (ragnarokPending r) (keysignMetrics r).
Definition put_ragnarokPending (v : Z) (r : VaultState) : VaultState :=
  mkVaultState (vs_queue r) (vaults r) (asgardIndex r) (lastChainHeights r) (observing r) (txOuts r) (lastSignedHeight r) (feeWithheld r) (feeSpent r) (gasMgr r) v (keysignMetrics r).
Definition put_keysignMetrics (v : gmap string (list (string * Z))) (r : VaultState) : VaultState :=
  mkVaultState (vs_queue r) (vaults r) (asgardIndex r) (lastChainHeights r) (observing r) (txOuts r) (lastSignedHeight r) (feeWithheld r) (feeSpent r) (gasMgr r) (ragnarokPending r) v.

Definition in_queue {A} (m : M QueueState A) : V A := λ s, let '(r, q) := m (vs_queue s) in (r, put_queue q s).
Definition observed {A} (m : M ObsState A) : V A := in_queue (in_obs m).

(** *** Vaults *)

Definition getAsgardIndex : V (list string) :=
  record ← gets asgardIndex;
  lift (map_outcome NewPubKey record).
Definition addAsgardIndex (pk : string) : V () :=
  pks ← getAsgardIndex;
  if bool_decide (pk ∈ pks) then mret () else modify (put_asgardIndex (pks ++ [pk])%list).
Definition RemoveFromAsgardIndex (pk : string) : V () :=
  pks ← getAsgardIndex;
  modify (put_asgardIndex (filter (λ p, p ≠ pk) pks)).
Definition SetVault (v : Vault) : V () :=
  _ ← (if IsAsgard v then addAsgardIndex (v_PubKey v) else mret ());
  modify (λ s, put_vaults (<[GetKey (v_PubKey v) := v]> (vaults s)) s).
Definition VaultExists (pk : string) : V bool := gets (λ s, bool_decide (is_Some (vaults s !! GetKey pk))).
(** A stored vault is read with a height and a key when it has none. *)
Definition as_read (ctx : Ctx) (pk : string) (v : Vault) : Vault :=
  set_identity (if v_BlockHeight v =? 0 then BlockHeight ctx else v_BlockHeight v)
    (if Vault_IsEmpty v then pk else v_PubKey v) v.
Definition GetVault (ctx : Ctx) (pk : string) : V Vault :=
  found ← gets (λ s, vaults s !! GetKey pk);
  match found with
  | None => throw "vault doesn't exist"
  | Some v => mret (as_read ctx pk v)
  end.
Definition HasValidVaultPools : V bool := gets (λ s, existsb (HasFunds ∘ snd) (map_to_list (vaults s))).
Fixpoint get_asgards (ctx : Ctx) (pks : list string) : V (list Vault) :=
  match pks with
  | [] => mret []
  | pk :: r => v ← GetVault ctx pk; vs ← get_asgards ctx r; mret (if IsAsgard v then v :: vs else vs)
  end.
Definition GetAsgardVaults (ctx : Ctx) : V (list Vault) := pks ← getAsgardIndex; get_asgards ctx pks.
Definition GetAsgardVaultsByStatus (ctx : Ctx) (st : VaultStatus) : V (list Vault) :=
  all ← GetAsgardVaults ctx;
  mret (List.filter (λ v, bool_decide (v_Status v = st)) all).
(** [NetworkMgrVCUR.cleanupAsgardIndex]: at a churn inactive vaults leave the index,
    and stay in the store. *)
Definition leave_index (vault : Vault) : V () :=
  if Vault_IsEmpty vault then mret ()
  else if negb (IsAsgard vault) then mret ()
  else if bool_decide (v_Status vault = InactiveVault)
  then _ ← attempt (RemoveFromAsgardIndex (v_PubKey vault)); mret ()
  else mret ().
Definition cleanupAsgardIndex (ctx : Ctx) : V () := asgards ← GetAsgardVaults ctx; for_each leave_index asgards.
Definition DeleteVault (ctx : Ctx) (pk : string) : V () :=
  found ← gets (λ s, vaults s !! GetKey pk);
  match found with
  | None => mret ()
  | Some _ =>
      v ← GetVault ctx pk;
      _ ← fail_when (HasFunds v) "unable to delete vault: it still contains funds";
      _ ← (if IsAsgard v then _ ← attempt (RemoveFromAsgardIndex pk); mret () else mret ());
      modify (λ s, put_vaults (delete (GetKey (v_PubKey v)) (vaults s)) s)
  end.

(** *** Heights and observers *)

Definition GetLastChainHeight (c : Chain) : V Z := gets (λ s, default 0 (lastChainHeights s !! GetKey (Chains.Str c))).
Definition SetLastChainHeight (c : Chain) (height : Z) : V () :=
  lastHeight ← GetLastChainHeight c;
  _ ← fail_when (height <? lastHeight) "block height can't go backward";
  modify (λ s, put_lastChainHeights (<[GetKey (Chains.Str c) := height]> (lastChainHeights s)) s).
(** [ObserverMgr.AppendObserver], the first of equal addresses kept. *)
Definition unique (l : list string) : list string :=
  fold_left (λ u a, if bool_decide (a ∈ u) then u else (u ++ [a])%list) l [].
Definition AppendObserver (c : Chain) (addrs : list string) : V () :=
  modify (λ s, put_observing (<[c := unique (default [] (observing s !! c) ++ addrs)%list]> (observing s)) s).

Definition SetLastSignedHeight (height : Z) : V () :=
  modify (λ s, if height <? lastSignedHeight s then s else put_lastSignedHeight height s).

(** *** Outbounds by block *)

Definition GetTxOut (height : Z) : V (list TxOutItem) := gets (λ s, default [] (txOuts s !! height)).
Definition SetTxOut (height : Z) (items : list TxOutItem) : V () :=
  modify (λ s, if bool_decide (items = []) then s else put_txOuts (<[height := items]> (txOuts s)) s).
Definition AppendTxOut (height : Z) (item : TxOutItem) : V () :=
  block ← GetTxOut height; SetTxOut height (block ++ [item])%list.
Definition ClearTxOut (height : Z) : V () := modify (λ s, put_txOuts (delete height (txOuts s)) s).
End VaultKeeper.

(** ** What the vault's operations keep *)

#[local] Arguments total_of : simpl never.
Section VaultFacts.
  Context `{CosmosMath} `{Bank} `{Env} `{!PubKeys}.

(** A vault whose coins are parsed assets, one coin per asset and no negative
    amount, each of a chain that the vault lists. *)
Record vault_typed (m : Vault) : Prop := {
  vt_coins : coins_wf (v_Coins m);
  vt_distinct : NoDup (coin_asset <$> v_Coins m);
  vt_chains : Forall (λ c, Chains.Has (Vault_GetChains m) (Assets.GetChain (coin_asset c)) = true) (v_Coins m);
}.

Lemma GetChain_valid a : asset_wf a → Chains.Valid (Assets.GetChain a) = None.
Proof.
  intros Ha. unfold Assets.GetChain. destruct (_ || _); [by vm_compute|apply (wf_chain a Ha)].
Qed.

Lemma chain_Equals_refl c : Chains.Equals c c = true.
Proof. apply EqualFold_refl. Qed.

Lemma Has_app l1 l2 c : Chains.Has (l1 ++ l2) c = Chains.Has l1 c || Chains.Has l2 c.
Proof. apply existsb_app. Qed.

Lemma Has_Equals l c c' : Chains.Has l c = true → Chains.Equals c c' = true → Chains.Has l c' = true.
Proof.
  unfold Chains.Has. rewrite !existsb_exists. intros (x & Hx & Hxc) Hcc. exists x. split; [done|].
  unfold Chains.Equals, EqualFold in *. rewrite bool_decide_eq_true in *. congruence.
Qed.

Lemma GetChains_add (m : Vault) c :
  Chains.Valid c = None → Vault_GetChains (set_v_Chains (v_Chains m ++ [Chains.Str c]) m) = (Vault_GetChains m ++ [c])%list.
Proof.
  intros Hc. unfold Vault_GetChains, parsed. cbn [v_Chains set_v_Chains]. rewrite omap_app. f_equal. cbn.
  by rewrite chain_string_id, NewChain_id.
Qed.

Lemma same_asset_eq a c : asset_wf a → asset_wf (coin_asset c) → same_asset a c = bool_decide (coin_asset c = a).
Proof.
  intros Ha Hc. unfold same_asset. apply eq_bool_prop_intro. rewrite !Is_true_true, bool_decide_eq_true.
  by apply Equals_eq.
Qed.
Lemma total_of_fresh a cs : asset_wf a → coins_wf cs → a ∉ coin_asset <$> cs → total_of a cs = 0.
Proof.
  intros Ha. induction 1 as [|c cs [Hc _] _ IH]; [done|]. rewrite fmap_cons, not_elem_of_cons, total_of_cons.
  intros [Hne Hcs]. rewrite same_asset_eq, bool_decide_eq_false_2 by (done || congruence). by rewrite IH.
Qed.

(** What a change of the first coin of an asset does to all coins. *)
Lemma change_coin_spec f eq x cs r :
  asset_wf x → coins_wf cs → NoDup (coin_asset <$> cs) →
  (∀ c, asset_wf (coin_asset c) → eq (coin_asset c) = bool_decide (coin_asset c = x)) →
  (∀ v w, 0 ≤ v → f v = Ok w → 0 ≤ w) →
  change_coin f eq cs = Ok r →
  match r with
  | None => x ∉ coin_asset <$> cs
  | Some cs' =>
      coins_wf cs' ∧ (coin_asset <$> cs') = (coin_asset <$> cs) ∧ f (total_of x cs) = Ok (total_of x cs') ∧
      ∀ a, asset_wf a → a ≠ x → total_of a cs' = total_of a cs
  end.
Proof.
  intros Hx Hcs. revert r. induction Hcs as [|c cs [Hc Hc0] Hcs IH]; intros r Hnd Heq Hf; cbn.
  { intros [= <-]. apply not_elem_of_nil. }
  rewrite fmap_cons in Hnd. apply list.NoDup_cons in Hnd as [Hfresh Hnd]. rewrite Heq by done.
  destruct (bool_decide_reflect (coin_asset c = x)) as [Hcx|Hcx]; intros Hok; ok_inv.
  - match goal with Hr : f (coin_amount c) = Ok _ |- _ => pose proof (Hf _ _ Hc0 Hr) as Hpos end.
    assert (Ht : ∀ a d, asset_wf a → coin_asset d = coin_asset c → total_of a (d :: cs) =
      if bool_decide (a = coin_asset c) then coin_amount d else total_of a cs).
    { intros a d Ha Hd. rewrite total_of_cons, same_asset_eq, Hd by (done || by rewrite Hd).
      destruct (bool_decide_reflect (coin_asset c = a)) as [<-|Hne].
      - rewrite bool_decide_eq_true_2, total_of_fresh by done. lia.
      - by rewrite bool_decide_eq_false_2 by congruence. }
    split_and!; [by constructor|done|..].
    + by rewrite !Ht, !bool_decide_eq_true_2 by done.
    + intros a Ha Hne. by rewrite !Ht, !bool_decide_eq_false_2 by done.
  - match goal with Hr : change_coin _ _ _ = Ok _ |- _ => pose proof (IH _ Hnd Heq Hf Hr) as Hs end.
    destruct x0 as [cs1|]; cbn [option_map].
    + destruct Hs as (Hwf & Hassets & Hfx & Hothers). split_and!; [by constructor|by rewrite !fmap_cons, Hassets|..].
      * by rewrite !total_of_cons, same_asset_eq, bool_decide_eq_false_2, !Z.add_0_l.
      * intros a Ha Hne. by rewrite !total_of_cons, Hothers.
    + apply not_elem_of_cons. split; [congruence|done].
Qed.

Lemma total_of_nonneg a cs : coins_wf cs → 0 ≤ total_of a cs.
Proof.
  induction 1 as [|c cs [_ Hc0] _ IH]; [done|]. rewrite total_of_cons. destruct (same_asset a c); lia.
Qed.
Lemma total_of_one a c :
  asset_wf a → asset_wf (coin_asset c) → total_of a [c] = if bool_decide (a = coin_asset c) then coin_amount c else 0.
Proof.
  intros Ha Hc. rewrite total_of_cons, same_asset_eq by done. change (total_of a []) with 0.
  destruct (bool_decide_reflect (coin_asset c = a)) as [<-|].
  - rewrite bool_decide_eq_true_2 by done. lia.
  - rewrite bool_decide_eq_false_2 by congruence. lia.
Qed.

(** A vault keeps its type when its coins change but not their assets. *)
Lemma vault_typed_coins m cs :
  vault_typed m → coins_wf cs → coin_asset <$> cs = coin_asset <$> v_Coins m → vault_typed (set_v_Coins cs m).
Proof.
  intros [Hwf Hnd Hch] Hcs Hassets. split; cbn; [done|by rewrite Hassets|].
  apply list.Forall_forall. intros d Hd. apply (list_elem_of_fmap_2 coin_asset) in Hd. rewrite Hassets in Hd.
  apply list_elem_of_fmap in Hd as (d' & -> & Hd'). by apply (proj1 (list.Forall_forall _ _) Hch).
Qed.

Lemma addFund_spec coin m m' :
  asset_wf (coin_asset coin) → 0 ≤ coin_amount coin → vault_typed m → addFund coin m = Ok m' →
  vault_typed m' ∧ ∀ a, asset_wf a → total_of a (v_Coins m') = total_of a (v_Coins m) + total_of a [coin].
Proof.
  intros Hc Hc0 Hm Hok. pose proof Hm as [Hwf Hnd Hch]. unfold addFund in Hok. ok_inv.
  match goal with Hr : change_coin _ _ _ = Ok _ |- _ =>
    apply (change_coin_spec _ _ (coin_asset coin)) in Hr as Hs; [|done..| |] end.
  2: { intros c Hcwf. by apply (same_asset_eq (coin_asset coin) c). }
  2: { intros v w Hv Hw. apply uadd_inv in Hw as [-> ?]. lia. }
  destruct x as [cs|]; ok_inv.
  - destruct Hs as (Hwf' & Hassets & Hadd & Hothers). apply uadd_inv in Hadd as [Hadd _].
    split; [by apply vault_typed_coins|]. intros a Ha. rewrite total_of_one by done.
    case_bool_decide; subst; cbn; [lia|]. rewrite Hothers by done. lia.
  - set (ch := Assets.GetChain (coin_asset coin)). split; [split|].
    + destruct (Chains.Has _ ch); cbn; (apply Forall_app; split; [done|by constructor]).
    + assert (NoDup (coin_asset <$> (v_Coins m ++ [coin])%list)).
      { rewrite fmap_app. apply list.NoDup_app. split_and!; [done| |apply NoDup_singleton].
        intros a Ha. cbn. rewrite list_elem_of_singleton. by intros ->. }
      by destruct (Chains.Has _ ch).
    + set (m1 := if Chains.Has _ ch then m else _). change (Vault_GetChains (set_v_Coins _ m1)) with (Vault_GetChains m1).
      assert (Hm1 : v_Coins m1 = v_Coins m ∧ ∀ c, Chains.Has (Vault_GetChains m1) c = true ↔
        Chains.Has (Vault_GetChains m) c = true ∨ Chains.Equals ch c = true).
      { subst m1. destruct (Chains.Has (Vault_GetChains m) ch) eqn:Hhas; (split; [done|]); intros c.
        - split; [by left|]. intros [?|Hce]; [done|]. by apply (Has_Equals _ ch).
        - rewrite GetChains_add by by apply GetChain_valid.
          rewrite Has_app, orb_true_iff. cbn. by rewrite orb_false_r. }
      destruct Hm1 as [Hcoins Hm1]. cbn [v_Coins set_v_Coins]. rewrite Hcoins. apply Forall_app; split.
      * eapply list.Forall_impl; [exact Hch|]. cbn beta. intros d Hd. apply Hm1. by left.
      * constructor; [|done]. apply Hm1. right. apply chain_Equals_refl.
    + intros a Ha. destruct (Chains.Has _ ch); cbn; by rewrite total_of_app.
Qed.

Lemma subFund_spec coin m m' :
  asset_wf (coin_asset coin) → 0 ≤ coin_amount coin → vault_typed m → subFund coin m = Ok m' →
  vault_typed m' ∧ ∀ a, asset_wf a → total_of a (v_Coins m') = Z.max 0 (total_of a (v_Coins m) - total_of a [coin]).
Proof.
  intros Hc Hc0 Hm Hok. pose proof Hm as [Hwf Hnd Hch]. unfold subFund in Hok. ok_inv.
  match goal with Hr : change_coin _ _ _ = Ok _ |- _ =>
    apply (change_coin_spec _ _ (coin_asset coin)) in Hr as Hs; [|done..| |] end.
  2: { intros c Hcwf. rewrite Equals_sym. by apply (same_asset_eq (coin_asset coin) c). }
  2: { intros v w Hv Hw. apply SafeSub_inv in Hw as ->; lia. }
  destruct x as [cs|]; (split; [|intros a Ha; rewrite total_of_one by done; pose proof (total_of_nonneg a _ Hwf)]).
  - destruct Hs as (Hwf' & Hassets & _ & _). by apply vault_typed_coins.
  - destruct Hs as (_ & _ & Hsub & Hothers). apply SafeSub_inv in Hsub; [|by apply total_of_nonneg|done].
    case_bool_decide; subst; cbn; [done|]. rewrite Hothers by done. lia.
  - done.
  - case_bool_decide as Heq; cbn; [|lia]. subst a. rewrite total_of_fresh by done. lia.
Qed.

(** C32: Adding funds adds exactly their amounts, asset by asset, and subtracting
    takes what there is of them; both keep the coins of the vault parsed, one of
    an asset, without negative amounts and on chains that the vault lists. *)
Theorem vault_funds_typed coins m :
  coins_wf coins → vault_typed m →
  (∀ m', AddFunds coins m = Ok m' →
     vault_typed m' ∧ ∀ a, asset_wf a → total_of a (v_Coins m') = total_of a (v_Coins m) + total_of a coins) ∧
  (∀ m', SubFunds coins m = Ok m' →
     vault_typed m' ∧
     ∀ a, asset_wf a → total_of a (v_Coins m') = Z.max 0 (total_of a (v_Coins m) - total_of a coins)).
Proof.
  intros Hcs. revert m. induction Hcs as [|c cs [Hc Hc0] Hcs IH]; intros m Hm.
  { split; intros m' [= <-]; (split; [done|]); intros a Ha; change (total_of a []) with 0; [lia|].
    pose proof (total_of_nonneg a _ (vt_coins _ Hm)). lia. }
  split; intros m' Hok; cbn in Hok; ok_inv.
  - match goal with Hr : addFund _ _ = Ok _ |- _ => apply addFund_spec in Hr as [Hx Hxt]; [|done..] end.
    apply (IH _ Hx) in Hok as [Hm' Ht]. split; [done|]. intros a Ha. rewrite Ht, Hxt, !total_of_cons by done.
    change (total_of a []) with 0. lia.
  - match goal with Hr : subFund _ _ = Ok _ |- _ => apply subFund_spec in Hr as [Hx Hxt]; [|done..] end.
    apply (IH _ Hx) in Hok as [Hm' Ht]. split; [done|]. intros a Ha. rewrite Ht, Hxt, !total_of_cons by done.
    change (total_of a []) with 0. pose proof (total_of_nonneg a _ Hcs). lia.
Qed.

End VaultFacts.

(** ** The index of Asgard vaults *)

Section VaultIndex.
  Context `{CosmosMath} `{Bank} `{Env} `{!PubKeys}.

(** A key as the chain writes it: bech32, in lower case. *)
Definition canonical (pk : string) : Prop := NewPubKey pk = Ok pk ∧ ToLower pk = pk ∧ pk ≠ "".

Lemma canonical_inj pk pk' : canonical pk → canonical pk' → GetKey pk = GetKey pk' → pk = pk'.
Proof.
  intros (_ & Hpk & _) (_ & Hpk' & _) Heq%(f_equal ToLower). unfold GetKey in Heq.
  by rewrite !ToLower_ToUpper, Hpk, Hpk' in Heq.
Qed.

(** The index names stored Asgard vaults, each once, and all of them that are not
    inactive. *)
Record vaults_indexed (s : VaultState) : Prop := {
  vi_distinct : NoDup (asgardIndex s);
  vi_entries pk : pk ∈ asgardIndex s →
    canonical pk ∧ ∃ v, vaults s !! GetKey pk = Some v ∧ v_PubKey v = pk ∧ IsAsgard v = true;
  vi_stored k v : vaults s !! k = Some v →
    canonical (v_PubKey v) ∧ k = GetKey (v_PubKey v) ∧
    (IsAsgard v = true → v_Status v ≠ InactiveVault → v_PubKey v ∈ asgardIndex s);
}.

(** What the handlers and the network manager do to the vaults of the store: save
    one, of the type that it had, delete one, and clean up the index. *)
Inductive vault_step (ctx : Ctx) : VaultState → VaultState → Prop :=
  | step_set v s r s' :
      canonical (v_PubKey v) →
      (∀ v', vaults s !! GetKey (v_PubKey v) = Some v' → v_Type v' = v_Type v) →
      SetVault v s = (r, s') → vault_step ctx s s'
  | step_delete pk s r s' : canonical pk → DeleteVault ctx pk s = (r, s') → vault_step ctx s s'
  | step_cleanup s r s' : cleanupAsgardIndex ctx s = (r, s') → vault_step ctx s s'.

Lemma getAsgardIndex_run s : vaults_indexed s → getAsgardIndex s = (Ok (asgardIndex s), s).
Proof.
  intros Hi. unfold getAsgardIndex, gets, lift, mbind, M_bind. rewrite map_outcome_ids; [done|].
  apply list.Forall_forall. intros pk Hpk. by apply (vi_entries _ Hi) in Hpk as [(? & _) _].
Qed.

Lemma IsAsgard_type v v' : v_Type v = v_Type v' → IsAsgard v = IsAsgard v'.
Proof. unfold IsAsgard. by intros ->. Qed.

Lemma SetVault_indexed v s r s' :
  canonical (v_PubKey v) → (∀ v', vaults s !! GetKey (v_PubKey v) = Some v' → v_Type v' = v_Type v) →
  SetVault v s = (r, s') → vaults_indexed s → vaults_indexed s'.
Proof.
  intros Hv Htype Hrun Hi. pose proof Hi as [Hnd Hent Hst].
  set (index := if IsAsgard v then if bool_decide (v_PubKey v ∈ asgardIndex s) then asgardIndex s
                                   else (asgardIndex s ++ [v_PubKey v])%list else asgardIndex s).
  assert (s' = put_vaults (<[GetKey (v_PubKey v) := v]> (vaults s)) (put_asgardIndex index s)) as ->.
  { unfold SetVault, addAsgardIndex in Hrun. subst index. destruct (IsAsgard v).
    - unfold mbind, M_bind in Hrun. rewrite getAsgardIndex_run in Hrun by done.
      destruct (bool_decide _); injection Hrun as _ <-; by destruct s.
    - injection Hrun as _ <-. by destruct s. }
  assert (Hindex : ∀ pk, pk ∈ index ↔ pk ∈ asgardIndex s ∨ (pk = v_PubKey v ∧ IsAsgard v = true)).
  { intros pk. subst index. destruct (IsAsgard v); [case_bool_decide|]; rewrite ?elem_of_app, ?list_elem_of_singleton;
      naive_solver. }
  split.
  - cbn. subst index. destruct (IsAsgard v); [case_bool_decide|]; [done| |done].
    apply list.NoDup_app. split_and!; [done| |apply NoDup_singleton]. intros pk Hpk. rewrite list_elem_of_singleton.
    by intros ->.
  - cbn. intros pk [Hpk|[-> Ha]]%Hindex; [|by split; [|exists v; rewrite lookup_insert_eq]].
    destruct (Hent _ Hpk) as (Hc & w & Hw & Hwpk & Hwa). split; [done|].
    destruct (decide (GetKey pk = GetKey (v_PubKey v))) as [Hk|Hk].
    + exists v. rewrite Hk, lookup_insert_eq. split_and!; [done|by apply canonical_inj|].
      rewrite <- Hwa. apply IsAsgard_type. symmetry. apply Htype. by rewrite <- Hk.
    + exists w. by rewrite lookup_insert_ne.
  - cbn. intros k w. rewrite lookup_insert_Some. intros [[<- <-]|[Hk Hw]].
    + split_and!; [done..|]. intros Ha _. apply Hindex. by right.
    + destruct (Hst _ _ Hw) as (? & ? & Hin). split_and!; [done..|]. intros Ha Hs. apply Hindex. left. by apply Hin.
Qed.

Lemma DeleteVault_indexed ctx pk s r s' :
  canonical pk → DeleteVault ctx pk s = (r, s') → vaults_indexed s → vaults_indexed s'.
Proof.
  intros Hpk Hrun Hi. pose proof Hi as [Hnd Hent Hst].
  destruct (vaults s !! GetKey pk) as [v|] eqn:Hv.
  2: { unfold DeleteVault, gets, mbind, M_bind in Hrun. rewrite Hv in Hrun. by injection Hrun as _ <-. }
  destruct (Hst _ _ Hv) as (Hvc & Hkey & Hin). pose proof (canonical_inj _ _ Hpk Hvc Hkey) as Heq. subst pk.
  assert (Hread : v_PubKey (as_read ctx (v_PubKey v) v) = v_PubKey v) by (cbn; by destruct (Vault_IsEmpty v)).
  assert (s' = s ∨ s' = put_vaults (delete (GetKey (v_PubKey v)) (vaults s)) (if IsAsgard v then
    put_asgardIndex (filter (λ p, p ≠ v_PubKey v) (asgardIndex s)) s else s)) as [->| ->]; [|done|].
  { unfold DeleteVault, GetVault, gets, mbind, M_bind in Hrun. rewrite !Hv in Hrun. cbn [mret M_ret] in Hrun.
    unfold fail_when, lift in Hrun. destruct (HasFunds _); cbn -[as_read] in Hrun; [left; by injection Hrun as _ <-|right].
    change (IsAsgard (as_read ctx (v_PubKey v) v)) with (IsAsgard v) in Hrun. destruct (IsAsgard v).
    - unfold attempt, RemoveFromAsgardIndex, mbind, M_bind in Hrun. rewrite getAsgardIndex_run in Hrun by done.
      cbn -[as_read] in Hrun. rewrite Hread in Hrun. injection Hrun as _ <-. by destruct s.
    - rewrite Hread in Hrun. injection Hrun as _ <-. by destruct s. }
  set (index := if IsAsgard v then filter (λ p, p ≠ v_PubKey v) (asgardIndex s) else asgardIndex s).
  assert (Hsi : asgardIndex (if IsAsgard v then put_asgardIndex (filter (λ p, p ≠ v_PubKey v) (asgardIndex s)) s
    else s) = index ∧ vaults (if IsAsgard v then put_asgardIndex (filter (λ p, p ≠ v_PubKey v) (asgardIndex s)) s
    else s) = vaults s) by (subst index; by destruct (IsAsgard v)).
  destruct Hsi as [Hsi Hsv].
  assert (Hindex : ∀ p, p ∈ index ↔ p ∈ asgardIndex s ∧ p ≠ v_PubKey v).
  { intros p. subst index. destruct (IsAsgard v) eqn:Ha; [rewrite list_elem_of_filter; naive_solver|].
    split; [|naive_solver]. intros Hp. split; [done|]. intros ->. destruct (Hent _ Hp) as (_ & w & Hw & _ & Hwa).
    rewrite Hv in Hw. congruence. }
  split.
  - cbn. rewrite Hsi. subst index. destruct (IsAsgard v); [by apply list.NoDup_filter|done].
  - cbn. rewrite Hsi. intros p [Hp Hne]%Hindex. destruct (Hent _ Hp) as (Hc & w & Hw & Hwp & Hwa). split; [done|].
    exists w. split; [|done]. rewrite lookup_delete_ne; [done|]. intros Hk. apply Hne. symmetry.
    by apply canonical_inj.
  - cbn. rewrite Hsi. intros k w [Hk Hw]%lookup_delete_Some. destruct (Hst _ _ Hw) as (? & -> & Hwi).
    split_and!; [done..|]. intros Ha Hs. apply Hindex. split; [by apply Hwi|]. intros Heq. apply Hk. by rewrite Heq.
Qed.

(** An inactive vault may leave the index. *)
Lemma leave_index_indexed ctx s v :
  vaults_indexed s → vaults s !! GetKey (v_PubKey v) = Some v → IsAsgard v = true →
  ∃ index, leave_index (as_read ctx (v_PubKey v) v) s = (Ok (), put_asgardIndex index s) ∧
    vaults_indexed (put_asgardIndex index s) ∧
    ∀ pk, pk ∈ index ↔ pk ∈ asgardIndex s ∧ (pk = v_PubKey v → v_Status v ≠ InactiveVault).
Proof.
  intros Hi Hv Ha. pose proof Hi as [Hnd Hent Hst]. destruct (Hst _ _ Hv) as ((_ & _ & Hne) & _ & _).
  assert (Hread : v_PubKey (as_read ctx (v_PubKey v) v) = v_PubKey v) by (cbn; by destruct (Vault_IsEmpty v)).
  unfold leave_index, Vault_IsEmpty. rewrite Hread, bool_decide_eq_false_2 by done.
  change (IsAsgard (as_read ctx (v_PubKey v) v)) with (IsAsgard v). rewrite Ha. cbn [negb].
  change (v_Status (as_read ctx (v_PubKey v) v)) with (v_Status v). case_bool_decide as Hs.
  2: { exists (asgardIndex s). split; [by destruct s|]. split; [by destruct s|]. naive_solver. }
  exists (filter (λ p, p ≠ v_PubKey v) (asgardIndex s)).
  unfold attempt, RemoveFromAsgardIndex, mbind, M_bind. rewrite getAsgardIndex_run by done. split; [done|].
  assert (Hin : ∀ pk, pk ∈ filter (λ p, p ≠ v_PubKey v) (asgardIndex s) ↔ pk ∈ asgardIndex s ∧ (pk = v_PubKey v → v_Status v ≠ InactiveVault)).
  { intros pk. rewrite list_elem_of_filter. naive_solver. }
  split; [|exact Hin]. split; cbn.
  - by apply list.NoDup_filter.
  - intros pk Hpk. apply Hent. by apply Hin in Hpk as [? _].
  - intros k w Hw. destruct (Hst _ _ Hw) as (? & Hk & Hwi). split_and!; [done..|]. intros Hwa Hws. apply Hin.
    split; [by apply Hwi|]. intros Heq. subst k. rewrite Heq, Hv in Hw. by injection Hw as <-.
Qed.
Lemma leave_all_indexed ctx vs s :
  vaults_indexed s →
  Forall (λ w, ∃ v, vaults s !! GetKey (v_PubKey v) = Some v ∧ IsAsgard v = true ∧ w = as_read ctx (v_PubKey v) v) vs →
  ∃ index, for_each leave_index vs s = (Ok (), put_asgardIndex index s) ∧ vaults_indexed (put_asgardIndex index s) ∧
    ∀ pk, pk ∈ index ↔ pk ∈ asgardIndex s ∧ ∀ v, as_read ctx (v_PubKey v) v ∈ vs → vaults s !! GetKey (v_PubKey v) = Some v →
      pk = v_PubKey v → v_Status v ≠ InactiveVault.
Proof.
  revert s. induction vs as [|w vs IH]; intros s Hi Hvs.
  { exists (asgardIndex s). split; [by destruct s|]. split; [by destruct s|]. intros pk. split; [|by intros [? _]].
    intros Hpk. split; [done|]. by intros v Hv%elem_of_nil. }
  apply list.Forall_cons in Hvs as [(v & Hv & Ha & ->) Hvs].
  destruct (leave_index_indexed ctx s v Hi Hv Ha) as (index & Hrun & Hi1 & Hin).
  destruct (IH (put_asgardIndex index s) Hi1 Hvs) as (index' & Hrun' & Hi' & Hin'). exists index'. split.
  - cbn [for_each]. by rewrite (M_bind_run _ _ _ _ _ Hrun).
  - split; [exact Hi'|]. intros pk. rewrite Hin'. cbn. rewrite Hin. split.
    + intros [[Hpk Hh] Hall]. split; [done|]. intros v' Hv' Hst' ->. apply elem_of_cons in Hv' as [Heq|Hv']; [|by eapply Hall].
      intros Hs. assert (v_PubKey v' = v_PubKey v).
      { destruct (vi_stored _ Hi _ _ Hv) as ((_ & _ & Hne) & _). destruct (vi_stored _ Hi _ _ Hst') as ((_ & _ & Hne') & _).
        apply (f_equal v_PubKey) in Heq. cbn in Heq. unfold Vault_IsEmpty in Heq. by rewrite !bool_decide_eq_false_2 in Heq by done. }
      apply Hh; [done|]. rewrite <- Hs. by apply (f_equal v_Status) in Heq.
    + intros [Hpk Hall]. split; [split; [done|]|].
      * intros ->. by apply (Hall v); [apply list_elem_of_here|..].
      * intros v' Hv' Hst' ->. by apply (Hall v'); [apply list_elem_of_further|..].
Qed.

Lemma get_asgards_run ctx s pks :
  (∀ pk, pk ∈ pks → ∃ v, vaults s !! GetKey pk = Some v ∧ v_PubKey v = pk ∧ IsAsgard v = true) →
  ∃ vs, get_asgards ctx pks s = (Ok vs, s) ∧
    Forall2 (λ pk w, ∃ v, vaults s !! GetKey pk = Some v ∧ IsAsgard v = true ∧ w = as_read ctx pk v) pks vs.
Proof.
  induction pks as [|pk pks IH]; intros Hpks; [by exists []; split; [|constructor]|].
  destruct IH as (vs & Hvs & Hall); [intros; by apply Hpks, list_elem_of_further|].
  destruct (Hpks pk (list_elem_of_here _ _)) as (v & Hv & _ & Ha).
  exists (as_read ctx pk v :: vs). split; [|by constructor; [exists v|]].
  cbn. unfold GetVault, gets, mbind, M_bind. rewrite Hv. cbn [mret M_ret]. unfold mbind, M_bind in Hvs. rewrite Hvs.
  change (IsAsgard (as_read ctx pk v)) with (IsAsgard v). by rewrite Ha.
Qed.

(** The vaults read are the stored ones that the index names. *)
Lemma indexed_read ctx s :
  vaults_indexed s → ∃ vs, GetAsgardVaults ctx s = (Ok vs, s) ∧ NoDup (v_PubKey <$> vs) ∧
    ∀ w, w ∈ vs ↔ ∃ v, vaults s !! GetKey (v_PubKey v) = Some v ∧ IsAsgard v = true ∧ v_PubKey v ∈ asgardIndex s ∧
      w = as_read ctx (v_PubKey v) v.
Proof.
  intros Hi. pose proof Hi as [Hnd Hent Hst].
  destruct (get_asgards_run ctx s (asgardIndex s)) as (vs & Hvs & Hall); [intros pk Hpk; by apply Hent|].
  exists vs. split_and!.
  - unfold GetAsgardVaults, mbind, M_bind. by rewrite getAsgardIndex_run.
  - assert (v_PubKey <$> vs = asgardIndex s) as ->; [|done].
    clear -Hall Hent. induction Hall as [|pk w pks vs (v & Hv & Ha & ->) Hall IH]; [done|].
    rewrite fmap_cons. f_equal; [|apply IH; intros; by apply Hent, list_elem_of_further].
    destruct (Hent pk (list_elem_of_here _ _)) as (_ & v' & Hv' & Hpk & _). cbn. rewrite Hv in Hv'.
    injection Hv' as <-. by destruct (Vault_IsEmpty v).
  - intros w. split.
    + intros Hw. destruct (proj1 (list_elem_of_lookup _ _) Hw) as [i Hwi].
      destruct (Forall2_lookup_r _ _ _ _ _ Hall Hwi) as (pk & Hpk & v & Hv & Ha & ->). apply list_elem_of_lookup_2 in Hpk.
      destruct (Hst _ _ Hv) as (Hc & Hk & _). destruct (Hent _ Hpk) as [Hcp _].
      pose proof (canonical_inj _ _ Hcp Hc Hk) as ->. by exists v.
    + intros (v & Hv & Ha & Hin & ->). destruct (proj1 (list_elem_of_lookup _ _) Hin) as [i Hix].
      destruct (Forall2_lookup_l _ _ _ _ _ Hall Hix) as (w & Hw & v' & Hv' & _ & ->).
      rewrite Hv in Hv'. injection Hv' as <-. by eapply list_elem_of_lookup_2.
Qed.
(** The clean-up takes just the inactive vaults out of what is read. *)
Lemma cleanup_indexed ctx s :
  vaults_indexed s → ∃ index, cleanupAsgardIndex ctx s = (Ok (), put_asgardIndex index s) ∧
    vaults_indexed (put_asgardIndex index s) ∧
    ∀ v, vaults s !! GetKey (v_PubKey v) = Some v → IsAsgard v = true → v_PubKey v ∈ index ↔ v_Status v ≠ InactiveVault.
Proof.
  intros Hi. destruct (indexed_read ctx s Hi) as (vs & Hread & _ & Hvs).
  destruct (leave_all_indexed ctx vs s Hi) as (index & Hrun & Hi' & Hin).
  { apply list.Forall_forall. intros w (v & ? & ? & _ & ->)%Hvs. by exists v. }
  exists index. split; [unfold cleanupAsgardIndex; by rewrite (M_bind_run _ _ _ _ _ Hread)|]. split; [exact Hi'|].
  intros v Hv Ha. split.
  - intros [Hpk Hall]%Hin. apply (Hall v); [|done..]. apply Hvs. by exists v.
  - intros Hs. apply (vi_stored _ Hi' _ _ Hv); done.
Qed.

(** C31: Whatever vaults are saved, deleted and cleaned up, from a store whose index is
    right (as the empty one's is), reading the Asgard vaults succeeds and gives
    stored Asgard vaults, each once: all that are not inactive, and just those
    after the clean-up of a churn. *)
Theorem asgard_index_exact ctx s s' :
  vaults_indexed s → rtc (vault_step ctx) s s' →
  let stored w := ∃ k v, vaults s' !! k = Some v ∧ IsAsgard v = true ∧ w = as_read ctx (v_PubKey v) v in
  ∃ vs, GetAsgardVaults ctx s' = (Ok vs, s') ∧ NoDup (v_PubKey <$> vs) ∧
    (∀ w, w ∈ vs → stored w) ∧ (∀ w, stored w → v_Status w ≠ InactiveVault → w ∈ vs) ∧
    ∃ s2 vs2, cleanupAsgardIndex ctx s' = (Ok (), s2) ∧ vaults s2 = vaults s' ∧
      GetAsgardVaults ctx s2 = (Ok vs2, s2) ∧ NoDup (v_PubKey <$> vs2) ∧
      ∀ w, w ∈ vs2 ↔ stored w ∧ v_Status w ≠ InactiveVault.
Proof.
  intros Hi Hsteps. cbv zeta. assert (Hi' : vaults_indexed s').
  { clear -Hi Hsteps. induction Hsteps as [|s1 s2 s3 Hstep _ IH]; [done|]. apply IH.
    destruct Hstep as [| |s1 r s2 Hrun]; eauto using SetVault_indexed, DeleteVault_indexed.
    destruct (cleanup_indexed ctx s1 Hi) as (index & Hrun' & Hi1 & _). rewrite Hrun' in Hrun. by injection Hrun as _ <-. }
  clear Hi Hsteps. destruct (indexed_read ctx s' Hi') as (vs & Hread & Hnd & Hvs). exists vs. split; [done|]. split; [done|].
  assert (Hkey : ∀ k v, vaults s' !! k = Some v → vaults s' !! GetKey (v_PubKey v) = Some v).
  { intros k v Hv. by destruct (vi_stored _ Hi' _ _ Hv) as (_ & <- & _). }
  split; [intros w (v & Hv & Ha & _ & ->)%Hvs; by do 2 eexists|]. split.
  { intros w (k & v & Hv & Ha & ->) Hs. apply Hvs. exists v. split_and!; [by eapply Hkey|done| |done].
    by apply (vi_stored _ Hi' _ _ Hv). }
  destruct (cleanup_indexed ctx s' Hi') as (index & Hrun & Hi2 & Hin).
  destruct (indexed_read ctx _ Hi2) as (vs2 & Hread2 & Hnd2 & Hvs2).
  exists (put_asgardIndex index s'), vs2. split_and!; [done..|]. intros w. rewrite Hvs2. cbn. split.
  - intros (v & Hv & Ha & Hpk & ->). split; [by do 2 eexists|]. by apply (Hin v Hv Ha).
  - intros [(k & v & Hv & Ha & ->) Hs]. exists v. split_and!; [by eapply Hkey|done| |done]. apply Hin; [by eapply Hkey|done..].
Qed.
End VaultIndex.

(** ** Witnesses *)

#[local] Existing Instance plain_keys.

Definition btc_vault : Vault :=
  set_v_Coins [NewCoin BTCAsset 500] (NewVault 5 ActiveVault AsgardVault "swtcpub1a" ["BTC"] []).
Definition btc_and_eth : list Coin := [NewCoin BTCAsset 700; NewCoin ETHAsset 20].

Lemma wf_of_name a : Assets.NewAsset (Assets.Str a) = Ok a → asset_wf a.
Proof. apply NewAsset_wf. Defined.
Lemma btc_and_eth_wf : coins_wf btc_and_eth.
Proof. repeat constructor; solve [apply wf_of_name; vm_compute; reflexivity|cbn; lia]. Defined.
Lemma btc_vault_typed : vault_typed btc_vault.
Proof.
  split.
  - repeat constructor; solve [apply wf_of_name; vm_compute; reflexivity|cbn; lia].
  - apply NoDup_singleton.
  - repeat constructor.
Defined.

Lemma vault_funds_typed_witness :
  ∃ m1 m2, AddFunds btc_and_eth btc_vault = Ok m1 ∧ SubFunds btc_and_eth btc_vault = Ok m2 ∧
    v_Chains m1 = ["BTC"; "ETH"] ∧ vault_typed m1 ∧ total_of BTCAsset (v_Coins m1) = 1200 ∧
    total_of BTCAsset (v_Coins m2) = 0.
Proof.
  destruct (vault_funds_typed btc_and_eth btc_vault btc_and_eth_wf btc_vault_typed) as [Hadd Hsub].
  eexists _, _. split; [vm_compute; reflexivity|]. split; [vm_compute; reflexivity|]. split; [reflexivity|].
  split; [apply Hadd; vm_compute; reflexivity|]. assert (Hb : asset_wf BTCAsset) by apply btc_wf.
  split; [erewrite (proj2 (Hadd _ ltac:(vm_compute; reflexivity)) _ Hb)
         |erewrite (proj2 (Hsub _ ltac:(vm_compute; reflexivity)) _ Hb)]; vm_compute; reflexivity.
Defined.

Definition no_vaults : VaultState :=
  mkVaultState (mkQueueState (mkObs empty_state ∅ ∅ ∅ ∅ ∅ ∅ ∅ ∅) ∅ ∅ ∅) ∅ [] ∅ ∅ ∅ 0 ∅ ∅ (mkGasMgr [] [] ∅) 0 ∅.
Definition vault_block : Ctx := mkCtx 9 3 "".
Definition empty_vault (pk : string) : Vault := NewVault 5 RetiringVault AsgardVault pk ["BTC"] [].
(** Three vaults are saved; the first, which holds nothing, is deleted, and the third
    is inactive. *)
Definition left_vault : Vault := Vault_UpdateStatus InactiveVault 8 (empty_vault "swtcpub1c").
Definition three_saved : VaultState :=
  snd (SetVault left_vault (snd (SetVault btc_vault (snd (SetVault (empty_vault "swtcpub1b") no_vaults))))).
Definition two_left : VaultState := snd (DeleteVault vault_block "swtcpub1b" three_saved).

Lemma no_vaults_indexed : vaults_indexed no_vaults.
Proof. split; [constructor|intros pk Hpk; by apply elem_of_nil in Hpk|done]. Defined.

Lemma asgard_index_exact_witness :
  ∃ s2 vs vs2, GetAsgardVaults vault_block two_left = (Ok vs, two_left) ∧ v_PubKey <$> vs = ["swtcpub1a"; "swtcpub1c"] ∧
    cleanupAsgardIndex vault_block two_left = (Ok (), s2) ∧ GetAsgardVaults vault_block s2 = (Ok vs2, s2) ∧
    NoDup (v_PubKey <$> vs2) ∧ left_vault ∉ vs2.
Proof.
  assert (Hc : ∀ pk, pubkey_decodes pk = true → NewPubKey pk = Ok pk → ToLower pk = pk → pk ≠ "" → canonical pk) by (unfold canonical; tauto).
  pose proof (Hc "swtcpub1a" eq_refl eq_refl eq_refl ltac:(discriminate)) as Ha. pose proof (Hc "swtcpub1b" eq_refl eq_refl eq_refl ltac:(done)) as Hb.
  pose proof (Hc "swtcpub1c" eq_refl eq_refl eq_refl ltac:(discriminate)) as Hl.
  destruct (asgard_index_exact vault_block no_vaults two_left no_vaults_indexed)
    as (vs & Hvs & _ & _ & _ & s2 & vs2 & Hclean & _ & Hvs2 & Hnd2 & Hall).
  - eapply rtc_l; [eapply (step_set _ (empty_vault "swtcpub1b")); [exact Hb| |apply surjective_pairing]|].
    { intros v' Hv. cbn in Hv. by rewrite lookup_empty in Hv. }
    eapply rtc_l; [eapply (step_set _ btc_vault); [exact Ha| |apply surjective_pairing]|].
    { intros v' Hv. vm_compute in Hv. discriminate Hv. }
    eapply rtc_l; [eapply (step_set _ left_vault); [exact Hl| |apply surjective_pairing]|].
    { intros v' Hv. vm_compute in Hv. discriminate Hv. }
    eapply rtc_l; [|apply rtc_refl].
    eapply (step_delete _ "swtcpub1b"); [exact Hb|]. apply surjective_pairing.
  - exists s2, vs, vs2. split; [exact Hvs|]. split.
    + assert (fst (GetAsgardVaults vault_block two_left) = Ok [btc_vault; left_vault]) as H by (vm_compute; reflexivity).
      rewrite Hvs in H. injection H as ->. reflexivity.
    + split; [exact Hclean|]. split; [exact Hvs2|]. split; [exact Hnd2|]. intros [_ Hs]%Hall. by apply Hs.
Defined.
