(* ===== verification/Gas.v ===== *)
(** * The gas manager

    src/x/switchly/manager_gas_current.go, with keeper_outbound_fees.go: what an
    outbound costs its receiver, what a transaction may spend on gas, and the
    reimbursement of the gas pools from the reserve at the end of a block. *)

From S2P Require Import Prelude GoStrings CosmosMath Amounts Assets Coins Pools Constants State Halts Positions Fees Txs Nodes Quorum ObservedTx Attest SwapHandler Vaults.
Open Scope Z_scope.

Section Gas.
  Context `{CosmosMath} `{Bank} `{Env} `{!PubKeys}.
Abbreviation V := (M VaultState).

(** The part of the store that the accounts and pools use. *)
Definition at_core {A} (m : K A) : V A := observed (in_core m).

Definition put_gasEvent (v : list GasPool) : VaultState → VaultState :=
  λ s, put_gasMgr (mkGasMgr v (outAssetGas (gasMgr s)) (gasCount (gasMgr s))) s.
Definition put_outAssetGas (v : list (Asset * list Coin)) : VaultState → VaultState :=
  λ s, put_gasMgr (mkGasMgr (gasEvent (gasMgr s)) v (gasCount (gasMgr s))) s.
Definition put_gasCount (v : gmap Asset Z) : VaultState → VaultState :=
  λ s, put_gasMgr (mkGasMgr (gasEvent (gasMgr s)) (outAssetGas (gasMgr s)) v) s.

Definition reset : V () := modify (put_gasMgr (mkGasMgr [] [] ∅)).
Definition Gas_BeginBlock : V () := reset.

(** ** Gas of the block *)

Fixpoint add_out_gas (outAsset : Asset) (gas : list Coin) (l : list (Asset * list Coin))
    : outcome (list (Asset * list Coin)) :=
  match l with
  | [] => Ok [(outAsset, gas)]
  | (a, g) :: r =>
      if negb (Assets.Equals a outAsset) then r' ← add_out_gas outAsset gas r; Ok ((a, g) :: r')
      else g' ← Coins_Add g gas; Ok ((a, g') :: r)
  end.
Definition count_gas (gas : list Coin) (m : gmap Asset Z) : gmap Asset Z :=
  foldr (λ a m, <[a := to_i64 (default 0 (m !! a) + 1)]> m) m (remove_dups (coin_asset <$> gas)).
Definition AddGasAsset (outAsset : Asset) (gas : list Coin) (increaseTxCount : bool) : V () :=
  l ← gets (outAssetGas ∘ gasMgr);
  l ← lift (add_out_gas outAsset gas l);
  _ ← modify (put_outAssetGas l);
  if negb increaseTxCount then mret ()
  else modify (λ s, put_gasCount (count_gas gas (gasCount (gasMgr s))) s).
Definition GetGas : V (list Coin) :=
  l ← gets (outAssetGas ∘ gasMgr);
  lift (fold_left (λ gas '(_, g), gas ← gas; Coins_Add gas g) l (Ok [])).

(** ** Fees *)

Definition GetOutboundFeeWithheldSwitch (a : Asset) : V Z :=
  gets (λ s, default 0 (feeWithheld s !! GetKey (Assets.Str a))).
Definition AddToOutboundFeeWithheldSwitch (a : Asset) (withheld : Z) : V () :=
  old ← GetOutboundFeeWithheldSwitch a;
  t ← lift (uadd old withheld);
  v ← lift (as_uint64 t);
  modify (λ s, put_feeWithheld (<[GetKey (Assets.Str a) := v]> (feeWithheld s)) s).
Definition GetOutboundFeeSpentSwitch (a : Asset) : V Z :=
  gets (λ s, default 0 (feeSpent s !! GetKey (Assets.Str a))).
Definition AddToOutboundFeeSpentSwitch (a : Asset) (spent : Z) : V () :=
  old ← GetOutboundFeeSpentSwitch a;
  t ← lift (uadd old spent);
  v ← lift (as_uint64 t);
  modify (λ s, put_feeSpent (<[GetKey (Assets.Str a) := v]> (feeSpent s)) s).

Definition GetNetworkFee (c : Chain) : V NetworkFee :=
  observed (gets (λ s, default (mkNetworkFee c 0 0) (networkFees s !! GetKey (Chains.Str c)))).
Definition GasMgr_GetNetworkFee (ctx : Ctx) (c : Chain) : V NetworkFee :=
  transactionFee ← at_core (GetOutboundTxFee ctx);
  if Chains.Equals c SWITCHLYChain then
    fee ← lift (as_uint64 transactionFee); mret (mkNetworkFee SWITCHLYChain 1 fee)
  else GetNetworkFee c.

Definition getSWITCHInAssetValue (transactionFee : Z) (a : Asset) : V Z :=
  let a := if Synth a || Trade a || Secured a then Assets.GetLayer1Asset a else a in
  pool ← at_core (GetPool a);
  if (BalanceAsset pool =? 0) || (BalanceSwitch pool =? 0) then mret transactionFee
  else lift (SWITCHValueInAsset pool transactionFee).

(** From the largest multiplier down to the smallest as the surplus of fees
    withheld over gas spent grows to its target. *)
Definition CalcOutboundFeeMultiplier (targetSurplus gasSpent gasWithheld maxMultiplier minMultiplier : Z) : outcome Z :=
  if targetSurplus =? 0 then Ok maxMultiplier
  else if maxMultiplier <? minMultiplier then Ok 30000
  else
    surplus ← SafeSub gasWithheld gasSpent;
    range ← SafeSub maxMultiplier minMultiplier;
    SafeSub maxMultiplier (GetSafeShare surplus targetSurplus range).

(** The least fee, in the gas asset, that the mimir asks for in dollars. *)
Definition min_fee (ctx : Ctx) (gasPool : Pool) : V Z :=
  m ← at_core (GetMimir "MinimumL1OutboundFeeUSD");
  let minOutboundUSD := if m <? 0 then GetInt64Value int64Overrides "MinimumL1OutboundFeeUSD" else m in
  price ← at_core (DollarsPerSWITCH ctx);
  if price =? 0 then mret 0
  else lift (SWITCHValueInAsset gasPool (GetUncappedShare (to_u64 minOutboundUSD) price One)).

Definition chain_fee (ctx : Ctx) (a : Asset) (chainOutboundFee : NetworkFee) : V (Pool * Z) :=
  gasPool ← at_core (GetPool (GetGasAsset (Assets.GetChain a)));
  minAsset ← min_fee ctx gasPool;
  withheld ← GetOutboundFeeWithheldSwitch a;
  spent ← GetOutboundFeeSpentSwitch a;
  target ← at_core (GetConfigInt64 "TargetOutboundFeeSurplusSWITCH");
  maxBps ← at_core (GetConfigInt64 "MaxOutboundFeeMultiplierBasisPoints");
  minBps ← at_core (GetConfigInt64 "MinOutboundFeeMultiplierBasisPoints");
  let chainBaseFee := to_u64 (TransactionSize chainOutboundFee * TransactionFeeRate chainOutboundFee) in
  bps ← lift (CalcOutboundFeeMultiplier (to_u64 target) spent withheld (to_u64 maxBps) (to_u64 minBps));
  fee ← lift (RoundToDecimal (GetUncappedShare bps MaxBasisPts chainBaseFee) (Decimals gasPool));
  mret (gasPool, if fee <? minAsset then minAsset else fee).

Definition no_depth (p : Pool) : bool := (BalanceAsset p =? 0) || (BalanceSwitch p =? 0).
Definition GetAssetOutboundFee (ctx : Ctx) (a : Asset) (inSWITCH : bool) : V Z :=
  switchlyOutboundFee ← at_core (GetOutboundTxFee ctx);
  if Assets.IsSwitch a then mret switchlyOutboundFee
  else if Assets.IsNative a then
    if inSWITCH then mret switchlyOutboundFee else getSWITCHInAssetValue switchlyOutboundFee a
  else
    chainOutboundFee ← GetNetworkFee (Assets.GetChain a);
    match NetworkFee_Valid chainOutboundFee with
    | Some _ => mret 0
    | None =>
        '(gasPool, fee) ← chain_fee ctx a chainOutboundFee;
        if Assets.Equals a (GetGasAsset (Assets.GetChain a)) && negb inSWITCH then mret fee
        else if no_depth gasPool then mret 0
        else
          let fee := AssetValueInSWITCH gasPool fee in
          if inSWITCH then mret fee
          else
            assetPool ← at_core (GetPool a);
            if no_depth assetPool then mret 0 else lift (SWITCHValueInAsset assetPool fee)
    end.

Definition GetGasRate (ctx : Ctx) (c : Chain) : V Z :=
  transactionFee ← at_core (GetOutboundTxFee ctx);
  if Chains.Equals c SWITCHLYChain then mret transactionFee
  else
    networkFee ← GetNetworkFee c;
    match NetworkFee_Valid networkFee with
    | Some _ => mret transactionFee
    | None => lift (RoundToDecimal (to_u64 (TransactionFeeRate networkFee * 3) / 2) (GetGasAssetDecimal c))
    end.

Definition GetMaxGas (c : Chain) : V Coin :=
  nf ← GetNetworkFee c;
  amount ←
    (if (TransactionSize nf =? 0) || (TransactionFeeRate nf =? 0)
     then mret (if bool_decide (c = StellarChain) then 1000000 else 1)
     else
       x ← lift (umul (to_u64 (TransactionSize nf * TransactionFeeRate nf)) 3);
       lift (uquo x 2));
  rounded ← lift (RoundToDecimal amount (GetGasAssetDecimal c));
  mret (mkCoin (GetGasAsset c) rounded (GetGasAssetDecimal c)).

(** ** The end of the block *)

Fixpoint UpsertGasPool (pool : GasPool) (l : list GasPool) : outcome (list GasPool) :=
  match l with
  | [] => Ok [pool]
  | p :: r =>
      if bool_decide (gp_Asset p = gp_Asset pool) then
        sw ← uadd (gp_SwitchAmt p) (gp_SwitchAmt pool);
        am ← uadd (gp_AssetAmt p) (gp_AssetAmt pool);
        Ok (mkGasPool (gp_Asset p) sw am (gp_Count p) :: r)
      else r' ← UpsertGasPool pool r; Ok (p :: r')
  end.

(** The pools read so far, what is left of the reserve, and what was spent. *)
Definition Tally : Type := gmap Asset Pool * Z * Z.

Definition process_coin (t : Tally) (coin : Coin) : V Tally :=
  let '(poolCache, reserve, spent) := t in
  if Coin_IsEmpty coin then mret t
  else
    pool ← match poolCache !! coin_asset coin with
           | Some p => mret p
           | None => at_core (GetPool (coin_asset coin))
           end;
    let poolCache := <[coin_asset coin := pool]> poolCache in
    match Pool_Valid pool with
    | Some _ => mret (poolCache, reserve, spent)
    | None =>
        let switchGas := AssetValueInSWITCH pool (coin_amount coin) in
        if switchGas =? 0 then mret (poolCache, reserve, spent)
        else
          reserve ← lift (SafeSub reserve switchGas);
          let switchGas := if reserve =? 0 then 0 else switchGas in
          count ← gets (λ s, default 0 (gasCount (gasMgr s) !! coin_asset coin));
          evt ← gets (gasEvent ∘ gasMgr);
          evt ← lift (UpsertGasPool (mkGasPool (coin_asset coin) switchGas (coin_amount coin) count) evt);
          _ ← modify (put_gasEvent evt);
          spent ← lift (uadd spent switchGas);
          mret (poolCache, reserve, spent)
    end.
Fixpoint process_coins (t : Tally) (coins : list Coin) : V Tally :=
  match coins with [] => mret t | c :: r => t ← process_coin t c; process_coins t r end.
Fixpoint process_outs (poolCache : gmap Asset Pool) (reserve : Z) (l : list (Asset * list Coin)) : V (gmap Asset Pool) :=
  match l with
  | [] => mret poolCache
  | (outAsset, gas) :: r =>
      '(poolCache, reserve, spent) ← process_coins (poolCache, reserve, 0) gas;
      _ ← AddToOutboundFeeSpentSwitch outAsset spent;
      process_outs poolCache reserve r
  end.

Definition reimburse (poolCache : gmap Asset Pool) (g : GasPool) : V () :=
  match poolCache !! gp_Asset g with
  | None => mret ()
  | Some pool =>
      pool ←
        (if gp_SwitchAmt g =? 0 then mret pool
         else
           sent ← attempt (at_core (SendFromModuleToModule ReserveName AsgardName [NewCoin SwitchNative (gp_SwitchAmt g)]));
           match sent with
           | inr _ => mret pool
           | inl _ => b ← lift (uadd (BalanceSwitch pool) (gp_SwitchAmt g)); mret (set_BalanceSwitch b pool)
           end);
      a ← lift (SafeSub (BalanceAsset pool) (gp_AssetAmt g));
      _ ← attempt (at_core (SetPool (set_BalanceAsset a pool)));
      mret ()
  end.

Definition GetSWITCHBalanceOfModule (m : string) : K Z :=
  gets (λ s, bank_balance (bank s) (Module_acc m) (Assets.Native SwitchNative)).
Definition ProcessGas : V () :=
  ragnarok ← at_core RagnarokInProgress;
  if ragnarok : bool then mret ()
  else
    reserve ← at_core (GetSWITCHBalanceOfModule ReserveName);
    outs ← gets (outAssetGas ∘ gasMgr);
    poolCache ← process_outs ∅ reserve outs;
    evt ← gets (gasEvent ∘ gasMgr);
    for_each (reimburse poolCache) evt.

Definition Gas_EndBlock : V () :=
  _ ← ProcessGas;
  evt ← gets (gasEvent ∘ gasMgr);
  if bool_decide (evt = []) then mret ()
  else _ ← at_core (EmitEvent (EvGas evt)); reset.
End Gas.

(** ** Facts *)

Section GasFacts.
  Context `{CosmosMath} `{Bank} `{Env} `{!PubKeys}.

(** The innermost part of the state. *)
Definition the_core (s : VaultState) : State := core (q_obs (vs_queue s)).
Definition with_core (c : State) (s : VaultState) : VaultState :=
  put_queue (put_obs (put_core c (q_obs (vs_queue s))) (vs_queue s)) s.

Lemma at_core_run {A} (m : K A) s : at_core m s = (fst (m (the_core s)), with_core (snd (m (the_core s))) s).
Proof.
  unfold at_core, observed, in_queue, in_obs, in_core, the_core. by destruct (m (core (q_obs (vs_queue s)))).
Qed.
Lemma at_core_ok {A} (m : K A) s a s' :
  at_core m s = (Ok a, s') → ∃ c, m (the_core s) = (Ok a, c) ∧ s' = with_core c s.
Proof.
  rewrite at_core_run. intros [= Hm <-]. exists (snd (m (the_core s))). split; [by apply run_pair|done].
Qed.
Lemma with_core_id s : with_core (the_core s) s = s.
Proof. by destruct s as [[[]]]. Qed.
Lemma the_core_with c s : the_core (with_core c s) = c.
Proof. done. Qed.

Definition module_switch (m : string) (s : State) : Z := bank_balance (bank s) (Module_acc m) "switch".
(** The SWITCH of all pools. *)
Definition pooled (s : State) : Z := map_sum BalanceSwitch (pools s).

Definition paid_by (evt : list GasPool) : Z := sumZ (gp_SwitchAmt <$> evt).

Lemma paid_by_cons g l : paid_by (g :: l) = gp_SwitchAmt g + paid_by l.
Proof. done. Qed.
#[local] Arguments paid_by : simpl never.

(** The amounts of an asset in a gas event. *)
Definition of_event (f : GasPool → Z) (a : Asset) (evt : list GasPool) : Z :=
  sumZ ((λ g, if decide (gp_Asset g = a) then f g else 0) <$> evt).
Lemma of_event_cons f a g l : of_event f a (g :: l) = (if decide (gp_Asset g = a) then f g else 0) + of_event f a l.
Proof. done. Qed.
#[local] Arguments of_event : simpl never.

(** What a coin of gas is worth at the depths of its pool, and whether it is made
    good at all: a pool that is not valid and gas of no worth are passed over. *)
Definition gas_value (c : State) (coin : Coin) : Z := AssetValueInSWITCH (pool_of c (coin_asset coin)) (coin_amount coin).
Definition made_good (c : State) (coin : Coin) : bool :=
  negb (Coin_IsEmpty coin) && bool_decide (Pool_Valid (pool_of c (coin_asset coin)) = None) && negb (gas_value c coin =? 0).
(** The gas of one asset, what it is worth, and what all of it is worth. *)
Definition gas_spent (c : State) (a : Asset) (coins : list Coin) : Z :=
  sumZ ((λ x, if decide (coin_asset x = a) then coin_amount x else 0) <$> List.filter (made_good c) coins).
Definition gas_worth (c : State) (a : Asset) (coins : list Coin) : Z :=
  sumZ ((λ x, if decide (coin_asset x = a) then gas_value c x else 0) <$> List.filter (made_good c) coins).
Definition total_worth (c : State) (coins : list Coin) : Z := sumZ (gas_value c <$> List.filter (made_good c) coins).
Lemma gas_sum_snoc c (f : Coin → Z) l x :
  sumZ (f <$> List.filter (made_good c) (l ++ [x])%list) =
  sumZ (f <$> List.filter (made_good c) l) + (if made_good c x then f x else 0).
Proof.
  rewrite List.filter_app, fmap_app, sumZ_app. cbn [List.filter]. by destruct (made_good c x); cbn; rewrite ?Z.add_0_r.
Qed.

(** An entry of a gas event, for an asset of a kind. *)
Definition entry_of (Q : Asset → Prop) (g : GasPool) : Prop :=
  Q (gp_Asset g) ∧ (0 ≤ gp_SwitchAmt g)%Z ∧ (0 ≤ gp_AssetAmt g)%Z.

(** What the tally of a block's gas has: pools as they are stored, an entry for
    an asset, with all its gas so far, and less SWITCH promised than the reserve
    has, all the worth of the gas unless the reserve cannot pay that. *)
Record tally_ok (c : State) (R : Z) (seen : list Coin) (evt : list GasPool) (poolCache : gmap Asset Pool) (reserve : Z) : Prop := {
  tk_cache a p : poolCache !! a = Some p → p = pool_of c a;
  tk_assets : NoDup (gp_Asset <$> evt);
  tk_entries : Forall (entry_of (λ a, asset_wf a ∧ ∃ p, poolCache !! a = Some p ∧ Pool_Valid p = None)) evt;
  tk_reserve : 0 ≤ reserve;
  tk_sum : paid_by evt + reserve <= R;
  tk_strict : paid_by evt = 0 ∨ paid_by evt < R;
  tk_spent a : of_event gp_AssetAmt a evt = gas_spent c a seen;
  tk_worth : R ≤ total_worth c seen ∨
    reserve = R - total_worth c seen ∧ paid_by evt = total_worth c seen ∧
    ∀ a, of_event gp_SwitchAmt a evt = gas_worth c a seen;
}.

Lemma UpsertGasPool_spec g l l' :
  UpsertGasPool g l = Ok l' →
  paid_by l' = paid_by l + gp_SwitchAmt g ∧
  (∀ a, a ∈ gp_Asset <$> l' ↔ a ∈ gp_Asset <$> l ∨ a = gp_Asset g) ∧
  (NoDup (gp_Asset <$> l) → NoDup (gp_Asset <$> l')) ∧
  (∀ Q, entry_of Q g → Forall (entry_of Q) l → Forall (entry_of Q) l') ∧
  (∀ a, of_event gp_AssetAmt a l' = of_event gp_AssetAmt a l + (if decide (gp_Asset g = a) then gp_AssetAmt g else 0)) ∧
  (∀ a, of_event gp_SwitchAmt a l' = of_event gp_SwitchAmt a l + (if decide (gp_Asset g = a) then gp_SwitchAmt g else 0)).
Proof.
  revert l'. induction l as [|p l IH]; intros l'; cbn [UpsertGasPool].
  { intros [= <-]. rewrite !paid_by_cons. split_and!; [cbn; lia|set_solver|intros; apply NoDup_singleton| |intros a..].
    - intros Q Hg _. by constructor.
    - rewrite of_event_cons. lia.
    - rewrite of_event_cons. lia. }
  destruct (bool_decide_reflect (gp_Asset p = gp_Asset g)) as [Heq|Hne]; intros Hok; uint_inv.
  - rewrite !paid_by_cons. split_and!; [cbn; lia| |done| |intros a..].
    + intros a. rewrite !fmap_cons, !elem_of_cons, Heq. cbn. tauto.
    + intros Q (_ & ? & ?) [(? & ? & ?) Hl]%list.Forall_cons. constructor; [|done]. split_and!; cbn; [done|lia..].
    + rewrite !of_event_cons, <- Heq. cbn. case_decide; lia.
    + rewrite !of_event_cons, <- Heq. cbn. case_decide; lia.
  - match goal with Hr : UpsertGasPool _ _ = Ok _ |- _ => destruct (IH _ Hr) as (Hsum & Hin & Hnd & HQ & Ham & Hsw) end.
    rewrite !paid_by_cons. split_and!; [lia| | | |intros a..].
    4, 5: rewrite !of_event_cons, ?Ham, ?Hsw; lia.
    + intros a. rewrite !fmap_cons, !elem_of_cons, Hin. tauto.
    + intros [Hp Hl]%list.NoDup_cons. apply list.NoDup_cons. split; [|by apply Hnd].
      rewrite Hin. intros [?|?]; [done|congruence].
    + intros Q Hg [? Hl]%list.Forall_cons. constructor; [done|by apply HQ].
Qed.

Lemma AssetValueInSWITCH_nonneg p amt : 0 ≤ AssetValueInSWITCH p amt.
Proof. unfold AssetValueInSWITCH. destruct (_ || _); [lia|]. apply GetUncappedShare_range. Qed.

Lemma process_coin_tally R seen t coin s t' s' :
  asset_wf (coin_asset coin) → 0 ≤ coin_amount coin → process_coin t coin s = (Ok t', s') →
  tally_ok (the_core s) R seen (gasEvent (gasMgr s)) t.1.1 t.1.2 →
  the_core s' = the_core s ∧ outAssetGas (gasMgr s') = outAssetGas (gasMgr s) ∧
  tally_ok (the_core s') R (seen ++ [coin])%list (gasEvent (gasMgr s')) t'.1.1 t'.1.2.
Proof.
  destruct t as [[cache reserve] spent]. intros Hwf Hamt Hrun Ht. cbn [fst snd] in Ht. pose proof Ht as [Hc Hnd He Hr Hsum Hst Hsp Hwo].
  cbn [process_coin] in Hrun.
  assert (Hskip : ∀ cache', made_good (the_core s) coin = false → (∀ a p, cache' !! a = Some p → p = pool_of (the_core s) a) →
    Forall (entry_of (λ a, asset_wf a ∧ ∃ p, cache' !! a = Some p ∧ Pool_Valid p = None)) (gasEvent (gasMgr s)) →
    tally_ok (the_core s) R (seen ++ [coin])%list (gasEvent (gasMgr s)) cache' reserve).
  { intros cache' Hm Hc' He'. assert (Hz : ∀ f, sumZ (f <$> List.filter (made_good (the_core s)) (seen ++ [coin])%list) =
      sumZ (f <$> List.filter (made_good (the_core s)) seen)) by (intros f; rewrite gas_sum_snoc, Hm; lia).
    split; try done.
    - intros a. unfold gas_spent. rewrite Hz. apply Hsp.
    - unfold total_worth, gas_worth. setoid_rewrite Hz. exact Hwo. }
  destruct (Coin_IsEmpty coin) eqn:Hempty.
  { apply ret_ok in Hrun as [-> ->]. split_and!; [done..|]. apply Hskip; [|done..]. unfold made_good. by rewrite Hempty. }
  run_step Hrun pool s1 E. assert (s1 = s ∧ pool = pool_of (the_core s) (coin_asset coin)) as [-> ->].
  { destruct (cache !! coin_asset coin) as [p|] eqn:Hp.
    - apply ret_ok in E as [-> ->]. split; [done|by apply Hc].
    - apply at_core_ok in E as (c & [= <- <-] & ->). by rewrite with_core_id. }
  set (pool := pool_of (the_core s) (coin_asset coin)) in *. clear E.
  assert (Hcache : ∀ a p, <[coin_asset coin := pool]> cache !! a = Some p → p = pool_of (the_core s) a).
  { intros a p [[<- <-]|[_ Hp]]%lookup_insert_Some; [done|by apply Hc]. }
  assert (Hentries : Forall (entry_of (λ a, asset_wf a ∧ ∃ p, <[coin_asset coin := pool]> cache !! a = Some p ∧
    Pool_Valid p = None)) (gasEvent (gasMgr s))).
  { eapply list.Forall_impl; [exact He|]. intros g ((Hg & p & Hp & Hv) & ? & ?). split_and!; [done| |done..].
    destruct (decide (gp_Asset g = coin_asset coin)) as [Heq|].
    - exists pool. rewrite Heq, lookup_insert_eq. split; [done|]. rewrite <- Hv. f_equal. rewrite (Hc _ _ Hp).
      by rewrite Heq.
    - exists p. by rewrite lookup_insert_ne. }
  destruct (Pool_Valid pool) eqn:Hvalid.
  { apply ret_ok in Hrun as [-> ->]. split_and!; [done..|]. apply Hskip; [|done..].
    unfold made_good. fold pool. by rewrite Hvalid, andb_false_r. }
  assert (Hmade : made_good (the_core s) coin = negb (AssetValueInSWITCH pool (coin_amount coin) =? 0)).
  { unfold made_good, gas_value. fold pool. by rewrite Hempty, Hvalid. }
  destruct (AssetValueInSWITCH pool (coin_amount coin) =? 0) eqn:Hz.
  { apply ret_ok in Hrun as [-> ->]. split_and!; [done..|]. by apply Hskip. }
  pose proof (AssetValueInSWITCH_nonneg pool (coin_amount coin)) as Hsg. clear Hskip Hz.
  assert (Hval : gas_value (the_core s) coin = AssetValueInSWITCH pool (coin_amount coin)) by done.
  set (sg := AssetValueInSWITCH pool (coin_amount coin)) in *. clearbody sg.
  run_step Hrun rest s1 E. apply lift_ok in E as [Hrest ->]. apply SafeSub_inv in Hrest; [|lia..].
  set (g := if rest =? 0 then 0 else sg) in *.
  run_inv.
  match goal with Hu : UpsertGasPool _ _ = Ok _ |- _ => destruct (UpsertGasPool_spec _ _ _ Hu) as (Hp & Hin & Hnd' & HQ & Hev & Hsw) end.
  cbn in Hp, Hev, Hsw. assert (0 ≤ g) by (subst g; destruct (rest =? 0); lia).
  split_and!; [done..|]. cbn. split.
  - exact Hcache.
  - by apply Hnd'.
  - apply HQ; [|exact Hentries]. split; [|by split]. split; [exact Hwf|]. exists pool. by rewrite lookup_insert_eq.
  - lia.
  - subst g. destruct (Z.eqb_spec rest 0); lia.
  - subst g. destruct (Z.eqb_spec rest 0); lia.
  - intros a. change (the_core (put_gasEvent _ s)) with (the_core s). rewrite Hev, Hsp. unfold gas_spent. by rewrite gas_sum_snoc, Hmade.
  - change (the_core (put_gasEvent _ s)) with (the_core s).
    assert (Htot : total_worth (the_core s) (seen ++ [coin])%list = total_worth (the_core s) seen + sg).
    { unfold total_worth. by rewrite gas_sum_snoc, Hmade, Hval. }
    rewrite Htot. destruct Hwo as [Hwo|(Hres & Hpd & Hwo)]; [left; lia|].
    subst g. destruct (Z.eqb_spec rest 0); [left; lia|right]. split; [lia|]. split; [lia|].
    intros a. rewrite Hsw, Hwo. unfold gas_worth. by rewrite gas_sum_snoc, Hmade, Hval.
Qed.

Definition out_gas_wf (l : list (Asset * list Coin)) : Prop := Forall (λ e, coins_wf (snd e)) l.

Lemma process_coins_tally R seen coins t s t' s' :
  coins_wf coins → process_coins t coins s = (Ok t', s') →
  tally_ok (the_core s) R seen (gasEvent (gasMgr s)) t.1.1 t.1.2 →
  the_core s' = the_core s ∧ tally_ok (the_core s') R (seen ++ coins)%list (gasEvent (gasMgr s')) t'.1.1 t'.1.2.
Proof.
  intros Hwf. revert seen t s. induction Hwf as [|c coins [Hc Hc0] Hwf IH]; intros seen t s Hrun Ht; cbn in Hrun.
  { apply ret_ok in Hrun as [-> ->]. by rewrite app_nil_r. }
  run_step Hrun t1 s1 E. apply (process_coin_tally R seen) in E as (Hs & _ & Ht1); [|done..].
  apply (IH (seen ++ [c])%list) in Hrun as [Hs' Ht']; [|done]. rewrite <- app_assoc in Ht'. by rewrite Hs', Hs in *.
Qed.

Lemma AddToOutboundFeeSpentSwitch_ok a v s u s' :
  AddToOutboundFeeSpentSwitch a v s = (Ok u, s') → the_core s' = the_core s ∧ gasMgr s' = gasMgr s.
Proof. unfold AddToOutboundFeeSpentSwitch, GetOutboundFeeSpentSwitch. intros Hrun. by run_inv. Qed.

(** The gas of all outbounds, in the order it was reported. *)
Definition all_gas (l : list (Asset * list Coin)) : list Coin := mjoin (snd <$> l).

Lemma process_outs_tally R seen l cache reserve s cache' s' :
  out_gas_wf l → process_outs cache reserve l s = (Ok cache', s') →
  tally_ok (the_core s) R seen (gasEvent (gasMgr s)) cache reserve →
  the_core s' = the_core s ∧
  ∃ reserve', tally_ok (the_core s') R (seen ++ all_gas l)%list (gasEvent (gasMgr s')) cache' reserve'.
Proof.
  intros Hl. revert seen cache reserve s. induction Hl as [|[a gas] l Hg Hl IH]; intros seen cache reserve s Hrun Ht; cbn in Hrun.
  { apply ret_ok in Hrun as [-> ->]. split; [done|]. exists reserve. cbn. by rewrite app_nil_r. }
  run_step Hrun t1 s1 E. destruct t1 as [[cache1 reserve1] spent].
  apply (process_coins_tally R seen) in E as [Hs Ht1]; [|done..]. cbn in Ht1.
  run_step Hrun u s2 E. apply AddToOutboundFeeSpentSwitch_ok in E as [Hs2 Hg2].
  apply (IH (seen ++ gas)%list) in Hrun as (Hs' & r & Ht'); [|by rewrite Hs2, Hg2].
  split; [by rewrite Hs', Hs2, Hs|]. exists r. by rewrite <- app_assoc in Ht'.
Qed.

(** What one reimbursement does to the reserve, the asgard module and the pools. *)
Record reimbursed (c c' : State) (paid : Z) : Prop := {
  rb_ok : positions_ok c';
  rb_reserve : module_switch ReserveName c' = module_switch ReserveName c - paid;
  rb_asgard : module_switch AsgardName c' = module_switch AsgardName c + paid;
  rb_supply : bank_supply (bank c') "switch" = bank_supply (bank c) "switch";
  rb_pooled : pooled c' = pooled c + paid;
  rb_asset a : BalanceAsset (pool_of c' a) <= BalanceAsset (pool_of c a);
}.

Lemma reimbursed_trans c c1 c2 x y : reimbursed c c1 x → reimbursed c1 c2 y → reimbursed c c2 (x + y).
Proof.
  intros [? Hr Ha Hs Hp Hb] [? Hr' Ha' Hs' Hp' Hb']. split; [done|lia|lia|congruence|lia|].
  intros a. specialize (Hb a). specialize (Hb' a). lia.
Qed.

Lemma pool_of_stored c a :
  positions_ok c → Pool_Valid (pool_of c a) = None →
  pools c !! asset_key a = Some (pool_of c a) ∧ asset_key (pool_asset (pool_of c a)) = asset_key a ∧
  pool_wf (pool_of c a).
Proof.
  intros Hok Hv. assert (is_Some (pools c !! asset_key a)) as Hs.
  { unfold pool_of in Hv. destruct (pools c !! asset_key a); [by eexists|done]. }
  destruct (pool_of_ok c a Hok Hs) as (? & _ & ?). destruct Hs as [p Hp]. unfold pool_of in *. by rewrite Hp in *.
Qed.

(** A pool saved with more SWITCH, which the asgard module has received, and less
    of its asset. *)
Lemma save_reimbursed c c' x paid a :
  let pool := pool_of c x in
  positions_ok c → Pool_Valid pool = None → 0 ≤ paid → 0 ≤ a ≤ BalanceAsset pool →
  pools c' = <[asset_key x := set_BalanceAsset a (set_BalanceSwitch (BalanceSwitch pool + paid) pool)]> (pools c) →
  lps c' = lps c → bank_supply (bank c') "switch" = bank_supply (bank c) "switch" →
  module_switch ReserveName c' = module_switch ReserveName c - paid →
  module_switch AsgardName c' = module_switch AsgardName c + paid →
  reimbursed c c' paid ∧ (∀ y, asset_key y ≠ asset_key x → pool_of c' y = pool_of c y) ∧
  pool_of c' x = set_BalanceAsset a (set_BalanceSwitch (BalanceSwitch pool + paid) pool).
Proof.
  intros pool Hok Hv Hpaid Ha Hpools Hlps Hsup Hres Hasg.
  destruct (pool_of_stored c x Hok Hv) as (Hst & Hkey & Hwf). fold pool in Hst, Hkey, Hwf.
  assert (Hne : Assets.IsEmpty (pool_asset pool) = false).
  { unfold Pool_Valid, Pool_IsEmpty in Hv. by destruct (Assets.IsEmpty _). }
  assert (Hother : ∀ y, asset_key y ≠ asset_key x → pool_of c' y = pool_of c y).
  { intros y Hy. unfold pool_of. by rewrite Hpools, lookup_insert_ne by congruence. }
  assert (Hthis : pool_of c' x = set_BalanceAsset a (set_BalanceSwitch (BalanceSwitch pool + paid) pool)).
  { unfold pool_of at 1. by rewrite Hpools, lookup_insert_eq. }
  split; [|done]. split; [|done..| |].
  - eapply (positions_set_pool c c' (set_BalanceAsset a (set_BalanceSwitch (BalanceSwitch pool + paid) pool)));
      [done|cbn; by rewrite Hkey|done| |done|..].
    + destruct Hwf. split; cbn; lia.
    + cbn. unfold pool_of at 1. rewrite Hkey. done.
    + cbn. unfold pool_of at 1. rewrite Hkey. done.
    + cbn. unfold pool_of at 1. rewrite Hkey. done.
  - unfold pooled. rewrite Hpools, map_sum_insert, Hst. cbn. lia.
  - intros y. destruct (decide (asset_key y = asset_key x)) as [Hy|Hy]; [|by rewrite Hother].
    unfold pool_of. rewrite Hpools, Hy, lookup_insert_eq. cbn. fold (pool_of c x). apply Ha.
Qed.
Lemma module_to_module_ok from to amt c c' :
  from ≠ to → SendFromModuleToModule from to [NewCoin SwitchNative amt] c = (Ok (), c') →
  ∃ b, c' = put_bank b c ∧ bank_supply b "switch" = bank_supply (bank c) "switch" ∧
    module_switch from c' = module_switch from c - amt ∧ module_switch to c' = module_switch to c + amt.
Proof.
  intros Hne Hrun. unfold SendFromModuleToModule in Hrun. apply in_bank_ok in Hrun as (b & Hsend & ->).
  cbn [map] in Hsend. change (native_coin (NewCoin SwitchNative amt)) with ("switch", amt) in Hsend.
  apply bank_send_law in Hsend as (_ & Hsup & Hbal). exists b. split_and!; [done|apply Hsup|..].
  - unfold module_switch. cbn [bank put_bank]. rewrite Hbal, decide_True, decide_False by naive_solver. lia.
  - unfold module_switch. cbn [bank put_bank]. rewrite Hbal, decide_False, decide_True by naive_solver. lia.
Qed.

Lemma module_to_module_fails from to amt c e c' :
  SendFromModuleToModule from to [NewCoin SwitchNative amt] c = (Err e, c') → c' = c.
Proof.
  unfold SendFromModuleToModule, in_bank. destruct (bank_send _ _ _ _) as [r b] eqn:Hsend. intros [= -> <-].
  apply bank_send_fails in Hsend as ->. by destruct c.
Qed.

(** The bank transfers SWITCH that the reserve has to the asgard module. *)
Definition reserve_can_pay : Prop := ∀ b amt,
  0 < amt ≤ bank_balance b (Module_acc ReserveName) "switch" →
  fst (bank_send (Module_acc ReserveName) (Module_acc AsgardName) [("switch", amt)] b) = Ok ().
Lemma reserve_pays amt c :
  reserve_can_pay → 0 < amt ≤ module_switch ReserveName c →
  fst (SendFromModuleToModule ReserveName AsgardName [NewCoin SwitchNative amt] c) = Ok ().
Proof.
  intros Hpay Ha. unfold SendFromModuleToModule, in_bank. cbn [map]. change (native_coin (NewCoin SwitchNative amt)) with ("switch", amt).
  specialize (Hpay (bank c) amt Ha). by destruct (bank_send _ _ _ _).
Qed.

(** One entry of the event: its gas leaves the depth of its pool and, unless the
    transfer fails, its SWITCH arrives there. *)
Lemma reimburse_spec cache g s s' :
  positions_ok (the_core s) → entry_of (λ a, cache !! a = Some (pool_of (the_core s) a) ∧
    Pool_Valid (pool_of (the_core s) a) = None) g →
  reimburse cache g s = (Ok (), s') →
  ∃ paid, 0 ≤ paid ≤ gp_SwitchAmt g ∧ reimbursed (the_core s) (the_core s') paid ∧
    (∀ y, asset_key y ≠ asset_key (gp_Asset g) → pool_of (the_core s') y = pool_of (the_core s) y) ∧
    BalanceAsset (pool_of (the_core s') (gp_Asset g)) = Z.max 0 (BalanceAsset (pool_of (the_core s) (gp_Asset g)) - gp_AssetAmt g) ∧
    BalanceSwitch (pool_of (the_core s') (gp_Asset g)) = BalanceSwitch (pool_of (the_core s) (gp_Asset g)) + paid ∧
    (reserve_can_pay → gp_SwitchAmt g ≤ module_switch ReserveName (the_core s) → paid = gp_SwitchAmt g).
Proof.
  intros Hok ([Hc Hv] & Hsw & Ham) Hrun. unfold reimburse in Hrun. rewrite Hc in Hrun.
  set (pool := pool_of (the_core s) (gp_Asset g)) in *.
  destruct (pool_of_stored _ _ Hok Hv) as (_ & Hkey & Hwf). fold pool in Hkey, Hwf.
  run_step Hrun p1 s1 E.
  assert (∃ paid b, 0 ≤ paid ≤ gp_SwitchAmt g ∧ p1 = set_BalanceSwitch (BalanceSwitch pool + paid) pool ∧
    the_core s1 = put_bank b (the_core s) ∧ bank_supply b "switch" = bank_supply (bank (the_core s)) "switch" ∧
    module_switch ReserveName (the_core s1) = module_switch ReserveName (the_core s) - paid ∧
    module_switch AsgardName (the_core s1) = module_switch AsgardName (the_core s) + paid ∧
    (reserve_can_pay → gp_SwitchAmt g ≤ module_switch ReserveName (the_core s) → paid = gp_SwitchAmt g))
    as (paid & b & Hpaid & -> & Hs1 & Hsup & Hres & Hasg & Hexact).
  { clear Hrun. assert (Hnone : (reserve_can_pay → gp_SwitchAmt g ≤ module_switch ReserveName (the_core s) → gp_SwitchAmt g = 0) →
      p1 = pool → the_core s1 = the_core s → ∃ paid b, 0 ≤ paid ≤ gp_SwitchAmt g ∧
      p1 = set_BalanceSwitch (BalanceSwitch pool + paid) pool ∧ the_core s1 = put_bank b (the_core s) ∧
      bank_supply b "switch" = bank_supply (bank (the_core s)) "switch" ∧
      module_switch ReserveName (the_core s1) = module_switch ReserveName (the_core s) - paid ∧
      module_switch AsgardName (the_core s1) = module_switch AsgardName (the_core s) + paid ∧
      (reserve_can_pay → gp_SwitchAmt g ≤ module_switch ReserveName (the_core s) → paid = gp_SwitchAmt g)).
    { intros Hz -> ->. exists 0, (bank (the_core s)). rewrite Z.add_0_r.
      split_and!; [lia|lia|by destruct pool|by destruct (the_core s)|done|lia|lia|intros; symmetry; by apply Hz]. }
    destruct (Z.eqb_spec (gp_SwitchAmt g) 0); [apply ret_ok in E as [-> ->]; by apply Hnone|].
    run_step E sent s2 Es. unfold attempt in Es. rewrite at_core_run in Es.
    destruct (SendFromModuleToModule ReserveName AsgardName [NewCoin SwitchNative (gp_SwitchAmt g)] (the_core s))
      as [[[]|e|] c] eqn:Hsend; cbn [fst snd] in Es; [injection Es as <- <-|injection Es as <- <-|discriminate Es].
    - apply module_to_module_ok in Hsend as (b & -> & Hsup & Hres & Hasg); [|done]. run_inv.
      match goal with Hu : uadd _ _ = _ |- _ => apply uadd_inv in Hu as [-> ?] end. exists (gp_SwitchAmt g), b. rewrite the_core_with. by split_and!; try lia.
    - assert (Hno : reserve_can_pay → gp_SwitchAmt g ≤ module_switch ReserveName (the_core s) → gp_SwitchAmt g = 0).
      { intros Hpay Hle. pose proof (reserve_pays (gp_SwitchAmt g) (the_core s) Hpay ltac:(lia)) as Hs. by rewrite Hsend in Hs. }
      apply module_to_module_fails in Hsend as ->. rewrite with_core_id in E. apply ret_ok in E as [-> ->].
      by apply Hnone. }
  clear E. run_step Hrun a s2 E. apply lift_ok in E as [Ha ->]. cbn in Ha. apply SafeSub_inv in Ha; [|apply Hwf|done].
  assert (Hset : ∃ c, SetPool (set_BalanceAsset a (set_BalanceSwitch (BalanceSwitch pool + paid) pool)) (the_core s1) =
    (Ok (), c) ∧ the_core s' = c).
  { run_step Hrun r s2 Er. apply ret_ok in Hrun as [_ ->]. unfold attempt in Er. rewrite at_core_run in Er.
    unfold SetPool in *. cbn in Er |- *. unfold Pool_Valid, Pool_IsEmpty in Hv. destruct (Assets.IsEmpty _); [done|].
    cbn in Er. injection Er as _ <-. by eexists. }
  destruct Hset as (c & Hset & Hcore). apply SetPool_ok in Hset as [_ Hset]. rewrite <- Hcore in Hset. cbn in Hset. clear c Hcore.
  exists paid. split; [done|].
  pose proof (save_reimbursed (the_core s) (the_core s') (gp_Asset g) paid a) as Hsaved. cbv zeta in Hsaved. fold pool in Hsaved.
  destruct Hsaved as (Hrb & Hother & Hthis); try done; [lia|pose proof (wf_asset _ Hwf); lia|by rewrite Hset, Hs1, <- Hkey
    |by rewrite Hset, Hs1|by rewrite Hset, Hs1|by rewrite Hset, <- Hres, Hs1|by rewrite Hset, <- Hasg, Hs1|].
  rewrite Hthis. split_and!; [exact Hrb|exact Hother|cbn; lia|done|exact Hexact].
Qed.

Lemma pool_asset_nonneg c a : positions_ok c → 0 ≤ BalanceAsset (pool_of c a).
Proof.
  intros Hok. destruct (pools c !! asset_key a) eqn:Hp; [|unfold pool_of; by rewrite Hp].
  destruct (pool_of_ok c a Hok) as (_ & _ & Hwf); [by eexists|]. apply Hwf.
Qed.
Lemma asset_key_inj a b : asset_wf a → asset_wf b → asset_key a = asset_key b → a = b.
Proof. intros Ha Hb Heq. unfold asset_key, GetKey in Heq. rewrite !Str_upper in Heq by done. by apply Str_inj. Qed.
Lemma reimburse_all cache l s s' :
  positions_ok (the_core s) → NoDup (gp_Asset <$> l) →
  Forall (entry_of (λ a, asset_wf a ∧ cache !! a = Some (pool_of (the_core s) a) ∧
    Pool_Valid (pool_of (the_core s) a) = None)) l →
  for_each (reimburse cache) l s = (Ok (), s') →
  ∃ paid, 0 ≤ paid ≤ paid_by l ∧ reimbursed (the_core s) (the_core s') paid ∧
    (∀ a, asset_wf a → BalanceAsset (pool_of (the_core s') a) =
      Z.max 0 (BalanceAsset (pool_of (the_core s) a) - of_event gp_AssetAmt a l)) ∧
    (reserve_can_pay → paid_by l ≤ module_switch ReserveName (the_core s) → paid = paid_by l ∧
      ∀ a, asset_wf a → BalanceSwitch (pool_of (the_core s') a) =
        BalanceSwitch (pool_of (the_core s) a) + of_event gp_SwitchAmt a l).
Proof.
  revert s. induction l as [|g l IH]; intros s Hok Hnd Hl Hrun.
  { cbn in Hrun. apply ret_ok in Hrun as [_ ->]. exists 0. split; [done|]. split; [by split; try lia|].
    split; [intros a _; change (of_event gp_AssetAmt a []) with 0; pose proof (pool_asset_nonneg (the_core s) a Hok); lia|].
    intros _ _. split; [done|]. intros a _. change (of_event gp_SwitchAmt a []) with 0. lia. }
  cbn in Hrun. run_step Hrun u s1 E. destruct u.
  apply list.NoDup_cons in Hnd as [Hg Hnd]. apply list.Forall_cons in Hl as [((Hwf & Hc & Hv) & Hsw & Ham) Hl].
  apply reimburse_spec in E as (paid & Hpaid & Hr & Hother & Hba & Hbs & Hexact); [|done|by split].
  destruct (IH s1) as (rest & Hrest & Hr' & Hba' & Hbs'); [apply Hr|done| |done|].
  - apply list.Forall_forall. intros h Hh. pose proof (proj1 (list.Forall_forall _ _) Hl h Hh) as ((Hwf' & Hc' & Hv') & ?).
    assert (Hne : asset_key (gp_Asset h) ≠ asset_key (gp_Asset g)).
    { intros Heq%asset_key_inj; [|done..]. apply Hg. rewrite <- Heq. by apply list_elem_of_fmap_2. }
    split; [|done]. by rewrite Hother.
  - assert (Hat : ∀ a, asset_wf a → pool_of (the_core s1) a = pool_of (the_core s) a ∧ gp_Asset g ≠ a ∨ gp_Asset g = a).
    { intros a Ha. destruct (decide (gp_Asset g = a)) as [|Hne]; [by right|left]. split; [|done]. apply Hother.
      intros Heq%asset_key_inj; [congruence|done..]. }
    exists (paid + rest). rewrite paid_by_cons. split; [lia|]. split; [by eapply reimbursed_trans|]. split.
    + intros a Ha. rewrite Hba', of_event_cons by done.
      destruct (Hat a Ha) as [[-> Hne]|<-]; [by rewrite decide_False by done|]. rewrite decide_True, Hba by done.
      assert (0 ≤ of_event gp_AssetAmt (gp_Asset g) l); [|lia]. apply sumZ_nonneg, list.Forall_forall. intros z (h & -> & Hh)%list_elem_of_fmap.
      case_decide; [|lia]. apply (proj1 (list.Forall_forall _ _) Hl h Hh).
    + intros Hpay Hle. assert (0 ≤ paid_by l) by lia.
      destruct (Hbs' Hpay) as [Hrest' Hsws]; [rewrite (rb_reserve _ _ _ Hr); lia|]. rewrite (Hexact Hpay) in * by lia.
      split; [lia|]. intros a Ha. rewrite Hsws, of_event_cons by done.
      destruct (Hat a Ha) as [[-> Hne]|<-]; [by rewrite decide_False by done|]. rewrite decide_True, Hbs by done. lia.
Qed.

(** C9: At the end of a block that is not in ragnarok the gas of its outbounds is made
    good from the reserve.  The depth of every pool falls by the gas of its asset;
    what leaves the reserve is in the asgard module and in the pools, to the unit,
    even when some transfers fail; and when the reserve has more than all the gas is
    worth and its transfers succeed, all of it is paid, to each pool what its gas
    is worth.  The reserve is never emptied and the books of the pools stay right. *)
Theorem ProcessGas_reimburses s s' :
  positions_ok (the_core s) → gasEvent (gasMgr s) = [] → out_gas_wf (outAssetGas (gasMgr s)) →
  fst (RagnarokInProgress (the_core s)) = Ok false → ProcessGas s = (Ok (), s') →
  let c := the_core s in let c' := the_core s' in
  let gas := all_gas (outAssetGas (gasMgr s)) in let reserve := module_switch ReserveName c in
  ∃ paid, (paid = 0 ∨ 0 < paid < reserve) ∧ reimbursed c c' paid ∧
    (∀ a, asset_wf a → BalanceAsset (pool_of c' a) = Z.max 0 (BalanceAsset (pool_of c a) - gas_spent c a gas)) ∧
    (reserve_can_pay → total_worth c gas < reserve → paid = total_worth c gas ∧
      ∀ a, asset_wf a → BalanceSwitch (pool_of c' a) = BalanceSwitch (pool_of c a) + gas_worth c a gas).
Proof.
  intros Hok Hevt Hwf Hrag Hrun. unfold ProcessGas in Hrun. cbv zeta.
  run_step Hrun ragnarok s1 E. apply at_core_ok in E as (c & E & ->). rewrite E in Hrag. injection Hrag as ->.
  injection E as _ <-. rewrite with_core_id in Hrun.
  run_step Hrun R s1 E. apply at_core_ok in E as (c & [= <- <-] & ->). rewrite with_core_id in Hrun.
  change (Assets.Native SwitchNative) with "switch" in Hrun.
  fold (module_switch ReserveName (the_core s)) in Hrun.
  run_step Hrun outs s1 E. apply gets_ok in E as [-> ->].
  run_step Hrun cache s1 E. pose proof (bank_balance_nonneg (bank (the_core s)) (Module_acc ReserveName) "switch") as HR.
  fold (module_switch ReserveName (the_core s)) in HR.
  apply (process_outs_tally (module_switch ReserveName (the_core s)) []) in E as (Hs1 & rest & Ht); [|done|].
  2: { rewrite Hevt. split; [done|apply NoDup_nil_2|by apply Forall_nil_2|done|change (paid_by []) with 0; lia|by left|done|right].
       change (total_worth _ []) with 0. split; [lia|done]. }
  run_step Hrun evt s2 E. apply gets_ok in E as [-> ->]. cbn in Hrun. rewrite Hs1 in Ht. destruct Ht as [Hc Hnd He Hr Hsum Hst Hsp Hwo].
  apply reimburse_all in Hrun as (paid & Hpaid & Hrb & Hba & Hbs); [|by rewrite Hs1|done|].
  - rewrite Hs1 in *. exists paid. split; [destruct (Z.eq_dec paid 0); [by left|right; lia]|]. split; [done|].
    split; [intros a Ha; by rewrite Hba, Hsp by done|]. intros Hpay Hlt. destruct Hwo as [Hle|(_ & Hall & Hwo)]; [by apply Z.nlt_ge in Hle|].
    destruct (Hbs Hpay) as [-> Hsw]; [exact (Z.le_trans _ _ _ (Z.eq_le_incl _ _ Hall) (Z.lt_le_incl _ _ Hlt))|]. split; [exact Hall|]. intros a Ha. rewrite Hsw by done. f_equal. apply Hwo.
  - rewrite Hs1. eapply list.Forall_impl; [exact He|]. intros g ((Hg & p & Hp & Hv) & ? & ?).
    pose proof (Hc _ _ Hp) as ->. by split_and!.
Qed.
End GasFacts.

(** ** Witness *)

#[local] Existing Instance plain_keys.

(** A pool of 100 BTC and 400000 SWITCH, a reserve of 10000 SWITCH, and a block
    whose outbounds have spent 0.001 BTC. *)
Definition btc_depths : Pool := mkPool (400000 * One) (100 * One) BTCAsset 0 Available 0 8 0 0 0.
Definition reserve_ledger : BankRef.ledger :=
  BankRef.mkLedger {[(Module_acc ReserveName, "switch") := 10000 * One]} {["switch" := 10000 * One]}.
Definition gas_core : State := snd (SetPool btc_depths (put_bank reserve_ledger empty_state)).
Definition gas_block : VaultState :=
  put_outAssetGas [(BTCAsset, [NewCoin BTCAsset 100000])] (with_core gas_core no_vaults).

Lemma gas_core_ok : positions_ok gas_core.
Proof.
  assert (Hok : positions_ok (put_bank reserve_ledger empty_state)) by by apply positions_empty.
  assert (Hset : fst (SetPool btc_depths (put_bank reserve_ledger empty_state)) = Ok ()) by (vm_compute; reflexivity).
  apply (set_pool_positions _ _ _ _ Hok (run_pair _ _ Hset)); [|vm_compute; reflexivity..].
  split; vm_compute; discriminate.
Defined.

Lemma ledger_pays : reserve_can_pay (H0 := bank_ref).
Proof. intros b amt Ha. by apply BankRef.sends. Qed.
Lemma ProcessGas_reimburses_witness :
  fst (ProcessGas gas_block) = Ok () ∧
  let c := the_core gas_block in let c' := the_core (snd (ProcessGas gas_block)) in
  reimbursed c c' (400 * One / 100) ∧ BalanceAsset (pool_of c' BTCAsset) = 100 * One - 100000 ∧
  BalanceSwitch (pool_of c' BTCAsset) = 400004 * One.
Proof.
  assert (fst (ProcessGas gas_block) = Ok ()) as H by (vm_compute; reflexivity). split; [exact H|].
  assert (Hwf : out_gas_wf (outAssetGas (gasMgr gas_block))).
  { constructor; [|constructor]. constructor; [|constructor]. split; [apply btc_wf|cbn; lia]. }
  destruct (ProcessGas_reimburses gas_block _ gas_core_ok eq_refl Hwf ltac:(vm_compute; reflexivity) (run_pair _ _ H))
    as (paid & _ & Hr & Ha & Hs). cbv zeta. destruct (Hs ledger_pays) as [-> Hsw]; [vm_compute; reflexivity|].
  split; [exact Hr|]. rewrite Ha, Hsw by apply btc_wf. split; vm_compute; reflexivity.
Defined.
