(* ===== verification/Layers.v ===== *)
(** * Calls on a part of the store

    The store is nested: the state of vaults holds that of the swap queue, which
    holds that of the observations, which holds the core.  A call on an inner part
    inherits the properties it has there. *)

From S2P Require Import Prelude Runs GoStrings CosmosMath Amounts Assets Pools Constants State Txs Halts Fees Nodes ObservedTx Attest SwapHandler Vaults Gas.
Open Scope Z_scope.

Section Layers.
  Context `{CosmosMath} `{Bank} `{Env} `{!PubKeys} `{!SortSlice}.
Abbreviation V := (M VaultState).

Lemma never_in_core {A} (m : K A) : never_errs m → never_errs (in_core m).
Proof. intros Hm s e s'. unfold in_core. destruct (m _) as [r c] eqn:E. intros [= -> _]. by apply Hm in E. Qed.
Lemma never_observed {A} (m : M ObsState A) : never_errs m → never_errs (observed m).
Proof.
  intros Hm s e s'. unfold observed, in_queue, in_obs. destruct (m _) as [r o] eqn:E. intros [= -> _]. by apply Hm in E.
Qed.
Lemma never_at_core {A} (m : K A) : never_errs m → never_errs (at_core m).
Proof. intros Hm. by apply never_observed, never_in_core. Qed.

Lemma only_reads_in_core {A} (m : K A) : only_reads m → only_reads (in_core m).
Proof. intros Hm s. unfold in_core. specialize (Hm (core s)). destruct (m _). cbn in *. subst. by destruct s. Qed.
Lemma only_reads_in_queue {A} (m : M QueueState A) : only_reads m → only_reads (in_queue m).
Proof. intros Hm s. unfold in_queue. specialize (Hm (vs_queue s)). destruct (m _). cbn in *. subst. by destruct s. Qed.
Lemma only_reads_observed {A} (m : M ObsState A) : only_reads m → only_reads (observed m).
Proof.
  intros Hm s. unfold observed, in_queue, in_obs. specialize (Hm (q_obs (vs_queue s))).
  destruct (m _) as [r o]. cbn in *. subst o. by destruct s as [[]].
Qed.
Lemma only_reads_at_core {A} (m : K A) : only_reads m → only_reads (at_core m).
Proof. intros Hm. by apply only_reads_observed, only_reads_in_core. Qed.
Lemma at_core_reads {A} (m : K A) s : only_reads m → at_core m s = (fst (m (the_core s)), s).
Proof. intros Hm. rewrite at_core_run, (Hm (the_core s)). by rewrite with_core_id. Qed.

Lemma uadd_no_err a b e : uadd a b ≠ Err e.
Proof. rewrite uadd_law. unfold in_uint. by destruct (_ && _). Qed.

(** ** Readings of the store *)

Lemma reads_config k : only_reads (GetConfigInt64 k).
Proof. by intros s. Qed.
Lemma reads_pool a : only_reads (GetPool a).
Proof. done. Qed.
Lemma reads_clout a : only_reads (GetSwapperClout a).
Proof. unfold GetSwapperClout. cbv zeta. by destruct (GoStrings.blank a). Qed.
Lemma reads_mimir k : only_reads (GetMimir k).
Proof. done. Qed.
#[local] Hint Resolve reads_config reads_pool reads_mimir only_reads_at_core only_reads_observed only_reads_in_queue : reads.
#[local] Ltac reads := repeat first [solve [eauto with reads]|reads_step].

Lemma reads_halted ctx c : only_reads (or_else (IsGlobalTradingHalted ctx) (IsChainTradingHalted ctx c)).
Proof.
  unfold or_else, IsGlobalTradingHalted, IsChainTradingHalted, IsChainHalted, RagnarokInProgress. reads.
Qed.
Lemma reads_anchors a : only_reads (GetAnchors a).
Proof.
  unfold GetAnchors. destruct (Assets.Equals _ _); [|done]. apply only_reads_bind; [done|intros ps].
  induction ps as [|p ps IH]; cbn [anchors_of]; [done|]. unfold is_anchor. reads.
Qed.
Lemma reads_prices ctx l : only_reads (anchor_prices ctx l).
Proof.
  induction l as [|a l IH]; cbn [anchor_prices]; [done|]. unfold anchor_price.
  repeat first [apply reads_halted|solve [eauto with reads]|reads_step].
Qed.
Lemma reads_dollars ctx : only_reads (DollarsPerSWITCH ctx).
Proof.
  unfold DollarsPerSWITCH, AnchorMedian.
  repeat first [apply reads_anchors|apply reads_prices|solve [eauto with reads]|reads_step].
Qed.
#[local] Hint Resolve reads_dollars : reads.
Lemma reads_native_fee ctx : only_reads (GetOutboundTxFee ctx).
Proof. unfold GetOutboundTxFee, usd_or_switch, usdFeesEnabled, DollarConfigInSWITCH. reads. Qed.
#[local] Hint Resolve reads_native_fee : reads.
Lemma reads_network_fee c : only_reads (GetNetworkFee c).
Proof. by apply only_reads_observed. Qed.
#[local] Hint Resolve reads_network_fee : reads.
Lemma reads_outbound_fee ctx a b : only_reads (Gas.GetAssetOutboundFee ctx a b).
Proof.
  unfold Gas.GetAssetOutboundFee, getSWITCHInAssetValue, chain_fee, min_fee, GetOutboundFeeWithheldSwitch, GetOutboundFeeSpentSwitch.
  reads.
Qed.
Lemma reads_max_gas c : only_reads (Gas.GetMaxGas c).
Proof. unfold Gas.GetMaxGas. reads. Qed.
Lemma reads_gas_rate ctx c : only_reads (Gas.GetGasRate ctx c).
Proof. unfold Gas.GetGasRate. reads. Qed.
Lemma only_reads_active ctx signer : only_reads (isSignedByActiveNodeAccounts ctx [signer]).
Proof.
  unfold isSignedByActiveNodeAccounts. cbn. destruct (bool_decide _); [done|].
  unfold signedByActiveNodeAccount. apply only_reads_bind; [apply only_reads_bind; [done|intros na; done]|intros b s1; by destruct b].
Qed.
Lemma reads_native_tx_fee ctx : only_reads (GetNativeTxFee ctx).
Proof. unfold GetNativeTxFee, usd_or_switch, usdFeesEnabled, DollarConfigInSWITCH. reads. Qed.
Lemma reads_check {S} (e : option error) : only_reads (check e : M S ()).
Proof. by destruct e. Qed.
Lemma reads_vault ctx pk : only_reads (GetVault ctx pk).
Proof. unfold GetVault. reads. Qed.
Lemma reads_asgards ctx : only_reads (GetAsgardVaults ctx).
Proof.
  unfold GetAsgardVaults, getAsgardIndex. apply only_reads_bind; [reads|].
  intros l. induction l as [|pk l IH]; cbn [get_asgards]; [reads|].
  repeat first [apply reads_vault|apply IH|reads_step].
Qed.
#[local] Hint Resolve reads_asgards : reads.
Lemma reads_by_status ctx st : only_reads (GetAsgardVaultsByStatus ctx st).
Proof. unfold GetAsgardVaultsByStatus. reads. Qed.
Lemma reads_name ctx n : only_reads (GetSWITCHName ctx n).
Proof. unfold GetSWITCHName. reads. Qed.
End Layers.

#[export] Hint Resolve reads_clout reads_config reads_pool reads_mimir only_reads_at_core only_reads_observed only_reads_in_queue
  reads_dollars reads_native_fee reads_network_fee reads_outbound_fee reads_max_gas reads_gas_rate reads_name reads_native_tx_fee only_reads_active reads_check reads_vault reads_asgards reads_by_status : reads.
Ltac reads := repeat first [solve [eauto with reads]|reads_step].
