(* ===== verification/Slasher.v ===== *)
(** * The slasher

    src/x/switchly/manager_slasher_current.go: slash points for validators that
    sign two blocks or none, the bond that the members of a vault lose when funds
    leave it without being asked for, and whether an outbound needs another
    vault.  Consensus keys and the votes of the previous block come from
    CometBFT. *)

From stdpp Require Import pretty.
From S2P Require Import Prelude GoStrings CosmosMath Amounts Assets Coins Pools Constants State Halts Positions Txs Nodes Quorum ObservedTx Attest SwapHandler Vaults Gas.
Open Scope Z_scope.

(** [GetPubKeyFromBech32] of a consensus key, and the address of the key. *)
Class ConsensusKeys := { cons_address : string → outcome string }.

(** What CometBFT says of the previous block: validators that signed twice, with
    the height, and the votes, with whether they are absent. *)
Record CometInfo := mkCometInfo { ci_Evidence : list (string * Z); ci_Votes : list (string * bool) }.

Section Slasher.
  Context `{CosmosMath} `{Bank} `{Env} `{!PubKeys} `{!ConsensusKeys}.
Abbreviation V := (M VaultState).

(** ** Signing of blocks *)

(** The node whose key has the address, with what is done to it. *)
Fixpoint at_validator (addr : string) (f : string → V ()) (pairs : list (string * string)) : V () :=
  match pairs with
  | [] => throw ("could not find active node account with validator address: " +:+ addr)
  | (node, val) :: r => if bool_decide (addr = val) then f node else at_validator addr f r
  end.

Definition DoubleSignMaxAge : Z := GetInt64Value int64Overrides "DoubleSignMaxAge".
Definition HandleDoubleSign (ctx : Ctx) (addr : string) (infractionHeight : Z) (pairs : list (string * string)) : V () :=
  if DoubleSignMaxAge <? to_i64 (BlockHeight ctx - infractionHeight) then mret ()
  else
    points ← at_core (GetConfigInt64 "DoubleBlockSignSlashPoints");
    at_validator addr (λ node,
      na ← observed (GetNodeAccount ctx node);
      _ ← observed (IncNodeAccountSlashPoints (NodeAddress na) points);
      observed (SetNodeAccount ctx na)) pairs.

Definition HandleSuccessfulSign (ctx : Ctx) (addr : string) (pairs : list (string * string)) : V () :=
  at_validator addr (λ node,
    na ← observed (GetNodeAccount ctx node);
    if MissingBlocks na =? 0 then mret ()
    else observed (SetNodeAccount ctx (set_MissingBlocks (to_u64 (MissingBlocks na - 1)) na))) pairs.

Definition HandleMissingSign (ctx : Ctx) (addr : string) (pairs : list (string * string)) : V () :=
  points ← at_core (GetConfigInt64 "MissBlockSignSlashPoints");
  maxTrack ← at_core (GetConfigInt64 "MaxTrackMissingBlock");
  at_validator addr (λ node,
    na ← observed (GetNodeAccount ctx node);
    _ ← observed (IncNodeAccountSlashPoints (NodeAddress na) points);
    let missing := to_u64 (MissingBlocks na + 1) in
    observed (SetNodeAccount ctx
      (set_MissingBlocks (if to_u64 maxTrack <? missing then to_u64 maxTrack else missing) na))) pairs.

Definition validator_pairs (nas : list NodeAccount) : list (string * string) :=
  omap (λ na, match cons_address (ValidatorConsPubKey na) with Ok a => Some (NodeAddress na, a) | _ => None end) nas.

Definition logged {A} (m : V A) : V () := _ ← attempt m; mret ().

Definition Slasher_BeginBlock (ctx : Ctx) (info : CometInfo) : V () :=
  let missing := fst <$> List.filter snd (ci_Votes info) in
  let signed := fst <$> List.filter (negb ∘ snd) (ci_Votes info) in
  if bool_decide (ci_Evidence info = []) && bool_decide (missing = []) then mret ()
  else
    nas ← observed ListActiveValidators;
    let pairs := validator_pairs nas in
    _ ← for_each (λ '(addr, h), logged (HandleDoubleSign ctx addr h pairs)) (ci_Evidence info);
    _ ← for_each (λ addr, logged (HandleMissingSign ctx addr pairs)) missing;
    for_each (λ addr, logged (HandleSuccessfulSign ctx addr pairs)) signed.

(** ** Funds that left a vault *)

Definition GetNodeAccountByPubKey (ctx : Ctx) (pk : string) : V NodeAccount :=
  addr ← lift (GetThorAddress pk);
  observed (GetNodeAccount ctx addr).

Fixpoint bonds_of (ctx : Ctx) (members : list string) (totalBond : Z) : V Z :=
  match members with
  | [] => mret totalBond
  | pk :: r =>
      na ← attempt (GetNodeAccountByPubKey ctx pk);
      totalBond ← (match na with inr _ => mret totalBond | inl na => lift (uadd totalBond (na_Bond na)) end);
      bonds_of ctx r totalBond
  end.

(** The share of one member, at most its bond. *)
Definition slashAndUpdateNodeAccount (ctx : Ctx) (na : NodeAccount) (totalBond totalSlashAmount : Z) : V Z :=
  let slashAmount := GetSafeShare (na_Bond na) totalBond totalSlashAmount in
  let slashAmount := if na_Bond na <? slashAmount then na_Bond na else slashAmount in
  bond ← lift (SafeSub (na_Bond na) slashAmount);
  let na := set_na_Bond bond na in
  _ ← at_core (EmitEvent (EvBond slashAmount BondCost (NodeAddress na) "" ""));
  _ ← observed (SetNodeAccount ctx na);
  mret slashAmount.

Fixpoint slash_members (ctx : Ctx) (totalBond toSlash : Z) (members : list string) (slashed : Z) : V Z :=
  match members with
  | [] => mret slashed
  | pk :: r =>
      na ← attempt (GetNodeAccountByPubKey ctx pk);
      slashed ←
        (match na with
         | inr _ => mret slashed
         | inl na =>
             if na_Bond na =? 0 then mret slashed
             else
               amt ← slashAndUpdateNodeAccount ctx na totalBond toSlash;
               lift (uadd slashed amt)
         end);
      slash_members ctx totalBond toSlash r slashed
  end.

Definition updatePoolFromSlash (pool : Pool) (stolenAmount switchCreditAmt : Z) : V () :=
  a ← lift (SafeSub (BalanceAsset pool) stolenAmount);
  b ← lift (uadd (BalanceSwitch pool) switchCreditAmt);
  _ ← logged (at_core (SetPool (set_BalanceAsset a (set_BalanceSwitch b pool))));
  stolen ← lift (as_uint64 stolenAmount);
  credit ← lift (as_uint64 switchCreditAmt);
  at_core (EmitEvent (EvSlash (pool_asset pool)
    [(pool_asset pool, to_i64 (0 - to_i64 stolen)); (SwitchNative, to_i64 credit)])).

(** A slash above the threshold halts the chain of the asset. *)
Definition pause_on_slash (ctx : Ctx) (c : Chain) (toSlash : Z) : V () :=
  threshold ← at_core (GetConfigInt64 "PauseOnSlashThreshold");
  if (0 <? threshold) && (to_u64 threshold <=? toSlash) then
    let key := "Halt" +:+ Chains.Str c +:+ "Chain" in
    _ ← at_core (SetMimir key (BlockHeight ctx));
    at_core (EmitEvent (EvSetMimir (ToUpper key) (pretty (BlockHeight ctx))))
  else mret ().

Definition send_bond (to : string) (amt : Z) : V () :=
  logged (at_core (SendFromModuleToModule BondName to [NewCoin SwitchNative amt])).

Definition slash_coin (ctx : Ctx) (vault : Vault) (totalBond : Z) (coin : Coin) : V () :=
  if Coin_IsEmpty coin then mret ()
  else
    pool ← at_core (GetPool (coin_asset coin));
    if Pool_IsEmpty pool then mret ()
    else
      let vaultAmount := coin_amount (Vault_GetCoin vault (coin_asset coin)) in
      let stolen := if vaultAmount <? coin_amount coin then vaultAmount else coin_amount coin in
      let stolen := if BalanceAsset pool <? stolen then BalanceAsset pool else stolen in
      let stolenSWITCHValue := AssetValueInSWITCH pool stolen in
      if stolenSWITCHValue =? 0 then mret ()
      else
        penaltyPts ← at_core (GetConfigInt64 "SlashPenalty");
        let toSlash := GetUncappedShare (to_u64 penaltyPts) 10000 stolenSWITCHValue in
        _ ← pause_on_slash ctx (chain (coin_asset coin)) toSlash;
        slashed ← slash_members ctx totalBond toSlash (GetMembership vault) 0;
        let toAsgard := if slashed <? stolenSWITCHValue then slashed else stolenSWITCHValue in
        toReserve ← lift (SafeSub slashed toAsgard);
        _ ← (if toReserve =? 0 then mret () else send_bond ReserveName toReserve);
        if toAsgard =? 0 then mret ()
        else
          _ ← send_bond AsgardName toAsgard;
          updatePoolFromSlash pool stolen toAsgard.

Definition SlashVault (ctx : Ctx) (vaultPK : string) (coins : list Coin) : V () :=
  if Coins_IsEmpty coins then mret ()
  else
    found ← attempt (GetVault ctx vaultPK);
    match found with
    | inr _ => throw ("fail to get slash vault (pubkey " +:+ vaultPK +:+ ")")
    | inl vault =>
        totalBond ← bonds_of ctx (GetMembership vault) 0;
        for_each (slash_coin ctx vault totalBond) coins
    end.

(** ** Outbounds that were not signed *)

Definition GetObservedLink (inhash : string) : V (list string) :=
  observed (gets (λ s, default [] (observedLinks s !! GetKey inhash))).

(** The signers of the reports of one outbound, if some report is of the vault
    and the asset. *)
Definition outbound_signers (hash : string) (toi : TxOutItem) (voter : ObservedTxVoter) : list string :=
  let relevant t :=
    bool_decide (ObservedPubKey t = toi_VaultPubKey toi) &&
    match tx_Coins (ot_Tx t) with
    | [c] => Assets.Equals (coin_asset c) (coin_asset (toi_Coin toi))
    | _ => false
    end in
  if existsb relevant (ov_Txs voter)
  then remove_dups (concat (ot_Signers <$> List.filter (λ t, TxID_Equals (tx_ID (ot_Tx t)) hash) (ov_Txs voter)))
  else [].

Definition members_signed (vault : Vault) (signers : list string) : Z :=
  len (List.filter (λ m, match NewPubKey m with
                         | Ok pk => match GetThorAddress pk with Ok a => bool_decide (a ∈ signers) | _ => false end
                         | _ => false
                         end) (v_Membership vault)).

Fixpoint needs_vault_of (ctx : Ctx) (vault : Vault) (period startHeight : Z) (toi : TxOutItem) (hashes : list string) : V bool :=
  match hashes with
  | [] => mret true
  | hash :: r =>
      voter ← observed (GetObservedTxOutVoter hash);
      let signers := outbound_signers hash toi voter in
      if (0 <? FinalisedHeight voter) || bool_decide (signers = []) then needs_vault_of ctx vault period startHeight toi r
      else
        let count := members_signed vault signers in
        if (0 <? count) && HasSuperMajority count (len (v_Membership vault)) then mret false
        else mret (to_i64 (startHeight + (len signers + 1) * period) <? BlockHeight ctx)
  end.
Definition needsNewVault (ctx : Ctx) (vault : Vault) (signingTransPeriod startHeight : Z) (toi : TxOutItem) : V bool :=
  outhashes ← GetObservedLink (toi_InHash toi);
  match outhashes with
  | [] => mret true
  | _ => needs_vault_of ctx vault signingTransPeriod startHeight toi outhashes
  end.
End Slasher.

(** ** Facts *)

Section SlasherFacts.
  Context `{CosmosMath} `{Bank} `{Env} `{!PubKeys} `{!ConsensusKeys}.

Definition the_nodes (s : VaultState) : gmap string NodeAccount := nodeAccounts (q_obs (vs_queue s)).
Definition bonded (s : VaultState) : Z := map_sum na_Bond (the_nodes s).
Definition in_bond (s : VaultState) : Z := module_switch BondName (the_core s).

(** The accounts are filed under their addresses, none is empty and no bond is
    negative. *)
Definition nodes_ok (s : VaultState) : Prop :=
  ∀ k na, the_nodes s !! k = Some na →
    k = GetKey (NodeAddress na) ∧ NodeAccount_IsEmpty na = false ∧ 0 ≤ na_Bond na.

(** The keys of the members of a vault. *)
Definition member_key (members : list string) (k : string) : Prop :=
  ∃ pk addr, pk ∈ members ∧ GetThorAddress pk = Ok addr ∧ k = GetKey addr.

(** Some of the members' bonds are reduced, [amt] in all, of which at most that
    leaves the bond module. *)
Record slashes (members : list string) (s s' : VaultState) (amt : Z) : Prop := {
  sl_ok : nodes_ok s';
  sl_bonded : bonded s' = bonded s - amt;
  sl_node k na' : the_nodes s' !! k = Some na' → ∃ na, the_nodes s !! k = Some na ∧ na_Bond na' <= na_Bond na ∧
    (na' = na ∨ member_key members k);
}.

Lemma slashes_refl members s : nodes_ok s → slashes members s s 0.
Proof. intros Hok. split; [done|lia|]. intros k na Hk. exists na. split_and!; [done|lia|by left]. Qed.
Lemma slashes_trans members s s1 s2 x y :
  slashes members s s1 x → slashes members s1 s2 y → slashes members s s2 (x + y).
Proof.
  intros [_ Hb Hn] [Hok Hb' Hn']. split; [done|lia|]. intros k na Hk.
  destruct (Hn' _ _ Hk) as (na1 & Hk1 & Hle1 & Heq1). destruct (Hn _ _ Hk1) as (na0 & Hk0 & Hle0 & Heq0).
  exists na0. split_and!; [done|lia|]. destruct Heq1 as [->|]; [done|by right].
Qed.
(** What leaves the nodes alone. *)
Lemma slashes_same members s s' : nodes_ok s → the_nodes s' = the_nodes s → slashes members s s' 0.
Proof.
  intros Hok Heq. split; [|unfold bonded; rewrite Heq; lia|].
  - intros k na. rewrite Heq. apply Hok.
  - intros k na. rewrite Heq. intros Hk. exists na. split_and!; [done|lia|by left].
Qed.

Lemma observed_ok {A} (m : M ObsState A) s a s' :
  observed m s = (Ok a, s') →
  ∃ o, m (q_obs (vs_queue s)) = (Ok a, o) ∧ s' = put_queue (put_obs o (vs_queue s)) s.
Proof.
  unfold observed, in_queue, in_obs. destruct (m (q_obs (vs_queue s))) as [r o]. intros [= -> <-]. by exists o.
Qed.
Lemma at_core_nodes {A} (m : K A) s a s' : at_core m s = (Ok a, s') → the_nodes s' = the_nodes s.
Proof. intros (c & _ & ->)%at_core_ok. done. Qed.

Lemma GetNodeAccountByPubKey_ok ctx pk s na s' :
  GetNodeAccountByPubKey ctx pk s = (Ok na, s') → s' = s ∧ ∃ addr, GetThorAddress pk = Ok addr ∧
    na = default (NewNodeAccount addr NodeUnknown (mkPubKeySet "" "") "" 0 "" (BlockHeight ctx)) (the_nodes s !! GetKey addr).
Proof.
  unfold GetNodeAccountByPubKey. intros Hrun. run_step Hrun addr s1 E. apply lift_ok in E as [Ha ->].
  apply observed_ok in Hrun as (o & [= <- <-] & ->). split; [by destruct s as [[]]|]. by exists addr.
Qed.
Lemma GetNodeAccountByPubKey_fails ctx pk s e s' : GetNodeAccountByPubKey ctx pk s = (Err e, s') → s' = s.
Proof.
  unfold GetNodeAccountByPubKey, lift, mbind, M_bind. destruct (GetThorAddress pk); [done|by intros [= _ <-]|done].
Qed.

Lemma SetNodeAccount_run ctx na o :
  NodeAccount_IsEmpty na = false → ∃ na' o', SetNodeAccount ctx na o = (Ok (), o') ∧
    nodeAccounts o' = <[GetKey (NodeAddress na) := na']> (nodeAccounts o) ∧ core o' = core o ∧
    NodeAddress na' = NodeAddress na ∧ na_Bond na' = na_Bond na ∧ NodeAccount_IsEmpty na' = false.
Proof.
  intros He. unfold SetNodeAccount. rewrite He. destruct (_ && _); eexists _, _; (split; [reflexivity|]); by split_and!.
Qed.

Lemma slash_one ctx pk addr na members totalBond toSlash s amt s' :
  pk ∈ members → GetThorAddress pk = Ok addr → nodes_ok s → the_nodes s !! GetKey addr = Some na →
  slashAndUpdateNodeAccount ctx na totalBond toSlash s = (Ok amt, s') →
  slashes members s s' amt ∧ in_bond s' = in_bond s ∧ 0 ≤ amt.
Proof.
  intros Hpk Haddr Hok Hna Hrun. destruct (Hok _ _ Hna) as (Hkey & He & Hb0).
  unfold slashAndUpdateNodeAccount in Hrun.
  assert (Hshare : 0 ≤ GetSafeShare (na_Bond na) totalBond toSlash) by apply GetUncappedShare_range.
  set (share := GetSafeShare (na_Bond na) totalBond toSlash) in *. clearbody share.
  set (cut := if na_Bond na <? share then na_Bond na else share) in *.
  assert (Hcut : 0 ≤ cut ≤ na_Bond na) by (subst cut; destruct (Z.ltb_spec (na_Bond na) share); lia).
  clearbody cut. cbv zeta in Hrun.
  run_step Hrun bond s1 E. apply lift_ok in E as [Hbond ->]. apply SafeSub_inv in Hbond; [|done|lia].
  run_step Hrun u s1 E. pose proof (at_core_nodes _ _ _ _ E) as Hn1. apply at_core_ok in E as (c & E & Hs1).
  injection E as _ <-.
  run_step Hrun u2 s2 E. apply ret_ok in Hrun as [-> ->].
  apply observed_ok in E as (o & Hset & ->).
  destruct (SetNodeAccount_run ctx (set_na_Bond bond na) (q_obs (vs_queue s1)) He) as (na' & o' & Hrun & Hnodes & Hcore & Haddr' & Hbond' & He').
  rewrite Hrun in Hset. injection Hset as _ <-. change (NodeAddress (set_na_Bond bond na)) with (NodeAddress na) in *. cbn in Hbond'.
  set (s2 := put_queue _ s1). assert (Hn2 : the_nodes s2 = <[GetKey addr := na']> (the_nodes s)).
  { rewrite <- Hn1, Hkey. exact Hnodes. }
  split_and!; [|by unfold in_bond, the_core, s2; cbn; rewrite Hcore, Hs1|lia].
  split.
  - intros k x. rewrite Hn2. intros [[<- <-]|[_ Hx]]%lookup_insert_Some; [|by apply Hok].
    split_and!; [by rewrite Haddr'|done|lia].
  - unfold bonded. rewrite Hn2, map_sum_insert, Hna. cbn. lia.
  - intros k x. rewrite Hn2. intros [[<- <-]|[_ Hx]]%lookup_insert_Some.
    + exists na. split_and!; [done|lia|]. right. by exists pk, addr.
    + exists x. split_and!; [done|lia|by left].
Qed.

Lemma slash_members_spec ctx totalBond toSlash all members slashed s r s' :
  (∀ pk, pk ∈ members → pk ∈ all) → nodes_ok s → slash_members ctx totalBond toSlash members slashed s = (Ok r, s') →
  slashes all s s' (r - slashed) ∧ in_bond s' = in_bond s ∧ slashed <= r.
Proof.
  intros Hall. assert (Hall' : ∀ pk, pk ∈ members → pk ∈ all) by done. clear Hall.
  revert slashed s. induction members as [|pk members IH]; intros slashed s Hok Hrun; cbn in Hrun.
  { apply ret_ok in Hrun as [-> ->]. rewrite Z.sub_diag. split_and!; [by apply slashes_refl|done|lia]. }
  run_step Hrun found s1 E. run_step Hrun mid s2 E2.
  assert (slashes all s s2 (mid - slashed) ∧ in_bond s2 = in_bond s ∧ slashed <= mid) as (Hs & Hb & Hle).
  { clear Hrun. assert (Hnone : s2 = s → mid = slashed → slashes all s s2 (mid - slashed) ∧ in_bond s2 = in_bond s ∧ slashed <= mid).
    { intros -> ->. rewrite Z.sub_diag. split_and!; [by apply slashes_refl|done|lia]. }
    unfold attempt in E. destruct (GetNodeAccountByPubKey ctx pk s) as [[na|e|] s0] eqn:Hget; [| |done];
      injection E as <- <-.
    - apply GetNodeAccountByPubKey_ok in Hget as (-> & addr & Haddr & Hna).
      destruct (the_nodes s !! GetKey addr) as [na0|] eqn:Hst; cbn in Hna; subst na.
      + destruct (na_Bond na0 =? 0); [apply ret_ok in E2 as [-> ->]; by apply Hnone|].
        run_step E2 amt s3 E3. apply lift_ok in E2 as [Hadd ->]. apply uadd_inv in Hadd as [-> _].
        eapply (slash_one ctx pk addr na0 all) in E3 as (? & ? & ?); [|apply Hall', list_elem_of_here|done..].
        replace (slashed + amt - slashed) with amt by lia. split_and!; [done..|lia].
      + cbn in E2. apply ret_ok in E2 as [-> ->]. by apply Hnone.
    - apply GetNodeAccountByPubKey_fails in Hget as ->. apply ret_ok in E2 as [-> ->]. by apply Hnone. }
  apply IH in Hrun as (Hs' & Hb' & Hle'); [|by intros; apply Hall', list_elem_of_further|apply Hs].
  split_and!; [|congruence|lia]. replace (r - slashed) with ((mid - slashed) + (r - mid)) by lia.
  by eapply slashes_trans.
Qed.

Lemma send_bond_spec to amt s s' :
  to ≠ BondName → 0 ≤ amt → send_bond to amt s = (Ok (), s') →
  the_nodes s' = the_nodes s ∧ in_bond s - amt <= in_bond s'.
Proof.
  intros Hto Hamt Hrun. unfold send_bond, logged in Hrun. run_step Hrun r s1 E. apply ret_ok in Hrun as [_ ->].
  unfold attempt in E. rewrite at_core_run in E.
  destruct (SendFromModuleToModule BondName to [NewCoin SwitchNative amt] (the_core s)) as [[[]|e|] c] eqn:Hsend;
    cbn [fst snd] in E; [injection E as <- <-|injection E as <- <-|done]; (split; [done|]); unfold in_bond; rewrite the_core_with.
  - apply module_to_module_ok in Hsend as (b & _ & _ & -> & _); [lia|done].
  - apply module_to_module_fails in Hsend as ->. lia.
Qed.

(** What leaves the nodes and the bond module alone. *)
Definition bonds_apart (s s' : VaultState) : Prop := the_nodes s' = the_nodes s ∧ in_bond s' = in_bond s.
Lemma at_core_apart {A} (m : K A) s a s' :
  (∀ c r c', m c = (r, c') → bank c' = bank c) → at_core m s = (Ok a, s') → bonds_apart s s'.
Proof.
  intros Hm (c & Hc & ->)%at_core_ok. split; [done|]. unfold in_bond, module_switch. rewrite the_core_with.
  by rewrite (Hm _ _ _ Hc).
Qed.
Lemma logged_apart {A} (m : K A) s a s' :
  (∀ c r c', m c = (r, c') → bank c' = bank c) → logged (at_core m) s = (Ok a, s') → bonds_apart s s'.
Proof.
  intros Hm Hrun. unfold logged in Hrun. run_step Hrun r s1 E. apply ret_ok in Hrun as [_ ->].
  unfold attempt in E. rewrite at_core_run in E. destruct (m (the_core s)) as [x c] eqn:Hc.
  assert (s1 = with_core c s) as -> by (destruct x; cbn in E; [by injection E..|done]).
  split; [done|]. unfold in_bond, module_switch. rewrite the_core_with. by rewrite (Hm _ _ _ Hc).
Qed.
Lemma apart_trans s s1 s2 : bonds_apart s s1 → bonds_apart s1 s2 → bonds_apart s s2.
Proof. intros [] []. split; congruence. Qed.

Lemma SetPool_bank p c r c' : SetPool p c = (r, c') → bank c' = bank c.
Proof. unfold SetPool. destruct (Assets.IsEmpty _); by intros [= _ <-]. Qed.

Lemma updatePoolFromSlash_apart pool x y s s' :
  updatePoolFromSlash pool x y s = (Ok (), s') → bonds_apart s s'.
Proof.
  intros Hrun. unfold updatePoolFromSlash in Hrun.
  run_step Hrun a s1 E. apply lift_ok in E as [_ ->]. run_step Hrun b s1 E. apply lift_ok in E as [_ ->].
  run_step Hrun u s1 E. apply logged_apart in E; [|apply SetPool_bank].
  run_step Hrun v s2 E2. apply lift_ok in E2 as [_ ->]. run_step Hrun w s2 E2. apply lift_ok in E2 as [_ ->].
  apply at_core_apart in Hrun; [by eapply apart_trans|]. by intros c r c' [= _ <-].
Qed.

(** The bonds are still covered as they were: what left the bond module was taken
    from bonds before. *)
Definition cut_from (members : list string) (s s' : VaultState) : Prop :=
  ∃ amt, 0 ≤ amt ∧ slashes members s s' amt ∧ in_bond s - amt <= in_bond s'.

Lemma cut_apart members s s1 s' : nodes_ok s → bonds_apart s s1 → cut_from members s1 s' → cut_from members s s'.
Proof.
  intros Hok [Hn Hb] (amt & ? & Hs & Hin). exists amt. split_and!; [done| |lia].
  replace amt with (0 + amt) by lia. eapply slashes_trans; [by apply slashes_same|done].
Qed.
Lemma cut_same members s s' : nodes_ok s → bonds_apart s s' → cut_from members s s'.
Proof. intros Hok [Hn Hb]. exists 0. split_and!; [done|by apply slashes_same|lia]. Qed.

Lemma pause_on_slash_apart ctx c toSlash s s' : pause_on_slash ctx c toSlash s = (Ok (), s') → bonds_apart s s'.
Proof.
  intros Hrun. unfold pause_on_slash in Hrun. run_step Hrun th s1 E. apply at_core_apart in E as Hth.
  2: { by intros x r y [= _ <-]. }
  destruct (_ && _); [|by apply ret_ok in Hrun as [_ ->]]. cbv zeta in Hrun.
  run_step Hrun u s2 E2. apply at_core_apart in E2; [|by intros x r y [= _ <-]].
  apply at_core_apart in Hrun; [|by intros x r y [= _ <-]]. by do 2 (eapply apart_trans; [done|]).
Qed.

Lemma slash_coin_spec ctx vault totalBond coin s s' :
  nodes_ok s → slash_coin ctx vault totalBond coin s = (Ok (), s') → cut_from (GetMembership vault) s s'.
Proof.
  intros Hok Hrun. unfold slash_coin in Hrun. assert (Hnone : cut_from (GetMembership vault) s s) by by apply cut_same.
  destruct (Coin_IsEmpty coin); [by apply ret_ok in Hrun as [_ ->]|].
  run_step Hrun pool s1 E. apply at_core_ok in E as (c & [= _ <-] & ->). rewrite with_core_id in Hrun.
  destruct (Pool_IsEmpty pool); [by apply ret_ok in Hrun as [_ ->]|]. cbv zeta in Hrun.
  match type of Hrun with context [AssetValueInSWITCH pool ?a] => set (stolen := a) in * end. clearbody stolen.
  pose proof (AssetValueInSWITCH_nonneg pool stolen) as Hv0. set (value := AssetValueInSWITCH pool stolen) in *. clearbody value.
  destruct (value =? 0); [by apply ret_ok in Hrun as [_ ->]|].
  run_step Hrun pts s1 E. apply at_core_apart in E as H1a; [|by intros x r y [= _ <-]].
  run_step Hrun u s2 E2. destruct u. apply pause_on_slash_apart in E2.
  pose proof (apart_trans _ _ _ H1a E2) as H2a. eapply cut_apart; [done|exact H2a|].
  assert (Hok2 : nodes_ok s2) by (intros k na; rewrite (proj1 H2a); apply Hok).
  clear - Hrun Hok2 Hv0. run_step Hrun slashed s3 E.
  apply (slash_members_spec ctx _ _ (GetMembership vault)) in E as (Hs & Hb & Hle); [|done..].
  rewrite Z.sub_0_r in Hs.
  set (toAsgard := if slashed <? value then slashed else value) in *.
  assert (Hta : 0 ≤ toAsgard ≤ slashed) by (subst toAsgard; destruct (Z.ltb_spec slashed value); lia). clearbody toAsgard.
  run_step Hrun toReserve s4 E. apply lift_ok in E as [Htr ->]. apply SafeSub_inv in Htr; [|lia..].
  run_step Hrun u s4 E. destruct u.
  assert (the_nodes s4 = the_nodes s3 ∧ in_bond s3 - toReserve <= in_bond s4) as [Hn4 Hb4].
  { destruct (toReserve =? 0); [apply ret_ok in E as [_ ->]; split; [done|lia]|]. by apply send_bond_spec in E; [|done|lia]. }
  assert (the_nodes s' = the_nodes s4 ∧ in_bond s4 - toAsgard <= in_bond s') as [Hn' Hb'].
  { destruct (toAsgard =? 0); [apply ret_ok in Hrun as [_ ->]; split; [done|lia]|].
    run_step Hrun u s5 E5. destruct u. apply send_bond_spec in E5 as [Hn5 Hb5]; [|done|lia].
    apply updatePoolFromSlash_apart in Hrun as [Hn6 Hb6]. split; [congruence|lia]. }
  exists slashed. split_and!; [lia| |lia].
  replace slashed with (slashed + 0) by lia. eapply slashes_trans; [done|].
  apply slashes_same; [apply Hs|congruence].
Qed.

(** C8: Slashing a vault, whatever coins it lost: only its members lose bond, nobody
    more than they have, all that the bond module pays out was taken from bonds
    before, so that a module that covered the bonds still does, also when some
    of the transfers fail. *)
Theorem SlashVault_keeps_bonds_covered ctx pk coins s s' :
  nodes_ok s → SlashVault ctx pk coins s = (Ok (), s') →
  nodes_ok s' ∧ bonded s' <= bonded s ∧ in_bond s - bonded s <= in_bond s' - bonded s' ∧
  ∀ k na', the_nodes s' !! k = Some na' → ∃ na, the_nodes s !! k = Some na ∧ (0 ≤ na_Bond na' ≤ na_Bond na)%Z ∧
    (na' = na ∨ ∃ v, vaults s !! GetKey pk = Some v ∧ member_key (GetMembership v) k).
Proof.
  intros Hok Hrun. assert (∃ members, cut_from members s s' ∧ (∀ k, member_key members k →
    ∃ v, vaults s !! GetKey pk = Some v ∧ member_key (GetMembership v) k)) as (members & (amt & Hamt & [Hok' Hb Hn] & Hin) & Hm).
  { unfold SlashVault in Hrun. destruct (Coins_IsEmpty coins).
    { apply ret_ok in Hrun as [_ ->]. exists []. split; [by apply cut_same|].
      intros k (x & addr & Hx & _). by apply elem_of_nil in Hx. }
    run_step Hrun found s1 E. unfold attempt, GetVault, gets, mbind, M_bind in E.
    destruct (vaults s !! GetKey pk) as [v|]; cbn in E; injection E as <- <-; [|by apply throw_ok in Hrun].
    run_step Hrun totalBond s1 E. exists (GetMembership v). split; [|by intros k Hk; exists v].
    assert (bonds_apart s s1) as Ha.
    { clear Hrun. revert E. change (GetMembership (as_read ctx pk v)) with (GetMembership v).
      generalize 0 at 1. induction (GetMembership v) as [|m l IH]; intros z E; cbn in E.
      { by apply ret_ok in E as [_ ->]. }
      run_step E r s2 E2. run_step E z' s3 E3. assert (s3 = s) as ->; [|by eapply IH].
      unfold attempt in E2. destruct (GetNodeAccountByPubKey ctx m s) as [[na|e|] s0] eqn:Hg; [| |done].
      - apply GetNodeAccountByPubKey_ok in Hg as (-> & _). injection E2 as <- <-. by apply lift_ok in E3 as [_ ->].
      - apply GetNodeAccountByPubKey_fails in Hg as ->. injection E2 as <- <-. by apply ret_ok in E3 as [_ ->]. }
    eapply cut_apart; [done|done|]. assert (Hok1 : nodes_ok s1) by (intros k na; rewrite (proj1 Ha); apply Hok).
    clear E Ha Hok. revert s1 Hok1 Hrun. induction coins as [|c coins IH]; intros s1 Hok1 Hrun; cbn in Hrun.
    { apply ret_ok in Hrun as [_ ->]. by apply cut_same. }
    run_step Hrun u s2 E. destruct u. apply slash_coin_spec in E as (a & Ha & Hs & Hi); [|done].
    destruct (IH s2 (sl_ok _ _ _ _ Hs) Hrun) as (a' & Ha' & Hs' & Hi').
    exists (a + a'). split_and!; [lia|by eapply slashes_trans|lia]. }
  split_and!; [done|lia|lia|]. intros k na' Hk. destruct (Hn _ _ Hk) as (na & Hna & Hle & Heq).
  exists na. destruct (Hok' _ _ Hk) as (_ & _ & ?).
  split_and!; [done|lia|lia|]. destruct Heq as [->|Hmk]; [by left|right; by apply Hm].
Qed.
End SlasherFacts.

(** ** Witness *)

#[local] Existing Instance plain_keys.
Definition no_consensus_keys : ConsensusKeys := {| cons_address _ := Err "no key" |}.
#[local] Existing Instance no_consensus_keys.

(** Alice and Bob keep a vault, with 3000 and 1000 SWITCH bonded; Carol is not a
    member.  Half a bitcoin, worth 2000 SWITCH, leaves it. *)
Definition bonded_node (addr : string) (bond : Z) : NodeAccount :=
  NewNodeAccount addr NodeActive (mkPubKeySet addr "") "" bond addr 1.
Definition guardians : gmap string NodeAccount :=
  list_to_map ((λ na, (GetKey (NodeAddress na), na)) <$>
    [bonded_node "alice" (3000 * One); bonded_node "bob" (1000 * One); bonded_node "carol" (500 * One)]).
Definition bond_ledger : BankRef.ledger :=
  BankRef.mkLedger {[(Module_acc BondName, "switch") := 4500 * One]} {["switch" := 4500 * One]}.
Definition guarded_vault : Vault :=
  mkVault 5 "swtcpub1a" [NewCoin BTCAsset (2 * One)] AsgardVault ActiveVault 5 ["alice"; "bob"] ["BTC"] 0 0 [] [] [] "".
Definition robbed : VaultState :=
  let s := no_vaults in
  put_vaults {[GetKey "swtcpub1a" := guarded_vault]}
    (put_queue (mkQueueState (put_nodeAccounts guardians (put_core (snd (SetPool btc_depths (put_bank bond_ledger empty_state)))
      (q_obs (vs_queue s)))) ∅ ∅ ∅) s).

Lemma robbed_ok : nodes_ok robbed.
Proof.
  intros k na Hk. apply elem_of_list_to_map_2 in Hk. apply list_elem_of_fmap in Hk as (m & [= -> ->] & Hm).
  repeat (apply elem_of_cons in Hm as [->|Hm]; [split_and!; [reflexivity|vm_compute; reflexivity|vm_compute; discriminate]|]).
  by apply elem_of_nil in Hm.
Defined.

Lemma SlashVault_keeps_bonds_covered_witness :
  let coins := [NewCoin BTCAsset (One / 2)] in
  let s' := snd (SlashVault vault_block "swtcpub1a" coins robbed) in
  na_Bond <$> (the_nodes s' !! GetKey "alice") = Some (750 * One) ∧
  in_bond robbed - bonded robbed <= in_bond s' - bonded s'.
Proof.
  cbn zeta. assert (fst (SlashVault vault_block "swtcpub1a" [NewCoin BTCAsset (One / 2)] robbed) = Ok ()) as H
    by (vm_compute; reflexivity).
  split; [vm_compute; reflexivity|].
  apply (SlashVault_keeps_bonds_covered vault_block "swtcpub1a" _ robbed _ robbed_ok (run_pair _ _ H)).
Defined.
