(* ===== verification/Outbound.v ===== *)
(** * Observed outbounds

    src/x/switchly/handler_common_outbound.go, handler_outbound_tx.go,
    handler_refund.go and types/type_clout.go: an outbound that the validators
    have seen is matched with an item that the chain had planned; the clout it
    had taken is given back, and a vault that sent what nobody asked for is
    slashed. *)

From S2P Require Import Prelude GoStrings CosmosMath Amounts Assets Coins Pools Constants State Positions Txs Swap Nodes Quorum ObservedTx Attest SwapHandler SwapQueue Messages Vaults Gas Slasher.
Open Scope Z_scope.

Definition MaxETHGas : Z := 50000000.

(** ** Clout *)

Section Clout.
  Context `{CosmosMath}.

(** An address that is not empty is what the check complains about. *)
Definition Clout_Valid (c : SwapperClout) : option error :=
  if negb (blank (clout_address c)) then Some ("invalid swapper clout address: " +:+ clout_address c) else None.
Definition Clout_Available (c : SwapperClout) : outcome Z :=
  spent ← SafeSub (Spent c) (Reclaimed c);
  SafeSub (Score c) spent.
Definition Claimable (c : SwapperClout) : outcome Z := SafeSub (Spent c) (Reclaimed c).
Definition set_Reclaimed (v : Z) (c : SwapperClout) : SwapperClout :=
  mkClout (clout_address c) (Score c) v (Spent c) (LastSpentHeight c) (LastReclaimHeight c).
Definition set_LastReclaimHeight (h : Z) (c : SwapperClout) : SwapperClout :=
  mkClout (clout_address c) (Score c) (Reclaimed c) (Spent c) (LastSpentHeight c) h.
Definition Reclaim (value : Z) (c : SwapperClout) : outcome SwapperClout :=
  r ← uadd (Reclaimed c) value;
  Ok (set_Reclaimed (if Spent c <? r then Spent c else r) c).
Definition Clout_Restore (height limit : Z) (c : SwapperClout) : SwapperClout :=
  if to_i64 (LastSpentHeight c + limit) <? height then set_Reclaimed (Spent c) c else c.

(** Spent clout split between the two addresses of an outbound, half each where
    both can take it. *)
Definition calcReclaim (reclaimable1 reclaimable2 spent : Z) : outcome (Z * Z) :=
  total ← uadd reclaimable1 reclaimable2;
  if total <? spent then Ok (reclaimable1, reclaimable2)
  else
    half ← uquo spent 2;
    if reclaimable1 <? half then r ← usub spent reclaimable1; Ok (reclaimable1, r)
    else if reclaimable2 <? half then r ← usub spent reclaimable2; Ok (r, reclaimable2)
    else r ← usub spent half; Ok (half, r).
End Clout.

Section Outbound.
  Context `{CosmosMath} `{Bank} `{Env} `{!PubKeys} `{!SortSlice}.
Abbreviation V := (M VaultState).

Definition reclaim_clout (ctx : Ctx) (item : TxOutItem) : V () :=
  match toi_CloutSpent item with
  | None => mret ()
  | Some spent =>
      if spent =? 0 then mret ()
      else
        cloutOut ← at_core (GetSwapperClout (toi_ToAddress item));
        voter ← observed (GetObservedTxInVoter (toi_InHash item));
        cloutIn ← at_core (GetSwapperClout (FromAddress (ot_Tx (ov_Tx voter))));
        claim1 ← lift (Claimable cloutIn);
        claim2 ← lift (Claimable cloutOut);
        '(clout1, clout2) ← lift (calcReclaim claim1 claim2 spent);
        cloutIn ← lift (Reclaim clout1 cloutIn);
        _ ← at_core (SetSwapperClout (set_LastReclaimHeight (BlockHeight ctx) cloutIn));
        cloutOut ← (if Address_Equals (clout_address cloutIn) (clout_address cloutOut)
                    then lift (Reclaim clout1 cloutOut) else mret cloutOut);
        cloutOut ← lift (Reclaim clout2 cloutOut);
        at_core (SetSwapperClout (set_LastReclaimHeight (BlockHeight ctx) cloutOut))
  end.

(** ** Matching *)

(** The item waits for an outbound of the inbound, to the address, from the
    vault. *)
Definition is_candidate (tx : ObservedTx) (inTxID : string) (toi : TxOutItem) : bool :=
  TxID_Equals (toi_InHash toi) inTxID && TxID_IsEmpty (toi_OutHash toi) &&
  Chains.Equals (tx_Chain (ot_Tx tx)) (toi_Chain toi) && Address_Equals (ToAddress (ot_Tx tx)) (toi_ToAddress toi) &&
  EqualFold (ObservedTx.Aggregator tx) (toi_Aggregator toi) && EqualFold (ObservedTx.AggregatorTarget tx) (toi_AggregatorTargetAsset toi) &&
  bool_decide (ObservedPubKey tx = toi_VaultPubKey toi).

(** The coin, or the coin at the precision of its pool. *)
Definition coin_matches (tx : ObservedTx) (toi : TxOutItem) : V bool :=
  if Coins_EqualsEx (tx_Coins (ot_Tx tx)) [toi_Coin toi] then mret true
  else
    p ← at_core (GetPool (coin_asset (toi_Coin toi)));
    if Pool_IsEmpty p then mret false
    else
      amt ← lift (RoundToDecimal (coin_amount (toi_Coin toi)) (Decimals p));
      mret (Coins_EqualsEx (tx_Coins (ot_Tx tx)) [NewCoin (coin_asset (toi_Coin toi)) amt]).

Definition gas_amount (gas : list Coin) (a : Asset) : Z := coin_amount (GetCoin gas a).

(** An outbound of the gas asset may have more in the coin and less in the gas:
    what was saved is reimbursed to the pool, what was overspent is no match. *)
Definition gas_matches (ctx : Ctx) (tx : ObservedTx) (toi : TxOutItem) : V bool :=
  let asset := GetGasAsset (toi_Chain toi) in
  let maxGasAmt := gas_amount (toi_MaxGas toi) asset in
  let realGasAmt := gas_amount (tx_Gas (ot_Tx tx)) asset in
  if negb (Assets.Equals (coin_asset (toi_Coin toi)) asset) then mret false
  else
    intendToSpend ← lift (uadd (coin_amount (toi_Coin toi)) maxGasAmt);
    actualSpend ← lift (uadd (gas_amount (tx_Coins (ot_Tx tx)) asset) realGasAmt);
    if negb (intendToSpend =? actualSpend) then mret false
    else if realGasAmt <? maxGasAmt then
      found ← attempt (GetVault ctx (ObservedPubKey tx));
      let status := match found with inl v => v_Status v | inr _ => InactiveVault end in
      _ ← (if bool_decide (status = InactiveVault) then mret ()
           else
             diffGas ← lift (usub maxGasAmt realGasAmt);
             AddGasAsset (coin_asset (toi_Coin toi)) [NewCoin asset diffGas] false);
      mret true
    else mret (negb (maxGasAmt <? realGasAmt)).

Definition eth_overspent (tx : ObservedTx) (toi : TxOutItem) : bool :=
  Chains.Equals (toi_Chain toi) ETHChain && (MaxETHGas <=? gas_amount (tx_Gas (ot_Tx tx)) ETHAsset) &&
  (gas_amount (toi_MaxGas toi) ETHAsset <? MaxETHGas).

Definition item_matches (ctx : Ctx) (tx : ObservedTx) (inTxID : string) (toi : TxOutItem) : V bool :=
  if negb (is_candidate tx inTxID toi) then mret false
  else
    m ← coin_matches tx toi;
    m ← (if m : bool then mret true else gas_matches ctx tx toi);
    mret (m && negb (eth_overspent tx toi)).

(** The index of the first item that matches. *)
Fixpoint find_item (ctx : Ctx) (tx : ObservedTx) (inTxID : string) (i : nat) (items : list TxOutItem) : V (option (nat * TxOutItem)) :=
  match items with
  | [] => mret None
  | toi :: r =>
      m ← item_matches ctx tx inTxID toi;
      if m : bool then mret (Some (i, toi)) else find_item ctx tx inTxID (S i) r
  end.

Definition set_OutHash (h : string) (t : TxOutItem) : TxOutItem :=
  mkToi (toi_Chain t) (toi_InHash t) (toi_ToAddress t) (toi_Coin t) (toi_Aggregator t) (toi_AggregatorTargetAsset t)
    (toi_AggregatorTargetLimit t) (toi_Memo t) (toi_MaxGas t) (toi_GasRate t) (toi_VaultPubKey t) (toi_ModuleName t)
    h (toi_CloutSpent t).

Definition settle_block (ctx : Ctx) (tx : ObservedTx) (inTxID : string) (height : Z) : V bool :=
  items ← GetTxOut height;
  found ← find_item ctx tx inTxID 0 items;
  match found with
  | None => mret false
  | Some (i, toi) =>
      let toi := set_OutHash (tx_ID (ot_Tx tx)) toi in
      _ ← SetTxOut height (<[i := toi]> items);
      _ ← reclaim_clout ctx toi;
      mret true
  end.

(** The blocks from one height down to another, until one has the item; [None]
    when the steps do not suffice. *)
Fixpoint settle_blocks (fuel : nat) (ctx : Ctx) (tx : ObservedTx) (inTxID : string) (height earliest : Z) : V (option bool) :=
  match fuel with
  | O => mret None
  | S fuel =>
      if height <? earliest then mret (Some false)
      else
        done ← settle_block ctx tx inTxID height;
        if done : bool then mret (Some true) else settle_blocks fuel ctx tx inTxID (height - 1) earliest
  end.

(** ** The handlers *)

Definition isOutboundFakeGasTX (tx : ObservedTx) : bool :=
  match tx_Coins (ot_Tx tx) with
  | [c] => Chains.IsEVM (chain (coin_asset c)) &&
           Assets.Equals (coin_asset c) (GetGasAsset (chain (coin_asset c))) && (coin_amount c =? 1)
  | _ => false
  end.

Definition outbound_slash (ctx : Ctx) (tx : ObservedTx) : V () :=
  toSlash ← lift (Coins_Add (tx_Coins (ot_Tx tx)) (tx_Gas (ot_Tx tx)));
  SlashVault ctx (ObservedPubKey tx) toSlash.

Definition earliest_block (ctx : Ctx) (voter : ObservedTxVoter) : Z :=
  let earliest := BlockHeight ctx - GetInt64Value int64Overrides "SigningTransactionPeriod" in
  if earliest <? ov_Height voter then ov_Height voter else earliest.
(** Items may have been moved to the next multiple of the mimir. *)
Definition latest_block (ctx : Ctx) (coalesce : Z) : Z :=
  let h := BlockHeight ctx in
  if 1 <? coalesce then
    let over := Z.rem h coalesce in if over =? 0 then h else h + coalesce - over
  else h.
Definition blocks_between (latest earliest : Z) : nat := S (Z.to_nat (latest - earliest + 1)).

Definition settle_outbound (ctx : Ctx) (tx : ObservedTx) (inTxID : string) (voter : ObservedTxVoter) : V () :=
  coalesce ← at_core (GetConfigInt64 "RescheduleCoalesceBlocks");
  let latest := latest_block ctx coalesce in
  let earliest := earliest_block ctx voter in
  settled ← settle_blocks (blocks_between latest earliest) ctx tx inTxID latest earliest;
  _ ← (match settled with
       | Some true => mret ()
       | _ =>
           _ ← (if isOutboundFakeGasTX tx then mret ()
                else at_core (EmitEvent (EvSecurity ("missing tx out in=" +:+ inTxID) (tx_ID (ot_Tx tx)) (tx_Coins (ot_Tx tx)))));
           outbound_slash ctx tx
       end);
  SetLastSignedHeight (FinalisedHeight voter).

Definition Outbound_handle (ctx : Ctx) (tx : ObservedTx) (inTxID : string) : V () :=
  voter ← observed (GetObservedTxInVoter inTxID);
  '(voter, added) ← lift (AddOutTx voter (ot_Tx tx));
  _ ← (if added : bool
       then at_core (EmitEvent (EvOutbound inTxID (tx_ID (ot_Tx tx)) (tx_Coins (ot_Tx tx)))) else mret ());
  _ ← observed (SetObservedTxInVoter voter);
  if Chains.Equals (tx_Chain (ot_Tx tx)) SWITCHLYChain then mret () else settle_outbound ctx tx inTxID voter.

Definition OutboundTx_Run (ctx : Ctx) (msg : MsgTxOut) : V () :=
  if 3 <=? versionMajor ctx then
    _ ← check (TxOut_ValidateBasic msg);
    Outbound_handle ctx (to_Tx msg) (to_InTxID msg)
  else throw errBadVersion.
(** Only the validation of a refund looks at the version. *)
Definition RefundTx_Run (ctx : Ctx) (msg : MsgTxOut) : V () := OutboundTx_Run ctx msg.
End Outbound.

(** ** Facts *)

Section OutboundFacts.
  Context `{CosmosMath} `{Bank} `{Env} `{!PubKeys} `{!SortSlice}.

(** The split of spent clout is exact; the second address may be asked to take
    one unit more than it has to take. *)
Theorem calcReclaim_splits r1 r2 spent x y :
  0 ≤ r1 → 0 ≤ r2 → 0 ≤ spent → calcReclaim r1 r2 spent = Ok (x, y) →
  x + y = Z.min spent (r1 + r2) ∧ (0 ≤ x ≤ r1)%Z ∧ (0 ≤ y ≤ r2 + 1)%Z ∧
  (y = r2 + 1 → spent = 2 * r2 + 1).
Proof.
  intros H1r H2r Hs Hok. unfold calcReclaim in Hok. ok_inv.
  match goal with Hu : uadd _ _ = Ok _ |- _ => apply uadd_inv in Hu as [-> _] end.
  destruct (Z.ltb_spec (r1 + r2) spent); [injection Hok as <- <-; lia|].
  ok_inv. match goal with Hu : uquo _ _ = Ok _ |- _ => apply uquo_inv in Hu as (-> & _ & ?); [|lia..] end.
  pose proof (Z.div_mod spent 2 ltac:(lia)). pose proof (Z.mod_pos_bound spent 2 ltac:(lia)).
  destruct (Z.ltb_spec r1 (spent / 2)); [|destruct (Z.ltb_spec r2 (spent / 2))]; ok_inv;
    match goal with Hu : usub _ _ = Ok _ |- _ => apply usub_inv in Hu as [-> ?] end; simplify_eq; lia.
Qed.

(** Everything but the gas manager's memory is left alone. *)
Definition only_gas (s s' : VaultState) : Prop := ∃ g, s' = put_gasMgr g s.
Lemma only_gas_refl s : only_gas s s.
Proof. exists (gasMgr s). by destruct s. Qed.
Lemma only_gas_trans s s1 s2 : only_gas s s1 → only_gas s1 s2 → only_gas s s2.
Proof. intros [g ->] [g' ->]. by exists g'. Qed.

(** What the items are compared with: the outbound has the very coin, or the
    coin at the precision of its pool; or, where the coin is the chain's gas, as
    much with its gas as was allowed, of which no more than allowed is gas. *)
Definition pays_coin (c : State) (tx : ObservedTx) (toi : TxOutItem) : Prop :=
  Coins_EqualsEx (tx_Coins (ot_Tx tx)) [toi_Coin toi] = true ∨
  (Pool_IsEmpty (pool_of c (coin_asset (toi_Coin toi))) = false ∧
   ∃ amt, RoundToDecimal (coin_amount (toi_Coin toi)) (Decimals (pool_of c (coin_asset (toi_Coin toi)))) = Ok amt ∧
     Coins_EqualsEx (tx_Coins (ot_Tx tx)) [NewCoin (coin_asset (toi_Coin toi)) amt] = true).
Definition pays_with_gas (tx : ObservedTx) (toi : TxOutItem) : Prop :=
  let asset := GetGasAsset (toi_Chain toi) in
  Assets.Equals (coin_asset (toi_Coin toi)) asset = true ∧
  coin_amount (toi_Coin toi) + gas_amount (toi_MaxGas toi) asset =
    gas_amount (tx_Coins (ot_Tx tx)) asset + gas_amount (tx_Gas (ot_Tx tx)) asset ∧
  gas_amount (tx_Gas (ot_Tx tx)) asset <= gas_amount (toi_MaxGas toi) asset.
(** The outbound is the one the item waits for. *)
Definition pays_item (c : State) (tx : ObservedTx) (inTxID : string) (toi : TxOutItem) : Prop :=
  is_candidate tx inTxID toi = true ∧ (pays_coin c tx toi ∨ pays_with_gas tx toi) ∧ eth_overspent tx toi = false.

Lemma coin_matches_iff tx toi s b s' :
  coin_matches tx toi s = (Ok b, s') → s' = s ∧ (b = true ↔ pays_coin (the_core s) tx toi).
Proof.
  unfold coin_matches, pays_coin. intros Hrun. destruct (Coins_EqualsEx _ [toi_Coin toi]) eqn:Heq.
  { apply ret_ok in Hrun as [-> ->]. split; [done|]. by split; [left|]. }
  run_step Hrun p s1 E. apply at_core_ok in E as (c & [= Hp <-] & ->). rewrite with_core_id in Hrun.
  assert (p = pool_of (the_core s) (coin_asset (toi_Coin toi))) as -> by exact (eq_sym Hp).
  destruct (Pool_IsEmpty _). { apply ret_ok in Hrun as [-> ->]. split; [done|]. split; [done|]. by intros [?|[? _]]. }
  run_step Hrun amt s1 E. apply lift_ok in E as [Hamt ->]. apply ret_ok in Hrun as [-> ->]. split; [done|].
  split; [intros ?; right; split; [done|]; by exists amt|]. intros [?|(_ & v & Hv & Heq')]; [congruence|].
  rewrite Hamt in Hv. by injection Hv as ->.
Qed.

Lemma AddGasAsset_gas a gas inc s u s' : AddGasAsset a gas inc s = (Ok u, s') → only_gas s s'.
Proof.
  unfold AddGasAsset. intros Hrun. run_step Hrun l s1 E. apply gets_ok in E as [-> ->].
  run_step Hrun l' s1 E. apply lift_ok in E as [_ ->]. run_step Hrun v s1 E. apply modify_ok in E as ->.
  destruct inc; cbn in Hrun.
  - apply modify_ok in Hrun as ->. by eexists.
  - apply ret_ok in Hrun as [_ ->]. by eexists.
Qed.

Lemma gas_matches_iff ctx tx toi s b s' :
  gas_matches ctx tx toi s = (Ok b, s') → only_gas s s' ∧ (b = true ↔ pays_with_gas tx toi).
Proof.
  unfold gas_matches, pays_with_gas. intros Hrun. cbv zeta in *.
  destruct (Assets.Equals _ _); cbn [negb] in Hrun; [|apply ret_ok in Hrun as [-> ->]; split; [apply only_gas_refl|]; by split; [|intros []]].
  run_step Hrun x s1 E. apply lift_ok in E as [Hx ->]. apply uadd_inv in Hx as [-> _].
  run_step Hrun y s1 E. apply lift_ok in E as [Hy ->]. apply uadd_inv in Hy as [-> _].
  destruct (Z.eqb_spec (coin_amount (toi_Coin toi) + gas_amount (toi_MaxGas toi) (GetGasAsset (toi_Chain toi)))
    (gas_amount (tx_Coins (ot_Tx tx)) (GetGasAsset (toi_Chain toi)) + gas_amount (tx_Gas (ot_Tx tx)) (GetGasAsset (toi_Chain toi))));
    cbn [negb] in Hrun; [|apply ret_ok in Hrun as [-> ->]; split; [apply only_gas_refl|]; by split; [|intros (_ & ? & _)]].
  destruct (Z.ltb_spec (gas_amount (tx_Gas (ot_Tx tx)) (GetGasAsset (toi_Chain toi))) (gas_amount (toi_MaxGas toi) (GetGasAsset (toi_Chain toi)))) as [Hlt|Hge].
  2: { apply ret_ok in Hrun as [-> ->]. split; [apply only_gas_refl|]. rewrite negb_true_iff, Z.ltb_ge. intuition lia. }
  run_step Hrun found s1 E. assert (s1 = s) as ->.
  { unfold attempt, GetVault, gets, mbind, M_bind in E. by destruct (vaults s !! _); cbn in E; injection E as _ <-. }
  run_step Hrun u s1 E2. apply ret_ok in Hrun as [-> ->]. split; [|intuition lia].
  destruct (bool_decide _); [apply ret_ok in E2 as [_ ->]; apply only_gas_refl|].
  run_step E2 d s2 E3. apply lift_ok in E3 as [_ ->]. by eapply AddGasAsset_gas.
Qed.

Lemma item_matches_iff ctx tx inTxID toi s b s' :
  item_matches ctx tx inTxID toi s = (Ok b, s') → only_gas s s' ∧ (b = true ↔ pays_item (the_core s) tx inTxID toi).
Proof.
  unfold item_matches, pays_item. intros Hrun. destruct (is_candidate tx inTxID toi); cbn [negb] in Hrun.
  2: { apply ret_ok in Hrun as [-> ->]. split; [apply only_gas_refl|]. by split; [|intros []]. }
  run_step Hrun m s1 E. apply coin_matches_iff in E as [-> Hc]. run_step Hrun m' s1 E.
  apply ret_ok in Hrun as [-> ->]. rewrite andb_true_iff, negb_true_iff.
  assert (Hg : only_gas s s1 ∧ (m' = true ↔ pays_coin (the_core s) tx toi ∨ pays_with_gas tx toi)).
  { destruct m; [apply ret_ok in E as [-> ->]; split; [apply only_gas_refl|]; tauto|].
    apply gas_matches_iff in E as [? ?]. split; [done|]. intuition congruence. }
  destruct Hg as [? ->]. tauto.
Qed.

Lemma find_item_first ctx tx inTxID items i s r s' :
  find_item ctx tx inTxID i items s = (Ok r, s') → only_gas s s' ∧
  match r with
  | None => Forall (λ t, ¬ pays_item (the_core s) tx inTxID t) items
  | Some (j, toi) => ∃ k, j = (i + k)%nat ∧ items !! k = Some toi ∧ pays_item (the_core s) tx inTxID toi ∧
      Forall (λ t, ¬ pays_item (the_core s) tx inTxID t) (take k items)
  end.
Proof.
  revert i s. induction items as [|toi items IH]; intros i s Hrun; cbn in Hrun.
  { apply ret_ok in Hrun as [-> ->]. split; [apply only_gas_refl|done]. }
  run_step Hrun m s1 E. apply item_matches_iff in E as [Hg Hc]. destruct m.
  - apply ret_ok in Hrun as [-> ->]. split; [done|]. exists 0%nat. split_and!; [lia|done|by apply Hc|constructor].
  - assert (Hn : ¬ pays_item (the_core s) tx inTxID toi) by (intros ?%Hc; done).
    apply IH in Hrun as [Hg' Hr]. split; [by eapply only_gas_trans|].
    destruct Hg as [g ->]. change (the_core (put_gasMgr g s)) with (the_core s) in Hr.
    destruct r as [[j t]|]; [|by constructor].
    destruct Hr as (k & -> & Hk & ? & ?). exists (S k). split_and!; [lia|done|done|by constructor].
Qed.

(** Giving clout back moves no money and plans nothing. *)
Lemma reclaim_clout_apart ctx item s s' :
  reclaim_clout ctx item s = (Ok (), s') → bonds_apart s s' ∧ txOuts s' = txOuts s.
Proof.
  assert (Hget : ∀ a s c s', at_core (GetSwapperClout a) s = (Ok c, s') → s' = s).
  { intros a t c t' (d & Hd & ->)%at_core_ok. apply GetSwapperClout_ok in Hd as ->. apply with_core_id. }
  assert (Hset : ∀ r s u s', at_core (SetSwapperClout r) s = (Ok u, s') → bonds_apart s s' ∧ txOuts s' = txOuts s).
  { intros r t u t' Ht. split; [|by apply at_core_ok in Ht as (d & _ & ->)].
    apply at_core_apart in Ht; [done|]. by intros c x c' [= _ <-]. }
  unfold reclaim_clout. intros Hrun.
  destruct (toi_CloutSpent item) as [spent|]; [|by apply ret_ok in Hrun as [_ ->]].
  destruct (spent =? 0); [by apply ret_ok in Hrun as [_ ->]|].
  run_step Hrun co s1 E. apply Hget in E as ->.
  run_step Hrun voter s1 E. apply observed_ok in E as (o & [= _ <-] & Hs1). assert (s1 = s) as -> by (subst; by destruct s as [[]]).
  run_step Hrun ci s1 E. apply Hget in E as ->.
  run_step Hrun c1 s1 E. apply lift_ok in E as [_ ->]. run_step Hrun c2 s1 E. apply lift_ok in E as [_ ->].
  run_step Hrun cc s1 E. apply lift_ok in E as [_ ->]. destruct cc as [x y].
  run_step Hrun ci' s1 E. apply lift_ok in E as [_ ->]. run_step Hrun u s1 E. apply Hset in E as [Ha Ht].
  run_step Hrun co1 s2 E. assert (s2 = s1) as -> by (destruct (Address_Equals _ _); [by apply lift_ok in E as [_ ->]|by apply ret_ok in E as [_ ->]]).
  run_step Hrun co2 s2 E2. apply lift_ok in E2 as [_ ->]. apply Hset in Hrun as [Ha' Ht'].
  split; [by eapply apart_trans|congruence].
Qed.

(** The items of a block, or of all blocks, that wait for their outbound. *)
Definition waiting (items : list TxOutItem) : Z := len (List.filter (λ t, TxID_IsEmpty (toi_OutHash t)) items).
Definition open_items (s : VaultState) : Z := map_sum waiting (txOuts s).

Lemma waiting_insert items i toi h :
  items !! i = Some toi → TxID_IsEmpty (toi_OutHash toi) = true → TxID_IsEmpty h = false →
  waiting (<[i := set_OutHash h toi]> items) = waiting items - 1.
Proof.
  unfold waiting, len. revert i. induction items as [|t items IH]; intros [|i] Hi Ho Hh; try done.
  - injection Hi as ->. cbn. rewrite Hh, Ho. cbn [length]. lia.
  - specialize (IH i Hi Ho Hh). change (<[S i := set_OutHash h toi]> (t :: items)) with (t :: <[i := set_OutHash h toi]> items).
    cbn [List.filter]. destruct (TxID_IsEmpty (toi_OutHash t)); cbn [length]; lia.
Qed.

(** None of the items of a block is what the outbound pays. *)
Definition unpaid (s : VaultState) (tx : ObservedTx) (inTxID : string) (items : list TxOutItem) : Prop :=
  Forall (λ t, ¬ pays_item (the_core s) tx inTxID t) items.
Definition none_paid (s : VaultState) (tx : ObservedTx) (inTxID : string) (from to : Z) : Prop :=
  ∀ h items, (from ≤ h ≤ to)%Z → txOuts s !! h = Some items → unpaid s tx inTxID items.

(** The first item that the outbound pays, searching back from the latest block
    of the range, is marked with the outbound; no other item is, and no bond is
    touched. *)
Record settled_item (tx : ObservedTx) (inTxID : string) (latest earliest : Z) (s s' : VaultState) : Prop := {
  st_item : ∃ h items i toi, (earliest ≤ h ≤ latest)%Z ∧ txOuts s !! h = Some items ∧ items !! i = Some toi ∧
    pays_item (the_core s) tx inTxID toi ∧ none_paid s tx inTxID (h + 1) latest ∧ unpaid s tx inTxID (take i items) ∧
    txOuts s' = <[h := <[i := set_OutHash (tx_ID (ot_Tx tx)) toi]> items]> (txOuts s);
  st_bonds : bonds_apart s s';
}.

Lemma settled_open tx inTxID latest earliest s s' :
  TxID_IsEmpty (tx_ID (ot_Tx tx)) = false → settled_item tx inTxID latest earliest s s' → open_items s' = open_items s - 1.
Proof.
  intros Hid [(h & items & i & toi & _ & Hh & Hi & [Hc _] & _ & _ & Ht) _]. unfold open_items.
  rewrite Ht, map_sum_insert, Hh. cbn [from_option].
  unfold is_candidate in Hc. rewrite !andb_true_iff in Hc. destruct Hc as ((((((_ & Hempty) & _) & _) & _) & _) & _).
  erewrite waiting_insert by done. lia.
Qed.

Lemma settle_block_spec ctx tx inTxID h s b s' :
  settle_block ctx tx inTxID h s = (Ok b, s') →
  if b then settled_item tx inTxID h h s s' else only_gas s s' ∧ none_paid s tx inTxID h h.
Proof.
  unfold settle_block. intros Hrun. run_step Hrun items s1 E. apply gets_ok in E as [-> ->].
  run_step Hrun found s1 E. apply find_item_first in E as [[g ->] Hf].
  destruct found as [[i toi]|].
  2: { apply ret_ok in Hrun as [-> ->]. split; [by exists g|]. intros h' items Hh' Hi. assert (h' = h) as -> by lia.
       by rewrite Hi in Hf. }
  destruct Hf as (k & -> & Hk & Hc & Hfirst). cbn [Nat.add] in *.
  run_step Hrun u s2 E. apply modify_ok in E. run_step Hrun v s3 E3. destruct v. apply ret_ok in Hrun as [-> ->].
  apply reclaim_clout_apart in E3 as [Ha Ht]. cbn in Hk, Hfirst.
  destruct (txOuts s !! h) as [items|] eqn:Hh; [|done]. cbn in Hk, Hfirst, E.
  assert (Hne : <[k := set_OutHash (tx_ID (ot_Tx tx)) toi]> items ≠ []).
  { intros Heq%(f_equal length). rewrite length_insert in Heq. apply lookup_lt_Some in Hk. cbn in Heq. lia. }
  rewrite bool_decide_eq_false_2 in E by done. split.
  - exists h, items, k, toi. split_and!; [lia|lia|done..| |exact Hfirst|by rewrite Ht, E]. intros h' ? ?. lia.
  - destruct Ha as [Hn Hb]. split; [by rewrite Hn, E|by rewrite Hb, E].
Qed.

Lemma none_paid_join s tx inTxID h lo hi :
  none_paid s tx inTxID lo (h - 1) → none_paid s tx inTxID h hi → none_paid s tx inTxID lo hi.
Proof. intros Hlo Hhi h' items Hin Hi. destruct (Z.le_gt_cases h h'); [eapply Hhi|eapply Hlo]; [|done| |done]; lia. Qed.

Lemma settle_blocks_spec fuel ctx tx inTxID h earliest s r s' :
  settle_blocks fuel ctx tx inTxID h earliest s = (Ok r, s') →
  match r with
  | Some true => settled_item tx inTxID h earliest s s'
  | Some false => only_gas s s' ∧ none_paid s tx inTxID earliest h
  | None => True
  end.
Proof.
  revert h s. induction fuel as [|fuel IH]; intros h s Hrun; cbn in Hrun.
  { by apply ret_ok in Hrun as [-> ->]. }
  destruct (Z.ltb_spec h earliest).
  { apply ret_ok in Hrun as [-> ->]. split; [apply only_gas_refl|]. intros h' ? ?. lia. }
  run_step Hrun hit s1 E. apply settle_block_spec in E. destruct hit.
  - apply ret_ok in Hrun as [-> ->]. destruct E as [(h' & items & i & toi & Hh & Hrest) Hb].
    assert (h' = h) as -> by lia. split; [|done]. exists h, items, i, toi. split; [lia|done].
  - apply IH in Hrun. destruct E as [[g ->] Hnone]. destruct r as [[|]|]; [| |done].
    + destruct Hrun as [(h' & items & i & toi & Hh & Ho & Hi & Hp & Hlater & Hrest) Hb]. split; [|done].
      exists h', items, i, toi. split_and!; [lia|lia|done..| |apply Hrest|apply Hrest].
      by apply (none_paid_join _ _ _ h).
    + destruct Hrun as [[g' ->] Hearlier]. split; [by exists g'|]. by apply (none_paid_join _ _ _ h).
Qed.

Lemma settle_blocks_loop ctx tx inTxID earliest n fuel h s :
  Z.to_nat (h - earliest + 1) = n → (S n <= fuel)%nat →
  settle_blocks fuel ctx tx inTxID h earliest s = settle_blocks (S n) ctx tx inTxID h earliest s ∧
  fst (settle_blocks fuel ctx tx inTxID h earliest s) ≠ Ok None.
Proof.
  revert fuel h s. induction n as [|n IH]; intros fuel h s Hn Hf; (destruct fuel as [|fuel]; [lia|]); cbn;
    (destruct (Z.ltb_spec h earliest); [done|]); [lia|].
  unfold mbind, M_bind. destruct (settle_block ctx tx inTxID h s) as [[[|]|e|] s1]; [done| |done..].
  destruct (IH fuel (h - 1) s1 ltac:(lia) ltac:(lia)) as [Heq Hne]. split; [|done]. rewrite Heq. done.
Qed.

Definition signing_period : Z := GetInt64Value int64Overrides "SigningTransactionPeriod".

(** C33: The search through the blocks ends: as many steps as there are blocks in the
    range, and one, suffice, more change nothing, and the range holds no more
    blocks than the signing period and the coalescing of rescheduled items. *)
Theorem outbound_search_terminates ctx tx inTxID voter coalesce fuel s :
  0 ≤ BlockHeight ctx → 0 ≤ signing_period →
  let latest := latest_block ctx coalesce in
  let earliest := earliest_block ctx voter in
  (blocks_between latest earliest <= fuel)%nat →
  settle_blocks fuel ctx tx inTxID latest earliest s =
    settle_blocks (blocks_between latest earliest) ctx tx inTxID latest earliest s ∧
  fst (settle_blocks fuel ctx tx inTxID latest earliest s) ≠ Ok None ∧
  Z.of_nat (blocks_between latest earliest) <= signing_period + Z.max 0 coalesce + 2.
Proof.
  intros Hh Hp latest earliest Hf. unfold blocks_between in *.
  destruct (settle_blocks_loop ctx tx inTxID earliest _ fuel latest s eq_refl Hf) as [Heq Hne].
  split_and!; [done..|]. subst latest earliest. unfold latest_block, earliest_block. cbv zeta. fold signing_period.
  pose proof (Z.rem_nonneg (BlockHeight ctx) coalesce).
  destruct (_ <? ov_Height voter) eqn:Ho; [apply Z.ltb_lt in Ho|]; destruct (Z.ltb_spec 1 coalesce);
    try (destruct (_ =? 0)); lia.
Qed.

(** The blocks that are searched: back from the latest an item may have been
    moved to, to the block of the inbound or a signing period ago. *)
Definition stored_voter (s : VaultState) (inTxID : string) : ObservedTxVoter :=
  default (NewObservedTxVoter inTxID []) (txInVoters (q_obs (vs_queue s)) !! GetKey inTxID).
Definition coalescing (s : VaultState) (n : Z) : Prop := fst (GetConfigInt64 "RescheduleCoalesceBlocks" (the_core s)) = Ok n.

Lemma AddOutTx_height m t m' b : AddOutTx m t = Ok (m', b) → ov_Height m' = ov_Height m.
Proof.
  unfold AddOutTx. intros Hok. ok_inv. destruct (negb _); [by injection Hok as <- _|].
  destruct (_ && _); [by injection Hok as <- _|]. cbv zeta in Hok. injection Hok as <- _. by destruct (ObservedTx_IsEmpty _).
Qed.

(** What comes before the search: the voter and the event. *)
Definition noted (s s' : VaultState) : Prop :=
  bonds_apart s s' ∧ txOuts s' = txOuts s ∧ (∀ n, coalescing s' n ↔ coalescing s n) ∧ pools (the_core s') = pools (the_core s).
Lemma noted_refl s : noted s s.
Proof. by split_and!. Qed.
Lemma noted_trans s s1 s2 : noted s s1 → noted s1 s2 → noted s s2.
Proof.
  intros (Ha & Ht & Hc & Hp) (Ha' & Ht' & Hc' & Hp').
  split_and!; [by eapply apart_trans|congruence| |congruence]. intros n. by rewrite Hc'.
Qed.
Lemma emitted_noted e s u s' : at_core (EmitEvent e) s = (Ok u, s') → noted s s'.
Proof. intros (c & [= _ <-] & ->)%at_core_ok. by split_and!. Qed.
Lemma noted_pays s s' tx inTxID toi :
  noted s s' → pays_item (the_core s') tx inTxID toi ↔ pays_item (the_core s) tx inTxID toi.
Proof. intros (_ & _ & _ & Hp). unfold pays_item, pays_coin, pool_of. by rewrite Hp. Qed.
Lemma noted_unpaid s s' tx inTxID items : noted s s' → unpaid s' tx inTxID items ↔ unpaid s tx inTxID items.
Proof. intros Hn. apply list.Forall_iff. intros t. by rewrite (noted_pays s s'). Qed.
Lemma noted_none_paid s s' tx inTxID lo hi : noted s s' → none_paid s' tx inTxID lo hi → none_paid s tx inTxID lo hi.
Proof.
  intros Hn Hnone h items Hh Hi. apply (noted_unpaid s s'); [done|]. apply (Hnone h); [done|]. destruct Hn as (_ & -> & _). done.
Qed.

(** The search and what follows it, in the range of a voter. *)
Lemma settle_outbound_cases ctx tx inTxID voter s s' :
  settle_outbound ctx tx inTxID voter s = (Ok (), s') →
  ∃ n, coalescing s n ∧
  (settled_item tx inTxID (latest_block ctx n) (earliest_block ctx voter) s s' ∨
   none_paid s tx inTxID (earliest_block ctx voter) (latest_block ctx n) ∧
   ∃ toSlash s1 s2, Coins_Add (tx_Coins (ot_Tx tx)) (tx_Gas (ot_Tx tx)) = Ok toSlash ∧ noted s s1 ∧
     SlashVault ctx (ObservedPubKey tx) toSlash s1 = (Ok (), s2) ∧ bonds_apart s2 s' ∧ txOuts s' = txOuts s2).
Proof.
  intros Hrun. unfold settle_outbound in Hrun.
  run_step Hrun n s3 E. apply at_core_ok in E as (c & Hc & ->). pose proof Hc as Hcc. apply GetConfigInt64_ok in Hc as ->.
  rewrite with_core_id in Hrun. cbv zeta in Hrun. exists n. split; [unfold coalescing; by rewrite Hcc|].
  run_step Hrun settled s3 E.
  assert (Hsome : settled ≠ None).
  { intros ->. destruct (settle_blocks_loop ctx tx inTxID (earliest_block ctx voter) _ (blocks_between (latest_block ctx n) (earliest_block ctx voter))
      (latest_block ctx n) s eq_refl (le_n _)) as [_ Hne]. by rewrite E in Hne. }
  apply settle_blocks_spec in E. run_step Hrun u s4 E4. destruct u. apply modify_ok in Hrun.
  assert (Hlast : bonds_apart s4 s' ∧ txOuts s' = txOuts s4) by (subst s'; by destruct (_ <? _)). clear Hrun.
  destruct settled as [[|]|]; [| |done].
  - left. apply ret_ok in E4 as [_ ->]. destruct E as [Hitem Hb]. destruct Hlast as [Hl Htl].
    split; [by rewrite Htl|by eapply apart_trans].
  - right. destruct E as [[g ->] Hnone]. split; [done|].
    run_step E4 w s5 E5. unfold outbound_slash in E4. run_step E4 toSlash s6 E6. apply lift_ok in E6 as [Hadd ->].
    exists toSlash, s5, s4. split_and!; [done| |done|apply Hlast..].
    apply (noted_trans _ (put_gasMgr g s)); [by split_and!|].
    destruct (isOutboundFakeGasTX tx); [apply ret_ok in E5 as [_ ->]; apply noted_refl|]. by eapply emitted_noted.
Qed.

(** C5: An observed outbound is accounted for once.  One of the chain's own pays
    nothing in the queue and touches no bond.  Any other marks, of the items that
    it pays -- the inbound, address, vault and coin that were planned, or with
    its gas as much of the gas asset -- the first of the latest block that has
    one in the range searched, and takes no bond; or no item of the range is
    what it pays, none is marked, and the vault it came from is slashed for all
    its coins and gas.  So an item never settles two outbounds, and what was not
    planned is paid by those who signed it. *)
Theorem Outbound_handle_settles_or_slashes ctx tx inTxID s s' :
  TxID_IsEmpty (tx_ID (ot_Tx tx)) = false →
  Outbound_handle ctx tx inTxID s = (Ok (), s') →
  if Chains.Equals (tx_Chain (ot_Tx tx)) SWITCHLYChain then bonds_apart s s' ∧ txOuts s' = txOuts s
  else ∃ n, coalescing s n ∧
    let latest := latest_block ctx n in
    let earliest := earliest_block ctx (stored_voter s inTxID) in
    (open_items s' = open_items s - 1 ∧ bonds_apart s s' ∧
       ∃ h items i toi, (earliest ≤ h ≤ latest)%Z ∧ txOuts s !! h = Some items ∧ items !! i = Some toi ∧
         pays_item (the_core s) tx inTxID toi ∧
         none_paid s tx inTxID (h + 1) latest ∧ unpaid s tx inTxID (take i items) ∧
         txOuts s' = <[h := <[i := set_OutHash (tx_ID (ot_Tx tx)) toi]> items]> (txOuts s)) ∨
    (none_paid s tx inTxID earliest latest ∧
       ∃ toSlash s1 s2, Coins_Add (tx_Coins (ot_Tx tx)) (tx_Gas (ot_Tx tx)) = Ok toSlash ∧
         bonds_apart s s1 ∧ txOuts s1 = txOuts s ∧
         SlashVault ctx (ObservedPubKey tx) toSlash s1 = (Ok (), s2) ∧
         bonds_apart s2 s' ∧ txOuts s' = txOuts s2).
Proof.
  intros Hid Hrun. unfold Outbound_handle in Hrun.
  run_step Hrun voter s1 E. apply observed_ok in E as (o & [= <- <-] & Hs1).
  assert (s1 = s) as -> by (subst; by destruct s as [[]]). clear Hs1. fold (stored_voter s inTxID) in Hrun.
  run_step Hrun r s1 E. apply lift_ok in E as [Hadd ->]. destruct r as [voter' added]. apply AddOutTx_height in Hadd.
  run_step Hrun u s1 E. run_step Hrun v s2 E2.
  assert (Hpre : noted s s2).
  { apply (noted_trans _ s1); [|apply observed_ok in E2 as (o & [= _ <-] & ->); by split_and!].
    destruct added; [by eapply emitted_noted|apply ret_ok in E as [_ ->]; apply noted_refl]. }
  clear E E2. destruct (Chains.Equals _ SWITCHLYChain).
  { apply ret_ok in Hrun as [_ ->]. by destruct Hpre as (? & ? & _). }
  apply settle_outbound_cases in Hrun as (n & Hn & Hcases). exists n. split; [by apply Hpre|]. cbv zeta.
  assert (earliest_block ctx voter' = earliest_block ctx (stored_voter s inTxID)) as Hr by (unfold earliest_block; by rewrite Hadd).
  rewrite Hr in Hcases. destruct Hcases as [Hitem|[Hnone (t & s3 & s4 & Ht & Hs3 & Hslash & Hs4 & Ht4)]]; [left|right].
  - pose proof (settled_open _ _ _ _ _ _ Hid Hitem) as Hopen.
    destruct Hitem as [(h & items & i & toi & Hh & Ho & Hi & Hp & Hlater & Hbefore & Htx) Hb].
    pose proof (proj1 (noted_pays s s2 tx inTxID toi Hpre) Hp). pose proof (noted_none_paid s s2 _ _ _ _ Hpre Hlater).
    pose proof (proj1 (noted_unpaid s s2 tx inTxID _ Hpre) Hbefore). destruct Hpre as (Ha & Htxs & _).
    split_and!; [by rewrite Hopen; unfold open_items; rewrite Htxs|by eapply apart_trans|].
    exists h, items, i, toi. rewrite <- Htxs. split_and!; [lia|lia|done..].
  - split; [by apply (noted_none_paid s s2)|]. destruct (noted_trans _ _ _ Hpre Hs3) as (Ha & Htxs & _).
    exists t, s3, s4. by split_and!.
Qed.
End OutboundFacts.

(** ** Witnesses *)

#[local] Existing Instance plain_keys.
#[local] Existing Instance insertion_sort.

(** Five units of clout were spent, of which the addresses can take three and
    two: the second is asked to take three. *)
Lemma calcReclaim_splits_witness :
  calcReclaim 3 2 5 = Ok (2, 3) ∧ 2 + 3 = Z.min 5 (3 + 2) ∧ (3 = 2 + 1 → 5 = 2 * 2 + 1).
Proof.
  assert (calcReclaim 3 2 5 = Ok (2, 3)) as H by (vm_compute; reflexivity). split; [exact H|].
  destruct (calcReclaim_splits 3 2 5 2 3 ltac:(lia) ltac:(lia) ltac:(lia) H) as (Hsum & _ & _ & Hodd).
  split; [exact Hsum|exact Hodd].
Defined.

(** Half a bitcoin is planned to go out, and is seen to. *)
Definition half_btc : Coin := NewCoin BTCAsset (One / 2).
Definition planned (vault : string) : TxOutItem :=
  mkToi BTCChain (hash_of "A") "bc1to" half_btc "" "" None "OUT:" [NewCoin BTCAsset 2000] 10 vault "" "" None.
Definition hash_of_out : string := hash_of "F".
Definition seen_out : ObservedTx :=
  NewObservedTx (mkTx hash_of_out BTCChain "bc1vault" "bc1to" [half_btc] [NewCoin BTCAsset 1500] "OUT:") 7 "swtcpub1a" 7.
Definition awaiting : VaultState := put_txOuts {[8 := [planned "swtcpub1b"; planned "swtcpub1a"]]} robbed.

(** The same outbound with a satoshi more, and one of the chain itself. *)
Definition seen_more : ObservedTx :=
  NewObservedTx (mkTx hash_of_out BTCChain "bc1vault" "bc1to" [NewCoin BTCAsset (One / 2 + 501)] [NewCoin BTCAsset 1500] "OUT:") 7 "swtcpub1a" 7.

Lemma planned_is_paid : pays_item (the_core awaiting) seen_out (hash_of "A") (planned "swtcpub1a").
Proof. split_and!; [reflexivity|left; left; reflexivity|reflexivity]. Qed.

(** The outbound settles the second item; the one that took too much settles none,
    and the vault is slashed. *)
Lemma Outbound_handle_settles_or_slashes_witness :
  let s1 := snd (Outbound_handle vault_block seen_out (hash_of "A") awaiting) in
  let s2 := snd (Outbound_handle vault_block seen_more (hash_of "A") awaiting) in
  (open_items s1 = open_items awaiting - 1 ∧ bonds_apart awaiting s1) ∧
  open_items s2 = open_items awaiting ∧ none_paid awaiting seen_more (hash_of "A") 8 8.
Proof.
  cbn zeta. assert (fst (Outbound_handle vault_block seen_out (hash_of "A") awaiting) = Ok ()) as H by (vm_compute; reflexivity).
  assert (fst (Outbound_handle vault_block seen_more (hash_of "A") awaiting) = Ok ()) as H2 by (vm_compute; reflexivity).
  assert (open_items (snd (Outbound_handle vault_block seen_more (hash_of "A") awaiting)) = open_items awaiting) as Ho2
    by (vm_compute; reflexivity).
  split; [|split; [exact Ho2|]].
  - destruct (Outbound_handle_settles_or_slashes vault_block seen_out (hash_of "A") awaiting _ eq_refl (run_pair _ _ H))
      as (n & Hn & [(Ho & Hb & _)|(Hnone & _)]); [split; [exact Ho|exact Hb]|].
    exfalso. refine (List.Forall_inv (List.Forall_inv_tail (Hnone 8 _ _ eq_refl)) planned_is_paid).
    injection Hn as <-. split; apply Z.leb_le; vm_compute; reflexivity.
  - destruct (Outbound_handle_settles_or_slashes vault_block seen_more (hash_of "A") awaiting _ eq_refl (run_pair _ _ H2))
      as (n & Hn & [(Ho & _)|(Hnone & _)]); [rewrite Ho2 in Ho; exfalso; lia|].
    injection Hn as <-. intros h items Hh. apply Hnone. assert (h = 8) as -> by lia.
    split; apply Z.leb_le; vm_compute; reflexivity.
Defined.

Lemma outbound_search_terminates_witness :
  let voter := NewObservedTxVoter "A" [] in
  fst (settle_blocks 1000 vault_block seen_out "A" (latest_block vault_block 0) (earliest_block vault_block voter) awaiting) ≠ Ok None ∧
  Z.of_nat (blocks_between (latest_block vault_block 0) (earliest_block vault_block voter)) <= 302.
Proof.
  cbn zeta.
  destruct (outbound_search_terminates vault_block seen_out "A" (NewObservedTxVoter "A" []) 0 1000 awaiting)
    as (_ & Hne & Hb).
  - vm_compute. discriminate.
  - vm_compute. discriminate.
  - apply Nat.leb_le. vm_compute. reflexivity.
  - split; [exact Hne|exact Hb].
Defined.
