(* ===== verification/Internal.v ===== *)
(** * Handlers of the protocol's own transactions

    src/x/switchly/handler_migrate.go, handler_ragnarok.go, handler_noop.go,
    handler_consolidate.go, handler_switch.go with manager_switch_current.go,
    handler_reserve_contrib.go and handler_maint.go, and the internal handler of
    handler.go, which keeps what a handler did only when it succeeds. *)

From S2P Require Import Prelude GoStrings CosmosMath Amounts Assets Coins Pools Constants State Txs MemoTypes TradeAccounts SecuredAssets Swap Halts Liquidity Withdraw Nodes Quorum ObservedTx Attest SwapHandler SwapQueue Messages Dispatch Vaults Gas Slasher Outbound.
Open Scope Z_scope.

(** [PubKey.GetAddress]: the address of a key on a chain. *)
Class KeyAddresses := { key_address : string → Chain → outcome string }.

(** The handlers of messages that are not translated, of which those of loans are
    told the transaction and its address, and the advanced swap queue. *)
Class OtherHandlers `{Bank} := {
  other_Run : Ctx → option (string * string) → Msg → M VaultState ();
  AddSwapQueueItem : Ctx → MsgSwap → M VaultState ();
}.

Section Internal.
  Context `{CosmosMath} `{Bank} `{Env} `{!PubKeys} `{!SortSlice} `{!AddressCodec} `{!KeyAddresses}.
Abbreviation V := (M VaultState).

(** ** Migrations and ragnarok *)

Definition address_or_empty (o : outcome string) : string := match o with Ok a => a | _ => "" end.

(** The address an item is sent from: that of the vault's key for the chain, or
    of the key itself when the vault is gone. *)
Definition item_sender (ctx : Ctx) (toi : TxOutItem) : V string :=
  let fallback := address_or_empty (key_address (toi_VaultPubKey toi) (toi_Chain toi)) in
  found ← attempt (GetVault ctx (toi_VaultPubKey toi));
  match found with
  | inl vault =>
      if Vault_IsEmpty vault then mret fallback
      else match key_address (PubKeyForChain vault (toi_Chain toi)) (toi_Chain toi) with
           | Ok a => mret a
           | _ => mret fallback
           end
  | inr _ => mret fallback
  end.


(** The coin, or a coin of the gas asset that with its gas is what was planned
    and has no more gas than planned. *)
Definition own_coin_matches (coins_match : list Coin → Coin → bool) (tx : ObservedTx) (toi : TxOutItem) : V bool :=
  let asset := GetGasAsset (toi_Chain toi) in
  let maxGasAmt := gas_amount (toi_MaxGas toi) asset in
  let realGasAmt := gas_amount (tx_Gas (ot_Tx tx)) asset in
  if coins_match (tx_Coins (ot_Tx tx)) (toi_Coin toi) then mret true
  else if Assets.Equals (coin_asset (toi_Coin toi)) asset then
    intendToSpend ← lift (uadd (coin_amount (toi_Coin toi)) maxGasAmt);
    actualSpend ← lift (uadd (gas_amount (tx_Coins (ot_Tx tx)) asset) realGasAmt);
    mret ((intendToSpend =? actualSpend) && (realGasAmt <=? maxGasAmt))
  else mret false.

Definition own_item_matches (coins_match : list Coin → Coin → bool) (ctx : Ctx) (tx : ObservedTx) (toi : TxOutItem) : V bool :=
  fromAddress ← item_sender ctx toi;
  if TxID_Equals (toi_InHash toi) BlankTxID && TxID_IsEmpty (toi_OutHash toi) &&
     Address_Equals (toi_ToAddress toi) (ToAddress (ot_Tx tx)) &&
     Address_Equals fromAddress (FromAddress (ot_Tx tx))
  then own_coin_matches coins_match tx toi
  else mret false.

Fixpoint find_own_item (coins_match : list Coin → Coin → bool) (ctx : Ctx) (tx : ObservedTx) (i : nat) (items : list TxOutItem)
    : V (option (nat * TxOutItem)) :=
  match items with
  | [] => mret None
  | toi :: r =>
      m ← own_item_matches coins_match ctx tx toi;
      if m : bool then mret (Some (i, toi)) else find_own_item coins_match ctx tx (S i) r
  end.

(** The first item of a block that matches gets the transaction's hash. *)
Definition settle_own (coins_match : list Coin → Coin → bool) (ctx : Ctx) (tx : ObservedTx) (height : Z) : V bool :=
  items ← GetTxOut height;
  found ← find_own_item coins_match ctx tx 0 items;
  match found with
  | None => mret false
  | Some (i, toi) => _ ← SetTxOut height (<[i := set_OutHash (tx_ID (ot_Tx tx)) toi]> items); mret true
  end.

Definition Migrate_handle (ctx : Ctx) (msg : MsgAtHeight) : V () :=
  settled ← settle_own Contains ctx (ah_Tx msg) (ah_BlockHeight msg);
  _ ← (if settled : bool then mret () else outbound_slash ctx (ah_Tx msg));
  SetLastSignedHeight (ah_BlockHeight msg).
Definition Migrate_Run (ctx : Ctx) (msg : MsgAtHeight) : V () :=
  if 3 <=? versionMajor ctx then
    _ ← check (AtHeight_ValidateBasic msg);
    Migrate_handle ctx msg
  else throw errInvalidVersion.

(** Every block from one height on, a signing period apart, may have an item of
    the transaction; [None] when the steps do not suffice. *)
Definition exactly_coin (coins : list Coin) (c : Coin) : bool := Coins_EqualsEx coins [c].
Fixpoint settle_ragnarok (fuel : nat) (ctx : Ctx) (tx : ObservedTx) (height period : Z) (settled : bool) : V (option bool) :=
  match fuel with
  | O => mret None
  | S fuel =>
      if BlockHeight ctx <? height then mret (Some settled)
      else
        found ← settle_own exactly_coin ctx tx height;
        _ ← (if found && negb settled
             then modify (λ s, put_ragnarokPending (to_i64 (ragnarokPending s - 1)) s) else mret ());
        settle_ragnarok fuel ctx tx (height + period) period (settled || found)
  end.
Definition signing_period_of : Z := GetInt64Value int64Overrides "SigningTransactionPeriod".
Definition ragnarok_steps (ctx : Ctx) (height : Z) : nat := S (Z.to_nat (BlockHeight ctx - height + 1)).
Definition Ragnarok_handle (ctx : Ctx) (msg : MsgAtHeight) : V () :=
  if Chains.Equals (tx_Chain (ot_Tx (ah_Tx msg))) SWITCHLYChain then mret ()
  else
    settled ← settle_ragnarok (ragnarok_steps ctx (ah_BlockHeight msg)) ctx (ah_Tx msg) (ah_BlockHeight msg) signing_period_of false;
    _ ← (match settled with Some true => mret () | _ => outbound_slash ctx (ah_Tx msg) end);
    SetLastSignedHeight (ah_BlockHeight msg).
Definition Ragnarok_Run (ctx : Ctx) (msg : MsgAtHeight) : V () :=
  if 3 <=? versionMajor ctx then
    _ ← check (AtHeight_ValidateBasic msg);
    Ragnarok_handle ctx msg
  else throw errBadVersion.

(** ** No-ops and consolidations *)

(** A transaction that should not have been credited is taken out again. *)
Definition NoOp_handle (ctx : Ctx) (msg : MsgNoOp) : V () :=
  if (String.length (no_Action msg) =? 0)%nat || negb (EqualFold (no_Action msg) "novault") then mret ()
  else
    found ← attempt (GetVault ctx (ObservedPubKey (no_Tx msg)));
    match found with
    | inl vault =>
        vault ← lift (SubFunds (tx_Coins (ot_Tx (no_Tx msg))) vault);
        logged (SetVault vault)
    | inr _ => mret ()
    end.
Definition NoOp_Run (ctx : Ctx) (msg : MsgNoOp) : V () :=
  if 3 <=? versionMajor ctx then
    _ ← check (NoOp_ValidateBasic msg);
    NoOp_handle ctx msg
  else throw errBadVersion.

Definition Consolidate_handle (ctx : Ctx) (tx : ObservedTx) : V () :=
  found ← attempt (GetVault ctx (ObservedPubKey tx));
  let shouldSlash := negb (Address_Equals (FromAddress (ot_Tx tx)) (ToAddress (ot_Tx tx))) ||
                     match found with inl vault => negb (IsAsgard vault) | inr _ => false end in
  if shouldSlash then outbound_slash ctx tx else mret ().
Definition Consolidate_Run (ctx : Ctx) (tx : ObservedTx) (signer : string) : V () :=
  if 3 <=? versionMajor ctx then
    _ ← check (NoOp_ValidateBasic (mkMsgNoOp tx signer ""));
    Consolidate_handle ctx tx
  else throw errBadVersion.

(** ** Reserve contributions and maintenance *)

(** The coins were moved by the deposit handler. *)
Definition Reserve_Run (ctx : Ctx) (msg : MsgReserveContributor) : V () :=
  if 3 <=? versionMajor ctx then
    _ ← check (Reserve_ValidateBasic msg);
    at_core (EmitEvent (EvReserve (rc_Address (re_Contributor msg)) (rc_Amount (re_Contributor msg)) (tx_ID (re_Tx msg))))
  else throw errBadVersion.

Definition set_Maintenance (b : bool) (m : NodeAccount) : NodeAccount :=
  mkNodeAccount (NodeAddress m) (na_Status m) (na_PubKeySet m) (ValidatorConsPubKey m) (na_Bond m) (ActiveBlockHeight m) (BondAddress m) (StatusSince m) (SignerMembership m) (RequestedToLeave m) (ForcedToLeave m) (LeaveScore m) (na_Type m) (MissingBlocks m) (IPAddress m) (na_Version m) b.
Definition validateMaintAuth (ctx : Ctx) (acc signer : string) : V () :=
  found ← attempt (observed (GetNodeAccount ctx acc));
  match found with
  | inr _ => throw (acc +:+ " is not authorized")
  | inl na =>
      _ ← fail_when (NodeAccount_IsEmpty na) (acc +:+ " is not authorized");
      bondAddr ← lift (AccAddressFromBech32 (BondAddress na));
      fail_when (negb (bool_decide (bondAddr = signer))) (acc +:+ " is not authorized")
  end.
Definition Maint_handle (ctx : Ctx) (msg : MsgMaint) : V () :=
  found ← attempt (observed (GetNodeAccount ctx (ma_NodeAddress msg)));
  match found with
  | inr _ => throw ("unable to find account: " +:+ ma_NodeAddress msg)
  | inl na =>
      let na := set_Maintenance (negb (Maintenance na)) na in
      _ ← observed (SetNodeAccount ctx na);
      at_core (EmitEvent (EvMaintenance (ma_NodeAddress msg) (Maintenance na)))
  end.
Definition Maint_Run (ctx : Ctx) (msg : MsgMaint) : V () :=
  _ ← check (Maint_ValidateBasic msg);
  _ ← validateMaintAuth ctx (ma_NodeAddress msg) (ma_Signer msg);
  Maint_handle ctx msg.
End Internal.

(** ** Assets that are switched for native ones *)

Section Switching.
  Context `{CosmosMath} `{Bank} `{Env} `{!Managers} `{!PubKeys} `{!AddressCodec}.
Abbreviation V := (M VaultState).

Definition GaiaZeroAddress : string := "cosmos100000000000000000000000000000000708mjz".
Definition switchMap : list string :=
  ["GAIA.KUJI"; "GAIA.RKUJI"; "GAIA.FUZN"; "GAIA.LVN"; "GAIA.WINK"; "GAIA.NAMI"; "GAIA.AUTO"; "GAIA.LQDY"; "GAIA.NSTK"].
Definition IsSwitch_asset (a : Asset) : bool := bool_decide (Assets.Str a ∈ switchMap).

(** The native asset of the same symbol is minted for the owner; the assets
    switched go to an address that has no key. *)
Definition errNotAuthorized : error := "not authorized".
Definition switch_asset (a : Asset) (amount : Z) (owner assetAddr txID : string) : K string :=
  if IsSwitch_asset a then
    let native := mkAsset SWITCHLYChain (symbol a) (ticker a) false false false in
    _ ← MintAndSendToAccount owner (NewCoin native amount);
    _ ← EmitEvent (EvSwitch amount native assetAddr owner txID);
    _ ← lift (Coin_Native (NewCoin native amount));
    mret GaiaZeroAddress
  else throw errNotAuthorized.

Definition checkEnabled (ctx : Ctx) (a : Asset) : K () :=
  m ← GetMimir ("EnableSwitch-" +:+ Chains.Str (chain a) +:+ "-" +:+ Assets.SymbolString a);
  fail_when ((m <=? 0) || (BlockHeight ctx <=? m)) (Assets.Str a +:+ " switching is not enabled").

Definition Switch_Run (ctx : Ctx) (msg : MsgSwitch) : K () :=
  _ ← checkEnabled ctx (sw_Asset msg);
  _ ← check (Switch_ValidateBasic msg);
  addr ← switch_asset (sw_Asset msg) (sw_Amount msg) (sw_Address msg) (FromAddress (sw_Tx msg)) (tx_ID (sw_Tx msg));
  let toi := plain_toi (Assets.GetChain (sw_Asset msg)) (tx_ID (sw_Tx msg)) addr (NewCoin (sw_Asset msg) (sw_Amount msg)) in
  r ← attempt (TryAddTxOutItem ctx toi 0);
  match r with
  | inl true => mret ()
  | inl false => throw errFailAddOutboundTx
  | inr e => throw (errFailAddOutboundTx +:+ ": " +:+ e)
  end.
End Switching.

(** ** Dispatch *)

Section Handler.
  Context `{CosmosMath} `{Bank} `{Env} `{!Managers} `{!GasManager} `{!SaverSwaps} `{!WithdrawSwaps} `{!SwapParams} `{!FollowOns} `{!PubKeys} `{!SortSlice} `{!AddressCodec} `{!KeyAddresses} `{!OtherHandlers}.
Abbreviation V := (M VaultState).

Definition internal_Run (ctx : Ctx) (loan : option (string * string)) (m : Msg) : V () :=
  match m with
  | Msg_OutboundTx m => OutboundTx_Run ctx m
  | Msg_RefundTx m => RefundTx_Run ctx m
  | Msg_Swap m => in_queue (swap_Run ctx m)
  | Msg_Reserve m => Reserve_Run ctx m
  | Msg_Maint m => Maint_Run ctx m
  | Msg_Donate m => at_core (donate_Run ctx m)
  | Msg_Withdraw m => at_core (withdraw_Run ctx m)
  | Msg_AddLiquidity m => at_core (add_Run ctx m)
  | Msg_Migrate m => Migrate_Run ctx m
  | Msg_Ragnarok m => Ragnarok_Run ctx m
  | Msg_NoOp m => NoOp_Run ctx m
  | Msg_Consolidate tx signer => Consolidate_Run ctx tx signer
  | Msg_TradeDeposit m => at_core (deposit_Run ctx m)
  | Msg_TradeWithdrawal m => at_core (withdrawal_Run ctx m)
  | Msg_SecuredDeposit m => at_core (sadeposit_Run ctx m)
  | Msg_SecuredWithdraw m => at_core (sawithdraw_Run ctx m)
  | Msg_Switch m => at_core (Switch_Run ctx m)
  | _ => other_Run ctx loan m
  end.

(** A context that caches the store: when a handler fails the store is as it
    was, but what the managers keep in memory stays. *)
Definition forget (s s' : VaultState) : VaultState := put_gasMgr (gasMgr s') (put_observing (observing s') s).
Definition internal_handler (ctx : Ctx) (loan : option (string * string)) (m : Msg) : V () := λ s,
  match internal_Run ctx loan m s with
  | (Err e, s') => (Err e, forget s s')
  | r => r
  end.
End Handler.

(** ** The search of a ragnarok transaction ends *)

Section InternalFacts.
  Context `{CosmosMath} `{Bank} `{Env} `{!PubKeys} `{!SortSlice} `{!AddressCodec} `{!KeyAddresses}.

(** The steps counted for a start height suffice, whatever the period. *)
Lemma settle_ragnarok_ends ctx tx period : 0 < period →
  ∀ fuel height settled s, (ragnarok_steps ctx height <= fuel)%nat →
  fst (settle_ragnarok fuel ctx tx height period settled s) ≠ Ok None.
Proof.
  intros Hp. unfold ragnarok_steps. induction fuel as [|fuel IH]; intros height settled s Hf; [lia|].
  cbn. destruct (Z.ltb_spec (BlockHeight ctx) height); [done|].
  unfold mbind, M_bind. destruct (settle_own _ ctx tx height s) as [[found|e|] s1]; [|done..].
  destruct (found && negb settled); apply IH; lia.
Qed.
End InternalFacts.
