(* ===== verification/Inbound.v ===== *)
(** * What happens to observed transactions

    src/x/switchly/handler_observed_tx_helpers.go, handler_observed_txin.go,
    handler_observed_txout.go and handler_observed_tx_quorum.go, addGasFees of
    helpers.go and types/type_tss_metric.go: once the validators agree on a
    transaction, the vault is credited or debited and the message that its memo
    asks for is handled, queued or refused with a refund. *)

From S2P Require Import Prelude Runs GoStrings CosmosMath Amounts Assets Coins Pools Constants State Txs MemoTypes MemoParser MemoTexts TradeAccounts SecuredAssets Swap Halts Liquidity Withdraw Nodes Quorum ObservedTx Attest Refunds SwapHandler SwapQueue Messages Dispatch Vaults Gas Layers Slasher Outbound Internal.
Open Scope Z_scope.

(** The bytes of a transaction that attestations sign. *)
Class TxPayload := { tx_payload : ObservedTx → outcome string }.

Definition CodeTxFail : Z := 100.
Definition CodeInvalidVault : Z := 104.
Definition CodeInvalidMemo : Z := 105.
(** The SDK's code of an unauthorized request. *)
Definition ErrUnauthorized_code : Z := 4.

Definition set_memo (memo : string) (t : ObservedTx) : ObservedTx :=
  let tx := ot_Tx t in
  mkObservedTx (mkTx (tx_ID tx) (tx_Chain tx) (FromAddress tx) (ToAddress tx) (tx_Coins tx) (tx_Gas tx) memo)
    (ot_Status t) (OutHashes t) (ot_BlockHeight t) (ot_Signers t) (ObservedPubKey t) (KeysignMs t)
    (FinaliseHeight t) (ObservedTx.Aggregator t) (ObservedTx.AggregatorTarget t) (ObservedTx.AggregatorTargetLimit t).
Definition set_UpdatedVault (m : ObservedTxVoter) : ObservedTxVoter :=
  mkVoter (ov_TxID m) (ov_Tx m) (ov_Height m) (ov_Txs m) (Actions m) (OutTxs m) (FinalisedHeight m)
    true (Reverted m) (OutboundHeight m).

(** ** The time nodes take to sign *)

(** The loop over the times changes a copy of the one that is there. *)
Definition AddNodeTssTime (addr : string) (ms : Z) (times : list (string * Z)) : list (string * Z) :=
  if existsb (λ t, bool_decide (fst t = addr)) times then times else (times ++ [(addr, ms)])%list.
Definition getMedianTime `{CosmosMath} (times : list (string * Z)) : outcome Z := GetMedianInt64 (snd <$> times).

Section Inbound.
  Context `{CosmosMath} `{Bank} `{Env} `{!Managers} `{!GasManager} `{!SaverSwaps} `{!WithdrawSwaps} `{!SwapParams} `{!FollowOns} `{!PubKeys} `{!SortSlice} `{!AddressCodec} `{!TokenLists} `{!KeyAddresses} `{!Signatures} `{!TxPayload} `{!OtherHandlers}.
Abbreviation V := (M VaultState).

Definition GetTssKeysignMetric (txID : string) : V (list (string * Z)) :=
  gets (λ s, default [] (keysignMetrics s !! GetKey txID)).
Definition SetTssKeysignMetric (txID : string) (times : list (string * Z)) : V () :=
  modify (λ s, put_keysignMetrics (<[GetKey txID := times]> (keysignMetrics s)) s).

(** ** Inbound transactions *)

Definition ensureVaultAndGetTxInVoter (pk txID : string) : V ObservedTxVoter :=
  known ← VaultExists pk;
  _ ← fail_when (negb known) ("vault not found for observed tx in pubkey: " +:+ pk);
  observed (GetObservedTxInVoter txID).

(** The vault gets the coins when the transaction is final, or at once when it
    comes from another vault; never twice. *)
Definition credit_inbound (hasFinalised : bool) (memo : Memo_) (tx : ObservedTx) (vault : Vault) (voter : ObservedTxVoter)
    : outcome (Vault * ObservedTxVoter) :=
  if (hasFinalised || IsType memo TxMigrate) && (IsAsgard vault && negb (UpdatedVault voter)) then
    vault ← (if Address_Equals (FromAddress (ot_Tx tx)) (ToAddress (ot_Tx tx)) then Ok vault
             else v ← AddFunds (tx_Coins (ot_Tx tx)) vault; Ok (set_counts (to_i64 (InboundTxCount v + 1)) (OutboundTxCount v) v));
    Ok (vault, set_UpdatedVault voter)
  else Ok (vault, voter).

Definition AdvSwapQueueEnabled : K bool := v ← GetConfigInt64 "EnableAdvSwapQueue"; mret (0 <? v).
Definition addSwapDirect (msg : MsgSwap) : V () :=
  if Coins_IsEmpty (tx_Coins (sm_Tx msg)) then mret () else logged (in_queue (SetSwapQueueItem msg 0)).
Definition addSwap (ctx : Ctx) (msg : MsgSwap) : V () :=
  adv ← at_core AdvSwapQueueEnabled;
  if adv : bool then
    source ← lift (first_coin (sm_Tx msg));
    _ ← at_core (EmitEvent (EvLimitSwap source (NewCoin (TargetAsset msg) (sm_TradeTarget msg)) (tx_ID (sm_Tx msg))));
    logged (AddSwapQueueItem ctx msg)
  else addSwapDirect msg.

Definition halt_view (m : Msg) : option HaltMsg :=
  match m with
  | Msg_Swap m => Some (SwapMsg (tx_Coins (sm_Tx m)) (TargetAsset m))
  | Msg_AddLiquidity m => Some (AddMsg (al_Asset m))
  | _ => None
  end.
Definition trading_halted (ctx : Ctx) (m : Msg) : V bool :=
  match halt_view m with
  | Some h =>
      halted ← at_core (IsTradingHalt ctx h);
      if halted : bool then mret true else at_core RagnarokInProgress
  | None => mret false
  end.

Definition refund (ctx : Ctx) (tx : ObservedTx) (code : Z) (reason : string) : V () :=
  observed (refundTx ctx (ot_Tx tx) (ObservedPubKey tx) code reason "").

Definition loan_view (tx : ObservedTx) (m : Msg) : option (string * string) :=
  match m with
  | Msg_LoanOpen _ | Msg_LoanRepayment _ => Some (tx_ID (ot_Tx tx), ToAddress (ot_Tx tx))
  | _ => None
  end.

(** A handler's failure is answered with a refund; a transaction that leads to
    no outbound is done. *)
Definition handle_msg (ctx : Ctx) (tx : ObservedTx) (memo : Memo_) (m : Msg) : V () :=
  r ← attempt (internal_handler ctx (loan_view tx m) m);
  match r with
  | inr e => refund ctx tx CodeTxFail e
  | inl _ =>
      if HasOutbound (GetType memo) then mret ()
      else
        voter ← observed (GetObservedTxInVoter (tx_ID (ot_Tx tx)));
        observed (SetObservedTxInVoter (Voter_SetDone voter))
  end.

Definition process_msg (ctx : Ctx) (tx : ObservedTx) (memo : Memo_) (m : Msg) : V () :=
  halted ← trading_halted ctx m;
  if halted : bool then logged (refund ctx tx ErrUnauthorized_code "trading halted")
  else match m with
  | Msg_Swap msg => addSwap ctx msg
  | _ =>
      coin ← lift (first_coin (ot_Tx tx));
      if negb (match m with Msg_Switch _ => true | _ => false end) && IsSwitch_asset (coin_asset coin)
      then logged (refund ctx tx CodeTxFail "asset is a switch asset")
      else handle_msg ctx tx memo m
  end.

(** A final transaction to a vault. *)
Definition process_final (ctx : Ctx) (tx : ObservedTx) (voter : ObservedTxVoter) (vault : Vault) (memo : Memo_) (signer : string) : V () :=
  if bool_decide (v_Status vault = InactiveVault)
  then logged (refund ctx tx CodeInvalidVault "observed inbound tx to an inactive vault")
  else
    r ← attempt (at_core (processOneTxIn ctx (ov_Tx voter) signer));
    match r with
    | inr e => logged (refund ctx tx CodeInvalidMemo e)
    | inl m => process_msg ctx tx memo m
    end.

(** The vault, the chain's height and the voter are saved before anything is
    done; [None] when the vault cannot be saved. *)
Definition file_inbound (hasFinalised : bool) (tx : ObservedTx) (voter : ObservedTxVoter) (vault : Vault) (memo : Memo_)
    : V (option (Vault * ObservedTxVoter)) :=
  '(vault, voter) ← lift (credit_inbound hasFinalised memo tx vault voter);
  _ ← logged (SetLastChainHeight (tx_Chain (ot_Tx tx)) (ot_BlockHeight tx));
  _ ← observed (SetObservedTxInVoter voter);
  saved ← attempt (SetVault vault);
  mret match saved with inl _ => Some (vault, voter) | inr _ => None end.

(** What the validators' agreement sets off. *)
Definition on_inbound_quorum (ctx : Ctx) (signer : string) (active : list NodeAccount) (tx : ObservedTx) (voter : ObservedTxVoter) : V () :=
  if Reverted voter then mret ()
  else
    found ← attempt (GetVault ctx (ObservedPubKey tx));
    match found with
    | inr _ => mret ()
    | inl vault =>
        let voter := set_ov_Tx (set_memo (Memo (ot_Tx tx)) (ov_Tx voter)) voter in
        let hasFinalised := HasFinalised voter active in
        '(memo, _) ← at_core (read_memo ctx (Memo (ot_Tx tx)));
        filed ← file_inbound hasFinalised tx voter vault memo;
        match filed with
        | None => mret ()
        | Some (vault, voter) =>
            if negb (IsAsgard vault) || Memo_IsOutbound memo || Memo_IsInternal memo then mret ()
            else
              _ ← AppendObserver (tx_Chain (ot_Tx tx)) (GetSigners (ov_Tx voter));
              if negb hasFinalised then mret () else process_final ctx tx voter vault memo signer
        end
    end.

Definition handleObservedTxInQuorum (ctx : Ctx) (signer : string) (active : list NodeAccount) (tx : ObservedTx)
    (voter : ObservedTxVoter) (observers : list string) (isQuorum : bool) : V () :=
  if isQuorum then on_inbound_quorum ctx signer active tx voter
  else if (ov_Height voter =? BlockHeight ctx) || (FinalisedHeight voter =? BlockHeight ctx)
  then AppendObserver (tx_Chain (ot_Tx tx)) observers
  else mret ().

(** ** Outbound transactions *)

(** The gas comes from the vault; the reserve pays it back to the pool at the end
    of the block, unless the vault is inactive or the network is wound up. *)
Definition addGasFees (ctx : Ctx) (tx : ObservedTx) : V () :=
  if Coins_IsEmpty (tx_Gas (ot_Tx tx)) then mret ()
  else
    known ← VaultExists (ObservedPubKey tx);
    if negb known then mret ()
    else
      vault ← GetVault ctx (ObservedPubKey tx);
      vault ← lift (SubFunds (tx_Gas (ot_Tx tx)) vault);
      _ ← SetVault vault;
      if bool_decide (v_Status vault = InactiveVault) then mret ()
      else
        rag ← at_core RagnarokInProgress;
        if rag && negb (Coin_IsEmpty (GetCoin (tx_Coins (ot_Tx tx)) (GetGasAsset (tx_Chain (ot_Tx tx))))) then mret ()
        else
          let outAsset := match tx_Coins (ot_Tx tx) with c :: _ => coin_asset c | [] => EmptyAsset end in
          AddGasAsset outAsset (tx_Gas (ot_Tx tx)) true.

Definition ensureVaultAndGetTxOutVoter (pk txID : string) (observers : outcome (list string)) (keysignMs : Z) : V ObservedTxVoter :=
  observers ← lift observers;
  known ← VaultExists pk;
  _ ← fail_when (negb known) ("vault not found for observed tx out pubkey: " +:+ pk);
  _ ← (if 0 <? keysignMs then
         times ← GetTssKeysignMetric txID;
         SetTssKeysignMetric txID (fold_left (λ ts o, AddNodeTssTime o keysignMs ts) observers times)
       else mret ());
  observed (GetObservedTxOutVoter txID).

(** [GetTx] returns a pointer: whether it is to the voter's own transaction. *)
Definition is_own_tx (m : ObservedTxVoter) (nas : list NodeAccount) : bool :=
  (negb (ObservedTx_IsEmpty (ov_Tx m)) && IsFinal (ov_Tx m)) ||
  (ObservedTx_IsEmpty (getConsensusTx m nas true) && ObservedTx_IsEmpty (getConsensusTx m nas false)).

(** A vault that sent what nobody could have asked for is slashed. *)
Definition sent_extra (ctx : Ctx) (tx : ObservedTx) : V () :=
  found ← attempt (GetVault ctx (ObservedPubKey tx));
  match found with
  | inr _ => mret ()
  | inl vault =>
      toSlash ← lift (Coins_Add (tx_Coins (ot_Tx tx)) (tx_Gas (ot_Tx tx)));
      _ ← logged (SlashVault ctx (ObservedPubKey tx) toSlash);
      vault ← lift (SubFunds toSlash vault);
      logged (SetVault vault)
  end.

Definition emit_keysign (tx : ObservedTx) : V () :=
  if 0 <? KeysignMs tx then
    times ← GetTssKeysignMetric (tx_ID (ot_Tx tx));
    median ← lift (getMedianTime times);
    at_core (EmitEvent (EvKeysignMetric (tx_ID (ot_Tx tx)) median))
  else mret ().

Fixpoint remove_folded (c : string) (l : list string) : list string :=
  match l with [] => [] | x :: r => if EqualFold c x then r else x :: remove_folded c r end.
Definition unfreeze (coins : list Coin) (frozen : list string) : list string :=
  fold_left (λ l c, remove_folded (Chains.Str (Assets.GetChain (coin_asset c))) l) coins frozen.

(** The vault after it sent the coins: a migration is no longer pending, a
    retiring vault without funds is inactive, and the chains of the coins are not
    frozen. *)
Definition debit_outbound (ctx : Ctx) (tx : ObservedTx) (memo : Memo_) (vault : Vault) : outcome Vault :=
  vault ← (if Address_Equals (FromAddress (ot_Tx tx)) (ToAddress (ot_Tx tx)) then Ok vault
           else v ← SubFunds (tx_Coins (ot_Tx tx)) vault; Ok (set_counts (InboundTxCount v) (to_i64 (OutboundTxCount v + 1)) v));
  let vault := if IsAsgard vault && IsType memo TxMigrate
               then RemovePendingTxBlockHeights (GetBlockHeight memo) vault else vault in
  let vault := if negb (HasFunds vault) && IsRetiring vault
               then Vault_UpdateStatus InactiveVault (BlockHeight ctx) vault else vault in
  Ok (set_Frozen (unfreeze (tx_Coins (ot_Tx tx)) (Frozen vault)) vault).

(** The handler first, then the vault. *)
Definition process_outbound (ctx : Ctx) (tx txOut : ObservedTx) (voter : ObservedTxVoter) (memo : Memo_) (m : Msg) : V () :=
  gas ← attempt (addGasFees ctx tx);
  match gas with
  | inr _ => mret ()
  | inl _ =>
      _ ← AppendObserver (tx_Chain (ot_Tx tx)) (GetSigners txOut);
      _ ← emit_keysign tx;
      r ← attempt (internal_handler ctx None m);
      match r with
      | inr _ => mret ()
      | inl _ =>
          _ ← observed (SetObservedTxOutVoter (Voter_SetDone voter));
          found ← attempt (GetVault ctx (ObservedPubKey tx));
          match found with
          | inr _ => mret ()
          | inl vault => vault ← lift (debit_outbound ctx tx memo vault); logged (SetVault vault)
          end
      end
  end.

Definition handleObservedTxOutQuorum (ctx : Ctx) (signer : string) (active : list NodeAccount) (tx : ObservedTx)
    (voter : ObservedTxVoter) (observers : list string) (isQuorum : bool) : V () :=
  if negb isQuorum then
    if ov_Height voter =? BlockHeight ctx then AppendObserver (tx_Chain (ot_Tx tx)) observers else mret ()
  else
    '(memo, _) ← at_core (read_memo ctx (Memo (ot_Tx tx)));
    if Memo_IsEmpty memo || Memo_IsInbound memo then sent_extra ctx tx
    else
      let own := is_own_tx voter active in
      let txOut := set_memo (Memo (ot_Tx tx)) (GetTx voter active) in
      let voter := if own then set_ov_Tx txOut voter else voter in
      r ← attempt (at_core (processOneTxIn ctx txOut signer));
      match r with
      | inr _ => mret ()
      | inl m => if Chains.IsEmpty (tx_Chain (ot_Tx tx)) then mret () else process_outbound ctx tx txOut voter memo m
      end.

(** ** The messages *)

(** [MsgObservedTxIn] and [MsgObservedTxOut]: one validator's observations. *)
Record MsgObservedTxs := mkMsgObservedTxs { mo_Txs : list ObservedTx; mo_Signer : string }.

Definition observation_ok (inbound : bool) (tx : ObservedTx) : outcome () :=
  match ObservedTx_Valid tx with
  | Some e => Err e
  | None =>
      coin ← first_coin (ot_Tx tx);
      obAddr ← key_address (ObservedPubKey tx) (Assets.GetChain (coin_asset coin));
      if negb (Address_Equals (if inbound then ToAddress (ot_Tx tx) else FromAddress (ot_Tx tx)) obAddr)
      then Err ("request is not an " +:+ (if inbound then "inbound" else "outbound") +:+ " observed transaction")
      else if (0 <? length (ot_Signers tx))%nat then Err "signers must be empty"
      else if (0 <? length (OutHashes tx))%nat then Err "out hashes must be empty"
      else if negb (bool_decide (ot_Status tx = Status_incomplete)) then Err "status must be incomplete"
      else Ok ()
  end.
Fixpoint observations_ok (inbound : bool) (txs : list ObservedTx) : outcome () :=
  match txs with [] => Ok () | tx :: r => _ ← observation_ok inbound tx; observations_ok inbound r end.
Definition Observed_ValidateBasic (inbound : bool) (m : MsgObservedTxs) : outcome () :=
  if bool_decide (mo_Signer m = "") then Err "invalid address"
  else if (length (mo_Txs m) =? 0)%nat then Err "Txs cannot be empty"
  else observations_ok inbound (mo_Txs m).

Definition observed_validate (ctx : Ctx) (inbound : bool) (msg : MsgObservedTxs) : V () :=
  _ ← lift (Observed_ValidateBasic inbound msg);
  signed ← observed (isSignedByActiveNodeAccounts ctx [mo_Signer msg]);
  fail_when (negb signed) (mo_Signer msg +:+ " are not authorized").

(** Transactions to unknown vaults are passed over. *)
Fixpoint observe_in (ctx : Ctx) (signer : string) (active : list NodeAccount) (txs : list ObservedTx) : V () :=
  match txs with
  | [] => mret ()
  | tx :: r =>
      found ← attempt (ensureVaultAndGetTxInVoter (ObservedPubKey tx) (tx_ID (ot_Tx tx)));
      match found with
      | inr _ => observe_in ctx signer active r
      | inl voter =>
          '(voter, isQuorum) ← observed (processTxInAttestation ctx voter active tx signer true);
          _ ← handleObservedTxInQuorum ctx signer active tx voter (GetSigners (ov_Tx voter)) isQuorum;
          observe_in ctx signer active r
      end
  end.
Fixpoint observe_out (ctx : Ctx) (signer : string) (active : list NodeAccount) (txs : list ObservedTx) : V () :=
  match txs with
  | [] => mret ()
  | tx :: r =>
      found ← attempt (ensureVaultAndGetTxOutVoter (ObservedPubKey tx) (tx_ID (ot_Tx tx)) (Ok [signer]) (KeysignMs tx));
      match found with
      | inr _ => observe_out ctx signer active r
      | inl voter =>
          '(voter, isQuorum) ← observed (processTxOutAttestation ctx voter active tx signer true);
          _ ← logged (handleObservedTxOutQuorum ctx signer active tx voter [signer] isQuorum);
          observe_out ctx signer active r
      end
  end.
Definition ObservedTxIn_Run (ctx : Ctx) (msg : MsgObservedTxs) : V () :=
  _ ← observed_validate ctx true msg;
  active ← observed ListActiveValidators;
  observe_in ctx (mo_Signer msg) active (mo_Txs msg).
Definition ObservedTxOut_Run (ctx : Ctx) (msg : MsgObservedTxs) : V () :=
  _ ← observed_validate ctx false msg;
  active ← observed ListActiveValidators;
  observe_out ctx (mo_Signer msg) active (mo_Txs msg).

(** [MsgObservedTxQuorum]: one transaction with attestations of many. *)
Record QuorumTx := mkQuorumTx { qt_Tx : ObservedTx; qt_Inbound : bool; qt_Attestations : list (option Attestation) }.

Definition attestation_signer (att : option Attestation) : outcome string :=
  match att with Some a => Ok (PubKey_Address (att_PubKey a)) | None => Panic end.
Definition quorumSignersCommon (atts : list (option Attestation)) : outcome (list string) := map_outcome attestation_signer atts.
Definition Quorum_ValidateBasic (q : QuorumTx) (signer : string) : outcome () :=
  if bool_decide (signer = "") then Err "invalid address" else observation_ok (qt_Inbound q) (qt_Tx q).

(** Attestations that do not verify are passed over. *)
Fixpoint attest_tx (ctx : Ctx) (active : list NodeAccount) (q : QuorumTx) (signBz : string) (atts : list (option Attestation))
    (voter : ObservedTxVoter) (addrs : list string) (crossed : bool) : V (ObservedTxVoter * list string * bool) :=
  match atts with
  | [] => mret (voter, addrs, crossed)
  | att :: r =>
      match verifyQuorumAttestation active signBz att with
      | Ok addr =>
          '(voter, isQuorum) ← observed ((if qt_Inbound q then processTxInAttestation else processTxOutAttestation)
                                           ctx voter active (qt_Tx q) addr false);
          attest_tx ctx active q signBz r voter (addrs ++ [addr])%list (crossed || isQuorum)
      | Err _ => attest_tx ctx active q signBz r voter addrs crossed
      | Panic => lift Panic
      end
  end.

Definition ObservedTxQuorum_handle (ctx : Ctx) (q : QuorumTx) (signer : string) : V () :=
  active ← observed ListActiveValidators;
  let tx := qt_Tx q in
  found ← attempt (if qt_Inbound q then ensureVaultAndGetTxInVoter (ObservedPubKey tx) (tx_ID (ot_Tx tx))
                   else ensureVaultAndGetTxOutVoter (ObservedPubKey tx) (tx_ID (ot_Tx tx))
                          (quorumSignersCommon (qt_Attestations q)) (KeysignMs tx));
  match found with
  | inr _ => mret ()
  | inl voter =>
      match tx_payload tx with
      | Panic => lift Panic
      | Err _ => mret ()
      | Ok signBz =>
          '(voter, addrs, crossed) ← attest_tx ctx active q signBz (qt_Attestations q) voter [] false;
          logged (if qt_Inbound q then handleObservedTxInQuorum ctx signer active tx voter addrs crossed
                  else handleObservedTxOutQuorum ctx signer active tx voter addrs crossed)
      end
  end.
Definition ObservedTxQuorum_Run (ctx : Ctx) (q : QuorumTx) (signer : string) : V () :=
  _ ← lift (Quorum_ValidateBasic q signer);
  ObservedTxQuorum_handle ctx q signer.
End Inbound.

(** ** Nothing an observation sets off makes its message fail *)

Section InboundFacts.
  Context `{CosmosMath} `{Bank} `{Env} `{!Managers} `{!GasManager} `{!SaverSwaps} `{!WithdrawSwaps} `{!SwapParams} `{!FollowOns} `{!PubKeys} `{!SortSlice} `{!AddressCodec} `{!TokenLists} `{!KeyAddresses} `{!Signatures} `{!TxPayload} `{!OtherHandlers}.
Abbreviation V := (M VaultState).

Lemma never_logged {A} (m : V A) : never_errs (logged m).
Proof. unfold logged. repeat never_step. Qed.

Lemma never_inc l pts : never_errs (IncSlashPoints pts l).
Proof. unfold IncSlashPoints, IncNodeAccountSlashPoints, GetNodeAccountSlashPoints, SetNodeAccountSlashPoints. repeat never_step. Qed.
Lemma never_dec l pts : never_errs (DecSlashPoints pts l).
Proof. unfold DecSlashPoints, DecNodeAccountSlashPoints, GetNodeAccountSlashPoints, SetNodeAccountSlashPoints. repeat never_step. Qed.
Lemma never_settle voter nas a b : never_errs (settle_consensus voter nas a b).
Proof. unfold settle_consensus. cbv zeta. apply never_bind; [apply never_dec|intros; apply never_inc]. Qed.
Lemma never_points : never_errs attest_points.
Proof. unfold attest_points. apply never_in_core. unfold GetConfigInt64, GetMimir. repeat never_step. Qed.
Lemma never_observe tx signer voter dup pts : never_errs (observe tx signer voter dup pts).
Proof.
  unfold observe, SetLastObserveHeight. cbv zeta. destruct (Voter_Add _ _ _).
  repeat first [apply never_inc|apply never_dec|never_step].
Qed.
Lemma never_finalise_in ctx voter nas tx signer p q fl : never_errs (finalise_in ctx voter nas tx signer p q fl).
Proof. unfold finalise_in. repeat first [apply never_settle|apply never_dec|never_step]. Qed.
Lemma never_discover ctx voter nas tx signer p q fl ok : never_errs (discover ctx voter nas tx signer p q fl ok).
Proof. unfold discover. repeat first [apply never_settle|apply never_dec|never_step]. Qed.
Lemma never_attest_in ctx voter nas tx signer dup : never_errs (processTxInAttestation ctx voter nas tx signer dup).
Proof.
  unfold processTxInAttestation, SetObservedTxInVoter.
  repeat first [apply never_points|apply never_observe|apply never_finalise_in|apply never_discover|never_step].
Qed.

Lemma never_cleanup toi : never_errs (unrefundableCoinCleanup toi).
Proof.
  unfold unrefundableCoinCleanup, GetObservedTxInVoter, EmitEvent. cbv zeta.
  repeat first [apply never_in_core|never_step].
Qed.
Lemma never_refund_coin ctx tx vault module reason coin : never_errs (refund_coin ctx tx vault module reason coin).
Proof.
  unfold refund_coin, refund_address, read_memo, GetPool. cbv zeta.
  repeat first [apply never_cleanup|apply never_in_core|never_step].
Qed.
Lemma never_refundTx ctx tx vault code reason module : never_errs (refundTx ctx tx vault code reason module).
Proof.
  unfold refundTx, EmitEvent. apply never_bind; [|intros; apply never_in_core, never_modify].
  generalize reason. induction (tx_Coins tx) as [|c cs IH]; intros rs; cbn [refund_coins]; [apply never_ret|].
  apply never_bind; [apply never_refund_coin|apply IH].
Qed.
Lemma never_refund ctx tx code reason : never_errs (refund ctx tx code reason).
Proof. apply never_observed, never_refundTx. Qed.

Lemma first_coin_no_err tx e : first_coin tx ≠ Err e.
Proof. unfold first_coin. by destruct (tx_Coins tx). Qed.
Lemma never_or_else (a b : K bool) : never_errs a → never_errs b → never_errs (or_else a b).
Proof. intros. unfold or_else. repeat first [assumption|never_step]. Qed.
Lemma never_chain_halted ctx c : never_errs (IsChainTradingHalted ctx c).
Proof. unfold IsChainTradingHalted, IsChainHalted, GetMimir. repeat never_step. Qed.
Lemma never_global_halted ctx : never_errs (IsGlobalTradingHalted ctx).
Proof. unfold IsGlobalTradingHalted, GetMimir, RagnarokInProgress. repeat never_step. Qed.
Lemma never_swcy_halted ctx : never_errs (IsSWCYTradingHalted ctx).
Proof.
  unfold IsSWCYTradingHalted, IsChainHalted, GetMimir.
  repeat first [apply never_or_else|apply never_global_halted|never_step].
Qed.
Lemma never_any_ragnarok l : never_errs (IsRagnarok l).
Proof.
  unfold IsRagnarok. generalize (ragnarok_assets l). intros l'. induction l' as [|a l' IH]; [apply never_ret|].
  cbn. unfold GetMimir, GetPoolRagnarokStart. repeat first [apply IH|never_step].
Qed.
Lemma never_checked msg :
  never_errs (match msg with
              | SwapMsg coins target =>
                  coin ← lift (match coins with c :: _ => Ok c | [] => Panic end);
                  let source := coin_asset coin in
                  mret (if Synth source && Assets.Equals target (Assets.GetLayer1Asset source) then [] else [source; target])
              | AddMsg a => mret [a]
              | OtherMsg => mret []
              end : K (list Asset)).
Proof.
  destruct msg as [[|c coins] target|a|]; [by intros s e s'|apply never_ret..].
Qed.
Lemma never_halt ctx m : never_errs (IsTradingHalt ctx m).
Proof.
  unfold IsTradingHalt. apply never_bind; [apply never_checked|intros l].
  apply never_bind; [apply never_any_ragnarok|intros [|]; [apply never_ret|]].
  destruct m as [[|c coins] target|a|]; [by intros s e s'| | |apply never_global_halted].
  - apply never_bind; [apply never_lift; done|intros c']. cbv zeta.
    destruct (Assets.IsSWCY (coin_asset c')); [apply never_or_else; [apply never_swcy_halted|apply never_chain_halted]|].
    destruct (Assets.IsSWCY target); apply never_or_else; try apply never_swcy_halted; try apply never_chain_halted.
    apply never_or_else; [apply never_chain_halted|apply never_global_halted].
  - destruct (Assets.IsSWCY a); [apply never_swcy_halted|].
    apply never_or_else; [apply never_chain_halted|apply never_global_halted].
Qed.

Lemma addFund_no_err coin vault e : addFund coin vault ≠ Err e.
Proof.
  unfold addFund. intros [Hc|([cs|] & _ & ?)]%bind_err; [|done..]. revert Hc.
  induction (v_Coins vault) as [|c cs IH]; [done|]. cbn [change_coin]. destruct (Assets.Equals _ _).
  - intros [Ha|(a & _ & ?)]%bind_err; [|done]. rewrite uadd_law in Ha. unfold in_uint in Ha. by destruct (_ && _).
  - intros [Hr|(r & _ & ?)]%bind_err; [by apply IH|done].
Qed.
Lemma credit_no_err fin memo tx vault voter e : credit_inbound fin memo tx vault voter ≠ Err e.
Proof.
  unfold credit_inbound. destruct (_ && _); [|done]. intros [Hadd|(a & _ & ?)]%bind_err; [|done].
  destruct (Address_Equals _ _); [done|]. apply bind_err in Hadd as [Hadd|(a & _ & ?)]; [|done]. revert Hadd.
  generalize vault. induction (tx_Coins (ot_Tx tx)) as [|c cs IH]; intros v; [done|]. cbn [AddFunds].
  intros [Hadd|(v' & _ & Hr)]%bind_err; [|by apply IH in Hr]. by apply addFund_no_err in Hadd.
Qed.
Lemma never_process ctx tx voter vault memo signer : never_errs (process_final ctx tx voter vault memo signer).
Proof.
  unfold process_final. destruct (bool_decide _); [apply never_logged|].
  apply never_bind; [apply never_attempt|intros [m|e]; [|apply never_logged]].
  unfold process_msg. apply never_bind.
  - unfold trading_halted. destruct (halt_view m); [|apply never_ret].
    apply never_bind; [apply never_at_core, never_halt|intros [|]; [apply never_ret|apply never_at_core, never_gets]].
  - intros [|]; [apply never_logged|].
    assert (Hother : never_errs (coin ← lift (first_coin (ot_Tx tx));
      if negb (match m with Msg_Switch _ => true | _ => false end) && IsSwitch_asset (coin_asset coin)
      then logged (refund ctx tx CodeTxFail "asset is a switch asset") else handle_msg ctx tx memo m : V ())).
    { apply never_bind; [apply never_lift; intros; apply first_coin_no_err|intros coin].
      destruct (_ && _); [apply never_logged|]. unfold handle_msg, GetObservedTxInVoter, SetObservedTxInVoter.
      repeat first [apply never_refund|apply never_observed|never_step]. }
    destruct m; try exact Hother. unfold addSwap, addSwapDirect, AdvSwapQueueEnabled, GetConfigInt64, GetMimir, EmitEvent.
    repeat first [apply never_logged|apply never_at_core|apply never_lift; intros; apply first_coin_no_err|never_step].
Qed.
Lemma never_file fin tx voter vault memo : never_errs (file_inbound fin tx voter vault memo).
Proof.
  unfold file_inbound, SetObservedTxInVoter.
  repeat first [apply never_logged|apply never_observed|apply never_lift; intros; apply credit_no_err|never_step].
Qed.
Lemma never_attest_out ctx voter nas tx signer dup : never_errs (processTxOutAttestation ctx voter nas tx signer dup).
Proof.
  unfold processTxOutAttestation, SetObservedTxOutVoter, link_outbound, read_memo, SetObservedLink, finalise_out. cbv zeta.
  repeat first [apply never_points|apply never_observe|apply never_settle|apply never_dec|apply never_discover|apply never_in_core|never_step].
Qed.
Lemma never_on_quorum ctx signer active tx voter : never_errs (on_inbound_quorum ctx signer active tx voter).
Proof.
  unfold on_inbound_quorum, read_memo, AppendObserver. cbv zeta.
  repeat first [apply never_file|apply never_process|apply never_at_core|never_step].
Qed.
Lemma never_observe_in ctx signer active txs : never_errs (observe_in ctx signer active txs).
Proof.
  induction txs as [|tx r IH]; cbn [observe_in]; [apply never_ret|].
  apply never_bind; [apply never_attempt|intros [voter|e]; [|exact IH]].
  apply never_bind; [apply never_observed, never_attest_in|intros [v q]].
  apply never_bind; [|intros _; exact IH]. unfold handleObservedTxInQuorum, AppendObserver.
  destruct q; [apply never_on_quorum|repeat never_step].
Qed.
Lemma never_observe_out ctx signer active txs : never_errs (observe_out ctx signer active txs).
Proof.
  induction txs as [|tx r IH]; cbn [observe_out]; [apply never_ret|].
  apply never_bind; [apply never_attempt|intros [voter|e]; [|exact IH]].
  apply never_bind; [apply never_observed, never_attest_out|intros [v q]].
  apply never_bind; [apply never_logged|intros _; exact IH].
Qed.
Lemma never_attest_tx ctx active q bz atts voter addrs crossed : never_errs (attest_tx ctx active q bz atts voter addrs crossed).
Proof.
  revert voter addrs crossed. induction atts as [|att r IH]; intros voter addrs crossed; cbn [attest_tx]; [apply never_ret|].
  destruct (verifyQuorumAttestation _ _ _); [|apply IH|by apply never_lift].
  apply never_bind; [|intros [v b]; apply IH]. apply never_observed.
  destruct (qt_Inbound q); [apply never_attest_in|apply never_attest_out].
Qed.
Lemma never_quorum_handle ctx q signer : never_errs (ObservedTxQuorum_handle ctx q signer).
Proof.
  unfold ObservedTxQuorum_handle, ListActiveValidators, ListValidatorsByStatus. cbv zeta.
  repeat first [apply never_attest_tx|apply never_logged|by apply never_lift|apply never_observed|never_step].
Qed.

Lemma only_reads_validate ctx inbound msg : only_reads (observed_validate ctx inbound msg).
Proof.
  unfold observed_validate. apply only_reads_bind; [done|intros _].
  apply only_reads_bind; [apply only_reads_observed, only_reads_active|done].
Qed.

(** The errors of what follows a validation that only reads are the validation's. *)
Lemma validate_then_never {A} (check : V ()) (read : V A) (f : A → V ()) (s : VaultState) e s' :
  only_reads check → only_reads read → never_errs read → (∀ a, never_errs (f a)) →
  (check ≫= λ _, read ≫= f) s = (Err e, s') ↔ fst (check s) = Err e ∧ s' = s.
Proof.
  intros Hc Hr Hnr Hf. unfold mbind, M_bind. rewrite (reads_run _ s Hc). destruct (fst (check s)) as [u|e'|]; cbn.
  - rewrite (reads_run _ s Hr). split; [|by intros [? _]]. intros Hrun. exfalso.
    destruct (fst (read s)) as [a|e'|] eqn:Ha; [by apply Hf in Hrun| |done]. apply (Hnr s e' s). by rewrite (reads_run _ s Hr), Ha.
  - split; [by intros [= -> ->]|by intros [[= ->] ->]].
  - split; [done|by intros [? _]].
Qed.

(** C23: What a message of observations answers as an error is exactly what its
    validation found, with nothing done.  Once it is valid and its signer is an
    active validator, no failure of one of its transactions - no vault, an
    unreadable memo, a failing handler, a refund that cannot be sent - is an error
    of the message, so one bad transaction does not hold back the others. *)
Theorem observations_fail_only_untouched ctx msg q signer s e s' :
  (ObservedTxIn_Run ctx msg s = (Err e, s') ↔ fst (observed_validate ctx true msg s) = Err e ∧ s' = s) ∧
  (ObservedTxOut_Run ctx msg s = (Err e, s') ↔ fst (observed_validate ctx false msg s) = Err e ∧ s' = s) ∧
  (ObservedTxQuorum_Run ctx q signer s = (Err e, s') ↔ Quorum_ValidateBasic q signer = Err e ∧ s' = s).
Proof.
  assert (Ha : never_errs (observed ListActiveValidators : V _)) by (unfold ListActiveValidators, ListValidatorsByStatus; apply never_observed; repeat never_step).
  assert (Hr : only_reads (observed ListActiveValidators : V _)) by (apply only_reads_observed; unfold ListActiveValidators, ListValidatorsByStatus; reads).
  split_and!.
  - apply validate_then_never; [apply only_reads_validate|done..|intros active; apply never_observe_in].
  - apply validate_then_never; [apply only_reads_validate|done..|intros active; apply never_observe_out].
  - unfold ObservedTxQuorum_Run, mbind, M_bind, lift. destruct (Quorum_ValidateBasic q signer) as [[]|e'|].
    + split; [intros Hrun; by apply never_quorum_handle in Hrun|by intros [? _]].
    + split; [by intros [= -> ->]|by intros [[= ->] ->]].
    + split; [done|by intros [? _]].
Qed.

(** ** A swap that was observed *)

Lemma only_reads_msg ctx otx signer : only_reads (processOneTxIn ctx otx signer).
Proof.
  assert (Hf : ∀ a, only_reads (fuzzyAssetMatch a)).
  { intros a. unfold fuzzyAssetMatch, GetPool, GetPools. cbv zeta.
    apply only_reads_bind; [done|intros p]. destruct (negb _); [done|]. by apply only_reads_bind. }
  unfold processOneTxIn. destruct (tx_Coins (ot_Tx otx)) as [|coin [|]]; [done| |done].
  apply only_reads_bind; [done|intros [memo e]]. apply only_reads_bind; [by destruct e|intros _].
  apply only_reads_bind; [|intros m; apply only_reads_bind; [by destruct (Msg_ValidateBasic m)|done]].
  unfold msg_of_memo. cbv zeta. destruct memo;
    repeat first [done|apply Hf|apply only_reads_bind; [|intro]|match goal with |- only_reads (match ?b with _ => _ end) => destruct b end].
Qed.
Lemma only_reads_halted ctx msg : only_reads (trading_halted ctx (Msg_Swap msg)).
Proof.
  unfold trading_halted, halt_view. apply only_reads_bind.
  - apply only_reads_observed. intros s. unfold in_core.
    destruct (IsTradingHalt_observes ctx (tx_Coins (sm_Tx msg)) (TargetAsset msg) (core s)) as [[a ->]| ->]; by destruct s.
  - intros [|]; [done|]. apply only_reads_observed. intros s. by destruct s.
Qed.

(** What filing an inbound changes. *)
Record filed_as (s s' : VaultState) (vault : Vault) (voter : ObservedTxVoter) : Prop := {
  fa_vaults : vaults s' = <[GetKey (v_PubKey vault) := vault]> (vaults s);
  fa_voter : q_obs (vs_queue s') = put_txInVoters (<[GetKey (ov_TxID voter) := voter]> (txInVoters (q_obs (vs_queue s)))) (q_obs (vs_queue s));
  fa_queue : swapQueue (vs_queue s') = swapQueue (vs_queue s);
  fa_txOuts : txOuts s' = txOuts s;
  fa_gas : gasMgr s' = gasMgr s;
}.
Lemma SetVault_parsed vault s e s' : is_ok (fst (getAsgardIndex s)) = true → SetVault vault s ≠ (Err e, s').
Proof.
  unfold SetVault, addAsgardIndex, getAsgardIndex, mbind, M_bind, gets, lift.
  destruct (IsAsgard vault); [|done]. cbn. destruct (map_outcome NewPubKey (asgardIndex s)); [|done..].
  intros _. by destruct (bool_decide _).
Qed.
Lemma file_inbound_filed fin tx voter vault memo s r s' :
  is_ok (fst (getAsgardIndex s)) = true → file_inbound fin tx voter vault memo s = (Ok r, s') →
  ∃ vault' voter', r = Some (vault', voter') ∧ credit_inbound fin memo tx vault voter = Ok (vault', voter') ∧
    filed_as s s' vault' voter'.
Proof.
  unfold file_inbound. intros Hparse Hrun. run_step Hrun vv s1 E. apply lift_ok in E as [Hcredit ->]. destruct vv as [vault' voter'].
  run_step Hrun u1 s1 E.
  assert (Hs1 : ∃ hs, s1 = put_lastChainHeights hs s).
  { unfold logged, SetLastChainHeight in E. run_step E r1 s2 E2. apply ret_ok in E as [_ ->].
    unfold attempt, GetLastChainHeight, gets, mbind, M_bind, fail_when, lift, fail_if, modify in E2.
    destruct (_ <? _); injection E2 as _ <-; [exists (lastChainHeights s); by destruct s|by eexists]. }
  destruct Hs1 as [hs ->]. run_step Hrun u2 s1 E'.
  assert (s1 = put_queue (put_obs (put_txInVoters (<[GetKey (ov_TxID voter') := voter']> (txInVoters (q_obs (vs_queue s))))
                  (q_obs (vs_queue s))) (vs_queue s)) (put_lastChainHeights hs s)) as -> by (by injection E' as _ <-).
  run_step Hrun saved s2 E2. apply ret_ok in Hrun as [-> ->]. unfold attempt in E2.
  set (s1 := put_queue _ _) in E2. assert (Hparse1 : is_ok (fst (getAsgardIndex s1)) = true) by exact Hparse.
  destruct (SetVault vault' s1) as [[u|e|] s3] eqn:Hset; [|by destruct (SetVault_parsed vault' s1 e s3 Hparse1)|done].
  injection E2 as <- <-. exists vault', voter'. do 2 (split; [done|]).
  unfold SetVault in Hset. run_step Hset u3 s4 Hidx. apply modify_ok in Hset as ->.
  assert (Hsame : ∃ idx, s4 = put_asgardIndex idx s1).
  { destruct (IsAsgard vault'); [|apply ret_ok in Hidx as [_ ->]; exists (asgardIndex s); by destruct s].
    unfold addAsgardIndex, getAsgardIndex in Hidx. run_step Hidx pks s5 E5. run_step E5 rec s6 E6.
    apply gets_ok in E6 as [-> ->]. apply lift_ok in E5 as [_ ->].
    destruct (bool_decide _); [apply ret_ok in Hidx as [_ ->]; exists (asgardIndex s); by destruct s|].
    apply modify_ok in Hidx as ->. by eexists. }
  destruct Hsame as [idx ->]. by split.
Qed.

Definition same_kind (v v' : Vault) : Prop :=
  v_Type v' = v_Type v ∧ v_Status v' = v_Status v ∧ v_PubKey v' = v_PubKey v ∧ Frozen v' = Frozen v.
Lemma addFund_kind coin v v' : addFund coin v = Ok v' → same_kind v v'.
Proof.
  unfold addFund. intros Hok. apply bind_ok in Hok as ([cs|] & _ & Hok); injection Hok as <-; [by split_and!|].
  cbv zeta. by destruct (Chains.Has _ _); split_and!.
Qed.
Lemma AddFunds_kind coins v v' : AddFunds coins v = Ok v' → same_kind v v'.
Proof.
  revert v. induction coins as [|c cs IH]; intros v; [intros [= <-]; by split_and!|]. cbn [AddFunds].
  intros (v1 & (? & ? & ? & ?)%addFund_kind & (? & ? & ? & ?)%IH)%bind_ok. split_and!; congruence.
Qed.
(** What the vault is credited with. *)
Definition credited (tx : ObservedTx) (voter : ObservedTxVoter) (vault : Vault) : outcome Vault :=
  if UpdatedVault voter || Address_Equals (FromAddress (ot_Tx tx)) (ToAddress (ot_Tx tx)) then Ok vault
  else AddFunds (tx_Coins (ot_Tx tx)) vault.
Lemma credit_final memo tx vault voter vault' voter' :
  IsAsgard vault = true → credit_inbound true memo tx vault voter = Ok (vault', voter') →
  UpdatedVault voter' = true ∧ ov_Tx voter' = ov_Tx voter ∧ ov_TxID voter' = ov_TxID voter ∧ same_kind vault vault' ∧
  ∃ v, credited tx voter vault = Ok v ∧ v_Coins vault' = v_Coins v.
Proof.
  unfold credit_inbound, credited. intros -> Hok. cbn [orb andb] in Hok.
  destruct (UpdatedVault voter) eqn:Hu; cbn [negb orb] in *; [injection Hok as <- <-; split_and!; try done; by exists vault|].
  apply bind_ok in Hok as (v & Hv & Hok). injection Hok as <- <-. do 3 (split; [done|]).
  destruct (Address_Equals _ _); [injection Hv as <-; split; [done|]; by exists vault|].
  apply bind_ok in Hv as (v1 & Hadd & Hv). injection Hv as <-. split; [by apply AddFunds_kind in Hadd|]. by exists v1.
Qed.

(** C21: The agreement on a final transaction to an Asgard vault, with the memo of a
    swap that is valid and not halted, when there is no ragnarok, the advanced
    queue is off, the vault is not inactive and the voter is not reverted: the
    vault is credited with the coins unless
    it was before or the sender is the vault, the voter remembers it, and the swap
    waits in the queue; no pool, balance or planned outbound changes until the
    queue is processed. *)
Theorem observed_swap_is_queued ctx signer active tx voter vault memo sm s s' :
  let voter1 := set_ov_Tx (set_memo (Memo (ot_Tx tx)) (ov_Tx voter)) voter in
  let vault1 := as_read ctx (ObservedPubKey tx) vault in
  Reverted voter = false → HasFinalised voter1 active = true →
  vaults s !! GetKey (ObservedPubKey tx) = Some vault → IsAsgard vault = true → v_Status vault ≠ InactiveVault →
  is_ok (fst (getAsgardIndex s)) = true →
  fst (read_memo ctx (Memo (ot_Tx tx)) (the_core s)) = Ok (memo, None) → IsType memo TxSwap = true →
  fst (processOneTxIn ctx (ov_Tx voter1) signer (the_core s)) = Ok (Msg_Swap sm) →
  fst (IsTradingHalt ctx (SwapMsg (tx_Coins (sm_Tx sm)) (TargetAsset sm)) (the_core s)) = Ok false →
  ragnarokHeight (the_core s) ≤ 0 → fst (AdvSwapQueueEnabled (the_core s)) = Ok false →
  Coins_IsEmpty (tx_Coins (sm_Tx sm)) = false →
  on_inbound_quorum ctx signer active tx voter s = (Ok (), s') →
  swapQueue (vs_queue s') = <[item_key (tx_ID (sm_Tx sm)) 0 := sm]> (swapQueue (vs_queue s)) ∧
  (∃ vault' v, vaults s' = <[GetKey (v_PubKey vault1) := vault']> (vaults s) ∧
     credited tx voter vault1 = Ok v ∧ v_Coins vault' = v_Coins v) ∧
  (∃ voter', txInVoters (q_obs (vs_queue s')) !! GetKey (ov_TxID voter) = Some voter' ∧ UpdatedVault voter' = true) ∧
  the_core s' = the_core s ∧ txOuts s' = txOuts s.
Proof.
  intros voter1 vault1 Hrev Hfin Hvault Hasg Hact Hparse Hmemo Hswap Hmsg Hhalt Hrag Hadv Hcoins Hrun.
  unfold on_inbound_quorum in Hrun. rewrite Hrev in Hrun.
  erewrite M_bind_run in Hrun; [|unfold attempt, GetVault, mbind, M_bind, gets; rewrite Hvault; reflexivity].
  fold voter1 in Hrun. rewrite Hfin in Hrun.
  erewrite M_bind_run in Hrun; [|rewrite at_core_reads by done; by rewrite Hmemo].
  run_step Hrun fo s1 Hfile. apply file_inbound_filed in Hfile as (vault' & voter' & -> & Hcredit & [Hv Ho Hq Ht Hg]); [|done].
  apply credit_final in Hcredit as (Hu & Htx & Hid & (Hty & Hst & Hpk & _) & v & Hc & Hcs); [|done].
  assert (IsAsgard vault' = true) as Ha' by (unfold IsAsgard in *; by rewrite Hty).
  assert (Memo_IsOutbound memo = false ∧ Memo_IsInternal memo = false) as [Hout Hint].
  { unfold IsType in Hswap. apply bool_decide_eq_true in Hswap. unfold Memo_IsOutbound, Memo_IsInternal. by rewrite Hswap. }
  rewrite Ha', Hout, Hint in Hrun. cbn [negb orb] in Hrun.
  run_step Hrun u s2 E. apply modify_ok in E as ->.
  set (s2 := put_observing _ s1) in Hrun.
  assert (Hcore : the_core s2 = the_core s) by (unfold the_core; change (vs_queue s2) with (vs_queue s1); by rewrite Ho).
  unfold process_final in Hrun. rewrite bool_decide_eq_false_2 in Hrun by (rewrite Hst; exact Hact).
  erewrite M_bind_run in Hrun; [|unfold attempt; rewrite at_core_reads by apply only_reads_msg; by rewrite Hcore, Htx, Hmsg].
  unfold process_msg in Hrun. run_step Hrun halted s3 E.
  assert (s3 = s2) as -> by (pose proof (only_reads_halted ctx sm s2) as Hr; rewrite E in Hr; exact Hr).
  assert (halted = false) as ->.
  { unfold trading_halted, halt_view in E. run_step E h s3 E1. apply at_core_ok in E1 as (c & Hh & ->). rewrite Hcore in Hh.
    rewrite Hh in Hhalt. injection Hhalt as ->. apply at_core_ok in E as (c' & Hr & _). rewrite the_core_with in Hr.
    apply gets_ok in Hr as [-> ->].
    assert (c = the_core s) as ->.
    { destruct (IsTradingHalt_observes ctx (tx_Coins (sm_Tx sm)) (TargetAsset sm) (the_core s)) as [[b Hb]|Hb];
        rewrite Hb in Hh; by injection Hh. }
    apply Z.ltb_ge. lia. }
  unfold addSwap in Hrun. erewrite M_bind_run in Hrun; [|rewrite at_core_reads by done; by rewrite Hcore, Hadv].
  unfold addSwapDirect in Hrun. rewrite Hcoins in Hrun. unfold logged in Hrun.
  assert (s' = put_queue (put_swapQueue (<[item_key (tx_ID (sm_Tx sm)) 0 := sm]> (swapQueue (vs_queue s2))) (vs_queue s2)) s2) as ->
    by (by injection Hrun as <-).
  split; [cbn; by rewrite Hq|]. split; [exists vault', v; split_and!; [cbn; by rewrite Hv, Hpk|done|done]|].
  split.
  { exists voter'. split; [|done]. cbn. rewrite Ho. cbn. rewrite Hid. apply lookup_insert_eq. }
  split; [exact Hcore|exact Ht].
Qed.
End InboundFacts.

(** ** Witnesses *)

#[local] Existing Instance idle_managers.
#[local] Existing Instance unit_gas.
#[local] Existing Instance idle_swaps.
#[local] Existing Instance idle_withdraw_swaps.
#[local] Existing Instance no_contracts.
#[local] Existing Instance no_follow_ons.
#[local] Existing Instance plain_keys.
#[local] Existing Instance insertion_sort.
#[local] Existing Instance plain_codec.
#[local] Existing Instance no_tokens.
#[local] Existing Instance named_signatures.

(** Every key has one address, and the bytes of a transaction are its hash. *)
Definition one_address : KeyAddresses := {| key_address _ _ := Ok "bc1vault" |}.
#[local] Existing Instance one_address.
Definition hash_payload : TxPayload := {| tx_payload t := Ok (tx_ID (ot_Tx t)) |}.
#[local] Existing Instance hash_payload.
Definition no_other_handlers : OtherHandlers :=
  {| other_Run _ _ _ := throw "not handled"; AddSwapQueueItem _ _ := mret () |}.
#[local] Existing Instance no_other_handlers.

Definition inbound_tx (c : Coin) (memo : string) : ObservedTx :=
  NewObservedTx (mkTx seen_hash BTCChain "bc1from" "bc1vault" [c] [NewCoin BTCAsset 10] memo) 5 "swtcpub1a" 5.
Definition final_voter (t : ObservedTx) : ObservedTxVoter := set_ov_Tx t (NewObservedTxVoter (tx_ID (ot_Tx t)) [t]).
Definition with_vault : VaultState := snd (SetVault btc_vault (with_core named no_vaults)).
Definition swap_tx : ObservedTx := inbound_tx (NewCoin BTCAsset 300) "SWAP:ETH.ETH:0xto".

Definition queued_swap : MsgSwap :=
  mkMsgSwap (ot_Tx swap_tx) ETHAsset "0xto" 0 "" 0 "" "" None false 0 0 "swtc1signer".
Definition swap_memo_read : Memo_ := fst (ParseMemoWithSWITCHNames vault_block named "SWAP:ETH.ETH:0xto").

Lemma observed_swap_is_queued_witness :
  let s' := snd (on_inbound_quorum vault_block "swtc1signer" [] swap_tx (final_voter swap_tx) with_vault) in
  swapQueue (vs_queue s') = <[item_key seen_hash 0 := queued_swap]> ∅ ∧
  (∃ v, AddFunds [NewCoin BTCAsset 300] (as_read vault_block "swtcpub1a" btc_vault) = Ok v ∧
     total_of BTCAsset (v_Coins v) = 800) ∧ the_core s' = named.
Proof.
  cbn zeta.
  assert (fst (on_inbound_quorum vault_block "swtc1signer" [] swap_tx (final_voter swap_tx) with_vault) = Ok ()) as Hrun
    by (vm_compute; reflexivity).
  destruct (observed_swap_is_queued vault_block "swtc1signer" [] swap_tx (final_voter swap_tx) btc_vault swap_memo_read queued_swap
    with_vault (snd (on_inbound_quorum vault_block "swtc1signer" [] swap_tx (final_voter swap_tx) with_vault))) as (Hq & (vault' & v & _ & Hv & _) & _ & Hc & _).
  1: reflexivity. 1: vm_compute; reflexivity. 1: vm_compute; reflexivity. 1: reflexivity. 1: discriminate.
  1: vm_compute; reflexivity. 1: vm_compute; reflexivity. 1: vm_compute; reflexivity. 1: vm_compute; reflexivity.
  1: vm_compute; reflexivity. 1: vm_compute; discriminate. 1: vm_compute; reflexivity. 1: vm_compute; reflexivity.
  1: exact (run_pair _ _ Hrun).
  split; [exact Hq|]. split; [|exact Hc]. exists v. split; [exact Hv|].
  cbn [credited] in Hv. vm_compute in Hv. injection Hv as <-. vm_compute. reflexivity.
Defined.

(** A transaction whose address is not the vault's is refused; one to a vault that
    nobody knows is passed over. *)
Definition observed_at (to pk : string) : MsgObservedTxs :=
  mkMsgObservedTxs [NewObservedTx (mkTx seen_hash BTCChain "bc1from" to [NewCoin BTCAsset 300] [NewCoin BTCAsset 10] "") 5 pk 5] "alice".
Definition guarded : VaultState := put_queue (put_obs (put_nodeAccounts guardians (q_obs (vs_queue with_vault))) (vs_queue with_vault)) with_vault.
Lemma observations_fail_only_untouched_witness :
  let msg := observed_at "bc1other" "swtcpub1a" in
  ObservedTxIn_Run vault_block msg guarded = (Err "request is not an inbound observed transaction", guarded) ∧
  fst (ObservedTxIn_Run vault_block (observed_at "bc1vault" "swtcpub1x") guarded) = Ok ().
Proof.
  cbv zeta. split; [|vm_compute; reflexivity].
  assert (fst (observed_validate vault_block true (observed_at "bc1other" "swtcpub1a") guarded) =
    Err "request is not an inbound observed transaction") as Hv by (vm_compute; reflexivity).
  exact (proj2 (proj1 (observations_fail_only_untouched vault_block (observed_at "bc1other" "swtcpub1a") (mkQuorumTx swap_tx true [])
    "alice" guarded "request is not an inbound observed transaction" guarded)) (conj Hv eq_refl)).
Defined.
