(* ===== verification/Security.v ===== *)
(** * The value and the security of vaults

    src/x/switchly/keeper/v1/keeper_vault.go and keeper_txout.go: how much the
    outbounds of a block are worth, which outbounds of an asset are still pending,
    and how far the bond of a vault's members exceeds what the vault holds. *)

From stdpp Require Import sorting.
From S2P Require Import Prelude Runs GoStrings CosmosMath Amounts Assets Coins Pools Constants State Txs Nodes Quorum ObservedTx Attest SwapHandler Vaults Gas Layers Slasher Outbound Internal.
Open Scope Z_scope.

(** The heights of [for height := lo; height <= hi; height++]. *)
Definition heights (lo hi : Z) : list Z := (λ i, lo + Z.of_nat i) <$> seq 0 (Z.to_nat (hi - lo + 1)).

Section Security.
  Context `{CosmosMath} `{Bank} `{Env} `{!PubKeys} `{!KeyAddresses}.
Abbreviation V := (M VaultState).

(** ** The value of outbounds *)

Fixpoint coins_value (coins : list Coin) (v : Z) : K Z :=
  match coins with
  | [] => mret v
  | c :: r =>
      worth ← (if Assets.IsSwitch (coin_asset c) then mret (coin_amount c)
               else p ← GetPool (Assets.GetLayer1Asset (coin_asset c)); mret (AssetValueInSWITCH p (coin_amount c)));
      v ← lift (uadd v worth);
      coins_value r v
  end.
(** The value of the coins and the most gas, and the clout spent on them. *)
Fixpoint items_value (items : list TxOutItem) (v clout : Z) : K (Z * Z) :=
  match items with
  | [] => mret (v, clout)
  | t :: r =>
      v ← coins_value (toi_Coin t :: toi_MaxGas t) v;
      clout ← (match toi_CloutSpent t with Some c => lift (uadd clout c) | None => mret clout end);
      items_value r v clout
  end.
Definition GetTOIsValue (items : list TxOutItem) : K (Z * Z) := items_value items 0 0.
Definition GetTxOutValue (height : Z) : V (Z * Z) := items ← GetTxOut height; at_core (GetTOIsValue items).

(** ** Pending outbounds *)

Definition is_pending (a : Asset) (t : TxOutItem) : bool :=
  Assets.Equals (coin_asset (toi_Coin t)) a && TxID_IsEmpty (toi_OutHash t).
(** The search ends at the first empty block after the largest offset. *)
Fixpoint pending_in (lastOffset : Z) (a : Asset) (hs : list Z) : V (list TxOutItem) :=
  match hs with
  | [] => mret []
  | h :: r =>
      items ← GetTxOut h;
      if (lastOffset <? h) && bool_decide (items = []) then mret []
      else rest ← pending_in lastOffset a r; mret (List.filter (is_pending a) items ++ rest)%list
  end.
Definition signing_start (ctx : Ctx) (period : Z) : Z :=
  let h := to_i64 (BlockHeight ctx - period) in if h <? 1 then 1 else h.
Definition GetPendingOutbounds (ctx : Ctx) (a : Asset) : V (list TxOutItem) :=
  txOutDelayMax ← at_core (GetConfigInt64 "TxOutDelayMax");
  maxTxOutOffset ← at_core (GetConfigInt64 "MaxTxOutOffset");
  pending_in (to_i64 (BlockHeight ctx + maxTxOutOffset)) a
    (heights (signing_start ctx (GetInt64Value int64Overrides "SigningTransactionPeriod"))
       (to_i64 (BlockHeight ctx + txOutDelayMax))).

(** ** Security *)

Record VaultSecurity := mkSecurity { vsec_Vault : Vault; TotalBond : Z; TotalValue : Z }.
(** How much the bond exceeds the value, which may be negative. *)
Definition Diff (v : VaultSecurity) : Z := TotalBond v - TotalValue v.

Fixpoint active_bond (ctx : Ctx) (members : list string) (total : Z) : V Z :=
  match members with
  | [] => mret total
  | pk :: r =>
      found ← attempt (GetNodeAccountByPubKey ctx pk);
      total ← (match found with
               | inl na => if bool_decide (na_Status na = NodeActive) then lift (uadd total (na_Bond na)) else mret total
               | inr _ => mret total
               end);
      active_bond ctx r total
  end.
Fixpoint held_value (coins : list Coin) (total : Z) : K Z :=
  match coins with
  | [] => mret total
  | c :: r =>
      total ← (if Assets.IsSwitch (coin_asset c) then mret total
               else p ← GetPool (coin_asset c); lift (uadd total (AssetValueInSWITCH p (coin_amount c))));
      held_value r total
  end.
Definition coin_worth (c : Coin) : K Z :=
  if Assets.IsSwitch (coin_asset c) then mret (coin_amount c)
  else p ← GetPool (coin_asset c); mret (AssetValueInSWITCH p (coin_amount c)).
(** What is about to leave the vault counts no longer, what is about to arrive
    counts already. *)
Fixpoint unsent_value (vault : Vault) (items : list TxOutItem) (total : Z) : V Z :=
  match items with
  | [] => mret total
  | t :: r =>
      total ←
        (if negb (TxID_IsEmpty (toi_OutHash t)) then mret total
         else match key_address (v_PubKey vault) (Assets.GetChain (coin_asset (toi_Coin t))) with
              | Ok toAddress =>
                  if bool_decide (toi_VaultPubKey t = v_PubKey vault) then
                    w ← at_core (coin_worth (toi_Coin t)); lift (SafeSub total w)
                  else if Address_Equals (toi_ToAddress t) toAddress then
                    w ← at_core (coin_worth (toi_Coin t)); lift (uadd total w)
                  else mret total
              | Err _ => mret total
              | Panic => lift Panic
              end);
      unsent_value vault r total
  end.
Fixpoint unsent_values (vault : Vault) (hs : list Z) (total : Z) : V Z :=
  match hs with
  | [] => mret total
  | h :: r => items ← GetTxOut h; total ← unsent_value vault items total; unsent_values vault r total
  end.
Definition security_of (ctx : Ctx) (period : Z) (vault : Vault) : V VaultSecurity :=
  totalBond ← active_bond ctx (GetMembership vault) 0;
  totalValue ← at_core (held_value (v_Coins vault) 0);
  totalValue ← unsent_values vault (heights (signing_start ctx period) (BlockHeight ctx)) totalValue;
  mret (mkSecurity vault totalBond totalValue).
Fixpoint securities (ctx : Ctx) (period : Z) (vs : list Vault) : V (list VaultSecurity) :=
  match vs with
  | [] => mret []
  | v :: r => x ← security_of ctx period v; xs ← securities ctx period r; mret (x :: xs)
  end.
Definition less_secure (x y : VaultSecurity) : Prop := Diff x <= Diff y.
#[export] Instance less_secure_dec : RelDecision less_secure.
Proof. intros x y. apply Z.le_dec. Defined.
Definition getSortedVaultSecurity (ctx : Ctx) (vs : list Vault) (period : Z) : V (list VaultSecurity) :=
  l ← securities ctx period vs; mret (merge_sort less_secure l).

(** From the least to the most secure. *)
Definition SortBySecurity (ctx : Ctx) (vs : list Vault) (period : Z) : V (list Vault) :=
  if (length vs <=? 1)%nat then mret vs
  else l ← getSortedVaultSecurity ctx vs period; mret (vsec_Vault <$> l).
Definition GetMostSecure (ctx : Ctx) (vs : list Vault) (period : Z) : V Vault :=
  vs ← SortBySecurity ctx vs period; mret (List.last vs no_vault).
Definition GetLeastSecure (ctx : Ctx) (vs : list Vault) (period : Z) : V Vault :=
  vs ← SortBySecurity ctx vs period; mret (hd no_vault vs).
(** No vault when even the most secure one has too little bond. *)
Definition GetMostSecureStrict (ctx : Ctx) (vs : list Vault) (period : Z) : V Vault :=
  l ← getSortedVaultSecurity ctx vs period;
  match rev l with
  | [] => mret no_vault
  | mostSecure :: _ =>
      securityBps ← at_core (GetConfigInt64 "MigrationVaultSecurityBps");
      if 0 <? securityBps then
        let bondNeeded := GetUncappedShare securityBps 10000 (TotalValue mostSecure) in
        mret (if TotalBond mostSecure <? bondNeeded then no_vault else vsec_Vault mostSecure)
      else mret (vsec_Vault mostSecure)
  end.
End Security.

(** ** Looking at vaults and outbounds changes nothing *)

Section SecurityFacts.
  Context `{CosmosMath} `{Bank} `{Env} `{!PubKeys} `{!SortSlice} `{!KeyAddresses}.

Lemma reads_coins_value cs v : only_reads (coins_value cs v).
Proof. revert v. induction cs as [|c cs IH]; intros v; cbn [coins_value]; reads; apply IH. Qed.
Lemma reads_items_value l v c : only_reads (items_value l v c).
Proof.
  revert v c. induction l as [|t l IH]; intros v c; cbn [items_value]; [reads|].
  apply only_reads_bind; [apply reads_coins_value|intros v']. reads; apply IH.
Qed.
Lemma reads_txout h : only_reads (GetTxOut h).
Proof. done. Qed.
Lemma reads_block_value h : only_reads (GetTxOutValue h).
Proof. unfold GetTxOutValue. apply only_reads_bind; [done|intros l]. apply only_reads_at_core, reads_items_value. Qed.
Lemma reads_pending ctx a : only_reads (GetPendingOutbounds ctx a).
Proof.
  unfold GetPendingOutbounds. do 2 (apply only_reads_bind; [reads|intros ?]).
  generalize (heights (signing_start ctx (GetInt64Value int64Overrides "SigningTransactionPeriod")) (to_i64 (BlockHeight ctx + a0))).
  intros hs. induction hs as [|h hs IH]; cbn [pending_in]; [reads|]. repeat first [apply IH|apply reads_txout|reads_step].
Qed.
Lemma reads_active_bond ctx l t : only_reads (active_bond ctx l t).
Proof.
  revert t. induction l as [|pk l IH]; intros t; cbn [active_bond]; [reads|].
  unfold GetNodeAccountByPubKey. repeat first [apply IH|solve [eauto with reads]|reads_step].
Qed.
Lemma reads_held cs t : only_reads (held_value cs t).
Proof. revert t. induction cs as [|c cs IH]; intros t; cbn [held_value]; reads; apply IH. Qed.
Lemma reads_unsent v l t : only_reads (unsent_value v l t).
Proof.
  revert t. induction l as [|i l IH]; intros t; cbn [unsent_value]; [reads|].
  unfold coin_worth. repeat first [apply IH|solve [eauto with reads]|reads_step|apply only_reads_at_core].
Qed.
Lemma reads_securities ctx period vs : only_reads (securities ctx period vs).
Proof.
  assert (Hun : ∀ v hs t, only_reads (unsent_values v hs t)).
  { intros v hs. induction hs as [|h hs IH]; intros t; cbn [unsent_values]; [reads|].
    repeat first [apply reads_unsent|apply reads_txout|apply IH|reads_step]. }
  induction vs as [|v vs IH]; cbn [securities]; [reads|]. unfold security_of.
  repeat first [apply IH|apply Hun|apply reads_active_bond|apply only_reads_at_core, reads_held|reads_step].
Qed.
Lemma reads_sorted ctx vs period : only_reads (SortBySecurity ctx vs period).
Proof.
  unfold SortBySecurity, getSortedVaultSecurity. repeat first [apply reads_securities|reads_step].
Qed.
End SecurityFacts.
#[export] Hint Resolve reads_block_value reads_pending reads_vault reads_by_status reads_sorted reads_txout : reads.
