(* ===== verification/Affiliates.v ===== *)
(** * Affiliate fees

    src/x/switchly/helpers_affiliates.go, with NewSwapMemo and
    willSwapOutputExceedLimitAndFees of helpers.go: the shares of an amount that
    the affiliates of a swap memo get, paid out, gathered for a name that prefers
    another asset, or swapped to SWITCH first. *)

From stdpp Require Import pretty.
From S2P Require Import Prelude Runs GoStrings Sha256 CosmosMath Amounts Assets Coins Pools Constants Names State Txs MemoTypes MemoParser Swap Nodes Quorum ObservedTx Attest Refunds SwapHandler Vaults Gas Layers.
Open Scope Z_scope.

Definition PreferredAssetSwapMemoPrefix : string := "SWITCHLY-PREFERRED-ASSET".

Definition GetAffiliates (m : Memo_) : list string := match m with SwapMemo_ s => Affiliates s | _ => [] end.
Definition GetAffiliatesBasisPoints (m : Memo_) : list Z :=
  match m with SwapMemo_ s => AffiliatesBasisPoints s | _ => [] end.

(** A market swap of a transaction that does not stream. *)
Definition market_swap (tx : Tx) (target : Asset) (destination signer : string) : MsgSwap :=
  mkMsgSwap tx target destination 0 NoAddress 0 "" "" None false 0 0 signer.
Definition set_Destination (destination affiliate : string) (m : MsgSwap) : MsgSwap :=
  mkMsgSwap (sm_Tx m) (TargetAsset m) destination (sm_TradeTarget m) affiliate (sm_AffiliateBasisPoints m)
    (Aggregator m) (AggregatorTargetAddress m) (AggregatorTargetLimit m) (sm_limit m) (StreamQuantity m)
    (StreamInterval m) (sm_Signer m).
Definition set_coin_amount (v : Z) (c : Coin) : Coin := mkCoin (coin_asset c) v (coin_decimals c).

Definition NewSwapMemo (target : Asset) (destination : string) (limit : Z) (affiliate : string) (bps : Z) : string :=
  "=:" +:+ Assets.Str target +:+ ":" +:+ destination +:+ ":" +:+ pretty limit +:+ ":" +:+ affiliate +:+ ":" +:+ pretty bps.

Section Affiliates.
  Context `{CosmosMath} `{Bank} `{Env} `{!PubKeys} `{!SortSlice}.
Abbreviation V := (M VaultState).

Definition GetModuleAddress (m : string) : outcome string := NewAddress (module_address m).

(** ** The swap to the asset a name prefers *)

(** The transaction is named by the hash of the name, the coin and the height. *)
Definition preferred_swap_text (ctx : Ctx) (tn : SWITCHName) (c : Coin) : string :=
  sn_Name tn +:+ "|" +:+ Coin_String c +:+ "|" +:+ pretty (BlockHeight ctx).
(** A voter that has seen the transaction, as if validators had reported it. *)
Definition made_voter (ctx : Ctx) (tx : Tx) : ObservedTxVoter :=
  let txIn := mkObservedTx tx Status_incomplete [] 0 [] "" 0 0 "" "" None in
  set_heights (BlockHeight ctx) (BlockHeight ctx) (set_ov_Tx txIn (NewObservedTxVoter (tx_ID tx) [txIn])).
Definition triggerPreferredAssetSwap (ctx : Ctx) (tn : SWITCHName) (amt : Z) (queueIndex : Z) : V () :=
  if versionMajor ctx <? 3 then throw errBadVersion
  else
    let alias := GetAlias tn (Assets.GetChain (sn_PreferredAsset tn)) in
    _ ← fail_when (Address_Equals alias NoAddress) "no alias for preferred asset, skip preferred asset swap";
    _ ← fail_when (amt =? 0) "can't execute preferred asset swap, accrued SWITCH amount is zero";
    acBalance ← at_core (GetSWITCHBalanceOfModule AffiliateCollectorName);
    _ ← fail_when (acBalance <? amt) "switch amount greater than module balance";
    let affCoin := NewCoin SwitchNative amt in
    asgardAddress ← lift (GetModuleAddress AsgardName);
    affColAddress ← lift (GetModuleAddress AffiliateCollectorName);
    paTxID ← lift (NewTxID (sha256_hex (preferred_swap_text ctx tn affCoin)));
    existingVoter ← observed (GetObservedTxInVoter paTxID);
    _ ← fail_when (negb (bool_decide (ov_Txs existingVoter = []))) "preferred asset tx already exists";
    let tx := NewTx paTxID affColAddress asgardAddress [affCoin] [] (PreferredAssetSwapMemoPrefix +:+ "-" +:+ sn_Name tn) in
    _ ← observed (SetObservedTxInVoter (made_voter ctx tx));
    _ ← in_queue (SetSwapQueueItem (market_swap tx (sn_PreferredAsset tn) alias (sn_Owner tn)) queueIndex);
    _ ← at_core (SendFromModuleToModule AffiliateCollectorName AsgardName [affCoin]);
    in_queue (SetAffiliateCollector (sn_Owner tn) 0).

(** What the collector owes the owner is swapped once it is some times the fee of
    an outbound; a swap that fails takes an index of the queue all the same. *)
Definition preferred_threshold (ofSWITCH : Z) : V Z :=
  multiplier ← at_core (GetConfigInt64 "PreferredAssetOutboundFeeMultiplier");
  lift (umul ofSWITCH (to_u64 multiplier)).
Definition swap_preferred_above (ctx : Ctx) (tn : SWITCHName) (amt threshold swapIndex : Z) : V Z :=
  if threshold <? amt then
    _ ← attempt (triggerPreferredAssetSwap ctx tn amt (swapIndex + 1));
    mret (swapIndex + 1)
  else mret swapIndex.
Definition updateAffiliateCollector (ctx : Ctx) (c : Coin) (tn : SWITCHName) (swapIndex : Z) : V Z :=
  if versionMajor ctx <? 3 then throw "unsupported version"
  else
    amt ← in_queue (GetAffiliateCollector (sn_Owner tn));
    _ ← at_core (SendFromModuleToModule AsgardName AffiliateCollectorName [c]);
    amt ← lift (uadd amt (coin_amount c));
    _ ← in_queue (SetAffiliateCollector (sn_Owner tn) amt);
    fee ← attempt (Gas.GetAssetOutboundFee ctx (sn_PreferredAsset tn) true);
    match fee with
    | inr _ => mret swapIndex
    | inl ofSWITCH =>
        threshold ← preferred_threshold ofSWITCH;
        swap_preferred_above ctx tn amt threshold swapIndex
    end.

(** ** Swaps of a fee to SWITCH *)

Definition emission (msg : MsgSwap) (source : Coin) : V Z :=
  let target := TargetAsset msg in
  if negb (Assets.IsSwitch (coin_asset source)) && negb (Assets.IsSwitch target) then
    sourcePool ← at_core (GetPool (Assets.GetLayer1Asset (coin_asset source)));
    targetPool ← at_core (GetPool (Assets.GetLayer1Asset target));
    emit ← lift (CalcAssetEmission (BalanceAsset sourcePool) (coin_amount source) (BalanceSwitch sourcePool));
    lift (CalcAssetEmission (BalanceSwitch targetPool) emit (BalanceAsset targetPool))
  else if Assets.IsSwitch (coin_asset source) then
    p ← at_core (GetPool (Assets.GetLayer1Asset target));
    lift (CalcAssetEmission (BalanceSwitch p) (coin_amount source) (BalanceAsset p))
  else
    p ← at_core (GetPool (Assets.GetLayer1Asset (coin_asset source)));
    lift (CalcAssetEmission (BalanceAsset p) (coin_amount source) (BalanceSwitch p)).
Definition willSwapOutputExceedLimitAndFees (ctx : Ctx) (msg : MsgSwap) : V bool :=
  source ← lift (first_coin (sm_Tx msg));
  emit ← emission msg source;
  fee ← attempt (Gas.GetAssetOutboundFee ctx (TargetAsset msg) false);
  match fee with
  | inr _ => mret false
  | inl transactionFeeAsset => least ← lift (uadd (sm_TradeTarget msg) transactionFeeAsset); mret (least <? emit)
  end.

(** The fee of a name that prefers another asset goes to the collector; when the
    collector holds enough of what it had before, that is swapped as well. *)
Definition to_collector (ctx : Ctx) (tn : SWITCHName) (affAddr : string) (swap : MsgSwap) (swapIndex : Z) : V (MsgSwap * Z) :=
  amt ← in_queue (GetAffiliateCollector (sn_Owner tn));
  affColAddress ← lift (GetModuleAddress AffiliateCollectorName);
  fee ← attempt (Gas.GetAssetOutboundFee ctx (sn_PreferredAsset tn) true);
  threshold ← preferred_threshold (match fee with inl f => f | inr _ => 0 end);
  swapIndex ← (match fee with
               | inl _ => swap_preferred_above ctx tn amt threshold swapIndex
               | inr _ => mret swapIndex
               end);
  mret (set_Destination affColAddress affAddr swap, swapIndex).
Definition affiliateSwapToSWITCH (ctx : Ctx) (mainTx : Tx) (signer : string) (affAmt : Z) (affAcc : string)
    (tn : option SWITCHName) (swapIndex : Z) : V Z :=
  if versionMajor ctx <? 3 then throw errBadVersion
  else
    affAddr ← lift (NewAddress affAcc);
    let tnMemo := match tn with Some tn => sn_Name tn | None => affAddr end in
    let mainTx := mkTx (tx_ID mainTx) (tx_Chain mainTx) (FromAddress mainTx) (ToAddress mainTx) (tx_Coins mainTx)
                    (tx_Gas mainTx) (NewSwapMemo SwitchNative affAddr 0 tnMemo 0) in
    let swap := market_swap mainTx SwitchNative affAddr signer in
    willSucceed ← willSwapOutputExceedLimitAndFees ctx swap;
    _ ← fail_when (negb willSucceed) "swap will not succeed, skipping affiliate swap";
    '(swap, swapIndex) ←
      (match tn with
       | Some tn =>
           if negb (bool_decide (sn_Owner tn = "")) && negb (Assets.IsEmpty (sn_PreferredAsset tn))
           then to_collector ctx tn affAddr swap swapIndex else mret (swap, swapIndex)
       | None => mret (swap, swapIndex)
       end);
    let coins := match tx_Coins mainTx with
                 | c :: r => (if affAmt <=? coin_amount c then set_coin_amount affAmt c else c) :: r
                 | [] => []
                 end in
    _ ← in_queue (SetSwapQueueItem (set_sm_Tx (set_tx_Coins coins mainTx) swap) (swapIndex + 1));
    mret (swapIndex + 1).

(** ** The fees of a memo *)

(** Who is paid: the name of the affiliate, if it has one, and the account. None
    when the affiliate cannot be paid. *)
Definition affiliate_account (ctx : Ctx) (affiliate : string) : V (option (option SWITCHName * string)) :=
  exists_ ← at_core (SWITCHNameExists ctx affiliate);
  if exists_ : bool then
    found ← attempt (at_core (GetSWITCHName ctx affiliate));
    mret (match found with
          | inr _ => None
          | inl tn =>
              if negb (CanReceiveAffiliateFee tn) then None
              else
                let addr := GetAlias tn SWITCHLYChain in
                if negb (blank addr) then
                  match AccAddressFromBech32 addr with Ok acc => Some (Some tn, acc) | _ => None end
                else Some (Some tn, sn_Owner tn)
          end)
  else
    mret (match NewAddress affiliate with
          | Ok addr =>
              if negb (Chains.IsSWITCHLYChain (Address_GetChain addr)) then None
              else match AccAddressFromBech32 addr with Ok acc => Some (None, acc) | _ => None end
          | _ => None
          end).

(** One fee, paid in SWITCH or swapped to it; answers the index of the queue. *)
Definition distribute (ctx : Ctx) (mainTx : Tx) (signer : string) (affCoin : Coin) (tn : option SWITCHName) (acc : string)
    (swapIndex : Z) : V Z :=
  if Assets.IsSwitch (coin_asset affCoin) then
    match tn with
    | Some tn =>
        if negb (Assets.IsEmpty (sn_PreferredAsset tn)) then updateAffiliateCollector ctx affCoin tn swapIndex
        else _ ← at_core (SendFromModuleToAccount AsgardName acc [affCoin]); mret swapIndex
    | None => _ ← at_core (SendFromModuleToAccount AsgardName acc [affCoin]); mret swapIndex
    end
  else affiliateSwapToSWITCH ctx mainTx signer (coin_amount affCoin) acc tn swapIndex.
Record Skim := mkSkim { sk_events : list Event; sk_total : Z; sk_index : Z }.
Definition skim_one (ctx : Ctx) (mainTx : Tx) (signer : string) (c : Coin) (affiliate : string) (feeBps : Z) (sk : Skim) : V Skim :=
  account ← affiliate_account ctx affiliate;
  match account with
  | None => mret sk
  | Some (tn, acc) =>
      if feeBps =? 0 then mret sk
      else
        let affAmt := GetSafeShare feeBps Amounts.MaxBasisPts (coin_amount c) in
        paid ← attempt (distribute ctx mainTx signer (NewCoin (coin_asset c) affAmt) tn acc (sk_index sk));
        match paid with
        | inr _ => mret sk
        | inl swapIndex =>
            bps ← lift (as_uint64 feeBps);
            total ← lift (uadd (sk_total sk) affAmt);
            mret (mkSkim (sk_events sk ++ [EvAffiliateFee (tx_ID mainTx) (match tn with Some tn => sn_Name tn | None => "" end)
                                             acc (coin_asset c) bps (coin_amount c) affAmt])%list total swapIndex)
        end
  end.
(** The affiliates with their basis points; one without any ends the program. *)
Fixpoint skim_all (ctx : Ctx) (mainTx : Tx) (signer : string) (c : Coin) (affiliates : list string) (bps : list Z) (sk : Skim) : V Skim :=
  match affiliates with
  | [] => mret sk
  | a :: r =>
      match bps with
      | [] => lift Panic
      | b :: bps => sk ← skim_one ctx mainTx signer c a b sk; skim_all ctx mainTx signer c r bps sk
      end
  end.
Definition skimAffiliateFees (ctx : Ctx) (mainTx : Tx) (signer : string) (c : Coin) (memoStr : string) : V Z :=
  if versionMajor ctx <? 3 then throw errBadVersion
  else
    _ ← fail_when (Tx_IsEmpty mainTx) "main tx is empty";
    _ ← fail_when (Coin_IsEmpty c) "coin is empty";
    '(memo, e) ← at_core (read_memo ctx memoStr);
    match e with
    | Some err => throw err
    | None =>
        let affiliates := GetAffiliates memo in
        let bps := GetAffiliatesBasisPoints memo in
        if bool_decide (affiliates = []) || bool_decide (bps = []) then mret 0
        else
          sk ← skim_all ctx mainTx signer c affiliates bps (mkSkim [] 0 1);
          _ ← for_each (λ e, at_core (EmitEvent e)) (sk_events sk);
          mret (sk_total sk)
    end.
End Affiliates.

(** ** The collector can pay what it owes *)

Section AffiliateFacts.
  Context `{CosmosMath} `{Bank} `{Env} `{!PubKeys} `{!SortSlice}.
Abbreviation V := (M VaultState).

Definition switch_denom : string := Assets.Native SwitchNative.
Definition owed (s : VaultState) : Z := map_sum (λ x, x) (collectors (vs_queue s)).
Definition owed_to (owner : string) (s : VaultState) : Z := default 0 (collectors (vs_queue s) !! GetKey owner).
(** The collector module holds [k] more than it owes the owners of names together,
    and the supplies are [supply]. *)
Definition covers (supply : string → Z) (k : Z) (s : VaultState) : Prop :=
  owed s + k ≤ bank_balance (bank (the_core s)) (Module_acc AffiliateCollectorName) switch_denom ∧
  ∀ d, bank_supply (bank (the_core s)) d = supply d.
Definition backed (supply : string → Z) : VaultState → Prop := covers supply 0.

Context (supply : string → Z).

(** *** Steps that only read *)

Lemma reads_account ctx a : only_reads (affiliate_account ctx a).
Proof. unfold affiliate_account, SWITCHNameExists. reads. Qed.
Lemma reads_threshold f : only_reads (preferred_threshold f).
Proof. unfold preferred_threshold. reads. Qed.
Lemma reads_emission msg source : only_reads (emission msg source).
Proof. unfold emission. reads. Qed.
Lemma reads_succeeds ctx msg : only_reads (willSwapOutputExceedLimitAndFees ctx msg).
Proof. unfold willSwapOutputExceedLimitAndFees. repeat first [apply reads_emission|reads]. Qed.
Lemma reads_collector owner : only_reads (in_queue (GetAffiliateCollector owner) : V Z).
Proof. by apply only_reads_in_queue. Qed.

(** *** Money *)

Definition at_collector (p : party) (a : Z) : Z := if bool_decide (p = Module_acc AffiliateCollectorName) then a else 0.
Lemma at_collector_self a : at_collector (Module_acc AffiliateCollectorName) a = a.
Proof. unfold at_collector. by rewrite bool_decide_true. Qed.
Lemma at_collector_other p a : p ≠ Module_acc AffiliateCollectorName → at_collector p a = 0.
Proof. intros Hp. unfold at_collector. by rewrite bool_decide_false. Qed.
Lemma at_collector_decides p a d :
  (if decide (Module_acc AffiliateCollectorName = p ∧ d = d :> string) then a else 0) = at_collector p a.
Proof. unfold at_collector. case_bool_decide; case_decide; naive_solver. Qed.
Lemma send_covers src dst c k owner amt :
  Assets.IsSwitch (coin_asset c) = true →
  yields (λ s, covers supply k s ∧ owed_to owner s = amt) (λ s, covers supply k s ∧ owed_to owner s = amt)
    (at_core (in_bank (bank_send src dst (map native_coin [c]))))
    (λ _ s, covers supply (k + at_collector dst (coin_amount c) - at_collector src (coin_amount c)) s ∧ owed_to owner s = amt).
Proof.
  intros Hc s [[Hle Hsup] Ho]. cbn [map]. assert (native_coin c = (switch_denom, coin_amount c)) as ->.
  { unfold native_coin, switch_denom, Assets.Native. by rewrite Hc. }
  rewrite at_core_run. unfold in_bank. destruct (bank_send _ _ _ (bank (the_core s))) as [[[]|e|] b] eqn:E; cbn; [| |done].
  - apply bank_send_law in E as (Ha & Hs & Hb). split; [|done]. split.
    + change (owed s + (k + at_collector dst (coin_amount c) - at_collector src (coin_amount c)) ≤
        bank_balance b (Module_acc AffiliateCollectorName) switch_denom).
      rewrite Hb, !at_collector_decides. lia.
    + intros d. by rewrite Hs.
  - apply bank_send_fails in E as ->. by split.
Qed.
Lemma set_covers owner amt k k' v :
  k' = k + v - amt →
  yields (backed supply) (λ s, covers supply k s ∧ owed_to owner s = v) (in_queue (SetAffiliateCollector owner amt))
    (λ _ s, covers supply k' s ∧ owed_to owner s = amt).
Proof.
  intros -> s [[Hle Hsup] Ho]. cbn. split; [split|].
  - assert (owed (put_queue (put_collectors (<[GetKey owner:=amt]> (collectors (vs_queue s))) (vs_queue s)) s) = owed s - v + amt) as ->.
    { unfold owed, owed_to in *. cbn. rewrite map_sum_insert. by destruct (collectors (vs_queue s) !! GetKey owner); cbn in *; subst. }
    change (owed s - v + amt + (k + v - amt) ≤ bank_balance (bank (the_core s)) (Module_acc AffiliateCollectorName) switch_denom). lia.
  - done.
  - unfold owed_to. cbn. by rewrite lookup_insert_eq.
Qed.

(** The swap of what is owed pays it into the pools' module and owes nothing more. *)
Lemma trigger_backed ctx tn amt i :
  yields (backed supply) (λ s, backed supply s ∧ owed_to (sn_Owner tn) s = amt) (triggerPreferredAssetSwap ctx tn amt i) (λ _, backed supply).
Proof.
  assert (Hweak : ∀ s, backed supply s ∧ owed_to (sn_Owner tn) s = amt → backed supply s) by naive_solver.
  unfold triggerPreferredAssetSwap, GetSWITCHBalanceOfModule. cbv zeta. destruct (versionMajor ctx <? 3); [by apply yields_throw|].
  do 9 known_step.
  do 2 (eapply yields_bind with (Q := λ _ s, backed supply s ∧ owed_to (sn_Owner tn) s = amt); [by intros s Hs|intros []]).
  eapply yields_bind.
  - eapply yields_weaken; [exact Hweak|intros s Hs; exact Hs|intros ? s Hs; exact Hs|by apply (send_covers _ _ _ 0)].
  - intros []. eapply yields_weaken; [| | |eapply (set_covers _ 0 _ 0)]; [done|intros s Hs; exact Hs|naive_solver|].
    rewrite at_collector_self, at_collector_other by done. cbn. lia.
Qed.
Lemma above_backed ctx tn amt threshold i :
  yields (backed supply) (λ s, backed supply s ∧ owed_to (sn_Owner tn) s = amt) (swap_preferred_above ctx tn amt threshold i)
    (λ _, backed supply).
Proof.
  unfold swap_preferred_above. destruct (_ <? _); [|apply yields_ret; naive_solver].
  eapply yields_bind with (Q := λ _, backed supply); [|by intros ? ? ?].
  apply yields_attempt; [done|apply trigger_backed].
Qed.
Lemma update_backed ctx c tn i : Assets.IsSwitch (coin_asset c) = true → keeps (backed supply) (updateAffiliateCollector ctx c tn i).
Proof.
  intros Hc. unfold updateAffiliateCollector, keeps. destruct (_ <? 3); [by apply yields_throw|].
  eapply yields_bind with (Q := λ amt s, backed supply s ∧ owed_to (sn_Owner tn) s = amt); [by intros s Hs|intros amt; cbn beta].
  eapply yields_bind.
  { eapply yields_weaken; [|intros s Hs; exact Hs|intros ? s Hs; exact Hs|by apply (send_covers _ _ _ 0)]. naive_solver. }
  intros []. cbn beta. rewrite at_collector_self, at_collector_other by done.
  eapply yields_bind with (Q := λ v s, covers supply (coin_amount c) s ∧ owed_to (sn_Owner tn) s = amt ∧ v = amt + coin_amount c).
  { apply yields_lift; [intros e; apply uadd_no_err|]. intros v s [Hv _]%uadd_inv [Hc' Ho]. rewrite Z.add_0_l, Z.sub_0_r in Hc'. by split_and!. }
  intros v. cbn beta. eapply yields_bind with (Q := λ _ s, backed supply s ∧ owed_to (sn_Owner tn) s = v).
  { intros s (Hs & Ho & ->). eapply (set_covers _ (amt + coin_amount c) _ 0 amt); [|by split]. lia. }
  intros []. cbn beta. assert (Hweak : ∀ s, backed supply s ∧ owed_to (sn_Owner tn) s = v → backed supply s) by naive_solver.
  known_step. destruct a; [|by apply yields_ret]. eapply yields_bind; [apply yields_reads; [apply reads_threshold|auto]|intros ?; apply above_backed].
Qed.

Lemma to_collector_backed ctx tn addr swap i : keeps (backed supply) (to_collector ctx tn addr swap i).
Proof.
  unfold to_collector, keeps.
  eapply yields_bind with (Q := λ amt s, backed supply s ∧ owed_to (sn_Owner tn) s = amt); [by intros s Hs|intros amt; cbn beta].
  assert (Hweak : ∀ s, backed supply s ∧ owed_to (sn_Owner tn) s = amt → backed supply s) by naive_solver.
  do 2 known_step. eapply yields_bind; [apply yields_reads; [apply reads_threshold|auto]|intros threshold; cbn beta].
  eapply yields_bind with (Q := λ _, backed supply); [|intros j; by apply yields_ret].
  destruct a0; [apply above_backed|by apply yields_ret].
Qed.
Lemma swap_backed ctx tx signer amt acc tn i : keeps (backed supply) (affiliateSwapToSWITCH ctx tx signer amt acc tn i).
Proof.
  unfold affiliateSwapToSWITCH. cbv zeta.
  repeat first [apply to_collector_backed|apply keeps_reads, reads_succeeds|by intros ? ?|keeps_step].
Qed.
Lemma pay_backed acc c : Assets.IsSwitch (coin_asset c) = true → keeps (backed supply) (at_core (SendFromModuleToAccount AsgardName acc [c])).
Proof.
  intros Hc s Hs. pose proof (send_covers (Module_acc AsgardName) (User_acc acc) c 0 "" (owed_to "" s) Hc s (conj Hs eq_refl)) as Hrun.
  unfold SendFromModuleToAccount. rewrite !at_collector_other in Hrun by done. destruct (at_core _ s) as [[[]|e|] s']; [by destruct Hrun..|done].
Qed.
Lemma distribute_backed ctx tx signer c tn acc i : keeps (backed supply) (distribute ctx tx signer c tn acc i).
Proof.
  unfold distribute. destruct (Assets.IsSwitch _) eqn:Hc; [|apply swap_backed].
  repeat first [by apply update_backed|by apply pay_backed|keeps_step].
Qed.
Lemma skim_one_backed ctx tx signer c a b sk : keeps (backed supply) (skim_one ctx tx signer c a b sk).
Proof. unfold skim_one. repeat first [apply keeps_reads, reads_account|apply distribute_backed|keeps_step]. Qed.
Lemma skim_all_backed ctx tx signer c l bps sk : keeps (backed supply) (skim_all ctx tx signer c l bps sk).
Proof.
  revert bps sk. induction l as [|a l IH]; intros bps sk; cbn [skim_all]; [by apply keeps_reads|].
  destruct bps; [by apply keeps_reads|]. apply keeps_bind; [apply skim_one_backed|intros; apply IH].
Qed.

(** *** Announcements *)

Section Announced.
  Context (before : list Event).
Definition quiet_since (s : VaultState) : Prop := events (the_core s) = before.
Lemma bank_quiet {A} (m : M bank_state A) : keeps quiet_since (at_core (in_bank m)).
Proof. intros s Hs. rewrite at_core_run. unfold in_bank. destruct (m _) as [r b]. by destruct r. Qed.
Lemma trigger_quiet ctx tn amt i : keeps quiet_since (triggerPreferredAssetSwap ctx tn amt i).
Proof.
  unfold triggerPreferredAssetSwap. repeat first [apply bank_quiet|by intros s Hs|keeps_step].
Qed.
Lemma above_quiet ctx tn amt threshold i : keeps quiet_since (swap_preferred_above ctx tn amt threshold i).
Proof. unfold swap_preferred_above. repeat first [apply trigger_quiet|keeps_step]. Qed.
Lemma reads_fee ctx a b : only_reads (attempt (Gas.GetAssetOutboundFee ctx a b)).
Proof. reads. Qed.
Lemma distribute_quiet ctx tx signer c tn acc i : keeps quiet_since (distribute ctx tx signer c tn acc i).
Proof.
  unfold distribute, updateAffiliateCollector, affiliateSwapToSWITCH, to_collector. cbv zeta.
  repeat first [apply above_quiet|apply bank_quiet|apply keeps_reads, reads_threshold|apply keeps_reads, reads_fee
               |apply keeps_reads, reads_succeeds|by intros ? ?|keeps_step].
Qed.
End Announced.

Definition fee_of (e : Event) : Z := match e with EvAffiliateFee _ _ _ _ _ _ fee => fee | _ => 0 end.
(** The total of a fold is what its events announce. *)
Definition announces (sk : Skim) : Prop := sk_total sk = sumZ (fee_of <$> sk_events sk).
Lemma skim_one_announces before ctx tx signer c a b sk :
  announces sk → yields (quiet_since before) (quiet_since before) (skim_one ctx tx signer c a b sk) (λ sk' s, announces sk' ∧ quiet_since before s).
Proof.
  intros Hsk. unfold skim_one. eapply yields_bind; [apply yields_reads; [apply reads_account|done]|].
  intros [[tn acc]|]; cbn beta; [|by apply yields_ret]. destruct (_ =? 0); [by apply yields_ret|]. cbv zeta.
  eapply yields_bind; [apply keeps_attempt, distribute_quiet|]. intros [i|e]; cbn beta; [|by apply yields_ret].
  known_step. eapply yields_bind with (Q := λ t s, t = sk_total sk + GetSafeShare b Amounts.MaxBasisPts (coin_amount c) ∧ quiet_since before s).
  - apply yields_lift; [intros e; apply uadd_no_err|]. by intros t s [Ht _]%uadd_inv Hs.
  - intros t s [-> Hs]. split; [|done]. unfold announces in *. cbn. rewrite fmap_app, sumZ_app. cbn. lia.
Qed.
Lemma skim_all_announces before ctx tx signer c l bps sk :
  announces sk → yields (quiet_since before) (quiet_since before) (skim_all ctx tx signer c l bps sk) (λ sk' s, announces sk' ∧ quiet_since before s).
Proof.
  revert bps sk. induction l as [|a l IH]; intros bps sk Hsk; cbn [skim_all]; [by apply yields_ret|].
  destruct bps as [|b bps]; [by intros s Hs|]. eapply yields_bind; [by apply skim_one_announces|].
  intros sk' s [Hsk' Hs]. by apply (IH bps sk' Hsk' s).
Qed.
Lemma emit_all l s : ∃ s', for_each (λ e, at_core (EmitEvent e)) l s = (Ok (), s') ∧ events (the_core s') = (events (the_core s) ++ l)%list.
Proof.
  revert s. induction l as [|e l IH]; intros s; cbn [for_each]; [exists s; by rewrite app_nil_r|].
  destruct (IH (with_core (put_events (events (the_core s) ++ [e])%list (the_core s)) s)) as (s' & Hrun & Hev).
  exists s'. split; [exact Hrun|]. rewrite Hev. cbn. by rewrite <- app_assoc.
Qed.

(** C22: The fees of a memo only move SWITCH: the supplies stay what they were, the
    collector module still holds what it owes to the owners of names, and the
    total that is taken from the customer is what the events announce.  Nothing is
    announced when the fees cannot be taken at all. *)
Theorem skimAffiliateFees_stays_backed ctx tx signer c memo s :
  backed supply s →
  match skimAffiliateFees ctx tx signer c memo s with
  | (Ok total, s') => backed supply s' ∧ ∃ fees, events (the_core s') = (events (the_core s) ++ fees)%list ∧ total = sumZ (fee_of <$> fees)
  | (Err _, s') => backed supply s' ∧ events (the_core s') = events (the_core s)
  | (Panic, _) => True
  end.
Proof.
  intros Hs. unfold skimAffiliateFees. destruct (versionMajor ctx <? 3); [done|].
  unfold fail_when, lift. destruct (Tx_IsEmpty tx); [done|]. destruct (Coin_IsEmpty c); [done|].
  unfold mbind at 1, M_bind at 1. cbn [fail_if]. unfold mbind at 1, M_bind at 1.
  unfold mbind at 1, M_bind at 1. rewrite at_core_reads by done. unfold read_memo, gets. cbn [fst].
  destruct (ParseMemoWithSWITCHNames ctx (the_core s) memo) as [m [e|]]; [done|].
  destruct (_ || _); [split; [done|]; exists []; by rewrite app_nil_r|].
  pose proof (skim_all_backed ctx tx signer c (GetAffiliates m) (GetAffiliatesBasisPoints m) (mkSkim [] 0 1) s Hs) as Hb.
  pose proof (skim_all_announces (events (the_core s)) ctx tx signer c (GetAffiliates m) (GetAffiliatesBasisPoints m)
    (mkSkim [] 0 1) eq_refl s eq_refl) as Ha.
  unfold mbind, M_bind in *. destruct (skim_all _ _ _ _ _ _ _ s) as [[sk|e|] s1]; [|by split|done].
  destruct Ha as [Hsk Hev]. pose proof (keeps_for_each (backed supply) (λ e, at_core (EmitEvent e)) (sk_events sk)) as Hem.
  destruct (emit_all (sk_events sk) s1) as (s' & Hrun & He). specialize (Hem ltac:(by intros ? ? ?) s1 Hb). rewrite Hrun in Hem |- *.
  split; [exact Hem|]. exists (sk_events sk). by rewrite He, Hev.
Qed.
End AffiliateFacts.

(** ** Witness: a name that is paid and one whose fees are swapped *)

#[local] Existing Instance plain_keys.
#[local] Existing Instance insertion_sort.

Definition affiliates_block : Ctx := mkCtx 9 3 "".
Definition with_names : State :=
  put_bank (BankRef.mkLedger {[ (Module_acc AsgardName, "switch") := 1000000 ]} {[ "switch" := 1000000 ]})
    (snd ((_ ← SetSWITCHName (mkSWITCHName "ann" 1000 "swtc1ann" EmptyAsset [mkAlias SWITCHLYChain "swtc1ann"]);
           SetSWITCHName (mkSWITCHName "eve" 1000 "swtc1eve" BTCAsset [mkAlias BTCChain "bc1eve"])) empty_state)).
Definition affiliates_state : VaultState := with_core with_names no_vaults.
Definition affiliates_memo : string := "SWAP:ETH.ETH:0xto::ann/eve:100/200".
Definition affiliates_tx : Tx := NewTx (ToUpper (sha256_hex "tx")) "swtc1from" "swtc1to" [NewCoin SwitchNative 100000] [] affiliates_memo.

Lemma skimAffiliateFees_stays_backed_witness :
  let run := skimAffiliateFees affiliates_block affiliates_tx "swtc1signer" (NewCoin SwitchNative 100000) affiliates_memo affiliates_state in
  fst run = Ok 3000 ∧ backed (BankRef.supply (bank with_names)) (snd run) ∧
  bank_balance (bank (the_core (snd run))) (User_acc "swtc1ann") "switch" = 1000 ∧
  bank_balance (bank (the_core (snd run))) (Module_acc AsgardName) "switch" = 999000 ∧
  owed (snd run) = 0 ∧ size (swapQueue (vs_queue (snd run))) = 1%nat.
Proof.
  cbn zeta. set (run := skimAffiliateFees _ _ _ _ _ _).
  assert (fst run = Ok 3000) as Hrun by (vm_compute; reflexivity).
  split; [exact Hrun|]. split.
  - pose proof (skimAffiliateFees_stays_backed (BankRef.supply (bank with_names)) affiliates_block affiliates_tx "swtc1signer"
      (NewCoin SwitchNative 100000) affiliates_memo affiliates_state) as Hclaim. fold run in Hclaim.
    rewrite (run_pair _ _ Hrun) in Hclaim. apply Hclaim. split; [vm_compute; discriminate|done].
  - split; [vm_compute; reflexivity|]. split; [vm_compute; reflexivity|]. split; vm_compute; reflexivity.
Defined.
