(* ===== verification/TxOuts.v ===== *)
(** * Outbounds of the chain

    src/x/switchly/manager_txout_current.go, updateTxOutGas and
    updateTxOutGasRate of helpers.go and types/type_tx_out.go: an outbound is
    given to vaults that can pay it, its fee goes to the pool and the reserve, and
    it waits in a block that its value, the value that waits already and the clout
    of its addresses decide; an outbound on the chain itself is paid at once. *)

From Stdlib Require Import Ascii.
From stdpp Require Import pretty sorting.
From S2P Require Import Prelude Runs GoStrings GoNumbers CosmosMath Amounts Assets Coins Pools Constants State Txs MemoTypes MemoParser TradeAccounts SecuredAssets Swap Fees Liquidity Withdraw Nodes Quorum ObservedTx Attest Refunds SwapHandler SwapQueue Messages Dispatch Vaults Gas Layers Slasher Outbound Internal Security Affiliates.
Open Scope Z_scope.

(** [ConvertToNewBCHAddressFormat] (common/address.go), by the decoder of that
    chain. *)
Class BCHAddresses := { ConvertToNewBCHAddressFormat : string → outcome string }.

Definition EVMNullAddress : string := "0x0000000000000000000000000000000000000000".
Definition MemoPrefixRefund : string := "REFUND".
Definition MemoPrefixMigrate : string := "MIGRATE".
Definition MaxOpReturnDataSize : nat := 80.
Definition ErrNotEnoughToPayFee : error := "not enough asset to pay for fees".
Definition MaxMemoLength (c : Chain) : nat :=
  if bool_decide (c ∈ [BTCChain; LTCChain; BCHChain; DOGEChain]) then MaxOpReturnDataSize else MaxMemoSize.

(** ** Items *)

Definition set_toi_Coin (c : Coin) (t : TxOutItem) : TxOutItem :=
  mkToi (toi_Chain t) (toi_InHash t) (toi_ToAddress t) c (toi_Aggregator t) (toi_AggregatorTargetAsset t)
    (toi_AggregatorTargetLimit t) (toi_Memo t) (toi_MaxGas t) (toi_GasRate t) (toi_VaultPubKey t) (toi_ModuleName t)
    (toi_OutHash t) (toi_CloutSpent t).
Definition set_toi_amount (v : Z) (t : TxOutItem) : TxOutItem := set_toi_Coin (set_coin_amount v (toi_Coin t)) t.
Definition set_toi_names (inHash to memo : string) (t : TxOutItem) : TxOutItem :=
  mkToi (toi_Chain t) inHash to (toi_Coin t) (toi_Aggregator t) (toi_AggregatorTargetAsset t)
    (toi_AggregatorTargetLimit t) memo (toi_MaxGas t) (toi_GasRate t) (toi_VaultPubKey t) (toi_ModuleName t)
    (toi_OutHash t) (toi_CloutSpent t).
Definition set_toi_Memo (memo : string) (t : TxOutItem) : TxOutItem := set_toi_names (toi_InHash t) (toi_ToAddress t) memo t.
Definition set_toi_gas (gas : list Coin) (rate : Z) (t : TxOutItem) : TxOutItem :=
  mkToi (toi_Chain t) (toi_InHash t) (toi_ToAddress t) (toi_Coin t) (toi_Aggregator t) (toi_AggregatorTargetAsset t)
    (toi_AggregatorTargetLimit t) (toi_Memo t) gas rate (toi_VaultPubKey t) (toi_ModuleName t) (toi_OutHash t)
    (toi_CloutSpent t).
Definition set_toi_VaultPubKey (pk : string) (t : TxOutItem) : TxOutItem :=
  mkToi (toi_Chain t) (toi_InHash t) (toi_ToAddress t) (toi_Coin t) (toi_Aggregator t) (toi_AggregatorTargetAsset t)
    (toi_AggregatorTargetLimit t) (toi_Memo t) (toi_MaxGas t) (toi_GasRate t) pk (toi_ModuleName t) (toi_OutHash t)
    (toi_CloutSpent t).
Definition set_toi_limits (limit clout : option Z) (t : TxOutItem) : TxOutItem :=
  mkToi (toi_Chain t) (toi_InHash t) (toi_ToAddress t) (toi_Coin t) (toi_Aggregator t) (toi_AggregatorTargetAsset t)
    limit (toi_Memo t) (toi_MaxGas t) (toi_GasRate t) (toi_VaultPubKey t) (toi_ModuleName t) (toi_OutHash t) clout.

(** [TxOutItem.Equals], [TxOutItem.GetModuleName], [Gas.IsEmpty] *)
Definition Toi_Equals (m toi2 : TxOutItem) : bool :=
  Chains.Equals (toi_Chain m) (toi_Chain toi2) && Address_Equals (toi_ToAddress m) (toi_ToAddress toi2) &&
  bool_decide (toi_VaultPubKey m = toi_VaultPubKey toi2) && Coin_Equals (toi_Coin m) (toi_Coin toi2) &&
  TxID_Equals (toi_InHash m) (toi_InHash toi2) && bool_decide (toi_Memo m = toi_Memo toi2) &&
  (toi_GasRate m =? toi_GasRate toi2).
Definition GetModuleName (t : TxOutItem) : string :=
  if bool_decide (toi_ModuleName t = "") then AsgardName else toi_ModuleName t.
Definition Gas_IsEmpty (g : list Coin) : bool := forallb Coin_IsEmpty g.

Section Clout.
  Context `{CosmosMath} `{Bank} `{Env} `{!PubKeys} `{!SortSlice}.
Abbreviation V := (M VaultState).

(** ** Clout *)

(** The clout of the two addresses that is spent, at most the limit together, and
    the value that is left. *)
Definition limit_clout (limit clout1 clout2 : Z) : outcome (Z * Z) :=
  t ← uadd clout1 clout2;
  if limit <? t then
    halfLimit ← uquo limit 2;
    if (halfLimit <? clout1) && (halfLimit <? clout2) then Ok (halfLimit, halfLimit)
    else if clout2 <? clout1 then c ← SafeSub limit clout2; Ok (c, clout2)
    else if clout1 <? clout2 then c ← SafeSub limit clout1; Ok (clout1, c)
    else Ok (clout1, clout2)
  else Ok (clout1, clout2).
Definition splitClout (limit clout1 clout2 switchValue : Z) : outcome (Z * Z * Z) :=
  '(clout1, clout2) ← limit_clout limit clout1 clout2;
  totalClout ← uadd clout1 clout2;
  if limit <? totalClout then Ok (0, 0, switchValue)
  else if totalClout =? 0 then Ok (0, 0, switchValue)
  else
    let appliedClout := Z.min totalClout switchValue in
    m ← umul appliedClout clout1;
    amountFromClout1 ← uquo m totalClout;
    amountFromClout2 ← usub appliedClout amountFromClout1;
    spent ← uadd amountFromClout1 amountFromClout2;
    v ← SafeSub switchValue spent;
    Ok (amountFromClout1, amountFromClout2, v).

Definition spend_clout (ctx : Ctx) (amt : Z) (c : SwapperClout) : outcome SwapperClout :=
  spent ← uadd (Spent c) amt;
  Ok (mkClout (clout_address c) (Score c) (Reclaimed c) spent (BlockHeight ctx) (LastReclaimHeight c)).
Definition calcClout (ctx : Ctx) (switchValue : Z) (toi : TxOutItem) : V (Z * Z) :=
  if negb (bool_decide (toi_Aggregator toi = "")) || negb (bool_decide (toi_AggregatorTargetAsset toi = "")) ||
     negb (bool_decide (toi_AggregatorTargetLimit toi = None))
  then mret (switchValue, 0)
  else
    cloutOut ← at_core (GetSwapperClout (toi_ToAddress toi));
    voter ← observed (GetObservedTxInVoter (toi_InHash toi));
    cloutIn ← at_core (GetSwapperClout (FromAddress (ot_Tx (ov_Tx voter))));
    reset ← at_core (GetConfigInt64 "CloutReset");
    limit ← at_core (GetConfigInt64 "CloutLimit");
    let cloutOut := Clout_Restore (BlockHeight ctx) reset cloutOut in
    let cloutIn := Clout_Restore (BlockHeight ctx) reset cloutIn in
    availableIn ← lift (Clout_Available cloutIn);
    availableOut ← lift (Clout_Available cloutOut);
    '(clout1, clout2, newValue) ← lift (splitClout (SafeUintFromInt64 limit) availableIn availableOut switchValue);
    s1 ← lift (uadd newValue clout1);
    s2 ← lift (uadd s1 clout2);
    if negb (s2 =? switchValue) then mret (switchValue, 0)
    else
      _ ← (if clout1 =? 0 then mret ()
           else c ← lift (spend_clout ctx clout1 cloutIn); at_core (SetSwapperClout c));
      _ ← (if clout2 =? 0 then mret ()
           else
             c ← lift (if Address_Equals (clout_address cloutIn) (clout_address cloutOut)
                       then spent ← uadd (Spent cloutOut) clout1;
                            Ok (mkClout (clout_address cloutOut) (Score cloutOut) (Reclaimed cloutOut) spent
                                  (LastSpentHeight cloutOut) (LastReclaimHeight cloutOut))
                       else Ok cloutOut);
             c ← lift (spend_clout ctx clout2 c);
             at_core (SetSwapperClout c));
      applied ← lift (uadd clout1 clout2);
      mret (newValue, applied).
End Clout.

Section Discover.
  Context `{CosmosMath} `{Bank} `{Env} `{!PubKeys} `{!SortSlice} `{!KeyAddresses}.

(** ** Vaults for an outbound *)

(** How many vaults of the size would be needed, for the vaults that hold the
    asset and do not wait for the chain. *)
Definition frozen_for (c : Chain) (v : Vault) : bool := Chains.Has (fst (Chains.NewChains (Frozen v))) c.
Fixpoint vaultsNecessary (c : Chain) (coin : Coin) (vs : list Vault) : outcome (list (Vault * Z)) :=
  match vs with
  | [] => Ok []
  | v :: r =>
      let amt := coin_amount (Vault_GetCoin v (coin_asset coin)) in
      if amt =? 0 then vaultsNecessary c coin r
      else if negb (bool_decide (Frozen v = [])) && frozen_for c v then vaultsNecessary c coin r
      else
        q ← uquo (coin_amount coin) amt;
        estimate ← as_uint64 q;
        l ← vaultsNecessary c coin r;
        Ok ((v, estimate) :: l)
  end.
Definition fewer (x y : Vault * Z) : Prop := snd x <= snd y.
#[export] Instance fewer_dec : RelDecision fewer.
Proof. intros x y. apply Z.le_dec. Defined.
Definition order_vaults (c : Chain) (coin : Coin) (vs : list Vault) : outcome (list Vault) :=
  if (1 <? length vs)%nat then
    l ← vaultsNecessary c coin vs;
    Ok (fst <$> merge_sort fewer l)
  else Ok vs.

(** What the vault can send of the asset, after the gas when that is the asset
    itself; nothing when it cannot pay the fee or the gas, or sends to itself. *)
Definition can_send (fee : Z) (maxGas : Coin) (toi : TxOutItem) (v : Vault) : outcome (option Z) :=
  match key_address (PubKeyForChain v (toi_Chain toi)) (toi_Chain toi) with
  | Panic => Panic
  | Err _ => Ok None
  | Ok fromAddr =>
      let amt := coin_amount (Vault_GetCoin v (coin_asset (toi_Coin toi))) in
      let gasAsset := Vault_GetCoin v (GetGasAsset (toi_Chain toi)) in
      if blank fromAddr || Address_Equals (toi_ToAddress toi) fromAddr then Ok None
      else if amt <=? fee then Ok None
      else if Coin_IsEmpty gasAsset || (coin_amount gasAsset <? coin_amount maxGas) then Ok None
      else if Assets.Equals (coin_asset (toi_Coin toi)) (coin_asset maxGas) then
        amt ← SafeSub amt (coin_amount maxGas);
        Ok (if amt =? 0 then None else Some amt)
      else Ok (Some amt)
  end.
(** Each vault sends what it can until nothing remains. *)
Fixpoint allot (fee : Z) (maxGas : Coin) (toi : TxOutItem) (vs : list Vault) : outcome (list TxOutItem * Z) :=
  match vs with
  | [] => Ok ([], coin_amount (toi_Coin toi))
  | v :: r =>
      can ← can_send fee maxGas toi v;
      match can with
      | None => allot fee maxGas toi r
      | Some amt =>
          let toi := set_toi_VaultPubKey (v_PubKey v) toi in
          if coin_amount (toi_Coin toi) <=? amt then Ok ([toi], 0)
          else
            remaining ← SafeSub (coin_amount (toi_Coin toi)) amt;
            sent ← SafeSub (coin_amount (toi_Coin toi)) remaining;
            '(outputs, rest) ← allot fee maxGas (set_toi_amount remaining toi) r;
            Ok (set_toi_amount sent toi :: outputs, rest)
      end
  end.
Definition DiscoverOutbounds (fee : Z) (maxGas : Coin) (toi : TxOutItem) (vs : list Vault) : outcome (list TxOutItem * Z) :=
  vs ← order_vaults (Assets.GetChain (coin_asset maxGas)) (toi_Coin toi) vs;
  allot fee maxGas toi vs.
End Discover.

Section Schedule.
  Context `{CosmosMath} `{Bank} `{Env} `{!PubKeys} `{!SortSlice}.
Abbreviation V := (M VaultState).

(** ** The block of an outbound *)

(** The value and the clout of the blocks ahead, up to the first empty one beyond
    the largest offset. *)
Fixpoint scheduled (lastOffset : Z) (hs : list Z) (sumValue cloutValue : Z) : V (Z * Z) :=
  match hs with
  | [] => mret (sumValue, cloutValue)
  | h :: r =>
      '(value, clout) ← GetTxOutValue h;
      if (lastOffset <? h) && (value =? 0) then mret (sumValue, cloutValue)
      else
        sumValue ← lift (uadd sumValue value);
        cloutValue ← lift (uadd cloutValue clout);
        scheduled lastOffset r sumValue cloutValue
  end.
(** The first block from [target] on that is empty or has room, after at most
    [count] steps. *)
Fixpoint find_room (count : nat) (threshold switchValue target : Z) : V Z :=
  match count with
  | O => mret target
  | S n =>
      '(txOutValue, _) ← GetTxOutValue target;
      if txOutValue =? 0 then mret target
      else
        t ← lift (uadd txOutValue switchValue);
        if t <=? threshold then mret target else find_room n threshold switchValue (to_i64 (target + 1))
  end.
(** The delay of a value: fewer blocks the higher the rate, which what waits
    already lowers. *)
Definition min_blocks (threshold rate maxOffset switchValue sumValue cloutValue : Z) : outcome Z :=
  rest ← SafeSub sumValue cloutValue;
  m ← umul One rest;
  rateReduction ← uquo m threshold;
  delayRate ← (if rate <=? rateReduction then Ok 1 else usub rate rateReduction);
  minBlocks ← uquo switchValue delayRate;
  Ok (if maxOffset <? minBlocks then maxOffset else minBlocks).
Definition CalcTxOutHeight (ctx : Ctx) (toi : TxOutItem) : V (Z * Z) :=
  let '(memo, _) := ParseMemo (versionMajor ctx) (toi_Memo toi) in
  if negb (IsType memo TxRefund) && negb (IsType memo TxOutbound) then mret (BlockHeight ctx, 0)
  else
    threshold ← at_core (GetConfigInt64 "MinTxOutVolumeThreshold");
    rate ← at_core (GetConfigInt64 "TxOutDelayRate");
    txOutDelayMax ← at_core (GetConfigInt64 "TxOutDelayMax");
    maxTxOutOffset ← at_core (GetConfigInt64 "MaxTxOutOffset");
    if (threshold <=? 0) || (rate <=? 0) || (maxTxOutOffset <=? 0) then mret (BlockHeight ctx, 0)
    else
      '(switchValue, _) ← at_core (GetTOIsValue [toi]);
      '(switchValue, cloutApplied) ← calcClout ctx switchValue toi;
      if switchValue =? 0 then mret (BlockHeight ctx, cloutApplied)
      else
        '(sumValue, cloutValue) ← scheduled (to_i64 (BlockHeight ctx + maxTxOutOffset))
                                    (heights (to_i64 (BlockHeight ctx + 1)) (to_i64 (BlockHeight ctx + txOutDelayMax))) switchValue 0;
        minBlocks ← lift (min_blocks threshold rate maxTxOutOffset switchValue sumValue cloutValue);
        target ← find_room (Z.to_nat txOutDelayMax) threshold switchValue (to_i64 (BlockHeight ctx + minBlocks));
        mret (target, cloutApplied).

(** ** The actions of a voter follow its outbounds *)

Fixpoint change_first (f : TxOutItem → TxOutItem) (txOut : TxOutItem) (l : list TxOutItem) : option (list TxOutItem) :=
  match l with
  | [] => None
  | t :: r => if Toi_Equals t txOut then Some (f t :: r) else (cons t) <$> change_first f txOut r
  end.
Definition set_Actions (l : list TxOutItem) (m : ObservedTxVoter) : ObservedTxVoter :=
  mkVoter (ov_TxID m) (ov_Tx m) (ov_Height m) (ov_Txs m) l (OutTxs m) (FinalisedHeight m)
    (UpdatedVault m) (Reverted m) (OutboundHeight m).
Definition update_action (txOut : TxOutItem) (f : TxOutItem → TxOutItem) : V () :=
  if bool_decide (toi_InHash txOut = BlankTxID) then mret ()
  else
    voter ← observed (GetObservedTxInVoter (toi_InHash txOut));
    match change_first f txOut (Actions voter) with
    | Some l => observed (SetObservedTxInVoter (set_Actions l voter))
    | None => throw ("fail to find tx out in ObservedTxVoter " +:+ toi_InHash txOut)
    end.
Definition updateTxOutGas (txOut : TxOutItem) (gas : list Coin) : V () :=
  update_action txOut (λ t, set_toi_gas gas (toi_GasRate t) t).
Definition updateTxOutGasRate (txOut : TxOutItem) (gasRate : Z) : V () :=
  update_action txOut (λ t, set_toi_gas (toi_MaxGas t) gasRate t).

(** ** The end of the block *)

Definition refresh_item (ctx : Ctx) (tx : TxOutItem) : V TxOutItem :=
  voter ← observed (GetObservedTxInVoter (toi_InHash tx));
  if (0 <? OutboundHeight voter) && (OutboundHeight voter <? BlockHeight ctx) then mret tx
  else
    maxGas ← Gas.GetMaxGas (toi_Chain tx);
    rate ← Gas.GetGasRate ctx (toi_Chain tx);
    rate ← lift (as_uint64 rate);
    let gasRate := to_i64 rate in
    tx' ← (if match toi_MaxGas tx with
              | [] => true
              | g :: _ => negb (Coin_IsEmpty maxGas) && negb (coin_amount maxGas =? coin_amount g)
              end
           then _ ← attempt (updateTxOutGas tx [maxGas]); mret (set_toi_gas [maxGas] (toi_GasRate tx) tx)
           else mret tx);
    if (0 <? gasRate) && negb (toi_GasRate tx' =? gasRate) then
      _ ← attempt (updateTxOutGasRate tx gasRate);
      mret (set_toi_gas (toi_MaxGas tx') gasRate tx')
    else mret tx'.
Fixpoint refresh_items (ctx : Ctx) (l : list TxOutItem) : V (list TxOutItem) :=
  match l with
  | [] => mret []
  | t :: r => t' ← refresh_item ctx t; r' ← refresh_items ctx r; mret (t' :: r')
  end.
Definition GetBlockOut (ctx : Ctx) : V (list TxOutItem) := GetTxOut (BlockHeight ctx).
Definition TxOut_EndBlock (ctx : Ctx) : V () :=
  items ← GetBlockOut ctx;
  items ← refresh_items ctx items;
  SetTxOut (BlockHeight ctx) items.
Definition GetOutboundItemByToAddress (ctx : Ctx) (to : string) : V (list TxOutItem) :=
  items ← GetBlockOut ctx;
  mret (List.filter (λ t, Address_Equals (toi_ToAddress t) to) items).
Definition ClearOutboundItems (ctx : Ctx) : V () := ClearTxOut (BlockHeight ctx).
End Schedule.

Section TxOuts.
  Context `{CosmosMath} `{Bank} `{Env} `{!Managers} `{!GasManager} `{!SaverSwaps} `{!WithdrawSwaps} `{!SwapParams} `{!FollowOns} `{!PubKeys} `{!SortSlice} `{!AddressCodec} `{!TokenLists} `{!KeyAddresses} `{!OtherHandlers} `{!BCHAddresses}.
Abbreviation V := (M VaultState).

(** ** Preparing an outbound *)

(** What follows a bar in the memo of the inbound is handed on, as far as the
    chain's memos are long. *)
Definition handed_on (toi : TxOutItem) (inboundMemo : string) : TxOutItem :=
  match SplitN "|"%char 2 inboundMemo with
  | [_; rest] => set_toi_Memo (String.substring 0 (MaxMemoLength (toi_Chain toi)) (toi_Memo toi +:+ "|" +:+ rest)) toi
  | _ => toi
  end.
Definition with_memo (toi : TxOutItem) : V TxOutItem :=
  let toi := if bool_decide (toi_Memo toi = "") then set_toi_Memo (Memo_String (NewOutboundMemo (toi_InHash toi))) toi else toi in
  if TxID_IsEmpty (toi_InHash toi) then mret (set_toi_names BlankTxID (toi_ToAddress toi) (toi_Memo toi) toi)
  else
    inboundVoter ← observed (GetObservedTxInVoter (toi_InHash toi));
    mret (handed_on toi (Memo (ot_Tx (ov_Tx inboundVoter)))).
Definition new_format (toi : TxOutItem) : outcome TxOutItem :=
  if negb (Chains.Equals (toi_Chain toi) BCHChain) then Ok toi
  else
    newBCHAddress ← ConvertToNewBCHAddressFormat (toi_ToAddress toi);
    if blank newBCHAddress then Err "empty to address , can't send out"
    else Ok (set_toi_names (toi_InHash toi) newBCHAddress (toi_Memo toi) toi).

(** The vaults of a status, the least secure first, without what they are to send
    already. *)
Definition vaults_for (ctx : Ctx) (st : VaultStatus) (pending : list TxOutItem) : V (list Vault) :=
  found ← attempt (GetAsgardVaultsByStatus ctx st);
  vs ← SortBySecurity ctx (match found with inl l => l | inr _ => [] end) (GetInt64Value int64Overrides "SigningTransactionPeriod");
  lift (map_outcome (DeductVaultPendingOutbounds pending) vs).
Definition choose_vaults (ctx : Ctx) (toi : TxOutItem) (transactionFee : Z) (maxGasAsset : Coin) : V (list TxOutItem) :=
  if Chains.IsSWITCHLYChain (toi_Chain toi) || negb (bool_decide (toi_VaultPubKey toi = "")) then mret [toi]
  else
    pending ← GetPendingOutbounds ctx (coin_asset (toi_Coin toi));
    active ← vaults_for ctx ActiveVault pending;
    retiring ← vaults_for ctx RetiringVault pending;
    '(outputs, remaining) ← lift (DiscoverOutbounds transactionFee maxGasAsset toi (active ++ retiring)%list);
    _ ← fail_when (negb (remaining =? 0)) "insufficient funds for outbound request";
    mret outputs.

(** *** The fee of each output *)

Record Prepared := mkPrepared {
  pr_final : list TxOutItem;
  pr_pool : Pool;
  pr_fees : list (string * list Coin * Z);
  pr_switchFee : Z;
}.
Definition fill_gas (ctx : Ctx) (o : TxOutItem) : V TxOutItem :=
  if negb (Gas_IsEmpty (toi_MaxGas o)) then mret o
  else
    maxGasCoin ← Gas.GetMaxGas (toi_Chain o);
    _ ← fail_when (Gas_IsEmpty [maxGasCoin] && negb (Chains.Equals (toi_Chain o) SWITCHLYChain)) "max gas cannot be empty";
    rate ← Gas.GetGasRate ctx (toi_Chain o);
    rate ← lift (as_uint64 rate);
    mret (set_toi_gas [maxGasCoin] (to_i64 rate) o).
(** SWITCH pays the fee itself. *)
Definition switch_fee (transactionFee : Z) (o : TxOutItem) (p : Prepared) : outcome (TxOutItem * Prepared) :=
  let amt := coin_amount (toi_Coin o) in
  let fee := if amt <=? transactionFee then amt else transactionFee in
  total ← uadd (pr_switchFee p) fee;
  rest ← SafeSub amt fee;
  Ok (set_toi_amount rest o,
      mkPrepared (pr_final p) (pr_pool p) (pr_fees p ++ [(toi_InHash o, [NewCoin (coin_asset (toi_Coin o)) fee], 0)])%list total).
(** Synthetic and derived assets are burnt where they are sent from. *)
Definition burn_fee (o : TxOutItem) (assetFee : Z) : V () :=
  let a := coin_asset (toi_Coin o) in
  if (Synth a || Assets.IsDerivedAsset a) && bool_decide (GetModuleName o = AsgardName) then
    sent ← attempt (at_core (SendFromModuleToModule AsgardName ModuleName [NewCoin a assetFee]));
    match sent with
    | inr _ => mret ()
    | inl _ =>
        burnt ← attempt (at_core (BurnFromModule ModuleName (NewCoin a assetFee)));
        match burnt with
        | inr _ => mret ()
        | inl _ => at_core (EmitEvent (EvBurn (Assets.Native a) assetFee "burn_native_fee"))
        end
    end
  else mret ().
(** The pool takes the fee in the asset and gives its worth in SWITCH. None when
    what is left of a gas asset is dust. *)
Definition asset_fee (toi : TxOutItem) (transactionFee : Z) (o : TxOutItem) (p : Prepared) : V (option TxOutItem * Prepared) :=
  pool ← (if Pool_IsEmpty (pr_pool p) then at_core (GetPool (Assets.GetLayer1Asset (coin_asset (toi_Coin toi)))) else mret (pr_pool p));
  let p := mkPrepared (pr_final p) pool (pr_fees p) (pr_switchFee p) in
  units ← lift (GetPoolUnits pool);
  if units =? 0 then mret (Some o, p)
  else
    let amt := coin_amount (toi_Coin o) in
    let assetFee := if amt <=? transactionFee then amt else transactionFee in
    rest ← lift (SafeSub amt assetFee);
    let o := set_toi_amount rest o in
    _ ← burn_fee o assetFee;
    if IsGasAsset (coin_asset (toi_Coin toi)) && (coin_amount (toi_Coin o) <? DustThreshold (toi_Chain toi)) then mret (None, p)
    else
      switchFee ← lift (SWITCHDisbursementForAssetAdd pool assetFee);
      let poolDeduct := if BalanceSwitch pool <? switchFee then BalanceSwitch pool else switchFee in
      total ← lift (uadd (pr_switchFee p) poolDeduct);
      a ← lift (if Synth (coin_asset (toi_Coin o)) then Ok (BalanceAsset pool) else uadd (BalanceAsset pool) assetFee);
      b ← lift (SafeSub (BalanceSwitch pool) poolDeduct);
      mret (Some o, mkPrepared (pr_final p) (set_BalanceSwitch b (set_BalanceAsset a pool))
                      (pr_fees p ++ [(toi_InHash o, [NewCoin (coin_asset (toi_Coin o)) assetFee], poolDeduct)])%list total).
Definition take_fee (toi : TxOutItem) (transactionFee : Z) (memo : Memo_) (e : option error) (lendAddr : string)
    (o : TxOutItem) (p : Prepared) : V (option TxOutItem * Prepared) :=
  if negb (bool_decide (e = None)) || IsType memo TxMigrate || IsType memo TxRagnarok ||
     Address_Equals (toi_ToAddress toi) lendAddr then mret (Some o, p)
  else if Assets.IsSwitch (coin_asset (toi_Coin o)) then
    '(o, p) ← lift (switch_fee transactionFee o p); mret (Some o, p)
  else asset_fee toi transactionFee o p.

(** *** Each output *)

(** In ragnarok, or for a vault that is inactive or unknown, the gas is taken from
    the amount. *)
Definition take_gas (ctx : Ctx) (memo : Memo_) (o : TxOutItem) : V TxOutItem :=
  found ← attempt (GetVault ctx (toi_VaultPubKey o));
  let status := match found with inl v => v_Status v | inr _ => InactiveVault end in
  if (IsType memo TxRagnarok || bool_decide (status = InactiveVault)) && IsGasAsset (coin_asset (toi_Coin o)) then
    amt ← lift (SafeSub (coin_amount (toi_Coin o)) (coin_amount (GetCoin (toi_MaxGas o) (coin_asset (toi_Coin o)))));
    mret (set_toi_amount amt o)
  else mret o.
(** Nothing to send: an error when a withdrawal asked for it. *)
Definition nothing_to_send (ctx : Ctx) (o : TxOutItem) : V () :=
  if TxID_IsEmpty (toi_InHash o) || TxID_Equals (toi_InHash o) BlankTxID then mret ()
  else
    inboundVoter ← observed (GetObservedTxInVoter (toi_InHash o));
    if Tx_IsEmpty (ot_Tx (ov_Tx inboundVoter)) then mret ()
    else
      '(inboundMemo, e) ← at_core (read_memo ctx (Memo (ot_Tx (ov_Tx inboundVoter))));
      fail_when (bool_decide (e = None) && IsType inboundMemo TxWithdraw) "tx out item has zero coin".
Definition record_action (ctx : Ctx) (o : TxOutItem) : V () :=
  if TxID_Equals (toi_InHash o) BlankTxID then mret ()
  else
    voter ← observed (GetObservedTxInVoter (toi_InHash o));
    observed (SetObservedTxInVoter (set_Actions (Actions voter ++ [o])%list
      (set_heights (ov_Height voter) (BlockHeight ctx) voter))).
Definition finish_output (ctx : Ctx) (decimals : Z) (memo : Memo_) (o : TxOutItem) (p : Prepared) : V Prepared :=
  o ← take_gas ctx memo o;
  if Coin_IsEmpty (toi_Coin o) then _ ← nothing_to_send ctx o; mret p
  else
    o ← lift (if Synth (coin_asset (toi_Coin o)) then Ok o
              else amt ← RoundToDecimal (coin_amount (toi_Coin o)) decimals; Ok (set_toi_amount amt o));
    _ ← record_action ctx o;
    mret (mkPrepared (pr_final p ++ [o])%list (pr_pool p) (pr_fees p) (pr_switchFee p)).
Definition prepare_output (ctx : Ctx) (toi : TxOutItem) (transactionFee decimals : Z) (o : TxOutItem) (p : Prepared) : V Prepared :=
  o ← fill_gas ctx o;
  lendAddr ← lift (GetModuleAddress LendingName);
  '(memo, e) ← at_core (read_memo ctx (toi_Memo o));
  '(kept, p) ← take_fee toi transactionFee memo e lendAddr o p;
  match kept with
  | None => mret p
  | Some o => finish_output ctx decimals memo o p
  end.
Fixpoint prepare_outputs (ctx : Ctx) (toi : TxOutItem) (transactionFee decimals : Z) (l : list TxOutItem) (p : Prepared) : V Prepared :=
  match l with
  | [] => mret p
  | o :: r => p ← prepare_output ctx toi transactionFee decimals o p; prepare_outputs ctx toi transactionFee decimals r p
  end.

(** *** The fees at the end *)

Definition EmitFeeEvent (f : string * list Coin * Z) : K () :=
  let '(inTxID, coins, poolDeduct) := f in
  if Coins_IsEmpty coins && (poolDeduct =? 0) then mret () else EmitEvent (EvFee inTxID coins poolDeduct).
Definition fee_to_reserve (toi : TxOutItem) (fee : Z) : V () :=
  let a := coin_asset (toi_Coin toi) in
  let stays := if Assets.IsSwitch a then bool_decide (toi_ModuleName toi = ReserveName)
               else Assets.IsDerivedAsset a || bool_decide (GetModuleName toi = ReserveName) in
  if (fee =? 0) || stays then mret ()
  else
    _ ← attempt (at_core (SendFromModuleToModule (GetModuleName toi) ReserveName [NewCoin SwitchNative fee]));
    mret ().
Definition prepareTxOutItem (ctx : Ctx) (toi : TxOutItem) : V (list TxOutItem * Z) :=
  toi ← with_memo toi;
  _ ← fail_when (blank (toi_ToAddress toi)) "empty to address, can't send out";
  _ ← fail_when (negb (IsChain (toi_ToAddress toi) (toi_Chain toi))) "to address is not of chain";
  toi ← lift (new_format toi);
  toiPool ← at_core (GetPool (Assets.GetLayer1Asset (coin_asset (toi_Coin toi))));
  transactionFee ← Gas.GetAssetOutboundFee ctx (coin_asset (toi_Coin toi)) false;
  maxGasAsset ← Gas.GetMaxGas (toi_Chain toi);
  outputs ← choose_vaults ctx toi transactionFee maxGasAsset;
  p ← prepare_outputs ctx toi transactionFee (Decimals toiPool) outputs (mkPrepared [] NewPool [] 0);
  _ ← (if Pool_IsEmpty (pr_pool p) then mret () else at_core (SetPool (pr_pool p)));
  _ ← for_each (λ f, at_core (EmitFeeEvent f)) (pr_fees p);
  _ ← fee_to_reserve toi (pr_switchFee p);
  mret (pr_final p, pr_switchFee p).

(** ** Outbounds on the chain itself *)

Definition mint_native (m : string) (c : Coin) : V () :=
  if bool_decide (m = ModuleName) then
    _ ← at_core (MintToModule m c);
    at_core (EmitEvent (EvMint (Assets.Native (coin_asset c)) (coin_amount c) "native_tx_out"))
  else mret ().
(** To a trade account, a secured asset, one of three modules or an account. *)
Definition pay_native (ctx : Ctx) (m : string) (toi : TxOutItem) (addr polAddress affColAddress claimingAddress : string) : V () :=
  let c := toi_Coin toi in
  if Trade (coin_asset c) then
    _ ← at_core (TradeAccounts.Deposit ctx (coin_asset c) (coin_amount c) addr NoAddress (toi_InHash toi)); mret ()
  else if Secured (coin_asset c) then
    _ ← at_core (SA_Deposit ctx (Assets.GetLayer1Asset (coin_asset c)) (coin_amount c) addr NoAddress (toi_InHash toi)); mret ()
  else at_core (
    if Address_Equals polAddress (toi_ToAddress toi) then SendFromModuleToModule m ReserveName [c]
    else if Address_Equals affColAddress (toi_ToAddress toi) then SendFromModuleToModule m AffiliateCollectorName [c]
    else if Address_Equals claimingAddress (toi_ToAddress toi) then SendFromModuleToModule m SWCYClaimingName [c]
    else SendFromModuleToAccount m addr [c]).
(** The outbound is then handled as a transaction that was observed. *)
Definition handle_native (ctx : Ctx) (m : string) (toi : TxOutItem) : V () :=
  from ← lift (GetModuleAddress m);
  outboundTxFee ← at_core (GetOutboundTxFee ctx);
  let tx := NewTx BlankTxID from (toi_ToAddress toi) [toi_Coin toi] [NewCoin SwitchNative outboundTxFee] (toi_Memo toi) in
  active ← GetAsgardVaultsByStatus ctx ActiveVault;
  match active with
  | [] => throw "dev error: no pubkey for native txn"
  | v :: _ =>
      msg ← at_core (processOneTxIn ctx (NewObservedTx tx (BlockHeight ctx) (v_PubKey v) (BlockHeight ctx)) (module_address AsgardName));
      internal_handler ctx None msg
  end.
Definition nativeTxOut (ctx : Ctx) (toi : TxOutItem) : V () :=
  addr ← lift (AccAddressFromBech32 (toi_ToAddress toi));
  let m := GetModuleName toi in
  _ ← mint_native m (toi_Coin toi);
  polAddress ← lift (GetModuleAddress ReserveName);
  affColAddress ← lift (GetModuleAddress AffiliateCollectorName);
  claimingAddress ← lift (GetModuleAddress SWCYClaimingName);
  _ ← pay_native ctx m toi addr polAddress affColAddress claimingAddress;
  handle_native ctx m toi.

(** ** Adding an outbound *)

Definition or_zero (v : option Z) : option Z := Some (default 0 v).
Definition addToBlockOut (ctx : Ctx) (item : TxOutItem) (height : Z) : V () :=
  if Chains.IsSWITCHLYChain (toi_Chain item) then nativeTxOut ctx item
  else
    let item := set_toi_limits (or_zero (toi_AggregatorTargetLimit item)) (or_zero (toi_CloutSpent item)) item in
    _ ← at_core (EmitEvent (EvScheduledOutbound (toi_InHash item) (toi_ToAddress item) (toi_Coin item) (toi_VaultPubKey item)));
    AppendTxOut height item.
(** Each output takes its share of the clout, the last what remains. *)
Fixpoint add_outputs (ctx : Ctx) (l : list TxOutItem) (sumOutput cloutApplied totalCloutShare height : Z) : V () :=
  match l with
  | [] => mret ()
  | o :: r =>
      '(share, total) ← lift (
        match r with
        | [] => share ← SafeSub cloutApplied totalCloutShare; Ok (share, totalCloutShare)
        | _ => let share := GetSafeShare (coin_amount (toi_Coin o)) sumOutput cloutApplied in
               total ← uadd totalCloutShare share; Ok (share, total)
        end);
      _ ← addToBlockOut ctx (set_toi_limits (toi_AggregatorTargetLimit o) (Some share) o) height;
      add_outputs ctx r sumOutput cloutApplied total height
  end.
Fixpoint sum_amounts (l : list TxOutItem) (v : Z) : outcome Z :=
  match l with [] => Ok v | o :: r => v ← uadd v (coin_amount (toi_Coin o)); sum_amounts r v end.
Definition set_OutboundHeight (h : Z) (m : ObservedTxVoter) : ObservedTxVoter :=
  mkVoter (ov_TxID m) (ov_Tx m) (ov_Height m) (ov_Txs m) (Actions m) (OutTxs m) (FinalisedHeight m)
    (UpdatedVault m) (Reverted m) h.
(** The height of the outbound and the clout it takes; the voter remembers the
    furthest height. *)
Definition schedule_outbound (ctx : Ctx) (toi : TxOutItem) : V (Z * Z) :=
  if Chains.IsSWITCHLYChain (toi_Chain toi) || TxID_IsEmpty (toi_InHash toi) || TxID_Equals (toi_InHash toi) BlankTxID
  then mret (BlockHeight ctx, 0)
  else
    voter ← observed (GetObservedTxInVoter (toi_InHash toi));
    '(targetHeight, cloutApplied) ← CalcTxOutHeight ctx toi;
    let targetHeight := if 0 <? ov_Height voter then to_i64 (to_i64 (targetHeight - BlockHeight ctx) + ov_Height voter) else targetHeight in
    let outboundHeight := if BlockHeight ctx <? targetHeight then targetHeight else BlockHeight ctx in
    _ ← (if OutboundHeight voter <? outboundHeight
         then observed (SetObservedTxInVoter (set_OutboundHeight outboundHeight voter)) else mret ());
    mret (outboundHeight, cloutApplied).
Definition cachedTryAddTxOutItem (ctx : Ctx) (toi : TxOutItem) (minOut : Z) : V bool :=
  '(outputs, totalOutboundFeeSWITCH) ← prepareTxOutItem ctx toi;
  match outputs with
  | [] => throw ErrNotEnoughToPayFee
  | o :: _ =>
      sumOut ← lift (sum_amounts outputs 0);
      if sumOut <? minOut then
        got ← lift (as_uint64 sumOut);
        want ← lift (as_uint64 minOut);
        throw ("outbound amount does not meet requirements (" +:+ pretty got +:+ "/" +:+ pretty want +:+ ")")
      else
        '(outboundHeight, cloutApplied) ← schedule_outbound ctx (set_toi_Memo (toi_Memo o) toi);
        _ ← add_outputs ctx outputs sumOut cloutApplied 0 outboundHeight;
        _ ← (if negb (totalOutboundFeeSWITCH =? 0) && negb (Chains.IsSWITCHLYChain (toi_Chain toi)) then
               _ ← attempt (AddToOutboundFeeWithheldSwitch (coin_asset (toi_Coin toi)) totalOutboundFeeSWITCH); mret ()
             else mret ());
        mret true
  end.

(** ** Affiliate fees of an outbound *)

(** The amount less the fees of the swap that the inbound asked for. *)
Definition takeAffiliateFee (ctx : Ctx) (toi : TxOutItem) : V Z :=
  let amt := coin_amount (toi_Coin toi) in
  let word := hd "" (Split ":" (toi_Memo toi)) in
  if bool_decide (word = MemoPrefixRefund) || bool_decide (word = MemoPrefixMigrate) then mret amt
  else
    inboundVoter ← observed (GetObservedTxInVoter (toi_InHash toi));
    let inbound := ot_Tx (ov_Tx inboundVoter) in
    _ ← fail_when (bool_decide (Memo inbound = "")) "fail to get observe tx in voter";
    '(memo, e) ← at_core (read_memo ctx (Memo inbound));
    _ ← check e;
    if Assets.IsSwitch (coin_asset (toi_Coin toi)) && negb (Assets.IsSwitch (Memo_GetAsset memo)) then mret amt
    else if IsType memo TxSwap && negb (bool_decide (GetAffiliatesBasisPoints memo = [])) then
      let tx := mkTx (toi_InHash toi) (toi_Chain toi) (FromAddress inbound) (toi_ToAddress toi) [toi_Coin toi]
                  [NewCoin (GetGasAsset (toi_Chain toi)) 1] (Memo inbound) in
      nodeAccounts ← observed ListActiveValidators;
      match nodeAccounts with
      | [] => throw "dev err: no active node accounts"
      | na :: _ =>
          fee ← attempt (skimAffiliateFees ctx tx (NodeAddress na) (toi_Coin toi) (Memo inbound));
          lift (SafeSub amt (match fee with inl f => f | inr _ => 0 end))
      end
    else mret amt.

(** An outbound that fails leaves the store as it was. *)
Definition cached {A} (m : V A) : V A := λ s,
  match m s with
  | (Err e, s') => (Err e, forget s s')
  | r => r
  end.
Definition TryAddTxOutItem (ctx : Ctx) (toi : TxOutItem) (minOut : Z) : V bool :=
  if IsNoop (toi_ToAddress toi) then mret true
  else if Chains.IsEVM (toi_Chain toi) && Address_Equals (toi_ToAddress toi) EVMNullAddress then
    _ ← at_core (EmitEvent (EvSecurity "evm outbound to null address" (toi_InHash toi) [toi_Coin toi]));
    mret true
  else cached (
    fee ← attempt (takeAffiliateFee ctx toi);
    let toi := match fee with
               | inl amount => if negb (Trade (coin_asset (toi_Coin toi))) && negb (Secured (coin_asset (toi_Coin toi)))
                               then set_toi_amount amount toi else toi
               | inr _ => toi
               end in
    cachedTryAddTxOutItem ctx toi minOut).
Definition UnSafeAddTxOutItem (ctx : Ctx) (toi : TxOutItem) (height : Z) : V () :=
  if IsNoop (toi_ToAddress toi) then mret ()
  else toi ← lift (new_format toi); addToBlockOut ctx toi height.
End TxOuts.

(** ** Clout is split within its bounds *)

#[local] Arguments Z.mul : simpl never.
Section CloutFacts.
  Context `{CosmosMath} `{Bank} `{Env} `{!PubKeys} `{!SortSlice}.

Lemma uint_max_big : 2 ^ 250 < uint_max.
Proof. reflexivity. Qed.
(** The halves of the limit, or what the other address leaves of it. *)
Lemma limit_clout_bounds limit c1 c2 :
  0 ≤ limit < 2 ^ 100 → 0 ≤ c1 < 2 ^ 100 → 0 ≤ c2 < 2 ^ 100 →
  ∃ d1 d2, limit_clout limit c1 c2 = Ok (d1, d2) ∧ 0 ≤ d1 ≤ c1 ∧ 0 ≤ d2 ≤ c2 ∧
    Z.min (c1 + c2) (limit - 1) ≤ d1 + d2 ≤ limit.
Proof.
  intros Hl H1c H2c. pose proof uint_max_big as Hmax. unfold limit_clout. rewrite uadd_ok by lia. cbn [mbind outcome_bind].
  destruct (Z.ltb_spec limit (c1 + c2)) as [Hlt|Hge]; [|exists c1, c2; split_and!; lia || done].
  rewrite uquo_ok by lia. pose proof (Z.div_mod limit 2 ltac:(lia)). pose proof (Z.mod_pos_bound limit 2 ltac:(lia)).
  cbn [mbind outcome_bind]. destruct (Z.ltb_spec (limit / 2) c1), (Z.ltb_spec (limit / 2) c2); cbn [andb].
  1: exists (limit / 2), (limit / 2); split_and!; lia || done.
  all: destruct (Z.ltb_spec c2 c1); [|destruct (Z.ltb_spec c1 c2); [|lia]]; rewrite SafeSub_ok by lia.
  all: eexists _, _; split; [reflexivity|lia].
Qed.
(** A share of at most the whole is at most its part, also when it is what the
    other share leaves. *)
Lemma shares_bounded a d1 d2 :
  0 ≤ d1 → 0 ≤ d2 → 0 < d1 + d2 → 0 ≤ a ≤ d1 + d2 → 0 ≤ a * d1 / (d1 + d2) ≤ d1 ∧ 0 ≤ a - a * d1 / (d1 + d2) ≤ d2.
Proof.
  intros H1d H2d Hpos Ha. pose proof (Z.div_mod (a * d1) (d1 + d2) ltac:(lia)) as Hq.
  pose proof (Z.mod_pos_bound (a * d1) (d1 + d2) ltac:(lia)) as Hr.
  set (q := a * d1 / (d1 + d2)) in *. set (r := (a * d1) mod (d1 + d2)) in *. nia.
Qed.

(** The clout of the two addresses is spent within what each has and within the
    limit, as much of it as the value needs and the limit allows but for one unit
    of an odd limit, and the value is split exactly: the check of the sum that
    follows in the caller never fails. *)
Theorem splitClout_splits limit c1 c2 v :
  0 ≤ limit < 2 ^ 100 → 0 ≤ c1 < 2 ^ 100 → 0 ≤ c2 < 2 ^ 100 → 0 ≤ v < 2 ^ 100 →
  ∃ a1 a2 rest, splitClout limit c1 c2 v = Ok (a1, a2, rest) ∧ rest + a1 + a2 = v ∧ 0 ≤ rest ∧
    0 ≤ a1 ≤ c1 ∧ 0 ≤ a2 ≤ c2 ∧ a1 + a2 ≤ limit ∧ Z.min v (Z.min (c1 + c2) (limit - 1)) ≤ a1 + a2.
Proof.
  intros Hl H1c H2c Hv. pose proof uint_max_big as Hmax.
  destruct (limit_clout_bounds limit c1 c2 Hl H1c H2c) as (d1 & d2 & Hd & H1d & H2d & Hsum).
  unfold splitClout. rewrite Hd. cbn [mbind outcome_bind]. rewrite uadd_ok by lia. cbn [mbind outcome_bind].
  destruct (Z.ltb_spec limit (d1 + d2)); [lia|]. destruct (Z.eqb_spec (d1 + d2) 0).
  { exists 0, 0, v. split; [done|lia]. }
  set (a := Z.min (d1 + d2) v). destruct (shares_bounded a d1 d2 ltac:(lia) ltac:(lia) ltac:(lia) ltac:(lia)) as [Hq1 Hq2].
  rewrite umul_ok by nia. cbn [mbind outcome_bind]. rewrite uquo_ok by nia. cbn [mbind outcome_bind].
  set (q := a * d1 / (d1 + d2)) in *. rewrite usub_ok by lia. cbn [mbind outcome_bind]. rewrite uadd_ok by lia.
  cbn [mbind outcome_bind]. rewrite SafeSub_ok by lia. cbn [mbind outcome_bind].
  eexists _, _, _. split; [reflexivity|]. lia.
Qed.
End CloutFacts.

(** Odd limits: of six and six, both may spend two. *)
Lemma splitClout_splits_witness :
  splitClout 5 6 6 9 = Ok (2, 2, 5) ∧
  ∃ a1 a2 rest, splitClout 5 6 6 9 = Ok (a1, a2, rest) ∧ rest + a1 + a2 = 9 ∧ 4 ≤ a1 + a2 ≤ 5.
Proof.
  split; [vm_compute; reflexivity|].
  destruct (splitClout_splits 5 6 6 9 ltac:(lia) ltac:(lia) ltac:(lia) ltac:(lia)) as (a1 & a2 & rest & Hs & Hv & _ & _ & _ & Hl & Hm).
  exists a1, a2, rest. split; [exact Hs|]. split; [exact Hv|]. lia.
Defined.

(** ** The vaults found for an outbound *)

Section DiscoverFacts.
  Context `{CosmosMath} `{Bank} `{Env} `{!PubKeys} `{!SortSlice} `{!KeyAddresses}.

Definition amounts (l : list TxOutItem) : Z := sumZ ((λ o, coin_amount (toi_Coin o)) <$> l).
(** The gas that is kept back when the asset is the one gas is paid in. *)
Definition gas_kept (maxGas : Coin) (toi : TxOutItem) : Z :=
  if Assets.Equals (coin_asset (toi_Coin toi)) (coin_asset maxGas) then coin_amount maxGas else 0.
(** An output is the outbound with a vault and an amount that the vault has. *)
Definition sent_by (fee : Z) (maxGas : Coin) (toi : TxOutItem) (v : Vault) (o : TxOutItem) : Prop :=
  ∃ a, o = set_toi_amount a (set_toi_VaultPubKey (v_PubKey v) toi) ∧ 0 ≤ a ∧
    a + gas_kept maxGas toi ≤ coin_amount (Vault_GetCoin v (coin_asset (toi_Coin toi))) ∧
    fee < coin_amount (Vault_GetCoin v (coin_asset (toi_Coin toi))) ∧
    coin_amount maxGas ≤ coin_amount (Vault_GetCoin v (GetGasAsset (toi_Chain toi))).
Definition in_range (z : Z) : Prop := 0 ≤ z ≤ uint_max.
Definition vault_in_range (v : Vault) : Prop := ∀ a, in_range (coin_amount (Vault_GetCoin v a)).

Lemma set_amount_same t : set_toi_amount (coin_amount (toi_Coin t)) t = t.
Proof. by destruct t as [? ? ? []]. Qed.
Lemma can_send_some fee maxGas toi v amt :
  0 ≤ fee → vault_in_range v → in_range (coin_amount maxGas) → can_send fee maxGas toi v = Ok (Some amt) →
  0 < amt ∧ amt + gas_kept maxGas toi ≤ coin_amount (Vault_GetCoin v (coin_asset (toi_Coin toi))) ∧
  fee < coin_amount (Vault_GetCoin v (coin_asset (toi_Coin toi))) ∧
  coin_amount maxGas ≤ coin_amount (Vault_GetCoin v (GetGasAsset (toi_Chain toi))).
Proof.
  intros Hfee Hv Hg. unfold can_send, gas_kept. destruct (key_address _ _) as [from|e|]; [|done..].
  destruct (_ || _); [done|]. destruct (Z.leb_spec (coin_amount (Vault_GetCoin v (coin_asset (toi_Coin toi)))) fee); [done|].
  destruct (Coin_IsEmpty _) eqn:Hempty; cbn [orb]; [done|].
  destruct (Z.ltb_spec (coin_amount (Vault_GetCoin v (GetGasAsset (toi_Chain toi)))) (coin_amount maxGas)); [done|].
  pose proof (Hv (coin_asset (toi_Coin toi))) as Hr. unfold in_range in *.
  destruct (Assets.Equals _ _).
  - rewrite SafeSub_ok by lia. cbn [mbind outcome_bind]. destruct (Z.eqb_spec (Z.max 0 (coin_amount (Vault_GetCoin v (coin_asset (toi_Coin toi))) - coin_amount maxGas)) 0); [done|].
    intros [= <-]. lia.
  - intros [= <-]. lia.
Qed.
Lemma allot_covers fee maxGas toi vs outputs rest :
  0 ≤ fee → in_range (coin_amount maxGas) → in_range (coin_amount (toi_Coin toi)) → Forall vault_in_range vs →
  allot fee maxGas toi vs = Ok (outputs, rest) →
  amounts outputs + rest = coin_amount (toi_Coin toi) ∧ 0 ≤ rest ∧
  ∃ used, sublist used vs ∧ Forall2 (sent_by fee maxGas toi) used outputs.
Proof.
  intros Hfee Hg. revert toi outputs rest. induction vs as [|v vs IH]; intros toi outputs rest Ha Hvs Hrun; cbn [allot] in Hrun.
  { injection Hrun as <- <-. split; [done|]. split; [apply Ha|]. by exists []. }
  apply list.Forall_cons in Hvs as [Hv Hvs]. apply bind_ok in Hrun as ([amt|] & Hcan & Hrun).
  2: { destruct (IH _ _ _ Ha Hvs Hrun) as (Hsum & Hr & used & Hsub & Hall). split; [done|]. split; [done|].
       exists used. split; [by apply sublist_cons|done]. }
  apply can_send_some in Hcan as (Hpos & Hamt & Hf & Hgas); [|done..].
  set (t := set_toi_VaultPubKey (v_PubKey v) toi) in *. assert (coin_amount (toi_Coin t) = coin_amount (toi_Coin toi)) as Ht by done.
  destruct (Z.leb_spec (coin_amount (toi_Coin t)) amt) as [Hle|Hlt].
  { injection Hrun as <- <-. split; [unfold amounts; cbn; lia|]. split; [done|]. exists [v]. split; [apply sublist_skip, sublist_nil_l|].
    constructor; [|constructor]. exists (coin_amount (toi_Coin t)). rewrite set_amount_same. unfold in_range in *. split_and!; [done|lia..]. }
  unfold in_range in *. rewrite SafeSub_ok in Hrun by lia. cbn [mbind outcome_bind] in Hrun.
  rewrite SafeSub_ok in Hrun by lia. cbn [mbind outcome_bind] in Hrun.
  apply bind_ok in Hrun as ([outs r] & Hrec & Hrun). injection Hrun as <- <-.
  apply IH in Hrec as (Hsum & Hr & used & Hsub & Hall); [|cbn; lia|done]. cbn in Hsum.
  split; [unfold amounts, sumZ in *; cbn in *; lia|]. split; [done|]. exists (v :: used). split; [by apply sublist_skip|].
  constructor; [|exact Hall]. eexists. split; [reflexivity|]. split_and!; lia.
Qed.

Lemma vaultsNecessary_sub c coin vs l :
  vaultsNecessary c coin vs = Ok l → (fst <$> l) `sublist_of` vs ∧ Forall (λ v, Frozen v = [] ∨ frozen_for c v = false) (fst <$> l).
Proof.
  revert l. induction vs as [|v vs IH]; intros l; cbn [vaultsNecessary]; [intros [= <-]; by split|].
  destruct (_ =? 0); [intros [??]%IH; split; [by apply sublist_cons|done]|].
  destruct (negb _ && _) eqn:Hfrozen; [intros [??]%IH; split; [by apply sublist_cons|done]|].
  intros Hrun. ok_inv. edestruct IH as [Hsub Hall]; [eassumption|]. cbn. split; [by apply sublist_skip|].
  constructor; [|exact Hall]. apply andb_false_iff in Hfrozen as [Hf|Hf]; [left|by right].
  by apply negb_false_iff, bool_decide_eq_true in Hf.
Qed.
Lemma order_vaults_sub c coin vs l :
  order_vaults c coin vs = Ok l → l ⊆+ vs ∧ ((1 < length vs)%nat → Forall (λ v, Frozen v = [] ∨ frozen_for c v = false) l).
Proof.
  unfold order_vaults. destruct (Nat.ltb_spec 1 (length vs)); [|intros [= <-]; split; [done|lia]].
  intros Hrun. ok_inv. match goal with Hn : vaultsNecessary _ _ _ = Ok ?x |- _ => apply vaultsNecessary_sub in Hn as [Hsub Hall];
    assert (Hperm : fst <$> merge_sort fewer x ≡ₚ fst <$> x) by (apply fmap_Permutation, merge_sort_Permutation) end.
  split; [|intros _; by rewrite Hperm]. rewrite Hperm. by apply sublist_submseteq.
Qed.

(** C7: What the vaults are given to send and what remains is exactly the amount asked
    for; each output comes from another vault of the list, which has the amount
    and the gas, besides more of the asset than the fee; a vault that waits for the
    chain is passed over when there is more than one. *)
Theorem DiscoverOutbounds_covers fee maxGas toi vs outputs rest :
  0 ≤ fee → in_range (coin_amount maxGas) → in_range (coin_amount (toi_Coin toi)) → Forall vault_in_range vs →
  DiscoverOutbounds fee maxGas toi vs = Ok (outputs, rest) →
  amounts outputs + rest = coin_amount (toi_Coin toi) ∧ 0 ≤ rest ∧
  ∃ used, used ⊆+ vs ∧ Forall2 (sent_by fee maxGas toi) used outputs ∧
    ((1 < length vs)%nat → Forall (λ v, Frozen v = [] ∨ frozen_for (Assets.GetChain (coin_asset maxGas)) v = false) used).
Proof.
  intros Hfee Hg Ha Hvs Hrun. unfold DiscoverOutbounds in Hrun. apply bind_ok in Hrun as (ordered & Hord & Hrun).
  apply order_vaults_sub in Hord as [Hsub Hfrozen].
  apply allot_covers in Hrun as (Hsum & Hr & used & Hused & Hall); [|done..|].
  - split; [done|]. split; [done|]. exists used. split; [etrans; [by apply sublist_submseteq|done]|]. split; [done|].
    intros Hlen. specialize (Hfrozen Hlen). rewrite list.Forall_forall in Hfrozen |- *. intros v Hv. apply Hfrozen.
    apply (elem_of_submseteq used); [done|by apply sublist_submseteq].
  - rewrite list.Forall_forall in Hvs |- *. intros v Hv. apply Hvs. by apply (elem_of_submseteq ordered).
Qed.
End DiscoverFacts.

#[local] Existing Instance plain_keys.
#[local] Existing Instance insertion_sort.

(** Seven of eight bitcoin from two vaults of four and five, the first of which
    waits for nothing; each keeps the gas. *)
Definition vault_address : KeyAddresses := {| key_address pk _ := Ok ("bc1" +:+ pk) |}.
#[local] Existing Instance vault_address.
Definition holding (pk : string) (amt : Z) : Vault :=
  set_v_Coins [NewCoin BTCAsset amt] (NewVault 5 ActiveVault AsgardVault pk ["BTC"] []).
Definition to_customer (amt : Z) : TxOutItem := plain_toi BTCChain BlankTxID "bc1to" (NewCoin BTCAsset amt).
Definition half_sent : outcome (list (string * Z) * Z) :=
  match DiscoverOutbounds 10 (NewCoin BTCAsset 5) (to_customer 700) [holding "one" 400; holding "two" 500] with
  | Ok (l, rest) => Ok (map (λ o, (toi_VaultPubKey o, coin_amount (toi_Coin o))) l, rest)
  | Err e => Err e
  | Panic => Panic
  end.
Lemma holding_in_range pk amt : 0 ≤ amt ≤ uint_max → vault_in_range (holding pk amt).
Proof. intros Hamt a. unfold in_range, Vault_GetCoin. cbn. destruct (Assets.Equals _ _); cbn; lia. Qed.

Lemma DiscoverOutbounds_covers_witness :
  half_sent = Ok ([("one", 395); ("two", 305)], 0) ∧
  ∀ outputs rest, DiscoverOutbounds 10 (NewCoin BTCAsset 5) (to_customer 700) [holding "one" 400; holding "two" 500] = Ok (outputs, rest) →
    amounts outputs + rest = 700.
Proof.
  split; [vm_compute; reflexivity|]. intros outputs rest Hrun.
  apply (DiscoverOutbounds_covers 10 (NewCoin BTCAsset 5) (to_customer 700) [holding "one" 400; holding "two" 500] outputs rest).
  1: lia. 1, 2: by split. 2: exact Hrun.
  repeat constructor; by apply holding_in_range.
Defined.

(** ** The block of an outbound has room *)

Section ScheduleFacts.
  Context `{CosmosMath} `{Bank} `{Env} `{!PubKeys} `{!SortSlice}.
Abbreviation V := (M VaultState).

Lemma reads_scheduled off hs v c : only_reads (scheduled off hs v c).
Proof.
  revert v c. induction hs as [|h hs IH]; intros v c; cbn [scheduled]; [done|].
  apply only_reads_bind; [apply reads_block_value|intros [value clout]]. repeat first [apply IH|reads_step].
Qed.

(** The value that the outbounds of a block have, and whether the value [v] finds
    room there. *)
Definition block_value (h : Z) (s : VaultState) : option Z :=
  match fst (GetTxOutValue h s) with Ok (v, _) => Some v | _ => None end.
Definition has_room (threshold v h : Z) (s : VaultState) : Prop :=
  ∃ b, block_value h s = Some b ∧ (b = 0 ∨ b + v ≤ threshold).
Definition is_full (threshold v h : Z) (s : VaultState) : Prop :=
  ∃ b, block_value h s = Some b ∧ b ≠ 0 ∧ threshold < b + v.

Lemma find_room_found n threshold v target s h s' :
  0 ≤ target → target + Z.of_nat n < 2 ^ 63 → find_room n threshold v target s = (Ok h, s') →
  s' = s ∧ ∃ k, h = target + k ∧ 0 ≤ k ≤ Z.of_nat n ∧ (∀ j, 0 ≤ j < k → is_full threshold v (target + j) s) ∧
    (k = Z.of_nat n ∨ has_room threshold v h s).
Proof.
  revert target. induction n as [|n IH]; intros target Ht Hmax Hrun; cbn [find_room] in Hrun.
  { apply ret_ok in Hrun as [-> ->]. split; [done|]. exists 0. split_and!; try lia. }
  run_step Hrun p s1 E. pose proof (reads_block_value target s) as Hr. rewrite E in Hr. cbn in Hr. subst s1.
  destruct p as [b c]. assert (Hb : block_value target s = Some b) by (unfold block_value; by rewrite E).
  destruct (Z.eqb_spec b 0).
  { apply ret_ok in Hrun as [-> ->]. split; [done|]. exists 0. split_and!; try lia. right. exists b. split; [done|by left]. }
  run_step Hrun t s1 E1. apply lift_ok in E1 as [[-> _]%uadd_inv ->]. destruct (Z.leb_spec (b + v) threshold).
  { apply ret_ok in Hrun as [-> ->]. split; [done|]. exists 0. split_and!; try lia. right. exists b. split; [done|by right]. }
  assert (to_i64 (target + 1) = target + 1) as Hi by (unfold to_i64; rewrite Z.mod_small; lia).
  rewrite Hi in Hrun. apply IH in Hrun as (-> & k & -> & Hk & Hfull & Hend); [|lia..]. split; [done|].
  exists (k + 1). split; [lia|]. split; [lia|]. split.
  - intros j Hj. destruct (decide (j = 0)) as [->|Hj0]; [rewrite Z.add_0_r; by exists b|].
    replace (target + j) with (target + 1 + (j - 1)) by lia. apply Hfull. lia.
  - destruct Hend as [Hend|Hend]; [left; lia|right]. exact Hend.
Qed.

(** Only the clout of addresses changes. *)
Definition clouts_only (s s' : VaultState) : Prop := ∃ m, s' = with_core (put_clouts m (the_core s)) s.
Lemma clouts_only_refl s : clouts_only s s.
Proof. exists (clouts (the_core s)). by destruct s as [[[[]]]]. Qed.
Lemma clouts_only_set s c s' : clouts_only s s' → clouts_only s (snd (at_core (SetSwapperClout c) s')).
Proof. intros [m ->]. rewrite at_core_run. by eexists. Qed.
Lemma spend_step ctx amt (c : SwapperClout) (b : bool) s s1 s2 u :
  clouts_only s s1 →
  (if b then mret () else c ← lift (spend_clout ctx amt c); at_core (SetSwapperClout c)) s1 = (Ok u, s2) → clouts_only s s2.
Proof.
  intros Hs. destruct b; [by intros [_ ->]%ret_ok|]. intros Hrun. run_step Hrun c' s3 E. apply lift_ok in E as [_ ->].
  pose proof (clouts_only_set s c' s1 Hs) as Hc. by rewrite Hrun in Hc.
Qed.
Lemma calcClout_spends ctx value toi s v applied s' :
  calcClout ctx value toi s = (Ok (v, applied), s') → v + applied = value ∧ clouts_only s s'.
Proof.
  unfold calcClout. intros Hrun.
  destruct (_ || _); [apply ret_ok in Hrun as [[= -> ->] ->]; split; [lia|apply clouts_only_refl]|].
  do 7 (let x := fresh in let E := fresh in read_past Hrun x E). read_past Hrun r Er. destruct r as [[clout1 clout2] newValue].
  read_past Hrun t1 E1. cbn [fst lift] in E1. apply uadd_inv in E1 as [-> _].
  read_past Hrun t2 E2. cbn [fst lift] in E2. apply uadd_inv in E2 as [-> _].
  destruct (Z.eqb_spec (newValue + clout1 + clout2) value) as [Hsum|]; cbn [negb] in Hrun.
  2: { apply ret_ok in Hrun as [[= -> ->] ->]. split; [lia|apply clouts_only_refl]. }
  run_step Hrun u s1 E3. apply spend_step with (s := s) in E3; [|apply clouts_only_refl].
  run_step Hrun u' s2 E4.
  assert (clouts_only s s2).
  { destruct (clout2 =? 0); [by apply ret_ok in E4 as [_ ->]|]. read_past E4 c Ec.
    exact (spend_step ctx clout2 c false s s1 s2 u' E3 E4). }
  read_past Hrun t3 Eap. cbn [fst lift] in Eap. apply uadd_inv in Eap as [-> _].
  apply ret_ok in Hrun as [[= -> ->] ->]. split; [lia|done].
Qed.
Lemma min_blocks_bounded threshold rate off v sum clout n :
  0 < off → min_blocks threshold rate off v sum clout = Ok n → 0 ≤ n ≤ off.
Proof.
  intros Hoff Hrun. unfold min_blocks in Hrun. apply bind_ok in Hrun as (rest & _ & Hrun). apply bind_ok in Hrun as (m & _ & Hrun).
  apply bind_ok in Hrun as (red & _ & Hrun). apply bind_ok in Hrun as (r & _ & Hrun). apply bind_ok in Hrun as (q & Hq & Hrun).
  rewrite uquo_law in Hq. destruct (r =? 0); [done|]. apply in_uint_inv in Hq as [-> Hq].
  injection Hrun as <-. destruct (Z.ltb_spec off (v `quot` r)); lia.
Qed.

(** The value of the outbound that clout does not cover waits in a block that has
    room for it, or after the longest search: every block from the end of its
    delay to there is full.  The delay is at most the largest offset, clout that
    covers the value makes it none, and the outbounds themselves are not changed. *)
Theorem CalcTxOutHeight_finds_room ctx toi s h clout s' threshold offset delay :
  fst (GetConfigInt64 "MinTxOutVolumeThreshold" (the_core s)) = Ok threshold →
  fst (GetConfigInt64 "MaxTxOutOffset" (the_core s)) = Ok offset →
  fst (GetConfigInt64 "TxOutDelayMax" (the_core s)) = Ok delay →
  0 ≤ BlockHeight ctx → BlockHeight ctx + Z.max 0 offset + Z.max 0 delay < 2 ^ 63 →
  CalcTxOutHeight ctx toi s = (Ok (h, clout), s') →
  txOuts s' = txOuts s ∧
  (h = BlockHeight ctx ∨
   ∃ value c first k, fst (GetTOIsValue [toi] (the_core s)) = Ok (value, c) ∧ clout ≠ value ∧
     h = first + k ∧ BlockHeight ctx ≤ first ≤ BlockHeight ctx + offset ∧ 0 ≤ k ≤ Z.max 0 delay ∧
     (∀ j, 0 ≤ j < k → is_full threshold (value - clout) (first + j) s') ∧
     (k = Z.max 0 delay ∨ has_room threshold (value - clout) h s')).
Proof.
  intros Hthr Hoff Hdel Hh Hmax Hrun. unfold CalcTxOutHeight in Hrun.
  destruct (ParseMemo _ _) as [memo e]. destruct (_ && _); [apply ret_ok in Hrun as [[= -> ->] ->]; split; [done|by left]|].
  read_past Hrun th Eth. rewrite at_core_reads in Eth by done. cbn [fst] in Eth. rewrite Hthr in Eth. injection Eth as <-.
  read_past Hrun rate Erate. read_past Hrun dl Edl. rewrite at_core_reads in Edl by done. cbn [fst] in Edl. rewrite Hdel in Edl. injection Edl as <-.
  read_past Hrun off Eoff. rewrite at_core_reads in Eoff by done. cbn [fst] in Eoff. rewrite Hoff in Eoff. injection Eoff as <-.
  destruct (_ || _) eqn:Hpos; [apply ret_ok in Hrun as [[= -> ->] ->]; split; [done|by left]|].
  apply orb_false_iff in Hpos as [_ Hpos%Z.leb_gt].
  apply reads_bind_ok in Hrun as ([value c] & Ev & Hrun); [|apply only_reads_at_core, reads_items_value].
  rewrite at_core_reads in Ev by apply reads_items_value. cbn [fst] in Ev.
  run_step Hrun p s1 Ec. destruct p as [v applied]. apply calcClout_spends in Ec as [Hsum [m ->]].
  destruct (Z.eqb_spec v 0); [apply ret_ok in Hrun as [[= -> ->] ->]; split; [done|by left]|].
  apply reads_bind_ok in Hrun as ([sum cl] & Es & Hrun); [|apply reads_scheduled].
  read_past Hrun blocks Emin. cbn [fst lift] in Emin. apply min_blocks_bounded in Emin; [|done].
  run_step Hrun target s2 Ef. apply ret_ok in Hrun as [[= -> ->] ->].
  assert (to_i64 (BlockHeight ctx + blocks) = BlockHeight ctx + blocks) as Hn by (apply to_i64_id; lia). rewrite Hn in Ef.
  apply find_room_found in Ef as (-> & k & -> & Hk & Hfull & Hend); [|lia..]. split; [done|]. right.
  exists value, c, (BlockHeight ctx + blocks), k. assert (v = value - applied) as -> by lia. assert (Z.of_nat (Z.to_nat delay) = Z.max 0 delay) as Hn' by lia. rewrite Hn' in *.
  split_and!; [done|lia|done|lia|lia|lia|lia|exact Hfull|].
  destruct Hend as [->|Hend]; [left; lia|by right].
Qed.
End ScheduleFacts.

(** Two blocks ahead, and the next, are full: the outbound waits for the third. *)
Definition btc_deep : State := snd (SetPool (mkPool (10000 * One) (100 * One) BTCAsset 1000 Available 0 0 0 0 0) empty_state).
Definition short_delays : gmap string Z := {["TXOUTDELAYMAX" := 3; "MAXTXOUTOFFSET" := 2]}.
Definition out_hash : string := "A123456789ABCDEF0123456789ABCDEF0123456789ABCDEF0123456789ABCDEF".
Definition big_outbound : TxOutItem :=
  mkToi BTCChain out_hash "bc1to" (NewCoin BTCAsset (60 * One)) "" "" None ("OUT:" +:+ out_hash) [] 0 "" "" "" None.
Definition busy : VaultState :=
  put_txOuts {[ 11 := [big_outbound]; 12 := [big_outbound] ]} (with_core (put_mimirs short_delays btc_deep) no_vaults).

Lemma CalcTxOutHeight_finds_room_witness :
  let s' := snd (CalcTxOutHeight vault_block big_outbound busy) in
  fst (CalcTxOutHeight vault_block big_outbound busy) = Ok (13, 0) ∧ txOuts s' = txOuts busy ∧
  ∃ value k, (k = 3 ∨ has_room 100000000000 value 13 s') ∧ 0 ≤ k ≤ 3.
Proof.
  cbn zeta. assert (fst (CalcTxOutHeight vault_block big_outbound busy) = Ok (13, 0)) as Hrun by (vm_compute; reflexivity).
  split; [exact Hrun|].
  destruct (CalcTxOutHeight_finds_room vault_block big_outbound busy 13 0 (snd (CalcTxOutHeight vault_block big_outbound busy)) 100000000000 2 3)
    as [Ht [Hh|(value & c & first & k & _ & _ & _ & _ & Hk & _ & Hend)]].
  1-3: vm_compute; reflexivity. 1: discriminate. 1: vm_compute; reflexivity. 1: exact (run_pair _ _ Hrun).
  - discriminate Hh.
  - split; [exact Ht|]. exists (value - 0), k. split; [|exact Hk]. destruct Hend as [->|Hend]; [by left|by right].
Defined.

(** ** What an accepted outbound adds *)

Section AddFacts.
  Context `{CosmosMath} `{Bank} `{Env} `{!Managers} `{!GasManager} `{!SaverSwaps} `{!WithdrawSwaps} `{!SwapParams} `{!FollowOns} `{!PubKeys} `{!SortSlice} `{!AddressCodec} `{!TokenLists} `{!KeyAddresses} `{!OtherHandlers} `{!BCHAddresses}.
Abbreviation V := (M VaultState).

Section Unscheduled.
  Context (before : gmap Z (list TxOutItem)).
Definition unscheduled (s : VaultState) : Prop := txOuts s = before.
Definition on (c : Chain) (o : TxOutItem) : Prop := toi_Chain o = c.

Lemma core_unscheduled {A} (m : K A) : keeps unscheduled (at_core m).
Proof. intros s Hs. rewrite at_core_run. by destruct (fst _). Qed.
Lemma observed_unscheduled {A} (m : M ObsState A) : keeps unscheduled (observed m).
Proof. intros s Hs. unfold observed, in_queue, in_obs. destruct (m _) as [r o]. by destruct r. Qed.
Lemma queue_unscheduled {A} (m : M QueueState A) : keeps unscheduled (in_queue m).
Proof. intros s Hs. unfold in_queue. destruct (m _) as [r o]. by destruct r. Qed.
Ltac unscheduled := repeat first [apply core_unscheduled|apply observed_unscheduled|apply queue_unscheduled
  |apply keeps_reads; solve [eauto with reads]|keeps_step].

Lemma discovered_on fee gas toi vs outputs rest :
  DiscoverOutbounds fee gas toi vs = Ok (outputs, rest) → Forall (on (toi_Chain toi)) outputs.
Proof.
  unfold DiscoverOutbounds. intros (ordered & _ & Hrun)%bind_ok. revert toi outputs rest Hrun.
  induction ordered as [|v l IH]; intros toi outputs rest Hrun; cbn [allot] in Hrun; [injection Hrun as <- <-; constructor|].
  apply bind_ok in Hrun as ([amt|] & _ & Hrun); [|by eapply IH].
  destruct (_ <=? _); [injection Hrun as <- <-; by repeat constructor|].
  apply bind_ok in Hrun as (remaining & _ & Hrun). apply bind_ok in Hrun as (sent & _ & Hrun).
  apply bind_ok in Hrun as ([outs r] & Hrec & Hrun). injection Hrun as <- <-. constructor; [done|]. by apply IH in Hrec.
Qed.
Lemma choose_on ctx toi fee gas : answers unscheduled (choose_vaults ctx toi fee gas) (Forall (on (toi_Chain toi))).
Proof.
  unfold choose_vaults. destruct (_ || _); [apply answers_ret; by repeat constructor|].
  unfold vaults_for. do 3 (apply answers_after; [unscheduled|intros ?]).
  eapply (answers_bind _ _ _ (λ r, Forall (on (toi_Chain toi)) (fst r))).
  { apply answers_lift. intros [o r] Ho. exact (discovered_on _ _ _ _ _ _ Ho). }
  intros [o r] Ho. apply answers_after; [unscheduled|intros _]. by apply answers_ret.
Qed.
Lemma fill_gas_on ctx o : answers unscheduled (fill_gas ctx o) (on (toi_Chain o)).
Proof.
  unfold fill_gas. destruct (negb _); [by apply answers_ret|].
  repeat (apply answers_after; [unscheduled|intros ?]). by apply answers_ret.
Qed.
Definition kept_on (c : Chain) (r : option TxOutItem * Prepared) : Prop :=
  match fst r with Some o' => on c o' | None => True end ∧ Forall (on c) (pr_final (snd r)).
Lemma take_fee_on toi fee memo e lend o p c :
  on c o → Forall (on c) (pr_final p) → answers unscheduled (take_fee toi fee memo e lend o p) (kept_on c).
Proof.
  intros Ho Hp. unfold take_fee. destruct (_ || _); [by apply answers_ret|].
  destruct (Assets.IsSwitch _).
  - eapply (answers_bind _ _ _ (λ r, on c (fst r) ∧ Forall (on c) (pr_final (snd r)))).
    + apply answers_lift. intros [o' p'] Hrun. unfold switch_fee in Hrun. ok_inv. by split.
    + intros [o' p'] [? ?]. by apply answers_ret.
  - unfold asset_fee. apply answers_after; [unscheduled|intros pool]. cbv zeta.
    apply answers_after; [unscheduled|intros units]. destruct (units =? 0); [by apply answers_ret|].
    apply answers_after; [unscheduled|intros rest]. apply answers_after; [unfold burn_fee; unscheduled|intros _].
    destruct (_ && _); [by apply answers_ret|].
    repeat (apply answers_after; [unscheduled|intros ?]). by apply answers_ret.
Qed.
Lemma finish_on ctx dec memo o p c :
  on c o → Forall (on c) (pr_final p) → answers unscheduled (finish_output ctx dec memo o p) (λ p', Forall (on c) (pr_final p')).
Proof.
  intros Ho Hp. unfold finish_output. eapply (answers_bind _ _ _ (on c)).
  { unfold take_gas. apply answers_after; [unscheduled|intros found]. cbv zeta.
    destruct (_ && _); [|by apply answers_ret]. apply answers_after; [unscheduled|intros amt]. by apply answers_ret. }
  intros o1 Ho1. destruct (Coin_IsEmpty _).
  { apply answers_after; [unfold nothing_to_send; unscheduled|intros _]. by apply answers_ret. }
  eapply (answers_bind _ _ _ (on c)).
  { apply answers_lift. intros o2. destruct (Synth _); [by intros [= <-]|]. intros Hrun. by ok_inv. }
  intros o2 Ho2. apply answers_after; [unfold record_action; unscheduled|intros _]. apply answers_ret. cbn.
  apply Forall_app. split; [done|by repeat constructor].
Qed.
Lemma prepare_outputs_on ctx toi fee dec c l p :
  Forall (on c) l → Forall (on c) (pr_final p) →
  answers unscheduled (prepare_outputs ctx toi fee dec l p) (λ p', Forall (on c) (pr_final p')).
Proof.
  revert p. induction l as [|o l IH]; intros p Hl Hp; cbn [prepare_outputs]; [by apply answers_ret|].
  apply list.Forall_cons in Hl as [Ho Hl]. apply (answers_bind _ _ _ (λ p', Forall (on c) (pr_final p'))); [|intros p' Hp'; by apply IH].
  unfold prepare_output. eapply answers_bind; [apply fill_gas_on|]. intros o' Ho'. do 2 (apply answers_after; [unscheduled|intros ?]).
  destruct a0 as [memo e]. eapply answers_bind; [apply (take_fee_on _ _ _ _ _ _ _ c); [by unfold on in *; congruence|done]|].
  intros [[kept|] p'] [Hk Hp']; [by apply finish_on|by apply answers_ret].
Qed.
Lemma prepare_on ctx toi : answers unscheduled (prepareTxOutItem ctx toi) (λ r, Forall (on (toi_Chain toi)) (fst r)).
Proof.
  unfold prepareTxOutItem. eapply (answers_bind _ _ _ (on (toi_Chain toi))).
  { unfold with_memo. cbv zeta. destruct (TxID_IsEmpty _); [by apply answers_ret; destruct (bool_decide _)|].
    apply answers_after; [unscheduled|intros voter]. apply answers_ret. unfold handed_on.
    destruct (SplitN _ _ _) as [|? [|? [|]]]; by destruct (bool_decide _). }
  intros t1 Ht1. do 2 (apply answers_after; [unscheduled|intros _]). eapply (answers_bind _ _ _ (on (toi_Chain toi))).
  { apply answers_lift. intros t2. unfold new_format. destruct (negb _); [by intros [= <-]|].
    intros (a & _ & Hrun)%bind_ok. by destruct (blank a); [|injection Hrun as <-]. }
  intros t2 Ht2. do 3 (apply answers_after; [unscheduled|intros ?]). eapply answers_bind; [apply choose_on|].
  intros outputs Hout. unfold on in Ht2. rewrite Ht2 in Hout. eapply answers_bind; [by apply (prepare_outputs_on _ _ _ _ (toi_Chain toi))|].
  intros p Hp. do 3 (apply answers_after; [unfold fee_to_reserve; unscheduled|intros _]). by apply answers_ret.
Qed.
Lemma calc_unscheduled ctx toi : keeps unscheduled (CalcTxOutHeight ctx toi).
Proof.
  assert (Hroom : ∀ n th v t, keeps unscheduled (find_room n th v t)).
  { intros n. induction n as [|n IH]; intros th v t; cbn [find_room]; unscheduled; apply IH. }
  unfold CalcTxOutHeight, calcClout. cbv zeta.
  repeat first [apply Hroom|apply keeps_reads, reads_scheduled|unscheduled].
Qed.
Lemma schedule_unscheduled ctx toi : answers unscheduled (schedule_outbound ctx toi) (λ r, BlockHeight ctx ≤ fst r).
Proof.
  unfold schedule_outbound. destruct (_ || _); [apply answers_ret; cbn; lia|].
  apply answers_after; [unscheduled|intros voter]. apply answers_after; [apply calc_unscheduled|intros [h c]]. cbv zeta.
  apply answers_after; [unscheduled|intros _]. apply answers_ret. cbn. case_match; lia.
Qed.
End Unscheduled.

(** Outputs that are not paid on the chain itself are appended to the block. *)
Definition with_limits (o o' : TxOutItem) : Prop := ∃ limit share, o' = set_toi_limits limit share o.
Definition appended (h : Z) (outs : list TxOutItem) (s s' : VaultState) : Prop :=
  default [] (txOuts s' !! h) = (default [] (txOuts s !! h) ++ outs)%list ∧ ∀ j, j ≠ h → txOuts s' !! j = txOuts s !! j.
Lemma appended_one ctx o h s u s' :
  Chains.IsSWITCHLYChain (toi_Chain o) = false → addToBlockOut ctx o h s = (Ok u, s') → ∃ o', with_limits o o' ∧ appended h [o'] s s'.
Proof.
  intros Ho Hrun. unfold addToBlockOut in Hrun. rewrite Ho in Hrun. cbv zeta in Hrun. run_step Hrun u1 s1 E.
  apply at_core_ok in E as (c & _ & ->). unfold AppendTxOut in Hrun. run_step Hrun items s1 E.
  apply gets_ok in E as [-> ->]. apply modify_ok in Hrun as ->.
  rewrite bool_decide_false by (intros [_ [=]]%app_eq_nil).
  eexists. split; [by do 2 eexists|]. split; cbn; [by rewrite lookup_insert_eq|]. intros j Hj. by rewrite lookup_insert_ne.
Qed.
Lemma add_outputs_appends ctx l sum clout total h s s' :
  Forall (λ o, Chains.IsSWITCHLYChain (toi_Chain o) = false) l → add_outputs ctx l sum clout total h s = (Ok (), s') →
  ∃ outs, Forall2 with_limits l outs ∧ appended h outs s s'.
Proof.
  revert total s. induction l as [|o l IH]; intros total s Hl Hrun; cbn [add_outputs] in Hrun.
  { apply ret_ok in Hrun as [_ ->]. exists []. split; [constructor|]. by split; [rewrite app_nil_r|]. }
  apply list.Forall_cons in Hl as [Ho Hl]. read_past Hrun p Ep. destruct p as [share tot].
  run_step Hrun u s1 E. apply appended_one in E as (o' & Hlim & Happ & Hother); [|done].
  apply IH in Hrun as (outs & Hall & Happ2 & Hother2); [|done]. exists (o' :: outs). split.
  - constructor; [|done]. destruct Hlim as (lim & sh & ->). by do 2 eexists.
  - split; [by rewrite Happ2, Happ, <- app_assoc|]. intros j Hj. by rewrite Hother2, Hother.
Qed.
Lemma sum_amounts_ok l v t : sum_amounts l v = Ok t → t = v + amounts l.
Proof.
  revert v. induction l as [|o l IH]; intros v; cbn [sum_amounts]; [intros [= <-]; unfold amounts; cbn; lia|].
  intros (v' & [-> _]%uadd_inv & Hrun)%bind_ok. apply IH in Hrun. unfold amounts, sumZ in *. cbn. lia.
Qed.
Lemma with_limits_amounts l outs : Forall2 with_limits l outs → amounts outs = amounts l.
Proof.
  unfold amounts, sumZ. induction 1 as [|o o' l outs (lim & sh & ->) _ IH]; [done|]. cbn in *. lia.
Qed.

Lemma with_limits_on c l outs : Forall2 with_limits l outs → Forall (on c) l → Forall (on c) outs.
Proof.
  induction 1 as [|x x' l outs (lim & sh & ->) _ IH]; [done|]. intros [Hx Hl]%list.Forall_cons. constructor; [exact Hx|by apply IH].
Qed.

(** C6: An outbound to another chain that is accepted waits in one block, not before
    this one, as outputs that together carry at least the least amount that was
    asked for; no other block changes. *)
Theorem accepted_outbound_is_scheduled ctx toi minOut s s' :
  Chains.IsSWITCHLYChain (toi_Chain toi) = false → cachedTryAddTxOutItem ctx toi minOut s = (Ok true, s') →
  ∃ h outs, BlockHeight ctx ≤ h ∧ outs ≠ [] ∧ appended h outs s s' ∧ minOut ≤ amounts outs ∧
    Forall (λ o, toi_Chain o = toi_Chain toi) outs.
Proof.
  intros Hc Hrun. unfold cachedTryAddTxOutItem in Hrun. run_step Hrun p s1 E.
  pose proof (prepare_on (txOuts s) ctx toi s eq_refl) as Hp. rewrite E in Hp. destruct p as [outputs fee], Hp as [Hon Hs1].
  cbn [fst] in Hon. destruct outputs as [|o outputs]; [by apply throw_ok in Hrun|]. set (l := o :: outputs) in *.
  read_past Hrun sumOut Es. cbn [fst lift] in Es. apply sum_amounts_ok in Es.
  destruct (Z.ltb_spec sumOut minOut).
  { read_past Hrun got Eg. read_past Hrun want Ew. by apply throw_ok in Hrun. }
  run_step Hrun p s2 E2. pose proof (schedule_unscheduled (txOuts s) ctx (set_toi_Memo (toi_Memo o) toi) s1 Hs1) as Hp.
  rewrite E2 in Hp. destruct p as [h clout], Hp as [Hh Hs2]. cbn [fst] in Hh.
  run_step Hrun u s3 E3. destruct u. apply add_outputs_appends in E3 as (outs & Hlim & Happ & Hother).
  2: { eapply list.Forall_impl; [exact Hon|]. intros x Hx. unfold on in Hx. by rewrite Hx. }
  run_step Hrun u s4 E4. apply ret_ok in Hrun as [_ ->].
  assert (Hs4 : txOuts s4 = txOuts s3).
  { assert (Hk : keeps (unscheduled (txOuts s3)) (if negb (fee =? 0) && negb (Chains.IsSWITCHLYChain (toi_Chain toi))
      then _ ← attempt (AddToOutboundFeeWithheldSwitch (coin_asset (toi_Coin toi)) fee); mret () else mret ())).
    { unfold AddToOutboundFeeWithheldSwitch. repeat first [by intros x Hx|keeps_step]. }
    specialize (Hk s3 eq_refl). by rewrite E4 in Hk. }
  exists h, outs. split; [done|]. split; [intros ->; by apply Forall2_nil_inv_r in Hlim|].
  unfold unscheduled in Hs2. split; [split; [by rewrite Hs4, Happ, Hs2|intros j Hj; by rewrite Hs4, Hother, Hs2]|].
  split; [rewrite (with_limits_amounts _ _ Hlim); lia|].
  exact (with_limits_on _ _ _ Hlim Hon).
Qed.
End AddFacts.

#[local] Existing Instance idle_managers.
#[local] Existing Instance unit_gas.
#[local] Existing Instance idle_swaps.
#[local] Existing Instance idle_withdraw_swaps.
#[local] Existing Instance no_contracts.
#[local] Existing Instance no_follow_ons.
#[local] Existing Instance plain_codec.
#[local] Existing Instance no_tokens.
Definition handles_nothing : OtherHandlers :=
  {| other_Run _ _ _ := throw "not handled"; AddSwapQueueItem _ _ := mret () |}.
#[local] Existing Instance handles_nothing.
Definition same_format : BCHAddresses := {| ConvertToNewBCHAddressFormat a := Ok a |}.
#[local] Existing Instance same_format.

Definition funded : VaultState := snd (SetVault (holding "swtcpub1a" 5000000) (with_core btc_deep no_vaults)).

Lemma accepted_outbound_is_scheduled_witness :
  let s' := snd (cachedTryAddTxOutItem vault_block (to_customer 3000000) 2000000 funded) in
  ∃ h outs, 9 ≤ h ∧ outs ≠ [] ∧ appended h outs funded s' ∧ 2000000 ≤ amounts outs ∧ Forall (λ o, toi_Chain o = BTCChain) outs.
Proof.
  cbn zeta. assert (fst (cachedTryAddTxOutItem vault_block (to_customer 3000000) 2000000 funded) = Ok true) as Hrun
    by (vm_compute; reflexivity).
  exact (accepted_outbound_is_scheduled vault_block (to_customer 3000000) 2000000 funded
    (snd (cachedTryAddTxOutItem vault_block (to_customer 3000000) 2000000 funded)) eq_refl (run_pair _ _ Hrun)).
Defined.

(** An outbound of SWITCH on the chain itself names no vault, what is read for it
    is inactive, and SWITCH is the asset gas is paid in: besides the fee of
    2,000,000 the most gas, a unit, is taken. *)
Example native_outbound_pays_gas :
  match fst (prepareTxOutItem vault_block (plain_toi SWITCHLYChain BlankTxID "swtc1to" (NewCoin SwitchNative 5000000)) funded) with
  | Ok (outs, fee) => Some (coin_amount ∘ toi_Coin <$> outs, fee)
  | _ => None
  end = Some ([2999999], 2000000).
Proof. vm_compute. reflexivity. Qed.

(** The clout of an address that sends to itself counts twice: of the 30 it has,
    60 is spent. *)
Definition one_address_clout : VaultState :=
  with_core (put_mimirs {["CLOUTLIMIT" := 1000]}
    (snd (SetSwapperClout (mkClout "bc1me" 30 0 0 0 0) empty_state))) no_vaults.
Definition to_itself : VaultState :=
  snd (observed (SetObservedTxInVoter (set_ov_Tx (NewObservedTx (mkTx out_hash BTCChain "bc1me" "bc1vault" [] [] "") 5 "" 5)
    (NewObservedTxVoter out_hash []))) one_address_clout).
Example same_address_spends_twice :
  let '(r, s') := calcClout vault_block 100 (set_toi_names out_hash "bc1me" "" (to_customer 100)) to_itself in
  r = Ok (40, 60) ∧ Spent <$> clouts (the_core s') !! GetKey "bc1me" = Some 60.
Proof. vm_compute. by split. Qed.
