(* ===== verification/ChainState.v ===== *)
(** * The rest of the chain's store

    The outermost layer of the typed store of src/x/switchly/keeper/v1: bond
    providers, the nodes' votes on mimirs, their pauses of the chain, the stakers
    and claimers of SWCY, and the proposals of upgrades with their votes, around
    the layer of vaults.

    The upgrade module and the accounts of the SDK are not part of the
    repository: they are the classes [UpgradeKeeper] and [Accounts]. *)

From S2P Require Import Prelude Runs GoStrings CosmosMath Amounts Assets Coins Constants State Nodes ObservedTx Attest SwapHandler Vaults Gas Layers Slasher.
Open Scope Z_scope.

(** ** Records *)

(** One vote of a node on a mimir; the votes on a key are a list. *)
Record NodeMimir := mkNodeMimir { nm_Key : string; nm_Value : Z; nm_Signer : string }.
Abbreviation NodeMimirs := (list NodeMimir).

Record SWCYStaker := mkSWCYStaker { sk_Address : string; sk_Amount : Z }.
Record SWCYClaimer := mkSWCYClaimer { cm_L1Address : string; cm_Asset : Asset; cm_Amount : Z }.
Definition NewSWCYStaker (addr : string) (amount : Z) : SWCYStaker := mkSWCYStaker addr amount.
Definition NewSWCYClaimer (l1Address : string) (a : Asset) (amount : Z) : SWCYClaimer := mkSWCYClaimer l1Address a amount.

Record Upgrade := mkUpgrade { ug_Height : Z; ug_Info : string }.
Record UpgradeProposal := mkUpgradeProposal { up_Height : Z; up_Info : string; up_Proposer : string }.
(** What the network has collected for the bonds, and how it splits its income. *)
Record Network := mkNetwork {
  BondRewardSwitch : Z;
  TotalBondUnits : Z;
  LPIncomeSplit : Z;
  NodeIncomeSplit : Z;
  OutboundGasSpentSwitch : Z;
  OutboundGasWithheldSwitch : Z;
}.
Definition NewNetwork : Network := mkNetwork 0 0 0 0 0 0.
Definition set_BondRewardSwitch (v : Z) (n : Network) : Network :=
  mkNetwork v (TotalBondUnits n) (LPIncomeSplit n) (NodeIncomeSplit n) (OutboundGasSpentSwitch n) (OutboundGasWithheldSwitch n).
Definition set_TotalBondUnits (v : Z) (n : Network) : Network :=
  mkNetwork (BondRewardSwitch n) v (LPIncomeSplit n) (NodeIncomeSplit n) (OutboundGasSpentSwitch n) (OutboundGasWithheldSwitch n).
Definition set_IncomeSplit (lp node : Z) (n : Network) : Network :=
  mkNetwork (BondRewardSwitch n) (TotalBondUnits n) lp node (OutboundGasSpentSwitch n) (OutboundGasWithheldSwitch n).
(** A plan of the SDK's upgrade module. *)
Record Plan := mkPlan { plan_Name : string; plan_Height : Z; plan_Info : string }.

(** ** Modules of the SDK *)

(** The upgrade module: at most one plan.  Scheduling one replaces the plan there
    is, or is refused and changes nothing; clearing leaves none. *)
Class UpgradeKeeper := {
  upgrade_state : Type;
  upgrade_plan : upgrade_state → option Plan;
  upgrade_schedule : Ctx → Plan → M upgrade_state ();
  upgrade_clear : M upgrade_state ();

  upgrade_schedule_law ctx p u u' : upgrade_schedule ctx p u = (Ok (), u') → upgrade_plan u' = Some p;
  upgrade_schedule_fails ctx p u e u' : upgrade_schedule ctx p u = (Err e, u') → u' = u;
  upgrade_clear_law u u' : upgrade_clear u = (Ok (), u') → upgrade_plan u' = None;
  upgrade_clear_fails u e u' : upgrade_clear u = (Err e, u') → u' = u;
}.

(** A plan has a name and a height in the future. *)
Definition plan_schedule (ctx : Ctx) (p : Plan) : M (option Plan) () := λ u,
  if bool_decide (plan_Name p = "") then (Err "name cannot be empty", u)
  else if plan_Height p <=? BlockHeight ctx then (Err "upgrade cannot be scheduled in the past", u)
  else (Ok (), Some p).

Lemma plan_schedule_cases ctx p u :
  plan_schedule ctx p u = (Ok (), Some p) ∨ ∃ e, plan_schedule ctx p u = (Err e, u).
Proof. unfold plan_schedule. repeat case_match; eauto. Qed.

#[export] Program Instance one_plan : UpgradeKeeper := {|
  upgrade_state := option Plan;
  upgrade_plan u := u;
  upgrade_schedule := plan_schedule;
  upgrade_clear u := (Ok (), None);
|}.
Next Obligation. intros ctx p u u' E. destruct (plan_schedule_cases ctx p u) as [E'|(e & E')]; congruence. Qed.
Next Obligation. intros ctx p u e u' E. destruct (plan_schedule_cases ctx p u) as [E'|(e' & E')]; congruence. Qed.
Next Obligation. by intros u u' [= <-]. Qed.
Next Obligation. by intros u e u'. Qed.

(** Whether the account keeper knows an address ([KVStore.GetAccount]). *)
Class Accounts `{Bank} := { has_account : bank_state → string → bool }.
(** Accounts that have held coins. *)
Definition ledger_accounts : Accounts (H := bank_ref) := {|
  has_account b addr := existsb (λ '((p, _), _), bool_decide (p = User_acc addr)) (map_to_list (BankRef.accounts b));
|}.

(** ** The store *)

Section ChainStore.
  Context `{Bank} `{UpgradeKeeper}.

Record ChainState := mkChainState {
  cs_vaults : VaultState;
  bondProviders : gmap string BondProviders;
  nodeMimirs : gmap string NodeMimirs;
  nodePauses : gmap string Z;
  swcyStakers : gmap string SWCYStaker;
  swcyClaimers : gmap string SWCYClaimer;
  upgradeProposals : gmap string UpgradeProposal;
  upgradeVotes : gmap string bool;
  upgradeModule : upgrade_state;
  network : Network;
}.
End ChainStore.

Section ChainKeeper.
  Context `{CosmosMath} `{Bank} `{Env} `{!PubKeys} `{UpgradeKeeper}.
Abbreviation C := (M ChainState).

Definition put_cs_vaults (v : VaultState) (r : ChainState) : ChainState :=
  mkChainState v (bondProviders r) (nodeMimirs r) (nodePauses r) (swcyStakers r) (swcyClaimers r) (upgradeProposals r) (upgradeVotes r) (upgradeModule r) (network r).
Definition put_bondProviders (v : gmap string BondProviders) (r : ChainState) : ChainState :=
  mkChainState (cs_vaults r) v (nodeMimirs r) (nodePauses r) (swcyStakers r) (swcyClaimers r) (upgradeProposals r) (upgradeVotes r) (upgradeModule r) (network r).
Definition put_nodeMimirs (v : gmap string NodeMimirs) (r : ChainState) : ChainState :=
  mkChainState (cs_vaults r) (bondProviders r) v (nodePauses r) (swcyStakers r) (swcyClaimers r) (upgradeProposals r) (upgradeVotes r) (upgradeModule r) (network r).
Definition put_nodePauses (v : gmap string Z) (r : ChainState) : ChainState :=
  mkChainState (cs_vaults r) (bondProviders r) (nodeMimirs r) v (swcyStakers r) (swcyClaimers r) (upgradeProposals r) (upgradeVotes r) (upgradeModule r) (network r).
Definition put_swcyStakers (v : gmap string SWCYStaker) (r : ChainState) : ChainState :=
  mkChainState (cs_vaults r) (bondProviders r) (nodeMimirs r) (nodePauses r) v (swcyClaimers r) (upgradeProposals r) (upgradeVotes r) (upgradeModule r) (network r).
Definition put_swcyClaimers (v : gmap string SWCYClaimer) (r : ChainState) : ChainState :=
  mkChainState (cs_vaults r) (bondProviders r) (nodeMimirs r) (nodePauses r) (swcyStakers r) v (upgradeProposals r) (upgradeVotes r) (upgradeModule r) (network r).
Definition put_upgradeProposals (v : gmap string UpgradeProposal) (r : ChainState) : ChainState :=
  mkChainState (cs_vaults r) (bondProviders r) (nodeMimirs r) (nodePauses r) (swcyStakers r) (swcyClaimers r) v (upgradeVotes r) (upgradeModule r) (network r).
Definition put_upgradeVotes (v : gmap string bool) (r : ChainState) : ChainState :=
  mkChainState (cs_vaults r) (bondProviders r) (nodeMimirs r) (nodePauses r) (swcyStakers r) (swcyClaimers r) (upgradeProposals r) v (upgradeModule r) (network r).
Definition put_upgradeModule (v : upgrade_state) (r : ChainState) : ChainState :=
  mkChainState (cs_vaults r) (bondProviders r) (nodeMimirs r) (nodePauses r) (swcyStakers r) (swcyClaimers r) (upgradeProposals r) (upgradeVotes r) v (network r).
Definition put_network (v : Network) (r : ChainState) : ChainState :=
  mkChainState (cs_vaults r) (bondProviders r) (nodeMimirs r) (nodePauses r) (swcyStakers r) (swcyClaimers r) (upgradeProposals r) (upgradeVotes r) (upgradeModule r) v.

(** A call on the layers below. *)
Definition in_vaults {A} (m : M VaultState A) : C A := λ s, let '(r, v) := m (cs_vaults s) in (r, put_cs_vaults v s).
Definition chain_obs {A} (m : M ObsState A) : C A := in_vaults (observed m).
Definition chain_core {A} (m : K A) : C A := in_vaults (at_core m).
Definition in_upgrades {A} (m : M upgrade_state A) : C A := λ s,
  let '(r, u) := m (upgradeModule s) in (r, put_upgradeModule u s).

(** *** The network's record *)

Definition Keeper_GetNetwork : C Network := gets network.
Definition SetNetwork (data : Network) : C () := modify (put_network data).

(** *** Bond providers *)

Definition GetBondProviders (addr : string) : C BondProviders :=
  gets (λ s, default (NewBondProviders addr) (bondProviders s !! GetKey addr)).
Definition SetBondProviders (record : BondProviders) : C () :=
  modify (λ s, put_bondProviders (<[GetKey (bps_NodeAddress record) := record]> (bondProviders s)) s).

(** ** Facts *)

Definition chain_state_core (s : ChainState) : State := the_core (cs_vaults s).
Definition with_chain_core (c : State) (s : ChainState) : ChainState := put_cs_vaults (with_core c (cs_vaults s)) s.
Definition chain_state_obs (s : ChainState) : ObsState := q_obs (vs_queue (cs_vaults s)).

Lemma chain_core_run {A} (m : K A) s :
  chain_core m s = (fst (m (chain_state_core s)), with_chain_core (snd (m (chain_state_core s))) s).
Proof. unfold chain_core, in_vaults. by rewrite at_core_run. Qed.
Lemma chain_core_ok {A} (m : K A) s a s' :
  chain_core m s = (Ok a, s') → ∃ c, m (chain_state_core s) = (Ok a, c) ∧ s' = with_chain_core c s.
Proof.
  rewrite chain_core_run. intros [= Hm <-]. exists (snd (m (chain_state_core s))). split; [by apply run_pair|done].
Qed.
Lemma chain_core_id s : with_chain_core (chain_state_core s) s = s.
Proof. unfold with_chain_core, chain_state_core. rewrite with_core_id. by destruct s. Qed.
Lemma only_reads_in_vaults {A} (m : M VaultState A) : only_reads m → only_reads (in_vaults m).
Proof. intros Hm s. unfold in_vaults. specialize (Hm (cs_vaults s)). destruct (m _). cbn in *. subst. by destruct s. Qed.
Lemma only_reads_chain_obs {A} (m : M ObsState A) : only_reads m → only_reads (chain_obs m).
Proof. intros Hm. by apply only_reads_in_vaults, only_reads_observed. Qed.
Lemma only_reads_chain_core {A} (m : K A) : only_reads m → only_reads (chain_core m).
Proof. intros Hm. by apply only_reads_in_vaults, only_reads_at_core. Qed.
Lemma chain_reads_fst {A} (m : K A) s : fst (chain_core m s) = fst (m (chain_state_core s)).
Proof. by rewrite chain_core_run. Qed.
Lemma chain_obs_ok {A} (m : M ObsState A) s a s' :
  chain_obs m s = (Ok a, s') →
  ∃ o, m (chain_state_obs s) = (Ok a, o) ∧
       s' = put_cs_vaults (put_queue (put_obs o (vs_queue (cs_vaults s))) (cs_vaults s)) s.
Proof.
  unfold chain_obs, in_vaults, observed, in_queue, in_obs, chain_state_obs.
  destruct (m (q_obs (vs_queue (cs_vaults s)))) as [r o]. intros [= -> <-]. by exists o.
Qed.
Lemma chain_obs_fst {A} (m : M ObsState A) s : fst (chain_obs m s) = fst (m (chain_state_obs s)).
Proof. unfold chain_obs, in_vaults, observed, in_queue, in_obs, chain_state_obs. by destruct (m _). Qed.

(** A call on the layers below leaves the outermost one. *)
Definition outer_kept (s s' : ChainState) : Prop := ∃ v, s' = put_cs_vaults v s.
Lemma outer_refl s : outer_kept s s.
Proof. exists (cs_vaults s). by destruct s. Qed.
Lemma outer_trans s1 s2 s3 : outer_kept s1 s2 → outer_kept s2 s3 → outer_kept s1 s3.
Proof. intros [v ->] [w ->]. by exists w. Qed.
Lemma in_vaults_outer {A} (m : M VaultState A) s r s' : in_vaults m s = (r, s') → outer_kept s s'.
Proof. unfold in_vaults. destruct (m (cs_vaults s)) as [o v]. intros [= _ <-]. by exists v. Qed.

(** ** The bonds *)

Definition chain_nodes (s : ChainState) : gmap string NodeAccount := the_nodes (cs_vaults s).
Definition chain_nodes_ok (s : ChainState) : Prop := nodes_ok (cs_vaults s).
Definition stored_bond (s : ChainState) (addr : string) : Z := from_option na_Bond 0 (chain_nodes s !! GetKey addr).
(** What the bond module has beyond what the nodes are owed. *)
Definition bond_surplus (s : ChainState) : Z := in_bond (cs_vaults s) - bonded (cs_vaults s).

(** What leaves the nodes and the bond module alone. *)
Definition bonds_kept (s s' : ChainState) : Prop := bonds_apart (cs_vaults s) (cs_vaults s').

Lemma bonds_kept_surplus s s' : bonds_kept s s' → bond_surplus s' = bond_surplus s.
Proof. intros [Hn Hb]. unfold bond_surplus, bonded. by rewrite Hn, Hb. Qed.
Lemma bonds_kept_nodes s s' : bonds_kept s s' → chain_nodes s' = chain_nodes s.
Proof. by intros [Hn _]. Qed.
Lemma bonds_kept_ok s s' : bonds_kept s s' → chain_nodes_ok s → chain_nodes_ok s'.
Proof. intros [Hn _] Hok k na. unfold the_nodes in *. rewrite Hn. apply Hok. Qed.
Lemma bonds_kept_trans s1 s2 s3 : bonds_kept s1 s2 → bonds_kept s2 s3 → bonds_kept s1 s3.
Proof. intros [Hn Hb] [Hn' Hb']. split; congruence. Qed.
(** A call on the core that leaves the bank alone. *)
Lemma chain_core_bonds {A} (m : K A) s r s' :
  (∀ c r c', m c = (Ok r, c') → bank c' = bank c) → chain_core m s = (Ok r, s') → bonds_kept s s'.
Proof.
  intros Hm (c & Hc & ->)%chain_core_ok. split; [done|]. unfold in_bond, module_switch. cbn.
  by rewrite (Hm _ _ _ Hc).
Qed.

Lemma set_node_ok ctx na s s' :
  chain_obs (SetNodeAccount ctx na) s = (Ok (), s') → chain_nodes_ok s → NodeAccount_IsEmpty na = false → 0 ≤ na_Bond na →
  ∃ o na', s' = put_cs_vaults (put_queue (put_obs o (vs_queue (cs_vaults s))) (cs_vaults s)) s ∧
    chain_nodes_ok s' ∧ chain_state_core s' = chain_state_core s ∧
    chain_nodes s' = <[GetKey (NodeAddress na) := na']> (chain_nodes s) ∧ na_Bond na' = na_Bond na ∧
    bond_surplus s' = bond_surplus s + stored_bond s (NodeAddress na) - na_Bond na.
Proof.
  intros Hrun Hok He Hb. apply chain_obs_ok in Hrun as (o & Ho & ->).
  destruct (SetNodeAccount_run ctx na (chain_state_obs s) He) as (na' & o' & Hrun' & Hn & Hcore & Haddr & Hbond & He').
  rewrite Hrun' in Ho. injection Ho as <-. exists o', na'.
  assert (Hnodes : chain_nodes (put_cs_vaults (put_queue (put_obs o' (vs_queue (cs_vaults s))) (cs_vaults s)) s) =
    <[GetKey (NodeAddress na) := na']> (chain_nodes s)) by exact Hn.
  split; [done|]. split; [|split; [exact Hcore|split; [done|split; [done|]]]].
  - intros k m Hk. change (chain_nodes (put_cs_vaults (put_queue (put_obs o' (vs_queue (cs_vaults s))) (cs_vaults s)) s) !! k = Some m) in Hk.
    rewrite Hnodes in Hk. apply lookup_insert_Some in Hk as [[<- <-]|[_ Hk]]; [|by apply Hok].
    split_and!; [by rewrite Haddr|done|lia].
  - unfold bond_surplus, bonded. change (the_nodes (cs_vaults ?x)) with (chain_nodes x). rewrite Hnodes, map_sum_insert, Hbond.
    unfold stored_bond, in_bond, the_core. cbn. unfold chain_state_obs in Hcore. rewrite Hcore. lia.
Qed.

(** The account read for an address, and what it has bonded. *)
Definition account_at (ctx : Ctx) (s : ChainState) (addr : string) : NodeAccount :=
  default (NewNodeAccount addr NodeUnknown (mkPubKeySet "" "") "" 0 "" (BlockHeight ctx)) (chain_nodes s !! GetKey addr).

Lemma GetNodeAccount_run ctx addr s : chain_obs (GetNodeAccount ctx addr) s = (Ok (account_at ctx s addr), s).
Proof. unfold chain_obs, in_vaults, observed, in_queue, in_obs. cbn. by destruct s as [[[]]]. Qed.
Lemma GetNodeAccount_chain ctx addr s na s' :
  chain_obs (GetNodeAccount ctx addr) s = (Ok na, s') → na = account_at ctx s addr ∧ s' = s.
Proof. rewrite GetNodeAccount_run. by intros [= <- <-]. Qed.
Lemma account_at_bond ctx s addr : na_Bond (account_at ctx s addr) = stored_bond s addr.
Proof. unfold account_at, stored_bond. by destruct (chain_nodes s !! GetKey addr). Qed.
Lemma account_at_key ctx s addr : chain_nodes_ok s → GetKey (NodeAddress (account_at ctx s addr)) = GetKey addr.
Proof.
  intros Hok. unfold account_at. destruct (chain_nodes s !! GetKey addr) as [na|] eqn:E; [|done].
  by apply Hok in E as [-> _].
Qed.
Lemma account_at_nonneg ctx s addr : chain_nodes_ok s → 0 ≤ na_Bond (account_at ctx s addr).
Proof.
  intros Hok. unfold account_at. destruct (chain_nodes s !! GetKey addr) as [na|] eqn:E; [|done].
  by apply Hok in E as (_ & _ & ?).
Qed.
(** The account of an address is saved with another bond: an account that is
    empty is not saved, and has then what is stored. *)
Record bond_saved (addr : string) (bond : Z) (s s' : ChainState) : Prop := {
  sv_ok : chain_nodes_ok s';
  sv_core : chain_state_core s' = chain_state_core s;
  sv_outer : outer_kept s s';
  sv_bond : stored_bond s' addr = bond;
  sv_others k : k ≠ GetKey addr → chain_nodes s' !! k = chain_nodes s !! k;
  sv_surplus : bond_surplus s' = bond_surplus s + stored_bond s addr - bond;
}.
Lemma save_empty ctx na s u s' : chain_obs (SetNodeAccount ctx na) s = (Ok u, s') → NodeAccount_IsEmpty na = true → s' = s.
Proof.
  intros (o & Ho & ->)%chain_obs_ok He. unfold SetNodeAccount in Ho. rewrite He in Ho. injection Ho as _ <-.
  by destruct s as [[[]]].
Qed.
Lemma save_account_ok ctx addr na s s' :
  chain_obs (SetNodeAccount ctx na) s = (Ok (), s') → chain_nodes_ok s → GetKey (NodeAddress na) = GetKey addr →
  0 ≤ na_Bond na → (NodeAccount_IsEmpty na = true → na_Bond na = stored_bond s addr) → bond_saved addr (na_Bond na) s s'.
Proof.
  intros Hrun Hok Hkey Hb Hsame. destruct (NodeAccount_IsEmpty na) eqn:He.
  - apply save_empty in Hrun as ->; [|done]. specialize (Hsame eq_refl). split; [done|done|apply outer_refl|done|done|lia].
  - apply in_vaults_outer in Hrun as Hout. apply set_node_ok in Hrun as (o & na' & _ & Hok' & Hcore & Hn & Hb' & Hs); [|done..].
    split; [done|done|done|..].
    + unfold stored_bond. rewrite Hn, <- Hkey, lookup_insert_eq. done.
    + intros k Hk. rewrite Hn, lookup_insert_ne by congruence. done.
    + rewrite Hs. unfold stored_bond. by rewrite Hkey.
Qed.
Lemma account_stays_empty ctx s addr b :
  chain_nodes_ok s → NodeAccount_IsEmpty (set_na_Bond b (account_at ctx s addr)) = true → stored_bond s addr = 0.
Proof.
  intros Hok He. change (NodeAccount_IsEmpty (account_at ctx s addr) = true) in He.
  unfold account_at, stored_bond in *. destruct (chain_nodes s !! GetKey addr) as [na|] eqn:E; [|done].
  apply Hok in E as (_ & He' & _). cbn in He. congruence.
Qed.

(** A new bond for the account of an address; an unknown account has none. *)
Lemma set_bond_ok ctx addr b s s' :
  chain_obs (SetNodeAccount ctx (set_na_Bond b (account_at ctx s addr))) s = (Ok (), s') → chain_nodes_ok s → 0 ≤ b →
  (stored_bond s addr = 0 → b = 0) → bond_saved addr b s s'.
Proof.
  intros Hrun Hok Hb Hnone. apply (save_account_ok ctx addr) in Hrun; [done|done|by apply account_at_key|done|].
  intros He%account_stays_empty; [|done]. cbn. rewrite He. auto.
Qed.

(** A payment out of the bond module. *)
Lemma bond_to_module_ok to amt s s' :
  to ≠ BondName → chain_core (SendFromModuleToModule BondName to [NewCoin SwitchNative amt]) s = (Ok (), s') →
  0 < amt ∧ chain_nodes s' = chain_nodes s ∧ mimirs (chain_state_core s') = mimirs (chain_state_core s) ∧
  bond_surplus s' = bond_surplus s - amt.
Proof.
  intros Hne (c & Hc & ->)%chain_core_ok.
  assert (Hpos : 0 < amt).
  { unfold SendFromModuleToModule in Hc. apply in_bank_ok in Hc as (b & Hsend & _). apply bank_send_law in Hsend as [[? _] _]. done. }
  split; [done|]. apply module_to_module_ok in Hc as (b & -> & _ & Hb & _); [|congruence].
  split; [done|]. split; [done|]. unfold bond_surplus, bonded, in_bond, chain_state_core, with_chain_core in *. cbn [cs_vaults put_cs_vaults] in *.
  rewrite the_core_with. change (the_nodes (with_core ?c ?v)) with (the_nodes v). lia.
Qed.

Lemma bond_to_account_ok to amt s s' :
  chain_core (SendFromModuleToAccount BondName to [NewCoin SwitchNative amt]) s = (Ok (), s') →
  0 < amt ∧ chain_nodes s' = chain_nodes s ∧ outer_kept s s' ∧ mimirs (chain_state_core s') = mimirs (chain_state_core s) ∧
  bond_surplus s' = bond_surplus s - amt ∧
  (∀ acc, bank_balance (bank (chain_state_core s')) (User_acc acc) "switch" =
     bank_balance (bank (chain_state_core s)) (User_acc acc) "switch" + if decide (acc = to) then amt else 0).
Proof.
  intros Hrun. apply in_vaults_outer in Hrun as Hout. apply chain_core_ok in Hrun as (c & Hc & ->).
  unfold SendFromModuleToAccount in Hc. apply in_bank_ok in Hc as (b & Hsend & ->).
  cbn [map] in Hsend. change (native_coin (NewCoin SwitchNative amt)) with ("switch", amt) in Hsend.
  apply bank_send_law in Hsend as ([Hpos _] & _ & Hbal).
  split_and!; [done|done|done|done|..].
  - unfold bond_surplus, bonded, in_bond, module_switch, with_chain_core. cbn [cs_vaults put_cs_vaults]. rewrite the_core_with.
    change (the_nodes (with_core ?c ?v)) with (the_nodes v). cbn [bank put_bank]. rewrite Hbal, decide_True, decide_False by naive_solver.
    unfold chain_state_core. lia.
  - intros acc. unfold with_chain_core, chain_state_core. cbn [cs_vaults put_cs_vaults]. rewrite the_core_with. cbn [bank put_bank].
    rewrite Hbal, decide_False by naive_solver. destruct (decide (acc = to)) as [->|].
    + rewrite decide_True by done. unfold chain_state_core. lia.
    + rewrite decide_False by naive_solver. unfold chain_state_core. lia.
Qed.
Lemma bond_to_account_fails to amt s e s' :
  chain_core (SendFromModuleToAccount BondName to [NewCoin SwitchNative amt]) s = (Err e, s') → s' = s.
Proof.
  rewrite chain_core_run. intros Hrun. unfold SendFromModuleToAccount, in_bank in Hrun. cbn [map] in Hrun.
  destruct (bank_send _ _ _ _) as [r b] eqn:Hsend. cbn in Hrun. injection Hrun as -> <-.
  apply bank_send_fails in Hsend as ->. transitivity (with_chain_core (chain_state_core s) s); [|apply chain_core_id].
  f_equal. by destruct (chain_state_core s).
Qed.
End ChainKeeper.

#[export] Hint Resolve only_reads_in_vaults only_reads_chain_obs only_reads_chain_core : reads.

(** The store with nothing in the outermost layer, to evaluate the definitions
    with. *)
Definition only_vaults (s : VaultState) : ChainState := mkChainState s ∅ ∅ ∅ ∅ ∅ ∅ ∅ (None : upgrade_state (UpgradeKeeper := one_plan)) NewNetwork.

(** Five active nodes with a thousand SWITCH each, and the coins for it. *)
Definition council : gmap string NodeAccount :=
  list_to_map ((λ na, (GetKey (NodeAddress na), na)) <$> [bonded_node "alice" (1000 * One); bonded_node "bob" (1000 * One);
    bonded_node "carol" (1000 * One); bonded_node "dave" (1000 * One); bonded_node "erin" (1000 * One)]).
Definition council_ledger : BankRef.ledger :=
  BankRef.mkLedger {[(Module_acc BondName, "switch") := 5000 * One]} {["switch" := 5000 * One]}.
Definition council_chain : ChainState (H0 := one_plan) :=
  let s := no_vaults in
  only_vaults (put_queue (mkQueueState (put_nodeAccounts council (put_core (put_bank council_ledger empty_state) (q_obs (vs_queue s)))) ∅ ∅ ∅) s).

Lemma council_ok : chain_nodes_ok council_chain.
Proof.
  intros k na Hk. apply elem_of_list_to_map_2 in Hk. apply list_elem_of_fmap in Hk as (m & [= -> ->] & Hm).
  repeat (apply elem_of_cons in Hm as [->|Hm]; [split_and!; [reflexivity|vm_compute; reflexivity|vm_compute; discriminate]|]).
  by apply elem_of_nil in Hm.
Defined.
