(* ===== verification/Bonds.v ===== *)
(** * Bonding, unbonding and leaving

    src/x/switchly/handler_bond.go, handler_unbond.go, handler_leave.go, refundBond
    and passiveBackfill of helpers.go, and of keeper/v1/keeper_node_account.go the
    fee taken from a bond and the removal of accounts with a low bond. *)

From stdpp Require Import sorting.
From S2P Require Import Prelude Runs GoStrings CosmosMath Amounts Assets Coins Constants State Txs Halts Fees Nodes Quorum ObservedTx Attest SwapHandler Messages Vaults Gas Layers Slasher ChainState.
Open Scope Z_scope.

Section Bonds.
  Context `{CosmosMath} `{Bank} `{Env} `{!PubKeys} `{UpgradeKeeper} `{!Accounts}.
Abbreviation C := (M ChainState).

(** ** Bonding *)

Definition Bond_validate (ctx : Ctx) (msg : MsgBond) : C () :=
  if versionMajor ctx <? 3 then throw errBadVersion
  else
    _ ← check (Bond_ValidateBasic msg);
    na ← chain_obs (GetNodeAccount ctx (bo_NodeAddress msg));
    _ ← fail_when (bool_decide (na_Status na = NodeReady)) "cannot add bond while node is ready status";
    bondPause ← chain_core (GetConfigInt64 "PauseBond");
    _ ← fail_when (0 <? bondPause) "bonding has been paused";
    bond ← lift (uadd (bo_Bond msg) (na_Bond na));
    maxBond ← chain_core (GetMimir "MaximumBondInSWITCH");
    _ ← fail_when ((0 <? maxBond) && (to_u64 maxBond <? bond)) "too much bond";
    _ ← fail_when (negb (IsChain (bo_BondAddress msg) SWITCHLYChain)) "bonding address is NOT a SwitchlyProtocol address";
    bp ← GetBondProviders (bo_NodeAddress msg);
    let own := Address_Equals (bo_BondAddress msg) (BondAddress na) in
    _ ← fail_when ((-1 <? bo_OperatorFee msg) && negb (blank (BondAddress na)) && negb own) "only node operator can set fee";
    if own || blank (BondAddress na) then mret ()
    else
      from ← lift (AccAddressFromBech32 (bo_BondAddress msg));
      fail_when (negb (BP_Has bp from)) "bond address is not valid for node account".

(** The operator's bond when no provider is known yet. *)
Definition passiveBackfill (na : NodeAccount) (bp : BondProviders) : C BondProviders :=
  match Providers bp with
  | [] =>
      nodeOpBondAddr ← lift (AccAddressFromBech32 (BondAddress na));
      defaultNodeOperationFee ← chain_core (GetConfigInt64 "NodeOperatorFee");
      mret (mkBondProviders (bps_NodeAddress bp) (to_u64 defaultNodeOperationFee)
              [set_bp_Bond (na_Bond na) (NewBondProvider nodeOpBondAddr)])
  | _ => mret bp
  end.

(** The account of the address: a new one is on the white list. *)
Definition bonding_account (ctx : Ctx) (msg : MsgBond) (na : NodeAccount) : NodeAccount :=
  if bool_decide (na_Status na = NodeUnknown)
  then NewNodeAccount (bo_NodeAddress msg) NodeWhitelisted (mkPubKeySet EmptyPubKey EmptyPubKey) "" 0 (bo_BondAddress msg) (BlockHeight ctx)
  else na.

(** One SWITCH of the first bond opens the node's account. *)
Definition open_account (txID addr : string) (na : NodeAccount) (bond : Z) : C (NodeAccount * Z) :=
  known ← gets (λ s, has_account (bank (chain_state_core s)) addr);
  if negb known && (One <=? na_Bond na) then
    sent ← attempt (chain_core (SendFromModuleToAccount BondName addr [NewCoin SwitchNative One]));
    let na := match sent with
              | inl _ => na
              | inr _ => set_status NodeUnknown (StatusSince na) (ActiveBlockHeight na) na
              end in
    b ← lift (SafeSub (na_Bond na) One);
    bond ← lift (SafeSub bond One);
    _ ← chain_core (EmitEvent (EvBond One BondCost (NodeAddress na) "" txID));
    mret (set_na_Bond b na, bond)
  else mret (na, bond).

(** The operator may add a provider, up to a number. *)
Definition add_provider (msg : MsgBond) (na : NodeAccount) (bp : BondProviders) : C BondProviders :=
  if Address_Equals (bo_BondAddress msg) (BondAddress na) && negb (bool_decide (bo_Provider msg = "")) then
    m ← chain_core (GetMimir "MaxBondProviders");
    let most := if m <? 0 then GetInt64Value int64Overrides "MaxBondProviders" else m in
    _ ← fail_when (most <=? len (Providers bp)) "additional bond providers are not allowed, maximum reached";
    mret (if BP_Has bp (bo_Provider msg) then bp
          else set_Providers (Providers bp ++ [NewBondProvider (bo_Provider msg)])%list bp)
  else mret bp.

Definition set_NodeOperatorFee (fee : Z) (bp : BondProviders) : BondProviders :=
  mkBondProviders (bps_NodeAddress bp) fee (Providers bp).

Definition Bond_handle (ctx : Ctx) (msg : MsgBond) : C () :=
  if versionMajor ctx <? 3 then throw errBadVersion
  else
    na ← chain_obs (GetNodeAccount ctx (bo_NodeAddress msg));
    let na := bonding_account ctx msg na in
    bp ← GetBondProviders (NodeAddress na);
    bp ← passiveBackfill na bp;
    bp ← lift (BP_Adjust bp (na_Bond na));
    b ← lift (uadd (na_Bond na) (bo_Bond msg));
    '(na, bond) ← open_account (tx_ID (bo_TxIn msg)) (bo_NodeAddress msg) (set_na_Bond b na) (bo_Bond msg);
    bp ← add_provider msg na bp;
    from ← lift (AccAddressFromBech32 (bo_BondAddress msg));
    bp ← lift (if BP_Has bp from then BP_Bond bp bond from else Ok bp);
    let bp := if (-1 <? bo_OperatorFee msg) && (bo_OperatorFee msg <=? 10000)
              then set_NodeOperatorFee (to_u64 (bo_OperatorFee msg)) bp else bp in
    _ ← chain_obs (SetNodeAccount ctx na);
    _ ← SetBondProviders bp;
    chain_core (EmitEvent (EvBond bond BondPaid (NodeAddress na) from (tx_ID (bo_TxIn msg)))).
Definition Bond_Run (ctx : Ctx) (msg : MsgBond) : C () := _ ← Bond_validate ctx msg; Bond_handle ctx msg.

(** ** Refunding a bond *)

(** The payment to a provider, of at most its part. *)
Definition pay_provider (txID : string) (acc : string) (amt : Z) (na : NodeAccount) (bp : BondProviders)
    : C (NodeAccount * BondProviders) :=
  let provider := BP_Get bp acc in
  if negb (BondProvider_IsEmpty provider) && negb (bp_Bond provider =? 0) then
    let amt := if bp_Bond provider <? amt then bp_Bond provider else amt in
    bp ← lift (BP_Unbond bp amt (bp_BondAddress provider));
    _ ← chain_core (SendFromModuleToAccount BondName (bp_BondAddress provider) [NewCoin SwitchNative amt]);
    _ ← chain_core (EmitEvent (EvBond amt BondReturned (NodeAddress na) (bp_BondAddress provider) txID));
    b ← lift (SafeSub (na_Bond na) amt);
    mret (set_na_Bond b na, bp)
  else mret (na, bp).

Definition refundBond (ctx : Ctx) (txID acc : string) (amt : Z) (na : NodeAccount) : C NodeAccount :=
  if bool_decide (na_Status na = NodeActive) || bool_decide (na_Status na = NodeReady) then mret na
  else
    let amt := if (amt =? 0) || (na_Bond na <? amt) then na_Bond na else amt in
    bp ← GetBondProviders (NodeAddress na);
    bp ← passiveBackfill na bp;
    bp ← lift (BP_Adjust bp (na_Bond na));
    '(na, bp) ← pay_provider txID acc amt na bp;
    let na := if RequestedToLeave na then UpdateStatus na NodeDisabled (BlockHeight ctx) else na in
    _ ← chain_obs (SetNodeAccount ctx na);
    _ ← SetBondProviders bp;
    mret na.

(** ** Unbonding *)

Definition UnBond_validate (ctx : Ctx) (msg : MsgUnBond) : C () :=
  _ ← check (UnBond_ValidateBasic msg);
  _ ← fail_when (negb (Coins_IsEmpty (tx_Coins (ub_TxIn msg)))) "unbond message cannot have a non-zero coin amount";
  na ← chain_obs (GetNodeAccount ctx (ub_NodeAddress msg));
  _ ← fail_when (bool_decide (na_Status na = NodeActive) || bool_decide (na_Status na = NodeReady))
        "cannot unbond while node is in active or ready status";
  pause ← chain_core (GetConfigInt64 "PauseUnbond");
  _ ← fail_when (0 <? pause) "unbonding has been paused";
  bp ← GetBondProviders (ub_NodeAddress msg);
  from ← lift (AccAddressFromBech32 (ub_BondAddress msg));
  fail_when (negb (BP_Has bp from) && negb (Address_Equals (BondAddress na) (ub_BondAddress msg))) "not authorized".

(** The bond stays for a time, and while a vault the node has a key of retires. *)
Definition lockup_over (ctx : Ctx) (na : NodeAccount) : C () :=
  m ← chain_core (GetMimir "BondLockupPeriod");
  let bondLockPeriod := if m <? 0 then GetInt64Value int64Overrides "BondLockupPeriod" else m in
  fail_when (to_i64 (BlockHeight ctx - StatusSince na) <? bondLockPeriod) "node can not unbond yet".
Definition in_retiring_vault (ctx : Ctx) (na : NodeAccount) : C bool :=
  vs ← in_vaults (GetAsgardVaultsByStatus ctx RetiringVault);
  mret (existsb (λ v, bool_decide (Secp256k1 (na_PubKeySet na) ∈ GetMembership v)) vs).

(** A provider without bond is taken off the list; the operator stays. *)
Definition drop_provider (acc : string) (na : NodeAccount) : C () :=
  bondAddr ← lift (AccAddressFromBech32 (BondAddress na));
  if bool_decide (bondAddr = acc) then mret ()
  else
    bp ← GetBondProviders (NodeAddress na);
    let provider := BP_Get bp acc in
    if negb (BondProvider_IsEmpty provider) && (bp_Bond provider =? 0) then
      match BP_Remove bp acc with (bp, true) => SetBondProviders bp | _ => mret () end
    else mret ().

Definition UnBond_handle (ctx : Ctx) (msg : MsgUnBond) : C () :=
  if versionMajor ctx <? 3 then throw errBadVersion
  else
    na ← chain_obs (GetNodeAccount ctx (ub_NodeAddress msg));
    _ ← lockup_over ctx na;
    retiring ← in_retiring_vault ctx na;
    _ ← fail_when retiring "fail to unbond, still part of the retiring vault";
    from ← lift (AccAddressFromBech32 (ub_BondAddress msg));
    na ←
      (if Address_Equals (ub_BondAddress msg) (BondAddress na) && negb (bool_decide (ub_Provider msg = "")) then
         na ← refundBond ctx (tx_ID (ub_TxIn msg)) (ub_Provider msg) (ub_Amount msg) na;
         _ ← drop_provider (ub_Provider msg) na;
         mret na
       else refundBond ctx (tx_ID (ub_TxIn msg)) from (ub_Amount msg) na);
    let coin := GetCoin (tx_Coins (ub_TxIn msg)) SwitchNative in
    if Coin_IsEmpty coin then mret ()
    else
      b ← lift (uadd (na_Bond na) (coin_amount coin));
      chain_obs (SetNodeAccount ctx (set_na_Bond b na)).
Definition UnBond_Run (ctx : Ctx) (msg : MsgUnBond) : C () := _ ← UnBond_validate ctx msg; UnBond_handle ctx msg.

(** ** Leaving *)

Definition Leave_validate (msg : MsgLeave) : C () :=
  _ ← check (Leave_ValidateBasic msg);
  fail_when (negb (Coins_IsEmpty (tx_Coins (le_Tx msg)))) "leave message cannot have a non-zero coin amount".

(** Someone else than the operator may ask when the node is active: a provider
    with the least bond of a node. *)
Definition may_leave (msg : MsgLeave) (na : NodeAccount) : C () :=
  if Address_Equals (BondAddress na) (FromAddress (le_Tx msg)) then mret ()
  else
    _ ← fail_when (negb (bool_decide (na_Status na = NodeActive))) "not authorized when it is not Active";
    minBond ← chain_core (GetConfigInt64 "MinimumBondInSWITCH");
    bp ← GetBondProviders (le_NodeAddress msg);
    match Providers bp with
    | [] => throw "not authorized"
    | ps =>
        acc ← lift (AccAddressFromBech32 (FromAddress (le_Tx msg)));
        fail_when (negb (existsb (λ p, provider_is acc p && (to_u64 minBond <=? bp_Bond p)) ps)) "not authorized"
    end.

Definition set_LeaveScore (n : Z) (m : NodeAccount) : NodeAccount :=
  mkNodeAccount (NodeAddress m) (na_Status m) (na_PubKeySet m) (ValidatorConsPubKey m) (na_Bond m) (ActiveBlockHeight m) (BondAddress m) (StatusSince m) (SignerMembership m) (RequestedToLeave m) (ForcedToLeave m) n (na_Type m) (MissingBlocks m) (IPAddress m) (na_Version m) (Maintenance m).
Definition set_RequestedToLeave (b : bool) (m : NodeAccount) : NodeAccount :=
  mkNodeAccount (NodeAddress m) (na_Status m) (na_PubKeySet m) (ValidatorConsPubKey m) (na_Bond m) (ActiveBlockHeight m) (BondAddress m) (StatusSince m) (SignerMembership m) b (ForcedToLeave m) (LeaveScore m) (na_Type m) (MissingBlocks m) (IPAddress m) (na_Version m) (Maintenance m).

(** The age of the node, to eight decimals, per slash point. *)
Definition leave_score (ctx : Ctx) (na : NodeAccount) : C NodeAccount :=
  if negb (LeaveScore na =? 0) then mret na
  else
    let age := to_u64 ((BlockHeight ctx - StatusSince na) * One) in
    slashPts ← chain_obs (GetNodeAccountSlashPoints (NodeAddress na));
    mret (set_LeaveScore (if slashPts =? 0 then age else Z.div age (to_u64 slashPts)) na).

Definition Leave_handle (ctx : Ctx) (msg : MsgLeave) : C () :=
  if versionMajor ctx <? 3 then throw errBadVersion
  else
    na ← chain_obs (GetNodeAccount ctx (le_NodeAddress msg));
    _ ← fail_when (NodeAccount_IsEmpty na) "node account doesn't exist";
    _ ← may_leave msg na;
    let coin := GetCoin (tx_Coins (le_Tx msg)) SwitchNative in
    b ← lift (if Coin_IsEmpty coin then Ok (na_Bond na) else uadd (na_Bond na) (coin_amount coin));
    let na := set_na_Bond b na in
    bondAddr ← lift (AccAddressFromBech32 (BondAddress na));
    na ←
      (if bool_decide (na_Status na = NodeActive) then leave_score ctx na
       else
         _ ← lockup_over ctx na;
         retiring ← in_retiring_vault ctx na;
         if retiring : bool then mret na
         else
           isYggdrasil ← in_vaults (VaultExists (Secp256k1 (na_PubKeySet na)));
           if isYggdrasil : bool then mret na
           else
             na ← refundBond ctx (tx_ID (le_Tx msg)) bondAddr 0 na;
             mret (UpdateStatus na NodeDisabled (BlockHeight ctx)));
    chain_obs (SetNodeAccount ctx (set_RequestedToLeave true na)).
Definition Leave_Run (ctx : Ctx) (msg : MsgLeave) : C () := _ ← Leave_validate msg; Leave_handle ctx msg.

(** ** Fees out of a bond *)

Definition DeductNativeTxFeeFromBond (ctx : Ctx) (nodeAddr : string) : C () :=
  fee ← chain_core (GetNativeTxFee ctx);
  if fee =? 0 then mret ()
  else
    na ← chain_obs (GetNodeAccount ctx nodeAddr);
    _ ← fail_when (na_Bond na <? fee) "not enound bond for fee";
    b ← lift (SafeSub (na_Bond na) fee);
    _ ← chain_obs (SetNodeAccount ctx (set_na_Bond b na));
    _ ← chain_core (SendFromModuleToModule BondName ReserveName [NewCoin SwitchNative fee]);
    chain_core (EmitEvent (EvBond fee BondCost (NodeAddress na) "" "")).

(** ** Accounts with a low bond *)

(** A payment whose failure is logged: what was paid. *)
Definition try_return (na : NodeAccount) (to : string) (amt : Z) : C Z :=
  sent ← attempt (chain_core (SendFromModuleToAccount BondName to [NewCoin SwitchNative amt]));
  match sent with
  | inl _ => _ ← chain_core (EmitEvent (EvBond amt BondReturned (NodeAddress na) to "")); mret amt
  | inr _ => mret 0
  end.
Fixpoint return_bonds (na : NodeAccount) (ps : list BondProvider) (totalSent : Z) : C Z :=
  match ps with
  | [] => mret totalSent
  | p :: r =>
      if (bp_Bond p =? 0) || BondProvider_IsEmpty p then return_bonds na r totalSent
      else
        amt ← try_return na (bp_BondAddress p) (bp_Bond p);
        t ← lift (uadd totalSent amt);
        return_bonds na r t
  end.
(** The bond of an account goes back to its providers, or to its operator. *)
Definition return_low_bond (na : NodeAccount) : C () :=
  if na_Bond na =? 0 then mret ()
  else
    bps ← GetBondProviders (NodeAddress na);
    to ← lift (AccAddressFromBech32 (BondAddress na));
    match Providers bps with
    | [] => _ ← try_return na to (na_Bond na); mret ()
    | _ =>
        bps ← lift (BP_Adjust bps (na_Bond na));
        totalSent ← return_bonds na (Providers bps) 0;
        _ ← fail_when (na_Bond na <? totalSent) "total bond returned greater than node bond";
        modify (λ s, put_bondProviders (delete (GetKey (NodeAddress na)) (bondProviders s)) s)
    end.
Definition low_bond (na : NodeAccount) : bool :=
  bool_decide (na_Type na = TypeValidator) && negb (bool_decide (na_Status na = NodeActive)) && (na_Bond na <=? One).

(** The accounts go after all bonds have been returned. *)
Definition RemoveLowBondValidatorAccounts : C () :=
  all ← gets (λ s, merge_sort key_le (map_to_list (chain_nodes s)));
  let low := List.filter (λ '(_, na), low_bond na) all in
  _ ← for_each (λ '(_, na), return_low_bond na) low;
  chain_obs (modify (λ o, put_nodeAccounts (foldr (λ '(k, _) m, delete k m) (nodeAccounts o) low) o)).
End Bonds.

(** ** Facts *)

Section BondFacts.
  Context `{CosmosMath} `{Bank} `{Env} `{!PubKeys} `{UpgradeKeeper} `{!Accounts}.

Definition user_switch (s : ChainState) (acc : string) : Z := bank_balance (bank (chain_state_core s)) (User_acc acc) "switch".

(** A payment out of a node's bond to one account; no other account is touched and
    the bond module keeps what it has beyond the bonds. *)
Record refunded (addr acc : string) (paid : Z) (s s' : ChainState) : Prop := {
  rf_ok : chain_nodes_ok s';
  rf_range : 0 ≤ paid ≤ stored_bond s addr;
  rf_bond : stored_bond s' addr = stored_bond s addr - paid;
  rf_others k : k ≠ GetKey addr → chain_nodes s' !! k = chain_nodes s !! k;
  rf_surplus : bond_surplus s' = bond_surplus s;
  rf_balance u : user_switch s' u = user_switch s u + if decide (u = acc) then paid else 0;
}.
Lemma refunded_nothing addr acc s : chain_nodes_ok s → refunded addr acc 0 s s.
Proof.
  intros Hok. split; [done| |lia|done|done|].
  - split; [lia|]. rewrite <- (account_at_bond (mkCtx 0 0 "")). by apply account_at_nonneg.
  - intros u. case_decide; lia.
Qed.

Lemma set_na_Bond_id na : set_na_Bond (na_Bond na) na = na.
Proof. by destruct na. Qed.
Lemma BP_Get_address bp acc : BondProvider_IsEmpty (BP_Get bp acc) = false → bp_BondAddress (BP_Get bp acc) = acc.
Proof.
  unfold BP_Get, BondProvider_IsEmpty. destruct (List.find (provider_is acc) (Providers bp)) as [p|] eqn:Hf; [|done].
  intros _. apply find_some in Hf as [_ Hp]. by apply bool_decide_eq_true in Hp.
Qed.

Lemma pay_provider_ok txID acc amt na bp s na1 bp1 s1 :
  pay_provider txID acc amt na bp s = (Ok (na1, bp1), s1) → amt ≤ na_Bond na → 0 ≤ na_Bond na →
  ∃ paid, 0 ≤ paid ≤ na_Bond na ∧ na1 = set_na_Bond (na_Bond na - paid) na ∧ chain_nodes s1 = chain_nodes s ∧
    bond_surplus s1 = bond_surplus s - paid ∧ ∀ u, user_switch s1 u = user_switch s u + if decide (u = acc) then paid else 0.
Proof.
  intros Hrun Hamt Hb. unfold pay_provider in Hrun. cbv zeta in Hrun.
  destruct (negb (BondProvider_IsEmpty (BP_Get bp acc)) && _) eqn:Hpay.
  - apply andb_prop in Hpay as [Hne%negb_true_iff _].
    set (amt' := if _ <? amt then _ else amt) in Hrun. assert (Hle : amt' ≤ amt) by (unfold amt'; destruct (Z.ltb_spec (bp_Bond (BP_Get bp acc)) amt); lia).
    clearbody amt'. run_step Hrun bp2 s2 E. apply lift_ok in E as [_ ->].
    run_step Hrun u s2 E. destruct u. apply bond_to_account_ok in E as (Hpos & Hn & _ & _ & Hs & Hbal).
    run_step Hrun u s3 E. apply chain_core_ok in E as (c & E & ->). apply modify_ok in E as ->.
    run_step Hrun b s4 E. apply lift_ok in E as [E ->]. apply SafeSub_inv in E; [|lia..]. apply ret_ok in Hrun as [[= -> ->] ->].
    exists amt'. split_and!; [lia|lia|f_equal; lia|done|done|]. intros who. rewrite BP_Get_address in Hbal by done. apply Hbal.
  - apply ret_ok in Hrun as [[= -> ->] ->]. exists 0. split_and!; [lia|lia|by rewrite Z.sub_0_r, set_na_Bond_id|done|lia|].
    intros who. case_decide; lia.
Qed.

Lemma reads_backfill na bp : only_reads (passiveBackfill na bp).
Proof. unfold passiveBackfill. reads. Qed.
Lemma reads_providers addr : only_reads (GetBondProviders addr).
Proof. done. Qed.
#[local] Hint Resolve reads_backfill reads_providers : reads.

Lemma UpdateStatus_same na st h :
  NodeAddress (UpdateStatus na st h) = NodeAddress na ∧ na_Bond (UpdateStatus na st h) = na_Bond na ∧
  BondAddress (UpdateStatus na st h) = BondAddress na.
Proof. unfold UpdateStatus. by case_bool_decide. Qed.
Lemma UpdateStatus_empty na h : NodeAccount_IsEmpty (UpdateStatus na NodeDisabled h) = true → NodeAccount_IsEmpty na = true.
Proof.
  unfold UpdateStatus. case_bool_decide; [done|]. unfold NodeAccount_IsEmpty. rewrite !orb_true_iff, !bool_decide_eq_true. cbn.
  intros [?|?]; [by left|done].
Qed.

Lemma refundBond_ok ctx txID acc amt addr s na1 s' :
  refundBond ctx txID acc amt (account_at ctx s addr) s = (Ok na1, s') → chain_nodes_ok s →
  ∃ paid, refunded addr acc paid s s' ∧ na_Bond na1 = stored_bond s' addr ∧ GetKey (NodeAddress na1) = GetKey addr ∧
    (NodeAccount_IsEmpty na1 = true → NodeAccount_IsEmpty (account_at ctx s addr) = true).
Proof.
  intros Hrun Hok. set (na := account_at ctx s addr) in *.
  pose proof (account_at_nonneg ctx s addr Hok) as Hb. fold na in Hb.
  pose proof (account_at_bond ctx s addr) as Hbond. fold na in Hbond.
  pose proof (account_at_key ctx s addr Hok) as Hkey. fold na in Hkey.
  unfold refundBond in Hrun. destruct (_ || _) in Hrun.
  { apply ret_ok in Hrun as [-> ->]. exists 0. split_and!; [by apply refunded_nothing|done|done|done]. }
  cbv zeta in Hrun. set (amt' := if _ || _ then _ else amt) in Hrun.
  assert (Hamt : amt' ≤ na_Bond na).
  { unfold amt'. destruct (amt =? 0); cbn; [lia|]. destruct (Z.ltb_spec (na_Bond na) amt); lia. }
  clearbody amt'. read_past Hrun bp0 E0. read_past Hrun bp1 E1. clear E0 E1. run_step Hrun bp2 s1 E. apply lift_ok in E as [_ ->].
  run_step Hrun r s1 E. destruct r as [na2 bp3]. apply pay_provider_ok in E as (paid & Hpaid & -> & Hn1 & Hs1 & Hbal1); [|done..].
  run_step Hrun u s2 E. destruct u. set (na3 := if RequestedToLeave _ then _ else _) in *.
  assert (Hna3 : NodeAddress na3 = NodeAddress na ∧ na_Bond na3 = na_Bond na - paid ∧
    (NodeAccount_IsEmpty na3 = true → NodeAccount_IsEmpty na = true)).
  { unfold na3. destruct (RequestedToLeave _); [|done].
    destruct (UpdateStatus_same (set_na_Bond (na_Bond na - paid) na) NodeDisabled (BlockHeight ctx)) as (-> & -> & _).
    split_and!; [done|done|]. by intros ?%UpdateStatus_empty. }
  clearbody na3. destruct Hna3 as (Ha3 & Hb3 & He3).
  assert (Hst1 : stored_bond s1 addr = stored_bond s addr) by (unfold stored_bond; by rewrite Hn1).
  assert (Hok1 : chain_nodes_ok s1) by (intros k m Hk; apply Hok; unfold chain_nodes in Hn1; by rewrite <- Hn1).
  apply (save_account_ok ctx addr) in E as [Hok2 Hcore2 _ Hbond2 Hoth2 Hsur2]; [|done|congruence|lia|].
  2: { intros He%He3. pose proof (account_stays_empty ctx s addr (na_Bond na) Hok) as Hz.
       fold na in Hz. rewrite set_na_Bond_id in Hz. specialize (Hz He). lia. }
  run_step Hrun u s3 E. apply modify_ok in E as ->. apply ret_ok in Hrun as [-> ->].
  exists paid. split_and!; [split|done|congruence|done].
  - exact Hok2.
  - by rewrite <- Hbond.
  - change (stored_bond s2 addr = stored_bond s addr - paid). lia.
  - intros k Hk. change (chain_nodes s2 !! k = chain_nodes s !! k). rewrite Hoth2 by done. by rewrite Hn1.
  - change (bond_surplus s2 = bond_surplus s). lia.
  - intros who. rewrite <- Hbal1. unfold user_switch. change (chain_state_core (put_bondProviders _ ?x)) with (chain_state_core x). by rewrite Hcore2.
Qed.

Lemma account_at_same ctx s s' addr : chain_nodes s' = chain_nodes s → account_at ctx s' addr = account_at ctx s addr.
Proof. unfold account_at. by intros ->. Qed.

Lemma refunded_same addr acc paid s s1 s2 :
  refunded addr acc paid s s1 → cs_vaults s2 = cs_vaults s1 → refunded addr acc paid s s2.
Proof.
  intros [H1' H2' H3' H4' H5' H6'] Heq. destruct s1, s2. cbn in Heq. subst. by split.
Qed.

Lemma reads_retiring ctx na : only_reads (in_retiring_vault ctx na).
Proof. unfold in_retiring_vault. reads. Qed.
Lemma reads_lockup ctx na : only_reads (lockup_over ctx na).
Proof. unfold lockup_over. reads. Qed.
Lemma reads_may_leave msg na : only_reads (may_leave msg na).
Proof. unfold may_leave. reads. Qed.
Lemma reads_Bond_validate ctx msg : only_reads (Bond_validate ctx msg).
Proof. unfold Bond_validate. repeat first [solve [eauto with reads]|reads_step|apply only_reads_chain_obs; done]. Qed.
#[local] Hint Resolve reads_retiring reads_lockup reads_may_leave reads_Bond_validate : reads.

Lemma drop_provider_vaults acc na s u s' : drop_provider acc na s = (Ok u, s') → cs_vaults s' = cs_vaults s.
Proof.
  intros Hrun. unfold drop_provider in Hrun. read_past Hrun a E. destruct (bool_decide _); [by apply ret_ok in Hrun as [_ ->]|].
  read_past Hrun bp Eb. cbv zeta in Hrun. destruct (_ && _); [|by apply ret_ok in Hrun as [_ ->]].
  destruct (BP_Remove bp acc) as [bp' []]; [by apply modify_ok in Hrun as ->|by apply ret_ok in Hrun as [_ ->]].
Qed.

Lemma no_coins cs a : Coins_IsEmpty cs = true → Coin_IsEmpty (GetCoin cs a) = true.
Proof.
  intros Hcs. unfold GetCoin. destruct (List.find _ cs) as [c|] eqn:Hf; [|done].
  apply find_some in Hf as [Hin _]. unfold Coins_IsEmpty in Hcs. rewrite forallb_forall in Hcs. by apply Hcs.
Qed.

(** C10: Unbonding pays a provider of a node that is not active, not about to be and
    has no key of a vault that retires: exactly what leaves the node's bond, and
    no more than it, reaches the provider's account, the bonds of the other nodes
    stay and so does what the bond module has beyond the bonds. *)
Theorem UnBond_Run_refunds ctx msg s s' :
  UnBond_Run ctx msg s = (Ok (), s') → chain_nodes_ok s →
  na_Status (account_at ctx s (ub_NodeAddress msg)) ≠ NodeActive ∧
  na_Status (account_at ctx s (ub_NodeAddress msg)) ≠ NodeReady ∧
  fst (in_retiring_vault ctx (account_at ctx s (ub_NodeAddress msg)) s) = Ok false ∧
  ∃ acc paid, refunded (ub_NodeAddress msg) acc paid s s' ∧
    (acc = ub_Provider msg ∧ Address_Equals (ub_BondAddress msg) (BondAddress (account_at ctx s (ub_NodeAddress msg))) = true ∨
     AccAddressFromBech32 (ub_BondAddress msg) = Ok acc).
Proof.
  intros Hrun Hok. unfold UnBond_Run in Hrun. run_step Hrun u s1 Ev. destruct u.
  assert (Hv : s1 = s ∧ Coins_IsEmpty (tx_Coins (ub_TxIn msg)) = true ∧
    na_Status (account_at ctx s (ub_NodeAddress msg)) ≠ NodeActive ∧ na_Status (account_at ctx s (ub_NodeAddress msg)) ≠ NodeReady).
  { unfold UnBond_validate in Ev. read_past Ev u Eu. pass_guard Ev. apply negb_false_iff in Hg.
    run_step Ev na s2 E. apply GetNodeAccount_chain in E as [-> ->]. pass_guard Ev. apply orb_false_iff in Hg0 as [Ha Hr].
    read_past Ev p Ep. pass_guard Ev. read_past Ev bp Eb. read_past Ev from Ef. apply fail_when_ok in Ev as [_ ->].
    apply bool_decide_eq_false in Ha, Hr. done. }
  destruct Hv as (-> & Hcoins & Hact & Hready). clear Ev. unfold UnBond_handle in Hrun.
  destruct (versionMajor ctx <? 3); [done|]. run_step Hrun na s2 E. apply GetNodeAccount_chain in E as [-> ->].
  read_past Hrun u El. clear El. read_past Hrun r Er. pass_guard Hrun. subst r. read_past Hrun from Ef.
  run_step Hrun na1 s2 E. rewrite no_coins in Hrun by done. apply ret_ok in Hrun as [_ ->].
  split_and!; [done|done|done|]. destruct (_ && negb _) eqn:Hown in E.
  - apply andb_prop in Hown as [Hown _]. run_step E na2 s3 E2. apply refundBond_ok in E2 as (paid & Href & _); [|done].
    run_step E u0 s4 E3. apply drop_provider_vaults in E3. apply ret_ok in E as [_ ->].
    exists (ub_Provider msg), paid. split; [by eapply refunded_same|by left].
  - apply refundBond_ok in E as (paid & Href & _); [|done]. exists from, paid. split; [done|by right].
Qed.

(** Saving the account again with the bond that is stored. *)
Lemma refunded_resave ctx addr acc paid na s s1 s2 :
  refunded addr acc paid s s1 → chain_obs (SetNodeAccount ctx na) s1 = (Ok (), s2) → na_Bond na = stored_bond s1 addr →
  GetKey (NodeAddress na) = GetKey addr → 0 ≤ na_Bond na → refunded addr acc paid s s2.
Proof.
  intros [Hok Hr Hb Ho Hs Hbal] Hrun Hbond Hkey Hnn.
  apply (save_account_ok ctx addr) in Hrun as [Hok2 Hcore2 _ Hbond2 Hoth2 Hsur2]; [|done|done|done|done].
  split; [done|done|lia| |lia|].
  - intros k Hk. rewrite Hoth2, Ho; done.
  - intros u. rewrite <- Hbal. unfold user_switch. by rewrite Hcore2.
Qed.

Lemma saved_flags ctx na s s' :
  chain_obs (SetNodeAccount ctx na) s = (Ok (), s') → NodeAccount_IsEmpty na = false →
  ∃ na', chain_nodes s' !! GetKey (NodeAddress na) = Some na' ∧ RequestedToLeave na' = RequestedToLeave na ∧ na_Status na' = na_Status na.
Proof.
  intros (o & Ho & ->)%chain_obs_ok He. unfold SetNodeAccount in Ho. rewrite He in Ho. cbv zeta in Ho.
  unfold ResetNodeAccountSlashPoints, modify, mbind, M_bind, mret, M_ret in Ho.
  destruct (bool_decide (na_Status na = NodeActive) && (ActiveBlockHeight na =? 0)); injection Ho as <-; eexists;
    (split; [apply lookup_insert_eq|done]).
Qed.

(** A request to leave, of the operator or, for an active node, of a provider with
    the least bond, is noted; an active node's bond stays, and of another node at
    most its bond goes to the operator's account, as with unbonding. *)
Theorem Leave_Run_refunds ctx msg s s' :
  Leave_Run ctx msg s = (Ok (), s') → chain_nodes_ok s →
  let na := account_at ctx s (le_NodeAddress msg) in
  (Address_Equals (BondAddress na) (FromAddress (le_Tx msg)) = true ∨ na_Status na = NodeActive) ∧
  (∃ na', chain_nodes s' !! GetKey (le_NodeAddress msg) = Some na' ∧ RequestedToLeave na' = true) ∧
  ∃ acc paid, AccAddressFromBech32 (BondAddress na) = Ok acc ∧ refunded (le_NodeAddress msg) acc paid s s' ∧
    (na_Status na = NodeActive → paid = 0).
Proof.
  intros Hrun Hok. cbn zeta. unfold Leave_Run in Hrun. run_step Hrun u s1 Ev. destruct u.
  unfold Leave_validate in Ev. read_past Ev u Eu. apply fail_when_ok in Ev as [Hcoins%negb_false_iff ->]. clear u Eu.
  unfold Leave_handle in Hrun. destruct (versionMajor ctx <? 3); [done|].
  run_step Hrun na s2 E. apply GetNodeAccount_chain in E as [-> ->]. set (addr := le_NodeAddress msg) in *.
  set (na := account_at ctx s addr) in *. pass_guard Hrun.
  pose proof (account_at_nonneg ctx s addr Hok) as Hb. pose proof (account_at_bond ctx s addr) as Hbond.
  pose proof (account_at_key ctx s addr Hok) as Hkey. fold na in Hb, Hbond, Hkey.
  read_past Hrun u Em. rewrite no_coins in Hrun by done.
  run_step Hrun b s2 E. apply lift_ok in E as [[= <-] ->]. cbv zeta in Hrun. rewrite set_na_Bond_id in Hrun.
  read_past Hrun acc Ea. cbn [fst lift] in Ea. run_step Hrun na1 s2 E.
  assert (Hna1 : ∃ paid, refunded addr acc paid s s2 ∧ na_Bond na1 = stored_bond s2 addr ∧ GetKey (NodeAddress na1) = GetKey addr ∧
    NodeAccount_IsEmpty na1 = false ∧ (na_Status na = NodeActive → paid = 0)).
  { case_bool_decide as Hst.
    - assert (Hls : s2 = s ∧ na_Bond na1 = na_Bond na ∧ NodeAddress na1 = NodeAddress na ∧ NodeAccount_IsEmpty na1 = false).
      { unfold leave_score in E. destruct (negb _); [by apply ret_ok in E as [-> ->]|]. read_past E pts Ep. by apply ret_ok in E as [-> ->]. }
      destruct Hls as (-> & Hb1 & Ha1 & He1). exists 0. split_and!; [by apply refunded_nothing|congruence|congruence|done|done].
    - read_past E l El. read_past E r Er.
      assert (Hstay : na1 = na → s2 = s → ∃ paid, refunded addr acc paid s s2 ∧ na_Bond na1 = stored_bond s2 addr ∧
        GetKey (NodeAddress na1) = GetKey addr ∧ NodeAccount_IsEmpty na1 = false ∧ (na_Status na = NodeActive → paid = 0)).
      { intros -> ->. exists 0. split_and!; [by apply refunded_nothing|done|done|done|done]. }
      destruct r; [apply ret_ok in E as [-> ->]; by apply Hstay|].
      read_past E y Ey. destruct y; [apply ret_ok in E as [-> ->]; by apply Hstay|].
      run_step E na2 s3 E2. apply ret_ok in E as [-> ->]. apply refundBond_ok in E2 as (paid & Href & Hb2 & Ha2 & He2); [|done].
      destruct (UpdateStatus_same na2 NodeDisabled (BlockHeight ctx)) as (Hu1 & Hu2 & _).
      exists paid. split_and!; [done|congruence|congruence| |done].
      apply not_true_iff_false. intros Hx%UpdateStatus_empty%He2. fold na in Hx. congruence. }
  destruct Hna1 as (paid & Href & Hb1 & Ha1 & He1 & Hact). split_and!.
  - unfold may_leave in Em. destruct (Address_Equals _ _) eqn:Hop; [by left|right].
    unfold mbind, M_bind, fail_when, lift, fail_if in Em. case_bool_decide; [done|]. cbn in Em. done.
  - apply saved_flags in Hrun as (na' & Hl & Hf & _); [|done]. exists na'. split; [|done]. by rewrite <- Ha1.
  - exists acc, paid. split_and!; [done| |done]. eapply refunded_resave; [exact Href|exact Hrun|exact Hb1|exact Ha1|].
    cbn. rewrite Hb1, (rf_bond _ _ _ _ _ Href). pose proof (rf_range _ _ _ _ _ Href). lia.
Qed.

Lemma open_account_ok txID addr na bond s na1 bond1 s1 :
  open_account txID addr na bond s = (Ok (na1, bond1), s1) → 0 ≤ na_Bond na →
  chain_nodes s1 = chain_nodes s ∧ NodeAddress na1 = NodeAddress na ∧
  ∃ cost, (cost = 0 ∨ cost = One) ∧ na_Bond na1 = na_Bond na - cost ∧ 0 ≤ na_Bond na1 ∧
    (na_Status na1 = na_Status na ∧ bond_surplus s1 = bond_surplus s - cost ∨
     na_Status na1 = NodeUnknown ∧ cost = One ∧ bond_surplus s1 = bond_surplus s).
Proof.
  intros Hrun Hb. unfold open_account in Hrun. run_step Hrun known s2 E. apply gets_ok in E as [-> ->].
  destruct (negb _ && _) eqn:Hopen.
  2: { apply ret_ok in Hrun as [[= -> ->] ->]. split_and!; [done|done|]. exists 0. split_and!; [by left|lia|done|left]. split; [done|lia]. }
  apply andb_prop in Hopen as [_ Hone%Z.leb_le].
  run_step Hrun sent s2 E. cbv zeta in Hrun. remember (match sent with inl _ => na | inr _ => set_status NodeUnknown (StatusSince na) (ActiveBlockHeight na) na end) as na2 eqn:Hdef.
  run_step Hrun b s3 Eb. apply lift_ok in Eb as [Eb ->]. run_step Hrun bond2 s3 Ec. apply lift_ok in Ec as [_ ->].
  run_step Hrun u s3 Eu. apply chain_core_ok in Eu as (c & Eu & ->). apply modify_ok in Eu as ->. apply ret_ok in Hrun as [[= -> ->] ->].
  assert (Hna2 : na_Bond na2 = na_Bond na ∧ NodeAddress na2 = NodeAddress na) by (rewrite Hdef; by destruct sent).
  destruct Hna2 as [Hb2 Ha2]. rewrite Hb2 in Eb. apply SafeSub_inv in Eb; [|done|done].
  assert (Hs2 : chain_nodes s2 = chain_nodes s ∧ (na_Status na2 = na_Status na ∧ bond_surplus s2 = bond_surplus s - One ∨
    na_Status na2 = NodeUnknown ∧ bond_surplus s2 = bond_surplus s)).
  { unfold attempt in E. rewrite Hdef. clear Hdef. destruct (chain_core _ s) as [[[]|e|] s4] eqn:Hsend; [inversion E; subst|inversion E; subst|done]; cbn.
    - apply bond_to_account_ok in Hsend as (_ & Hn & _ & _ & Hs & _). split; [done|by left].
    - apply bond_to_account_fails in Hsend as ->. split; [done|by right]. }
  destruct Hs2 as [Hn2 Hs2]. split_and!; [exact Hn2|done|]. exists One. split_and!; [by right|cbn; lia|cbn; lia|].
  destruct Hs2 as [[Hst Hs]|[Hst Hs]]; [left|right]; split_and!; done.
Qed.

Lemma reads_add_provider msg na bp : only_reads (add_provider msg na bp).
Proof. unfold add_provider. reads. Qed.
#[local] Hint Resolve reads_add_provider : reads.

Lemma bonding_account_ok ctx msg s :
  chain_nodes_ok s → bo_NodeAddress msg ≠ "" →
  let na := bonding_account ctx msg (account_at ctx s (bo_NodeAddress msg)) in
  GetKey (NodeAddress na) = GetKey (bo_NodeAddress msg) ∧ na_Bond na = stored_bond s (bo_NodeAddress msg) ∧
  0 ≤ na_Bond na ∧ NodeAddress na ≠ "" ∧ na_Status na ≠ NodeUnknown.
Proof.
  intros Hok Hne. cbn zeta. set (addr := bo_NodeAddress msg) in *.
  pose proof (account_at_nonneg ctx s addr Hok) as Hb. pose proof (account_at_bond ctx s addr) as Hbond.
  pose proof (account_at_key ctx s addr Hok) as Hkey. unfold bonding_account. case_bool_decide as Hst; cbn.
  - assert (Hz : stored_bond s addr = 0).
    { apply (account_stays_empty ctx s addr (na_Bond (account_at ctx s addr)) Hok). rewrite set_na_Bond_id.
      unfold NodeAccount_IsEmpty. rewrite Hst. by rewrite orb_true_r. }
    rewrite Hz. by split_and!.
  - split_and!; [done|done|done| |done]. intros He. unfold account_at in *.
    destruct (chain_nodes s !! GetKey addr) as [na|] eqn:Hs; cbn in *; [|done].
    apply Hok in Hs as (_ & Hem & _). unfold NodeAccount_IsEmpty in Hem. rewrite He in Hem. done.
Qed.

(** C11: A bond that is accepted, of coins that the bond module has already, goes to the
    node's account and to no other, less one SWITCH when that opens the account of
    the address; only when that one cannot be sent is nothing credited. *)
Theorem Bond_Run_credits ctx msg s s' :
  Bond_Run ctx msg s = (Ok (), s') → chain_nodes_ok s → 0 ≤ bo_Bond msg →
  chain_nodes_ok s' ∧ (∀ k, k ≠ GetKey (bo_NodeAddress msg) → chain_nodes s' !! k = chain_nodes s !! k) ∧
  ∃ cost, (cost = 0 ∨ cost = One) ∧
    (stored_bond s' (bo_NodeAddress msg) = stored_bond s (bo_NodeAddress msg) + bo_Bond msg - cost ∧
     bond_surplus s' = bond_surplus s - bo_Bond msg ∨
     cost = One ∧ chain_nodes s' = chain_nodes s ∧ bond_surplus s' = bond_surplus s).
Proof.
  intros Hrun Hok Hmsg. unfold Bond_Run in Hrun. run_step Hrun u s1 Ev. destruct u.
  assert (Hv : s1 = s ∧ bo_NodeAddress msg ≠ "").
  { pose proof (reads_Bond_validate ctx msg s) as Hr. rewrite Ev in Hr. cbn in Hr. split; [done|]. subst s1.
    unfold Bond_validate in Ev. destruct (versionMajor ctx <? 3); [done|]. read_past Ev u Eu. unfold check, Bond_ValidateBasic in Eu.
    case_bool_decide; done. }
  destruct Hv as [-> Hne]. clear Ev. unfold Bond_handle in Hrun. destruct (versionMajor ctx <? 3); [done|].
  run_step Hrun na0 s1 E. apply GetNodeAccount_chain in E as [-> ->]. cbv zeta in Hrun.
  destruct (bonding_account_ok ctx msg s Hok Hne) as (Hkey & Hbond & Hb & Hnon & Hst).
  set (na := bonding_account _ _ _) in *. clearbody na. set (addr := bo_NodeAddress msg) in *.
  read_past Hrun bp0 E0. read_past Hrun bp1 E1. read_past Hrun bp2 E2. run_step Hrun b s1 E. apply lift_ok in E as [Eb ->].
  apply uadd_inv in Eb as [-> _].
  run_step Hrun r s1 E. destruct r as [na1 bond1]. apply open_account_ok in E as (Hn1 & Ha1 & cost & Hcost & Hb1 & Hnn1 & Hs1); [|cbn; lia].
  cbn in Ha1, Hb1. read_past Hrun bp3 E3. read_past Hrun from E4. read_past Hrun bp4 E5.
  run_step Hrun u s2 E. destruct u. run_step Hrun u s3 E6. apply modify_ok in E6 as ->.
  apply chain_core_ok in Hrun as (c & E6 & ->). apply modify_ok in E6 as ->.
  assert (Hok1 : chain_nodes_ok s1) by (intros k m Hk; apply Hok; unfold chain_nodes in Hn1; by rewrite <- Hn1).
  assert (Hst1 : stored_bond s1 addr = stored_bond s addr) by (unfold stored_bond; by rewrite Hn1).
  destruct Hs1 as [[Hsame Hs1]|(Hun & -> & Hs1)].
  - cbn in Hsame. apply (save_account_ok ctx addr) in E as [Hok2 Hcore2 _ Hbond2 Hoth2 Hsur2]; [|done|congruence|..].
    + split_and!; [exact Hok2|intros k Hk; rewrite <- Hn1; by apply Hoth2|]. exists cost. split; [done|]. left.
      change (stored_bond s2 addr = stored_bond s addr + bo_Bond msg - cost ∧ bond_surplus s2 = bond_surplus s - bo_Bond msg). lia.
    + done.
    + intros He. unfold NodeAccount_IsEmpty in He. apply orb_true_iff in He as [He|He]; apply bool_decide_eq_true in He; congruence.
  - apply save_empty in E as ->; [|unfold NodeAccount_IsEmpty; rewrite Hun; by rewrite orb_true_r].
    assert (Hn2 : chain_nodes s1 = chain_nodes s) by done.
    split_and!; [|intros k Hk; by rewrite <- Hn2|].
    + intros k m Hk. apply Hok. unfold chain_nodes in Hn2. rewrite <- Hn2. exact Hk.
    + exists One. split; [by right|]. right. split_and!; [done|exact Hn2|exact Hs1].
Qed.

(** The fee of a node's transaction is taken from a bond that covers it. *)
Lemma DeductNativeTxFeeFromBond_ok ctx addr s s' :
  DeductNativeTxFeeFromBond ctx addr s = (Ok (), s') → chain_nodes_ok s →
  ∃ fee, fst (GetNativeTxFee ctx (chain_state_core s)) = Ok fee ∧
    (fee = 0 ∧ s' = s ∨ 0 < fee ≤ stored_bond s addr ∧ stored_bond s' addr = stored_bond s addr - fee) ∧
    chain_nodes_ok s' ∧ bond_surplus s' = bond_surplus s.
Proof.
  intros Hrun Hok. unfold DeductNativeTxFeeFromBond in Hrun. read_past Hrun fee Ef. rewrite chain_reads_fst in Ef. exists fee.
  split; [done|]. destruct (Z.eqb_spec fee 0) as [->|Hne]; [apply ret_ok in Hrun as [_ ->]; split_and!; [by left|done|done]|].
  run_step Hrun na s1 E. apply GetNodeAccount_chain in E as [-> ->]. pass_guard Hrun. apply Z.ltb_ge in Hg.
  run_step Hrun b s1 E. apply lift_ok in E as [Eb ->]. run_step Hrun u s1 E. destruct u. run_step Hrun u s2 E2. destruct u.
  apply chain_core_ok in Hrun as (c & E3 & ->). apply modify_ok in E3 as ->.
  apply bond_to_module_ok in E2 as (Hpos & Hn2 & _ & Hs2); [|done]. pose proof (account_at_nonneg ctx s addr Hok) as Hb.
  apply SafeSub_inv in Eb; [|lia..]. rewrite account_at_bond in *.
  apply set_bond_ok in E as [Hok1 _ _ Hb1 _ Hs1]; [|done|lia|lia].
  split_and!; [right|intros k m Hk; apply Hok1; unfold chain_nodes in Hn2; by rewrite <- Hn2|].
  - split; [lia|]. change (stored_bond s2 addr = stored_bond s addr - fee). unfold stored_bond at 1. rewrite Hn2. fold (stored_bond s1 addr). lia.
  - change (bond_surplus s2 = bond_surplus s). lia.
Qed.

(** ** The sweep of low bonds *)

(** The nodes as they were, and less in the bond module by what was paid. *)
Definition paid_out (paid : Z) (s s' : ChainState) : Prop :=
  chain_nodes s' = chain_nodes s ∧ bond_surplus s' = bond_surplus s - paid ∧ 0 ≤ paid.
Lemma paid_nothing s : paid_out 0 s s.
Proof. split_and!; [done|lia|lia]. Qed.
Lemma paid_trans a b s1 s2 s3 : paid_out a s1 s2 → paid_out b s2 s3 → paid_out (a + b) s1 s3.
Proof. intros (Hn & Hs & ?) (Hn' & Hs' & ?). split_and!; [congruence|lia|lia]. Qed.

Lemma try_return_paid na to amt s :
  match try_return na to amt s with
  | (Ok paid, s') => paid_out paid s s'
  | (Err _, s') => False
  | (Panic, _) => True
  end.
Proof.
  unfold try_return, attempt, mbind, M_bind. destruct (chain_core _ s) as [[[]|e|] s1] eqn:Hsend; [| |done].
  - apply bond_to_account_ok in Hsend as (Hpos & Hn & _ & _ & Hs & _). split_and!; [exact Hn|exact Hs|lia].
  - apply bond_to_account_fails in Hsend as ->. apply paid_nothing.
Qed.

Lemma try_return_at_most na to amt s paid s' : try_return na to amt s = (Ok paid, s') → 0 ≤ amt → paid ≤ amt.
Proof.
  intros Hrun Hamt. unfold try_return in Hrun. run_step Hrun r s1 E. destruct r.
  - run_step Hrun w s2 E2. apply ret_ok in Hrun as [-> _]. lia.
  - apply ret_ok in Hrun as [-> _]. lia.
Qed.

Lemma return_bonds_paid na ps t s :
  match return_bonds na ps t s with
  | (Ok t', s') => paid_out (t' - t) s s'
  | (Err _, s') => ∃ paid, paid_out paid s s'
  | (Panic, _) => True
  end.
Proof.
  revert t s. induction ps as [|p ps IH]; intros t s; cbn [return_bonds].
  { unfold mret, M_ret. rewrite Z.sub_diag. apply paid_nothing. }
  destruct (_ || _); [apply IH|]. unfold mbind, M_bind. pose proof (try_return_paid na (bp_BondAddress p) (bp_Bond p) s) as Ht.
  destruct (try_return _ _ _ s) as [[amt|e|] s1]; [|done|done].
  unfold lift. destruct (uadd t amt) as [t1|e|] eqn:Ha; [|by apply uadd_no_err in Ha|done]. apply uadd_inv in Ha as [-> _].
  specialize (IH (t + amt) s1). destruct (return_bonds na ps (t + amt) s1) as [[t2|e|] s2]; [|destruct IH as [paid IH]|done].
  - replace (t2 - t) with (amt + (t2 - (t + amt))) by lia. by eapply paid_trans.
  - exists (amt + paid). by eapply paid_trans.
Qed.

(** A bond is returned in at most its amount, or the call fails after payments. *)
Lemma return_low_bond_paid na s :
  0 ≤ na_Bond na →
  match return_low_bond na s with
  | (Ok _, s') => ∃ paid, paid_out paid s s' ∧ paid ≤ na_Bond na
  | (Err _, s') => ∃ paid, paid_out paid s s'
  | (Panic, _) => True
  end.
Proof.
  intros Hb. unfold return_low_bond. destruct (Z.eqb_spec (na_Bond na) 0); [exists 0; split; [apply paid_nothing|lia]|].
  unfold GetBondProviders, mbind, M_bind, lift, gets. destruct (AccAddressFromBech32 _) as [to|e|]; [|exists 0; apply paid_nothing|done].
  set (bps := default (NewBondProviders (NodeAddress na)) (bondProviders s !! GetKey (NodeAddress na))). destruct (Providers bps) as [|p0 ps0].
  - pose proof (try_return_paid na to (na_Bond na) s) as Ht.
    destruct (try_return na to (na_Bond na) s) as [[paid|e|] s1] eqn:Hr; [|by destruct Ht|done]. exists paid. split; [done|].
    by eapply try_return_at_most.
  - destruct (BP_Adjust bps (na_Bond na)) as [bps1|e|]; [|exists 0; apply paid_nothing|done].
    pose proof (return_bonds_paid na (Providers bps1) 0 s) as Hr. destruct (return_bonds _ _ _ s) as [[t|e|] s1]; [|done|done].
    rewrite Z.sub_0_r in Hr. unfold fail_when, lift, fail_if. destruct (Z.ltb_spec (na_Bond na) t); [by exists t|].
    exists t. split; [exact Hr|done].
Qed.

Definition returned (l : list (string * NodeAccount)) : Z := sumZ ((λ '(_, na), na_Bond na) <$> l).

Lemma return_all_paid l s :
  Forall (λ '(_, na), 0 ≤ na_Bond na) l →
  match for_each (λ '(_, na), return_low_bond na) l s with
  | (Ok _, s') => ∃ paid, paid_out paid s s' ∧ paid ≤ returned l
  | (Err _, s') => ∃ paid, paid_out paid s s'
  | (Panic, _) => True
  end.
Proof.
  intros Hl. revert s. induction Hl as [|[k na] l Hna Hl IH]; intros s; cbn [for_each].
  { exists 0. split; [apply paid_nothing|done]. }
  unfold mbind, M_bind. pose proof (return_low_bond_paid na s Hna) as Hr.
  destruct (return_low_bond na s) as [[u|e|] s1]; [|done|done]. destruct Hr as (paid & Hp & Hle).
  specialize (IH s1). destruct (for_each _ l s1) as [[u2|e|] s2]; [destruct IH as (paid2 & Hp2 & Hle2)|destruct IH as (paid2 & Hp2)|done].
  - exists (paid + paid2). split; [by eapply paid_trans|]. unfold returned in *. cbn [fmap list_fmap sumZ foldr] in *. unfold sumZ in Hle2. cbn. lia.
  - exists (paid + paid2). by eapply paid_trans.
Qed.

Definition without_keys (l : list (string * NodeAccount)) (m : gmap string NodeAccount) : gmap string NodeAccount :=
  foldr (λ '(k, _) m, delete k m) m l.
Lemma without_keys_lookup l m k : without_keys l m !! k = if decide (k ∈ fst <$> l) then None else m !! k.
Proof.
  unfold without_keys. induction l as [|[k' na] l IH]; cbn; [done|]. destruct (decide (k = k')) as [->|Hne].
  - rewrite lookup_delete_eq, decide_True; [done|]. apply list_elem_of_here.
  - rewrite lookup_delete_ne by done. rewrite IH. apply decide_ext. rewrite elem_of_cons. naive_solver.
Qed.
Lemma without_keys_sum l m :
  base.NoDup (fst <$> l) → (∀ k na, (k, na) ∈ l → m !! k = Some na) →
  map_sum na_Bond (without_keys l m) = map_sum na_Bond m - returned l.
Proof.
  induction l as [|[k na] l IH]; intros Hd Hin; [cbn; lia|]. cbn in Hd. apply list.NoDup_cons in Hd as [Hk Hd].
  specialize (IH Hd ltac:(intros k' na' Hl; apply Hin; by apply list_elem_of_further)).
  assert (Hl : without_keys l m !! k = Some na).
  { rewrite without_keys_lookup, decide_False by done. apply Hin, list_elem_of_here. }
  pose proof (map_sum_delete na_Bond (without_keys l m) k na Hl) as Hs.
  change (without_keys ((k, na) :: l) m) with (delete k (without_keys l m)).
  unfold returned in *. cbn. unfold sumZ in IH. lia.
Qed.

(** The accounts with a low bond of a store, as the sweep meets them. *)
Definition low_accounts (s : ChainState) : list (string * NodeAccount) :=
  List.filter (λ '(_, na), low_bond na) (merge_sort key_le (map_to_list (chain_nodes s))).
Lemma low_accounts_elem s k na : (k, na) ∈ low_accounts s ↔ chain_nodes s !! k = Some na ∧ low_bond na = true.
Proof.
  unfold low_accounts. rewrite list_elem_of_In, filter_In, <- list_elem_of_In, (merge_sort_Permutation key_le), elem_of_map_to_list. done.
Qed.
Lemma distinct_filter {A B} (f : A * B → bool) (l : list (A * B)) : base.NoDup (fst <$> l) → base.NoDup (fst <$> List.filter f l).
Proof.
  induction l as [|x l IH]; cbn; [done|]. intros [Hx Hl]%list.NoDup_cons. destruct (f x); [|by apply IH].
  cbn. apply base.NoDup_cons_2; [|by apply IH]. intros Hin. apply Hx.
  apply list_elem_of_fmap in Hin as (y & -> & Hy). apply list_elem_of_fmap. exists y. split; [done|].
  apply list_elem_of_In, filter_In in Hy as [Hy _]. by apply list_elem_of_In.
Qed.
Lemma low_accounts_distinct s : base.NoDup (fst <$> low_accounts s).
Proof.
  unfold low_accounts. apply distinct_filter. rewrite (merge_sort_Permutation key_le). apply NoDup_fst_map_to_list.
Qed.

(** C39: A sweep that succeeds removes exactly the accounts that are not active and have
    at most one SWITCH bonded, and pays no more than their bonds.  A sweep that
    fails has removed none of them, although it may have paid some: the accounts
    are paid again by the next one. *)
Theorem low_bond_sweep s :
  chain_nodes_ok s →
  match RemoveLowBondValidatorAccounts s with
  | (Ok _, s') =>
      bond_surplus s ≤ bond_surplus s' ∧
      ∀ k, chain_nodes s' !! k = match chain_nodes s !! k with
                                 | Some na => if low_bond na then None else Some na
                                 | None => None
                                 end
  | (Err _, s') => chain_nodes s' = chain_nodes s ∧ bond_surplus s' ≤ bond_surplus s
  | (Panic, _) => True
  end.
Proof.
  intros Hok. unfold RemoveLowBondValidatorAccounts. unfold mbind at 1, M_bind at 1, gets at 1. cbv zeta.
  fold (low_accounts s). unfold mbind, M_bind.
  assert (Hnn : Forall (λ '(_, na), 0 ≤ na_Bond na) (low_accounts s)).
  { apply list.Forall_forall. intros [k na] Hin. apply low_accounts_elem in Hin as [Hl _]. by apply Hok in Hl as (_ & _ & ?). }
  pose proof (return_all_paid (low_accounts s) s Hnn) as Hp.
  destruct (for_each _ (low_accounts s) s) as [[u|e|] s1]; [destruct Hp as (paid & (Hn & Hs & Hpos) & Hle)|destruct Hp as (paid & Hn & Hs & Hpos)|done].
  2: { split; [done|lia]. }
  match goal with |- context [chain_obs ?m s1] => assert (E : fst (chain_obs m s1) = Ok ()) by done; apply run_pair in E;
    set (s2 := snd (chain_obs m s1)) in E; rewrite E end.
  assert (Hn2 : chain_nodes s2 = without_keys (low_accounts s) (chain_nodes s)) by (rewrite <- Hn; done).
  assert (Hb2 : in_bond (cs_vaults s2) = in_bond (cs_vaults s1)) by done. clearbody s2. clear E. split.
  - unfold bond_surplus, bonded in *. change (the_nodes (cs_vaults ?x)) with (chain_nodes x) in *. rewrite Hn2, Hb2, without_keys_sum.
    + rewrite Hn in Hs. lia.
    + apply low_accounts_distinct.
    + intros k na Hin. by apply low_accounts_elem in Hin as [? _].
  - intros k. rewrite Hn2, without_keys_lookup. destruct (chain_nodes s !! k) as [na|] eqn:Hk; [|by case_decide].
    case_decide as Hin.
    + apply list_elem_of_fmap in Hin as ([k' na'] & -> & Hin). apply low_accounts_elem in Hin as [Hl Hlow]. cbn in Hk.
      rewrite Hk in Hl. injection Hl as <-. by rewrite Hlow.
    + destruct (low_bond na) eqn:Hlow; [|done]. destruct Hin. apply list_elem_of_fmap. exists (k, na). split; [done|].
      by apply low_accounts_elem.
Qed.
End BondFacts.

(** ** Witnesses *)

#[local] Existing Instance plain_keys.
#[local] Existing Instance ledger_accounts.

Definition bond_ctx : Ctx := mkCtx 1000000 3 "".
Definition standby_node (addr op : string) (bond : Z) : NodeAccount :=
  NewNodeAccount addr NodeStandby (mkPubKeySet addr "") "" bond op 1.
(** A store with some nodes, their providers and coins in the bond module. *)
Definition bonds_chain (nas : list NodeAccount) (bps : gmap string BondProviders) (coins : Z) : ChainState (H0 := one_plan) :=
  let s := no_vaults in
  put_bondProviders bps (only_vaults (put_queue (mkQueueState
    (put_nodeAccounts (list_to_map ((λ na, (GetKey (NodeAddress na), na)) <$> nas))
      (put_core (put_bank (BankRef.mkLedger {[(Module_acc BondName, "switch") := coins]} {["switch" := coins]}) empty_state)
        (q_obs (vs_queue s)))) ∅ ∅ ∅) s)).
Lemma bonds_chain_ok nas bps coins :
  Forall (λ na, NodeAccount_IsEmpty na = false ∧ 0 ≤ na_Bond na) nas → chain_nodes_ok (bonds_chain nas bps coins).
Proof.
  intros Hnas k na Hk. apply elem_of_list_to_map_2 in Hk. apply list_elem_of_fmap in Hk as (m & [= -> ->] & Hm).
  rewrite list.Forall_forall in Hnas. apply Hnas in Hm as [? ?]. done.
Qed.

(** Frank's operator bonds 100 SWITCH for a node that is not known yet. *)
Definition bond_tx : Tx := mkTx "AA" SWITCHLYChain "frankop" "bond" [NewCoin SwitchNative (100 * One)] [] "".
Definition frank_bonds : MsgBond := mkMsgBond bond_tx "frank" (100 * One) "frankop" "" "frankop" (-1).
Definition one_node : ChainState (H0 := one_plan) := bonds_chain [standby_node "gina" "gina" (50 * One)] ∅ (150 * One).
Lemma one_node_ok : chain_nodes_ok one_node.
Proof. apply bonds_chain_ok. repeat constructor; vm_compute; congruence. Qed.

Lemma Bond_Run_credits_witness :
  let s' := snd (Bond_Run bond_ctx frank_bonds one_node) in
  stored_bond s' "frank" = 99 * One ∧ chain_nodes s' !! "GINA" = chain_nodes one_node !! "GINA" ∧ bond_surplus s' = 0.
Proof.
  cbn zeta. assert (fst (Bond_Run bond_ctx frank_bonds one_node) = Ok ()) as H by (vm_compute; reflexivity).
  destruct (Bond_Run_credits bond_ctx frank_bonds one_node (snd (Bond_Run bond_ctx frank_bonds one_node)) (run_pair _ _ H)
    one_node_ok ltac:(vm_compute; congruence)) as (_ & Hoth & _).
  split_and!; [vm_compute; reflexivity|apply Hoth; vm_compute; congruence|vm_compute; reflexivity].
Defined.

(** Gina takes 20 SWITCH out. *)
Definition unbond_tx : Tx := mkTx "BB" SWITCHLYChain "gina" "bond" [] [] "".
Definition gina_unbonds : MsgUnBond := mkMsgUnBond unbond_tx "gina" (20 * One) "gina" "" "gina".
Lemma UnBond_Run_refunds_witness :
  let s' := snd (UnBond_Run bond_ctx gina_unbonds one_node) in
  stored_bond s' "gina" = 30 * One ∧ user_switch s' "gina" = 20 * One ∧ bond_surplus s' = bond_surplus one_node.
Proof.
  cbn zeta. assert (fst (UnBond_Run bond_ctx gina_unbonds one_node) = Ok ()) as H by (vm_compute; reflexivity).
  destruct (UnBond_Run_refunds bond_ctx gina_unbonds one_node (snd (UnBond_Run bond_ctx gina_unbonds one_node)) (run_pair _ _ H)
    one_node_ok) as (_ & _ & _ & acc & paid & [_ _ _ _ Hs _] & _).
  split_and!; [vm_compute; reflexivity|vm_compute; reflexivity|exact Hs].
Defined.

Lemma Leave_Run_refunds_witness :
  let s' := snd (Leave_Run bond_ctx (mkMsgLeave unbond_tx "gina" "gina") one_node) in
  stored_bond s' "gina" = 0 ∧ user_switch s' "gina" = 50 * One ∧
  ∃ na, chain_nodes s' !! "GINA" = Some na ∧ RequestedToLeave na = true.
Proof.
  cbn zeta. assert (fst (Leave_Run bond_ctx (mkMsgLeave unbond_tx "gina" "gina") one_node) = Ok ()) as H by (vm_compute; reflexivity).
  destruct (Leave_Run_refunds bond_ctx (mkMsgLeave unbond_tx "gina" "gina") one_node
    (snd (Leave_Run bond_ctx (mkMsgLeave unbond_tx "gina" "gina") one_node)) (run_pair _ _ H) one_node_ok) as (_ & Hl & _).
  split_and!; [vm_compute; reflexivity|vm_compute; reflexivity|exact Hl].
Defined.

(** The parts of five providers round up to more than the bond of 13: the sweep
    fails, and pays them, and Gina with her last half SWITCH, every time. *)
Definition low_nodes : ChainState (H0 := one_plan) :=
  bonds_chain [standby_node "gina" "gina" (One / 2); standby_node "node" "op" 13] {["NODE" := small_providers]} (5 * One).
Lemma low_bond_sweep_witness :
  let s1 := snd (RemoveLowBondValidatorAccounts low_nodes) in
  let s2 := snd (RemoveLowBondValidatorAccounts s1) in
  chain_nodes s1 = chain_nodes low_nodes ∧ in_bond (cs_vaults s2) = 5 * One - 2 * (One / 2 + 15) ∧ user_switch s2 "gina" = One.
Proof.
  cbn zeta. split; [|split; vm_compute; reflexivity].
  assert (chain_nodes_ok low_nodes) as Hok by (apply bonds_chain_ok; repeat constructor; vm_compute; congruence).
  pose proof (low_bond_sweep low_nodes Hok) as Hs.
  assert (fst (RemoveLowBondValidatorAccounts low_nodes) = Err "total bond returned greater than node bond") as H by (vm_compute; reflexivity).
  destruct (RemoveLowBondValidatorAccounts low_nodes) as [r s']. cbn [fst snd] in *. subst r. apply Hs.
Defined.
