(* ===== verification/Mimirs.v ===== *)
(** * Votes of the nodes on mimirs

    src/x/switchly/types/type_mimir.go, keeper/v1/keeper_mimir.go,
    handler_mimir.go and handler_node_pause_chain.go: the votes are counted in a
    Go map, whose iteration has no order; the order is the class
    [MapIteration]. *)

From Stdlib Require Import Ascii.
From stdpp Require Import pretty.
From S2P Require Import Prelude Runs GoStrings CosmosMath Amounts Assets Coins Constants State Txs Halts Fees Nodes Quorum ObservedTx Attest SwapHandler Vaults Gas Layers Slasher ChainState.
Open Scope Z_scope.

(** ** Votes *)

(** [for value, count := range counter]: the entries, in an order that the
    language does not say. *)
Class MapIteration := {
  iterate : gmap Z Z → list (Z * Z);
  iterate_perm m : iterate m ≡ₚ map_to_list m;
}.

Definition vote_is (key acc : string) (mim : NodeMimir) : bool :=
  bool_decide (nm_Signer mim = acc) && EqualFold (nm_Key mim) key.

Definition NodeMimirs_Get (m : NodeMimirs) (key acc : string) : Z * bool :=
  match List.find (vote_is key acc) m with Some mim => (nm_Value mim, true) | None => (0, false) end.
Definition NodeMimirs_Has (m : NodeMimirs) (key acc : string) : bool := existsb (vote_is key acc) m.
(** The first vote of the signer on the key gets the value, or a vote is added. *)
Fixpoint NodeMimirs_Set (m : NodeMimirs) (key : string) (val : Z) (acc : string) : NodeMimirs :=
  match m with
  | [] => [mkNodeMimir key val acc]
  | mim :: r =>
      if vote_is key acc mim then mkNodeMimir (nm_Key mim) val (nm_Signer mim) :: r
      else mim :: NodeMimirs_Set r key val acc
  end.
Fixpoint NodeMimirs_Delete (m : NodeMimirs) (key acc : string) : NodeMimirs :=
  match m with
  | [] => []
  | mim :: r => if vote_is key acc mim then r else mim :: NodeMimirs_Delete r key acc
  end.

(** The counts per value: the first vote on the key of each active signer. *)
Definition count_vote (key : string) (active : list string) (t : gmap Z Z * list string) (mim : NodeMimir)
    : gmap Z Z * list string :=
  let '(counter, voted) := t in
  if negb (EqualFold (nm_Key mim) key) then t
  else if bool_decide (nm_Signer mim ∈ voted) then t
  else if bool_decide (nm_Signer mim ∈ active)
  then (<[nm_Value mim := default 0 (counter !! nm_Value mim) + 1]> counter, nm_Signer mim :: voted)
  else t.
Definition vote_counts (m : NodeMimirs) (key : string) (active : list string) : gmap Z Z :=
  fst (fold_left (count_vote key active) m (∅, [])).

Section Counting.
  Context `{!MapIteration}.

(** The first value, as the map is iterated, that has the majority. *)
Definition countActive (m : NodeMimirs) (key : string) (active : list string) (maj : Z → Z → bool) : Z * bool :=
  match List.find (λ '(_, count), maj count (len active)) (iterate (vote_counts m key active)) with
  | Some (val, _) => (val, true)
  | None => (0, false)
  end.
Definition Mimirs_HasSuperMajority (m : NodeMimirs) (key : string) (nas : list string) : Z * bool :=
  countActive m key nas HasSuperMajority.
Definition Mimirs_HasSimpleMajority (m : NodeMimirs) (key : string) (nas : list string) : Z * bool :=
  countActive m key nas HasSimpleMajority.

(** The value met with the largest count, and the count. *)
Definition better_value (best : Z * Z) (e : Z * Z) : Z * Z :=
  let '(mostVotedValue, maxVotes) := best in
  let '(value, count) := e in
  if maxVotes <? count then (value, count) else (mostVotedValue, maxVotes).
Definition ValueOfEconomic (m : NodeMimirs) (key : string) (active : list string) : Z :=
  let '(mostVotedValue, maxVotes) := fold_left better_value (iterate (vote_counts m key active)) (-1, 0) in
  if 3 * maxVotes <? 2 * len active then -1 else mostVotedValue.

(** The mark of a tie, once made, stays when a larger count is met. *)
Definition better_untied (best : Z * Z * bool) (e : Z * Z) : Z * Z * bool :=
  let '(mostVotedValue, maxVotes, tie) := best in
  let '(value, count) := e in
  if maxVotes <? count then (value, count, tie)
  else if count =? maxVotes then (mostVotedValue, maxVotes, true)
  else best.
Definition most_voted (l : list (Z * Z)) : Z * Z * bool := fold_left better_untied l (-1, 0, false).
Definition ValueOfOperational (m : NodeMimirs) (key : string) (minVotes : Z) (active : list string) : Z :=
  let '(mostVotedValue, maxVotes, tie) := most_voted (iterate (vote_counts m key active)) in
  if tie || (maxVotes <? minVotes) then -1 else mostVotedValue.
End Counting.

(** ** The keeper *)

Definition contains_text (s sub : string) : bool :=
  match String.index 0 sub s with Some _ => true | None => false end.

(** The switches of the network, which need fewer votes than the economy's. *)
Definition IsOperationalMimir (key : string) : bool :=
  if existsb (EqualFold key)
       ["MintSynths"; "TradeAccountsEnabled"; "SwitchPoolEnabled"; "EVMDisableContractWhitelist"; "MaxOutboundAttempts"]
  then true
  else if existsb (EqualFold key) ["NodePauseChainBlocks"; "PauseLoans"; "PauseOnSlashThreshold"] then false
  else existsb (contains_text (ToUpper key)) ["HALT"; "PAUSE"; "STOPSOLVENCYCHECK"].

Section MimirKeeper.
  Context `{CosmosMath} `{Bank} `{Env} `{!PubKeys} `{UpgradeKeeper} `{!MapIteration}.
Abbreviation C := (M ChainState).

Definition GetNodeMimirs (key : string) : C NodeMimirs :=
  gets (λ s, default [] (nodeMimirs s !! GetKey key)).
(** A negative value withdraws the vote. *)
Definition with_vote (record : NodeMimirs) (key : string) (value : Z) (acc : string) : NodeMimirs :=
  let record := NodeMimirs_Set record key value acc in
  if value <? 0 then NodeMimirs_Delete record key acc else record.
Definition SetNodeMimir (key : string) (value : Z) (acc : string) : C () :=
  let key := ToUpper key in
  record ← GetNodeMimirs key;
  let record := with_vote record key value acc in
  modify (λ s, put_nodeMimirs (match record with
                               | [] => delete (GetKey key) (nodeMimirs s)
                               | _ => <[GetKey key := record]> (nodeMimirs s)
                               end) s).
Definition DeleteNodeMimirs (key : string) : C () :=
  modify (λ s, put_nodeMimirs (delete (GetKey key) (nodeMimirs s)) s).
Definition PurgeOperationalNodeMimirs : C () :=
  keys ← gets (λ s, fst <$> map_to_list (nodeMimirs s));
  for_each (λ key, if IsOperationalMimir key then DeleteNodeMimirs key else mret ()) keys.
Definition DeleteMimir (key : string) : K () :=
  modify (λ s, put_mimirs (delete (GetKey key) (mimirs s)) s).

Definition GetNodePauseChain (acc : string) : C Z := gets (λ s, default (-1) (nodePauses s !! GetKey acc)).
Definition SetNodePauseChain (ctx : Ctx) (acc : string) : C () :=
  modify (λ s, put_nodePauses (<[GetKey acc := BlockHeight ctx]> (nodePauses s)) s).

(** ** Messages *)

Record MsgMimir := mkMsgMimir { mm_Key : string; mm_Value : Z; mm_Signer : string }.
Definition Mimir_ValidateBasic (m : MsgMimir) : option error :=
  if bool_decide (mm_Key m = "") then Some "key cannot be empty"
  else if bool_decide (mm_Signer m = "") then Some "invalid address"
  else None.

Definition MaxMimirLength : nat := 128.
Definition mimir_char (c : ascii) : bool := is_upper c || is_lower c || is_digit c || is_char "-" c.
(** The regular expression of mimir keys, [^[a-zA-Z0-9-]+$]. *)
Definition mimirValidKey (key : string) : bool := negb (bool_decide (key = "")) && str_forall mimir_char key.

Definition Mimir_validate (ctx : Ctx) (msg : MsgMimir) : C () :=
  if versionMajor ctx <? 3 then throw errBadVersion
  else
    _ ← check (Mimir_ValidateBasic msg);
    _ ← fail_when (negb (mimirValidKey (mm_Key msg)) || (MaxMimirLength <? String.length (mm_Key msg))%nat) "invalid mimir key";
    ok ← chain_obs (isSignedByActiveNodeAccounts ctx [mm_Signer msg]);
    fail_when (negb ok) "not authorized".

(** The vote costs the fee of a transaction, out of the voter's bond. *)
Definition charge_vote (ctx : Ctx) (signer : string) : C (Z * string) :=
  na ← chain_obs (GetNodeAccount ctx signer);
  cost ← chain_core (GetNativeTxFee ctx);
  bond ← lift (SafeSub (na_Bond na) cost);
  _ ← chain_obs (SetNodeAccount ctx (set_na_Bond bond na));
  _ ← (if cost =? 0 then mret ()
       else chain_core (SendFromModuleToModule BondName ReserveName [NewCoin SwitchNative cost]));
  mret (cost, NodeAddress na).

(** The value in force after the votes there are; none when negative. *)
Definition effective_value (key : string) (m : NodeMimirs) (active : list string) : C Z :=
  if IsOperationalMimir key then
    operationalVotesMin ← chain_core (GetConfigInt64 "OperationalVotesMin");
    mret (ValueOfOperational m key operationalVotesMin active)
  else
    let '(v, has) := Mimirs_HasSuperMajority m key active in
    mret (if has : bool then v else -1).

(** The value voted is put in force when the votes there are carry it. *)
Definition apply_votes (ctx : Ctx) (msg : MsgMimir) (currentMimirValue : Z) : C () :=
  if mm_Value msg =? currentMimirValue then mret ()
  else
    votes ← GetNodeMimirs (mm_Key msg);
    active ← chain_obs ListActiveValidators;
    effectiveValue ← effective_value (mm_Key msg) votes (GetNodeAddresses active);
    if effectiveValue <? 0 then mret ()
    else if currentMimirValue =? effectiveValue then mret ()
    else if negb (mm_Value msg =? effectiveValue) then mret ()
    else
      _ ← chain_core (SetMimir (mm_Key msg) effectiveValue);
      chain_core (EmitEvent (EvSetMimir (ToUpper (mm_Key msg)) (pretty effectiveValue))).
Definition Mimir_handle (ctx : Ctx) (msg : MsgMimir) : C () :=
  if versionMajor ctx <? 3 then throw errBadVersion
  else
    currentMimirValue ← chain_core (GetMimir (mm_Key msg));
    '(cost, node) ← charge_vote ctx (mm_Signer msg);
    _ ← SetNodeMimir (mm_Key msg) (mm_Value msg) (mm_Signer msg);
    _ ← chain_core (EmitEvent (EvSetNodeMimir (ToUpper (mm_Key msg)) (pretty (mm_Value msg)) (mm_Signer msg)));
    _ ← chain_core (EmitEvent (EvBond cost BondCost node "" ""));
    apply_votes ctx msg currentMimirValue.
Definition Mimir_Run (ctx : Ctx) (msg : MsgMimir) : C () := _ ← Mimir_validate ctx msg; Mimir_handle ctx msg.

(** ** Pausing the chain *)

Record MsgNodePauseChain := mkMsgNodePauseChain { np_Value : Z; np_Signer : string }.
Definition NodePauseChain_ValidateBasic (m : MsgNodePauseChain) : option error :=
  if bool_decide (np_Signer m = "") then Some "invalid address" else None.
Definition NodePauseChain_validate (ctx : Ctx) (msg : MsgNodePauseChain) : C () :=
  if versionMajor ctx <? 3 then throw errBadVersion
  else
    _ ← check (NodePauseChain_ValidateBasic msg);
    ok ← chain_obs (isSignedByActiveNodeAccounts ctx [np_Signer msg]);
    fail_when (negb ok) "not authorized".

(** The height of the last churn: the newest of the active vaults. *)
Definition last_churn (active : list Vault) : Z :=
  fold_left (λ h v, if h <? v_StatusSince v then v_StatusSince v else h) active (-1).

Definition NodePauseChain_handle (ctx : Ctx) (msg : MsgNodePauseChain) : C () :=
  if versionMajor ctx <? 3 then throw errBadVersion
  else
    active ← in_vaults (GetAsgardVaultsByStatus ctx ActiveVault);
    nodeHeight ← GetNodePauseChain (np_Signer msg);
    _ ← fail_when (last_churn active <? nodeHeight) "node has already chosen pause/resume since the last churn";
    pauseHeight ← chain_core (GetMimir "NodePauseChainGlobal");
    blocks ← chain_core (GetMimir "NodePauseChainBlocks");
    let blocks := if blocks <? 0 then GetInt64Value int64Overrides "NodePauseChainBlocks" else blocks in
    let paused := BlockHeight ctx <? pauseHeight in
    pauseHeight ←
      (if 0 <? np_Value msg then
         _ ← SetNodePauseChain ctx (np_Signer msg);
         mret (to_i64 ((if paused then pauseHeight else BlockHeight ctx) + blocks))
       else if (np_Value msg <? 0) && paused then
         _ ← SetNodePauseChain ctx (np_Signer msg);
         mret (to_i64 (pauseHeight - blocks))
       else mret pauseHeight);
    _ ← chain_core (SetMimir "NodePauseChainGlobal" pauseHeight);
    chain_core (EmitEvent (EvSetMimir (ToUpper "NodePauseChainGlobal") (pretty pauseHeight))).
Definition NodePauseChain_Run (ctx : Ctx) (msg : MsgNodePauseChain) : C () :=
  _ ← NodePauseChain_validate ctx msg; NodePauseChain_handle ctx msg.
End MimirKeeper.

(** ** What the counts are *)

Lemma vote_is_true key acc mim : vote_is key acc mim = true ↔ nm_Signer mim = acc ∧ EqualFold (nm_Key mim) key = true.
Proof. unfold vote_is. by rewrite andb_true_iff, bool_decide_eq_true. Qed.

Definition voted_for (m : NodeMimirs) (key : string) (v : Z) (acc : string) : Prop := NodeMimirs_Get m key acc = (v, true).
#[export] Instance voted_for_dec m key v acc : Decision (voted_for m key v acc).
Proof. unfold voted_for. apply _. Defined.
(** The active nodes whose vote is for the value. *)
Definition votes (m : NodeMimirs) (key : string) (active : list string) (v : Z) : Z :=
  len (filter (voted_for m key v) (remove_dups active)).

Lemma Get_snoc m mim key acc :
  NodeMimirs_Get (m ++ [mim]) key acc =
  if NodeMimirs_Has m key acc then NodeMimirs_Get m key acc
  else if vote_is key acc mim then (nm_Value mim, true) else (0, false).
Proof.
  unfold NodeMimirs_Get, NodeMimirs_Has. induction m as [|x m IH]; cbn; [by destruct (vote_is key acc mim)|].
  by destruct (vote_is key acc x).
Qed.
Lemma Has_snoc m mim key acc : NodeMimirs_Has (m ++ [mim]) key acc = NodeMimirs_Has m key acc || vote_is key acc mim.
Proof. unfold NodeMimirs_Has. rewrite existsb_app. cbn. by rewrite orb_false_r. Qed.
Lemma Has_voted m key acc : NodeMimirs_Has m key acc = true ↔ ∃ v, voted_for m key v acc.
Proof.
  unfold voted_for, NodeMimirs_Has, NodeMimirs_Get. split.
  - intros Hx. destruct (List.find _ m) as [mim|] eqn:Hf; [eauto|].
    apply existsb_exists in Hx as (x & Hin & Hv). by rewrite (find_none _ _ Hf x Hin) in Hv.
  - intros [v Hv]. destruct (List.find _ m) as [mim|] eqn:Hf; [|done].
    apply find_some in Hf as [Hin Hv']. apply existsb_exists. eauto.
Qed.

(** What the count has after a part of the votes. *)
Record counted (key : string) (active : list string) (m : NodeMimirs) (t : gmap Z Z * list string) : Prop := {
  ct_distinct : NoDup (snd t);
  ct_voters acc : acc ∈ snd t ↔ acc ∈ active ∧ NodeMimirs_Has m key acc = true;
  ct_counts v : default 0 (fst t !! v) = len (filter (voted_for m key v) (snd t));
  ct_positive v c : fst t !! v = Some c → 0 < c;
}.

Lemma filter_same {A} (P Q : A → Prop) `{∀ x, Decision (P x)} `{∀ x, Decision (Q x)} (l : list A) :
  (∀ x, x ∈ l → P x ↔ Q x) → filter P l = filter Q l.
Proof.
  induction l as [|x l IH]; intros HPQ; [done|]. rewrite !filter_cons.
  rewrite IH by (intros; apply HPQ; by apply list_elem_of_further).
  pose proof (HPQ x (list_elem_of_here _ _)). destruct (decide (P x)), (decide (Q x)); tauto.
Qed.

Lemma counted_skip key active m mim t :
  (∀ acc, acc ∈ active → NodeMimirs_Has m key acc = false → vote_is key acc mim = false) →
  counted key active m t → counted key active (m ++ [mim]) t.
Proof.
  intros Hskip [Hd Hv Hc Hp].
  assert (Hhas : ∀ acc, acc ∈ active → NodeMimirs_Has (m ++ [mim]) key acc = NodeMimirs_Has m key acc).
  { intros acc Ha. rewrite Has_snoc. specialize (Hskip acc Ha).
    destruct (NodeMimirs_Has m key acc); cbn; [done|by apply Hskip]. }
  split; [done| | |done].
  - intros acc. rewrite Hv. split; intros [Ha Hh]; (split; [done|]); [by rewrite Hhas|by rewrite <- Hhas].
  - intros v. rewrite Hc. f_equal. apply filter_same. intros acc Ha. apply Hv in Ha as [_ Hh].
    unfold voted_for. by rewrite Get_snoc, Hh.
Qed.

Lemma counted_step key active m t mim :
  counted key active m t → counted key active (m ++ [mim]) (count_vote key active t mim).
Proof.
  intros Hct. destruct t as [counter voted]. unfold count_vote.
  destruct (EqualFold (nm_Key mim) key) eqn:Hkey; cbn [negb].
  2: { apply counted_skip; [|done]. intros acc _ _. apply not_true_iff_false. rewrite vote_is_true. intros [_ ?]. congruence. }
  case_bool_decide as Hvoted.
  { apply counted_skip; [|done]. intros acc _ Hno. apply not_true_iff_false. rewrite vote_is_true. intros [<- _].
    apply (ct_voters _ _ _ _ Hct) in Hvoted as [_ Hv]. congruence. }
  case_bool_decide as Hact.
  2: { apply counted_skip; [|done]. intros acc Ha _. apply not_true_iff_false. rewrite vote_is_true. intros [<- _]. done. }
  assert (Hnew : NodeMimirs_Has m key (nm_Signer mim) = false).
  { apply not_true_iff_false. intros Hh. apply Hvoted. by apply (ct_voters _ _ _ _ Hct). }
  assert (Hget : NodeMimirs_Get (m ++ [mim]) key (nm_Signer mim) = (nm_Value mim, true)).
  { rewrite Get_snoc, Hnew. by rewrite (proj2 (vote_is_true key _ mim) (conj eq_refl Hkey)). }
  destruct Hct as [Hd Hv Hc Hp]. cbn [fst snd] in *. split; cbn [fst snd].
  - by apply list.NoDup_cons.
  - intros acc. rewrite elem_of_cons, Has_snoc, orb_true_iff, vote_is_true, Hv. intuition (subst; auto).
  - intros v. rewrite filter_cons.
    assert (Hrest : filter (voted_for (m ++ [mim]) key v) voted = filter (voted_for m key v) voted).
    { apply filter_same. intros acc Ha. apply Hv in Ha as [_ Hh]. unfold voted_for. by rewrite Get_snoc, Hh. }
    rewrite Hrest. destruct (decide (nm_Value mim = v)) as [<-|Hne].
    + rewrite lookup_insert_eq. cbn [default]. rewrite Hc. rewrite decide_True by (exact Hget). unfold len. cbn [length]. cbn. lia.
    + rewrite lookup_insert_ne by done. rewrite Hc, decide_False; [done|]. unfold voted_for. rewrite Hget. congruence.
  - intros v c. rewrite lookup_insert_Some. intros [[<- <-]|[_ Hl]]; [|by eapply Hp].
    specialize (Hc (nm_Value mim)). unfold len in Hc. lia.
Qed.

Lemma vote_counts_counted key active m : counted key active m (fold_left (count_vote key active) m (∅, [])).
Proof.
  induction m as [|mim m IH] using rev_ind.
  - split; cbn.
    + apply NoDup_nil_2.
    + intros acc. split; [by intros ?%elem_of_nil|by intros [_ ?]].
    + intros v. by rewrite lookup_empty.
    + intros v c. by rewrite lookup_empty.
  - rewrite fold_left_app. cbn. by apply counted_step.
Qed.

(** The map has the number of votes of every value that has any. *)
Lemma vote_counts_spec key active m v c : vote_counts m key active !! v = Some c ↔ c = votes m key active v ∧ 0 < c.
Proof.
  pose proof (vote_counts_counted key active m) as [Hd Hv Hc Hp].
  assert (Heq : default 0 (vote_counts m key active !! v) = votes m key active v).
  { unfold vote_counts. rewrite Hc. unfold votes, len. f_equal. apply Permutation_length, NoDup_Permutation.
    - by apply list.NoDup_filter.
    - apply list.NoDup_filter, NoDup_remove_dups.
    - intros acc. rewrite !list_elem_of_filter, elem_of_remove_dups, Hv. split; [tauto|].
      intros [Hf Ha]. split_and!; [done|done|]. apply Has_voted. eauto. }
  split.
  - intros Hl. split; [|by eapply Hp]. by rewrite Hl in Heq.
  - intros [-> Hpos]. destruct (vote_counts m key active !! v); cbn in Heq; [by subst|lia].
Qed.

Lemma votes_le m key active v : 0 ≤ votes m key active v ≤ len active.
Proof.
  unfold votes, len. split; [lia|]. apply inj_le.
  etransitivity; [apply length_filter|]. apply submseteq_length, NoDup_submseteq; [apply NoDup_remove_dups|].
  intros x. by rewrite elem_of_remove_dups.
Qed.
(** No node votes for two values. *)
Lemma votes_exclusive m key active v w : v ≠ w → votes m key active v + votes m key active w ≤ len active.
Proof.
  intros Hne. unfold votes, len.
  set (l := remove_dups active). set (a := filter (voted_for m key v) l). set (b := filter (voted_for m key w) l).
  enough (length (a ++ b) <= length active)%nat by (rewrite length_app in *; lia).
  apply submseteq_length, NoDup_submseteq.
  - apply list.NoDup_app. split_and!; [apply list.NoDup_filter, NoDup_remove_dups| |apply list.NoDup_filter, NoDup_remove_dups].
    intros x [Hx _]%list_elem_of_filter [Hy _]%list_elem_of_filter. unfold voted_for in *. congruence.
  - intros x [[_ Hx]%list_elem_of_filter|[_ Hx]%list_elem_of_filter]%elem_of_app; by apply elem_of_remove_dups.
Qed.

Section Iterated.
  Context `{!MapIteration}.

Lemma iterate_elem m key active v c : (v, c) ∈ iterate (vote_counts m key active) ↔ c = votes m key active v ∧ 0 < c.
Proof. rewrite (iterate_perm _), elem_of_map_to_list. apply vote_counts_spec. Qed.

(** A value has the super majority exactly with two thirds of the active nodes. *)
Lemma super_majority_spec m key active v :
  Mimirs_HasSuperMajority m key active = (v, true) ↔ 0 < votes m key active v ∧ 2 * len active ≤ 3 * votes m key active v.
Proof.
  unfold Mimirs_HasSuperMajority, countActive. set (l := iterate _).
  assert (Hmaj : ∀ w c, (w, c) ∈ l → HasSuperMajority c (len active) = true ↔ 2 * len active ≤ 3 * c).
  { intros w c Hin. apply iterate_elem in Hin as [-> Hc]. pose proof (votes_le m key active w).
    rewrite HasSuperMajority_spec by lia. lia. }
  destruct (List.find _ l) as [[w c]|] eqn:Hf; split.
  - intros [= ->]. apply find_some in Hf as [Hin%list_elem_of_In Hm]. apply (Hmaj v c) in Hm; [|done].
    by apply iterate_elem in Hin as [-> ?].
  - intros [Hpos Hv]. apply find_some in Hf as [Hin%list_elem_of_In Hm]. apply (Hmaj w c) in Hm; [|done].
    apply iterate_elem in Hin as [-> Hw]. f_equal. destruct (decide (w = v)) as [|Hne]; [done|].
    pose proof (votes_exclusive m key active w v Hne). lia.
  - done.
  - intros [Hpos Hv]. assert (Hin : (v, votes m key active v) ∈ l) by (by apply iterate_elem).
    pose proof (find_none _ _ Hf (v, votes m key active v) (proj1 (list_elem_of_In _ _) Hin)) as Hno. cbn in Hno.
    rewrite (proj2 (Hmaj v _ Hin)) in Hno by lia. done.
Qed.
Lemma super_majority_none m key active :
  snd (Mimirs_HasSuperMajority m key active) = false → Mimirs_HasSuperMajority m key active = (0, false).
Proof. unfold Mimirs_HasSuperMajority, countActive. by destruct (List.find _ _) as [[]|]. Qed.

Lemma best_value_spec (l : list (Z * Z)) :
  (∀ e, e ∈ l → 0 < snd e) →
  let r := fold_left better_value l (-1, 0) in
  (l = [] ∧ r = (-1, 0) ∨ r ∈ l) ∧ ∀ e, e ∈ l → snd e ≤ snd r.
Proof.
  cbn zeta. induction l as [|[x k] l IH] using rev_ind; intros Hpos.
  { split; [by left|]. by intros e ?%elem_of_nil. }
  destruct IH as [Hr Hmax]; [intros e He; apply Hpos, elem_of_app; by left|].
  rewrite fold_left_app. cbn. destruct (fold_left better_value l (-1, 0)) as [v c]. cbn in *.
  specialize (Hpos (x, k) ltac:(set_solver)). cbn in Hpos.
  destruct (Z.ltb_spec c k); (split; [right|intros e [He| ->%list_elem_of_singleton]%elem_of_app]); cbn.
  - set_solver.
  - specialize (Hmax e He). lia.
  - lia.
  - destruct Hr as [[-> [= -> ->]]|Hr]; [lia|set_solver].
  - by apply Hmax.
  - lia.
Qed.

(** Counting the most votes, and marking ties. *)
Lemma most_voted_spec (l : list (Z * Z)) :
  (∀ e, e ∈ l → 0 < snd e) →
  let '(v, c, tie) := most_voted l in
  (l = [] ∧ (v, c) = (-1, 0) ∨ (v, c) ∈ l) ∧ (∀ e, e ∈ l → snd e ≤ c) ∧
  (tie = false → ∀ e, e ∈ l → e ≠ (v, c) → snd e < c).
Proof.
  unfold most_voted. induction l as [|[x k] l IH] using rev_ind; intros Hpos.
  { cbn. split_and!; [by left|by intros e ?%elem_of_nil|by intros _ e ?%elem_of_nil]. }
  specialize (IH ltac:(intros e He; apply Hpos, elem_of_app; by left)).
  rewrite fold_left_app. cbn. destruct (fold_left better_untied l (-1, 0, false)) as [[v c] tie]. cbn in *.
  specialize (Hpos (x, k) ltac:(set_solver)). cbn in Hpos. destruct IH as (Hr & Hmax & Hun).
  destruct (Z.ltb_spec c k); [|destruct (Z.eqb_spec k c) as [Hkc|Hkc]]; split_and!.
  - right. set_solver.
  - intros e [He| ->%list_elem_of_singleton]%elem_of_app; cbn; [specialize (Hmax e He); lia|lia].
  - intros Ht e [He| ->%list_elem_of_singleton]%elem_of_app Hne; [specialize (Hmax e He); lia|done].
  - destruct Hr as [[-> [= -> ->]]|Hr]; [lia|right; set_solver].
  - intros e [He| ->%list_elem_of_singleton]%elem_of_app; cbn; [by apply Hmax|lia].
  - done.
  - destruct Hr as [[-> [= -> ->]]|Hr]; [lia|right; set_solver].
  - intros e [He| ->%list_elem_of_singleton]%elem_of_app; cbn; [by apply Hmax|lia].
  - intros Ht e [He| ->%list_elem_of_singleton]%elem_of_app Hne; cbn; [by apply Hun|lia].
Qed.

(** An operational value is voted by the most, and by enough. *)
Lemma operational_value_is_most_voted m key minVotes active w :
  ValueOfOperational m key minVotes active = w →
  w = -1 ∨ minVotes ≤ votes m key active w ∧ ∀ u, u ≠ w → votes m key active u < votes m key active w.
Proof.
  unfold ValueOfOperational. set (l := iterate _).
  assert (Hpos : ∀ e, e ∈ l → 0 < snd e) by (by intros [v c] [_ Hc]%iterate_elem).
  pose proof (most_voted_spec l Hpos) as Hm. destruct (most_voted l) as [[v c] tie]. destruct Hm as (Hr & Hmax & Hun).
  destruct tie; cbn; [by left|]. destruct (Z.ltb_spec c minVotes); [by left|]. intros <-.
  destruct Hr as [[_ [= -> ->]]|[-> Hc]%iterate_elem]; [by left|right]. split; [done|]. intros u Hu.
  destruct (decide (0 < votes m key active u)); [|lia].
  apply (Hun eq_refl (u, votes m key active u)); [by apply iterate_elem|]. by intros [= ? _].
Qed.
End Iterated.

(** An order that begins with the values that satisfy a predicate. *)
Program Definition front_first (P : Z → Prop) `{∀ v, Decision (P v)} : MapIteration := {|
  iterate m := (filter (λ e, P (fst e)) (map_to_list m) ++ filter (λ e, ¬ P (fst e)) (map_to_list m))%list;
|}.
Next Obligation. intros P ? m. apply (filter_app_complement (λ e : Z * Z, P (fst e))). Qed.

Lemma most_voted_none_above (l : list (Z * Z)) v c tie :
  (∀ e, e ∈ l → snd e < c) → fold_left better_untied l (v, c, tie) = (v, c, tie).
Proof.
  induction l as [|[x k] l IH]; intros Hl; [done|]. cbn.
  pose proof (Hl (x, k) (list_elem_of_here _ _)) as Hk. cbn in Hk.
  destruct (Z.ltb_spec c k); [lia|]. destruct (Z.eqb_spec k c); [lia|]. apply IH. intros e He. apply Hl. by apply list_elem_of_further.
Qed.
Lemma most_voted_tie_stays (l : list (Z * Z)) v c : snd (fold_left better_untied l (v, c, true)) = true.
Proof.
  revert v c. induction l as [|[x k] l IH]; intros v c; [done|]. cbn.
  destruct (c <? k); [apply IH|]. destruct (k =? c); apply IH.
Qed.

(** The two lists a filter by two values has. *)
Lemma filter_two (m : gmap Z Z) a b c d : a ≠ b → m !! a = Some c → m !! b = Some d →
  filter (λ e, fst e = a ∨ fst e = b) (map_to_list m) ≡ₚ [(a, c); (b, d)].
Proof.
  intros Hne Ha Hb. apply NoDup_Permutation.
  - apply list.NoDup_filter, NoDup_map_to_list.
  - apply base.NoDup_cons_2; [|apply NoDup_singleton]. intros [= ? _]%list_elem_of_singleton. done.
  - intros [x k]. rewrite list_elem_of_filter, elem_of_map_to_list, !elem_of_cons, elem_of_nil. cbn.
    split; [intros [[-> | ->] Hx]; rewrite Hx in *; naive_solver|]. intros [[= -> ->]|[[= -> ->]|[]]]; auto.
Qed.
Lemma filter_one (m : gmap Z Z) a c : m !! a = Some c → filter (λ e, fst e = a) (map_to_list m) = [(a, c)].
Proof.
  intros Ha. apply Permutation_singleton_r, NoDup_Permutation.
  - apply list.NoDup_filter, NoDup_map_to_list.
  - apply NoDup_singleton.
  - intros [x k]. rewrite list_elem_of_filter, elem_of_map_to_list, list_elem_of_singleton. cbn.
    split; [intros [-> Hx]; congruence|]. intros [= -> ->]. auto.
Qed.

(** The economic value does not depend on the order in which the counts are met:
    there is a super majority exactly for the value that two thirds of the active
    nodes vote for, and the value read without it is the same value or none. *)
Theorem economic_value_is_agreed (I J : MapIteration) m key active :
  @Mimirs_HasSuperMajority I m key active = @Mimirs_HasSuperMajority J m key active ∧
  @ValueOfEconomic J m key active =
    (let '(v, has) := @Mimirs_HasSuperMajority I m key active in if has : bool then v else -1) ∧
  ∀ v, @Mimirs_HasSuperMajority I m key active = (v, true) ↔
    0 < votes m key active v ∧ 2 * len active ≤ 3 * votes m key active v.
Proof.
  assert (Heq : @Mimirs_HasSuperMajority I m key active = @Mimirs_HasSuperMajority J m key active).
  { destruct (@Mimirs_HasSuperMajority I m key active) as [v []] eqn:Hi.
    - apply super_majority_spec in Hi. symmetry. by apply super_majority_spec.
    - pose proof (@super_majority_none I m key active) as Hn. rewrite Hi in Hn. rewrite (Hn eq_refl).
      destruct (@Mimirs_HasSuperMajority J m key active) as [w []] eqn:Hj.
      + apply super_majority_spec, (@super_majority_spec I) in Hj. congruence.
      + pose proof (@super_majority_none J m key active) as Hn'. rewrite Hj in Hn'. by rewrite Hn'. }
  split; [done|]. rewrite Heq. split; [|intros v; rewrite <- Heq; apply super_majority_spec].
  unfold ValueOfEconomic. set (l := iterate (vote_counts m key active)).
  assert (Hpos : ∀ e, e ∈ l → 0 < snd e) by (by intros [v c] [_ Hc]%iterate_elem).
  pose proof (best_value_spec l Hpos) as Hb. cbn zeta in Hb. destruct (fold_left better_value l (-1, 0)) as [v c]. cbn in Hb.
  destruct Hb as [Hr Hmax]. destruct (Z.ltb_spec (3 * c) (2 * len active)) as [Hlt|Hge].
  - destruct (@Mimirs_HasSuperMajority J m key active) as [w []] eqn:Hw; [|done].
    apply super_majority_spec in Hw as [Hw Hm]. specialize (Hmax (w, votes m key active w) ltac:(by apply iterate_elem)). cbn in Hmax. lia.
  - destruct Hr as [[Hl [= -> ->]]|[-> Hc]%iterate_elem].
    + destruct (@Mimirs_HasSuperMajority J m key active) as [w []] eqn:Hw; [|done].
      apply super_majority_spec in Hw as [Hw _]. pose proof (votes_le m key active w). lia.
    + by rewrite (proj2 (@super_majority_spec J m key active v) (conj Hc Hge)).
Qed.

Lemma most_voted_pair x y c : 0 < c → fold_left better_untied [(x, c); (y, c)] (-1, 0, false) = (x, c, true).
Proof.
  intros Hc. unfold fold_left, better_untied. destruct (Z.ltb_spec 0 c); [|lia]. by rewrite Z.ltb_irrefl, Z.eqb_refl.
Qed.

(** C38: The operational value depends on the order in which a Go map is iterated: when
    one value has strictly the most votes, and enough, and two others are equal,
    an iteration that meets the first one first answers it, and one that meets
    the two others first answers that there is none. *)
Theorem operational_value_depends_on_iteration m key minVotes active v a b :
  a ≠ b → 0 < votes m key active a → votes m key active a = votes m key active b →
  (∀ w, w ≠ v → votes m key active w < votes m key active v) → minVotes ≤ votes m key active v → a ≠ v → b ≠ v →
  ∃ I J : MapIteration,
    @ValueOfOperational I m key minVotes active = v ∧
    @ValueOfOperational J m key minVotes active = -1.
Proof.
  intros Hne Ha Hab Hmost Hmin Hav Hbv. set (counts := vote_counts m key active).
  assert (Hc : ∀ w, 0 < votes m key active w → counts !! w = Some (votes m key active w)) by (intros; by apply vote_counts_spec).
  pose proof (Hmost a Hav). exists (front_first (λ w, w = v)), (front_first (λ w, w = a ∨ w = b)).
  unfold ValueOfOperational, most_voted. fold counts. cbn [iterate front_first]. split.
  - rewrite (filter_one _ _ _ (Hc v ltac:(lia))). cbn.
    destruct (Z.ltb_spec 0 (votes m key active v)); [|lia]. rewrite most_voted_none_above.
    + cbn. destruct (Z.ltb_spec (votes m key active v) minVotes); [lia|done].
    + intros [w c] [Hw Hin]%list_elem_of_filter. cbn in Hw. apply elem_of_map_to_list, vote_counts_spec in Hin as [-> _]. by apply Hmost.
  - pose proof (filter_two counts a b _ _ Hne (Hc a Ha) (Hc b ltac:(lia))) as Hp. rewrite fold_left_app.
    assert (Htie : ∃ w, fold_left better_untied (filter (λ e, fst e = a ∨ fst e = b) (map_to_list counts)) (-1, 0, false)
                        = (w, votes m key active a, true)).
    { rewrite <- Hab in Hp. symmetry in Hp.
      apply Permutation_length_2_inv in Hp as [Hp|Hp]; rewrite Hp; eexists; by apply most_voted_pair. }
    destruct Htie as [w ->].
    pose proof (most_voted_tie_stays (filter (λ e, ¬ (fst e = a ∨ fst e = b)) (map_to_list counts)) w (votes m key active a)) as Ht.
    destruct (fold_left better_untied _ _) as [[x c] tie]. cbn in Ht. by subst tie.
Qed.

Section MimirFacts.
  Context `{CosmosMath} `{Bank} `{Env} `{!PubKeys} `{UpgradeKeeper} `{!MapIteration}.

Definition chain_mimirs (s : ChainState) : gmap string Z := mimirs (chain_state_core s).
(** The active validators and the votes there are on a key. *)
Definition active_nodes (s : ChainState) : list string :=
  match fst (ListActiveValidators (chain_state_obs s)) with Ok nas => GetNodeAddresses nas | _ => [] end.
Definition node_votes (s : ChainState) (key : string) : NodeMimirs := default [] (nodeMimirs s !! GetKey key).

(** Votes enough to put a value in force. *)
Definition carried (config : State) (s : ChainState) (key : string) (value : Z) : Prop :=
  let count := votes (node_votes s key) key (active_nodes s) in
  if IsOperationalMimir key
  then (∀ w, w ≠ value → count w < count value) ∧
       ∃ least, fst (GetConfigInt64 "OperationalVotesMin" config) = Ok least ∧ least ≤ count value
  else 0 < count value ∧ 2 * len (active_nodes s) ≤ 3 * count value.

Lemma reads_Mimir_validate ctx msg : only_reads (Mimir_validate ctx msg).
Proof. unfold Mimir_validate. repeat first [apply reads_check|solve [eauto with reads]|reads_step]. Qed.
Lemma reads_NodePauseChain_validate ctx msg : only_reads (NodePauseChain_validate ctx msg).
Proof. unfold NodePauseChain_validate. repeat first [apply reads_check|solve [eauto with reads]|reads_step]. Qed.
#[local] Hint Resolve reads_Mimir_validate reads_NodePauseChain_validate : reads.

Lemma charge_vote_ok ctx signer s cost node s' :
  chain_nodes_ok s → charge_vote ctx signer s = (Ok (cost, node), s') →
  fst (GetNativeTxFee ctx (chain_state_core s)) = Ok cost ∧ outer_kept s s' ∧ chain_mimirs s' = chain_mimirs s ∧
  chain_nodes_ok s' ∧ bond_surplus s' = bond_surplus s - Z.max 0 (cost - stored_bond s signer).
Proof.
  intros Hok Hrun. unfold charge_vote in Hrun. run_step Hrun na s1 E. apply GetNodeAccount_chain in E as [-> ->].
  read_past Hrun fee E. rewrite chain_reads_fst in E.
  run_step Hrun b s1 Eb. apply lift_ok in Eb as [Eb ->]. run_step Hrun u s1 Es. destruct u.
  run_step Hrun u s2 Ep. destruct u. apply ret_ok in Hrun as [[= -> ->] ->].
  pose proof (account_at_nonneg ctx s signer Hok) as Hb. rewrite account_at_bond in *.
  assert (Hout : outer_kept s s2).
  { apply in_vaults_outer in Es. eapply outer_trans; [exact Es|].
    destruct (fee =? 0); [apply ret_ok in Ep as [_ ->]; apply outer_refl|]. by apply in_vaults_outer in Ep. }
  assert (Hpay : 0 ≤ fee ∧ chain_nodes s2 = chain_nodes s1 ∧ chain_mimirs s2 = chain_mimirs s1 ∧ bond_surplus s2 = bond_surplus s1 - fee).
  { destruct (Z.eqb_spec fee 0) as [->|]; [apply ret_ok in Ep as [_ ->]; split_and!; [lia|done|done|lia]|].
    apply bond_to_module_ok in Ep as (? & ? & ? & ?); [|done]. split_and!; [lia|done..]. }
  destruct Hpay as (Hfee & Hn2 & Hm2 & Hs2). apply SafeSub_inv in Eb; [|done..].
  apply set_bond_ok in Es as [Hok1 Hcore _ _ _ Hs1]; [|done|lia|lia].
  split_and!; [done|done|by rewrite Hm2; unfold chain_mimirs; rewrite Hcore| |lia].
  intros k na Hk. apply Hok1. rewrite <- Hk. unfold chain_nodes in Hn2. by rewrite Hn2.
Qed.

(** ** Recording a vote *)

Lemma vote_is_upper key acc mim : vote_is (ToUpper key) acc mim = vote_is key acc mim.
Proof. unfold vote_is, EqualFold. by rewrite ToUpper_idem. Qed.
Lemma Get_upper m key acc : NodeMimirs_Get m (ToUpper key) acc = NodeMimirs_Get m key acc.
Proof.
  unfold NodeMimirs_Get. induction m as [|x m IH]; cbn; [done|]. rewrite vote_is_upper. by destruct (vote_is key acc x).
Qed.
Lemma Get_cons x m key b :
  NodeMimirs_Get (x :: m) key b = if vote_is key b x then (nm_Value x, true) else NodeMimirs_Get m key b.
Proof. unfold NodeMimirs_Get. cbn. by destruct (vote_is key b x). Qed.
Lemma vote_is_apart key a b x v : a ≠ b → vote_is key a x = true →
  vote_is key b x = false ∧ vote_is key b (mkNodeMimir (nm_Key x) v (nm_Signer x)) = false.
Proof.
  intros Hne Ha. apply vote_is_true in Ha as [Hs _]. split; apply not_true_iff_false; rewrite vote_is_true; cbn; by intros [? _]; congruence.
Qed.
Lemma Get_Set m key v a b :
  NodeMimirs_Get (NodeMimirs_Set m key v a) key b = if decide (b = a) then (v, true) else NodeMimirs_Get m key b.
Proof.
  destruct (decide (b = a)) as [->|Hne]; induction m as [|x m IH]; cbn [NodeMimirs_Set].
  - rewrite Get_cons. unfold vote_is. cbn. by rewrite bool_decide_true, EqualFold_refl.
  - destruct (vote_is key a x) eqn:Hx; rewrite Get_cons; [|by rewrite Hx].
    assert (vote_is key a (mkNodeMimir (nm_Key x) v (nm_Signer x)) = true) as -> by exact Hx. done.
  - rewrite Get_cons. unfold vote_is. cbn. by rewrite bool_decide_false by congruence.
  - destruct (vote_is key a x) eqn:Hx; rewrite !Get_cons; [|by rewrite IH].
    by destruct (vote_is_apart key a b x v ltac:(congruence) Hx) as [-> ->].
Qed.
Lemma Get_Delete m key a b : b ≠ a → NodeMimirs_Get (NodeMimirs_Delete m key a) key b = NodeMimirs_Get m key b.
Proof.
  intros Hne. induction m as [|x m IH]; [done|]. cbn [NodeMimirs_Delete].
  destruct (vote_is key a x) eqn:Hx; rewrite !Get_cons; [|by rewrite IH].
  by destruct (vote_is_apart key a b x 0 ltac:(congruence) Hx) as [-> _].
Qed.

(** What a vote changes of the votes there are. *)
Record vote_recorded (s s' : ChainState) (key : string) (value : Z) (signer : string) : Prop := {
  vr_own : 0 ≤ value → NodeMimirs_Get (node_votes s' key) key signer = (value, true);
  vr_others acc : acc ≠ signer → NodeMimirs_Get (node_votes s' key) key acc = NodeMimirs_Get (node_votes s key) key acc;
  vr_keys key' : GetKey key' ≠ GetKey key → node_votes s' key' = node_votes s key';
}.

Lemma SetNodeMimir_run key value signer s :
  ∃ l, SetNodeMimir key value signer s = (Ok (), put_nodeMimirs l s) ∧ vote_recorded s (put_nodeMimirs l s) key value signer.
Proof.
  unfold SetNodeMimir. cbv zeta.
  assert (Hk : GetKey (ToUpper key) = GetKey key) by apply ToUpper_idem.
  set (r := with_vote (node_votes s key) (ToUpper key) value signer).
  set (l := match r with [] => delete (GetKey key) (nodeMimirs s) | _ => <[GetKey key := r]> (nodeMimirs s) end).
  exists l. split.
  { unfold GetNodeMimirs, gets, modify, mbind, M_bind. by rewrite Hk. }
  assert (Hr : node_votes (put_nodeMimirs l s) key = r).
  { unfold node_votes, l. cbn. destruct r as [|x r]; [by rewrite lookup_delete_eq|by rewrite lookup_insert_eq]. }
  split; [..|intros key' Hne; unfold node_votes, l; cbn; destruct r; [by rewrite lookup_delete_ne|by rewrite lookup_insert_ne]];
    rewrite Hr; unfold r, with_vote.
  - intros Hv. destruct (Z.ltb_spec value 0); [lia|]. rewrite <- Get_upper, Get_Set. by rewrite decide_True.
  - intros acc Hne. rewrite <- Get_upper, <- (Get_upper (node_votes s key)).
    destruct (value <? 0); rewrite ?Get_Delete, Get_Set, decide_False by done; done.
Qed.

(** What carries a value depends on the votes, the nodes and the configuration. *)
Lemma carried_config c c' s key value : mimirs c = mimirs c' → carried c s key value → carried c' s key value.
Proof. unfold carried, GetConfigInt64, GetMimir, gets, mbind, M_bind. cbn. by intros ->. Qed.

Lemma apply_votes_ok ctx msg current s s' :
  apply_votes ctx msg current s = (Ok (), s') →
  ∃ c, s' = with_chain_core c s ∧ bank c = bank (chain_state_core s) ∧
    (mimirs c = mimirs (chain_state_core s) ∨
     mimirs c = <[GetKey (mm_Key msg) := mm_Value msg]> (mimirs (chain_state_core s)) ∧
     carried (chain_state_core s) s (mm_Key msg) (mm_Value msg)).
Proof.
  intros Hrun. unfold apply_votes in Hrun.
  assert (Hstay : s' = s → ∃ c, s' = with_chain_core c s ∧ bank c = bank (chain_state_core s) ∧
    (mimirs c = mimirs (chain_state_core s) ∨ mimirs c = <[GetKey (mm_Key msg) := mm_Value msg]> (mimirs (chain_state_core s)) ∧
     carried (chain_state_core s) s (mm_Key msg) (mm_Value msg))).
  { intros ->. exists (chain_state_core s). split_and!; [by rewrite chain_core_id|done|by left]. }
  destruct (mm_Value msg =? current); [by apply ret_ok in Hrun as [_ ->]; apply Hstay|].
  run_step Hrun m s1 E. injection E as <- <-. read_past Hrun nas E.
  rewrite chain_obs_fst in E. unfold effective_value in Hrun.
  run_step Hrun e s1 Ee.
  assert (Hcar : s1 = s ∧ (e = -1 ∨ carried (chain_state_core s) s (mm_Key msg) e)).
  { unfold carried, active_nodes. rewrite E. unfold node_votes. set (l := default _ _) in Ee |- *.
    destruct (IsOperationalMimir (mm_Key msg)).
    - read_past Ee least El. rewrite chain_reads_fst in El. apply ret_ok in Ee as [-> ->]. split; [done|].
      destruct (operational_value_is_most_voted l (mm_Key msg) least (GetNodeAddresses nas) _ eq_refl) as [->|[? ?]]; [by left|].
      right. split; [done|]. by exists least.
    - destruct (Mimirs_HasSuperMajority _ _ _) as [v []] eqn:Hm; apply ret_ok in Ee as [-> ->]; (split; [done|]); [right|by left].
      by apply super_majority_spec in Hm. }
  destruct Hcar as [-> Hcar]. destruct (e <? 0) eqn:He; [by apply ret_ok in Hrun as [_ ->]; apply Hstay|].
  destruct (current =? e); [by apply ret_ok in Hrun as [_ ->]; apply Hstay|].
  destruct (Z.eqb_spec (mm_Value msg) e) as [<-|]; cbn [negb] in Hrun; [|by apply ret_ok in Hrun as [_ ->]; apply Hstay].
  run_step Hrun u s2 E2. apply chain_core_ok in E2 as (c & Hc & ->). apply modify_ok in Hc as ->.
  apply chain_core_ok in Hrun as (c & Hc & ->). apply modify_ok in Hc as ->.
  eexists. split; [reflexivity|]. split; [done|]. right. split; [done|]. destruct Hcar as [Hcar|Hcar]; [|done].
  apply Z.ltb_ge in He. lia.
Qed.

(** C15: A vote of a node records the vote and leaves those of the other nodes and on
    other keys.  It changes no mimir but the one voted on, and that one to the value
    voted, only when the votes then stored carry it: two thirds of the active
    nodes for the economy, the most votes and at least the configured number for the
    network's switches.  The voter's bond pays the fee, short of which the bond
    module loses what the bond did not have. *)
Theorem Mimir_Run_needs_votes ctx msg s s' :
  chain_nodes_ok s → Mimir_Run ctx msg s = (Ok (), s') →
  vote_recorded s s' (mm_Key msg) (mm_Value msg) (mm_Signer msg) ∧
  (chain_mimirs s' = chain_mimirs s ∨
   chain_mimirs s' = <[GetKey (mm_Key msg) := mm_Value msg]> (chain_mimirs s) ∧
   carried (chain_state_core s) s' (mm_Key msg) (mm_Value msg)) ∧
  chain_nodes_ok s' ∧
  ∃ cost, fst (GetNativeTxFee ctx (chain_state_core s)) = Ok cost ∧
    bond_surplus s' = bond_surplus s - Z.max 0 (cost - stored_bond s (mm_Signer msg)).
Proof.
  intros Hok Hrun. unfold Mimir_Run in Hrun. read_past Hrun u Ev. clear u Ev. unfold Mimir_handle in Hrun.
  destruct (versionMajor ctx <? 3); [done|]. read_past Hrun current Ec. clear Ec.
  run_step Hrun r s1 E. destruct r as [cost node].
  apply charge_vote_ok in E as (Hcost & [v ->] & Hm & Hok1 & Hsur); [|done].
  run_step Hrun u t0 E. destruct (SetNodeMimir_run (mm_Key msg) (mm_Value msg) (mm_Signer msg) (put_cs_vaults v s)) as (l & Hset & Hrec).
  rewrite Hset in E. injection E as <- <-. clear Hset.
  run_step Hrun u t1 E. apply chain_core_ok in E as (c1 & E & ->). apply modify_ok in E as ->. clear u.
  run_step Hrun u t2 E. apply chain_core_ok in E as (c1 & E & ->). apply modify_ok in E as ->. clear u.
  apply apply_votes_ok in Hrun as (c & -> & Hbank & Hmim). cbn in Hbank.
  destruct Hrec as [Ho Hot Hk]. split_and!.
  - split; [exact Ho|exact Hot|exact Hk].
  - unfold chain_mimirs in *. cbn in Hmim, Hm |- *. rewrite <- Hm. destruct Hmim as [->|[-> Hcar]]; [by left|right]. split; [done|].
    eapply carried_config; [|exact Hcar]. cbn. unfold chain_state_core in *. done.
  - exact Hok1.
  - exists cost. split; [done|]. rewrite <- Hsur. unfold bond_surplus, in_bond, module_switch. cbn. by rewrite Hbank.
Qed.

(** The chain's pause after a message: longer by the configured blocks, from now
    when it is not paused, or shorter. *)
Definition pause_after (ctx : Ctx) (value pauseHeight blocks : Z) : Z :=
  if 0 <? value then to_i64 (Z.max pauseHeight (BlockHeight ctx) + blocks)
  else if (value <? 0) && (BlockHeight ctx <? pauseHeight) then to_i64 (pauseHeight - blocks) else pauseHeight.

Definition pause_blocks (s : ChainState) : Z :=
  let blocks := default (-1) (chain_mimirs s !! GetKey "NodePauseChainBlocks") in
  if blocks <? 0 then GetInt64Value int64Overrides "NodePauseChainBlocks" else blocks.

(** A node that pauses the chain sets the height until which it is paused and is
    noted with the height of the block; until a vault is active since that block or
    later, no message of the node about the pause does anything. *)
Theorem node_pauses_once_per_churn ctx msg s s' :
  NodePauseChain_Run ctx msg s = (Ok (), s') → 0 < np_Value msg →
  chain_mimirs s' =
    <[GetKey "NodePauseChainGlobal" :=
        pause_after ctx (np_Value msg) (default (-1) (chain_mimirs s !! GetKey "NodePauseChainGlobal")) (pause_blocks s)]>
      (chain_mimirs s) ∧
  ∀ ctx2 msg2 s2 vs,
    nodePauses s2 !! GetKey (np_Signer msg) = nodePauses s' !! GetKey (np_Signer msg) → np_Signer msg2 = np_Signer msg →
    fst (GetAsgardVaultsByStatus ctx2 ActiveVault (cs_vaults s2)) = Ok vs → last_churn vs < BlockHeight ctx →
    fst (NodePauseChain_Run ctx2 msg2 s2) ≠ Ok () ∧ snd (NodePauseChain_Run ctx2 msg2 s2) = s2.
Proof.
  intros Hrun Hv. unfold NodePauseChain_Run in Hrun. read_past Hrun u Ev. clear u Ev. unfold NodePauseChain_handle in Hrun.
  destruct (versionMajor ctx <? 3); [done|]. read_past Hrun active Ea. read_past Hrun nodeHeight En. pass_guard Hrun.
  read_past Hrun pauseHeight Ep. read_past Hrun blocks Eb. cbv zeta in Hrun. apply Z.ltb_lt in Hv as Hv'. rewrite Hv' in Hrun.
  run_step Hrun h s1 E. run_step E u s2 E2. apply modify_ok in E2 as ->. apply ret_ok in E as [-> ->]. clear u.
  run_step Hrun u s3 E3. apply chain_core_ok in E3 as (c & E3 & ->). apply modify_ok in E3 as ->. clear u.
  apply chain_core_ok in Hrun as (c & E3 & ->). apply modify_ok in E3 as ->.
  rewrite chain_reads_fst in Ep. injection Ep as Ep.
  rewrite chain_reads_fst in Eb. injection Eb as Eb. split.
  - unfold pause_blocks, chain_mimirs. rewrite Ep, Eb. unfold pause_after. rewrite Hv'.
    destruct (Z.ltb_spec (BlockHeight ctx) pauseHeight) as [Hlt|Hge].
    + rewrite Z.max_l by lia. reflexivity.
    + rewrite Z.max_r by lia. reflexivity.
  - intros ctx2 msg2 s2 vs Hp Hsg Hvs Hch.
    unfold NodePauseChain_Run, mbind at 1, M_bind at 1. unfold mbind at 1, M_bind at 1.
    rewrite (reads_run (NodePauseChain_validate ctx2 msg2) s2) by eauto with reads.
    destruct (fst (NodePauseChain_validate ctx2 msg2 s2)); [|by split..].
    unfold NodePauseChain_handle. destruct (versionMajor ctx2 <? 3); [by split|].
    assert (E1 : in_vaults (GetAsgardVaultsByStatus ctx2 ActiveVault) s2 = (Ok vs, s2)).
    { rewrite (reads_run (in_vaults (GetAsgardVaultsByStatus ctx2 ActiveVault)) s2) by eauto with reads.
      f_equal. unfold in_vaults. by destruct (GetAsgardVaultsByStatus ctx2 ActiveVault (cs_vaults s2)). }
    assert (E2 : GetNodePauseChain (np_Signer msg2) s2 = (Ok (BlockHeight ctx), s2)).
    { unfold GetNodePauseChain, gets. rewrite Hsg, Hp. cbn. by rewrite lookup_insert_eq. }
    rewrite (M_bind_run _ _ _ _ _ E1), (M_bind_run _ _ _ _ _ E2).
    apply Z.ltb_lt in Hch. unfold mbind, M_bind, fail_when, lift, fail_if. rewrite Hch. by split.
Qed.
End MimirFacts.

(** ** Witnesses *)

#[local] Existing Instance plain_keys.

(** Of five nodes Alice, Bob and Erin want the trading halted by block 7. *)
Definition split_votes : NodeMimirs :=
  [mkNodeMimir "HALTTRADING" 7 "alice"; mkNodeMimir "HALTTRADING" 5 "carol"; mkNodeMimir "HALTTRADING" 6 "dave";
   mkNodeMimir "HALTTRADING" 7 "erin"].
Definition before_bob : ChainState (H0 := one_plan) := put_nodeMimirs {["HALTTRADING" := split_votes]} council_chain.
Definition bob_votes : MsgMimir := mkMsgMimir "HaltTrading" 7 "bob".
Definition after_bob : NodeMimirs := NodeMimirs_Set split_votes "HALTTRADING" 7 "bob".
Definition council_names : list string := ["alice"; "bob"; "carol"; "dave"; "erin"].

(** The same vote halts the trading on a node that meets the count of 7 first and
    not on one that meets the others first. *)
Lemma operational_value_depends_on_iteration_witness :
  (∃ I J : MapIteration,
     @ValueOfOperational I after_bob "HaltTrading" 3 council_names = 7 ∧
     @ValueOfOperational J after_bob "HaltTrading" 3 council_names = -1) ∧
  chain_mimirs (snd (@Mimir_Run _ _ _ _ (front_first (λ w, w = 7)) vault_block bob_votes before_bob)) !! "HALTTRADING" = Some 7 ∧
  chain_mimirs (snd (@Mimir_Run _ _ _ _ (front_first (λ w, w = 5 ∨ w = 6)) vault_block bob_votes before_bob)) !! "HALTTRADING" = None.
Proof.
  split; [|split; vm_compute; reflexivity].
  apply (operational_value_depends_on_iteration after_bob "HaltTrading" 3 council_names 7 5 6).
  1, 3, 6, 7: vm_compute; done.
  1, 3: vm_compute; congruence.
  assert (H7 : votes after_bob "HaltTrading" council_names 7 = 3) by (vm_compute; reflexivity).
  intros w Hw. rewrite H7. destruct (decide (0 < votes after_bob "HaltTrading" council_names w)) as [Hpos|Hn]; [|lia].
  pose proof (proj2 (vote_counts_spec "HaltTrading" council_names after_bob w _) (conj eq_refl Hpos)) as Hin.
  apply elem_of_map_to_list in Hin.
  assert (map_to_list (vote_counts after_bob "HaltTrading" council_names) = [(7, 3); (5, 1); (6, 1)]) as Hl by (vm_compute; reflexivity).
  rewrite Hl in Hin. apply elem_of_cons in Hin as [[= ? _]|Hin]; [done|].
  apply elem_of_cons in Hin as [[= _ ->]|Hin]; [lia|]. apply list_elem_of_singleton in Hin as [= _ ->]. lia.
Defined.

(** An economic vote of Bob, after those of Alice, Carol and Dave: four of five. *)
Definition bond_votes : NodeMimirs :=
  [mkNodeMimir "MINIMUMBONDINSWITCH" 9 "alice"; mkNodeMimir "MINIMUMBONDINSWITCH" 9 "carol"; mkNodeMimir "MINIMUMBONDINSWITCH" 9 "dave"].
Definition before_bond : ChainState (H0 := one_plan) := put_nodeMimirs {["MINIMUMBONDINSWITCH" := bond_votes]} council_chain.
Definition bond_vote : MsgMimir := mkMsgMimir "MinimumBondInSWITCH" 9 "bob".
Definition any_order : MapIteration := front_first (λ _, True).
#[local] Existing Instance any_order.

Lemma before_bond_ok : chain_nodes_ok before_bond.
Proof. exact council_ok. Defined.

Lemma Mimir_Run_needs_votes_witness :
  let s' := snd (Mimir_Run vault_block bond_vote before_bond) in
  chain_mimirs s' !! "MINIMUMBONDINSWITCH" = Some 9 ∧
  NodeMimirs_Get (node_votes s' "MinimumBondInSWITCH") "MinimumBondInSWITCH" "bob" = (9, true).
Proof.
  cbn zeta. assert (fst (Mimir_Run vault_block bond_vote before_bond) = Ok ()) as H by (vm_compute; reflexivity).
  destruct (Mimir_Run_needs_votes vault_block bond_vote before_bond (snd (Mimir_Run vault_block bond_vote before_bond))
    before_bond_ok (run_pair _ _ H)) as ([Hown _ _] & _). split; [vm_compute; reflexivity|apply Hown; vm_compute; discriminate].
Defined.

(** Alice pauses the chain for the configured blocks and cannot do it again. *)
Definition pause_msg : MsgNodePauseChain := mkMsgNodePauseChain 1 "alice".
Lemma node_pauses_once_per_churn_witness :
  let s' := snd (NodePauseChain_Run vault_block pause_msg before_bond) in
  chain_mimirs s' !! "NODEPAUSECHAINGLOBAL" = Some (9 + 720) ∧
  fst (NodePauseChain_Run vault_block (mkMsgNodePauseChain (-1) "alice") s') ≠ Ok ().
Proof.
  cbn zeta. assert (fst (NodePauseChain_Run vault_block pause_msg before_bond) = Ok ()) as H by (vm_compute; reflexivity).
  destruct (node_pauses_once_per_churn vault_block pause_msg before_bond (snd (NodePauseChain_Run vault_block pause_msg before_bond))
    (run_pair _ _ H) ltac:(vm_compute; reflexivity)) as [Hm Hagain]. split; [vm_compute; reflexivity|].
  apply (Hagain vault_block (mkMsgNodePauseChain (-1) "alice") _ []); [reflexivity|reflexivity|vm_compute; reflexivity|vm_compute; reflexivity].
Defined.
