(* ===== verification/Upgrades.v ===== *)
(** * Upgrades by vote

    src/x/switchly/keeper/v1/keeper_upgrade.go, handler_upgrade.go and
    types/msg_upgrade.go: proposals, their votes, and the plan of the SDK's
    upgrade module.  The votes on a proposal are stored under its name, a slash and
    the voter. *)

From Stdlib Require Import Ascii.
From S2P Require Import Prelude Runs GoStrings GoNumbers CosmosMath Amounts Assets Coins Constants State Txs Halts Fees Nodes Quorum ObservedTx Attest SwapHandler Vaults Gas Layers Slasher ChainState.
Open Scope Z_scope.

(** The versions that package semver reads. *)
Class Semver := { semver_parses : string → bool }.

Section Upgrades.
  Context `{CosmosMath} `{Bank} `{Env} `{!PubKeys} `{UpgradeKeeper} `{!Semver}.
Abbreviation C := (M ChainState).

(** ** The keeper *)

Definition VotePrefix (name : string) : string := name +:+ "/".
Definition vote_key (name addr : string) : string := VotePrefix name +:+ addr.
(** The rest of a text after a prefix. *)
Fixpoint after_prefix (prefix s : string) : option string :=
  match prefix, s with
  | EmptyString, _ => Some s
  | String c p, String d t => if Ascii.eqb c d then after_prefix p t else None
  | _, _ => None
  end.

Definition GetUpgradePlan : C (option Plan) := gets (λ s, upgrade_plan (upgradeModule s)).
Definition ScheduleUpgrade (ctx : Ctx) (plan : Plan) : C () := in_upgrades (upgrade_schedule ctx plan).
Definition ClearUpgradePlan : C () := _ ← attempt (in_upgrades upgrade_clear); mret ().

Definition ProposeUpgrade (name : string) (upgrade : UpgradeProposal) : C () :=
  modify (λ s, put_upgradeProposals (<[name := upgrade]> (upgradeProposals s)) s).
Definition GetProposedUpgrade (name : string) : C (option UpgradeProposal) := gets (λ s, upgradeProposals s !! name).

Definition GetUpgradeVote (addr name : string) : C bool :=
  v ← gets (λ s, upgradeVotes s !! vote_key name addr);
  match v with None => throw "no vote found on proposal" | Some b => mret b end.
Definition set_vote (b : bool) (addr name : string) : C () :=
  modify (λ s, put_upgradeVotes (<[vote_key name addr := b]> (upgradeVotes s)) s).
Definition ApproveUpgrade : string → string → C () := set_vote true.
Definition RejectUpgrade : string → string → C () := set_vote false.

(** The voters on a name, as the iterator over the prefix meets them. *)
Definition voters_on (s : ChainState) (name : string) : list (string * bool) :=
  omap (λ '(key, vote), (λ addr, (addr, vote)) <$> after_prefix (VotePrefix name) key) (map_to_list (upgradeVotes s)).

Definition removeExpiredUpgradeProposalVotes (name : string) : C () :=
  modify (λ s, put_upgradeVotes
    (filter (λ '(key, _), after_prefix (VotePrefix name) key = None) (upgradeVotes s)) s).
(** The name is read off the key, after its last slash. *)
Definition name_of_key (key : string) : string := List.last (Split "/" ("upgr_props/" +:+ key)) "".
Definition remove_expired (ctx : Ctx) (entry : string * UpgradeProposal) : C () :=
  let '(key, upgrade) := entry in
  if BlockHeight ctx <=? up_Height upgrade then mret ()
  else
    _ ← removeExpiredUpgradeProposalVotes (name_of_key key);
    modify (λ s, put_upgradeProposals (delete key (upgradeProposals s)) s).
Definition RemoveExpiredUpgradeProposals (ctx : Ctx) : C () :=
  entries ← gets (λ s, map_to_list (upgradeProposals s));
  for_each (remove_expired ctx) entries.

(** ** The quorum *)

Record UpgradeQuorum := mkUpgradeQuorum { Approved : bool; ApprovingVals : Z; TotalActive : Z; NeededForQuorum : Z }.

(** Two thirds of the active validators.  The code compares in floating point, which
    for fewer than 2^50 validators gives the same answers. *)
Definition UpgradeApprovedByMajority (name : string) : C UpgradeQuorum :=
  activeVals ← chain_obs ListActiveValidators;
  let active := remove_dups (NodeAddress <$> activeVals) in
  let totalActive := len active in
  voters ← gets (λ s, voters_on s name);
  let approvingVals := len (List.filter (λ '(addr, vote), vote && bool_decide (addr ∈ active)) voters) in
  mret (if 2 * totalActive <=? 3 * approvingVals then mkUpgradeQuorum true approvingVals totalActive 0
        else mkUpgradeQuorum false approvingVals totalActive ((2 * totalActive - 3 * approvingVals + 2) / 3)).

Definition scheduleUpgradeIfNecessary (ctx : Ctx) (name : string) : C () :=
  plan ← GetUpgradePlan;
  if bool_decide (plan_Name <$> plan = Some name) then mret ()
  else
    u ← GetProposedUpgrade name;
    match u with
    | None => throw "upgrade proposal not found"
    | Some u =>
        uq ← UpgradeApprovedByMajority name;
        if Approved uq then
          _ ← fail_when (bool_decide (is_Some plan)) "a different upgrade is already scheduled";
          ScheduleUpgrade ctx (mkPlan name (up_Height u) (up_Info u))
        else mret ()
    end.
Definition clearUpgradeIfNecessary (name : string) : C () :=
  plan ← GetUpgradePlan;
  if bool_decide (plan_Name <$> plan = Some name) then
    uq ← UpgradeApprovedByMajority name;
    if Approved uq then mret () else ClearUpgradePlan
  else mret ().

(** ** Messages *)

Record MsgProposeUpgrade := mkMsgProposeUpgrade { mp_Name : string; mp_Upgrade : Upgrade; mp_Signer : string }.
(** Approvals and rejections have the same fields. *)
Record MsgVoteUpgrade := mkMsgVoteUpgrade { mv_Name : string; mv_Signer : string }.

Definition ProposeUpgrade_ValidateBasic (m : MsgProposeUpgrade) : option error :=
  if bool_decide (mp_Signer m = "") then Some "invalid address"
  else if (String.length (mp_Name m) =? 0)%nat then Some "name cannot be empty"
  else if (100 <? String.length (mp_Name m))%nat then Some "name cannot be longer than 100 characters"
  else if negb (semver_parses (mp_Name m)) then Some "name is not a valid semver"
  else if (2500 <? Z.of_nat (String.length (ug_Info (mp_Upgrade m)))) then Some "info cannot be longer than 2500 characters"
  else if ug_Height (mp_Upgrade m) =? 0 then Some "height cannot be zero"
  else None.
Definition VoteUpgrade_ValidateBasic (m : MsgVoteUpgrade) : option error :=
  if bool_decide (mv_Signer m = "") then Some "invalid address"
  else if bool_decide (mv_Name m = "") then Some "name cannot be empty"
  else None.

Definition maxProposalCount : Z := 3.
Definition proposals_by (s : ChainState) (signer : string) : Z :=
  len (List.filter (λ '(_, u), bool_decide (up_Proposer u = signer)) (map_to_list (upgradeProposals s))).

Definition ProposeUpgrade_validate (ctx : Ctx) (msg : MsgProposeUpgrade) : C () :=
  _ ← check (ProposeUpgrade_ValidateBasic msg);
  ok ← chain_obs (signedByActiveNodeAccount ctx (mp_Signer msg));
  _ ← fail_when (negb ok) "unauthorized";
  _ ← fail_when (ug_Height (mp_Upgrade msg) <=? BlockHeight ctx) "upgrade height must be in the future";
  u ← GetProposedUpgrade (mp_Name msg);
  _ ← fail_when (bool_decide (is_Some u)) "upgrade proposal already exists";
  count ← gets (λ s, proposals_by s (mp_Signer msg));
  fail_when (maxProposalCount <=? count) "exceeded maximum number of upgrade proposals".
Definition ProposeUpgrade_handle (ctx : Ctx) (msg : MsgProposeUpgrade) : C () :=
  let u := mp_Upgrade msg in
  _ ← ProposeUpgrade (mp_Name msg) (mkUpgradeProposal (ug_Height u) (ug_Info u) (mp_Signer msg));
  _ ← ApproveUpgrade (mp_Signer msg) (mp_Name msg);
  scheduleUpgradeIfNecessary ctx (mp_Name msg).
Definition ProposeUpgrade_Run (ctx : Ctx) (msg : MsgProposeUpgrade) : C () :=
  _ ← ProposeUpgrade_validate ctx msg; ProposeUpgrade_handle ctx msg.

(** A vote is for a proposal there is, and must change the voter's. *)
Definition VoteUpgrade_validate (refused : bool + error → bool) (ctx : Ctx) (msg : MsgVoteUpgrade) : C () :=
  _ ← check (VoteUpgrade_ValidateBasic msg);
  ok ← chain_obs (signedByActiveNodeAccount ctx (mv_Signer msg));
  _ ← fail_when (negb ok) "unauthorized";
  u ← GetProposedUpgrade (mv_Name msg);
  _ ← fail_when (bool_decide (u = None)) "upgrade proposal does not exist";
  v ← attempt (GetUpgradeVote (mv_Signer msg) (mv_Name msg));
  fail_when (refused v) "upgrade already approved or rejected".
Definition ApproveUpgrade_validate : Ctx → MsgVoteUpgrade → C () :=
  VoteUpgrade_validate (λ v, match v with inl b => b | inr _ => false end).
Definition RejectUpgrade_validate : Ctx → MsgVoteUpgrade → C () :=
  VoteUpgrade_validate (λ v, match v with inl b => negb b | inr _ => false end).
Definition ApproveUpgrade_handle (ctx : Ctx) (msg : MsgVoteUpgrade) : C () :=
  _ ← ApproveUpgrade (mv_Signer msg) (mv_Name msg);
  scheduleUpgradeIfNecessary ctx (mv_Name msg).
Definition RejectUpgrade_handle (msg : MsgVoteUpgrade) : C () :=
  _ ← RejectUpgrade (mv_Signer msg) (mv_Name msg);
  clearUpgradeIfNecessary (mv_Name msg).
Definition ApproveUpgrade_Run (ctx : Ctx) (msg : MsgVoteUpgrade) : C () :=
  _ ← ApproveUpgrade_validate ctx msg; ApproveUpgrade_handle ctx msg.
Definition RejectUpgrade_Run (ctx : Ctx) (msg : MsgVoteUpgrade) : C () :=
  _ ← RejectUpgrade_validate ctx msg; RejectUpgrade_handle msg.

Inductive UpgradeMsg := UpgradePropose (m : MsgProposeUpgrade) | UpgradeApprove (m : MsgVoteUpgrade) | UpgradeReject (m : MsgVoteUpgrade).
Definition upgrade_name (m : UpgradeMsg) : string :=
  match m with UpgradePropose m => mp_Name m | UpgradeApprove m | UpgradeReject m => mv_Name m end.
Definition upgrade_signer (m : UpgradeMsg) : string :=
  match m with UpgradePropose m => mp_Signer m | UpgradeApprove m | UpgradeReject m => mv_Signer m end.
Definition Upgrade_Run (ctx : Ctx) (m : UpgradeMsg) : C () :=
  match m with
  | UpgradePropose m => ProposeUpgrade_Run ctx m
  | UpgradeApprove m => ApproveUpgrade_Run ctx m
  | UpgradeReject m => RejectUpgrade_Run ctx m
  end.
End Upgrades.

(** ** Facts *)

Lemma after_prefix_some p s a : after_prefix p s = Some a ↔ s = p +:+ a.
Proof.
  revert s. induction p as [|c p IH]; intros s.
  { rewrite app_nil. destruct s; cbn; split; congruence. }
  destruct s as [|d s]; rewrite app_cons; cbn; [done|].
  destruct (Ascii.eqb_spec c d) as [->|Hne]; [rewrite IH|]; split; congruence.
Qed.

Section UpgradeFacts.
  Context `{CosmosMath} `{Bank} `{Env} `{!PubKeys} `{UpgradeKeeper} `{!Semver}.

Definition the_plan (s : ChainState) : option Plan := upgrade_plan (upgradeModule s).
Definition active_validators (s : ChainState) : list string :=
  match fst (ListActiveValidators (chain_state_obs s)) with Ok nas => remove_dups (NodeAddress <$> nas) | _ => [] end.
Definition approves (s : ChainState) (name addr : string) : Prop := upgradeVotes s !! vote_key name addr = Some true.
#[export] Instance approves_dec s name addr : Decision (approves s name addr).
Proof. unfold approves. apply _. Defined.
(** The active validators that approve. *)
Definition approvals (s : ChainState) (name : string) : Z := len (filter (approves s name) (active_validators s)).
(** Two thirds of them, as the votes are. *)
Definition has_quorum (s : ChainState) (name : string) : Prop := 2 * len (active_validators s) ≤ 3 * approvals s name.

Lemma filter_length_perm {A} (f : A → bool) l l' : l ≡ₚ l' → length (List.filter f l) = length (List.filter f l').
Proof. induction 1; cbn; repeat case_match; cbn; congruence. Qed.

Lemma voters_on_elem s name addr b : (addr, b) ∈ voters_on s name ↔ upgradeVotes s !! vote_key name addr = Some b.
Proof.
  unfold voters_on. rewrite list_elem_of_omap. split.
  - intros ([key vote] & Hin & Hk). apply elem_of_map_to_list in Hin. apply fmap_Some in Hk as (a & Hp & [= <- <-]).
    apply after_prefix_some in Hp as ->. done.
  - intros Hl. exists (vote_key name addr, b). split; [by apply elem_of_map_to_list|].
    apply fmap_Some. exists addr. split; [|done]. by apply after_prefix_some.
Qed.

Lemma NoDup_omap_inj {A B} (f : A → option B) (l : list A) :
  (∀ x y b, f x = Some b → f y = Some b → x = y) → base.NoDup l → base.NoDup (omap f l).
Proof.
  intros Hinj Hl. induction Hl as [|x l Hx Hl IH]; cbn; [apply NoDup_nil_2|].
  destruct (f x) as [b|] eqn:Hf; [|done]. apply base.NoDup_cons_2; [|done].
  rewrite list_elem_of_omap. intros (y & Hy & Hfy). by rewrite (Hinj x y b Hf Hfy) in Hx.
Qed.
Lemma voters_on_distinct s name : base.NoDup (voters_on s name).
Proof.
  apply NoDup_omap_inj; [|apply NoDup_map_to_list].
  intros [k v] [k' v'] [a b] (x & Hx & [= -> ->])%fmap_Some (y & Hy & [= -> ->])%fmap_Some.
  apply after_prefix_some in Hx as ->. apply after_prefix_some in Hy as ->. done.
Qed.

Lemma approving_counted s name :
  len (List.filter (λ '(addr, vote), vote && bool_decide (addr ∈ active_validators s)) (voters_on s name)) = approvals s name.
Proof.
  unfold approvals, len. f_equal. rewrite <- (length_fmap (λ a, (a, true)) (filter (approves s name) (active_validators s))).
  apply Permutation_length, NoDup_Permutation.
  - apply NoDup_ListNoDup, List.NoDup_filter, NoDup_ListNoDup, voters_on_distinct.
  - apply NoDup_fmap_2; [by intros x y [=]|]. apply list.NoDup_filter. unfold active_validators. destruct (fst _); [apply NoDup_remove_dups|apply NoDup_nil_2..].
  - intros [a b]. rewrite list_elem_of_In, filter_In, <- list_elem_of_In, voters_on_elem, andb_true_iff, bool_decide_eq_true, list_elem_of_fmap.
    unfold approves. split.
    + intros (Hv & -> & Ha). exists a. split; [done|]. by apply list_elem_of_filter.
    + intros (x & [= -> ->] & [Hv Ha]%list_elem_of_filter). done.
Qed.

Lemma UpgradeApprovedByMajority_run name s :
  ∃ uq, UpgradeApprovedByMajority name s = (Ok uq, s) ∧ (Approved uq = true ↔ has_quorum s name) ∧
    ApprovingVals uq = approvals s name ∧ TotalActive uq = len (active_validators s).
Proof.
  unfold UpgradeApprovedByMajority.
  assert (E : chain_obs ListActiveValidators s = (Ok (match fst (ListActiveValidators (chain_state_obs s)) with Ok l => l | _ => [] end), s)).
  { rewrite (reads_run (chain_obs ListActiveValidators) s) by (apply only_reads_chain_obs; done). by rewrite chain_obs_fst. }
  rewrite (M_bind_run _ _ _ _ _ E). cbv zeta. unfold mbind, M_bind, gets, mret, M_ret.
  change (remove_dups (NodeAddress <$> _)) with (active_validators s). rewrite approving_counted.
  destruct (Z.leb_spec (2 * len (active_validators s)) (3 * approvals s name)) as [Hq|Hq];
    eexists; (split; [reflexivity|]); split_and!; try done.
  split; [done|]. intros Hge. unfold has_quorum in Hge. lia.
Qed.

(** What the stores of proposals and votes are after a message. *)
Definition is_rejection (m : UpgradeMsg) : bool := match m with UpgradeReject _ => true | _ => false end.
Definition proposals_after (m : UpgradeMsg) (s : ChainState) : gmap string UpgradeProposal :=
  match m with
  | UpgradePropose m => <[mp_Name m := mkUpgradeProposal (ug_Height (mp_Upgrade m)) (ug_Info (mp_Upgrade m)) (mp_Signer m)]> (upgradeProposals s)
  | _ => upgradeProposals s
  end.
Definition voted (m : UpgradeMsg) (s : ChainState) : ChainState :=
  put_upgradeVotes (<[vote_key (upgrade_name m) (upgrade_signer m) := negb (is_rejection m)]> (upgradeVotes s))
    (put_upgradeProposals (proposals_after m s) s).

(** A plan is due when an approval or a proposal reaches the quorum and there is no
    plan for the name, and undone when a rejection of what is planned leaves none. *)
Definition plan_due (rejected : bool) (name : string) (s s' : ChainState) : Prop :=
  rejected = false ∧ plan_Name <$> the_plan s ≠ Some name ∧ has_quorum s' name.
Definition plan_undone (rejected : bool) (name : string) (s s' : ChainState) : Prop :=
  rejected = true ∧ plan_Name <$> the_plan s = Some name ∧ ¬ has_quorum s' name.
(** What a message does to the plan. *)
Inductive plan_step (rejected : bool) (name : string) (s s' : ChainState) : Prop :=
  | Plan_kept : ¬ plan_due rejected name s s' → ¬ plan_undone rejected name s s' → upgradeModule s' = upgradeModule s →
      plan_step rejected name s s'
  | Plan_made u : plan_due rejected name s s' → the_plan s = None → upgradeProposals s' !! name = Some u →
      the_plan s' = Some (mkPlan name (up_Height u) (up_Info u)) → plan_step rejected name s s'
  | Plan_dropped : plan_undone rejected name s s' → the_plan s' = None → plan_step rejected name s s'
  | Plan_stuck e : plan_undone rejected name s s' → fst (upgrade_clear (upgradeModule s)) = Err e →
      upgradeModule s' = upgradeModule s → plan_step rejected name s s'.

Lemma in_upgrades_ok {A} (m : M upgrade_state A) s a s' :
  in_upgrades m s = (Ok a, s') → ∃ u, m (upgradeModule s) = (Ok a, u) ∧ s' = put_upgradeModule u s.
Proof. unfold in_upgrades. destruct (m (upgradeModule s)) as [r u]. intros [= -> <-]. by exists u. Qed.

Lemma module_same (s : ChainState) : s = put_upgradeModule (upgradeModule s) s.
Proof. by destruct s. Qed.
Lemma schedule_step ctx name s s' :
  scheduleUpgradeIfNecessary ctx name s = (Ok (), s') → s' = put_upgradeModule (upgradeModule s') s ∧ plan_step false name s s'.
Proof.
  intros Hrun. unfold scheduleUpgradeIfNecessary in Hrun. run_step Hrun plan s1 E. injection E as <- <-.
  fold (the_plan s) in Hrun. case_bool_decide as Hp.
  { apply ret_ok in Hrun as [_ ->]. split; [apply module_same|]. by apply Plan_kept; [intros (_ & ? & _)|intros [? _]|]. }
  run_step Hrun u s1 E. injection E as <- <-. destruct (upgradeProposals s !! name) as [u|] eqn:Hu; [|done].
  destruct (UpgradeApprovedByMajority_run name s) as (uq & E & Hq & _). rewrite (M_bind_run _ _ _ _ _ E) in Hrun.
  destruct (Approved uq) eqn:Ha.
  - pass_guard Hrun. apply bool_decide_eq_false in Hg. apply eq_None_not_Some in Hg.
    apply in_upgrades_ok in Hrun as (m & Hs & ->). apply upgrade_schedule_law in Hs. split; [done|].
    apply (Plan_made _ _ _ _ u); [|done..]. split; [done|]. split; [done|]. by apply Hq.
  - apply ret_ok in Hrun as [_ ->]. split; [apply module_same|].
    apply Plan_kept; [|by intros [? _]|done]. intros (_ & _ & ?%Hq). done.
Qed.

Lemma clear_step name s s' :
  clearUpgradeIfNecessary name s = (Ok (), s') → s' = put_upgradeModule (upgradeModule s') s ∧ plan_step true name s s'.
Proof.
  intros Hrun. unfold clearUpgradeIfNecessary in Hrun. run_step Hrun plan s1 E. injection E as <- <-.
  fold (the_plan s) in Hrun. case_bool_decide as Hp.
  2: { apply ret_ok in Hrun as [_ ->]. split; [apply module_same|]. by apply Plan_kept; [intros [? _]|intros (_ & ? & _)|]. }
  destruct (UpgradeApprovedByMajority_run name s) as (uq & E & Hq & _). rewrite (M_bind_run _ _ _ _ _ E) in Hrun.
  destruct (Approved uq) eqn:Ha.
  { apply ret_ok in Hrun as [_ ->]. split; [apply module_same|]. apply Plan_kept; [by intros [? _]| |done].
    intros (_ & _ & Hnq). by apply Hnq, Hq. }
  assert (Hundone : ∀ m, plan_undone true name s (put_upgradeModule m s)).
  { intros m. split; [done|]. split; [done|]. intros Hge. apply Hq in Hge. congruence. }
  unfold ClearUpgradePlan in Hrun. run_step Hrun r s1 Er. apply ret_ok in Hrun as [_ ->].
  unfold attempt, in_upgrades in Er. destruct (upgrade_clear (upgradeModule s)) as [[[]|e|] m] eqn:Hc; [| |done]; injection Er as _ <-.
  - split; [done|]. apply upgrade_clear_law in Hc. by apply Plan_dropped.
  - split; [done|]. apply (Plan_stuck _ _ _ _ e); [apply Hundone|by rewrite Hc|]. by apply upgrade_clear_fails in Hc as ->.
Qed.

Lemma plan_step_from rejected s1 s s' name :
  upgradeModule s1 = upgradeModule s → plan_step rejected name s1 s' → plan_step rejected name s s'.
Proof.
  intros Heq. assert (Hp : the_plan s1 = the_plan s) by (unfold the_plan; congruence).
  assert (Hd : plan_due rejected name s1 s' ↔ plan_due rejected name s s') by (unfold plan_due; by rewrite Hp).
  assert (Hu : plan_undone rejected name s1 s' ↔ plan_undone rejected name s s') by (unfold plan_undone; by rewrite Hp).
  intros [Hk Hk2 Hs|u Hn Hu' Hp' Hq|Hn Hp'|e Hn He Hs].
  - apply Plan_kept; [by rewrite <- Hd|by rewrite <- Hu|congruence].
  - apply (Plan_made _ _ _ _ u); [by apply Hd|congruence|done..].
  - apply Plan_dropped; [by apply Hu|done].
  - apply (Plan_stuck _ _ _ _ e); [by apply Hu|by rewrite <- Heq|congruence].
Qed.

Lemma reads_signed ctx signer : only_reads (signedByActiveNodeAccount ctx signer).
Proof. unfold signedByActiveNodeAccount. apply only_reads_bind; [done|intros na; done]. Qed.
Lemma reads_vote addr name : only_reads (GetUpgradeVote addr name).
Proof. unfold GetUpgradeVote. reads. Qed.
#[local] Hint Resolve reads_signed reads_vote : reads.

Lemma Propose_validate_ok ctx msg s s' :
  ProposeUpgrade_validate ctx msg s = (Ok (), s') → s' = s ∧
  fst (signedByActiveNodeAccount ctx (mp_Signer msg) (chain_state_obs s)) = Ok true ∧
  upgradeProposals s !! mp_Name msg = None ∧ proposals_by s (mp_Signer msg) < maxProposalCount ∧
  BlockHeight ctx < ug_Height (mp_Upgrade msg) ∧ semver_parses (mp_Name msg) = true.
Proof.
  intros Hrun. unfold ProposeUpgrade_validate in Hrun. read_past Hrun u0 E.
  assert (Hsem : semver_parses (mp_Name msg) = true).
  { unfold check, ProposeUpgrade_ValidateBasic in E. repeat case_match; try done. by destruct (semver_parses _). }
  read_past Hrun ok Eo. rewrite chain_obs_fst in Eo. pass_guard Hrun. pass_guard Hrun.
  read_past Hrun u Eu. injection Eu as <-. pass_guard Hrun. read_past Hrun n En. injection En as <-.
  apply fail_when_ok in Hrun as [Hc ->]. destruct ok; [|done].
  split_and!; [done|done| | | |done].
  - apply bool_decide_eq_false in Hg1. by apply eq_None_not_Some.
  - by apply Z.leb_gt in Hc.
  - by apply Z.leb_gt in Hg0.
Qed.
Lemma Vote_validate_ok refused ctx msg s s' :
  VoteUpgrade_validate refused ctx msg s = (Ok (), s') → s' = s ∧
  fst (signedByActiveNodeAccount ctx (mv_Signer msg) (chain_state_obs s)) = Ok true ∧
  is_Some (upgradeProposals s !! mv_Name msg) ∧
  ∀ b, upgradeVotes s !! vote_key (mv_Name msg) (mv_Signer msg) = Some b → refused (inl b) = false.
Proof.
  intros Hrun. unfold VoteUpgrade_validate in Hrun. read_past Hrun u E. clear u E.
  read_past Hrun ok Eo. rewrite chain_obs_fst in Eo. pass_guard Hrun. read_past Hrun u Eu. pass_guard Hrun.
  injection Eu as <-. apply bool_decide_eq_false in Hg0.
  read_past Hrun v Ev. apply fail_when_ok in Hrun as [Hr ->]. destruct ok; [|done]. split_and!; [done|done|by apply not_eq_None_Some|].
  intros b Hb. unfold attempt, GetUpgradeVote, mbind, M_bind, gets in Ev. rewrite Hb in Ev. injection Ev as <-. exact Hr.
Qed.

(** C16: A message about an upgrade is that of an active validator.  It records that
    validator's vote on the name, which must be a new one, with the proposal when it
    makes one, and changes nothing else but the plan.  A plan is made just when a
    proposal or an approval of a name that is not planned has the votes of two thirds
    of the active validators, for the proposal of the name and never in place of
    another; it is dropped just when a rejection of what is planned leaves it without
    them, unless the module of upgrades fails to. *)
Theorem upgrade_plans_need_two_thirds ctx m s s' :
  Upgrade_Run ctx m s = (Ok (), s') →
  fst (signedByActiveNodeAccount ctx (upgrade_signer m) (chain_state_obs s)) = Ok true ∧
  match m with
  | UpgradePropose m => upgradeProposals s !! mp_Name m = None ∧ BlockHeight ctx < ug_Height (mp_Upgrade m)
  | _ => is_Some (upgradeProposals s !! upgrade_name m) ∧
      upgradeVotes s !! vote_key (upgrade_name m) (upgrade_signer m) ≠ Some (negb (is_rejection m))
  end ∧
  s' = put_upgradeModule (upgradeModule s') (voted m s) ∧
  plan_step (is_rejection m) (upgrade_name m) s s'.
Proof.
  intros Hrun. destruct m as [m|m|m]; cbn [upgrade_name upgrade_signer is_rejection negb] in *; run_step Hrun u s1 E; destruct u.
  - apply Propose_validate_ok in E as (-> & Hs & Hnew & _ & Hh & _). unfold ProposeUpgrade_handle in Hrun.
    run_step Hrun u s1 E. apply modify_ok in E as ->. run_step Hrun u1 s1 E. apply modify_ok in E as ->.
    apply schedule_step in Hrun as [Hp Hst]. split_and!; [done..|exact Hp|]. by eapply plan_step_from; [|exact Hst].
  - apply Vote_validate_ok in E as (-> & Hs & Hex & Hv). unfold ApproveUpgrade_handle in Hrun.
    run_step Hrun u s1 E. apply modify_ok in E as ->.
    apply schedule_step in Hrun as [Hp Hst]. split_and!; [done|done|by intros ?%Hv| |by eapply plan_step_from; [|exact Hst]].
    rewrite Hp at 1. by destruct s.
  - apply Vote_validate_ok in E as (-> & Hs & Hex & Hv). unfold RejectUpgrade_handle in Hrun.
    run_step Hrun u s1 E. apply modify_ok in E as ->.
    apply clear_step in Hrun as [Hp Hst]. split_and!; [done|done|by intros ?%Hv| |by eapply plan_step_from; [|exact Hst]].
    rewrite Hp at 1. by destruct s.
Qed.

(** No validator has more than three proposals. *)
Theorem proposals_stay_few ctx m s s' :
  Upgrade_Run ctx m s = (Ok (), s') → (∀ who, proposals_by s who ≤ maxProposalCount) → ∀ who, proposals_by s' who ≤ maxProposalCount.
Proof.
  intros Hrun Hfew who. destruct m as [m|m|m]; run_step Hrun u s1 E; destruct u.
  - apply Propose_validate_ok in E as (-> & _ & Hnew & Hlt & _). unfold ProposeUpgrade_handle in Hrun.
    run_step Hrun u s1 E. apply modify_ok in E as ->. run_step Hrun u1 s1 E. apply modify_ok in E as ->.
    apply schedule_step in Hrun as [Hs _]. assert (Hp := f_equal upgradeProposals Hs). clear Hs. specialize (Hfew who). revert Hfew Hlt. unfold proposals_by, len. rewrite Hp. cbn [upgradeProposals put_upgradeVotes put_upgradeProposals put_upgradeModule].
    set (up := mkUpgradeProposal _ _ _). rewrite (filter_length_perm _ _ _ (map_to_list_insert _ _ up Hnew)).
    cbn. case_bool_decide; cbn [length]; subst; lia.
  - apply Vote_validate_ok in E as (-> & _). unfold ApproveUpgrade_handle in Hrun.
    run_step Hrun u s1 E. apply modify_ok in E as ->.
    apply schedule_step in Hrun as [Hs _]. rewrite Hs. apply Hfew.
  - apply Vote_validate_ok in E as (-> & _). unfold RejectUpgrade_handle in Hrun.
    run_step Hrun u s1 E. apply modify_ok in E as ->.
    apply clear_step in Hrun as [Hs _]. rewrite Hs. apply Hfew.
Qed.

(** ** Expired proposals *)

Lemma name_of_key_plain key : without "/" key → name_of_key key = key.
Proof.
  intros Hk. unfold name_of_key. change ("upgr_props/" +:+ key) with ("upgr_props" +:+ String "/" key).
  by rewrite Split_cons, Split_without.
Qed.
Lemma vote_prefix_inj n1 n2 a1 a2 : without "/" n1 → without "/" n2 → vote_key n1 a1 = vote_key n2 a2 → n1 = n2 ∧ a1 = a2.
Proof.
  unfold vote_key, VotePrefix, without. intros Hn1 Hn2 Heq.
  assert (E : ∀ n a, (n +:+ "/") +:+ a = n +:+ String "/" a) by (intros n a; by rewrite str_app_assoc).
  rewrite !E in Heq. assert (split_first (is_char "/") (n1 +:+ String "/" a1) = split_first (is_char "/") (n2 +:+ String "/" a2)) as Hs by by rewrite Heq.
  rewrite !split_first_app in Hs by done. by injection Hs.
Qed.

(** What the removal of a list of proposals leaves. *)
Lemma remove_expired_run ctx entries s :
  ∃ s', for_each (remove_expired ctx) entries s = (Ok (), s') ∧
    cs_vaults s' = cs_vaults s ∧ the_plan s' = the_plan s ∧
    (∀ name u, upgradeProposals s' !! name = Some u ↔
       upgradeProposals s !! name = Some u ∧ ∀ u0, (name, u0) ∈ entries → BlockHeight ctx ≤ up_Height u0) ∧
    ∀ key b, upgradeVotes s' !! key = Some b ↔ upgradeVotes s !! key = Some b ∧
       ∀ name u0, (name, u0) ∈ entries → up_Height u0 < BlockHeight ctx → after_prefix (VotePrefix (name_of_key name)) key = None.
Proof.
  revert s. induction entries as [|[k u] l IH]; intros s.
  { exists s. split_and!; [done|done|done|..].
    - intros name u. split; [intros Hl; split; [done|]; by intros u0 ?%elem_of_nil|by intros [? _]].
    - intros key b. split; [intros Hl; split; [done|]; by intros name u0 ?%elem_of_nil|by intros [? _]]. }
  cbn [for_each]. destruct (Z.leb_spec (BlockHeight ctx) (up_Height u)) as [Hle|Hlt].
  - assert (E : remove_expired ctx (k, u) s = (Ok (), s)) by (unfold remove_expired; by rewrite (proj2 (Z.leb_le _ _) Hle)).
    rewrite (M_bind_run _ _ _ _ _ E).
    destruct (IH s) as (s' & Hrun & Hv & Hpl & Hp & Hvo). exists s'. split_and!; [exact Hrun|done|done|..].
    + intros name w. rewrite Hp. split; intros [Hl Hall]; (split; [done|]); intros u0 Hin; [|apply Hall; by apply list_elem_of_further].
      apply elem_of_cons in Hin as [[= -> ->]|Hin]; [done|by apply Hall].
    + intros key b. rewrite Hvo. split; intros [Hl Hall]; (split; [done|]); intros name u0 Hin Hex; [|eapply Hall; [by apply list_elem_of_further|done]].
      apply elem_of_cons in Hin as [[= -> ->]|Hin]; [lia|by eapply Hall].
  - set (s1 := snd (remove_expired ctx (k, u) s)).
    assert (E : remove_expired ctx (k, u) s = (Ok (), s1)) by (unfold s1, remove_expired; by rewrite (proj2 (Z.leb_gt _ _) Hlt)).
    rewrite (M_bind_run _ _ _ _ _ E). clear E.
    assert (Hs1 : s1 = put_upgradeProposals (delete k (upgradeProposals s)) (put_upgradeVotes
      (filter (λ '(key, _), after_prefix (VotePrefix (name_of_key k)) key = None) (upgradeVotes s)) s))
      by (unfold s1, remove_expired; by rewrite (proj2 (Z.leb_gt _ _) Hlt)). clearbody s1.
    destruct (IH s1) as (s' & Hrun & Hv & Hpl & Hp & Hvo). exists s'. split_and!; [exact Hrun|by rewrite Hv, Hs1|by rewrite Hpl, Hs1|..].
    + intros name w. rewrite Hp, Hs1. cbn. rewrite lookup_delete_Some. split.
      * intros [[Hne Hl] Hall]. split; [done|]. intros u0 Hin. apply elem_of_cons in Hin as [[= -> ->]|Hin]; [done|by apply Hall].
      * intros [Hl Hall]. split; [split; [|done]|].
        -- intros <-. specialize (Hall u (list_elem_of_here _ _)). lia.
        -- intros u0 Hin. apply Hall. by apply list_elem_of_further.
    + intros key b. rewrite Hvo, Hs1. cbn. rewrite map_lookup_filter_Some. split.
      * intros [[Hl Hk] Hall]. split; [done|]. intros name u0 Hin Hex.
        apply elem_of_cons in Hin as [[= -> ->]|Hin]; [done|by eapply Hall].
      * intros [Hl Hall]. split; [split; [done|]|].
        -- apply (Hall k u); [apply list_elem_of_here|done].
        -- intros name u0 Hin. apply Hall. by apply list_elem_of_further.
Qed.

(** After the removal of the expired proposals, which cannot fail, the proposals
    whose height is not past remain with all their votes, the others are gone with
    all of theirs, and the plan is as it was. *)
Theorem expired_proposals_are_removed ctx s :
  (∀ name u, upgradeProposals s !! name = Some u → without "/" name) →
  ∃ s', RemoveExpiredUpgradeProposals ctx s = (Ok (), s') ∧ cs_vaults s' = cs_vaults s ∧ the_plan s' = the_plan s ∧
    (∀ name u, upgradeProposals s' !! name = Some u ↔ upgradeProposals s !! name = Some u ∧ BlockHeight ctx ≤ up_Height u) ∧
    ∀ name u addr, upgradeProposals s !! name = Some u →
      upgradeVotes s' !! vote_key name addr = if BlockHeight ctx <=? up_Height u then upgradeVotes s !! vote_key name addr else None.
Proof.
  intros Hplain. unfold RemoveExpiredUpgradeProposals.
  destruct (remove_expired_run ctx (map_to_list (upgradeProposals s)) s) as (s' & Hrun & Hv & Hpl & Hp & Hvo).
  exists s'. split_and!; [exact Hrun|done|done|..].
  - intros name u. rewrite Hp. split; intros [Hl Hall]; (split; [done|]).
    + apply Hall. by apply elem_of_map_to_list.
    + intros u0 Hin%elem_of_map_to_list. congruence.
  - intros name u addr Hu. apply option_eq. intros b. rewrite Hvo.
    destruct (Z.leb_spec (BlockHeight ctx) (up_Height u)) as [Hle|Hlt].
    + split; [by intros [? _]|]. intros Hl. split; [done|]. intros name' u0 Hin%elem_of_map_to_list Hex.
      rewrite name_of_key_plain by eauto. apply eq_None_not_Some. intros [a Ha%after_prefix_some].
      apply (vote_prefix_inj name name' addr a) in Ha as [<- _]; [|by eauto..]. rewrite Hu in Hin. injection Hin as <-. lia.
    + split; [|done]. intros [_ Hall]. specialize (Hall name u ltac:(by apply elem_of_map_to_list) Hlt).
      rewrite name_of_key_plain in Hall by eauto. exfalso.
      assert (after_prefix (VotePrefix name) (vote_key name addr) = Some addr) by (by apply after_prefix_some). congruence.
Qed.
End UpgradeFacts.

(** ** Witnesses *)

#[local] Existing Instance plain_keys.
#[local] Instance any_semver : Semver := {| semver_parses _ := true |}.

(** Three of five have approved version 1.2.3 for block 50; Dave is the fourth. *)
Definition three_approve : ChainState (H0 := one_plan) :=
  put_upgradeProposals {["1.2.3" := mkUpgradeProposal 50 "" "alice"; "1.1.0" := mkUpgradeProposal 5 "" "alice"]}
    (put_upgradeVotes {["1.2.3/alice" := true; "1.2.3/bob" := true; "1.2.3/carol" := true; "1.1.0/alice" := true]} council_chain).
Definition dave_approves : UpgradeMsg := UpgradeApprove (mkMsgVoteUpgrade "1.2.3" "dave").

Definition carol_rejects : UpgradeMsg := UpgradeReject (mkMsgVoteUpgrade "1.2.3" "carol").
Lemma upgrade_plans_need_two_thirds_witness :
  let s1 := snd (Upgrade_Run vault_block dave_approves three_approve) in
  let s2 := snd (Upgrade_Run vault_block carol_rejects s1) in
  the_plan s1 = Some (mkPlan "1.2.3" 50 "") ∧ has_quorum s1 "1.2.3" ∧ ¬ has_quorum three_approve "1.2.3" ∧
  the_plan s2 = None ∧ upgradeVotes s2 = <["1.2.3/carol" := false]> (upgradeVotes s1).
Proof.
  cbn zeta. assert (fst (Upgrade_Run vault_block dave_approves three_approve) = Ok ()) as H1 by (vm_compute; reflexivity).
  destruct (upgrade_plans_need_two_thirds vault_block dave_approves three_approve
    (snd (Upgrade_Run vault_block dave_approves three_approve)) (run_pair _ _ H1)) as (_ & _ & _ & Hst).
  set (s1 := snd (Upgrade_Run vault_block dave_approves three_approve)) in *.
  assert (fst (Upgrade_Run vault_block carol_rejects s1) = Ok ()) as H2 by (vm_compute; reflexivity).
  destruct (upgrade_plans_need_two_thirds vault_block carol_rejects s1 (snd (Upgrade_Run vault_block carol_rejects s1)) (run_pair _ _ H2))
    as (_ & _ & Hs2 & _).
  split_and!; [vm_compute; reflexivity|vm_compute; congruence|vm_compute; congruence|vm_compute; reflexivity|]. by rewrite Hs2.
Defined.

Definition alice_proposes : UpgradeMsg := UpgradePropose (mkMsgProposeUpgrade "1.3.0" (mkUpgrade 60 "") "alice").
Lemma proposals_stay_few_witness :
  proposals_by (snd (Upgrade_Run vault_block alice_proposes three_approve)) "alice" ≤ maxProposalCount.
Proof.
  assert (fst (Upgrade_Run vault_block alice_proposes three_approve) = Ok ()) as H by (vm_compute; reflexivity).
  apply (proposals_stay_few vault_block alice_proposes three_approve _ (run_pair _ _ H)).
  intros who. unfold proposals_by, len. etransitivity; [apply inj_le, List.filter_length_le|]. vm_compute. discriminate.
Defined.

Lemma expired_proposals_are_removed_witness :
  ∃ s', RemoveExpiredUpgradeProposals vault_block three_approve = (Ok (), s') ∧
    upgradeProposals s' !! "1.1.0" = None ∧ upgradeVotes s' !! vote_key "1.1.0" "alice" = None ∧
    upgradeVotes s' !! vote_key "1.2.3" "alice" = Some true.
Proof.
  destruct (expired_proposals_are_removed vault_block three_approve) as (s' & Hrun & _ & _ & Hp & Hv).
  - intros name u Hl. apply elem_of_map_to_list in Hl.
    assert (map_to_list (upgradeProposals three_approve) =
      [("1.1.0", mkUpgradeProposal 5 "" "alice"); ("1.2.3", mkUpgradeProposal 50 "" "alice")]) as Hm by (vm_compute; reflexivity).
    rewrite Hm in Hl. clear Hm.
    repeat (apply elem_of_cons in Hl as [[= -> _]|Hl]; [reflexivity|]). by apply elem_of_nil in Hl.
  - exists s'. split; [done|]. split_and!.
    + assert (upgradeProposals three_approve !! "1.1.0" = Some (mkUpgradeProposal 5 "" "alice")) as Hl by (vm_compute; reflexivity).
      apply eq_None_not_Some. intros [u Hu]. apply Hp in Hu as [Hu Hle]. rewrite Hl in Hu. injection Hu as <-. by apply Hle.
    + etransitivity; [exact (Hv "1.1.0" (mkUpgradeProposal 5 "" "alice") "alice" ltac:(vm_compute; reflexivity))|vm_compute; reflexivity].
    + etransitivity; [exact (Hv "1.2.3" (mkUpgradeProposal 50 "" "alice") "alice" ltac:(vm_compute; reflexivity))|vm_compute; reflexivity].
Defined.
