(* ===== verification/SWCY.v ===== *)
(** * Claiming and staking SWCY

    src/x/switchly/keeper/v1/keeper_swcy_claimer.go, keeper_swcy_staker.go,
    handler_swcy_claim.go, handler_swcy_stake.go and handler_swcy_unstake.go, with
    common/swcysmartcontract: the claims by address and asset, the stakes by
    address, and a contract whose stake is its balance. *)

From stdpp Require Import sorting.
From S2P Require Import Prelude Runs GoStrings CosmosMath Amounts Assets Coins Constants State Txs Fees Nodes Quorum ObservedTx Attest SwapHandler Messages Vaults Gas Layers Slasher ChainState Bonds.
Open Scope Z_scope.

(** The contract's address is a constant of the build. *)
Class SWCYContract := { SWCYSmartContractAddress : string }.
Definition mainnet_contract : SWCYContract :=
  {| SWCYSmartContractAddress := "thor1z7ejlk5wk2pxh9nfwjzkkdnrq4p2f5rjcpudltv0gh282dwfz6nq9g2cr0" |}.

Section SWCY.
  Context `{CosmosMath} `{Bank} `{Env} `{!PubKeys} `{UpgradeKeeper} `{!SWCYContract}.
Abbreviation C := (M ChainState).

Definition IsSWCYSmartContractAddress (addr : string) : bool := bool_decide (addr = SWCYSmartContractAddress).
Definition GetSWCYSmartContractAddress : outcome string := NewAddress SWCYSmartContractAddress.

(** ** Stakers *)

(** The stake of the contract is what it holds. *)
Definition getSWCYSmartContractAddressStaker : C SWCYStaker :=
  addr ← lift GetSWCYSmartContractAddress;
  acc ← lift (AccAddressFromBech32 addr);
  coin ← chain_core (GetBalanceOf acc SWCY);
  amount ← lift (as_uint64 coin);
  mret (NewSWCYStaker addr amount).
Definition GetSWCYStaker (addr : string) : C SWCYStaker :=
  if IsSWCYSmartContractAddress addr then getSWCYSmartContractAddressStaker
  else
    r ← gets (λ s, swcyStakers s !! GetKey addr);
    match r with None => throw "SWCYStaker doesn't exist" | Some r => mret r end.
(** The contract's staker is not modified. *)
Definition SetSWCYStaker (record : SWCYStaker) : C () :=
  if IsSWCYSmartContractAddress (sk_Address record) then mret ()
  else modify (λ s, put_swcyStakers (<[GetKey (sk_Address record) := record]> (swcyStakers s)) s).
Definition DeleteSWCYStaker (addr : string) : C () :=
  if IsSWCYSmartContractAddress addr then mret ()
  else modify (λ s, put_swcyStakers (delete (GetKey addr) (swcyStakers s)) s).
Definition ListSWCYStakers : C (list SWCYStaker) :=
  stakers ← gets (λ s, snd <$> merge_sort key_le (map_to_list (swcyStakers s)));
  contract ← attempt getSWCYSmartContractAddressStaker;
  mret (match contract with inl c => (stakers ++ [c])%list | inr _ => stakers end).
Definition SWCYStakerExists (addr : string) : C bool :=
  if IsSWCYSmartContractAddress addr then mret true
  else gets (λ s, bool_decide (is_Some (swcyStakers s !! GetKey addr))).
Definition UpdateSWCYStaker (addr : string) (amount : Z) : C () :=
  found ← SWCYStakerExists addr;
  amount ←
    (if found : bool then staker ← GetSWCYStaker addr; lift (uadd amount (sk_Amount staker))
     else mret amount);
  SetSWCYStaker (NewSWCYStaker addr amount).

(** ** Claimers *)

Definition claimer_key (l1Address : string) (a : Asset) : string := GetKey (l1Address +:+ "/" +:+ Assets.Str a).
Definition GetSWCYClaimer (l1Address : string) (a : Asset) : C SWCYClaimer :=
  r ← gets (λ s, swcyClaimers s !! claimer_key l1Address a);
  match r with None => throw "SWCYClaimer doesn't exist" | Some r => mret r end.
Definition SetSWCYClaimer (record : SWCYClaimer) : C () :=
  modify (λ s, put_swcyClaimers (<[claimer_key (cm_L1Address record) (cm_Asset record) := record]> (swcyClaimers s)) s).
Definition DeleteSWCYClaimer (l1Address : string) (a : Asset) : C () :=
  modify (λ s, put_swcyClaimers (delete (claimer_key l1Address a) (swcyClaimers s)) s).
(** The records whose key begins with the address, in order. *)
Definition ListSWCYClaimersFromL1Address (l1Address : string) : C (list SWCYClaimer) :=
  claimers ← gets (λ s, snd <$> List.filter (λ '(key, _), String.prefix (GetKey l1Address) key)
                          (merge_sort key_le (map_to_list (swcyClaimers s))));
  match claimers with
  | [] => throw "l1 address doesn't have any tcy to claim"
  | _ => mret claimers
  end.
Definition SWCYClaimerExists (l1Address : string) (a : Asset) : C bool :=
  gets (λ s, bool_decide (is_Some (swcyClaimers s !! claimer_key l1Address a))).
Definition UpdateSWCYClaimer (l1Address : string) (a : Asset) (amount : Z) : C () :=
  found ← SWCYClaimerExists l1Address a;
  amount ←
    (if found : bool then claimer ← GetSWCYClaimer l1Address a; lift (uadd amount (cm_Amount claimer))
     else mret amount);
  SetSWCYClaimer (NewSWCYClaimer l1Address a amount).

(** ** Claiming *)

Definition SWCYClaim_validate (msg : MsgSWCYClaim) : C () :=
  _ ← fail_when (match SWCYClaim_ValidateBasic msg with Some _ => true | None => false end) "tcy claim message fail validation";
  halt ← chain_core (GetConfigInt64 "SWCYClaimingHalt");
  _ ← fail_when (0 <? halt) "tcy claiming is halted";
  fail_when (negb (IsChain (cl_SwitchAddress msg) SWITCHLYChain)) "invalid switch address".

Definition error_of {A} (r : A + error) : option error := match r with inl _ => None | inr e => Some e end.
(** One claim: the coins go to the stakes and the record to the staker; the error
    that is answered at the end is that of the last claim. *)
Definition claim_one (msg : MsgSWCYClaim) (claim : SWCYClaimer) (err : option error) : C (option error) :=
  if cm_Amount claim =? 0 then mret err
  else
    sent ← attempt (chain_core (SendFromModuleToModule SWCYClaimingName SWCYStakeName [NewCoin SWCY (cm_Amount claim)]));
    match sent with
    | inr e => mret (Some e)
    | inl _ =>
        updated ← attempt (UpdateSWCYStaker (cl_SwitchAddress msg) (cm_Amount claim));
        _ ← DeleteSWCYClaimer (cm_L1Address claim) (cm_Asset claim);
        _ ← chain_core (EmitEvent (EvSWCYClaim (cl_SwitchAddress msg) (cl_L1Address msg) (cm_Amount claim) (cm_Asset claim)));
        mret (error_of updated)
    end.
Fixpoint claim_all (msg : MsgSWCYClaim) (claims : list SWCYClaimer) (err : option error) : C (option error) :=
  match claims with
  | [] => mret err
  | claim :: r => err ← claim_one msg claim err; claim_all msg r err
  end.
Definition SWCYClaim_handle (msg : MsgSWCYClaim) : C () :=
  balance ← gets (λ s, bank_balance (bank (chain_state_core s)) (Module_acc SWCYClaimingName) (Assets.Native SWCY));
  _ ← fail_when (balance =? 0) "claiming module doesn't have tcy funds";
  claims ← ListSWCYClaimersFromL1Address (cl_L1Address msg);
  err ← claim_all msg claims None;
  check err.
Definition SWCYClaim_Run (msg : MsgSWCYClaim) : C () := _ ← SWCYClaim_validate msg; SWCYClaim_handle msg.

(** ** Staking *)

Definition SWCYStake_validate (msg : MsgSWCYStake) : C () :=
  _ ← fail_when (match SWCYStake_ValidateBasic msg with Some _ => true | None => false end) "tcy stake message fail validation";
  halt ← chain_core (GetConfigInt64 "SWCYStakingHalt");
  fail_when (0 <? halt) "tcy staking is halted".
(** The first coin is read before the message is validated. *)
Definition SWCYStake_Run (msg : MsgSWCYStake) : C () :=
  match tx_Coins (st_Tx msg) with
  | [] => lift Panic
  | c :: _ =>
      _ ← SWCYStake_validate msg;
      _ ← attempt (UpdateSWCYStaker (FromAddress (st_Tx msg)) (coin_amount c));
      chain_core (EmitEvent (EvSWCYStake (FromAddress (st_Tx msg)) (coin_amount c)))
  end.

(** ** Unstaking *)

Definition SWCYUnstake_validate (msg : MsgSWCYUnstake) : C () :=
  _ ← fail_when (match SWCYUnstake_ValidateBasic msg with Some _ => true | None => false end) "tcy unstake message fail validation";
  halt ← chain_core (GetConfigInt64 "SWCYUnstakingHalt");
  fail_when (0 <? halt) "tcy unstaking is halt".
Definition SWCYUnstake_handle (msg : MsgSWCYUnstake) : C () :=
  let from := FromAddress (us_Tx msg) in
  staker ← GetSWCYStaker from;
  let unstakeAmount := GetSafeShare (us_BasisPoints msg) Amounts.MaxBasisPts (sk_Amount staker) in
  _ ← fail_when (unstakeAmount =? 0) "staker doesn't have enough tcy";
  stakerAddress ← lift (AccAddressFromBech32 (sk_Address staker));
  _ ← chain_core (SendFromModuleToAccount SWCYStakeName stakerAddress [NewCoin SWCY unstakeAmount]);
  newStakingAmount ← lift (SafeSub (sk_Amount staker) unstakeAmount);
  _ ← (if newStakingAmount =? 0 then DeleteSWCYStaker from else SetSWCYStaker (NewSWCYStaker from newStakingAmount));
  chain_core (EmitEvent (EvSWCYUnstake from unstakeAmount)).
Definition SWCYUnstake_Run (msg : MsgSWCYUnstake) : C () := _ ← SWCYUnstake_validate msg; SWCYUnstake_handle msg.
End SWCY.

(** ** Facts *)

Section SWCYFacts.
  Context `{CosmosMath} `{Bank} `{Env} `{!PubKeys} `{UpgradeKeeper} `{!SWCYContract}.

Definition swcy_of (m : string) (s : ChainState) : Z := bank_balance (bank (chain_state_core s)) (Module_acc m) (Assets.Native SWCY).
Definition user_swcy (s : ChainState) (acc : string) : Z := bank_balance (bank (chain_state_core s)) (User_acc acc) (Assets.Native SWCY).
Definition staked (s : ChainState) : Z := map_sum sk_Amount (swcyStakers s).
Definition claimable (s : ChainState) : Z := map_sum cm_Amount (swcyClaimers s).
Definition key_of (c : SWCYClaimer) : string := claimer_key (cm_L1Address c) (cm_Asset c).
(** The claims are filed under their addresses and assets. *)
Definition claims_ok (s : ChainState) : Prop := ∀ k c, swcyClaimers s !! k = Some c → k = key_of c ∧ 0 ≤ cm_Amount c.

(** The stake of an address, and the stakers when it is credited; the stake of the
    contract is its balance and no record. *)
Definition stake_of (who : string) (s : ChainState) : Z := from_option sk_Amount 0 (swcyStakers s !! GetKey who).
Definition credited (who : string) (amt : Z) (s : ChainState) : gmap string SWCYStaker :=
  if IsSWCYSmartContractAddress who || (amt =? 0) then swcyStakers s
  else <[GetKey who := NewSWCYStaker who (stake_of who s + amt)]> (swcyStakers s).

(** An amount has gone from the claims to the stakes, in coins, and in the records
    to one staker. *)
Record moved (who : string) (amt : Z) (s s' : ChainState) : Prop := {
  mv_range : 0 ≤ amt;
  mv_stakers : swcyStakers s' = credited who amt s;
  mv_stakes : swcy_of SWCYStakeName s' = swcy_of SWCYStakeName s + amt;
  mv_claims : swcy_of SWCYClaimingName s' = swcy_of SWCYClaimingName s - amt;
  mv_claimable : claimable s' = claimable s - amt;
  mv_rest : swcyClaimers s' ⊆ swcyClaimers s;
}.
Lemma moved_nothing who s : moved who 0 s s.
Proof. split; [lia|by unfold credited; rewrite orb_true_r|lia..|done]. Qed.
Lemma moved_trans who a b s1 s2 s3 : moved who a s1 s2 → moved who b s2 s3 → moved who (a + b) s1 s3.
Proof.
  intros [? Hk] [? Hk2]. split; [lia| |lia..|by etransitivity]. rewrite Hk2. unfold credited, stake_of in *.
  destruct (IsSWCYSmartContractAddress who); [done|]. cbn [orb] in *.
  destruct (Z.eqb_spec a 0) as [->|Ha]; [by rewrite Hk, Z.add_0_l|].
  destruct (Z.eqb_spec b 0) as [->|Hb]; [by rewrite Hk, Z.add_0_r, (proj2 (Z.eqb_neq a 0) Ha)|].
  rewrite (proj2 (Z.eqb_neq (a + b) 0)), Hk by lia. by rewrite lookup_insert_eq, insert_insert_eq, Z.add_assoc.
Qed.
Lemma moved_ok who amt s s' : moved who amt s s' → claims_ok s → claims_ok s'.
Proof. intros Hm Hok k c Hk. apply Hok. by eapply lookup_weaken; [|apply (mv_rest _ _ _ _ Hm)]. Qed.

(** The bank transfers SWCY that the module of the claims has. *)
Definition claims_can_pay : Prop := ∀ b amt,
  0 < amt ≤ bank_balance b (Module_acc SWCYClaimingName) (Assets.Native SWCY) →
  fst (bank_send (Module_acc SWCYClaimingName) (Module_acc SWCYStakeName) [(Assets.Native SWCY, amt)] b) = Ok ().

Lemma native_swcy amt : native_coin (NewCoin SWCY amt) = (Assets.Native SWCY, amt).
Proof. done. Qed.

(** Coins between the two modules. *)
Lemma claim_to_stake amt s r s' :
  chain_core (SendFromModuleToModule SWCYClaimingName SWCYStakeName [NewCoin SWCY amt]) s = (r, s') →
  match r with
  | Ok _ => 0 < amt ∧ outer_kept s s' ∧ swcy_of SWCYStakeName s' = swcy_of SWCYStakeName s + amt ∧
      swcy_of SWCYClaimingName s' = swcy_of SWCYClaimingName s - amt
  | Err _ => s' = s ∧ (claims_can_pay → 0 < amt ≤ swcy_of SWCYClaimingName s → False)
  | Panic => True
  end.
Proof.
  intros Hrun. apply in_vaults_outer in Hrun as Hout. rewrite chain_core_run in Hrun.
  unfold SendFromModuleToModule, in_bank in Hrun. cbn [map] in Hrun. rewrite native_swcy in Hrun.
  destruct (bank_send _ _ _ _) as [o b] eqn:Hsend. cbn [fst snd] in Hrun. injection Hrun as <- <-. destruct o as [[]|e|]; [| |done].
  - apply bank_send_law in Hsend as ([Hpos _] & _ & Hbal). split_and!; [done|done|..]; unfold swcy_of, with_chain_core, chain_state_core;
      cbn [cs_vaults put_cs_vaults]; rewrite the_core_with; cbn [bank put_bank]; rewrite Hbal.
    + rewrite decide_False, decide_True by naive_solver. unfold chain_state_core. lia.
    + rewrite decide_True, decide_False by naive_solver. unfold chain_state_core. lia.
  - split; [|intros Hpay Ha; specialize (Hpay _ _ Ha); by rewrite Hsend in Hpay].
    apply bank_send_fails in Hsend as ->. transitivity (with_chain_core (chain_state_core s) s); [|apply chain_core_id].
    f_equal. by destruct (chain_state_core s).
Qed.

(** The record of the staker grows; for the contract nothing happens, also when its
    balance cannot be read. *)
Lemma UpdateSWCYStaker_run addr amount s :
  amount ≠ 0 →
  match UpdateSWCYStaker addr amount s with
  | (Panic, _) => True
  | (_, s') => cs_vaults s' = cs_vaults s ∧ swcyClaimers s' = swcyClaimers s ∧ swcyStakers s' = credited addr amount s
  end.
Proof.
  intros Hn. unfold UpdateSWCYStaker, SWCYStakerExists, GetSWCYStaker, SetSWCYStaker, credited, stake_of. cbn [NewSWCYStaker sk_Address].
  rewrite (proj2 (Z.eqb_neq _ _) Hn), orb_false_r. destruct (IsSWCYSmartContractAddress addr).
  - assert (Hr : only_reads getSWCYSmartContractAddressStaker) by (unfold getSWCYSmartContractAddressStaker; reads).
    unfold mbind, M_bind, mret, M_ret, lift. rewrite (reads_run _ _ Hr).
    destruct (fst (getSWCYSmartContractAddressStaker s)) as [r|e|]; [|done..]. by destruct (uadd _ _).
  - unfold mbind, M_bind, gets, mret, M_ret, modify, lift. destruct (swcyStakers s !! GetKey addr) as [r|] eqn:Hr; cbn; rewrite ?Hr.
    + destruct (uadd amount (sk_Amount r)) as [t|e|] eqn:Ha; [|by apply uadd_no_err in Ha|done].
      apply uadd_inv in Ha as [-> _]. cbn. by rewrite Z.add_comm.
    + done.
Qed.

(** A claim that is there goes over in full, or not at all, which needs that its
    transfer fails. *)
Lemma claim_one_moves msg claim err s :
  swcyClaimers s !! key_of claim = Some claim → 0 ≤ cm_Amount claim →
  match claim_one msg claim err s with
  | (Ok _, s') => ∃ amt, moved (cl_SwitchAddress msg) amt s s' ∧
      (∀ k, k ≠ key_of claim → swcyClaimers s' !! k = swcyClaimers s !! k) ∧
      (claims_can_pay → cm_Amount claim ≤ swcy_of SWCYClaimingName s → amt = cm_Amount claim)
  | (Err _, _) => False
  | (Panic, _) => True
  end.
Proof.
  intros Hin Hpos0. unfold claim_one.
  destruct (Z.eqb_spec (cm_Amount claim) 0) as [Hz|Hz]; [exists 0; split; [apply moved_nothing|done]|].
  unfold attempt, mbind, M_bind, mret, M_ret.
  destruct (chain_core (SendFromModuleToModule SWCYClaimingName SWCYStakeName [NewCoin SWCY (cm_Amount claim)]) s) as [r s1] eqn:Hsend. pose proof (claim_to_stake _ _ _ _ Hsend) as Hs.
  destruct r as [u|e|]; cbn in Hs; [| |done].
  2: { destruct Hs as [-> Hno]. exists 0. split; [apply moved_nothing|]. split; [done|]. intros Hpay Hle. destruct (Hno Hpay). lia. }
  destruct Hs as (Hpos & [v ->] & Hst & Hcl). unfold attempt.
  pose proof (UpdateSWCYStaker_run (cl_SwitchAddress msg) (cm_Amount claim) (put_cs_vaults v s) Hz) as Hu.
  destruct (UpdateSWCYStaker (cl_SwitchAddress msg) (cm_Amount claim) (put_cs_vaults v s)) as [o s2].
  destruct o as [[]|e|]; [| |done]; destruct Hu as (Hv & Hcs & Hstaked);
    unfold DeleteSWCYClaimer, modify; cbn in Hcs; change (credited (cl_SwitchAddress msg) (cm_Amount claim) (put_cs_vaults v s))
      with (credited (cl_SwitchAddress msg) (cm_Amount claim) s) in Hstaked;
    match goal with |- context [chain_core ?m ?x] => destruct (chain_core m x) as [o s3] eqn:E end;
    rewrite chain_core_run in E; cbn [fst snd EmitEvent modify] in E; injection E as <- <-;
    exists (cm_Amount claim); (split; [split; [lia|exact Hstaked|..]|split; [|done]]).
  all: try (rewrite <- Hst; unfold swcy_of, chain_state_core; cbn; by rewrite Hv).
  all: try (rewrite <- Hcl; unfold swcy_of, chain_state_core; cbn; by rewrite Hv).
  all: try (unfold claimable; cbn; rewrite Hcs, (map_sum_delete cm_Amount (swcyClaimers s) (key_of claim) claim Hin); unfold key_of; lia).
  all: try (cbn; rewrite Hcs; apply delete_subseteq).
  all: intros k Hk; cbn; rewrite Hcs; by rewrite lookup_delete_ne.
Qed.

Definition amount_of_claims (claims : list SWCYClaimer) : Z := sumZ (cm_Amount <$> claims).
Lemma amount_of_claims_cons c l : amount_of_claims (c :: l) = cm_Amount c + amount_of_claims l.
Proof. done. Qed.
#[local] Arguments amount_of_claims : simpl never.

Lemma claim_all_moves msg claims err s :
  base.NoDup (key_of <$> claims) → Forall (λ c, swcyClaimers s !! key_of c = Some c ∧ 0 ≤ cm_Amount c) claims →
  match claim_all msg claims err s with
  | (Ok _, s') => ∃ amt, moved (cl_SwitchAddress msg) amt s s' ∧
      (∀ k, k ∉ key_of <$> claims → swcyClaimers s' !! k = swcyClaimers s !! k) ∧
      (claims_can_pay → amount_of_claims claims ≤ swcy_of SWCYClaimingName s → amt = amount_of_claims claims)
  | (Err _, _) => False
  | (Panic, _) => True
  end.
Proof.
  revert err s. induction claims as [|c l IH]; intros err s Hd Hall; cbn [claim_all].
  { exists 0. split; [apply moved_nothing|done]. }
  cbn in Hd. apply list.NoDup_cons in Hd as [Hk Hd]. apply list.Forall_cons in Hall as [[Hin Hc0] Hall].
  unfold mbind, M_bind. pose proof (claim_one_moves msg c err s Hin Hc0) as Hm.
  destruct (claim_one msg c err s) as [[e|e|] s1]; [|done|done]. destruct Hm as (amt & Hm & Hother & Hexact).
  assert (Hsum : 0 ≤ amount_of_claims l).
  { apply sumZ_nonneg, list.Forall_forall. intros z (x & -> & Hx)%list_elem_of_fmap. rewrite list.Forall_forall in Hall. by apply Hall. }
  assert (Hall1 : Forall (λ c, swcyClaimers s1 !! key_of c = Some c ∧ 0 ≤ cm_Amount c) l).
  { rewrite list.Forall_forall in Hall |- *. intros x Hx. rewrite Hother; [by apply Hall|]. intros Heq. apply Hk.
    rewrite <- Heq. by apply list_elem_of_fmap_2. }
  specialize (IH e s1 Hd Hall1). destruct (claim_all msg l e s1) as [[e'|e'|] s2]; [|done..].
  destruct IH as (amt2 & Hm2 & Hother2 & Hexact2). exists (amt + amt2). split; [by eapply moved_trans|]. split.
  - intros k Hnk. cbn in Hnk. rewrite Hother2, Hother; [done|set_solver|set_solver].
  - intros Hpay Hle. rewrite amount_of_claims_cons in *. rewrite (Hexact Hpay) in * by lia.
    rewrite (Hexact2 Hpay); [done|]. rewrite (mv_claims _ _ _ _ Hm). lia.
Qed.

Lemma reads_claim_validate msg : only_reads (SWCYClaim_validate msg).
Proof. unfold SWCYClaim_validate. reads. Qed.

(** The claims whose key begins with an address. *)
Definition claims_of (s : ChainState) (l1 : string) : list SWCYClaimer :=
  snd <$> List.filter (λ '(key, _), String.prefix (GetKey l1) key) (merge_sort key_le (map_to_list (swcyClaimers s))).
Lemma listed_claims s l1 :
  claims_ok s →
  base.NoDup (key_of <$> claims_of s l1) ∧
  Forall (λ c, swcyClaimers s !! key_of c = Some c ∧ 0 ≤ cm_Amount c ∧ String.prefix (GetKey l1) (key_of c) = true) (claims_of s l1).
Proof.
  intros Hok. unfold claims_of. set (l := List.filter _ _).
  assert (Hl : ∀ k c, (k, c) ∈ l → swcyClaimers s !! k = Some c ∧ String.prefix (GetKey l1) k = true).
  { intros k c Hin. apply list_elem_of_In, filter_In in Hin as [Hin Hp]. split; [|done].
    apply list_elem_of_In in Hin. rewrite (merge_sort_Permutation key_le), elem_of_map_to_list in Hin. done. }
  assert (Hd : base.NoDup (fst <$> l)).
  { apply distinct_filter. rewrite (merge_sort_Permutation key_le). apply NoDup_fst_map_to_list. }
  assert (Hkeys : key_of <$> (snd <$> l) = fst <$> l).
  { rewrite <- list_fmap_compose. apply list_fmap_ext. intros i [k c] Hi. cbn.
    apply list_elem_of_lookup_2, Hl in Hi as [Hi _]. by apply Hok in Hi as [-> _]. }
  split; [by rewrite Hkeys|]. apply list.Forall_forall. intros c ([k c'] & -> & Hin)%list_elem_of_fmap. cbn.
  apply Hl in Hin as [Hin Hp]. destruct (Hok _ _ Hin) as [<- ?]. done.
Qed.

(** C24: Claiming, whether it ends with an error or not, moves one amount: the coins from
    the module of the claims to that of the stakes, the records from the claims of
    the address to the stake of the claimer and to no other, or to none when the
    claimer is the contract.  A claim is gone when it has been moved, so it is paid
    once, and the claims whose key does not begin with the address stay.  A claim
    that is not refused moves all the claims of the address when the module has the
    coins for them and its transfers succeed. *)
Theorem SWCYClaim_Run_moves msg s :
  claims_ok s → fst (SWCYClaim_Run msg s) ≠ Panic →
  let s' := snd (SWCYClaim_Run msg s) in
  claims_ok s' ∧ ∃ amt, moved (cl_SwitchAddress msg) amt s s' ∧
    (∀ k, String.prefix (GetKey (cl_L1Address msg)) k = false → swcyClaimers s' !! k = swcyClaimers s !! k) ∧
    let all := amount_of_claims (claims_of s (cl_L1Address msg)) in
    (fst (SWCYClaim_validate msg s) = Ok () → claims_can_pay → 0 < all ≤ swcy_of SWCYClaimingName s → amt = all).
Proof.
  intros Hok Hnp. cbn zeta.
  match goal with |- _ ∧ ?P => enough P as Hm; [split; [|exact Hm]; destruct Hm as (amt & Hm & _); by eapply moved_ok|] end.
  assert (Hnone : (fst (SWCYClaim_validate msg s) = Ok () →
      0 < amount_of_claims (claims_of s (cl_L1Address msg)) ≤ swcy_of SWCYClaimingName s → False) →
    ∃ amt, moved (cl_SwitchAddress msg) amt s s ∧
      (∀ k, String.prefix (GetKey (cl_L1Address msg)) k = false → swcyClaimers s !! k = swcyClaimers s !! k) ∧
      (fst (SWCYClaim_validate msg s) = Ok () → claims_can_pay →
        0 < amount_of_claims (claims_of s (cl_L1Address msg)) ≤ swcy_of SWCYClaimingName s → amt = amount_of_claims (claims_of s (cl_L1Address msg)))).
  { intros Hno. exists 0. split; [apply moved_nothing|]. split; [done|]. intros Hv _ Ha. by destruct (Hno Hv Ha). }
  revert Hnp. unfold SWCYClaim_Run. unfold mbind at 1 2 3, M_bind at 1 2 3.
  rewrite (reads_run _ s (reads_claim_validate msg)). destruct (fst (SWCYClaim_validate msg s)) as [u|e|]; [|by intros _; apply Hnone|done].
  unfold SWCYClaim_handle, mbind, M_bind, gets. unfold fail_when, lift, fail_if.
  destruct (Z.eqb_spec (bank_balance (bank (chain_state_core s)) (Module_acc SWCYClaimingName) (Assets.Native SWCY)) 0) as [Hz|_].
  { intros _. apply Hnone. intros _. unfold swcy_of. lia. }
  unfold ListSWCYClaimersFromL1Address, mbind, M_bind, gets.
  destruct (listed_claims s (cl_L1Address msg) Hok) as [Hd Hall]. fold (claims_of s (cl_L1Address msg)).
  set (claims := claims_of s (cl_L1Address msg)) in *.
  assert (Hrun : fst (claim_all msg claims None s) ≠ Panic →
    ∃ amt, moved (cl_SwitchAddress msg) amt s (snd (claim_all msg claims None s)) ∧
      (∀ k, String.prefix (GetKey (cl_L1Address msg)) k = false → swcyClaimers (snd (claim_all msg claims None s)) !! k = swcyClaimers s !! k) ∧
      (Ok u = Ok () → claims_can_pay → 0 < amount_of_claims claims ≤ swcy_of SWCYClaimingName s → amt = amount_of_claims claims)).
  { pose proof (claim_all_moves msg claims None s Hd) as Hm. intros Hnp.
    assert (Hall' : Forall (λ c, swcyClaimers s !! key_of c = Some c ∧ 0 ≤ cm_Amount c) claims).
    { eapply list.Forall_impl; [exact Hall|]. by intros ? (? & ? & _). }
    specialize (Hm Hall'). destruct (claim_all msg claims None s) as [[e|e|] s1]; cbn in *; [|done..].
    destruct Hm as (amt & Hm & Ho & Hexact). exists amt. split; [done|]. split; [|intros _ Hpay [_ Hle]; by apply Hexact].
    intros k Hk. apply Ho. intros Hin. apply list_elem_of_fmap in Hin as (c & -> & Hin).
    rewrite list.Forall_forall in Hall. apply Hall in Hin as (_ & _ & Hp). congruence. }
  clearbody claims. destruct claims as [|c l]; [intros _; apply Hnone; intros _; change (amount_of_claims []) with 0; lia|].
  cbn [mret M_ret]. unfold mret, M_ret.
  destruct (claim_all msg (c :: l) None s) as [[[e|]|e|] s1]; cbn in *; first [done|intros _; by apply Hrun].
Qed.

(** *** Unstaking *)

(** Coins out of the module of the stakes. *)
Lemma stake_to_account to amt s u s' :
  chain_core (SendFromModuleToAccount SWCYStakeName to [NewCoin SWCY amt]) s = (Ok u, s') →
  0 < amt ∧ outer_kept s s' ∧ swcy_of SWCYStakeName s' = swcy_of SWCYStakeName s - amt ∧
  user_swcy s' to = user_swcy s to + amt.
Proof.
  intros Hrun. apply in_vaults_outer in Hrun as Hout. apply chain_core_ok in Hrun as (c & Hc & ->). destruct u.
  unfold SendFromModuleToAccount in Hc. apply in_bank_ok in Hc as (b & Hsend & ->).
  cbn [map] in Hsend. rewrite native_swcy in Hsend. apply bank_send_law in Hsend as ([Hpos _] & _ & Hbal).
  split_and!; [done|done|..]; unfold swcy_of, user_swcy, with_chain_core, chain_state_core; cbn [cs_vaults put_cs_vaults];
    rewrite the_core_with; cbn [bank put_bank]; rewrite Hbal.
  - rewrite decide_True, decide_False by naive_solver. unfold chain_state_core. lia.
  - rewrite decide_False, decide_True by naive_solver. unfold chain_state_core. lia.
Qed.

(** The stakes are amounts that the shares are exact for. *)
Definition stakes_ok (s : ChainState) : Prop := ∀ k r, swcyStakers s !! k = Some r → 0 ≤ sk_Amount r < 2 ^ 180.

(** The stake of an address after the payment. *)
Lemma keep_the_rest from r rest s u s' :
  IsSWCYSmartContractAddress from = false → swcyStakers s !! GetKey from = Some r →
  (if rest =? 0 then DeleteSWCYStaker from else SetSWCYStaker (NewSWCYStaker from rest)) s = (Ok u, s') →
  cs_vaults s' = cs_vaults s ∧ staked s' = staked s - sk_Amount r + rest.
Proof.
  intros Hc Hr. unfold DeleteSWCYStaker, SetSWCYStaker. cbn [NewSWCYStaker sk_Address]. rewrite Hc.
  destruct (Z.eqb_spec rest 0) as [->|Hn]; unfold modify; intros [= _ <-]; (split; [done|]); unfold staked; cbn [swcyStakers put_swcyStakers].
  - rewrite (map_sum_delete sk_Amount _ _ _ Hr). lia.
  - rewrite map_sum_insert, Hr. cbn. lia.
Qed.
Lemma keep_the_contract from rest s u s' :
  IsSWCYSmartContractAddress from = true →
  (if rest =? 0 then DeleteSWCYStaker from else SetSWCYStaker (NewSWCYStaker from rest)) s = (Ok u, s') → s' = s.
Proof.
  intros Hc. unfold DeleteSWCYStaker, SetSWCYStaker. cbn [NewSWCYStaker sk_Address]. rewrite Hc. by destruct (rest =? 0); intros [= _ <-].
Qed.

Lemma reads_unstake_validate msg : only_reads (SWCYUnstake_validate msg).
Proof. unfold SWCYUnstake_validate. reads. Qed.
Lemma unstake_points msg s s' :
  SWCYUnstake_validate msg s = (Ok (), s') → 0 ≤ us_BasisPoints msg → 0 < us_BasisPoints msg <= Amounts.MaxBasisPts.
Proof.
  unfold SWCYUnstake_validate, SWCYUnstake_ValidateBasic. intros Hrun Hr. run_step Hrun v s1 Hf. clear Hrun.
  unfold fail_when, lift, fail_if in Hf. repeat case_match; try discriminate.
  match goal with E : (_ =? 0) || _ = false |- _ => apply orb_false_iff in E as [?%Z.eqb_neq ?%Z.ltb_ge] end.
  assert (MemoParser.MaxBasisPts = Amounts.MaxBasisPts) by reflexivity. lia.
Qed.

(** The stake of the contract is its balance. *)
Lemma contract_stake s stake acc :
  fst (getSWCYSmartContractAddressStaker s) = Ok stake → AccAddressFromBech32 (sk_Address stake) = Ok acc →
  sk_Amount stake = user_swcy s acc.
Proof.
  unfold getSWCYSmartContractAddressStaker, mbind, M_bind, lift. destruct GetSWCYSmartContractAddress as [addr|e|]; [|done..].
  destruct (AccAddressFromBech32 addr) as [a|e|] eqn:Ha; [|done..]. rewrite chain_core_run. cbn.
  unfold as_uint64. destruct (_ && _); [|done]. cbn. intros [= <-]. cbn. intros Ha2. rewrite Ha in Ha2. by injection Ha2 as ->.
Qed.

(** C25: Unstaking pays the share in basis points of the stake, never more than it, from
    the module of the stakes, and takes it off the stake.  The stake of the
    contract is its own balance: for the contract the share is paid and nothing is
    taken off. *)
Theorem SWCYUnstake_Run_pays msg s s' :
  SWCYUnstake_Run msg s = (Ok (), s') → stakes_ok s → 0 ≤ us_BasisPoints msg →
  let from := FromAddress (us_Tx msg) in
  ∃ stake acc, let amt := GetSafeShare (us_BasisPoints msg) Amounts.MaxBasisPts (sk_Amount stake) in
  0 < amt ∧ AccAddressFromBech32 (sk_Address stake) = Ok acc ∧
  swcy_of SWCYStakeName s' = swcy_of SWCYStakeName s - amt ∧ user_swcy s' acc = user_swcy s acc + amt ∧
  (IsSWCYSmartContractAddress from = false →
    swcyStakers s !! GetKey from = Some stake ∧ amt <= sk_Amount stake ∧ staked s' = staked s - amt) ∧
  (IsSWCYSmartContractAddress from = true →
    sk_Amount stake = user_swcy s acc ∧ swcyStakers s' = swcyStakers s).
Proof.
  intros Hrun Hok Hbp. cbn zeta. set (from := FromAddress (us_Tx msg)).
  unfold SWCYUnstake_Run in Hrun. run_step Hrun v s1 Hv.
  pose proof (reads_unstake_validate msg s) as Hs1. rewrite Hv in Hs1. cbn in Hs1. subst s1. destruct v.
  apply unstake_points in Hv; [|done]. unfold SWCYUnstake_handle in Hrun. cbv zeta in Hrun. fold from in Hrun.
  assert (Hg : only_reads (GetSWCYStaker from)).
  { unfold GetSWCYStaker, getSWCYSmartContractAddressStaker. reads. }
  apply reads_bind_ok in Hrun as (stake & Es & Hrun); [|exact Hg]. clear Hg.
  run_step Hrun g s1 Eg. apply fail_when_ok in Eg as [Hz%Z.eqb_neq ->].
  run_step Hrun acc s1 Ea. apply lift_ok in Ea as [Ea ->].
  run_step Hrun u s1 Esend. run_step Hrun rest s2 Erest. apply lift_ok in Erest as [Erest ->].
  run_step Hrun u2 s3 Ekeep.
  apply stake_to_account in Esend as (Hpos & [v ->] & Hst & Hus).
  rewrite chain_core_run in Hrun. cbn [fst snd EmitEvent modify] in Hrun. injection Hrun as <-.
  exists stake, acc. cbn zeta. set (amt := GetSafeShare _ _ _) in *.
  set (s4 := with_chain_core _ s3).
  assert (Hbal : cs_vaults s3 = v → swcy_of SWCYStakeName s4 = swcy_of SWCYStakeName s - amt ∧ user_swcy s4 acc = user_swcy s acc + amt).
  { intros Hv3. rewrite <- Hst, <- Hus. unfold swcy_of, user_swcy, s4, with_chain_core, chain_state_core. cbn. by rewrite Hv3. }
  unfold GetSWCYStaker in Es. destruct (IsSWCYSmartContractAddress from) eqn:Hc.
  - apply keep_the_contract in Ekeep as ->; [|done]. destruct Hbal as [Hb1 Hb2]; [done|].
    split_and!; [done|done|done|done|done|]. intros _. split; [|done]. by eapply contract_stake.
  - cbn in Es. unfold mbind, M_bind, gets in Es. destruct (swcyStakers s !! GetKey from) as [r|] eqn:Hr; [|done]. injection Es as ->.
    apply (keep_the_rest _ stake) in Ekeep as [Hv3 Hstk]; [|done..]. destruct Hbal as [Hb1 Hb2]; [done|].
    pose proof (Hok _ _ Hr) as Hrange. assert (0 ≤ amt ∧ amt <= sk_Amount stake) as [Ha0 Ha] by (apply GetSafeShare_le; [lia|done|done]).
    apply SafeSub_inv in Erest; [|lia..].
    split_and!; [done|done|done|done| |done]. intros _. split_and!; [done|done|].
    change (staked s4) with (staked s3). change (staked (put_cs_vaults v s)) with (staked s) in Hstk. lia.
Qed.
End SWCYFacts.

(** ** Witnesses *)

#[local] Existing Instance plain_keys.
#[local] Instance small_contract : SWCYContract := {| SWCYSmartContractAddress := "swtc1contract" |}.

(** Coins of the claims, the stakes and the contract; one address has two claims,
    another one, Hugo has a stake, and claiming and unstaking are open. *)
Definition hugo : string := "swtc1hugo".
Definition swcy_ledger : BankRef.ledger :=
  BankRef.mkLedger (list_to_map [((Module_acc SWCYClaimingName, Assets.Native SWCY), 100); ((Module_acc SWCYStakeName, Assets.Native SWCY), 500);
    ((User_acc "swtc1contract", Assets.Native SWCY), 300)]) {[Assets.Native SWCY := 900]}.
Definition swcy_claims : list SWCYClaimer :=
  [NewSWCYClaimer "bc1one" BTCAsset 60; NewSWCYClaimer "bc1one" ETHAsset 30; NewSWCYClaimer "bc1two" BTCAsset 20].
Definition swcy_chain : ChainState (H0 := one_plan) :=
  let s := no_vaults in
  put_swcyStakers {[GetKey hugo := NewSWCYStaker hugo 200]}
    (put_swcyClaimers (list_to_map ((λ c, (key_of c, c)) <$> swcy_claims))
      (with_chain_core (put_mimirs (list_to_map [("SWCYCLAIMINGHALT", 0); ("SWCYUNSTAKINGHALT", 0)]) (put_bank swcy_ledger empty_state))
        (only_vaults s))).

Lemma swcy_claims_ok : claims_ok swcy_chain.
Proof.
  intros k c Hk. apply elem_of_list_to_map_2, list_elem_of_fmap in Hk as (c' & [= -> ->] & Hin). split; [done|].
  unfold swcy_claims in Hin. rewrite !elem_of_cons, elem_of_nil in Hin. by destruct Hin as [->|[->|[->|[]]]].
Qed.

(** Hugo claims for one address, in full, and nothing of the other's. *)
Definition hugo_claims : MsgSWCYClaim := mkMsgSWCYClaim hugo "bc1one" hugo.
Lemma swcy_ledger_pays : claims_can_pay (H0 := bank_ref).
Proof. intros b amt Ha. by apply BankRef.sends. Qed.
Lemma SWCYClaim_Run_moves_witness :
  let s' := snd (SWCYClaim_Run hugo_claims swcy_chain) in
  claims_ok s' ∧ moved hugo 90 swcy_chain s' ∧ swcyStakers s' = {[GetKey hugo := NewSWCYStaker hugo 290]} ∧
  swcyClaimers s' !! claimer_key "bc1two" BTCAsset = Some (NewSWCYClaimer "bc1two" BTCAsset 20).
Proof.
  cbn zeta. destruct (SWCYClaim_Run_moves hugo_claims swcy_chain swcy_claims_ok) as (Hok & amt & Hm & Hother & Hall);
    [vm_compute; discriminate|].
  rewrite Hall in Hm; [|vm_compute; reflexivity|exact swcy_ledger_pays|vm_compute; split; [reflexivity|discriminate]].
  assert (Ha : amount_of_claims (claims_of swcy_chain (cl_L1Address hugo_claims)) = 90) by (vm_compute; reflexivity).
  rewrite Ha in Hm. split; [exact Hok|]. split; [exact Hm|]. split.
  - rewrite (mv_stakers _ _ _ _ Hm). vm_compute. reflexivity.
  - etransitivity; [apply Hother; vm_compute; reflexivity|vm_compute; reflexivity].
Defined.

(** Claims for the contract leave the claims, and no stake has them. *)
Example contract_claims_credit_no_stake :
  let s' := snd (SWCYClaim_Run (mkMsgSWCYClaim "swtc1contract" "bc1one" hugo) swcy_chain) in
  swcy_of SWCYClaimingName s' = 10 ∧ claimable s' = 20 ∧ swcyStakers s' = swcyStakers swcy_chain ∧
  user_swcy s' "swtc1contract" = user_swcy swcy_chain "swtc1contract".
Proof. vm_compute. by split_and!. Qed.

(** Hugo takes a half out; the contract takes a half out and keeps its stake. *)
Definition takes_half (from : string) : MsgSWCYUnstake := mkMsgSWCYUnstake (mkTx "CC" SWITCHLYChain from "bond" [] [] "") 5000 from.
Lemma SWCYUnstake_Run_pays_witness :
  let s1 := snd (SWCYUnstake_Run (takes_half hugo) swcy_chain) in
  let s2 := snd (SWCYUnstake_Run (takes_half "swtc1contract") swcy_chain) in
  staked s1 = 100 ∧ user_swcy s1 hugo = 100 ∧
  staked s2 = 200 ∧ user_swcy s2 "swtc1contract" = 450 ∧ swcy_of SWCYStakeName s2 = 350 ∧ swcyStakers s2 = swcyStakers swcy_chain.
Proof.
  cbn zeta.
  assert (stakes_ok swcy_chain) as Hok.
  { intros k r Hk. change (swcyStakers swcy_chain) with ({[GetKey hugo := NewSWCYStaker hugo 200]} : gmap string SWCYStaker) in Hk.
    apply lookup_singleton_Some in Hk as [_ <-]. cbn. lia. }
  assert (fst (SWCYUnstake_Run (takes_half hugo) swcy_chain) = Ok ()) as H1 by (vm_compute; reflexivity).
  assert (fst (SWCYUnstake_Run (takes_half "swtc1contract") swcy_chain) = Ok ()) as H2 by (vm_compute; reflexivity).
  destruct (SWCYUnstake_Run_pays (takes_half "swtc1contract") swcy_chain (snd (SWCYUnstake_Run (takes_half "swtc1contract") swcy_chain))
    (run_pair _ _ H2) Hok ltac:(cbn; lia)) as (stake & acc & _ & _ & _ & _ & _ & Hc).
  destruct Hc as [_ Hc]; [vm_compute; reflexivity|].
  split_and!; [vm_compute; reflexivity..|exact Hc].
Defined.
