(* ===== verification/Rewards.v ===== *)
(** * The income of the network

    src/x/switchly/manager_network_current.go ([UpdateNetwork] and what it calls)
    and the sums over pools, vaults and bonds of src/x/switchly/helpers.go: the
    reward of a block, the incentive pendulum between bonds and liquidity, the
    payments to pools, savers, bonds and the other shares of the income. *)

From stdpp Require Import sorting.
From S2P Require Import Prelude Runs GoStrings CosmosMath Amounts Assets Coins Pools Constants State Txs Fees Nodes Quorum ObservedTx Attest SwapHandler SwapOrder Vaults Gas Layers Slasher ChainState.
Open Scope Z_scope.

Section Sums.
  Context `{CosmosMath}.

Definition by_bond : list NodeAccount → list NodeAccount := sort_stable (λ a b, na_Bond a <? na_Bond b).
(** The index of the two thirds. *)
Definition bond_index (n : Z) : Z := n * 2 / 3 - (if n `mod` 3 =? 0 then 1 else 0).
Fixpoint add_bonds (bonds : list Z) (amt : Z) : outcome Z :=
  match bonds with
  | [] => Ok amt
  | b :: r => amt ← uadd amt b; add_bonds r amt
  end.
(** The bonds of the two thirds of the nodes with the lowest. *)
Definition getEffectiveSecurityBond (nas : list NodeAccount) : outcome Z :=
  add_bonds (na_Bond <$> take (Z.to_nat (bond_index (len nas) + 1)) (by_bond nas)) 0.
Definition getHardBondCap (nas : list NodeAccount) : Z :=
  match nas with
  | [] => 0
  | _ => from_option na_Bond 0 (by_bond nas !! Z.to_nat (bond_index (len nas)))
  end.
(** The nodes are left in the order of their bonds. *)
Definition getTotalEffectiveBond (nas : list NodeAccount) : outcome (Z * Z) :=
  let bondHardCap := getHardBondCap nas in
  t ← add_bonds ((λ na, if bondHardCap <? na_Bond na then bondHardCap else na_Bond na) <$> by_bond nas) 0;
  Ok (t, bondHardCap).
End Sums.

Section Rewards.
  Context `{CosmosMath} `{Bank} `{Env} `{!PubKeys} `{UpgradeKeeper}.
Abbreviation C := (M ChainState).

(** The external pools that are available, and their SWITCH. *)
Fixpoint add_pools (ps : list Pool) (t : Z) : outcome Z :=
  match ps with
  | [] => Ok t
  | p :: r => t ← uadd t (BalanceSwitch p); add_pools r t
  end.
Definition is_rewarded (p : Pool) : bool :=
  IsAvailable p && negb (Assets.IsNative (pool_asset p)) && negb (BalanceSwitch p =? 0).
Definition getAvailablePoolsSWITCH : K (list Pool * Z) :=
  all ← GetPools;
  let availablePools := List.filter is_rewarded all in
  t ← lift (add_pools availablePools 0);
  mret (availablePools, t).

(** The value of what the vaults hold.  The code keeps the pools it has read; they
    do not change meanwhile. *)
Fixpoint value_coins (coins : list Coin) (t : Z) : K Z :=
  match coins with
  | [] => mret t
  | c :: r =>
      v ← (if Assets.IsSwitch (coin_asset c) then mret (coin_amount c)
           else pool ← GetPool (coin_asset c); mret (AssetValueInSWITCH pool (coin_amount c)));
      t ← lift (uadd t v);
      value_coins r t
  end.
Definition getVaultsLiquiditySWITCH (ctx : Ctx) : C Z :=
  vaults ← in_vaults (GetAsgardVaults ctx);
  chain_core (value_coins (concat (v_Coins <$> List.filter (λ v, negb (bool_decide (v_Status v = InactiveVault))) vaults)) 0).

Definition getTotalActiveNodeWithBond : C Z :=
  nas ← chain_obs ListActiveValidators;
  mret (len (List.filter (λ na, negb (na_Bond na =? 0)) nas)).

(** ** The split of the income *)

(** What liquidity gets: nothing when it is worth more than what secures it. *)
Definition getPoolShare (pooledSWITCH vaultLiquidity effectiveSecurityBond totalEffectiveBond totalRewards assetsBps : Z)
    (useEffectiveSecurity useVaultAssets : bool) : outcome Z :=
  let securing := if useEffectiveSecurity then effectiveSecurityBond else totalEffectiveBond in
  let secured := if useVaultAssets then vaultLiquidity else pooledSWITCH in
  let secured := GetUncappedShare assetsBps MaxBasisPts secured in
  if securing <=? secured then Ok 0
  else
    let baseNodeShare := GetSafeShare secured securing totalRewards in
    basePoolShare ← SafeSub totalRewards baseNodeShare;
    let adjustmentNodeShare :=
      if useEffectiveSecurity then GetUncappedShare totalEffectiveBond effectiveSecurityBond baseNodeShare
      else baseNodeShare in
    let adjustmentPoolShare :=
      if useVaultAssets then GetSafeShare pooledSWITCH vaultLiquidity basePoolShare else basePoolShare in
    adjustmentRewards ← uadd adjustmentPoolShare adjustmentNodeShare;
    Ok (GetSafeShare adjustmentPoolShare adjustmentRewards totalRewards).

Record BlockRewards := mkBlockRewards {
  bonderSplit : Z;
  lpSplit : Z;
  lpShare : Z;
  devFundDeduct : Z;
  systemIncomeBurnDeduct : Z;
  swcyStakeDeduct : Z;
}.

(** The part of the reserve that a block gives out. *)
Definition block_reward (totalReserve emissionCurve blocksPerYear : Z) : outcome Z :=
  r ← as_uint64 totalReserve;
  trD ← dec_of_bigint (to_i64 r);
  ecD ← dec_of_bigint emissionCurve;
  bpyD ← dec_of_bigint blocksPerYear;
  a ← dec_quo trD ecD;
  blockRewardD ← dec_quo a bpyD;
  i ← dec_round_int blockRewardD;
  i ← as_int64 i;
  Ok (to_u64 i).

(** A deduction takes at most what is left. *)
Definition deduct (amt systemIncome : Z) : outcome (Z * Z) :=
  let amt := if systemIncome <? amt then systemIncome else amt in
  left ← (if amt =? 0 then Ok systemIncome else SafeSub systemIncome amt);
  Ok (amt, left).

Definition calcBlockRewards (availablePoolsSWITCH vaultsLiquiditySWITCH effectiveSecurityBond totalEffectiveBond
    totalReserve totalLiquidityFees emissionCurve blocksPerYear devFundSystemIncomeBps systemIncomeBurnRateBps
    swcyStakeSystemIncomeBps : Z) : K BlockRewards :=
  blockReward ← lift (block_reward totalReserve emissionCurve blocksPerYear);
  systemIncome ← lift (uadd blockReward totalLiquidityFees);
  let dev := GetSafeShare (SafeUintFromInt64 devFundSystemIncomeBps) 10000 systemIncome in
  let burn := GetSafeShare (SafeUintFromInt64 systemIncomeBurnRateBps) 10000 systemIncome in
  let swcy := GetSafeShare (SafeUintFromInt64 swcyStakeSystemIncomeBps) 10000 systemIncome in
  bps ← GetConfigInt64 "PendulumAssetsBasisPoints";
  e ← GetConfigInt64 "PendulumUseEffectiveSecurity";
  v ← GetConfigInt64 "PendulumUseVaultAssets";
  systemIncome ← lift (if swcy =? 0 then Ok systemIncome else SafeSub systemIncome swcy);
  '(dev, systemIncome) ← lift (deduct dev systemIncome);
  '(burn, systemIncome) ← lift (deduct burn systemIncome);
  lp ← lift (getPoolShare availablePoolsSWITCH vaultsLiquiditySWITCH effectiveSecurityBond totalEffectiveBond systemIncome
               (to_u64 bps) (0 <? e) (0 <? v));
  bonder ← lift (SafeSub systemIncome lp);
  mret (mkBlockRewards bonder lp (GetSafeShare lp systemIncome 10000) dev burn swcy).

(** ** Savers *)

(** The basis points of the yield fade as synths near their limit. *)
Definition yield_points (pool : Pool) (basisPts : Z) : K Z :=
  most ← GetConfigInt64 "MaxSynthsForSaversYield";
  if 0 <? most then
    synthSupply ← GetTotalSupply (Assets.GetSyntheticAsset (pool_asset pool));
    '(pool, _) ← lift (CalcUnits pool synthSupply);
    units ← lift (GetPoolUnits pool);
    let synthPerPoolDepth := GetUncappedShare (SynthUnits pool) units 10000 in
    let lostYield := GetUncappedShare synthPerPoolDepth (to_u64 most) (to_u64 basisPts) in
    left ← lift (SafeSub (to_u64 basisPts) lostYield);
    mret (to_i64 left)
  else mret basisPts.

Definition paySaverYield (a : Asset) (switchAmt : Z) : K () :=
  pool ← GetPool (Assets.GetLayer1Asset a);
  if (BalanceAsset pool =? 0) || negb (IsAvailable pool) then mret ()
  else
    saver ← GetPool (Assets.GetSyntheticAsset a);
    if (BalanceAsset saver =? 0) || (LPUnits saver =? 0) then mret ()
    else
      m ← GetMimir "SynthYieldBasisPoints";
      let basisPts := if m <? 0 then GetInt64Value int64Overrides "SynthYieldBasisPoints" else m in
      basisPts ← yield_points pool basisPts;
      if basisPts <=? 0 then mret ()
      else
        assetAmt ← lift (SWITCHValueInAsset pool switchAmt);
        twice ← lift (umul (BalanceAsset pool) 2);
        let earnings := GetSafeShare (BalanceAsset saver) twice assetAmt in
        let earnings := GetSafeShare (to_u64 basisPts) 10000 earnings in
        if earnings =? 0 then mret ()
        else
          let c := NewCoin (Assets.GetSyntheticAsset (pool_asset saver)) earnings in
          _ ← MintToModule ModuleName c;
          _ ← SendFromModuleToModule ModuleName AsgardName [c];
          b ← lift (uadd (BalanceAsset saver) earnings);
          _ ← SetPool (set_BalanceAsset b saver);
          _ ← lift (NewAddress (module_address ModuleName));
          _ ← lift (NewAddress (module_address AsgardName));
          EmitEvent (EvDonate (pool_asset saver) BlankTxID).

(** ** The payments *)

(** The amount and the fees of a pool: by fees, or by depth when there are none. *)
Definition pool_amount (ctx : Ctx) (pool : Pool) (availablePoolsSWITCH totalLiquidityFees totalPoolRewards : Z) : K (Z * Z) :=
  if totalLiquidityFees =? 0 then mret (GetSafeShare (BalanceSwitch pool) availablePoolsSWITCH totalPoolRewards, 0)
  else
    fees ← gets (λ s, default 0 (poolLiquidityFees s !! (to_u64 (BlockHeight ctx), GetKey (Assets.Str (pool_asset pool)))));
    mret (GetSafeShare fees totalLiquidityFees totalPoolRewards, fees).
Fixpoint pool_rewards (ctx : Ctx) (pools : list Pool) (availablePoolsSWITCH totalLiquidityFees totalPoolRewards : Z)
    : K (list (Pool * Z)) :=
  match pools with
  | [] => mret []
  | pool :: r =>
      '(amt, fees) ← pool_amount ctx pool availablePoolsSWITCH totalLiquidityFees totalPoolRewards;
      yield ← lift (uadd amt fees);
      _ ← paySaverYield (pool_asset pool) yield;
      _ ← lift (if amt =? 0 then Ok 0 else as_uint64 amt);
      more ← pool_rewards ctx r availablePoolsSWITCH totalLiquidityFees totalPoolRewards;
      mret (if amt =? 0 then more else (pool, amt) :: more)
  end.
(** The pools are saved as they were read before the savers were paid. *)
Definition payPoolRewards (rewards : list (Pool * Z)) : K () :=
  for_each (λ '(pool, reward),
    if reward =? 0 then mret ()
    else
      b ← lift (uadd (BalanceSwitch pool) reward);
      _ ← SetPool (set_BalanceSwitch b pool);
      SendFromModuleToModule ReserveName AsgardName [NewCoin SwitchNative reward]) rewards.

Definition pay_dev_fund (amt : Z) : K () :=
  if amt =? 0 then mret ()
  else
    devFundAddress ← lift (AccAddressFromBech32 (GetStringValue stringOverrides "DevFundAddress"));
    SendFromModuleToAccount ReserveName devFundAddress [NewCoin SwitchNative amt].
(** What is burnt lowers the cap of the supply. *)
Definition burn_income (amt : Z) : K () :=
  if amt =? 0 then mret ()
  else
    let c := NewCoin SwitchNative amt in
    _ ← SendFromModuleToModule ReserveName ModuleName [c];
    _ ← BurnFromModule ModuleName c;
    _ ← EmitEvent (EvBurn (Assets.Native SwitchNative) amt "burn_system_income");
    most ← GetConfigInt64 "MaxSWITCHSupply";
    most ← lift (usub (SafeUintFromInt64 most) amt);
    most ← lift (as_uint64 most);
    SetMimir "MaxSWITCHSupply" (to_i64 most).
Definition pay_module (to : string) (amt : Z) : K () :=
  if amt =? 0 then mret () else SendFromModuleToModule ReserveName to [NewCoin SwitchNative amt].

(** The six steps of the income, in the order of the code. *)
Definition pay_income (ctx : Ctx) (r : BlockRewards) (pools : list Pool) (availablePoolsSWITCH totalLiquidityFees : Z)
    : K (list (Pool * Z)) :=
  _ ← pay_dev_fund (devFundDeduct r);
  _ ← burn_income (systemIncomeBurnDeduct r);
  _ ← pay_module SWCYStakeName (swcyStakeDeduct r);
  rewards ←
    (if lpSplit r =? 0 then mret []
     else
       rewards ← pool_rewards ctx pools availablePoolsSWITCH totalLiquidityFees (lpSplit r);
       _ ← payPoolRewards rewards;
       mret rewards);
  _ ← pay_module BondName (bonderSplit r);
  mret rewards.

Definition config_rewards (ctx : Ctx) (availablePoolsSWITCH vaultsLiquiditySWITCH totalReserve totalLiquidityFees : Z)
    (active : list NodeAccount) : K BlockRewards :=
  effectiveSecurityBond ← lift (getEffectiveSecurityBond active);
  '(totalEffectiveBond, _) ← lift (getTotalEffectiveBond active);
  emissionCurve ← GetConfigInt64 "EmissionCurve";
  dev ← GetConfigInt64 "DevFundSystemIncomeBps";
  burn ← GetConfigInt64 "SystemIncomeBurnRateBps";
  swcy ← GetConfigInt64 "SWCYStakeSystemIncomeBps";
  calcBlockRewards availablePoolsSWITCH vaultsLiquiditySWITCH effectiveSecurityBond totalEffectiveBond totalReserve
    totalLiquidityFees emissionCurve (GetInt64Value int64Overrides "BlocksPerYear") dev burn swcy.

Definition UpdateNetwork (ctx : Ctx) : C () :=
  nw ← Keeper_GetNetwork;
  totalReserve ← chain_core (GetSWITCHBalanceOfModule ReserveName);
  if totalReserve =? 0 then mret ()
  else
    '(availablePools, availablePoolsSWITCH) ← chain_core getAvailablePoolsSWITCH;
    vaultsLiquiditySWITCH ← getVaultsLiquiditySWITCH ctx;
    if availablePoolsSWITCH =? 0 then mret ()
    else
      totalLiquidityFees ← chain_core (gets (λ s, default 0 (totalLiquidityFees s !! to_u64 (BlockHeight ctx))));
      active ← chain_obs ListActiveValidators;
      r ← chain_core (config_rewards ctx availablePoolsSWITCH vaultsLiquiditySWITCH totalReserve totalLiquidityFees active);
      rewards ← chain_core (pay_income ctx r availablePools availablePoolsSWITCH totalLiquidityFees);
      share ← lift (as_uint64 (lpShare r));
      b ← lift (uadd (BondRewardSwitch nw) (bonderSplit r));
      _ ← chain_core (EmitEvent (EvRewards (bonderSplit r) ((λ '(p, amt), (pool_asset p, to_i64 amt)) <$> rewards)
                                  (devFundDeduct r) (systemIncomeBurnDeduct r) (swcyStakeDeduct r)));
      i ← getTotalActiveNodeWithBond;
      u ← lift (uadd (TotalBondUnits nw) (to_u64 i));
      SetNetwork (set_TotalBondUnits u (set_BondRewardSwitch b (set_IncomeSplit (to_i64 share) (to_i64 (10000 - to_i64 share)) nw))).
End Rewards.

(** ** The split *)

Section Split.
  Context `{CosmosMath} `{Bank} `{Env} `{!PubKeys} `{UpgradeKeeper}.

Lemma uncapped_nothing p a : GetUncappedShare p 0 a = 0.
Proof. unfold GetUncappedShare. by rewrite Z.eqb_refl, ?orb_true_r. Qed.

(** A share of at most a million times the allocation. *)
Lemma uncapped_share_le p t a :
  0 ≤ p ≤ 10 ^ 6 * t → t < 2 ^ 100 → 0 ≤ a < 2 ^ 90 → 0 ≤ GetUncappedShare p t a < 2 ^ 115.
Proof.
  intros [Hp Hpt] Ht Ha. destruct (decide (t = 0)) as [->|]; [by rewrite uncapped_nothing|].
  destruct (decide (p = 0)) as [->|]; [unfold GetUncappedShare; cbn; lia|].
  destruct (uncapped_share_error p t a) as [Hr He]; [lia..|]. set (r := GetUncappedShare p t a) in *. split; [done|].
  assert (10 ^ 18 * (r * t - a * p) ≤ 10 ^ 18 * t + (r + 1) * p) by lia.
  assert ((r + 1) * p ≤ (r + 1) * (10 ^ 6 * t)) by nia.
  assert (a * p ≤ 2 ^ 90 * (10 ^ 6 * t)) by nia.
  assert ((10 ^ 18 - 10 ^ 6) * r * t ≤ (10 ^ 18 + 10 ^ 6 + 10 ^ 18 * (2 ^ 90 * 10 ^ 6)) * t) by lia.
  assert ((10 ^ 18 - 10 ^ 6) * r ≤ 10 ^ 18 + 10 ^ 6 + 10 ^ 18 * (2 ^ 90 * 10 ^ 6)) by nia. lia.
Qed.

Lemma sum_perm l k : l ≡ₚ k → sumZ l = sumZ k.
Proof. induction 1; cbn; unfold sumZ in *; lia. Qed.
Lemma sum_le {A} (f g : A → Z) l : Forall (λ x, f x ≤ g x) l → sumZ (f <$> l) ≤ sumZ (g <$> l).
Proof. induction 1 as [|x l Hx Hl IH]; cbn; [done|]. unfold sumZ in IH. lia. Qed.
Lemma filter_sum {A} (f : A → Z) (p : A → bool) l : Forall (λ x, 0 ≤ f x) l → sumZ (f <$> List.filter p l) ≤ sumZ (f <$> l).
Proof.
  induction 1 as [|x l Hx Hl IH]; cbn; [done|]. destruct (p x); cbn; unfold sumZ in IH; lia.
Qed.
(** Shares of a total are rounded, each by less than one. *)
Lemma shares_sum t a ps :
  Forall (λ p, 0 ≤ p ≤ t) ps → sumZ ps ≤ t → t < 2 ^ 120 → 0 ≤ a ≤ 10 ^ 17 →
  sumZ ((λ p, GetUncappedShare p t a) <$> ps) ≤ a + len ps.
Proof.
  intros Hps Hsum Ht Ha. destruct (Z.eq_dec t 0) as [->|Hne].
  { assert (sumZ ((λ p, GetUncappedShare p 0 a) <$> ps) = 0) as ->; [|unfold len; lia].
    clear. induction ps as [|p ps IH]; [done|]. rewrite fmap_cons. change (GetUncappedShare p 0 a + sumZ ((λ p, GetUncappedShare p 0 a) <$> ps) = 0).
    rewrite IH, GetUncappedShare_zero by auto. lia. }
  assert (sumZ ((λ p, GetUncappedShare p t a) <$> ps) * t ≤ a * sumZ ps + t * len ps).
  { clear Hsum. induction Hps as [|p ps Hp Hps IH]; [unfold len; cbn; lia|]. rewrite fmap_cons. unfold len in *. cbn [length]. rewrite Nat2Z.inj_succ.
    change ((GetUncappedShare p t a + sumZ ((λ p, GetUncappedShare p t a) <$> ps)) * t ≤ a * (p + sumZ ps) + t * Z.succ (Z.of_nat (length ps))).
    assert (GetUncappedShare p t a * t ≤ a * p + t).
    { destruct (Z.eq_dec p 0) as [->|Hp0]; [rewrite GetUncappedShare_zero by auto; lia|].
      pose proof (share_error p t a ltac:(lia) ltac:(lia) Ha). lia. }
    lia. }
  assert (0 ≤ sumZ ps) by (apply sumZ_nonneg; apply list.Forall_forall; intros p Hin; rewrite list.Forall_forall in Hps; apply Hps in Hin; lia).
  assert (a * sumZ ps ≤ a * t) by (apply Z.mul_le_mono_nonneg_l; lia). apply (Z.mul_le_mono_pos_r _ _ t); lia.
Qed.

Lemma getPoolShare_range pooledSWITCH vaultLiquidity esb teb total bps ues uva lp :
  getPoolShare pooledSWITCH vaultLiquidity esb teb total bps ues uva = Ok lp →
  0 ≤ pooledSWITCH → 0 ≤ vaultLiquidity < 2 ^ 120 → 0 ≤ esb < 2 ^ 100 → 0 ≤ teb ≤ 10 ^ 6 * esb → 0 ≤ total < 2 ^ 90 →
  0 ≤ lp ≤ total ∧
  ((if ues then esb else teb) ≤ GetUncappedShare bps MaxBasisPts (if uva then vaultLiquidity else pooledSWITCH) → lp = 0).
Proof.
  unfold getPoolShare. cbv zeta. intros Hrun Hp Hv He Ht Ha.
  destruct (Z.leb_spec (if ues then esb else teb) (GetUncappedShare bps MaxBasisPts (if uva then vaultLiquidity else pooledSWITCH))) as [Hle|Hlt].
  { injection Hrun as <-. lia. }
  split; [|lia]. set (sec := GetUncappedShare bps _ _) in *. set (ing := if ues then esb else teb) in *.
  assert (0 ≤ sec) by apply GetUncappedShare_range.
  assert (0 ≤ ing < 2 ^ 120) by (unfold ing; destruct ues; lia).
  pose proof (GetSafeShare_le sec ing total ltac:(lia) ltac:(lia) ltac:(lia)) as Hb. set (base := GetSafeShare sec ing total) in *.
  apply bind_ok in Hrun as (pool & Hs & Hrun). apply SafeSub_inv in Hs; [|lia..].
  apply bind_ok in Hrun as (adj & Hs2 & Hrun). apply uadd_inv in Hs2 as [Hadj _]. injection Hrun as <-.
  assert (0 ≤ (if ues then GetUncappedShare teb esb base else base) < 2 ^ 115).
  { destruct ues; [|lia]. apply uncapped_share_le; lia. }
  assert (0 ≤ (if uva then GetSafeShare pooledSWITCH vaultLiquidity pool else pool) < 2 ^ 115).
  { destruct uva; [|lia]. pose proof (GetSafeShare_le pooledSWITCH vaultLiquidity pool ltac:(lia) ltac:(lia) ltac:(lia)). lia. }
  apply GetSafeShare_le; lia.
Qed.

Lemma deduct_ok amt income amt' rest :
  deduct amt income = Ok (amt', rest) → 0 ≤ amt → 0 ≤ income → amt' = Z.min amt income ∧ rest = income - amt' ∧ 0 ≤ rest.
Proof.
  unfold deduct. cbv zeta. intros Hrun Ha Hi. apply bind_ok in Hrun as (l & Hl & [= <- <-]).
  destruct (Z.ltb_spec income amt); (destruct (Z.eqb_spec (if income <? amt then income else amt) 0) || idtac);
    (match type of Hl with (if ?b then _ else _) = _ => destruct b eqn:Hb end;
     [injection Hl as <-; apply Z.eqb_eq in Hb; lia|apply SafeSub_inv in Hl; lia]).
Qed.

(** C14: The income of a block (its reward and the fees) is split without rest between
    bonds, liquidity, the developers' fund, the stakers of SWCY and what is burnt;
    the stakers come first and nobody gets more than there is. *)
Theorem block_income_is_split pooledSWITCH vaultLiquidity esb teb reserve fees curve blocks dev burn swcy s r s' :
  calcBlockRewards pooledSWITCH vaultLiquidity esb teb reserve fees curve blocks dev burn swcy s = (Ok r, s') →
  0 ≤ pooledSWITCH → 0 ≤ vaultLiquidity < 2 ^ 120 → 0 ≤ esb < 2 ^ 100 → 0 ≤ teb ≤ 10 ^ 6 * esb → 0 ≤ fees < 2 ^ 64 →
  s' = s ∧ ∃ reward, block_reward reserve curve blocks = Ok reward ∧
  bonderSplit r + lpSplit r + devFundDeduct r + systemIncomeBurnDeduct r + swcyStakeDeduct r = reward + fees ∧
  0 ≤ bonderSplit r ∧ 0 ≤ lpSplit r ∧ 0 ≤ devFundDeduct r ∧ 0 ≤ systemIncomeBurnDeduct r ∧ 0 ≤ lpShare r ≤ 10000 ∧
  swcyStakeDeduct r = GetSafeShare (SafeUintFromInt64 swcy) 10000 (reward + fees).
Proof.
  intros Hrun Hp Hv He Ht Hf. unfold calcBlockRewards in Hrun. run_step Hrun reward s1 E. apply lift_ok in E as [Hr ->].
  assert (0 ≤ reward < 2 ^ 64) as Hrange.
  { unfold block_reward in Hr. ok_inv. unfold to_u64. apply Z.mod_pos_bound. lia. }
  run_step Hrun income s1 E. apply lift_ok in E as [Hi ->]. apply uadd_inv in Hi as [-> _]. cbv zeta in Hrun.
  set (income := reward + fees) in *.
  assert (Hbps : ∀ v, 0 ≤ GetSafeShare (SafeUintFromInt64 v) 10000 income ≤ income).
  { intros v. apply GetSafeShare_le; [|lia..]. unfold SafeUintFromInt64, to_u64. destruct (v <? 0); [lia|]. apply Z.mod_pos_bound. lia. }
  pose proof (Hbps dev) as Hdev. pose proof (Hbps burn) as Hburn. pose proof (Hbps swcy) as Hswcy. clear Hbps.
  set (sw := GetSafeShare (SafeUintFromInt64 swcy) 10000 income) in *.
  read_past Hrun bps Eb. read_past Hrun e Ee. read_past Hrun v Ev. clear Eb Ee Ev.
  run_step Hrun left1 s1 E. apply lift_ok in E as [Hl ->].
  assert (left1 = income - sw) as ->.
  { destruct (Z.eqb_spec sw 0) as [->|]; [injection Hl as <-; lia|apply SafeSub_inv in Hl; lia]. }
  run_step Hrun dl s1 E. apply lift_ok in E as [Hd ->]. destruct dl as [d l1]. apply deduct_ok in Hd as (Hd & Hl1 & Hl1p); [|lia..].
  run_step Hrun dl s1 E. apply lift_ok in E as [Hb ->]. destruct dl as [b l2]. apply deduct_ok in Hb as (Hb & Hl2 & Hl2p); [|lia..].
  run_step Hrun lp s1 E. apply lift_ok in E as [Hlp ->]. apply getPoolShare_range in Hlp as [Hlp _]; [|lia..].
  run_step Hrun bonder s1 E. apply lift_ok in E as [Hbo ->]. apply SafeSub_inv in Hbo; [|lia..].
  apply ret_ok in Hrun as [-> ->]. split; [done|]. exists reward. cbn.
  assert (0 ≤ GetSafeShare lp l2 10000 ≤ 10000) by (apply GetSafeShare_le; lia).
  split_and!; [done|lia..|done].
Qed.
End Split.

(** ** What the payments move *)

Lemma map_sum_fmap {K A B} `{Countable K} (f : A → B) (g : B → Z) (m : gmap K A) : map_sum g (f <$> m) = map_sum (λ a, g (f a)) m.
Proof.
  induction m as [|k a m Hk IH] using map_ind; [by rewrite fmap_empty, !map_sum_empty|].
  rewrite fmap_insert, !map_sum_insert_None by (rewrite ?lookup_fmap, ?Hk; done). by rewrite IH.
Qed.

Section Payments.
  Context `{CosmosMath} `{Bank} `{Env} `{!PubKeys} `{UpgradeKeeper}.

(** No synth is SWITCH. *)
Lemma lowered_sep c x y : lower c = c → c ∈ String.list_ascii_of_string (ToLower (x +:+ String c y)).
Proof.
  intros Hc. unfold ToLower. induction x as [|d x IH]; rewrite ?app_nil, ?app_cons; cbn [str_map String.list_ascii_of_string].
  - change ("" +:+ String c y) with (String c y). cbn [str_map String.list_ascii_of_string]. rewrite Hc. apply list_elem_of_here.
  - apply list_elem_of_further, IH.
Qed.
Lemma synth_is_not_switch a : Assets.Native (Assets.GetSyntheticAsset a) ≠ "switch".
Proof.
  assert (Hs : Synth (Assets.GetSyntheticAsset a) = true).
  { unfold Assets.GetSyntheticAsset. by destruct (Synth a) eqn:E. }
  set (b := Assets.GetSyntheticAsset a) in *. clearbody b. unfold Assets.Native.
  assert (He : ∀ c, Synth c = false → Assets.Equals b c = false ∧ Assets.Equals c b = false).
  { intros c Hc. unfold Assets.Equals. rewrite Hs, Hc. cbn. by rewrite !andb_false_r. }
  unfold Assets.IsSwitch, Assets.IsRUJI. rewrite (proj1 (He SwitchNative eq_refl)), (proj1 (He SWITCHLY eq_refl)), (proj1 (He SWCY eq_refl)), (proj2 (He RUJI eq_refl)).
  intros Heq. unfold Assets.Str in Heq. rewrite Hs in Heq.
  assert (∃ c x y, lower c = c ∧ c ∈ Ascii.ascii_of_nat <$> [47; 126; 45]%nat ∧ ToLower (x +:+ String c y) = "switch") as (c & x & y & Hl & Hin & Hq).
  { exists (Ascii.ascii_of_nat (if Secured b then 45 else if Trade b then 126 else 47)), (Chains.Str (chain b)), (Assets.SymbolString b).
    destruct (Secured b), (Trade b); (split; [vm_compute; reflexivity|split; [cbn; set_solver|exact Heq]]). }
  pose proof (lowered_sep c x y Hl) as Hc. rewrite Hq in Hc. cbn in Hc. set_solver.
Qed.

(** The depths of the pools in SWITCH, by their keys. *)
Definition depths (s : State) : gmap string Z := BalanceSwitch <$> pools s.
Definition pools_filed (s : State) : Prop := ∀ k p, pools s !! k = Some p → k = GetKey (Assets.Str (pool_asset p)).
Lemma pooled_depths s : pooled s = map_sum id (depths s).
Proof. unfold pooled, depths. by rewrite map_sum_fmap. Qed.

(** All SWITCH is where it was, and the depths and the fees are as they were. *)
Record same_books (s s' : State) : Prop := {
  sb_filed : pools_filed s';
  sb_depths : depths s' = depths s;
  sb_balance p : bank_balance (bank s') p "switch" = bank_balance (bank s) p "switch";
  sb_supply : bank_supply (bank s') "switch" = bank_supply (bank s) "switch";
  sb_fees : poolLiquidityFees s' = poolLiquidityFees s;
}.
Lemma same_books_refl s : pools_filed s → same_books s s.
Proof. by split. Qed.
Lemma same_books_trans s1 s2 s3 : same_books s1 s2 → same_books s2 s3 → same_books s1 s3.
Proof. intros [] []. split; [done|congruence|intros p; congruence|congruence|congruence]. Qed.

(** A pool is saved with the depth it has. *)
Lemma save_same_depth p s u s' :
  SetPool p s = (Ok u, s') → pools_filed s → depths s !! GetKey (Assets.Str (pool_asset p)) = Some (BalanceSwitch p) → same_books s s'.
Proof.
  intros Hrun Hf Hd. destruct u. apply SetPool_ok in Hrun as [_ ->]. split; [|unfold depths; cbn|done..].
  - intros k q. cbn. intros [[<- <-]|[_ Hq]]%lookup_insert_Some; [done|by apply Hf].
  - rewrite fmap_insert. by apply insert_id.
Qed.

Lemma bank_only (m : M bank_state ()) s u s' :
  in_bank m s = (Ok u, s') → pools_filed s → (∀ b', m (bank s) = (Ok (), b') →
    (∀ p, bank_balance b' p "switch" = bank_balance (bank s) p "switch") ∧ bank_supply b' "switch" = bank_supply (bank s) "switch") →
  same_books s s'.
Proof.
  intros Hrun Hf Hm. destruct u. apply in_bank_ok in Hrun as (b' & Hb & ->). apply Hm in Hb as [Hbal Hsup].
  split; [exact Hf|done|exact Hbal|exact Hsup|done].
Qed.
Lemma mimirs_only k v s u s' : SetMimir k v s = (Ok u, s') → pools_filed s → same_books s s'.
Proof. intros [= _ <-] Hf. by split. Qed.

(** Synths are minted and sent without SWITCH. *)
Lemma mint_synth a amt s u s' :
  MintToModule ModuleName (NewCoin (Assets.GetSyntheticAsset a) amt) s = (Ok u, s') → pools_filed s → same_books s s'.
Proof.
  set (x := Assets.GetSyntheticAsset a). assert (Hx : Assets.Native x ≠ "switch") by apply synth_is_not_switch.
  intros Hrun Hf. unfold MintToModule in Hrun. read_past Hrun mx Em.
  assert (Hs : Assets.IsSwitch x = false) by (destruct (Assets.IsSwitch x) eqn:E; [|done]; unfold Assets.Native in Hx; by rewrite E in Hx).
  cbn [coin_asset NewCoin] in Hrun. rewrite Hs in Hrun. cbn [andb] in Hrun. run_step Hrun c s1 E. apply ret_ok in E as [-> ->].
  unfold mint_checked in Hrun. cbn [coin_amount NewCoin] in Hrun. destruct (amt =? 0); [apply ret_ok in Hrun as [_ ->]; by apply same_books_refl|].
  run_step Hrun d s1 E. apply lift_ok in E as [Hd ->]. run_step Hrun u1 s1 E.
  assert (d = (Assets.Native x, amt)) as -> by (unfold Coin_Native in Hd; destruct (negb _); [done|by injection Hd as <-]).
  apply bank_only in E; [|done|].
  2: { intros b' Hb. apply bank_mint_law in Hb as (_ & Hsup & Hbal). split.
       - intros p. rewrite Hbal, decide_False by naive_solver. lia.
       - rewrite Hsup, decide_False by congruence. lia. }
  apply (same_books_trans _ s1); [done|]. pose proof (sb_filed _ _ E) as Hf1.
  read_past Hrun coin2 Ec. read_past Hrun mx2 Em2. destruct (_ && _); [|apply ret_ok in Hrun as [_ ->]; by apply same_books_refl].
  run_step Hrun u2 s2 E2. apply mimirs_only in E2; [|done]. apply (same_books_trans _ s2); [done|]. pose proof (sb_filed _ _ E2).
  run_step Hrun u3 s3 E3. apply mimirs_only in E3; [|done]. apply (same_books_trans _ s3); [done|]. pose proof (sb_filed _ _ E3).
  run_step Hrun u4 s4 E4. apply mimirs_only in E4; [|done]. apply (same_books_trans _ s4); [done|]. pose proof (sb_filed _ _ E4).
  by apply mimirs_only in Hrun.
Qed.
Lemma send_synth a amt s u s' :
  SendFromModuleToModule ModuleName AsgardName [NewCoin (Assets.GetSyntheticAsset a) amt] s = (Ok u, s') → pools_filed s → same_books s s'.
Proof.
  intros Hrun Hf. unfold SendFromModuleToModule in Hrun. apply bank_only in Hrun; [done|done|].
  intros b' Hb. cbn [map] in Hb. unfold native_coin in Hb. cbn [coin_asset coin_amount NewCoin] in Hb.
  pose proof (synth_is_not_switch a). apply bank_send_law in Hb as (_ & Hsup & Hbal). split; [|apply Hsup].
  intros p. rewrite Hbal, !decide_False by naive_solver. lia.
Qed.

Lemma reads_yield pool b : only_reads (yield_points pool b).
Proof. unfold yield_points, GetTotalSupply, GetPoolRagnarokStart. reads. Qed.
#[local] Hint Resolve reads_yield : reads.

Lemma stored_pool_depth s a : pools_filed s → BalanceAsset (default NewPool (pools s !! GetKey (Assets.Str a))) ≠ 0 →
  let p := default NewPool (pools s !! GetKey (Assets.Str a)) in depths s !! GetKey (Assets.Str (pool_asset p)) = Some (BalanceSwitch p).
Proof.
  intros Hf. cbn zeta. destruct (pools s !! GetKey (Assets.Str a)) as [p|] eqn:Hp; cbn; [|done].
  intros _. unfold depths. rewrite <- (Hf _ _ Hp), lookup_fmap, Hp. done.
Qed.

(** The savers are paid in synths: the SWITCH stays. *)
Lemma paySaverYield_same a amt s u s' : paySaverYield a amt s = (Ok u, s') → pools_filed s → same_books s s'.
Proof.
  intros Hrun Hf. unfold paySaverYield in Hrun. read_past Hrun pool Ep.
  destruct (_ || _); [apply ret_ok in Hrun as [_ ->]; by apply same_books_refl|].
  read_past Hrun saver Es. cbn in Es. injection Es as <-. set (saver := default _ _) in *.
  destruct (_ || _) eqn:Hz; [apply ret_ok in Hrun as [_ ->]; by apply same_books_refl|]. apply orb_false_iff in Hz as [Hz%Z.eqb_neq _].
  read_past Hrun m Em. cbv zeta in Hrun. read_past Hrun pts Epts.
  destruct (pts <=? 0); [apply ret_ok in Hrun as [_ ->]; by apply same_books_refl|].
  run_step Hrun v s1 E. apply lift_ok in E as [_ ->]. run_step Hrun t s1 E. apply lift_ok in E as [_ ->].
  destruct (_ =? 0); [apply ret_ok in Hrun as [_ ->]; by apply same_books_refl|].
  run_step Hrun u1 s1 E1. apply mint_synth in E1; [|done]. run_step Hrun u2 s2 E2. apply send_synth in E2; [|apply E1].
  pose proof (same_books_trans _ _ _ E1 E2) as E3. clear E1 E2.
  run_step Hrun b s3 E. apply lift_ok in E as [_ ->]. run_step Hrun u3 s3 E. apply save_same_depth in E; [|apply E3|].
  2: { rewrite (sb_depths _ _ E3). by apply stored_pool_depth. }
  apply (same_books_trans _ s2); [done|]. apply (same_books_trans _ s3); [done|].
  run_step Hrun x1 s4 E4. apply lift_ok in E4 as [_ ->]. run_step Hrun x2 s4 E4. apply lift_ok in E4 as [_ ->].
  injection Hrun as _ <-. split; [apply E|done..].
Qed.

(** The part of a pool: by its fees, or by its depth when the block has none. *)
Definition pool_due (ctx : Ctx) (s : State) (available fees lp : Z) (p : Pool) : Z :=
  if fees =? 0 then GetSafeShare (BalanceSwitch p) available lp
  else GetSafeShare (default 0 (poolLiquidityFees s !! (to_u64 (BlockHeight ctx), GetKey (Assets.Str (pool_asset p))))) fees lp.
Definition rewards_due (ctx : Ctx) (s : State) (pools : list Pool) (available fees lp : Z) : list (Pool * Z) :=
  List.filter (λ '(_, amt), negb (amt =? 0)) ((λ p, (p, pool_due ctx s available fees lp p)) <$> pools).

Lemma pool_rewards_due ctx pools available fees lp s rewards s' :
  pool_rewards ctx pools available fees lp s = (Ok rewards, s') → pools_filed s →
  same_books s s' ∧ rewards = rewards_due ctx s pools available fees lp.
Proof.
  revert s rewards. induction pools as [|p ps IH]; intros s rewards Hrun Hf; cbn [pool_rewards] in Hrun.
  { apply ret_ok in Hrun as [-> ->]. split; [by apply same_books_refl|done]. }
  run_step Hrun af s1 E. assert (s1 = s ∧ fst af = pool_due ctx s available fees lp p) as [-> Hamt].
  { unfold pool_amount, pool_due in *. destruct (fees =? 0); [by apply ret_ok in E as [-> ->]|].
    run_step E f s2 Eg. apply gets_ok in Eg as [-> ->]. by apply ret_ok in E as [-> ->]. }
  destruct af as [amt f]. cbn in Hamt. run_step Hrun y s1 E1. apply lift_ok in E1 as [_ ->].
  run_step Hrun u s1 E1. apply paySaverYield_same in E1; [|done]. run_step Hrun w s2 E2. apply lift_ok in E2 as [_ ->].
  run_step Hrun more s2 E2. apply ret_ok in Hrun as [-> ->]. apply IH in E2 as [E2 ->]; [|apply E1].
  split; [by eapply same_books_trans|]. unfold rewards_due. rewrite (fmap_cons _ p ps). cbn [List.filter]. rewrite <- Hamt.
  assert (Hsame : pool_due ctx s1 available fees lp = pool_due ctx s available fees lp) by (unfold pool_due; by rewrite (sb_fees _ _ E1)).
  rewrite Hsame. by destruct (amt =? 0).
Qed.

(** *** Transfers *)

Definition one_of (q : party) (amt : Z) (p : party) : Z := if decide (p = q) then amt else 0.
(** SWITCH goes from account to account, the pools stay. *)
Record transfers (f : party → Z) (minted : Z) (s s' : State) : Prop := {
  tr_filed : pools_filed s';
  tr_pools : depths s' = depths s;
  tr_balance p : bank_balance (bank s') p "switch" = bank_balance (bank s) p "switch" + f p;
  tr_supply : bank_supply (bank s') "switch" = bank_supply (bank s) "switch" + minted;
  tr_fees : poolLiquidityFees s' = poolLiquidityFees s;
}.
Lemma transfers_none s : pools_filed s → transfers (λ _, 0) 0 s s.
Proof. intros. split; [done|done|intros; lia|lia|done]. Qed.
Lemma transfers_trans f g a b s1 s2 s3 : transfers f a s1 s2 → transfers g b s2 s3 → transfers (λ p, f p + g p) (a + b) s1 s3.
Proof.
  intros [Hf Hp Hb Hs He] [Hf2 Hp2 Hb2 Hs2 He2]. split; [done|congruence| |lia|congruence]. intros p. rewrite Hb2, Hb. lia.
Qed.
Lemma same_transfers f a s s' s'' : same_books s s' → transfers f a s' s'' → transfers f a s s''.
Proof.
  intros [Hf Hp Hb Hs He] [Hf2 Hp2 Hb2 Hs2 He2]. split; [done|congruence| |lia|congruence]. intros p. rewrite Hb2, Hb. lia.
Qed.
Lemma transfers_same f a s s' s'' : transfers f a s s' → same_books s' s'' → transfers f a s s''.
Proof.
  intros [Hf Hp Hb Hs He] [Hf2 Hp2 Hb2 Hs2 He2]. split; [done|congruence| |lia|congruence]. intros p. rewrite Hb2, Hb. lia.
Qed.
Lemma transfers_ext f g a b s s' : transfers f a s s' → (∀ p, f p = g p) → a = b → transfers g b s s'.
Proof. intros [] Hfg <-. split; [done|done| |done|done]. intros p. by rewrite <- Hfg. Qed.

Lemma send_transfers from to amt s u s' :
  in_bank (bank_send from to (map native_coin [NewCoin SwitchNative amt])) s = (Ok u, s') → pools_filed s →
  transfers (λ p, one_of to amt p - one_of from amt p) 0 s s'.
Proof.
  intros Hrun Hf. destruct u. apply in_bank_ok in Hrun as (b & Hsend & ->). cbn [map] in Hsend.
  change (native_coin (NewCoin SwitchNative amt)) with ("switch", amt) in Hsend. apply bank_send_law in Hsend as (_ & Hsup & Hbal).
  split; [exact Hf|done| |cbn [bank put_bank]; rewrite Hsup; lia|done].
  intros p. cbn [bank put_bank]. rewrite Hbal. unfold one_of.
  rewrite (decide_ext (p = from ∧ _) (p = from)), (decide_ext (p = to ∧ _) (p = to)) by naive_solver. lia.
Qed.

Definition pkey (p : Pool) : string := GetKey (Assets.Str (pool_asset p)).
Definition reserve_pays (to : party) (amt : Z) (p : party) : Z := one_of to amt p - one_of (Module_acc ReserveName) amt p.

(** The pools get their rewards, in their depths and in the module. *)
Record rewarded (rewards : list (Pool * Z)) (s s' : State) : Prop := {
  rw_filed : pools_filed s';
  rw_balance p : bank_balance (bank s') p "switch" =
    bank_balance (bank s) p "switch" + reserve_pays (Module_acc AsgardName) (sumZ (snd <$> rewards)) p;
  rw_supply : bank_supply (bank s') "switch" = bank_supply (bank s) "switch";
  rw_depth p amt : (p, amt) ∈ rewards → depths s' !! pkey p = Some (BalanceSwitch p + amt);
  rw_others k : k ∉ pkey ∘ fst <$> rewards → depths s' !! k = depths s !! k;
  rw_pooled : pooled s' = pooled s + sumZ (snd <$> rewards);
}.

Lemma reward_one p amt s u s' :
  (if amt =? 0 then mret () else
     b ← lift (uadd (BalanceSwitch p) amt);
     _ ← SetPool (set_BalanceSwitch b p);
     SendFromModuleToModule ReserveName AsgardName [NewCoin SwitchNative amt]) s = (Ok u, s') →
  pools_filed s → depths s !! pkey p = Some (BalanceSwitch p) →
  pools_filed s' ∧ depths s' = <[pkey p := BalanceSwitch p + amt]> (depths s) ∧
  (∀ q, bank_balance (bank s') q "switch" = bank_balance (bank s) q "switch" + reserve_pays (Module_acc AsgardName) amt q) ∧
  bank_supply (bank s') "switch" = bank_supply (bank s) "switch".
Proof.
  intros Hrun Hf Hd. destruct (Z.eqb_spec amt 0) as [->|Hn].
  - apply ret_ok in Hrun as [_ ->]. split_and!; [done| |intros q; unfold reserve_pays, one_of; repeat case_decide; lia|done].
    rewrite Z.add_0_r. symmetry. by apply insert_id.
  - run_step Hrun b s1 E. apply lift_ok in E as [Hb ->]. apply uadd_inv in Hb as [-> _].
    run_step Hrun w s1 E. destruct w. apply SetPool_ok in E as [_ ->]. set (s1 := put_pools _ s) in *.
    assert (Hf1 : pools_filed s1).
    { intros k q. unfold s1. cbn. intros [[<- <-]|[_ Hq]]%lookup_insert_Some; [done|by apply Hf]. }
    unfold SendFromModuleToModule in Hrun. apply send_transfers in Hrun as [Hf2 Hd2 Hb2 Hs2 _]; [|done]. split_and!; [done| | |].
    + rewrite Hd2. unfold depths, s1. cbn. by rewrite fmap_insert.
    + intros q. by rewrite Hb2.
    + rewrite Hs2. cbn. lia.
Qed.

Lemma payPoolRewards_ok rewards s u s' :
  payPoolRewards rewards s = (Ok u, s') → pools_filed s → base.NoDup (pkey ∘ fst <$> rewards) →
  Forall (λ '(p, _), depths s !! pkey p = Some (BalanceSwitch p)) rewards → rewarded rewards s s'.
Proof.
  unfold payPoolRewards. revert s. induction rewards as [|[p amt] l IH]; intros s Hrun Hf Hnd Hall; cbn [for_each] in Hrun.
  { apply ret_ok in Hrun as [_ ->]. split; [done| |done|by intros ? ? ?%not_elem_of_nil|done|cbn; lia].
    intros q. unfold reserve_pays, one_of. cbn. repeat case_decide; lia. }
  run_step Hrun w s1 E. apply list.Forall_cons in Hall as [Hp Hall]. cbn in Hnd. apply list.NoDup_cons in Hnd as [Hk Hnd].
  apply reward_one in E as (Hf1 & Hd1 & Hb1 & Hs1); [|done..].
  destruct (IH s1 Hrun Hf1 Hnd) as [Hf2 Hb2 Hs2 Hd2 Ho2 Hp2].
  { apply list.Forall_forall. intros [q a] Hin. rewrite list.Forall_forall in Hall. specialize (Hall _ Hin). cbn in Hall.
    rewrite Hd1, lookup_insert_ne; [done|]. intros Heq. apply Hk. rewrite Heq. by apply (list_elem_of_fmap_2 (pkey ∘ fst) l (q, a)). }
  assert (Hsum : sumZ (snd <$> (p, amt) :: l) = amt + sumZ (snd <$> l)) by done. rewrite <- ?Hsum.
  split; rewrite ?Hsum; [done| | | | |].
  - intros q. rewrite Hb2, Hb1. unfold reserve_pays, one_of. repeat case_decide; lia.
  - by rewrite Hs2.
  - intros q a [[= -> ->]|Hin]%elem_of_cons; [|by apply Hd2]. rewrite Ho2 by done. by rewrite Hd1, lookup_insert_eq.
  - intros k Hnk. cbn in Hnk. apply not_elem_of_cons in Hnk as [Hne Hnk]. rewrite Ho2 by done. by rewrite Hd1, lookup_insert_ne.
  - rewrite Hp2. rewrite !pooled_depths, Hd1, map_sum_insert, Hp. cbn [from_option]. unfold id. lia.
Qed.

(** *** The whole income *)

Lemma pay_module_transfers to amt s u s' :
  pay_module to amt s = (Ok u, s') → pools_filed s → transfers (reserve_pays (Module_acc to) amt) 0 s s'.
Proof.
  unfold pay_module. intros Hrun Hf. destruct (Z.eqb_spec amt 0) as [->|].
  - apply ret_ok in Hrun as [_ ->]. eapply transfers_ext; [by apply transfers_none| |done]. intros p. unfold reserve_pays, one_of. repeat case_decide; lia.
  - by apply send_transfers in Hrun.
Qed.
Lemma pay_dev_fund_transfers amt s u s' :
  pay_dev_fund amt s = (Ok u, s') → pools_filed s →
  ∃ acc, transfers (reserve_pays (User_acc acc) amt) 0 s s' ∧
    (amt ≠ 0 → AccAddressFromBech32 (GetStringValue stringOverrides "DevFundAddress") = Ok acc).
Proof.
  unfold pay_dev_fund. intros Hrun Hf. destruct (Z.eqb_spec amt 0) as [->|].
  - apply ret_ok in Hrun as [_ ->]. exists "". split; [|done]. eapply transfers_ext; [by apply transfers_none| |done].
    intros p. unfold reserve_pays, one_of. repeat case_decide; lia.
  - run_step Hrun acc s1 E. apply lift_ok in E as [Ha ->]. exists acc. split; [|done]. by apply send_transfers in Hrun.
Qed.
Lemma burn_income_transfers amt s u s' :
  burn_income amt s = (Ok u, s') → pools_filed s →
  transfers (λ p, - one_of (Module_acc ReserveName) amt p) (- amt) s s'.
Proof.
  unfold burn_income. intros Hrun Hf. destruct (Z.eqb_spec amt 0) as [->|].
  { apply ret_ok in Hrun as [_ ->]. eapply transfers_ext; [by apply transfers_none| |done]. intros p. unfold one_of. repeat case_decide; lia. }
  cbv zeta in Hrun. run_step Hrun w s1 E1. apply send_transfers in E1; [|done]. run_step Hrun w2 s2 E2.
  assert (T2 : transfers (λ p, - one_of (Module_acc ModuleName) amt p) (- amt) s1 s2).
  { unfold BurnFromModule in E2. run_step E2 d s3 Ed. apply lift_ok in Ed as [[= <-] ->]. destruct w2.
    apply in_bank_ok in E2 as (b & Hb & ->). change (native_coin (NewCoin SwitchNative amt)) with ("switch", amt) in Hb.
    apply bank_burn_law in Hb as (_ & Hsup & Hbal). split; [apply E1|done| |cbn [bank put_bank]; rewrite Hsup, decide_True by done; lia|done].
    intros p. cbn [bank put_bank]. rewrite Hbal. unfold one_of.
    rewrite (decide_ext (p = Module_acc ModuleName ∧ _) (p = Module_acc ModuleName)) by naive_solver. lia. }
  pose proof (transfers_trans _ _ _ _ _ _ _ E1 T2) as T. clear E1 E2 T2.
  run_step Hrun w3 s3 E3. injection E3 as E3. subst s3. read_past Hrun most Em. run_step Hrun m2 s4 E4. apply lift_ok in E4 as [_ ->].
  run_step Hrun m3 s4 E4. apply lift_ok in E4 as [_ ->]. apply mimirs_only in Hrun; [|exact (tr_filed _ _ _ _ T)].
  assert (T2 : same_books s2 (put_events (events s2 ++ [EvBurn (Assets.Native SwitchNative) amt "burn_system_income"])%list s2)).
  { split; [exact (tr_filed _ _ _ _ T)|done..]. }
  pose proof (transfers_same _ _ _ _ _ (transfers_same _ _ _ _ _ T T2) Hrun) as T3.
  eapply transfers_ext; [exact T3| |lia]. intros p. cbn beta. lia.
Qed.

(** The pools as the store lists them. *)
Definition listed (pools' : list Pool) (s : State) : Prop :=
  base.NoDup (pkey <$> pools') ∧ Forall (λ p, depths s !! pkey p = Some (BalanceSwitch p)) pools'.
Definition rewards_of (ctx : Ctx) (s : State) (r : BlockRewards) (pools' : list Pool) (available fees : Z) : list (Pool * Z) :=
  if lpSplit r =? 0 then [] else rewards_due ctx s pools' available fees (lpSplit r).
Lemma rewards_elem (g : Pool → Z) l p amt :
  (p, amt) ∈ List.filter (λ '(_, amt), negb (amt =? 0)) ((λ p, (p, g p)) <$> l) ↔ p ∈ l ∧ amt = g p ∧ amt ≠ 0.
Proof.
  rewrite list_elem_of_In, filter_In, <- list_elem_of_In, list_elem_of_fmap, negb_true_iff, Z.eqb_neq. split.
  - intros [(q & [= -> ->] & Hq) Hn]. done.
  - intros (Hp & -> & Hn). split; [by exists p|done].
Qed.
Lemma rewards_keys (g : Pool → Z) l :
  base.NoDup (pkey <$> l) → base.NoDup (pkey ∘ fst <$> List.filter (λ '(_, amt), negb (amt =? 0)) ((λ p, (p, g p)) <$> l)).
Proof.
  induction l as [|p l IH]; cbn; [intros; apply NoDup_nil_2|]. intros [Hp Hl]%list.NoDup_cons. specialize (IH Hl).
  destruct (negb (g p =? 0)); [|done]. cbn. apply base.NoDup_cons_2; [|done].
  intros ([q a] & Heq & [Hq _]%rewards_elem)%list_elem_of_fmap. cbn in Heq. apply Hp. rewrite Heq. by apply list_elem_of_fmap_2.
Qed.
Lemma rewards_listed ctx s r pools' available fees :
  listed pools' s → let rewards := rewards_of ctx s r pools' available fees in
  base.NoDup (pkey ∘ fst <$> rewards) ∧ Forall (λ '(p, _), depths s !! pkey p = Some (BalanceSwitch p)) rewards.
Proof.
  intros [Hnd Hall]. unfold rewards_of. destruct (lpSplit r =? 0); [split; [apply NoDup_nil_2|by apply list.Forall_nil]|].
  unfold rewards_due. cbn zeta. split; [by apply rewards_keys|].
  apply list.Forall_forall. intros [p a] Hin. apply rewards_elem in Hin as [Hin _]. rewrite list.Forall_forall in Hall. by apply Hall.
Qed.

Lemma pay_income_ok ctx r pools' available fees s rewards s' :
  pay_income ctx r pools' available fees s = (Ok rewards, s') → pools_filed s → listed pools' s →
  rewards = rewards_of ctx s r pools' available fees ∧
  pools_filed s' ∧
  (∀ p amt, (p, amt) ∈ rewards → depths s' !! pkey p = Some (BalanceSwitch p + amt)) ∧
  (∀ k, k ∉ pkey ∘ fst <$> rewards → depths s' !! k = depths s !! k) ∧
  pooled s' = pooled s + sumZ (snd <$> rewards) ∧
  bank_supply (bank s') "switch" = bank_supply (bank s) "switch" - systemIncomeBurnDeduct r ∧
  ∃ dev, (devFundDeduct r ≠ 0 → AccAddressFromBech32 (GetStringValue stringOverrides "DevFundAddress") = Ok dev) ∧
  ∀ p, bank_balance (bank s') p "switch" = bank_balance (bank s) p "switch" + reserve_pays (User_acc dev) (devFundDeduct r) p
    - one_of (Module_acc ReserveName) (systemIncomeBurnDeduct r) p + reserve_pays (Module_acc SWCYStakeName) (swcyStakeDeduct r) p
    + reserve_pays (Module_acc AsgardName) (sumZ (snd <$> rewards)) p + reserve_pays (Module_acc BondName) (bonderSplit r) p.
Proof.
  intros Hrun Hf Hl. unfold pay_income in Hrun.
  run_step Hrun u1 s1 E1. apply pay_dev_fund_transfers in E1 as (dev & T1 & Hdev); [|done].
  run_step Hrun u2 s2 E2. apply burn_income_transfers in E2; [|apply T1]. pose proof (transfers_trans _ _ _ _ _ _ _ T1 E2) as T2. clear T1 E2.
  run_step Hrun u3 s3 E3. apply pay_module_transfers in E3; [|apply T2]. pose proof (transfers_trans _ _ _ _ _ _ _ T2 E3) as T3. clear T2 E3.
  run_step Hrun paid s4 E4. run_step Hrun u5 s5 E5. apply ret_ok in Hrun as [-> ->].
  assert (paid = rewards_of ctx s r pools' available fees ∧ rewarded paid s3 s4) as [-> R4].
  { assert (Hl3 : listed pools' s3) by (destruct Hl as [Hnd Hall]; split; [done|by rewrite (tr_pools _ _ _ _ T3)]).
    assert (Hdue : rewards_of ctx s r pools' available fees = rewards_of ctx s3 r pools' available fees).
    { unfold rewards_of, rewards_due, pool_due. by rewrite (tr_fees _ _ _ _ T3). }
    rewrite Hdue. pose proof (rewards_listed ctx s3 r pools' available fees Hl3) as [Hnd Hall]. unfold rewards_of in *.
    destruct (lpSplit r =? 0).
    - apply ret_ok in E4 as [-> ->]. split; [done|]. apply (payPoolRewards_ok [] s3 () s3); [done|apply T3|done|done].
    - run_step E4 rs s6 E6. apply pool_rewards_due in E6 as [Hsame ->]; [|apply T3]. run_step E4 w s7 E7. apply ret_ok in E4 as [-> ->].
      split; [done|]. apply payPoolRewards_ok in E7; [|apply Hsame|done|].
      2: { rewrite list.Forall_forall in Hall |- *. intros [p a] Hin. rewrite (sb_depths _ _ Hsame). by apply (Hall (p, a)). }
      destruct Hsame as [_ Hd Hb Hs _], E7 as [Hf4 Hb4 Hs4 Hd4 Ho4 Hp4]. split; [done| |congruence|done| |].
      + intros q. rewrite Hb4, Hb. done.
      + intros k Hk. rewrite Ho4 by done. by rewrite Hd.
      + rewrite Hp4, !pooled_depths, Hd. done. }
  destruct R4 as [Hf4 Hb4 Hs4 Hd4 Ho4 Hp4]. apply pay_module_transfers in E5; [|done].
  destruct E5 as [Hf5 Hd5 Hb5 Hs5 _], T3 as [_ Hd3 Hb3 Hs3 _]. split_and!; [done|done|..].
  - intros p amt Hin. rewrite Hd5. by apply Hd4.
  - intros k Hk. rewrite Hd5, Ho4 by done. by rewrite Hd3.
  - rewrite pooled_depths, Hd5, <- pooled_depths, Hp4, !pooled_depths, Hd3. done.
  - rewrite Hs5, Hs4, Hs3. lia.
  - exists dev. split; [done|]. intros p. rewrite Hb5, Hb4, Hb3. cbn beta. lia.
Qed.
End Payments.

Section Network.
  Context `{CosmosMath} `{Bank} `{Env} `{!PubKeys} `{UpgradeKeeper}.

(** The pools that are rewarded are those of the store. *)
Lemma available_listed s ps t :
  fst (getAvailablePoolsSWITCH s) = Ok (ps, t) → pools_filed s →
  listed ps s ∧ ∀ p, p ∈ ps ↔ pools s !! pkey p = Some p ∧ is_rewarded p = true.
Proof.
  intros Hrun Hf. unfold getAvailablePoolsSWITCH, mbind, M_bind, GetPools, gets, lift, mret, M_ret in Hrun.
  set (all := snd <$> merge_sort key_le (map_to_list (pools s))) in *.
  destruct (add_pools _ 0) as [x|e|]; cbn in Hrun; [|done..]. injection Hrun as <- _.
  assert (Hel : ∀ p, p ∈ all ↔ pools s !! pkey p = Some p).
  { intros p. unfold all. rewrite list_elem_of_fmap. setoid_rewrite (merge_sort_Permutation key_le). split.
    - intros ([k q] & -> & Hin%elem_of_map_to_list). cbn. unfold pkey. by rewrite <- (Hf _ _ Hin).
    - intros Hp. exists (pkey p, p). split; [done|]. by apply elem_of_map_to_list. }
  assert (Hmem : ∀ p, p ∈ List.filter is_rewarded all ↔ pools s !! pkey p = Some p ∧ is_rewarded p = true).
  { intros p. by rewrite list_elem_of_In, filter_In, <- list_elem_of_In, Hel. }
  split; [|done]. split.
  - assert (Hnd : base.NoDup (pkey <$> all)).
    { assert (pkey <$> all = fst <$> merge_sort key_le (map_to_list (pools s))) as ->.
      { unfold all. rewrite <- list_fmap_compose. apply list_fmap_ext. intros i [k p] Hi. cbn.
        apply list_elem_of_lookup_2 in Hi. rewrite (merge_sort_Permutation key_le) in Hi. apply elem_of_map_to_list in Hi. symmetry. exact (Hf _ _ Hi). }
      rewrite (merge_sort_Permutation key_le). apply NoDup_fst_map_to_list. }
    clearbody all. clear Hel Hmem. induction all as [|p l IH]; cbn; [apply NoDup_nil_2|]. cbn in Hnd. apply list.NoDup_cons in Hnd as [Hp Hnd].
    destruct (is_rewarded p); [|by apply IH]. cbn. apply base.NoDup_cons_2; [|by apply IH].
    intros (q & Heq & Hq)%list_elem_of_fmap. apply Hp. rewrite Heq. apply list_elem_of_fmap_2.
    apply list_elem_of_In, filter_In in Hq as [Hq _]. by apply list_elem_of_In.
  - apply list.Forall_forall. intros p [Hp _]%Hmem. unfold depths. by rewrite lookup_fmap, Hp.
Qed.

Lemma reads_available : only_reads getAvailablePoolsSWITCH.
Proof. unfold getAvailablePoolsSWITCH, GetPools. reads. Qed.
Lemma reads_value_coins cs t : only_reads (value_coins cs t).
Proof. revert t. induction cs as [|c cs IH]; intros t; cbn [value_coins]; reads. Qed.
#[local] Hint Resolve reads_available reads_value_coins : reads.
Lemma reads_vaults_liquidity ctx : only_reads (getVaultsLiquiditySWITCH ctx).
Proof. unfold getVaultsLiquiditySWITCH. reads. Qed.
Lemma reads_config_rewards ctx a v t f nas : only_reads (config_rewards ctx a v t f nas).
Proof. unfold config_rewards, calcBlockRewards. reads. Qed.
#[local] Hint Resolve reads_vaults_liquidity reads_config_rewards : reads.

(** The rewards of the block, in a state: none without a reserve or pools. *)
Definition block_income (ctx : Ctx) (s : ChainState) (r : BlockRewards) (rewards : list (Pool * Z)) : Prop :=
  let c := chain_state_core s in
  let reserve := module_switch ReserveName c in
  let fees := default 0 (totalLiquidityFees c !! to_u64 (BlockHeight ctx)) in
  ∃ ps available vaults active,
    (reserve ≠ 0 → fst (getAvailablePoolsSWITCH c) = Ok (ps, available)) ∧
    (reserve ≠ 0 → fst (getVaultsLiquiditySWITCH ctx s) = Ok vaults) ∧
    if (reserve =? 0) || (available =? 0) then r = mkBlockRewards 0 0 0 0 0 0 ∧ rewards = []
    else fst (chain_obs ListActiveValidators s) = Ok active ∧
      fst (config_rewards ctx available vaults reserve fees active c) = Ok r ∧
      rewards = rewards_of ctx c r ps available fees.

(** C12: The income of a block moves from the reserve and nowhere else: the pools' rewards
    are in the asgard module and in the depths of the pools that earned them, the
    bonds' reward is in the bond module and in the network's record, from which the
    nodes are paid, so both modules cover their books as before; what is burnt has
    left the supply. *)
Theorem UpdateNetwork_keeps_the_books ctx s s' :
  UpdateNetwork ctx s = (Ok (), s') → pools_filed (chain_state_core s) →
  let c := chain_state_core s in let c' := chain_state_core s' in
  ∃ r rewards, block_income ctx s r rewards ∧
  pools_filed c' ∧ chain_nodes s' = chain_nodes s ∧
  module_switch AsgardName c' - pooled c' = module_switch AsgardName c - pooled c ∧
  bond_surplus s' - BondRewardSwitch (network s') = bond_surplus s - BondRewardSwitch (network s) ∧
  BondRewardSwitch (network s') = BondRewardSwitch (network s) + bonderSplit r ∧
  module_switch SWCYStakeName c' = module_switch SWCYStakeName c + swcyStakeDeduct r ∧
  bank_supply (bank c') "switch" = bank_supply (bank c) "switch" - systemIncomeBurnDeduct r ∧
  module_switch ReserveName c' = module_switch ReserveName c - (bonderSplit r + sumZ (snd <$> rewards) + swcyStakeDeduct r
    + systemIncomeBurnDeduct r + devFundDeduct r) ∧
  (∀ p amt, (p, amt) ∈ rewards → depths c' !! pkey p = Some (BalanceSwitch p + amt)) ∧
  (∀ k, k ∉ pkey ∘ fst <$> rewards → depths c' !! k = depths c !! k).
Proof.
  intros Hrun Hf. cbn zeta. set (c := chain_state_core s). unfold UpdateNetwork in Hrun.
  assert (Hnothing : ∀ ps available vl (active : list NodeAccount) r,
    (module_switch ReserveName c ≠ 0 → fst (getAvailablePoolsSWITCH c) = Ok (ps, available)) →
    (module_switch ReserveName c ≠ 0 → fst (getVaultsLiquiditySWITCH ctx s) = Ok vl) →
    (module_switch ReserveName c =? 0) || (available =? 0) = true → r = mkBlockRewards 0 0 0 0 0 0 → s' = s → block_income ctx s r []).
  { intros ps available vl active r Ha Hv Hz -> _. exists ps, available, vl, active. cbn zeta. fold c. by rewrite Hz. }
  read_past Hrun nw En. cbn in En. injection En as <-. read_past Hrun reserve Er. rewrite chain_reads_fst in Er. cbn in Er. injection Er as <-.
  change (bank_balance _ _ _) with (module_switch ReserveName c) in Hrun. destruct (Z.eqb_spec (module_switch ReserveName c) 0) as [Hz|Hz].
  { apply ret_ok in Hrun as [_ ->]. exists (mkBlockRewards 0 0 0 0 0 0), []. split; [by eapply (Hnothing [] 0 0 []); rewrite ?Hz|].
    fold c. split_and!; first [done|cbn; lia|by intros ? ? ?%not_elem_of_nil]. }
  read_past Hrun pa Epa. destruct pa as [ps available]. rewrite chain_reads_fst in Epa. fold c in Epa.
  read_past Hrun vl Evl. destruct (Z.eqb_spec available 0) as [->|Ha].
  { apply ret_ok in Hrun as [_ ->]. exists (mkBlockRewards 0 0 0 0 0 0), []. split; [eapply (Hnothing ps 0 vl []); auto using orb_true_r|].
    fold c. split_and!; first [done|cbn; lia|by intros ? ? ?%not_elem_of_nil]. }
  destruct (available_listed c ps available Epa Hf) as [Hl _].
  read_past Hrun fees Ef. rewrite chain_reads_fst in Ef. cbn in Ef. injection Ef as <-.
  read_past Hrun active Eact. read_past Hrun r Erew. rewrite chain_reads_fst in Erew. fold c in Erew.
  run_step Hrun rewards s1 Epay. apply in_vaults_outer in Epay as Hout. apply chain_core_ok in Epay as (c1 & Epay & ->).
  apply pay_income_ok in Epay as (Hrw & Hf1 & Hd1 & Ho1 & Hp1 & Hs1 & dev & _ & Hb1); [|done..].
  run_step Hrun share s2 E. apply lift_ok in E as [_ ->]. run_step Hrun b s2 E. apply lift_ok in E as [Hb ->].
  apply uadd_inv in Hb as [-> _]. run_step Hrun u s2 E. rewrite chain_core_run in E. injection E as _ <-.
  assert (Hg : only_reads getTotalActiveNodeWithBond) by (unfold getTotalActiveNodeWithBond; reads).
  apply reads_bind_ok in Hrun as (i & _ & Hrun); [|exact Hg]. run_step Hrun units s2 E. apply lift_ok in E as [_ ->].
  injection Hrun as <-. set (n := set_TotalBondUnits _ _). set (s3 := with_chain_core _ _). fold c in Hrw, Ho1, Hp1, Hs1, Hb1.
  assert (∃ evs, chain_state_core s3 = put_events evs c1) as [evs Hc3].
  { eexists. unfold s3, with_chain_core, chain_state_core. cbn [cs_vaults put_cs_vaults]. rewrite !the_core_with. reflexivity. }
  change (chain_state_core (put_network n s3)) with (chain_state_core s3). rewrite !Hc3.
  assert (Hbond : bond_surplus (put_network n s3) = bond_surplus s + bonderSplit r).
  { transitivity (module_switch BondName c1 - bonded (cs_vaults s)).
    - unfold bond_surplus, in_bond. change (the_core (cs_vaults (put_network n s3))) with (chain_state_core s3). by rewrite Hc3.
    - unfold bond_surplus, in_bond. change (the_core (cs_vaults s)) with c. unfold module_switch. rewrite Hb1. unfold reserve_pays, one_of.
      repeat case_decide; first [discriminate|congruence|lia]. }
  exists r, rewards. split; [exists ps, available, vl, active; cbn zeta; fold c; by destruct (Z.eqb_spec (module_switch ReserveName c) 0), (Z.eqb_spec available 0)|].
  split_and!; [exact Hf1|done| |rewrite Hbond; cbn; lia|done| |exact Hs1| |exact Hd1|exact Ho1].
  all: unfold module_switch; cbn [bank put_events]; rewrite Hb1; unfold reserve_pays, one_of.
  - change (pooled (put_events evs c1)) with (pooled c1). rewrite Hp1. repeat case_decide; first [discriminate|congruence|lia].
  - repeat case_decide; first [discriminate|congruence|lia].
  - repeat case_decide; first [discriminate|congruence|lia].
Qed.

(** What is burnt is taken off the cap of the supply, which panics below zero. *)
Lemma burn_income_cap amt c c1 c2 cap :
  amt ≠ 0 → SendFromModuleToModule ReserveName ModuleName [NewCoin SwitchNative amt] c = (Ok (), c1) →
  BurnFromModule ModuleName (NewCoin SwitchNative amt) c1 = (Ok (), c2) →
  fst (GetConfigInt64 "MaxSWITCHSupply" c) = Ok cap → cap < 2 ^ 63 →
  if SafeUintFromInt64 cap <? amt then fst (burn_income amt c) = Panic
  else 0 ≤ amt → ∃ c', burn_income amt c = (Ok (), c') ∧
    fst (GetMimir "MaxSWITCHSupply" c') = Ok (SafeUintFromInt64 cap - amt).
Proof.
  intros Hn Hsend Hburn Hcap Hmax. unfold burn_income. rewrite (proj2 (Z.eqb_neq _ _) Hn). cbv zeta.
  rewrite (M_bind_run _ _ _ _ _ Hsend), (M_bind_run _ _ _ _ _ Hburn).
  assert (Hc2 : fst (GetConfigInt64 "MaxSWITCHSupply" (put_events (events c2 ++ [EvBurn (Assets.Native SwitchNative) amt "burn_system_income"])%list c2)) = Ok cap).
  { unfold SendFromModuleToModule in Hsend. apply in_bank_ok in Hsend as (b1 & _ & ->). unfold BurnFromModule in Hburn.
    run_step Hburn d s3 Ed. apply lift_ok in Ed as [_ ->]. apply in_bank_ok in Hburn as (b2 & _ & ->). exact Hcap. }
  erewrite (M_bind_run (EmitEvent _)); [|reflexivity]. rewrite (reads_bind_run _ _ _ cap); [|solve [eauto with reads]|exact Hc2].
  assert (2 ^ 63 < uint_max) by reflexivity.
  assert (0 ≤ SafeUintFromInt64 cap < 2 ^ 63) by (unfold SafeUintFromInt64; destruct (Z.ltb_spec cap 0); rewrite ?to_u64_id by lia; lia).
  destruct (Z.ltb_spec (SafeUintFromInt64 cap) amt) as [Hlt|Hge].
  - apply bind_panics. cbn [lift fst]. rewrite usub_law. unfold in_uint. by destruct (Z.leb_spec 0 (SafeUintFromInt64 cap - amt)); [lia|].
  - intros Hpos. erewrite M_bind_run; [|unfold lift; rewrite usub_ok by lia; reflexivity].
    erewrite M_bind_run; [|unfold lift, as_uint64; rewrite (proj2 (Z.leb_le _ _)), (proj2 (Z.ltb_lt _ _)) by lia; reflexivity].
    eexists. split; [reflexivity|]. unfold GetMimir, gets. cbn [mimirs put_mimirs fst]. rewrite lookup_insert_eq. cbn.
    by rewrite to_i64_id by lia.
Qed.

(** C37: When a block burns a part of its income and the transfers before it succeed,
    the end of the block panics in its update of the network if the cap of the
    supply is less than what is burnt (which a negative MaxSWITCHSupply without a
    mimir is); otherwise the cap falls by what is burnt. *)
Theorem burning_needs_a_cap ctx s r rewards c1 c2 c3 cap :
  let amt := systemIncomeBurnDeduct r in let c := chain_state_core s in
  block_income ctx s r rewards → 0 < amt → pay_dev_fund (devFundDeduct r) c = (Ok (), c1) →
  SendFromModuleToModule ReserveName ModuleName [NewCoin SwitchNative amt] c1 = (Ok (), c2) →
  BurnFromModule ModuleName (NewCoin SwitchNative amt) c2 = (Ok (), c3) →
  fst (GetConfigInt64 "MaxSWITCHSupply" c) = Ok cap → cap < 2 ^ 63 →
  if SafeUintFromInt64 cap <? amt then fst (UpdateNetwork ctx s) = Panic
  else ∃ c', burn_income amt c1 = (Ok (), c') ∧ fst (GetMimir "MaxSWITCHSupply" c') = Ok (SafeUintFromInt64 cap - amt).
Proof.
  cbv zeta. intros Hinc Hpos Hdev Hsend Hburn Hcap Hmax.
  assert (Hcap1 : fst (GetConfigInt64 "MaxSWITCHSupply" c1) = Ok cap).
  { unfold pay_dev_fund in Hdev. destruct (devFundDeduct r =? 0); [by apply ret_ok in Hdev as [_ ->]|].
    run_step Hdev a s1 E. apply lift_ok in E as [_ ->]. unfold SendFromModuleToAccount in Hdev.
    apply in_bank_ok in Hdev as (b & _ & ->). exact Hcap. }
  pose proof (burn_income_cap (systemIncomeBurnDeduct r) c1 c2 c3 cap ltac:(lia) Hsend Hburn Hcap1 Hmax) as Hb.
  destruct (SafeUintFromInt64 cap <? _); [|apply Hb; lia].
  destruct Hinc as (ps & available & vaults & active & Hps & Hv & Hinc). cbv zeta in Hinc.
  destruct (Z.eqb_spec (module_switch ReserveName (chain_state_core s)) 0) as [|Hr]; cbn [orb] in Hinc; [destruct Hinc as [-> _]; cbn in Hpos; lia|].
  destruct (Z.eqb_spec available 0) as [|Ha]; [destruct Hinc as [-> _]; cbn in Hpos; lia|].
  destruct Hinc as (Hact & Hcfg & _). unfold UpdateNetwork.
  rewrite (reads_bind_run _ _ _ (network s)) by first [solve [eauto with reads]|done].
  rewrite (reads_bind_run _ _ _ (module_switch ReserveName (chain_state_core s))) by first [solve [eauto with reads]|by rewrite chain_reads_fst].
  rewrite (proj2 (Z.eqb_neq _ _) Hr).
  rewrite (reads_bind_run _ _ _ (ps, available)) by first [solve [eauto with reads]|rewrite chain_reads_fst; by apply Hps].
  rewrite (reads_bind_run _ _ _ vaults) by first [solve [eauto with reads]|by apply Hv].
  rewrite (proj2 (Z.eqb_neq _ _) Ha).
  erewrite reads_bind_run; [|solve [eauto with reads]|by rewrite chain_reads_fst].
  rewrite (reads_bind_run _ _ _ active) by first [solve [eauto with reads]|done].
  rewrite (reads_bind_run _ _ _ r) by first [solve [eauto with reads]|by rewrite chain_reads_fst].
  apply bind_panics. rewrite chain_core_run. cbn [fst]. unfold pay_income.
  rewrite (M_bind_run _ _ _ _ _ Hdev). by apply bind_panics.
Qed.
End Network.

(** ** Witnesses *)

#[local] Existing Instance plain_keys.

(** Five nodes with 5000 SWITCH bonded, a pool with 2000 and a reserve. *)
Definition rewarded_pool : Pool :=
  set_Status Available (set_BalanceSwitch (2000 * One) (set_BalanceAsset (10 * One) (set_LPUnits (2000 * One) (set_pool_asset BTCAsset NewPool)))).
Definition income_ledger : BankRef.ledger :=
  BankRef.mkLedger (list_to_map [((Module_acc BondName, "switch"), 5000 * One); ((Module_acc AsgardName, "switch"), 2000 * One);
    ((Module_acc ReserveName, "switch"), 100000000 * One)]) {["switch" := 100007000 * One]}.
Definition income_chain : ChainState (H0 := one_plan) :=
  with_chain_core (put_pools {["BTC.BTC" := rewarded_pool]} (put_bank income_ledger (chain_state_core council_chain))) council_chain.
Definition capped_chain : ChainState (H0 := one_plan) :=
  with_chain_core (put_mimirs {["MAXSWITCHSUPPLY" := 500000000 * One]} (chain_state_core income_chain)) income_chain.
Definition income_block : Ctx := mkCtx 100 3 "".

(** The five nodes secure the pool 5000 to 2000: liquidity gets six tenths. *)
Definition income_split (s : State) : outcome BlockRewards * State :=
  calcBlockRewards (2000 * One) 0 (4000 * One) (5000 * One) (100000000 * One) 7 6 5256000 500 1 1000 s.
Lemma block_income_is_split_witness :
  let r := mkBlockRewards 107800611 161700917 6000 15854896 31710 31709793 in
  fst (income_split (chain_state_core income_chain)) = Ok r ∧
  bonderSplit r + lpSplit r + devFundDeduct r + systemIncomeBurnDeduct r + swcyStakeDeduct r = 317097920 + 7.
Proof.
  cbn zeta. set (c := chain_state_core income_chain).
  assert (fst (income_split c) = Ok (mkBlockRewards 107800611 161700917 6000 15854896 31710 31709793)) as H by (vm_compute; reflexivity).
  split; [exact H|].
  destruct (block_income_is_split _ _ _ _ _ _ _ _ _ _ _ c _ (snd (income_split c)) (run_pair _ _ H)) as (_ & reward & Hr & Hs & _);
    [try split; vm_compute; congruence..|].
  rewrite Hs. f_equal. vm_compute in Hr. by injection Hr.
Defined.

Lemma capped_filed : pools_filed (chain_state_core capped_chain).
Proof. intros k p Hk. change (pools (chain_state_core capped_chain)) with ({["BTC.BTC" := rewarded_pool]} : gmap string Pool) in Hk.
  apply lookup_singleton_Some in Hk as [<- <-]. vm_compute. reflexivity. Qed.
Lemma UpdateNetwork_keeps_the_books_witness :
  let c := chain_state_core capped_chain in let s' := snd (UpdateNetwork income_block capped_chain) in let c' := chain_state_core s' in
  module_switch AsgardName c' - pooled c' = module_switch AsgardName c - pooled c ∧
  BondRewardSwitch (network s') = 107800609 ∧ depths c' !! "BTC.BTC" = Some (2000 * One + 161700913) ∧
  bond_surplus s' - BondRewardSwitch (network s') = bond_surplus capped_chain.
Proof.
  cbn zeta. assert (fst (UpdateNetwork income_block capped_chain) = Ok ()) as H by (vm_compute; reflexivity).
  destruct (UpdateNetwork_keeps_the_books income_block capped_chain (snd (UpdateNetwork income_block capped_chain)) (run_pair _ _ H)
    capped_filed) as (r & rewards & _ & _ & _ & Ha & Hb & _).
  split_and!; [exact Ha|vm_compute; reflexivity|vm_compute; reflexivity|]. rewrite Hb. vm_compute. reflexivity.
Defined.

(** With the mainnet constants and no mimir the first income that is burnt stops the
    block; a mimir of 500,000,000 SWITCH is lowered by it. *)
Definition first_income : BlockRewards := mkBlockRewards 107800609 161700913 6000 15854896 31710 31709792.
Definition burnt_amt : Z := systemIncomeBurnDeduct first_income.
Definition council_nodes : list NodeAccount :=
  match fst (chain_obs ListActiveValidators income_chain) with Ok l => l | _ => [] end.
Lemma first_block_income (s : ChainState (H0 := one_plan)) :
  s = income_chain ∨ s = capped_chain → ∃ rewards, block_income income_block s first_income rewards.
Proof.
  intros Hs. exists (rewards_of income_block (chain_state_core s) first_income [rewarded_pool] (2000 * One)
    (default 0 (totalLiquidityFees (chain_state_core s) !! to_u64 (BlockHeight income_block)))).
  exists [rewarded_pool], (2000 * One), 0, council_nodes. cbv zeta.
  destruct Hs as [-> | ->].
  all: split; [intros _; vm_compute; reflexivity|]; split; [intros _; vm_compute; reflexivity|].
  all: change (_ || _) with false; cbv iota; split; [vm_compute; reflexivity|]; split; [vm_compute; reflexivity|reflexivity].
Qed.
Lemma burning_needs_a_cap_witness :
  fst (UpdateNetwork income_block income_chain) = Panic ∧
  ∃ c', burn_income burnt_amt (snd (pay_dev_fund (devFundDeduct first_income) (chain_state_core capped_chain))) = (Ok (), c') ∧
    fst (GetMimir "MaxSWITCHSupply" c') = Ok (500000000 * One - burnt_amt).
Proof.
  assert (Hall : ∀ s cap, s = income_chain ∨ s = capped_chain → fst (GetConfigInt64 "MaxSWITCHSupply" (chain_state_core s)) = Ok cap →
    cap < 2 ^ 63 →
    let c1 := snd (pay_dev_fund (devFundDeduct first_income) (chain_state_core s)) in
    if SafeUintFromInt64 cap <? burnt_amt then fst (UpdateNetwork income_block s) = Panic
    else ∃ c', burn_income burnt_amt c1 = (Ok (), c') ∧ fst (GetMimir "MaxSWITCHSupply" c') = Ok (SafeUintFromInt64 cap - burnt_amt)).
  { intros s cap Hs Hcap Hmax. cbv zeta. destruct (first_block_income s Hs) as [rewards Hinc].
    set (c1 := snd (pay_dev_fund (devFundDeduct first_income) (chain_state_core s))).
    set (c2 := snd (SendFromModuleToModule ReserveName ModuleName [NewCoin SwitchNative burnt_amt] c1)).
    apply (burning_needs_a_cap income_block s first_income rewards c1 c2 (snd (BurnFromModule ModuleName (NewCoin SwitchNative burnt_amt) c2)));
      [exact Hinc|reflexivity|apply run_pair..|exact Hcap|exact Hmax].
    all: destruct Hs as [-> | ->]; vm_compute; reflexivity. }
  split.
  - apply (Hall income_chain (-1)); [by left|vm_compute; reflexivity|reflexivity].
  - apply (Hall capped_chain (500000000 * One)); [by right|vm_compute; reflexivity|reflexivity].
Defined.
