(* ===== verification/BondRewards.v ===== *)
(** * The rewards of the bonds

    [distributeBondReward] and [payNodeAccountBondAward] of
    src/x/switchly/manager_validator_current.go: at a churn the active nodes are
    paid from what the network has collected for the bonds, by their bonds up to a
    cap and the blocks without slash points; the operator's fee leaves the bond. *)

From stdpp Require Import sorting.
From S2P Require Import Prelude Runs GoStrings CosmosMath Amounts Assets Coins Pools Constants State Txs Fees Nodes Quorum ObservedTx Attest SwapHandler SwapOrder Vaults Gas Layers Slasher ChainState Bonds Rewards.
Open Scope Z_scope.

Section BondRewards.
  Context `{CosmosMath} `{Bank} `{Env} `{!PubKeys} `{UpgradeKeeper}.
Abbreviation C := (M ChainState).

(** The part of the rewards for the bond, and of that for the blocks without a
    slash point. *)
Definition node_share (na : NodeAccount) (totalBondReward totalEffectiveBond bondHardCap : Z) : Z :=
  let naEffectiveBond := if bondHardCap <? na_Bond na then bondHardCap else na_Bond na in
  GetUncappedShare naEffectiveBond totalEffectiveBond totalBondReward.
Definition earned_share (totalActiveBlocks slashPts share : Z) : Z :=
  let earnedBlocks := to_i64 (totalActiveBlocks - slashPts) in
  let earnedBlocks := if earnedBlocks <? 0 then 0 else earnedBlocks in
  GetUncappedShare (to_u64 earnedBlocks) (to_u64 totalActiveBlocks) share.

(** The fee of the operator, of at most what the operator's part has grown by. *)
Definition operator_fee (bp : BondProviders) (acc : string) (reward lastBond : Z) : outcome Z :=
  let nodeOperatorFees := GetSafeShare (NodeOperatorFee bp) 10000 reward in
  increase ← SafeSub (bp_Bond (BP_Get bp acc)) lastBond;
  Ok (if increase <? nodeOperatorFees then increase else nodeOperatorFees).
Definition pay_operator_fee (na : NodeAccount) (acc : string) (fees : Z) : C () :=
  if fees =? 0 then mret ()
  else
    _ ← chain_core (SendFromModuleToAccount BondName acc [NewCoin SwitchNative fees]);
    _ ← lift (NewAddress (NodeAddress na));
    chain_core (EmitEvent (EvBond fees BondReturned (NodeAddress na) acc "")).

Definition payNodeAccountBondAward (ctx : Ctx) (lastChurnHeight : Z) (na : NodeAccount)
    (totalBondReward totalEffectiveBond bondHardCap : Z) : C () :=
  if (ActiveBlockHeight na =? 0) || (na_Bond na =? 0) then mret ()
  else
    nw ← Keeper_GetNetwork;
    slashPts ← chain_obs (GetNodeAccountSlashPoints (NodeAddress na));
    let totalActiveBlocks := to_i64 (BlockHeight ctx - lastChurnHeight) in
    let reward := earned_share totalActiveBlocks slashPts (node_share na totalBondReward totalEffectiveBond bondHardCap) in
    bp ← GetBondProviders (NodeAddress na);
    acc ← lift (AccAddressFromBech32 (BondAddress na));
    bp ← passiveBackfill na bp;
    bp ← lift (BP_Adjust bp (na_Bond na));
    _ ← fail_when (BondProvider_IsEmpty (BP_Get bp acc)) "node operator address not listed in bond providers";
    let lastBond := bp_Bond (BP_Get bp acc) in
    bond ← lift (uadd (na_Bond na) reward);
    left ← lift (SafeSub (BondRewardSwitch nw) reward);
    units ← lift (SafeSub (TotalBondUnits nw) (to_u64 totalActiveBlocks));
    _ ← SetNetwork (set_TotalBondUnits units (set_BondRewardSwitch left nw));
    _ ← chain_obs (SetNodeAccountSlashPoints (NodeAddress na) (to_i64 (slashPts - totalActiveBlocks)));
    bp ← lift (BP_Adjust bp bond);
    fees ← lift (operator_fee bp acc reward lastBond);
    bond ← lift (if fees =? 0 then Ok bond else SafeSub bond fees);
    bp ← lift (if fees =? 0 then Ok bp else BP_Unbond bp fees acc);
    _ ← chain_obs (SetNodeAccount ctx (set_na_Bond bond na));
    _ ← SetBondProviders bp;
    _ ← chain_core (EmitEvent (EvBond reward BondReward (NodeAddress na) "" ""));
    pay_operator_fee na acc fees.

(** The youngest active node tells the height of the last churn. *)
Definition youngest (nas : list NodeAccount) : Z :=
  fold_left (λ h na, if h <? ActiveBlockHeight na then ActiveBlockHeight na else h) nas 0.
(** A payment that fails is logged, and the last failure is answered. *)
Fixpoint pay_awards (ctx : Ctx) (lastChurnHeight : Z) (nas : list NodeAccount) (totalBondReward totalEffectiveBond bondHardCap : Z)
    (resultErr : option error) : C (option error) :=
  match nas with
  | [] => mret resultErr
  | na :: r =>
      paid ← attempt (payNodeAccountBondAward ctx lastChurnHeight na totalBondReward totalEffectiveBond bondHardCap);
      pay_awards ctx lastChurnHeight r totalBondReward totalEffectiveBond bondHardCap
        (match paid with inl _ => resultErr | inr e => Some e end)
  end.
(** The nodes are paid in the order of their bonds, in which the sum leaves them. *)
Definition distributeBondReward (ctx : Ctx) : C () :=
  active ← chain_obs ListActiveValidators;
  '(totalEffectiveBond, bondHardCap) ← lift (getTotalEffectiveBond active);
  nw ← Keeper_GetNetwork;
  resultErr ← pay_awards ctx (youngest active) (by_bond active) (BondRewardSwitch nw) totalEffectiveBond bondHardCap None;
  check resultErr.
End BondRewards.

(** ** One payment *)

Section Awards.
  Context `{CosmosMath} `{Bank} `{Env} `{!PubKeys} `{UpgradeKeeper}.

(** What the bond module has beyond the bonds and the rewards not yet paid. *)
Definition cover (s : ChainState) : Z := bond_surplus s - BondRewardSwitch (network s).

(** Fees and slash points are not negative: the fields are unsigned, and the keeper
    stores no slash points below zero, as a number of 64 bits. *)
Definition records_signed (s : ChainState) : Prop :=
  (∀ k bp, bondProviders s !! k = Some bp → 0 ≤ NodeOperatorFee bp) ∧
  (∀ k pts, slashPoints (chain_state_obs s) !! k = Some pts → 0 ≤ pts < 2 ^ 63) ∧ 0 ≤ BondRewardSwitch (network s).

(** A payment of at most [share] to a node, of which [fees] are still in the module. *)
Record awarded (na : NodeAccount) (share fees : Z) (s s' : ChainState) : Prop := {
  aw_ok : chain_nodes_ok s';
  aw_signed : records_signed s';
  aw_others k : k ≠ GetKey (NodeAddress na) → chain_nodes s' !! k = chain_nodes s !! k;
  aw_bond : stored_bond s (NodeAddress na) ≤ stored_bond s' (NodeAddress na) ≤ stored_bond s (NodeAddress na) + share;
  aw_left : BondRewardSwitch (network s) - share ≤ BondRewardSwitch (network s') ≤ BondRewardSwitch (network s);
  aw_cover : cover s - Z.max 0 (share - BondRewardSwitch (network s)) + fees ≤ cover s';
}.
Lemma awarded_nothing na share s : chain_nodes_ok s → records_signed s → 0 ≤ share → awarded na share 0 s s.
Proof. intros Hok Hs Hsh. split; try done; lia. Qed.
Lemma awarded_less na share fees s s' : awarded na share fees s s' → 0 ≤ fees → awarded na share 0 s s'.
Proof. intros [? ? ? ? ? ?] Hf. split; try done. lia. Qed.
(** What leaves the accounts, the bond module, and the records. *)
Lemma awarded_same na share fees s s1 s2 :
  awarded na share fees s s1 → bonds_kept s1 s2 → network s2 = network s1 → records_signed s2 → awarded na share fees s s2.
Proof.
  intros [Hok _ Ho Hb Hl Hc] Hk Hn Hs. pose proof (bonds_kept_nodes _ _ Hk) as Hnodes. split.
  - by eapply bonds_kept_ok.
  - done.
  - intros k. rewrite Hnodes. apply Ho.
  - assert (stored_bond s2 (NodeAddress na) = stored_bond s1 (NodeAddress na)) as -> by (unfold stored_bond; by rewrite Hnodes). done.
  - by rewrite Hn.
  - unfold cover in *. by rewrite Hn, (bonds_kept_surplus _ _ Hk).
Qed.

Lemma Adjust_fee bp nodeBond bp' : BP_Adjust bp nodeBond = Ok bp' → NodeOperatorFee bp' = NodeOperatorFee bp.
Proof.
  unfold BP_Adjust. destruct (Providers bp) as [|op rest]; [by intros [= <-]|]. intros (t & _ & Hrun)%bind_ok.
  destruct (t =? nodeBond); [by injection Hrun as <-|].
  apply bind_ok in Hrun as (fee & _ & Hrun). apply bind_ok in Hrun as (nb & _ & Hrun). apply bind_ok in Hrun as ([b rest'] & _ & Hrun).
  apply bind_ok in Hrun as (b' & _ & [= <-]). done.
Qed.
Lemma Unbond_fee bp bond acc bp' : BP_Unbond bp bond acc = Ok bp' → NodeOperatorFee bp' = NodeOperatorFee bp.
Proof. unfold BP_Unbond. intros Hrun. by ok_inv. Qed.
Lemma backfill_fee na bp s bp' s' :
  passiveBackfill na bp s = (Ok bp', s') → 0 ≤ NodeOperatorFee bp → 0 ≤ NodeOperatorFee bp'.
Proof.
  unfold passiveBackfill. intros Hrun Hf. destruct (Providers bp); [|by apply ret_ok in Hrun as [-> _]].
  run_step Hrun op s1 E1. run_step Hrun fee s2 E2. apply ret_ok in Hrun as [-> _]. cbn. unfold to_u64. apply Z.mod_pos_bound. lia.
Qed.
Lemma operator_fee_le bp acc reward lastBond fees :
  operator_fee bp acc reward lastBond = Ok fees → 0 ≤ NodeOperatorFee bp → 0 ≤ reward ≤ 10 ^ 17 → 0 ≤ fees ≤ reward.
Proof.
  unfold operator_fee. intros Hrun Hf Hr. cbv zeta in Hrun.
  pose proof (GetSafeShare_le (NodeOperatorFee bp) 10000 reward Hf ltac:(lia) ltac:(lia)) as Hle.
  apply bind_ok in Hrun as (inc & Hinc & [= <-]).
  assert (0 ≤ inc).
  { unfold SafeSub in Hinc. destruct (Z.ltb_spec (bp_Bond (BP_Get bp acc)) lastBond); [injection Hinc as <-; lia|].
    apply usub_inv in Hinc. lia. }
  destruct (Z.ltb_spec inc (GetSafeShare (NodeOperatorFee bp) 10000 reward)); lia.
Qed.

Lemma earned_share_le total slashPts share :
  0 ≤ total < 2 ^ 63 → 0 ≤ slashPts < 2 ^ 63 → 0 ≤ share ≤ 10 ^ 17 → 0 ≤ earned_share total slashPts share ≤ share.
Proof.
  intros Ht Hp Hs. unfold earned_share. rewrite to_i64_id by lia. cbv zeta.
  set (earned := if _ <? 0 then 0 else _). assert (0 ≤ earned ≤ total) by (unfold earned; destruct (Z.ltb_spec (total - slashPts) 0); lia).
  clearbody earned. rewrite !to_u64_id by lia. apply share_le_allocation; lia.
Qed.

(** The records are written, the account and the module are not yet. *)
Record reward_taken (reward : Z) (s0 s : ChainState) : Prop := {
  rt_kept : bonds_kept s0 s;
  rt_signed : records_signed s;
  rt_left : BondRewardSwitch (network s) = Z.max 0 (BondRewardSwitch (network s0) - reward);
}.
Lemma taken_awarded na reward share s0 s :
  chain_nodes_ok s0 → 0 ≤ reward ≤ share → reward_taken reward s0 s → records_signed s0 → awarded na share 0 s0 s.
Proof.
  intros Hok Hr [Hk Hs Hl] (_ & _ & Hb). pose proof (bonds_kept_nodes _ _ Hk) as Hn. split.
  - by eapply bonds_kept_ok.
  - done.
  - intros k _. by rewrite Hn.
  - assert (stored_bond s (NodeAddress na) = stored_bond s0 (NodeAddress na)) as -> by (unfold stored_bond; by rewrite Hn). lia.
  - lia.
  - unfold cover. rewrite Hl, (bonds_kept_surplus _ _ Hk). lia.
Qed.

Lemma SetNodeAccount_never ctx na : never_errs (SetNodeAccount ctx na).
Proof. unfold SetNodeAccount. destruct (NodeAccount_IsEmpty na); [apply never_ret|]. cbv zeta. destruct (_ && _); repeat (apply never_bind; [|intros ?]); first [apply never_ret|apply never_modify]. Qed.
Lemma slash_kept ctx na s s' :
  chain_obs (SetNodeAccount ctx na) s = (Ok (), s') →
  ∀ k pts, slashPoints (chain_state_obs s') !! k = Some pts → slashPoints (chain_state_obs s) !! k = Some pts.
Proof.
  intros (o & Ho & ->)%chain_obs_ok k pts. change (slashPoints o !! k = Some pts → slashPoints (chain_state_obs s) !! k = Some pts).
  revert Ho. generalize (chain_state_obs s). intros o0. unfold SetNodeAccount. destruct (NodeAccount_IsEmpty na); [by intros [= <-]|].
  cbv zeta. destruct (_ && _); intros [= <-]; cbn; [|done]. by intros [_ ?]%lookup_delete_Some.
Qed.

(** The account takes the reward but for the fees. *)
Lemma account_rewarded ctx na reward share fees s0 s u s' :
  chain_obs (SetNodeAccount ctx (set_na_Bond (na_Bond na + reward - fees) na)) s = (Ok u, s') →
  chain_nodes_ok s0 → chain_nodes s0 !! GetKey (NodeAddress na) = Some na → 0 ≤ fees ≤ reward → reward ≤ share →
  reward_taken reward s0 s → records_signed s0 → awarded na share fees s0 s' ∧ cover s' ≤ cover s0 + fees.
Proof.
  intros Hrun Hok Hna Hf Hsh [Hk Hs Hl] (_ & _ & Hb0). pose proof (bonds_kept_nodes _ _ Hk) as Hn. destruct u.
  destruct (Hok _ _ Hna) as (_ & He & Hb). pose proof (slash_kept _ _ _ _ Hrun) as Hsl.
  apply (save_account_ok ctx (NodeAddress na)) in Hrun as [Hok' Hcore Hout Hbond Hoth Hsur];
    [|by eapply bonds_kept_ok|done|cbn; lia|intros He'; change (NodeAccount_IsEmpty na = true) in He'; congruence].
  assert (Hst : stored_bond s (NodeAddress na) = na_Bond na) by (unfold stored_bond; by rewrite Hn, Hna).
  assert (Hst0 : stored_bond s0 (NodeAddress na) = na_Bond na) by (unfold stored_bond; by rewrite Hna).
  cbn [na_Bond set_na_Bond] in *. destruct Hout as [v ->].
  assert (cover (put_cs_vaults v s) = cover s0 - reward + fees + BondRewardSwitch (network s0) - Z.max 0 (BondRewardSwitch (network s0) - reward)).
  { unfold cover. rewrite Hsur, Hst, (bonds_kept_surplus _ _ Hk). cbn [network put_cs_vaults]. lia. }
  split; [split|lia].
  - done.
  - destruct Hs as (? & ? & ?). split_and!; [done|eauto|done].
  - intros k Hne. rewrite Hoth by done. by rewrite Hn.
  - lia.
  - cbn [network put_cs_vaults]. lia.
  - lia.
Qed.

(** A payment that ends leaves the module with what it owes, or less by rounding. *)
Definition paid_up (na : NodeAccount) (share fees : Z) (s0 s : ChainState) : Prop := awarded na share fees s0 s ∧ cover s ≤ cover s0 + fees.
Lemma paid_up_same na share fees s s1 s2 :
  paid_up na share fees s s1 → bonds_kept s1 s2 → network s2 = network s1 → records_signed s2 → paid_up na share fees s s2.
Proof.
  intros [Ha Hc] Hk Hn Hs. split; [by eapply awarded_same|]. unfold cover in *. by rewrite Hn, (bonds_kept_surplus _ _ Hk).
Qed.

(** A payment out of the module of fees that were left in it. *)
Lemma fees_yield na acc fees share s0 :
  0 ≤ fees → yields (awarded na share 0 s0) (paid_up na share fees s0) (pay_operator_fee na acc fees) (λ _, paid_up na share 0 s0).
Proof.
  intros Hf. unfold pay_operator_fee. destruct (Z.eqb_spec fees 0) as [->|Hne]; [by apply yields_ret|].
  eapply yields_bind with (Q := λ _, paid_up na share 0 s0).
  - intros s [Ha Hup]. destruct (chain_core _ s) as [[[]|e|] s1] eqn:E; [| |done].
    + pose proof (chain_core_ok _ _ _ _ E) as (c & _ & ->). apply bond_to_account_ok in E as (_ & Hn & _ & _ & Hs & _).
      assert (cover (with_chain_core c s) = cover s - fees).
      { unfold cover. rewrite Hs. change (network (with_chain_core c s)) with (network s). lia. }
      destruct Ha as [Hok Hsg Ho Hb Hl Hc]. split; [split|lia].
      * intros k m Hk. apply Hok. unfold chain_nodes in Hn. by rewrite <- Hn.
      * exact Hsg.
      * intros k. rewrite Hn. apply Ho.
      * assert (stored_bond (with_chain_core c s) (NodeAddress na) = stored_bond s (NodeAddress na)) as -> by (unfold stored_bond; by rewrite Hn). done.
      * exact Hl.
      * lia.
    + apply bond_to_account_fails in E as ->. by eapply awarded_less.
  - intros _. eapply yields_bind; [apply yields_err with (Q := λ _, paid_up na share 0 s0); [by intros s []|by intros ? ?]|intros ?; cbn beta].
    intros s Ha. rewrite chain_core_run. cbn [fst EmitEvent modify]. eapply paid_up_same; [exact Ha|done|done|apply Ha].
Qed.

Lemma tail_yields ctx na acc bp reward share lastBond s0 :
  chain_nodes_ok s0 → records_signed s0 → chain_nodes s0 !! GetKey (NodeAddress na) = Some na →
  0 ≤ NodeOperatorFee bp → 0 ≤ reward ≤ share → share ≤ 10 ^ 17 →
  yields (awarded na share 0 s0) (reward_taken reward s0)
    (bp ← lift (BP_Adjust bp (na_Bond na + reward));
     fees ← lift (operator_fee bp acc reward lastBond);
     bond ← lift (if fees =? 0 then Ok (na_Bond na + reward) else SafeSub (na_Bond na + reward) fees);
     bp ← lift (if fees =? 0 then Ok bp else BP_Unbond bp fees acc);
     _ ← chain_obs (SetNodeAccount ctx (set_na_Bond bond na));
     _ ← SetBondProviders bp;
     _ ← chain_core (EmitEvent (EvBond reward BondReward (NodeAddress na) "" ""));
     pay_operator_fee na acc fees) (λ _, paid_up na share 0 s0).
Proof.
  intros Hok Hsg Hna Hfee Hr Hsh. pose proof (λ s Ht, taken_awarded na reward share s0 s Hok Hr Ht Hsg) as HR.
  destruct (Hok _ _ Hna) as (_ & _ & Hb).
  eapply yields_bind with (Q := λ bp s, 0 ≤ NodeOperatorFee bp ∧ reward_taken reward s0 s);
    [apply yields_err; [done|by intros bp1 s ->%Adjust_fee ?]|intros bp1; cbn beta].
  eapply yields_bind with (Q := λ fees s, (0 ≤ fees ≤ reward ∧ 0 ≤ NodeOperatorFee bp1) ∧ reward_taken reward s0 s).
  { apply yields_err; [intros s [_ ?]; auto|]. intros fees s Hf [Hp Ht]. split; [|done]. split; [|done]. eapply operator_fee_le; [done|done|lia]. }
  intros fees. cbn beta.
  eapply yields_bind with (Q := λ bond s, bond = na_Bond na + reward - fees ∧ (0 ≤ fees ≤ reward ∧ 0 ≤ NodeOperatorFee bp1) ∧ reward_taken reward s0 s).
  { apply yields_err; [intros s [_ ?]; auto|]. intros bond s Hbond Hs. split; [|done]. destruct Hs as [[Hf _] _].
    destruct (Z.eqb_spec fees 0); [injection Hbond as <-; lia|]. apply SafeSub_inv in Hbond; lia. }
  intros bond. cbn beta.
  eapply yields_bind with (Q := λ bp2 s, 0 ≤ NodeOperatorFee bp2 ∧ bond = na_Bond na + reward - fees ∧ 0 ≤ fees ≤ reward ∧ reward_taken reward s0 s).
  { apply yields_err; [intros s (_ & _ & ?); auto|]. intros bp2 s Hbp (-> & [Hf Hp] & Ht). split_and!; [|done|lia|lia|done].
    destruct (fees =? 0); [by injection Hbp as <-|]. by rewrite (Unbond_fee _ _ _ _ Hbp). }
  intros bp2. cbn beta.
  eapply yields_bind with (Q := λ _ s, 0 ≤ NodeOperatorFee bp2 ∧ 0 ≤ fees ∧ paid_up na share fees s0 s).
  { intros s (Hp & -> & Hf & Ht). destruct (chain_obs _ s) as [[u|e|] s1] eqn:E; [| |done].
    - split_and!; [done|lia|]. eapply account_rewarded; try done; lia.
    - unfold chain_obs, in_vaults, observed, in_queue, in_obs in E. pose proof (SetNodeAccount_never ctx (set_na_Bond (na_Bond na + reward - fees) na)) as Hn.
      specialize (Hn (chain_state_obs s)). unfold chain_state_obs in Hn. destruct (SetNodeAccount _ _ _) as [[]]; [done|by destruct (Hn e0 o)|done]. }
  intros _. cbn beta.
  eapply yields_bind with (Q := λ _ s, 0 ≤ fees ∧ paid_up na share fees s0 s).
  { intros s (Hp & Hf & Ha). cbn. split; [done|]. eapply paid_up_same; [exact Ha|done|done|]. destruct (aw_signed _ _ _ _ _ (proj1 Ha)) as (Hb1 & Hb2 & Hb3).
    split_and!; [|done|done]. intros k b Hk. cbn in Hk. apply lookup_insert_Some in Hk as [[_ <-]|[_ Hk]]; [done|]. by eapply Hb1. }
  intros _. cbn beta.
  eapply yields_bind with (Q := λ _ s, 0 ≤ fees ∧ paid_up na share fees s0 s).
  { intros s [Hf Ha]. rewrite chain_core_run. cbn [fst EmitEvent modify]. split; [done|]. eapply paid_up_same; [exact Ha|done|done|apply Ha]. }
  intros _ s [Hf Ha]. by apply fees_yield.
Qed.


(** A node is paid its reward, less the fees, which leave the module or stay in it:
    whatever fails, the module covers as much as before but for what the reward is
    above the rewards that were left, and if nothing fails no more. *)
Lemma award_yields ctx h na total te hardCap s0 :
  let share := node_share na total te hardCap in
  chain_nodes_ok s0 → records_signed s0 → chain_nodes s0 !! GetKey (NodeAddress na) = Some na →
  0 ≤ share ≤ 10 ^ 17 → 0 ≤ h ≤ BlockHeight ctx → BlockHeight ctx < 2 ^ 63 →
  yields (awarded na share 0 s0) (λ s, s = s0) (payNodeAccountBondAward ctx h na total te hardCap) (λ _, paid_up na share 0 s0).
Proof.
  intros share Hok Hsg Hna Hsh Hh Hh'. pose proof (awarded_nothing na share s0 Hok Hsg ltac:(lia)) as H00.
  unfold payNodeAccountBondAward. destruct (_ || _); [apply yields_ret; intros s ->; split; [done|lia]|].
  eapply yields_bind with (Q := λ nw s, nw = network s0 ∧ s = s0); [by intros s ->|intros nw].
  eapply yields_bind with (Q := λ pts s, (0 ≤ pts < 2 ^ 63 ∧ nw = network s0) ∧ s = s0).
  { intros s [-> ->]. rewrite (reads_run (chain_obs _) s0) by (apply only_reads_chain_obs; done). rewrite chain_obs_fst. cbn.
    split_and!; [| |done|done]; destruct (slashPoints (chain_state_obs s0) !! _) eqn:E; cbn; try lia; apply Hsg in E; lia. }
  intros pts. cbv zeta. rewrite to_i64_id by lia. set (reward := earned_share _ _ _).
  set (facts (bp : BondProviders) s := (0 ≤ NodeOperatorFee bp ∧ 0 ≤ reward ≤ share ∧ nw = network s0) ∧ s = s0).
  eapply yields_bind with (Q := facts).
  { intros s [[Hp ->] ->]. cbn. split_and!; [|apply earned_share_le; lia|apply earned_share_le; lia|done|done].
    destruct (bondProviders s0 !! _) eqn:E; cbn; [by apply Hsg in E|lia]. }
  intros bp. eapply yields_bind with (Q := λ _, facts bp); [apply yields_err; [by intros s [_ ->]|intros a s _ Hs; exact Hs]|intros acc; cbn beta].
  eapply yields_bind with (Q := facts).
  { intros s [(Hf & Hr & ->) ->]. destruct (passiveBackfill na bp s0) as [[bp1|e|] s1] eqn:E; [| |done];
      pose proof (reads_backfill na bp s0) as Hrd; rewrite E in Hrd; cbn in Hrd; subst s1; [|done]. split; [|done]. split; [|done].
    by eapply backfill_fee. }
  intros bp1. eapply yields_bind with (Q := facts).
  { apply yields_err; [by intros s [_ ->]|]. intros bp2 s Ha [[Hf Hr] ->]. split; [|done]. by rewrite (Adjust_fee _ _ _ Ha). }
  intros bp2. eapply yields_bind with (Q := λ _, facts bp2); [apply yields_err; [by intros s [_ ->]|intros a s _ Hs; exact Hs]|intros []; cbn beta].
  eapply yields_bind with (Q := λ b s, b = na_Bond na + reward ∧ facts bp2 s).
  { apply yields_err; [by intros s [_ ->]|]. intros b s [-> _]%uadd_inv Hf. by split. }
  intros b. eapply yields_bind with (Q := λ l s, l = Z.max 0 (BondRewardSwitch (network s0) - reward) ∧ b = na_Bond na + reward ∧ facts bp2 s).
  { apply yields_err; [by intros s (_ & _ & ->)|]. intros l s Hl [-> Hf]. split; [|done]. destruct Hf as [(_ & Hr & ->) _].
    apply SafeSub_inv in Hl; [done|apply Hsg|lia]. }
  intros l. eapply yields_bind with (Q := λ _ s, l = Z.max 0 (BondRewardSwitch (network s0) - reward) ∧ b = na_Bond na + reward ∧ facts bp2 s).
  { apply yields_err; [by intros s (_ & _ & _ & ->)|intros a s _ Hs; exact Hs]. }
  intros units. eapply yields_bind with (Q := λ _ s, (b = na_Bond na + reward ∧ 0 ≤ NodeOperatorFee bp2 ∧ 0 ≤ reward ≤ share) ∧ reward_taken reward s0 s).
  { intros s (-> & -> & (Hf & Hr & ->) & ->). cbn. split; [done|]. split; [done| |done].
    destruct Hsg as (? & ? & ?). split_and!; [done|done|cbn; lia]. }
  intros []. cbn beta.
  eapply yields_bind with (Q := λ _ s, (b = na_Bond na + reward ∧ 0 ≤ NodeOperatorFee bp2 ∧ 0 ≤ reward ≤ share) ∧ reward_taken reward s0 s).
  { intros s [Hf [Hk (Hs1 & Hs2 & Hs3) Hl]]. cbn. split; [done|]. split; [exact Hk| |exact Hl]. split_and!; [exact Hs1| |exact Hs3].
    intros k p Hp. change (<[GetKey (NodeAddress na) := if to_i64 (pts - (BlockHeight ctx - h)) <? 0 then 0 else to_i64 (pts - (BlockHeight ctx - h))]>
      (slashPoints (chain_state_obs s)) !! k = Some p) in Hp.
    apply lookup_insert_Some in Hp as [[_ <-]|[_ Hp]]; [|by eapply Hs2]. pose proof (Z.mod_pos_bound ((pts - (BlockHeight ctx - h)) + 2 ^ 63) (2 ^ 64) ltac:(lia)) as Hi.
    destruct (Z.ltb_spec (to_i64 (pts - (BlockHeight ctx - h))) 0); [lia|unfold to_i64 in *; lia]. }
  intros []. cbn beta. intros s [(-> & Hf & Hr) Ht]. apply tail_yields; try done; lia.
Qed.


(** ** The payments of all nodes *)

Definition node_key (na : NodeAccount) : string := GetKey (NodeAddress na).
Record distributed (nas : list NodeAccount) (total : Z) (s s' : ChainState) : Prop := {
  ds_ok : chain_nodes_ok s';
  ds_signed : records_signed s';
  ds_others k : k ∉ node_key <$> nas → chain_nodes s' !! k = chain_nodes s !! k;
  ds_bonds na : na ∈ nas → na_Bond na ≤ stored_bond s' (NodeAddress na);
  ds_left : BondRewardSwitch (network s) - total ≤ BondRewardSwitch (network s') ≤ BondRewardSwitch (network s);
  ds_cover : cover s - Z.max 0 (total - BondRewardSwitch (network s)) ≤ cover s';
}.
Definition payable (f : NodeAccount → Z) (nas : list NodeAccount) (s : ChainState) : Prop :=
  base.NoDup (node_key <$> nas) ∧ Forall (λ na, chain_nodes s !! node_key na = Some na ∧ 0 ≤ f na ≤ 10 ^ 17) nas.

Lemma payable_next f na nas s s' : payable f (na :: nas) s → awarded na (f na) 0 s s' → payable f nas s'.
Proof.
  intros [Hd Hf] Ha. cbn in Hd. apply list.NoDup_cons in Hd as [Hin Hd]. apply list.Forall_cons in Hf as [_ Hf].
  split; [done|]. apply list.Forall_forall. intros m Hm. rewrite list.Forall_forall in Hf. destruct (Hf m Hm) as [Hk Hs].
  split; [|done]. rewrite (aw_others _ _ _ _ _ Ha); [done|]. intros Heq. apply Hin. fold (node_key na) in Heq. rewrite <- Heq.
  apply list_elem_of_fmap. by exists m.
Qed.
Lemma distributed_cons f na nas s s1 s2 total :
  payable f (na :: nas) s → 0 ≤ total → awarded na (f na) 0 s s1 → distributed nas total s1 s2 → distributed (na :: nas) (f na + total) s s2.
Proof.
  intros [Hd Hf] Ht Ha [Hok Hsg Ho Hb Hl Hc]. cbn in Hd. apply list.NoDup_cons in Hd as [Hin Hd]. apply list.Forall_cons in Hf as [[Hna Hs] Hf].
  pose proof (aw_signed _ _ _ _ _ Ha) as (_ & _ & Hpos). destruct Ha as [_ _ Ho1 Hb1 Hl1 Hc1]. split.
  - done.
  - done.
  - intros k Hk. cbn in Hk. apply not_elem_of_cons in Hk as [Hne Hk]. rewrite Ho by done. by apply Ho1.
  - intros m [->|Hm]%elem_of_cons; [|by apply Hb]. assert (stored_bond s2 (NodeAddress na) = stored_bond s1 (NodeAddress na)) as ->.
    { unfold stored_bond. by rewrite Ho. }
    destruct Hb1 as [Hb1 _]. unfold stored_bond at 1 in Hb1. unfold node_key in Hna. rewrite Hna in Hb1. done.
  - lia.
  - lia.
Qed.

(** The nodes are paid whatever fails for some of them; when nothing fails nothing
    is left over. *)
Lemma pay_awards_ok ctx h nas total te hardCap err s :
  let share na := node_share na total te hardCap in
  chain_nodes_ok s → records_signed s → payable share nas s → 0 ≤ h ≤ BlockHeight ctx → BlockHeight ctx < 2 ^ 63 →
  match pay_awards ctx h nas total te hardCap err s with
  | (Ok r, s') => distributed nas (sumZ (share <$> nas)) s s' ∧ (r = None → err = None ∧ cover s' ≤ cover s)
  | (Err _, _) => False
  | (Panic, _) => True
  end.
Proof.
  intros share Hok Hsg Hpay Hh Hh'. revert err s Hok Hsg Hpay. induction nas as [|na nas IH]; intros err s Hok Hsg Hpay; cbn [pay_awards].
  { cbn. split; [|intros ->; split; [done|lia]]. split; try done; cbn; first [lia|by intros ? ?%not_elem_of_nil]. }
  pose proof Hpay as [_ [[Hna Hs] Hf]%list.Forall_cons].
  pose proof (award_yields ctx h na total te hardCap s Hok Hsg Hna Hs Hh Hh' s eq_refl) as Ha.
  assert (Hsum : 0 ≤ sumZ (share <$> nas)).
  { apply sumZ_nonneg. apply list.Forall_forall. intros x (m & -> & Hm)%list_elem_of_fmap. rewrite list.Forall_forall in Hf. by apply Hf. }
  unfold attempt, mbind, M_bind. destruct (payNodeAccountBondAward _ _ _ _ _ _ s) as [[u|e|] s1]; [destruct Ha as [Ha Hup]| |done].
  all: pose proof (payable_next share na nas s s1 Hpay Ha) as Hpay1.
  - specialize (IH err s1 (aw_ok _ _ _ _ _ Ha) (aw_signed _ _ _ _ _ Ha) Hpay1).
    destruct (pay_awards _ _ _ _ _ _ _ s1) as [[r|e|] s2]; [destruct IH as [Hd Hr]|done..]. split; [by eapply (distributed_cons share)|].
    intros Hn. destruct (Hr Hn). split; [done|lia].
  - specialize (IH (Some e) s1 (aw_ok _ _ _ _ _ Ha) (aw_signed _ _ _ _ _ Ha) Hpay1).
    destruct (pay_awards _ _ _ _ _ _ _ s1) as [[r|e1|] s2]; [destruct IH as [Hd Hr]|done..]. split; [by eapply (distributed_cons share)|].
    intros Hn. by destruct (Hr Hn).
Qed.

(** ** The shares *)

Definition effective (hardCap : Z) (na : NodeAccount) : Z := if hardCap <? na_Bond na then hardCap else na_Bond na.
Lemma add_bonds_ok l t r : add_bonds l t = Ok r → r = t + sumZ l.
Proof.
  revert t. induction l as [|b l IH]; intros t; cbn; [intros [= <-]; lia|].
  intros (t1 & [-> _]%uadd_inv & Hr)%bind_ok. apply IH in Hr. unfold sumZ in Hr. lia.
Qed.
Lemma by_bond_perm nas : by_bond nas ≡ₚ nas.
Proof. apply sort_stable_perm. Qed.
Lemma hard_cap_in nas : nas ≠ [] → ∃ na, na ∈ nas ∧ getHardBondCap nas = na_Bond na.
Proof.
  intros Hne. unfold getHardBondCap. destruct nas as [|x l]; [done|]. set (nas := x :: l) in *.
  assert (Hlen : (Z.to_nat (bond_index (len nas)) < length (by_bond nas))%nat).
  { rewrite (Permutation_length (by_bond_perm nas)). unfold bond_index, len, nas. cbn [length].
    destruct (_ =? 0); cbn; pose proof (Z.div_lt_upper_bound (Z.of_nat (S (length l)) * 2) 3 (Z.of_nat (S (length l)))); lia. }
  apply lookup_lt_is_Some_2 in Hlen as [na Hna]. rewrite Hna. exists na. split; [|done].
  rewrite <- (by_bond_perm nas). by eapply list_elem_of_lookup_2.
Qed.


(** ** The active nodes *)

Lemma filter_distinct {A B} (f : A → B) (p : A → bool) l : base.NoDup (f <$> l) → base.NoDup (f <$> List.filter p l).
Proof.
  induction l as [|x l IH]; cbn; [done|]. intros [Hx Hl]%list.NoDup_cons. destruct (p x); [|by apply IH].
  cbn. apply base.NoDup_cons_2; [|by apply IH]. intros (y & Heq & Hy)%list_elem_of_fmap. apply Hx. rewrite Heq.
  apply list_elem_of_fmap. exists y. split; [done|]. apply list_elem_of_In, filter_In in Hy as [Hy _]. by apply list_elem_of_In.
Qed.

Lemma active_nodes_facts s active :
  fst (chain_obs ListActiveValidators s) = Ok active → chain_nodes_ok s →
  base.NoDup (node_key <$> active) ∧ Forall (λ na, chain_nodes s !! node_key na = Some na) active ∧
  sumZ (na_Bond <$> active) ≤ bonded (cs_vaults s).
Proof.
  rewrite chain_obs_fst. intros Hrun Hok. injection Hrun as <-. change (nodeAccounts (chain_state_obs s)) with (chain_nodes s).
  set (l := merge_sort key_le (map_to_list (chain_nodes s))).
  assert (Hl : ∀ k na, (k, na) ∈ l → chain_nodes s !! k = Some na).
  { intros k na. unfold l. rewrite (merge_sort_Permutation key_le), elem_of_map_to_list. done. }
  assert (Hkeys : node_key <$> (snd <$> l) = fst <$> l).
  { rewrite <- list_fmap_compose. apply list_fmap_ext. intros i [k na] Hi. apply list_elem_of_lookup_2, Hl, Hok in Hi as [-> _]. done. }
  split_and!.
  - apply filter_distinct. rewrite Hkeys. unfold l. rewrite (merge_sort_Permutation key_le). apply NoDup_fst_map_to_list.
  - apply list.Forall_forall. intros na Hin. apply list_elem_of_In, filter_In in Hin as [Hin _].
    apply list_elem_of_In, list_elem_of_fmap in Hin as ([k m] & -> & Hin). apply Hl in Hin. cbn. destruct (Hok _ _ Hin) as [Hk _].
    unfold node_key. by rewrite <- Hk.
  - assert (Hsum : sumZ (na_Bond <$> (snd <$> l)) = bonded (cs_vaults s)).
    { unfold bonded, map_sum. change (the_nodes (cs_vaults s)) with (chain_nodes s). rewrite map_fold_foldr, <- list_fmap_compose.
      unfold l. rewrite (sum_perm _ _ (fmap_Permutation _ _ _ (merge_sort_Permutation key_le _))). unfold sumZ.
      clear. induction (map_to_list (chain_nodes s)) as [|[k na] r IHr]; [done|]. cbn. f_equal. exact IHr. }
    rewrite <- Hsum. apply filter_sum. apply list.Forall_forall. intros na ([k m] & -> & Hin)%list_elem_of_fmap.
    by apply Hl, Hok in Hin as (_ & _ & ?).
Qed.

Lemma youngest_range nas b : Forall (λ na, ActiveBlockHeight na ≤ b) nas → 0 ≤ b → 0 ≤ youngest nas ≤ b.
Proof.
  unfold youngest. intros Hn Hb. assert (Hgen : ∀ h, 0 ≤ h ≤ b → 0 ≤ fold_left (λ h na, if h <? ActiveBlockHeight na then ActiveBlockHeight na else h) nas h ≤ b).
  { induction Hn as [|na nas Hna Hn IH]; intros h Hh; cbn; [done|]. apply IH. destruct (Z.ltb_spec h (ActiveBlockHeight na)); lia. }
  apply Hgen. lia.
Qed.

Lemma shares_of_active s active te hardCap total :
  fst (chain_obs ListActiveValidators s) = Ok active → chain_nodes_ok s → bonded (cs_vaults s) < 2 ^ 120 →
  0 ≤ total ≤ 10 ^ 17 → getTotalEffectiveBond active = Ok (te, hardCap) →
  let share na := node_share na total te hardCap in
  payable share (by_bond active) s ∧ sumZ (share <$> by_bond active) ≤ total + len active.
Proof.
  intros Hact Hok Hlt Ht Hte share. destruct (active_nodes_facts s active Hact Hok) as (Hd & Hf & Hsum).
  unfold getTotalEffectiveBond in Hte. apply bind_ok in Hte as (t & Ht1 & [= <- <-]). apply add_bonds_ok in Ht1.
  set (c := getHardBondCap active) in *. change ((λ na, if c <? na_Bond na then c else na_Bond na) <$> by_bond active) with (effective c <$> by_bond active) in Ht1.
  assert (Hb : Forall (λ na, 0 ≤ na_Bond na) (by_bond active)).
  { rewrite by_bond_perm. eapply list.Forall_forall. intros na Hin. rewrite list.Forall_forall in Hf. apply Hf, Hok in Hin as (_ & _ & ?). done. }
  assert (Hc : active ≠ [] → 0 ≤ c).
  { intros (na & Hin & Heq)%hard_cap_in. rewrite list.Forall_forall in Hb. unfold c. rewrite Heq. apply Hb. by rewrite by_bond_perm. }
  assert (He : Forall (λ na, 0 ≤ effective c na ≤ na_Bond na) (by_bond active)).
  { apply list.Forall_forall. intros na Hin. rewrite list.Forall_forall in Hb. specialize (Hb na Hin). unfold effective.
    destruct (Z.ltb_spec c (na_Bond na)); [|lia]. split; [|lia]. apply Hc. intros ->. by apply elem_of_nil in Hin. }
  assert (Hle : t ≤ bonded (cs_vaults s)).
  { rewrite Ht1. transitivity (sumZ (na_Bond <$> by_bond active)); [|by rewrite (sum_perm _ _ (fmap_Permutation _ _ _ (by_bond_perm active)))].
    apply sum_le. eapply Forall_impl; [|exact He]. cbn. lia. }
  assert (Hat : ∀ na, na ∈ by_bond active → 0 ≤ effective c na ≤ t).
  { intros na Hin. rewrite list.Forall_forall in He. destruct (He na Hin) as [Hna _]. split; [done|]. rewrite Ht1.
    apply list_elem_of_split in Hin as (l1 & l2 & Heq). rewrite Heq in He |- *. rewrite fmap_app, fmap_cons, sumZ_app. cbn.
    assert (∀ l, (∀ x, x ∈ l → 0 ≤ effective c x) → 0 ≤ sumZ (effective c <$> l)) as Hpos.
    { intros l Hl. apply sumZ_nonneg, list.Forall_forall. intros x (y & -> & Hy)%list_elem_of_fmap. by apply Hl. }
    pose proof (Hpos l1 ltac:(intros x Hx; apply He; rewrite elem_of_app; by left)). pose proof (Hpos l2 ltac:(intros x Hx; apply He; rewrite elem_of_app, elem_of_cons; auto)).
    unfold sumZ in *. lia. }
  split.
  - split; [by rewrite by_bond_perm|]. apply list.Forall_forall. intros na Hin. rewrite list.Forall_forall in Hf. split; [apply Hf; by rewrite <- (by_bond_perm active)|].
    pose proof (share_le_allocation (effective c na) t total ltac:(apply Hat; done) ltac:(split; [apply Hat; done|lia]) ltac:(lia)) as Hs.
    change (share na) with (GetUncappedShare (effective c na) t total). lia.
  - pose proof (shares_sum t total (effective c <$> by_bond active)) as Hs.
    assert (sumZ (share <$> by_bond active) = sumZ ((λ p, GetUncappedShare p t total) <$> (effective c <$> by_bond active))) as -> by (by rewrite <- list_fmap_compose).
    unfold len in *. rewrite length_fmap, (Permutation_length (by_bond_perm active)) in Hs. apply Hs; [|lia|lia|lia].
    apply list.Forall_forall. intros p (na & -> & Hin)%list_elem_of_fmap. by apply Hat.
Qed.

Lemma add_bonds_no_err l t e : add_bonds l t ≠ Err e.
Proof.
  revert t. induction l as [|b l IH]; intros t; cbn; [done|]. destruct (uadd t b) as [t1|e1|] eqn:E; cbn; [apply IH|by apply uadd_no_err in E|done].
Qed.

(** C13: Whatever happens to the payments, the bonds only grow, of the active nodes alone,
    and by at most what is taken off the rewards and the reward that rounding makes:
    the module covers the bonds and the rewards that are left as before but for one
    base unit per active node.  If no payment fails nothing is left uncounted. *)
Theorem distributed_rewards_are_covered ctx s active :
  chain_nodes_ok s → records_signed s → bonded (cs_vaults s) < 2 ^ 120 → BondRewardSwitch (network s) ≤ 10 ^ 17 →
  0 ≤ BlockHeight ctx < 2 ^ 63 → fst (chain_obs ListActiveValidators s) = Ok active →
  Forall (λ na, ActiveBlockHeight na ≤ BlockHeight ctx) active →
  match distributeBondReward ctx s with
  | (Panic, _) => True
  | (r, s') =>
      chain_nodes_ok s' ∧ records_signed s' ∧ cover s - len active ≤ cover s' ∧ (r = Ok () → cover s' ≤ cover s) ∧
      0 ≤ BondRewardSwitch (network s') ≤ BondRewardSwitch (network s) ∧
      (∀ na, na ∈ active → na_Bond na ≤ stored_bond s' (NodeAddress na)) ∧
      (∀ k, k ∉ node_key <$> active → chain_nodes s' !! k = chain_nodes s !! k)
  end.
Proof.
  intros Hok Hsg Hlt Hrw Hh Hact Hyoung. pose proof (youngest_range active (BlockHeight ctx) Hyoung ltac:(lia)) as Hy.
  unfold distributeBondReward. unfold mbind at 1, M_bind at 1.
  rewrite (reads_run (chain_obs ListActiveValidators) s), Hact by (apply only_reads_chain_obs; done).
  unfold mbind at 1, M_bind at 1, lift. destruct (getTotalEffectiveBond active) as [[te hardCap]|e|] eqn:Hte; [| |done].
  2: { unfold getTotalEffectiveBond in Hte. cbv zeta in Hte. destruct (add_bonds _ 0) as [t|e1|] eqn:E; [done|by apply add_bonds_no_err in E|done]. }
  pose proof Hsg as (_ & _ & Hpos).
  destruct (shares_of_active s active te hardCap (BondRewardSwitch (network s)) Hact Hok Hlt ltac:(lia) Hte) as [Hpay Hsum].
  pose proof (pay_awards_ok ctx (youngest active) (by_bond active) (BondRewardSwitch (network s)) te hardCap None s Hok Hsg Hpay Hy ltac:(lia)) as Hp.
  unfold mbind at 1, M_bind at 1, Keeper_GetNetwork, gets. unfold mbind at 1, M_bind at 1.
  destruct (pay_awards _ _ _ _ _ _ _ s) as [[r|e|] s1]; [|done|done]. destruct Hp as [[Hok1 Hsg1 Ho Hb Hl Hc] Hr].
  assert (Hend : ∀ r' : outcome (), (r' = Ok () → r = None) →
    chain_nodes_ok s1 ∧ records_signed s1 ∧ cover s - len active ≤ cover s1 ∧ (r' = Ok () → cover s1 ≤ cover s) ∧
    0 ≤ BondRewardSwitch (network s1) ≤ BondRewardSwitch (network s) ∧
    (∀ na, na ∈ active → na_Bond na ≤ stored_bond s1 (NodeAddress na)) ∧
    (∀ k, k ∉ node_key <$> active → chain_nodes s1 !! k = chain_nodes s !! k)).
  { intros r' Hr'. assert (0 ≤ len active) by (unfold len; lia). split_and!; [done|done|lia|intros Hn; by apply Hr, Hr'|apply Hsg1|lia| |].
    - intros na Hin. apply Hb. by rewrite by_bond_perm.
    - intros k Hk. apply Ho. by rewrite by_bond_perm. }
  destruct r as [e|]; by apply Hend.
Qed.

End Awards.

(** ** Witnesses *)

#[local] Existing Instance plain_keys.

(** Five nodes, active from block 10 on, with a thousand SWITCH each, of which the
    last has another provider and takes a fee of a fifth. *)
Definition paid_node (addr : string) : NodeAccount := set_status NodeActive 10 10 (bonded_node addr (1000 * One)).
Definition paid_nodes : list NodeAccount := [paid_node "alice"; paid_node "bob"; paid_node "carol"; paid_node "dave"; paid_node "erin"].
Definition erin_providers : BondProviders :=
  mkBondProviders "erin" 2000 [mkBondProvider "erin" (600 * One); mkBondProvider "frank" (400 * One)].
Definition reward_chain (rewards : Z) : ChainState (H0 := one_plan) :=
  put_network (set_BondRewardSwitch rewards NewNetwork)
    (put_bondProviders {["ERIN" := erin_providers]}
      (put_cs_vaults (put_queue (put_obs (put_nodeAccounts (list_to_map ((λ na, (node_key na, na)) <$> paid_nodes))
         (chain_state_obs council_chain)) (vs_queue (cs_vaults council_chain))) (cs_vaults council_chain)) council_chain)).
Definition churn_block : Ctx := mkCtx 100 3 "".

Lemma reward_chain_ok n : chain_nodes_ok (reward_chain n).
Proof.
  intros k na Hk. apply elem_of_list_to_map_2 in Hk. apply list_elem_of_fmap in Hk as (m & [= -> ->] & Hm).
  repeat (apply elem_of_cons in Hm as [->|Hm]; [split_and!; [reflexivity|vm_compute; reflexivity|vm_compute; discriminate]|]).
  by apply elem_of_nil in Hm.
Qed.
Lemma reward_chain_signed n : 0 ≤ n → records_signed (reward_chain n).
Proof.
  intros Hn. split_and!; [|intros k p Hk; change ((∅ : gmap string Z) !! k = Some p) in Hk; by rewrite lookup_empty in Hk|exact Hn].
  intros k bp Hk. change (({["ERIN" := erin_providers]} : gmap string BondProviders) !! k = Some bp) in Hk.
  apply lookup_singleton_Some in Hk as [_ <-]. vm_compute. congruence.
Qed.
Lemma reward_chain_active n : fst (chain_obs ListActiveValidators (reward_chain n)) = Ok paid_nodes.
Proof. rewrite chain_obs_fst. vm_compute. reflexivity. Qed.

(** Three base units for five nodes: each share rounds up to one, and the bonds are
    two units more than the module has for them. *)
Lemma distributed_rewards_are_covered_witness :
  let s := reward_chain 3 in let s' := snd (distributeBondReward churn_block s) in
  fst (distributeBondReward churn_block s) = Ok () ∧ cover s - 5 ≤ cover s' ≤ cover s ∧ cover s' = cover s - 2 ∧
  BondRewardSwitch (network s') = 0.
Proof.
  cbn zeta. assert (fst (distributeBondReward churn_block (reward_chain 3)) = Ok ()) as H by (vm_compute; reflexivity).
  pose proof (distributed_rewards_are_covered churn_block (reward_chain 3) paid_nodes (reward_chain_ok 3)
    (reward_chain_signed 3 ltac:(lia)) ltac:(vm_compute; reflexivity) ltac:(vm_compute; congruence)
    ltac:(split; vm_compute; congruence) (reward_chain_active 3)
    ltac:(repeat constructor; vm_compute; congruence)) as Ht.
  split; [exact H|]. destruct (distributeBondReward churn_block (reward_chain 3)) as [r s'] eqn:E. cbn [fst snd] in *. subst r.
  destruct Ht as (_ & _ & Hc & Hup & _). change (len paid_nodes) with 5 in Hc. split; [split; [exact Hc|by apply Hup]|].
  assert (s' = snd (distributeBondReward churn_block (reward_chain 3))) as -> by (by rewrite E). split; vm_compute; reflexivity.
Defined.
