(* ===== verification/SWCYRewards.v ===== *)
(** * The distribution to the stakers of SWCY

    The fund of the stakes, in src/x/switchly/manager_network_current.go: once a day
    the SWITCH it has collected goes to the stakers by their stakes, and the part of
    the SWCY that nobody has staked to the module of the claims, which swaps it for
    SWCY with the pool. *)

From stdpp Require Import sorting.
From S2P Require Import Prelude Runs GoStrings CosmosMath Amounts Assets Coins Pools Constants State Txs Fees Nodes Quorum ObservedTx Attest SwapHandler SwapOrder Vaults Gas Layers Slasher ChainState Bonds Swap MemoTexts SWCY Rewards.
Open Scope Z_scope.

Section SWCYRewards.
  Context `{CosmosMath} `{Bank} `{Env} `{!PubKeys} `{UpgradeKeeper} `{!SWCYContract}.
Abbreviation C := (M ChainState).

Definition GetBalanceOfModule (m denom : string) : K Z := gets (λ s, bank_balance (bank s) (Module_acc m) denom).

(** A multiple of the configured amount. *)
Definition getSWCYStakeAmountToDistribute (swcyStakeAmount minSWITCHMultiple : Z) : Z :=
  let multiple := to_u64 minSWITCHMultiple in
  if (multiple =? 0) || (swcyStakeAmount <? multiple) then 0 else swcyStakeAmount - swcyStakeAmount `mod` multiple.

(** The accounts and their SWCY, and its sum. *)
Definition swcyDistribution : Type := string * Z.
Definition appendDistribution (ds : list swcyDistribution * Z) (acc : string) (amount : Z) : outcome (list swcyDistribution * Z) :=
  t ← uadd (snd ds) amount; Ok ((fst ds ++ [(acc, amount)])%list, t).
Definition append_nonzero (ds : list swcyDistribution * Z) (acc : string) (amount : Z) : outcome (list swcyDistribution * Z) :=
  if amount =? 0 then Ok ds else appendDistribution ds acc amount.

(** Stakers without a stake go, those with a small one do not take part. *)
Fixpoint staker_distributions (minSWCYMultiple : Z) (stakers : list SWCYStaker) (ds : list swcyDistribution * Z)
    : C (list swcyDistribution * Z) :=
  match stakers with
  | [] => mret ds
  | staker :: r =>
      if (sk_Amount staker =? 0) && negb (IsSWCYSmartContractAddress (sk_Address staker)) then
        _ ← DeleteSWCYStaker (sk_Address staker);
        staker_distributions minSWCYMultiple r ds
      else if sk_Amount staker <? to_u64 minSWCYMultiple then staker_distributions minSWCYMultiple r ds
      else
        match AccAddressFromBech32 (sk_Address staker) with
        | Ok acc => ds ← lift (appendDistribution ds acc (sk_Amount staker)); staker_distributions minSWCYMultiple r ds
        | Err _ => staker_distributions minSWCYMultiple r ds
        | Panic => lift Panic
        end
  end.
Definition getSWCYDistributions (minSWCYMultiple : Z) (claimAccount : string) : C (list swcyDistribution * Z) :=
  stakers ← ListSWCYStakers;
  ds ← staker_distributions minSWCYMultiple stakers ([], 0);
  claimingBalance ← chain_core (GetBalanceOfModule SWCYClaimingName (Assets.Native SWCY));
  ds ← lift (append_nonzero ds claimAccount claimingBalance);
  asgardBalance ← chain_core (GetBalanceOfModule AsgardName (Assets.Native SWCY));
  ds ← lift (append_nonzero ds claimAccount asgardBalance);
  swcySupply ← chain_core (GetTotalSupply SWCY);
  notClaimedSWCY ← lift (SafeSub swcySupply (snd ds));
  lift (append_nonzero ds claimAccount notClaimedSWCY).

(** The module of the claims pays SWITCH into the pool and takes the SWCY that keeps
    the product of the depths. *)
Definition claimingSwapSWITCHToSWCY : K () :=
  claimingSwapHalt ← GetConfigInt64 "SWCYClaimingSwapHalt";
  if 0 <? claimingSwapHalt then mret ()
  else
    claimingSWITCHBalance ← GetSWITCHBalanceOfModule SWCYClaimingName;
    if claimingSWITCHBalance =? 0 then mret ()
    else
      pool ← GetPool SWCY;
      _ ← SendFromModuleToModule SWCYClaimingName AsgardName [NewCoin SwitchNative claimingSWITCHBalance];
      assetDisbursement ← lift (AssetDisbursementForSwitchAdd pool claimingSWITCHBalance);
      b ← lift (uadd (BalanceSwitch pool) claimingSWITCHBalance);
      a ← lift (SafeSub (BalanceAsset pool) assetDisbursement);
      _ ← SetPool (set_BalanceAsset a (set_BalanceSwitch b pool));
      _ ← SendFromModuleToModule AsgardName SWCYClaimingName [NewCoin SWCY assetDisbursement];
      EmitEvent (EvPoolBalance (pool_asset pool) claimingSWITCHBalance true assetDisbursement false "swcy claiming swap").

(** One payment; a failure is logged. *)
Definition pay_distribution (claimAccount acc : string) (amt : Z) : C () :=
  sent ← attempt (chain_core
    (if bool_decide (acc = claimAccount) then SendFromModuleToModule SWCYStakeName SWCYClaimingName [NewCoin SwitchNative amt]
     else SendFromModuleToAccount SWCYStakeName acc [NewCoin SwitchNative amt]));
  match sent with
  | inl _ => chain_core (EmitEvent (EvSWCYDistribution acc amt))
  | inr _ => mret ()
  end.
Definition distribute_fund : C () :=
  halt ← chain_core (GetConfigInt64 "SWCYStakeDistributionHalt");
  if 0 <? halt then mret ()
  else
    swcyStakeBalance ← chain_core (GetSWITCHBalanceOfModule SWCYStakeName);
    minSWITCHMultiple ← chain_core (GetConfigInt64 "MinSWITCHForSWCYStakeDistribution");
    minSWCYMultiple ← chain_core (GetConfigInt64 "MinSWCYForSWCYStakeDistribution");
    let claimingAcc := module_address SWCYClaimingName in
    let toDistribute := getSWCYStakeAmountToDistribute swcyStakeBalance minSWITCHMultiple in
    if toDistribute =? 0 then mret ()
    else
      '(ds, distributable) ← getSWCYDistributions minSWCYMultiple claimingAcc;
      for_each (λ '(acc, amount), pay_distribution claimingAcc acc (GetSafeShare amount distributable toDistribute)) ds.
(** The swap follows the distribution in every case; its failure is logged. *)
Definition distributeSWCYStake : C () :=
  _ ← distribute_fund;
  _ ← attempt (chain_core claimingSwapSWITCHToSWCY);
  mret ().
End SWCYRewards.

(** ** The swap *)

Section SwapFacts.
  Context `{CosmosMath} `{Bank} `{Env} `{!PubKeys} `{UpgradeKeeper}.

Definition swcy_pool (s : State) : Pool := default NewPool (pools s !! GetKey (Assets.Str SWCY)).
(** What the asgard module has beyond the depths of the pools. *)
Definition switch_surplus (s : State) : Z := module_switch AsgardName s - pooled s.
Definition swcy_surplus (s : State) : Z := bank_balance (bank s) (Module_acc AsgardName) (Assets.Native SWCY) - BalanceAsset (swcy_pool s).

Lemma send_swcy from to amt s u s' :
  SendFromModuleToModule from to [NewCoin SWCY amt] s = (Ok u, s') → from ≠ to →
  ∃ b, s' = put_bank b s ∧ 0 < amt ∧ (∀ p, bank_balance b p "switch" = bank_balance (bank s) p "switch") ∧
    bank_balance b (Module_acc from) (Assets.Native SWCY) = bank_balance (bank s) (Module_acc from) (Assets.Native SWCY) - amt.
Proof.
  intros Hrun Hne. destruct u. apply in_bank_ok in Hrun as (b & Hsend & ->). cbn [map] in Hsend. rewrite native_swcy in Hsend.
  apply bank_send_law in Hsend as ([Hpos _] & _ & Hbal). exists b. split_and!; [done|done|..].
  - intros p. rewrite Hbal, !decide_False; [lia|intros [_ Heq]; by vm_compute in Heq..].
  - rewrite Hbal, decide_True, decide_False by naive_solver. lia.
Qed.
Lemma send_fails from to cs s e s' : SendFromModuleToModule from to [cs] s = (Err e, s') → s' = s.
Proof.
  unfold SendFromModuleToModule, in_bank. cbn [map]. destruct (bank_send _ _ _ _) as [o b] eqn:Hsend. intros [= -> <-].
  destruct (native_coin cs) as [d a]. apply bank_send_fails in Hsend as ->. by destruct s.
Qed.

(** SWITCH from the claims into the pool. *)
Lemma switch_to_pool amt s u s1 :
  SendFromModuleToModule SWCYClaimingName AsgardName [NewCoin SwitchNative amt] s = (Ok u, s1) →
  ∃ b, s1 = put_bank b s ∧ 0 < amt ∧ bank_balance b (Module_acc AsgardName) "switch" = module_switch AsgardName s + amt ∧
    ∀ p, bank_balance b p (Assets.Native SWCY) = bank_balance (bank s) p (Assets.Native SWCY).
Proof.
  intros Hrun. destruct u. apply in_bank_ok in Hrun as (b & Hsend & ->). cbn [map] in Hsend.
  change (native_coin (NewCoin SwitchNative amt)) with ("switch", amt) in Hsend.
  apply bank_send_law in Hsend as ([Hpos _] & _ & Hbal). exists b. split_and!; [done|done|..].
  - rewrite Hbal, decide_False, decide_True by naive_solver. unfold module_switch. lia.
  - intros p. rewrite Hbal, !decide_False; [lia|intros [_ Heq]; by vm_compute in Heq..].
Qed.

(** The pool gives no more than the product of the depths allows, up to the
    rounding of a division to eighteen decimals. *)
Definition swap_sane (pool : Pool) (amt : Z) : Prop :=
  let t := BalanceSwitch pool + amt in
  0 ≤ BalanceSwitch pool ∧ 0 ≤ amt ∧ t < 2 ^ 100 ∧ 0 ≤ BalanceAsset pool ≤ 10 ^ 17 ∧
  BalanceAsset pool * BalanceAsset pool ≤ 10 ^ 18 * t ∧
  (BalanceSwitch pool * BalanceAsset pool = 0 ∨ 3 * t ≤ BalanceSwitch pool * BalanceAsset pool).

Lemma share_of_depth a t amt :
  0 < a ≤ 10 ^ 17 → 0 < t < 2 ^ 100 → 0 ≤ amt ≤ t → a * a ≤ 10 ^ 18 * t →
  0 ≤ GetUncappedShare a t amt ∧ GetUncappedShare a t amt * t ≤ amt * a + 3 * t.
Proof.
  intros Ha Ht Hamt Hsq. assert (Hle : a ≤ 10 ^ 18 * t) by lia.
  destruct (uncapped_share_error a t amt ltac:(lia) ltac:(lia) ltac:(lia) Hle) as [Hr0 He]. set (r := GetUncappedShare a t amt) in *.
  split; [done|]. assert (Hlow : 10 ^ 18 * (r * t) ≤ 10 ^ 18 * (amt * a) + 10 ^ 18 * t + (r + 1) * a) by lia.
  assert (Hat : amt * a ≤ t * a) by (apply Z.mul_le_mono_nonneg_r; lia).
  assert (Hr : r ≤ a + 2).
  { destruct (Z.le_gt_cases r (a + 2)) as [|Hgt]; [done|]. exfalso.
    assert (Hk : (a + 3) * (10 ^ 18 * t - a) ≤ r * (10 ^ 18 * t - a)) by (apply Z.mul_le_mono_nonneg_r; lia). lia. }
  assert (Hra : (r + 1) * a ≤ (a + 3) * a) by (apply Z.mul_le_mono_nonneg_r; lia). lia.
Qed.
Lemma disbursement_range pool amt d :
  AssetDisbursementForSwitchAdd pool amt = Ok d → swap_sane pool amt → 0 < amt →
  0 ≤ d ≤ BalanceAsset pool ∧
  BalanceSwitch pool * BalanceAsset pool ≤ (BalanceSwitch pool + amt) * (BalanceAsset pool - d + 3).
Proof.
  intros Hd (Hs & Ha & Ht & Hb & Hsq & Hdeep) Hpos. unfold AssetDisbursementForSwitchAdd in Hd.
  destruct (Z.eqb_spec (BalanceSwitch pool) 0) as [Hz|Hz]; [injection Hd as <-; cbn; split; [lia|]; rewrite Hz; lia|].
  destruct (Z.eqb_spec (BalanceAsset pool) 0) as [Hz2|Hz2]; [injection Hd as <-; cbn; split; [lia|]; rewrite Hz2; lia|]. cbn [orb] in Hd.
  apply bind_ok in Hd as (t & [-> _]%uadd_inv & Hd).
  destruct (share_of_depth (BalanceAsset pool) (BalanceSwitch pool + amt) amt ltac:(lia) ltac:(lia) ltac:(lia) Hsq) as [Hr0 Hr].
  apply RoundToDecimal_le in Hd; [|done]. set (r := GetUncappedShare _ _ _) in *. set (a := BalanceAsset pool) in *. set (t := BalanceSwitch pool + amt) in *.
  assert (Hdr : d * t ≤ r * t) by (apply Z.mul_le_mono_nonneg_r; lia).
  assert (Hprod : d * t ≤ a * t - BalanceSwitch pool * a + 3 * t) by (unfold t in *; lia).
  split; [|unfold t in *; lia]. split; [lia|]. destruct Hdeep as [Hz3|Hdeep]; [nia|].
  apply (Z.mul_le_mono_pos_r _ _ t); lia.
Qed.

Definition pool_covered (s s' : State) : Prop :=
  pools_filed s' ∧ switch_surplus s ≤ switch_surplus s' ∧ swcy_surplus s ≤ swcy_surplus s'.
(** The books are exact, and so is the product of the depths up to rounding. *)
Definition pool_exact (s s' : State) : Prop :=
  switch_surplus s' = switch_surplus s ∧ swcy_surplus s' = swcy_surplus s ∧
  BalanceSwitch (swcy_pool s) * BalanceAsset (swcy_pool s) ≤ BalanceSwitch (swcy_pool s') * (BalanceAsset (swcy_pool s') + 3).

Lemma pool_saved s c b a u s1 :
  SetPool (set_BalanceAsset a (set_BalanceSwitch b (swcy_pool s))) (put_bank c s) = (Ok u, s1) → pools_filed s →
  pools_filed s1 ∧ bank s1 = c ∧ swcy_pool s1 = set_BalanceAsset a (set_BalanceSwitch b (swcy_pool s)) ∧
  pooled s1 = pooled s - BalanceSwitch (swcy_pool s) + b.
Proof.
  intros Hrun Hf. destruct u. apply SetPool_ok in Hrun as [He ->].
  assert (Hin : pools s !! GetKey (Assets.Str SWCY) = Some (swcy_pool s)).
  { unfold swcy_pool in *. destruct (pools s !! _); [done|]. by vm_compute in He. }
  change (pool_asset (set_BalanceAsset a (set_BalanceSwitch b (swcy_pool s)))) with (pool_asset (swcy_pool s)).
  rewrite <- (Hf _ _ Hin). split_and!.
  - intros k q. cbn. intros [[<- <-]|[_ Hq]]%lookup_insert_Some; [by apply (Hf _ (swcy_pool s))|by apply Hf].
  - done.
  - unfold swcy_pool at 1. cbn [pools put_pools]. by rewrite lookup_insert_eq.
  - unfold pooled. cbn [pools put_pools put_bank]. rewrite map_sum_insert, Hin. cbn. lia.
Qed.

Lemma swap_tail s amt c :
  pools_filed s → swap_sane (swcy_pool s) amt → 0 < amt →
  bank_balance c (Module_acc AsgardName) "switch" = module_switch AsgardName s + amt →
  (∀ p, bank_balance c p (Assets.Native SWCY) = bank_balance (bank s) p (Assets.Native SWCY)) →
  yields (pool_covered s) (λ s1, s1 = put_bank c s)
    (assetDisbursement ← lift (AssetDisbursementForSwitchAdd (swcy_pool s) amt);
     b ← lift (uadd (BalanceSwitch (swcy_pool s)) amt);
     a ← lift (SafeSub (BalanceAsset (swcy_pool s)) assetDisbursement);
     _ ← SetPool (set_BalanceAsset a (set_BalanceSwitch b (swcy_pool s)));
     _ ← SendFromModuleToModule AsgardName SWCYClaimingName [NewCoin SWCY assetDisbursement];
     EmitEvent (EvPoolBalance (pool_asset (swcy_pool s)) amt true assetDisbursement false "swcy claiming swap"))
    (λ _ s', pool_covered s s' ∧ pool_exact s s').
Proof.
  intros Hf Hsane Hpos Hsw Hsc. pose proof Hsane as (_ & _ & _ & HA & _).
  assert (HR0 : pool_covered s (put_bank c s)).
  { split_and!; [done|unfold switch_surplus, module_switch in *; cbn [bank put_bank]; change (pooled (put_bank c s)) with (pooled s); lia|].
    unfold swcy_surplus. cbn [bank put_bank]. rewrite Hsc. done. }
  set (priced d := 0 ≤ d ≤ BalanceAsset (swcy_pool s) ∧
    BalanceSwitch (swcy_pool s) * BalanceAsset (swcy_pool s) ≤ (BalanceSwitch (swcy_pool s) + amt) * (BalanceAsset (swcy_pool s) - d + 3)).
  eapply yields_bind with (Q := λ d s1, priced d ∧ s1 = put_bank c s).
  { apply yields_err; [by intros s1 ->|]. intros d s1 Hd ->. split; [|done]. eapply disbursement_range; done. }
  intros d. cbn beta. eapply yields_bind with (Q := λ b s1, b = BalanceSwitch (swcy_pool s) + amt ∧ priced d ∧ s1 = put_bank c s).
  { apply yields_err; [by intros s1 [_ ->]|]. by intros b s1 [-> _]%uadd_inv Hs. }
  intros b. cbn beta. eapply yields_bind with (Q := λ a s1, a = BalanceAsset (swcy_pool s) - d ∧ b = BalanceSwitch (swcy_pool s) + amt ∧ priced d ∧ s1 = put_bank c s).
  { apply yields_err; [by intros s1 (_ & _ & ->)|]. intros a s1 Ha (-> & Hd & ->). split; [|done]. destruct Hd. apply SafeSub_inv in Ha; lia. }
  intros a. cbn beta.
  eapply yields_bind with (Q := λ _ s1, priced d ∧ pools_filed s1 ∧ bank s1 = c ∧ pooled s1 = pooled s + amt ∧
    BalanceSwitch (swcy_pool s1) = BalanceSwitch (swcy_pool s) + amt ∧ BalanceAsset (swcy_pool s1) = BalanceAsset (swcy_pool s) - d).
  { intros s1 (-> & -> & Hd & ->). destruct (SetPool _ _) as [[u|e|] s2] eqn:E; [|unfold SetPool in E; destruct (Assets.IsEmpty _); [injection E as _ <-; exact HR0|discriminate E]|done].
    apply pool_saved in E as (Hf2 & Hb2 & Hp2 & Hpo2); [|done]. rewrite Hp2. split_and!; try done; try apply Hd. lia. }
  intros _. cbn beta.
  eapply yields_bind with (Q := λ _ s1, pool_covered s s1 ∧ pool_exact s s1).
  { intros s1 ([Hd Hprod] & Hf1 & Hb1 & Hpo1 & HS1 & HA1). destruct (SendFromModuleToModule _ _ _ s1) as [[u|e|] s2] eqn:E; [| |done].
    - apply send_swcy in E as (b2 & -> & _ & Hsw2 & Hsc2); [|done]. unfold pool_covered, pool_exact, switch_surplus, swcy_surplus, module_switch in *.
      change (swcy_pool (put_bank b2 s1)) with (swcy_pool s1). change (pooled (put_bank b2 s1)) with (pooled s1). cbn [bank put_bank].
      rewrite Hsw2, Hsc2, Hb1, Hsw, Hsc, HS1, HA1, Hpo1. split_and!; [done|lia..].
    - apply send_fails in E as ->. unfold pool_covered, switch_surplus, swcy_surplus, module_switch in *.
      rewrite Hb1, Hsw, Hsc, HA1, Hpo1. split_and!; [done|lia..]. }
  intros _ s1 Hs. exact Hs.
Qed.

(** C27: The swap keeps both assets of the asgard module covered, also when it fails
    half-way, and takes from the pool what the product of its depths allows, up to
    three units. *)
Theorem claiming_swap_keeps_the_pool_covered s :
  pools_filed s → swap_sane (swcy_pool s) (module_switch SWCYClaimingName s) →
  match claimingSwapSWITCHToSWCY s with
  | (Panic, _) => True
  | (r, s') => pool_covered s s' ∧ (r = Ok () → pool_exact s s')
  end.
Proof.
  intros Hf Hsane. pose proof Hsane as (HR & Hb & _ & HA & _).
  assert (Hsame : ∀ r : outcome (), pool_covered s s ∧ (r = Ok () → pool_exact s s)).
  { intros r. split; [by split_and!|]. intros _. split_and!; [done|done|lia]. }
  unfold claimingSwapSWITCHToSWCY. unfold mbind at 1, M_bind at 1. rewrite (reads_run (GetConfigInt64 _) s) by eauto with reads.
  destruct (fst (GetConfigInt64 _ s)) as [halt|e|]; [|apply Hsame|done]. destruct (0 <? halt); [apply (Hsame (Ok ()))|].
  unfold mbind at 1, M_bind at 1. change (GetSWITCHBalanceOfModule SWCYClaimingName s) with (Ok (module_switch SWCYClaimingName s), s).
  cbv iota beta. destruct (Z.eqb_spec (module_switch SWCYClaimingName s) 0); [apply (Hsame (Ok ()))|].
  unfold mbind at 1, M_bind at 1. change (GetPool SWCY s) with (Ok (swcy_pool s), s). cbv iota beta.
  unfold mbind at 1, M_bind at 1. destruct (SendFromModuleToModule _ _ _ s) as [[u|e|] s1] eqn:E1; [|apply send_fails in E1 as ->; apply (Hsame (Err e))|done].
  apply switch_to_pool in E1 as (c & -> & Hpos & Hb1 & Hsw1).
  pose proof (swap_tail s _ c Hf Hsane Hpos Hb1 Hsw1 _ eq_refl) as Hy.
  match type of Hy with context [match ?x with pair _ _ => _ end] => destruct x as [[v|e|] s'] end; [by destruct Hy|by split|done].
Qed.
End SwapFacts.

(** ** The distribution *)

Section Distribution.
  Context `{CosmosMath} `{Bank} `{Env} `{!PubKeys} `{UpgradeKeeper} `{!SWCYContract}.

Definition claim_account : string := module_address SWCYClaimingName.
(** Where a share goes. *)
Definition payee (acc : string) : party := if bool_decide (acc = claim_account) then Module_acc SWCYClaimingName else User_acc acc.

(** Each stake of the list comes with an amount that was paid for it. *)
Definition fund_pays (ds : list swcyDistribution) (paid : list Z) (p : party) : Z :=
  sumZ (zip_with (λ d x, one_of (payee (fst d)) x p) ds paid) - one_of (Module_acc SWCYStakeName) (sumZ paid) p.
Definition paid_or_not (total fund : Z) (d : swcyDistribution) (x : Z) : Prop := x = 0 ∨ x = GetSafeShare (snd d) total fund.

Lemma pay_distribution_ok acc amt s u s' :
  pay_distribution claim_account acc amt s = (Ok u, s') → pools_filed (chain_state_core s) →
  ∃ x, (x = 0 ∨ x = amt) ∧ swcyStakers s' = swcyStakers s ∧
    transfers (λ p, one_of (payee acc) x p - one_of (Module_acc SWCYStakeName) x p) 0 (chain_state_core s) (chain_state_core s').
Proof.
  intros Hrun Hf. unfold pay_distribution in Hrun. run_step Hrun r s1 E. unfold attempt in E.
  destruct (chain_core _ s) as [[v|e|] s2] eqn:E2; [| |done]; injection E as <- <-.
  - apply in_vaults_outer in E2 as Hout. apply chain_core_ok in E2 as (c & E2 & ->).
    assert (Ht : transfers (λ p, one_of (payee acc) amt p - one_of (Module_acc SWCYStakeName) amt p) 0 (chain_state_core s) c).
    { unfold payee. case_bool_decide; by apply send_transfers in E2. }
    exists amt. split; [by right|]. rewrite chain_core_run in Hrun. injection Hrun as _ <-. split; [done|].
    unfold with_chain_core, chain_state_core in *. cbn [cs_vaults put_cs_vaults]. rewrite !the_core_with. destruct Ht. by split.
  - exists 0. apply ret_ok in Hrun as [_ ->]. assert (s2 = s) as ->.
    { rewrite chain_core_run in E2. injection E2 as E2 <-. assert (Hid : ∀ c, c = chain_state_core s → with_chain_core c s = s) by (intros ? ->; apply chain_core_id).
      apply Hid. case_bool_decide.
      - destruct (SendFromModuleToModule _ _ _ _) as [o c] eqn:E3. cbn in *. subst o. by apply send_fails in E3.
      - unfold SendFromModuleToAccount, in_bank in *. cbn [map] in *. destruct (bank_send _ _ _ _) as [o b] eqn:Hsend. cbn in *. subst o.
        apply bank_send_fails in Hsend as ->. by destruct (chain_state_core s). }
    split; [by left|]. split; [done|]. eapply transfers_ext; [by apply transfers_none| |done]. intros p. unfold one_of. repeat case_decide; lia.
Qed.

Lemma pay_all ds total fund s u s' :
  for_each (λ '(acc, amount), pay_distribution claim_account acc (GetSafeShare amount total fund)) ds s = (Ok u, s') →
  pools_filed (chain_state_core s) →
  ∃ paid, Forall2 (paid_or_not total fund) ds paid ∧ swcyStakers s' = swcyStakers s ∧
    transfers (fund_pays ds paid) 0 (chain_state_core s) (chain_state_core s').
Proof.
  revert s. induction ds as [|[acc amount] ds IH]; intros s Hrun Hf; cbn [for_each] in Hrun.
  { apply ret_ok in Hrun as [_ ->]. exists []. split; [constructor|]. split; [done|]. eapply transfers_ext; [by apply transfers_none| |done].
    intros p. unfold fund_pays, one_of. cbn. case_decide; lia. }
  run_step Hrun w s1 E. apply pay_distribution_ok in E as (x & Hx & Hk & Ht); [|done]. apply IH in Hrun as (paid & Hp & Hk2 & Ht2); [|apply Ht].
  exists (x :: paid). split; [by constructor|]. split; [congruence|]. eapply transfers_ext; [by eapply transfers_trans| |done].
  intros p. change (fund_pays ((acc, amount) :: ds) (x :: paid) p) with (one_of (payee acc) x p
    + sumZ (zip_with (λ d x, one_of (payee (fst d)) x p) ds paid) - one_of (Module_acc SWCYStakeName) (x + sumZ paid) p).
  unfold fund_pays, one_of. case_decide; case_decide; lia.
Qed.

(** ** Who takes part *)

Definition listed_staker (s : ChainState) (r : SWCYStaker) : Prop :=
  (∃ k, swcyStakers s !! k = Some r) ∨
  (sk_Address r = SWCYSmartContractAddress ∧ ∃ acc, sk_Amount r = bank_balance (bank (chain_state_core s)) (User_acc acc) (Assets.Native SWCY)).
(** A stake of at least the minimum, or a part for the claims. *)
Definition entitled (s : ChainState) (least : Z) (d : swcyDistribution) : Prop :=
  (fst d = claim_account ∧ 0 ≤ snd d) ∨
  ∃ r, listed_staker s r ∧ AccAddressFromBech32 (sk_Address r) = Ok (fst d) ∧ snd d = sk_Amount r ∧ to_u64 least ≤ snd d.
Definition stakers_filed (s : ChainState) : Prop := ∀ k r, swcyStakers s !! k = Some r → k = GetKey (sk_Address r).

(** The distributions that have been gathered: their sum, and who takes part. *)
Definition gathered (s : ChainState) (least : Z) (ds : list swcyDistribution * Z) (s1 : ChainState) : Prop :=
  snd ds = sumZ (snd <$> fst ds) ∧ Forall (entitled s least) (fst ds) ∧
  cs_vaults s1 = cs_vaults s ∧ swcyStakers s1 ⊆ swcyStakers s ∧ staked s1 = staked s ∧ stakers_filed s1.

Lemma append_ok s least ds acc amt r s1 :
  appendDistribution ds acc amt = Ok r → gathered s least ds s1 → entitled s least (acc, amt) → gathered s least r s1.
Proof.
  unfold appendDistribution. intros (t & [-> _]%uadd_inv & [= <-])%bind_ok (Hs & Hf & Hrest) He. split; [|split; [|done]].
  - cbn. rewrite fmap_app, sumZ_app, Hs. cbn. lia.
  - cbn. apply Forall_app. split; [done|]. by constructor.
Qed.
Lemma append_nonzero_ok s least ds amt r s1 :
  append_nonzero ds claim_account amt = Ok r → gathered s least ds s1 → 0 ≤ amt → gathered s least r s1 ∧ snd r = snd ds + amt.
Proof.
  unfold append_nonzero. intros Hr Hg Ha. destruct (Z.eqb_spec amt 0) as [->|]; [injection Hr as <-; split; [done|lia]|].
  split; [eapply append_ok; [done|done|by left]|]. unfold appendDistribution in Hr. by apply bind_ok in Hr as (t & [-> _]%uadd_inv & [= <-]).
Qed.

(** A staker of the list is the contract or is in the store. *)
Definition own_record (s : ChainState) (k : SWCYStaker) : Prop :=
  IsSWCYSmartContractAddress (sk_Address k) = true ∨ swcyStakers s !! GetKey (sk_Address k) = Some k.

Lemma delete_empty_staker s least ds k s1 u s2 :
  DeleteSWCYStaker (sk_Address k) s1 = (Ok u, s2) → gathered s least ds s1 → own_record s k → sk_Amount k = 0 →
  IsSWCYSmartContractAddress (sk_Address k) = false → gathered s least ds s2.
Proof.
  unfold DeleteSWCYStaker. intros Hrun (H1' & H2' & Hv & Hsub & Hst & Hf) Hown Hz Hc. rewrite Hc in Hrun. injection Hrun as _ <-.
  destruct Hown as [Hc2|Hown]; [congruence|]. unfold gathered. cbn [swcyStakers put_swcyStakers cs_vaults]. split_and!; [done|done|done| | |].
  - by etransitivity; [apply delete_subseteq|].
  - rewrite <- Hst. unfold staked. cbn [swcyStakers put_swcyStakers]. destruct (swcyStakers s1 !! GetKey (sk_Address k)) as [x|] eqn:Hx.
    + rewrite (map_sum_delete sk_Amount (swcyStakers s1) _ _ Hx). pose proof (lookup_weaken _ _ _ _ Hx Hsub) as Hx2.
      rewrite Hown in Hx2. injection Hx2 as <-. lia.
    + by rewrite delete_id.
  - intros j x Hj. cbn [swcyStakers put_swcyStakers] in Hj. apply lookup_delete_Some in Hj as [_ Hj]. by apply Hf.
Qed.

Lemma staker_distributions_ok s least stakers ds r s1 s2 :
  staker_distributions least stakers ds s1 = (Ok r, s2) → gathered s least ds s1 →
  Forall (λ k, listed_staker s k ∧ own_record s k) stakers → gathered s least r s2.
Proof.
  revert ds s1. induction stakers as [|k l IH]; intros ds s1 Hrun Hg Hl; cbn [staker_distributions] in Hrun.
  { by apply ret_ok in Hrun as [-> ->]. }
  apply list.Forall_cons in Hl as [[Hk Hown] Hl].
  destruct (_ && _) eqn:Hz.
  - apply andb_prop in Hz as [Hz%Z.eqb_eq Hc%negb_true_iff].
    run_step Hrun u s3 E. apply IH in Hrun; [done| |done]. by eapply delete_empty_staker.
  - destruct (Z.ltb_spec (sk_Amount k) (to_u64 least)); [by apply IH in Hrun|].
    destruct (AccAddressFromBech32 (sk_Address k)) as [acc|e|] eqn:Ha; [|by apply IH in Hrun|done].
    run_step Hrun ds1 s3 E. apply lift_ok in E as [E ->]. apply IH in Hrun; [done| |done].
    eapply append_ok; [done|done|]. right. exists k. by split_and!.
Qed.

Lemma ListSWCYStakers_ok s l s1 :
  ListSWCYStakers s = (Ok l, s1) → stakers_filed s → s1 = s ∧ Forall (λ k, listed_staker s k ∧ own_record s k) l.
Proof.
  intros Hrun Hf. unfold ListSWCYStakers in Hrun. run_step Hrun st s2 E. apply gets_ok in E as [-> ->].
  assert (Hst : Forall (λ k, listed_staker s k ∧ own_record s k) (snd <$> merge_sort key_le (map_to_list (swcyStakers s)))).
  { apply list.Forall_forall. intros k ([key k'] & -> & Hin)%list_elem_of_fmap.
    rewrite (merge_sort_Permutation key_le), elem_of_map_to_list in Hin. cbn. split; [left; by exists key|right]. by rewrite <- (Hf _ _ Hin). }
  assert (Hrd : only_reads getSWCYSmartContractAddressStaker) by (unfold getSWCYSmartContractAddressStaker; reads).
  run_step Hrun c s3 E. unfold attempt in E. rewrite (reads_run _ s Hrd) in E.
  destruct (fst (getSWCYSmartContractAddressStaker s)) as [k|e|] eqn:Ek; [| |done]; injection E as <- <-; apply ret_ok in Hrun as [-> ->]; (split; [done|]).
  - apply Forall_app. split; [done|]. constructor; [|done].
    unfold getSWCYSmartContractAddressStaker, mbind, M_bind, lift in Ek. destruct GetSWCYSmartContractAddress as [addr|e|] eqn:Haddr; [|done..].
    apply NewAddress_id in Haddr as [-> _]. destruct (AccAddressFromBech32 SWCYSmartContractAddress) as [acc|e|]; [|done..].
    rewrite chain_core_run in Ek. cbn in Ek. unfold as_uint64 in Ek. destruct (_ && _); [|done]. cbn in Ek. injection Ek as <-. split.
    + right. split; [done|]. exists acc. done.
    + left. by apply bool_decide_eq_true.
  - done.
Qed.

Lemma getSWCYDistributions_ok least s ds total s' :
  getSWCYDistributions least claim_account s = (Ok (ds, total), s') → stakers_filed s →
  gathered s least (ds, total) s' ∧
  ∃ supply, fst (GetTotalSupply SWCY (chain_state_core s)) = Ok supply ∧ supply ≤ total.
Proof.
  intros Hrun Hf. unfold getSWCYDistributions in Hrun. run_step Hrun l s1 E. apply ListSWCYStakers_ok in E as [-> Hl]; [|done].
  assert (Hg : gathered s least ([], 0) s) by (split_and!; [done|constructor|done|done|done|done]).
  run_step Hrun d1 s1 E. apply (staker_distributions_ok s) in E; [|done|done]. clear Hg. rename E into Hg1.
  assert (Hcore : chain_state_core s1 = chain_state_core s) by (unfold chain_state_core; destruct Hg1 as (_ & _ & -> & _); done).
  read_past Hrun c Ec. rewrite chain_reads_fst in Ec. injection Ec as <-. run_step Hrun d2 s2 E. apply lift_ok in E as [E ->].
  eapply (append_nonzero_ok s least) in E as [Hg2 _]; [|exact Hg1|apply bank_balance_nonneg].
  read_past Hrun a Ea. rewrite chain_reads_fst in Ea. injection Ea as <-. run_step Hrun d3 s2 E. apply lift_ok in E as [E ->].
  eapply (append_nonzero_ok s least) in E as [Hg3 _]; [|exact Hg2|apply bank_balance_nonneg].
  assert (Hrs : only_reads (GetTotalSupply SWCY)) by (unfold GetTotalSupply, GetPoolRagnarokStart; reads).
  apply reads_bind_ok in Hrun as (supply & Es & Hrun); [|by apply only_reads_chain_core]. rewrite chain_reads_fst, Hcore in Es.
  run_step Hrun n s2 E. apply lift_ok in E as [E ->]. apply lift_ok in Hrun as [Hr ->].
  unfold SafeSub in E. destruct (Z.ltb_spec supply (snd d3)).
  - injection E as <-. eapply (append_nonzero_ok s least) in Hr as [Hg4 Ht]; [|exact Hg3|lia]. split; [done|]. exists supply. split; [done|]. cbn in Ht. lia.
  - apply usub_inv in E as [-> _]. eapply (append_nonzero_ok s least) in Hr as [Hg4 Ht]; [|exact Hg3|lia]. split; [done|]. exists supply. split; [done|]. cbn in Ht. lia.
Qed.

Lemma amount_to_distribute fund least :
  0 ≤ fund → let n := getSWCYStakeAmountToDistribute fund least in 0 ≤ n ≤ fund ∧ (n ≠ 0 → (to_u64 least | n) ∧ to_u64 least ≤ n).
Proof.
  intros Hf. unfold getSWCYStakeAmountToDistribute. pose proof (to_u64_range least) as Hr. set (m := to_u64 least) in *.
  destruct (Z.eqb_spec m 0); cbn; [lia|]. destruct (Z.ltb_spec fund m); cbn; [lia|].
  pose proof (Z.mod_pos_bound fund m ltac:(lia)). pose proof (Z.mod_le fund m ltac:(lia) ltac:(lia)). split; [lia|]. intros _.
  rewrite Z.mod_eq by lia. replace (fund - (fund - m * (fund / m))) with (m * (fund / m)) by lia. split; [by exists (fund / m); lia|].
  pose proof (Z.div_le_lower_bound fund m 1 ltac:(lia) ltac:(lia)). nia.
Qed.

(** What the distribution of [n] of the fund over the stakes [ds] has done. *)
Record shared (s s' : ChainState) (n : Z) (ds : list swcyDistribution) (paid : list Z) : Prop := {
  sh_config : ds ≠ [] → ∃ multiple, fst (GetConfigInt64 "MinSWITCHForSWCYStakeDistribution" (chain_state_core s)) = Ok multiple ∧
    n = getSWCYStakeAmountToDistribute (module_switch SWCYStakeName (chain_state_core s)) multiple ∧ (to_u64 multiple | n);
  sh_entitled : ∃ least, (ds ≠ [] → fst (GetConfigInt64 "MinSWCYForSWCYStakeDistribution" (chain_state_core s)) = Ok least) ∧
    Forall (entitled s least) ds;
  sh_paid : Forall2 (paid_or_not (sumZ (snd <$> ds)) n) ds paid;
  sh_supply : ds ≠ [] → ∃ supply, fst (GetTotalSupply SWCY (chain_state_core s)) = Ok supply ∧ supply ≤ sumZ (snd <$> ds);
  sh_transfers : transfers (fund_pays ds paid) 0 (chain_state_core s) (chain_state_core s');
  sh_stakers : swcyStakers s' ⊆ swcyStakers s ∧ staked s' = staked s;
}.

Lemma paid_sum total n ds paid :
  Forall2 (paid_or_not total n) ds paid → Forall (λ d : swcyDistribution, 0 ≤ snd d ≤ total) ds → sumZ (snd <$> ds) ≤ total →
  total < 2 ^ 120 → 0 ≤ n ≤ 10 ^ 17 → 0 ≤ sumZ paid ≤ n + len ds.
Proof.
  intros Hp Hd Hs Ht Hn.
  pose proof (shares_sum total n (snd <$> ds)) as Hsum. unfold len in *. rewrite length_fmap in Hsum.
  assert (Hall : Forall (λ p, 0 ≤ p ≤ total) (snd <$> ds)).
  { apply list.Forall_forall. intros x (d & -> & Hin)%list_elem_of_fmap. rewrite list.Forall_forall in Hd. by apply Hd. }
  specialize (Hsum Hall Hs Ht Hn). enough (Hle : 0 ≤ sumZ paid ≤ sumZ ((λ p, GetUncappedShare p total n) <$> (snd <$> ds))).
  { split; [apply Hle|]. etransitivity; [apply Hle|exact Hsum]. }
  clear Hsum Hs Hall. induction Hp as [|d x ds paid Hx Hp IH]; [cbn; lia|]. apply list.Forall_cons in Hd as [Hd Hds]. specialize (IH Hds).
  assert (Hsafe : GetSafeShare (snd d) total n = GetUncappedShare (snd d) total n).
  { unfold GetSafeShare. cbv zeta. destruct (Z.leb_spec total (snd d)); [|done]. by replace (snd d) with total by lia. }
  pose proof (GetUncappedShare_range (snd d) total n). rewrite !fmap_cons.
  change (0 ≤ x + sumZ paid ≤ GetUncappedShare (snd d) total n + sumZ ((λ p, GetUncappedShare p total n) <$> (snd <$> ds))).
  destruct Hx as [->| ->]; [lia|]. rewrite Hsafe. lia.
Qed.

(** C26: The SWITCH of the fund is shared by stakes: everyone who is paid has a stake of at
    least the minimum or is the module of the claims, which gets the part of all the
    SWCY that takes no part, and is paid the share of his stake in all the SWCY; what
    is paid leaves the fund, and is no more than the amount to distribute, itself a
    multiple of the configured one, but for rounding by less than one unit each. *)
Theorem fund_is_shared_by_stakes s s' :
  distribute_fund s = (Ok (), s') → pools_filed (chain_state_core s) → stakers_filed s →
  ∃ n ds paid, shared s s' n ds paid ∧ 0 ≤ n ≤ module_switch SWCYStakeName (chain_state_core s) ∧
    module_switch SWCYStakeName (chain_state_core s') = module_switch SWCYStakeName (chain_state_core s) - sumZ paid ∧
    ((∀ k r, swcyStakers s !! k = Some r → 0 ≤ sk_Amount r) → sumZ (snd <$> ds) < 2 ^ 120 → n ≤ 10 ^ 17 → sumZ paid ≤ n + len ds).
Proof.
  intros Hrun Hf Hst. unfold distribute_fund in Hrun.
  assert (Hnone : ∃ n ds paid, shared s s n ds paid ∧ 0 ≤ n ≤ module_switch SWCYStakeName (chain_state_core s) ∧
    module_switch SWCYStakeName (chain_state_core s) = module_switch SWCYStakeName (chain_state_core s) - sumZ paid ∧
    ((∀ k r, swcyStakers s !! k = Some r → 0 ≤ sk_Amount r) → sumZ (snd <$> ds) < 2 ^ 120 → n ≤ 10 ^ 17 → sumZ paid ≤ n + len ds)).
  { exists 0, [], []. split; [|split_and!; [lia|apply bank_balance_nonneg|cbn; lia|cbn; unfold len; cbn; lia]]. split; [done| |constructor|done| |done].
    - exists 0. split; [done|constructor].
    - eapply transfers_ext; [by apply transfers_none| |done]. intros p. unfold fund_pays, one_of. cbn. case_decide; lia. }
  read_past Hrun halt Eh. destruct (0 <? halt); [by apply ret_ok in Hrun as [_ ->]|].
  read_past Hrun fund Ef. rewrite chain_reads_fst in Ef. injection Ef as <-. set (fund := bank_balance _ _ _) in *.
  read_past Hrun multiple Em. rewrite chain_reads_fst in Em. read_past Hrun least El. rewrite chain_reads_fst in El. cbv zeta in Hrun.
  destruct (amount_to_distribute fund multiple (bank_balance_nonneg _ _ _)) as [Hn Hdiv]. set (n := getSWCYStakeAmountToDistribute fund multiple) in *.
  destruct (Z.eqb_spec n 0) as [_|Hnz]; [by apply ret_ok in Hrun as [_ ->]|].
  run_step Hrun d s1 E. destruct d as [ds total]. apply getSWCYDistributions_ok in E as [(Htot & Hent & Hv & Hsub & Hstk & _) Hsup]; [|done].
  cbn [fst snd] in *. assert (Hcore : chain_state_core s1 = chain_state_core s) by (unfold chain_state_core; by rewrite Hv).
  apply pay_all in Hrun as (paid & Hpaid & Hk & Ht); [|by rewrite Hcore]. rewrite Hcore in Ht.
  exists n, ds, paid. split; [|split_and!; [lia|apply Hn| |]].
  - split.
    + intros _. exists multiple. split; [exact Em|]. split; [done|by apply Hdiv].
    + exists least. by split.
    + by rewrite <- Htot.
    + rewrite <- Htot. intros _. destruct Hsup as (supply & ? & ?). by exists supply.
    + done.
    + rewrite Hk. unfold staked in *. rewrite Hk. by split.
  - unfold module_switch. rewrite (tr_balance _ _ _ _ Ht). unfold fund_pays.
    assert (Hz : sumZ (zip_with (λ d x, one_of (payee (fst d)) x (Module_acc SWCYStakeName)) ds paid) = 0).
    { clear. revert paid. induction ds as [|d ds IH]; intros [|x paid]; [done..|]. cbn [zip_with sumZ foldr]. unfold sumZ in IH. rewrite IH.
      unfold one_of, payee. case_decide as Hd; [|lia]. case_bool_decide; by vm_compute in Hd. }
    rewrite Hz. unfold one_of. rewrite decide_True by done. lia.
  - intros Hpos H120 H17. assert (Hnn : Forall (λ d : swcyDistribution, 0 ≤ snd d) ds).
    { eapply Forall_impl; [|exact Hent]. intros d [[_ ?]|(r & Hr & _ & -> & _)]; [done|]. destruct Hr as [[k Hr]|(_ & acc & ->)]; [by eapply Hpos|apply bank_balance_nonneg]. }
    eapply (paid_sum total); [exact Hpaid| |by rewrite Htot|by rewrite Htot|lia]. rewrite Htot.
    clear Hent Hpaid Ht Hsup Htot H120.
    apply list.Forall_forall. intros d Hin. apply list_elem_of_split in Hin as (l1 & l2 & ->). rewrite fmap_app, fmap_cons, sumZ_app.
    apply Forall_app in Hnn as [H1n [Hd H2n]%list.Forall_cons].
    assert (Hs : ∀ l : list swcyDistribution, Forall (λ d, 0 ≤ snd d) l → 0 ≤ sumZ (snd <$> l)).
    { intros l Hl. apply sumZ_nonneg. by apply list.Forall_fmap. }
    pose proof (Hs l1 H1n). pose proof (Hs l2 H2n). change (sumZ (snd d :: (snd <$> l2))) with (snd d + sumZ (snd <$> l2)). lia.
Qed.
End Distribution.

(** ** Witnesses *)

#[local] Existing Instance plain_keys.
#[local] Existing Instance small_contract.

(** Hugo and Ida have 600000 and 300000 of the million SWCY staked, John too little
    and Kate nothing any more; the fund has 2150 SWITCH, of which 2100 are
    distributed, and the module of the claims has ten to swap. *)
Definition reward_stakers : list SWCYStaker :=
  [NewSWCYStaker "swtc1hugo" (600000 * One); NewSWCYStaker "swtc1ida" (300000 * One); NewSWCYStaker "swtc1john" 50000; NewSWCYStaker "swtc1kate" 0].
Definition reward_swcy_pool : Pool := mkPool (1000 * One) (50000 * One) SWCY (1000 * One) Available 0 0 0 0 0.
Definition fund_ledger : BankRef.ledger :=
  BankRef.mkLedger (list_to_map [((Module_acc SWCYStakeName, Assets.Native SWCY), 900000 * One + 50000);
    ((Module_acc SWCYClaimingName, Assets.Native SWCY), 50000 * One - 50000); ((Module_acc AsgardName, Assets.Native SWCY), 50000 * One);
    ((Module_acc SWCYStakeName, "switch"), 2150 * One); ((Module_acc SWCYClaimingName, "switch"), 10 * One); ((Module_acc AsgardName, "switch"), 1000 * One)])
    (list_to_map [(Assets.Native SWCY, 1000000 * One); ("switch", 3160 * One)]).
Definition fund_chain : ChainState (H0 := one_plan) :=
  put_swcyStakers (list_to_map ((λ k, (GetKey (sk_Address k), k)) <$> reward_stakers))
    (with_chain_core (put_pools {[GetKey (Assets.Str SWCY) := reward_swcy_pool]}
       (put_mimirs (list_to_map [("SWCYSTAKEDISTRIBUTIONHALT", 0); ("SWCYCLAIMINGSWAPHALT", 0)]) (put_bank fund_ledger empty_state)))
      (only_vaults no_vaults)).

Lemma fund_filed : pools_filed (chain_state_core fund_chain).
Proof.
  intros k p Hk. change (pools (chain_state_core fund_chain)) with ({[GetKey (Assets.Str SWCY) := reward_swcy_pool]} : gmap string Pool) in Hk.
  by apply lookup_singleton_Some in Hk as [<- <-].
Qed.
Lemma fund_stakers_filed : stakers_filed fund_chain.
Proof.
  intros k r Hk. change (swcyStakers fund_chain) with (list_to_map ((λ k, (GetKey (sk_Address k), k)) <$> reward_stakers) : gmap string SWCYStaker) in Hk.
  apply elem_of_list_to_map_2, list_elem_of_fmap in Hk as (x & [= -> ->] & _). done.
Qed.

Definition user_switch_of (s : ChainState (H0 := one_plan)) (acc : string) : Z := bank_balance (bank (chain_state_core s)) (User_acc acc) "switch".
Lemma fund_is_shared_by_stakes_witness :
  let s' := snd (distribute_fund fund_chain) in
  user_switch_of s' "swtc1hugo" = 1260 * One ∧ user_switch_of s' "swtc1ida" = 630 * One ∧
  module_switch SWCYStakeName (chain_state_core s') = 50 * One ∧ staked s' = staked fund_chain ∧
  swcyStakers s' !! GetKey "swtc1kate" = None ∧ is_Some (swcyStakers fund_chain !! GetKey "swtc1kate").
Proof.
  cbn zeta. assert (fst (distribute_fund fund_chain) = Ok ()) as H by (vm_compute; reflexivity).
  destruct (fund_is_shared_by_stakes fund_chain (snd (distribute_fund fund_chain)) (run_pair _ _ H) fund_filed fund_stakers_filed)
    as (n & ds & paid & Hsh & _ & Hm & _).
  split_and!; [vm_compute; reflexivity..|apply (sh_stakers _ _ _ _ _ Hsh)|vm_compute; reflexivity|vm_compute; eauto].
Defined.

(** The day's distribution puts 210 SWITCH to the ten, which the pool takes for SWCY. *)
Lemma claiming_swap_keeps_the_pool_covered_witness :
  let s := chain_state_core (snd (distribute_fund fund_chain)) in let s' := snd (claimingSwapSWITCHToSWCY s) in
  module_switch SWCYClaimingName s = 220 * One ∧ module_switch SWCYClaimingName s' = 0 ∧
  BalanceSwitch (swcy_pool s') = 1220 * One ∧ BalanceAsset (swcy_pool s') = 4098360655738 ∧
  switch_surplus s' = switch_surplus s ∧ swcy_surplus s' = swcy_surplus s.
Proof.
  cbn zeta. set (s := chain_state_core (snd (distribute_fund fund_chain))).
  assert (fst (claimingSwapSWITCHToSWCY s) = Ok ()) as H by (vm_compute; reflexivity).
  assert (pools_filed s) as Hf.
  { intros k p Hk. assert (pools s = ({[GetKey (Assets.Str SWCY) := reward_swcy_pool]} : gmap string Pool)) as Hp by (vm_compute; reflexivity).
    rewrite Hp in Hk. by apply lookup_singleton_Some in Hk as [<- <-]. }
  assert (swap_sane (swcy_pool s) (module_switch SWCYClaimingName s)) as Hs.
  { assert (swcy_pool s = reward_swcy_pool) as -> by (vm_compute; reflexivity).
    assert (module_switch SWCYClaimingName s = 220 * One) as -> by (vm_compute; reflexivity). unfold swap_sane, reward_swcy_pool, One. cbn. lia. }
  pose proof (claiming_swap_keeps_the_pool_covered s Hf Hs) as Ht.
  destruct (claimingSwapSWITCHToSWCY s) as [r s'] eqn:E. cbn [fst snd] in *. subst r. destruct Ht as [_ Hx].
  destruct (Hx eq_refl) as (Hx1 & Hx2 & _). assert (s' = snd (claimingSwapSWITCHToSWCY s)) as -> by (by rewrite E).
  split_and!; [vm_compute; reflexivity..|exact Hx1|exact Hx2].
Defined.
